(* ===== verification/_CoqProject ===== *)
-Q . S2P
Prelude.v
Refusal.v
Net.v
Roles.v
Window.v
RateTable.v
Labels.v
Settings.v
Protocol.v
TokenBucket.v
Gates.v
Moderation.v
Wire.v
Social.v
Room.v
Media.v
Publication.v
RoomInv.v
RoomSteps.v
Process.v
Triples.v
Schedule.v
World.v
Chat.v
ChatDelivery.v
ChatEvents.v
ModerationOps.v
SettingsOps.v
Lobby.v
Membership.v
MediaOps.v
Lifecycle.v
ChatRequests.v
ChatTurns.v
SocialRequests.v
RoomRequests.v
WorldInv.v
Sections.v
CalmHandlers.v
ControlHandlers.v
ArrivalHandlers.v
LifecycleHandlers.v
ChatHandlers.v
Safety.v
Authority.v
Decisions.v
Races.v
Lru.v
SignIn.v
Tickets.v
Bandwidth.v
Workers.v
Routers.v
RouterInv.v
RouterSafety.v
MediaSafety.v
Transports.v
SessionInv.v
SessionSafety.v
MediaSessions.v
SavedModeration.v
SavedSanctions.v
SavedRetention.v
SavedRecords.v
Paging.v
Invites.v
InviteSafety.v
SavedHistory.v
HistoryInv.v
HistoryOps.v
HistorySteps.v
HistoryPages.v
HistorySafety.v
InboxDelivery.v
Saturation.v
