(* ===== verification/Prelude.v ===== *)
(** * SimplestChat: a verification of the room server

    SimplestChat is a chat and video server.  Clients connect over a WebSocket,
    join rooms, talk, publish and receive media, and moderate each other; rooms
    live in memory, saved rooms have a row in PostgreSQL, media runs in
    mediasoup workers.  The server is under [src/src/]; this library models its
    room manager and the budgets in front of it, and proves what they promise.

    ** The program and the files

    Values and limits, without concurrency:
    - [Refusal.v] ([room/refusal.rs], the classification of [room/control.rs]):
      errors and what a failed write leaves unknown;
    - [Net.v] ([net.rs]): the address identity limits and bans are keyed by;
    - [Labels.v] ([labels.rs], [ids.rs]): names, text, room identifiers, over the
      class [Unicode] of the tables the server takes from ICU;
    - [Roles.v] ([room/roles.rs]), [Settings.v] ([room/settings.rs]),
      [Protocol.v] ([signaling/protocol.rs]), [Moderation.v]
      ([room/moderation.rs]): the data of rooms and messages, authority tests,
      validation, and the rows of saved rooms and roles as finite maps on which
      the SQL of the code is executed;
    - [SavedModeration.v] ([room/moderation.rs]): the statements on saved
      sanctions, bans, reports and history, with their retention, executed on
      the tables; [SavedSanctions.v], [SavedRetention.v], [SavedRecords.v]: what
      they promise;
    - [Paging.v]: pages of ordered rows by a cursor, as several listings read
      them;
    - [Invites.v] ([invite_codes.rs], [room/invites.rs], [auth/invites.rs], part
      of [auth/routes.rs]): invitation codes, room and registration
      invitations, memberships, and the HTTP handlers over them;
      [InviteSafety.v]: what they promise;
    - [SavedHistory.v] ([room/history.rs], the statements on files of
      [attachments.rs], the checks of [room/social.rs], [auth/discovery.rs] and
      [auth/account.rs] they use): saving, paging, searching, editing and
      removing chat, reactions, pins, read markers, retention, the inbox and
      private messages, over the class [HistoryText] of cursors, identifiers and
      the database's [lower]; [HistoryInv.v], [HistoryOps.v], [HistorySteps.v]:
      the invariant of the tables, what each operation may change, and the state
      machine of all of them; [HistoryPages.v], [HistorySafety.v]: what they
      promise; [InboxDelivery.v]: the HTTP handlers that save a private message,
      an edit or a reaction and tell the rooms;
    - [Window.v] ([room/window.rs]), [RateTable.v] ([RateTable] of
      [room/mod.rs]), [TokenBucket.v] and [Gates.v]
      ([signaling/connection_token_bucket.rs], [connection_gates.rs]): the
      budgets of rooms, addresses and connections;
    - [Wire.v] ([signaling/outbound.rs]): bounded outbound queues, and the
      resynchronisation that replaces a message that does not fit;
    - [SignIn.v] ([auth/limiter.rs]), [Tickets.v] ([auth/ws_tickets.rs]): sign-in
      delays, registration windows and one-use socket tickets, over the classes
      [LruCache] of the lru crate ([Lru.v]) and [TicketSecrets] of base64 and
      SHA-256;
    - [Bandwidth.v] ([signaling/connection_bandwidth.rs]): when a change of the
      bandwidth estimate is applied.

    One room, as a record and functions on it:
    - [Social.v] ([RoomSocial] of [room/social.rs], [room/history.rs]): retained
      chat, receipts, pins, runtime bans, reports and moderation events;
    - [Room.v] ([Room] of [room/mod.rs]): members, lobby, index, bans, names;
    - [Media.v] ([room/manager/media_ops.rs]): who may publish, and revocation;
    - [Publication.v] ([room/publication.rs]): what a decision changes;
    - [RoomInv.v], [RoomSteps.v]: the invariant [room_ok] and that every
      mutation keeps it.

    The room manager, interleaved:
    - [Process.v], [Triples.v], [Schedule.v]: handlers as processes, the step
      relation over a pool of them, the rely-guarantee logic [wp] with what
      locks protect and what holds of them while they are free, its triples, and
      an executable scheduler;
    - [World.v] ([RoomManager], [room/control.rs], [shutdown.rs]): the state all
      handlers share, the questions they ask of the outside, the control order;
    - [Chat.v], [ChatEvents.v] ([room/social.rs]): what chat, typing, reactions,
      edits and pins do to a room under its lock, and what a member is shown,
      over the class [Codec] of serde, uuid and base64;
    - [ModerationOps.v], [SettingsOps.v], [Lobby.v], [Membership.v],
      [MediaOps.v], [Lifecycle.v]: the handlers of [room/manager/], whole;
    - [ChatRequests.v] (the handlers of [room/social.rs]), [ChatTurns.v] (what
      holds of a chat attempt, saved or not), [SocialRequests.v]
      ([room/social/preferences.rs], [chat_history.rs]), [RoomRequests.v]
      ([room/social/members.rs], [reports.rs], the dispatcher): chat commands
      and social requests, whole;
    - [WorldInv.v], [Sections.v], [CalmHandlers.v], [ControlHandlers.v],
      [ArrivalHandlers.v], [LifecycleHandlers.v], [ChatHandlers.v]: every
      handler keeps the invariant of the world and what the locks protect;
    - [ChatDelivery.v], [Safety.v], [Authority.v], [Decisions.v], [Races.v]: the
      theorems about the manager.

    The media registries, interleaved on the same foundation:
    - [Workers.v] ([media/worker_manager.rs]): the pool of workers, their load,
      and which one a router goes to;
    - [Routers.v] ([media/router_manager.rs]): the routers of rooms and of their
      viewers, pipes and leases, as processes that native calls interrupt;
    - [RouterInv.v], [RouterSafety.v], [MediaSafety.v]: the invariant of the
      registries, that every operation keeps it, and the theorems;
    - [Transports.v] ([media/transport_manager.rs], the check of transports in
      [media/config.rs]): media sessions with their transports, producers,
      consumers, layers and counts, each under a lock held across native calls;
    - [SessionInv.v], [SessionSafety.v], [MediaSessions.v]: the same for them;
    - [Saturation.v] ([saturation.rs]): the monitor that judges the process and
      each worker, in IEEE 754 binary64, beside the pool of workers.

    ** How the code is modelled

    A function that fails is a [result]; one that changes state under a lock and
    may return early is a [handler], which keeps what was changed before the
    return.  An async handler is a [process]: the code between two awaits that
    runs under a lock is one [Atomic] section, waiting for a lock is [Acquire],
    a spawned task is [Spawn], and everything asked of PostgreSQL, mediasoup, the
    password hasher and the timers is an [Await] whose answer is arbitrary.  A
    room is a cell of a heap; handlers hold its address as the code holds an
    [Arc], so a handler can act on a room that has left the map.  Time is a
    number of nanoseconds that never goes back; wide integers that can wrap or
    saturate do so as in the code.  The rooms' state locks are held for one
    section at a time and so do not appear; the creation lock and each room's
    control lock do.

    ** What the theorems show

    - [Safety.v]: for any number of the requests it lists in any interleaving,
      rooms stay consistent, every stream is one its owner may publish, control
      excludes every other writer, names lead to the rooms people are in, what a
      room remembers stays bounded, and a draining server opens no room.  The
      answers of the outside are arbitrary.  A deletion the database refuses may
      reopen a room somebody else closed ([WorldInv.out_of_turn]); what holds
      only until that happens says so.
    - [Races.v]: that execution, one in which recovery lifts a quarantine, and
      one in which a removed message stays readable in a pinned answer.
    - [ChatDelivery.v], [ChatTurns.v]: the chat protocol.  No sequence number of a
      membership is accepted twice, whatever is repeated, retried or forgotten,
      and whether or not the message is saved meanwhile; an accepted message
      reaches those it is for; one that is not accepted is seen by nobody; and a
      repeated one is answered with the message it became.
    - [Authority.v]: who may do what.  Requests that need a role are refused
      below it in every interleaving, only the author edits, private messages
      are shown to their two parties only, and names stay distinct.
    - [Decisions.v]: what one decision does: a ban reaches exactly the identities
      it names and keeps them out, joins end as the policy says, a policy change
      closes exactly the streams it forbids, an unknown write closes the room.
    - [Workers.v], [MediaSafety.v]: a router goes to the least loaded worker that
      can host it; a worker's load is, in every interleaving, what is registered
      on it and what running operations have reserved; nothing in use is
      replaced; and one execution in which a viewer router outlives its room.
    - [MediaSessions.v]: whatever overlaps, a removed session keeps no media, an
      open transport is never dropped and a receiver only replaced with a
      receipt, limits hold, forwarded estimates are the current receiver's, and a
      worker's consumer count is the number of its open consumers.
    - [Saturation.v]: while files are read and workers replaced, a worker is
      flagged exactly if it was last judged saturated; workers count as
      exhausted exactly if there are some and all are flagged; guards clear below
      where they trip; windows stay bounded.
    - [SavedSanctions.v], [SavedRecords.v], [SavedRetention.v]: the saved rows
      implement a table from rooms, kinds and identities to an expiry; a saved
      ban binds exactly whom it names; history and reports stay within their
      limits and no open report is lost; retention removes only what is over.
    - [InviteSafety.v]: redeeming a code does exactly what its preview shows,
      once per account; an invitation never lets in more accounts than it has
      uses; the pages of memberships leave out and repeat nothing; typed codes
      are read back; and one execution in which a room holds more working codes
      than its limit.
    - [HistorySafety.v]: in every state the tables can get into, history reads
      whole from any page, private messages are shown to their two accounts and
      the inbox lists every conversation, quotes say what their message says
      now, a message is saved once however often it is repeated, its words change
      only when its author edits it or when it is removed, and no account sends more than thirty private
      messages a minute; and one execution in which a repeated message that is
      past its time counts as new.  [InboxDelivery.v]: a message sent over HTTP
      reaches the rooms of the two accounts and nobody else.
    - [SignIn.v], [Tickets.v], [Bandwidth.v]: a wait is never longer than the
      failures of that address against that account have earned, and exactly
      that unless the table was full; a ticket opens one connection; the last
      estimate is applied, and no more often than the interval allows.
    - [Window.v], [RateTable.v], [TokenBucket.v], [Gates.v]: the budgets refine
      their specifications, bound every stretch of time, and never refuse the
      set-up of a call.
    - [Settings.v], [Roles.v], [Social.v], [Room.v], [Wire.v]: what is saved
      reads back, removal scrubs retained chat, reactions are idempotent, free
      names are found, and nobody misses a message without being resynchronised.

    ** Bounds

    Two loops of the code take fuel.  [Room.first_free], the search for a free
    name, gets one more than the number of names in the room, and
    [unique_name_is_free] shows that it always finds one.
    [Social.member_loop], which evicts receipts of one membership, gets the
    number of receipts, each turn removing one.  Every other loop is structural.
    A client that follows cursors ([Paging.follow], [HistoryPages.read_older],
    [read_newer], [read_inbox]) gets as much fuel as there are rows, or one more,
    since every page but the last has a row.  [SavedHistory.cleanup_turns] has
    the sixteen turns of the code.
    The length of a schedule in a witness is chosen so that its tasks have
    finished.

    ** Not modelled

    - [room/administration.rs] and [room/community.rs]: administration of saved
      rooms over HTTP by accounts that need not be in them.  These handlers
      write live rooms (settings, roles, bans, sanctions, lobby decisions, the
      room's name and topic) under the room's control, some through the
      functions of [room/publication.rs] modelled here.  They are not among the
      requests of [Safety.v], so the theorems on interleavings do not speak of
      executions in which they take part.
    - Cancellation of a request's future between two awaits, logs, and metrics
      other than those of the outbound queues.  Error texts of the media
      managers are without the identifiers and the native detail.
    - [run_room_control] runs an admitted operation in a task of its own; here it
      runs in the caller's.  [for_each_concurrent] and [join_all] run in order.
      Shutdown is modelled when its budget does not cut it short.
    - The notifications of [auth/updates.rs] that a saved private message sends
      to the other devices of an account, and the queue of push notifications:
      they carry no state of a room.  Preferences the database has but the code
      cannot decode are told apart from others; their JSON is not modelled.
    - To the handlers of the room manager every database call is an answer of
      the outside, also where the statement is modelled ([Settings.v], [Roles.v],
      [SavedModeration.v], [Invites.v], [SavedHistory.v]): they hold whatever the
      database says.  The SQL of accounts, mediasoup, the Argon2 hasher, ICU and serde's
      JSON are the outside, by their answers.
    - Locks of rows: a transaction on the tables is one step, as its advisory and
      row locks make it, and so is a listing; a statement that fails for a reason
      of its own is left out where its failure only rolls back.
    - Sockets, HTTP routes other than those of invitations and chat history,
      accounts and sessions, push, the upload and download of attachments,
      configuration, the parsing of kernel files, diagnostics and the web client:
      input and output around the manager.

    This file holds what every component shares: results and handlers, record
    updates, and facts about lists, maps and integers. *)

From stdpp Require Export base decidable option numbers list gmap strings sorting.
From stdpp Require Import tactics.

#[global] Set Default Goal Selector "!".

(** ** Results and handlers

    A fallible operation returns [result E A].  A handler that mutates state
    and may return early is a function [S -> S * result E A]: Rust keeps the
    mutations made before an early return, so the state is returned on both
    branches. *)

Inductive result (E A : Type) : Type :=
| Ok (a : A)
| Err (e : E).
Arguments Ok {E A} a.
Arguments Err {E A} e.

#[export] Instance result_eq_dec {E A} `{EqDecision E, EqDecision A} : EqDecision (result E A).
Proof. solve_decision. Defined.

Definition is_ok {E A} (r : result E A) : bool :=
  match r with Ok _ => true | Err _ => false end.

Definition result_bind {E A B} (r : result E A) (k : A -> result E B) : result E B :=
  match r with Ok a => k a | Err e => Err e end.

Definition ok_or {E A} (o : option A) (e : E) : result E A :=
  match o with Some a => Ok a | None => Err e end.

(** [handler E S A]: explicit state passing with errors. *)
Definition handler (E S A : Type) : Type := S -> S * result E A.

Definition hret {E S A} (a : A) : handler E S A := fun s => (s, Ok a).
Definition bail {E S A} (e : E) : handler E S A := fun s => (s, Err e).
Definition hbind {E S A B} (m : handler E S A) (k : A -> handler E S B) : handler E S B :=
  fun s => let '(s', r) := m s in
           match r with Ok a => k a s' | Err e => (s', Err e) end.
Definition hget {E S} : handler E S S := fun s => (s, Ok s).
Definition hput {E S} (s' : S) : handler E S unit := fun _ => (s', Ok tt).
Definition hmodify {E S} (f : S -> S) : handler E S unit := fun s => (f s, Ok tt).
Definition hlift {E S A} (r : result E A) : handler E S A := fun s => (s, r).
(** [ensure b e] continues when [b] holds and bails out with [e] otherwise. *)
Definition ensure {E S} (b : bool) (e : E) : handler E S unit :=
  if b then hret tt else bail e.

(** [map_err]. *)
Definition map_error {E F S A} (f : E -> F) (m : handler E S A) : handler F S A := fun s =>
  match m s with (s', Ok x) => (s', Ok x) | (s', Err e) => (s', Err (f e)) end.
(** A database transaction: an error rolls back what was done before it. *)
Definition transaction {E S A} (m : handler E S A) : handler E S A := fun s =>
  match m s with (s', Ok x) => (s', Ok x) | (_, Err e) => (s, Err e) end.

Declare Scope handler_scope.
Delimit Scope handler_scope with handler.
Bind Scope handler_scope with handler.
Notation "'let!' x ':=' m 'in' k" := (hbind m (fun x => k))
  (at level 10, x name, m at level 100, k at level 200) : handler_scope.
Notation "'let!' ' p ':=' m 'in' k" := (hbind m (fun x => match x with p => k end))
  (at level 10, p pattern, m at level 100, k at level 200) : handler_scope.
Notation "m ;; k" := (hbind m (fun _ => k))
  (at level 100, k at level 200, right associativity) : handler_scope.

(** ** Record update

    [r <| f := v |>] and [r <| f ::= g |>], for records with an [Eta]
    instance that spells the record out field by field. *)

Class Eta (R : Type) := eta_expand : R -> R.
Class Update {R T : Type} (proj : R -> T) := update_field : (T -> T) -> R -> R.
Arguments update_field {R T} proj {_} _ _ /.

Ltac derive_update :=
  match goal with
  | |- @Update ?R ?T ?proj =>
      let inst := constr:(_ : Eta R) in
      let body := eval hnf in inst in
      match eval pattern proj in body with
      | ?f _ => let g := constr:(fun (upd : T -> T) => f (fun r => upd (proj r))) in
                let g := eval cbv beta in g in exact g
      end
  end.
#[export] Hint Extern 0 (Update _) => derive_update : typeclass_instances.

Declare Scope record_scope.
Delimit Scope record_scope with record.
#[global] Open Scope record_scope.
Notation "r <| f ::= g |>" := (update_field f g r)
  (at level 1, f at level 0, g at level 200, left associativity) : record_scope.
Notation "r <| f := v |>" := (update_field f (fun _ => v) r)
  (at level 1, f at level 0, v at level 200, left associativity) : record_scope.

(** ** Machine integers

    Unsigned Rust integers are [N] with their wrap-around or saturation
    written out; [i32] and [i64] values are [Z]. *)

Definition U32_MAX : N := (2 ^ 32 - 1)%N.
Definition U64_MAX : N := (2 ^ 64 - 1)%N.
Definition USIZE_MAX : N := U64_MAX.

Definition u32_saturating_add (a b : N) : N := N.min (a + b) U32_MAX.
Definition u64_saturating_add (a b : N) : N := N.min (a + b) U64_MAX.
Definition u64_saturating_mul (a b : N) : N := N.min (a * b) U64_MAX.
Definition u64_wrapping_add (a b : N) : N := ((a + b) mod 2 ^ 64)%N.
(** [saturating_sub] is [N]'s truncated subtraction. *)
Definition saturating_sub (a b : N) : N := (a - b)%N.

(** ** Time

    An [Instant] is a monotonic clock reading and a [Duration] a span, both in
    nanoseconds.  [Instant::duration_since] saturates at zero. *)

Abbreviation instant := N (only parsing).
Abbreviation duration := N (only parsing).

Definition NANOS : N := 1000000000.
Definition from_secs (s : N) : duration := (s * NANOS)%N.
Definition from_millis (ms : N) : duration := (ms * 1000000)%N.
Definition as_micros (d : duration) : N := (d / 1000)%N.
Definition duration_since (now earlier : instant) : duration := (now - earlier)%N.
(** The largest second an [Instant] holds on the supported targets (an [i64]
    [tv_sec]); [checked_add] past it is [None]. *)
Definition INSTANT_MAX : N := (from_secs (2 ^ 63 - 1) + (NANOS - 1))%N.
Definition instant_checked_add (i : instant) (d : duration) : option instant :=
  if (i + d <=? INSTANT_MAX)%N then Some (i + d)%N else None.

(** ** Text

    A Rust [char] is a Unicode scalar value; a [str] its sequence.  [len] is
    the UTF-8 length. *)

Abbreviation char := N (only parsing).
Abbreviation text := (list N) (only parsing).

Definition len_utf8 (c : char) : N :=
  if (c <? 128)%N then 1 else if (c <? 2048)%N then 2 else if (c <? 65536)%N then 3 else 4.
Definition text_len (t : text) : N := foldr (fun c n => (len_utf8 c + n)%N) 0%N t.

Definition in_range (lo hi c : N) : bool := ((lo <=? c) && (c <=? hi))%N.

(** [char::is_control]: general category Cc. *)
Definition is_control (c : char) : bool := in_range 0 31 c || in_range 127 159 c.

(** [char::is_whitespace]: the White_Space property. *)
Definition is_whitespace (c : char) : bool :=
  in_range 9 13 c || (c =? 32)%N || (c =? 133)%N || (c =? 160)%N || (c =? 5760)%N
  || in_range 8192 8202 c || (c =? 8232)%N || (c =? 8233)%N || (c =? 8239)%N
  || (c =? 8287)%N || (c =? 12288)%N.

Fixpoint trim_start (t : text) : text :=
  match t with
  | [] => []
  | c :: t' => if is_whitespace c then trim_start t' else t
  end.
Definition trim_end (t : text) : text := reverse (trim_start (reverse t)).
Definition trim (t : text) : text := trim_end (trim_start t).

(** ASCII literals of the source as [text]. *)
Definition text_of (s : string) : text := Ascii.N_of_ascii <$> String.list_ascii_of_string s.

(** ** Tactics and hints *)

Create HintDb chat discriminated.
Create Rewrite HintDb chat.

(** Split every conjunction and boolean test in the context. *)
Ltac bool_hyps :=
  repeat match goal with
  | H : _ /\ _ |- _ => destruct H
  | H : andb _ _ = true |- _ => apply andb_true_iff in H; destruct H
  | H : orb _ _ = false |- _ => apply orb_false_iff in H; destruct H
  | H : negb _ = true |- _ => apply negb_true_iff in H
  | H : negb _ = false |- _ => apply negb_false_iff in H
  | H : (_ <? _)%N = true |- _ => apply N.ltb_lt in H
  | H : (_ <? _)%N = false |- _ => apply N.ltb_ge in H
  | H : (_ <=? _)%N = true |- _ => apply N.leb_le in H
  | H : (_ <=? _)%N = false |- _ => apply N.leb_gt in H
  | H : (_ =? _)%N = true |- _ => apply N.eqb_eq in H
  | H : (_ =? _)%N = false |- _ => apply N.eqb_neq in H
  | H : (_ <? _)%nat = true |- _ => apply Nat.ltb_lt in H
  | H : (_ <? _)%nat = false |- _ => apply Nat.ltb_ge in H
  | H : (_ <=? _)%nat = true |- _ => apply Nat.leb_le in H
  | H : (_ <=? _)%nat = false |- _ => apply Nat.leb_gt in H
  | H : bool_decide _ = true |- _ => apply bool_decide_eq_true in H
  | H : bool_decide _ = false |- _ => apply bool_decide_eq_false in H
  end.

(** Case on the scrutinee of some [match] or [if] in the goal or a hypothesis. *)
Ltac case_match_any :=
  match goal with
  | |- context [match ?e with _ => _ end] => destruct e eqn:?
  | H : context [match ?e with _ => _ end] |- _ => destruct e eqn:?
  end.

(** Run a handler equation to its leaves: unfold the monad, split every test
    and drop the impossible branches. *)
Ltac handler_cases :=
  unfold hret, bail, hbind, hget, hput, hmodify, hlift, ensure in *;
  repeat (cbn in *; first [case_match_any | progress simplify_eq]).

(** ** Generic lemmas *)

Lemma hbind_ok {E S A B} (m : handler E S A) (k : A -> handler E S B) s s' b :
  hbind m k s = (s', Ok b) ->
  exists s1 a, m s = (s1, Ok a) /\ k a s1 = (s', Ok b).
Proof. unfold hbind. destruct (m s) as [s1 [a|e]]; intros; simplify_eq; eauto. Qed.

Lemma transaction_cases {E S A} (m : handler E S A) s s' r :
  transaction m s = (s', r) -> m s = (s', r) \/ s' = s /\ exists e, r = Err e.
Proof. unfold transaction. destruct (m s) as [s1 [x|e]]; intros [= <- <-]; [by left|right; eauto]. Qed.

Lemma transaction_Ok {E S A} (m : handler E S A) s s' x : transaction m s = (s', Ok x) -> m s = (s', Ok x).
Proof. unfold transaction. by destruct (m s) as [s1 [y|e]]. Qed.
Lemma transaction_Err {E S A} (m : handler E S A) s s' e : transaction m s = (s', Err e) -> s' = s.
Proof. unfold transaction. by destruct (m s) as [s1 [y|e']]; intros; simplify_eq. Qed.

Lemma ensure_ok {E S} b (e : E) (s s' : S) u : ensure b e s = (s', Ok u) -> b = true /\ s' = s.
Proof. unfold ensure, hret, bail. destruct b; intros; simplify_eq; auto. Qed.

Lemma u64_saturating_add_le a b : (a <= U64_MAX -> a <= u64_saturating_add a b)%N.
Proof. unfold u64_saturating_add, U64_MAX. lia. Qed.
