(* ===== verification/Refusal.v ===== *)
(** * Refusals and persistence outcomes ([src/src/room/refusal.rs] and the
      classification of [src/src/room/control.rs])

    Every failure of a room operation is a [refusal] with a client-safe
    message, a database error, or a plain message; sockets answer with an
    [error_code] and HTTP handlers with a status. *)

From S2P Require Import Prelude.

Inductive error_code :=
| CodeInvalidMessage | CodeInvalid | CodeForbidden | CodeNotFound
| CodeRateLimited | CodeUnavailable | CodeTimedOut | CodeRequestFailed.
#[export] Instance error_code_eq_dec : EqDecision error_code.
Proof. solve_decision. Defined.

(** [ErrorCode::name], the wire name. *)
Definition error_code_name (c : error_code) : string :=
  match c with
  | CodeInvalidMessage => "invalid_message"
  | CodeInvalid => "invalid"
  | CodeForbidden => "forbidden"
  | CodeNotFound => "not_found"
  | CodeRateLimited => "rate_limited"
  | CodeUnavailable => "unavailable"
  | CodeTimedOut => "timed_out"
  | CodeRequestFailed => "request_failed"
  end.

Inductive refusal :=
| NotFound (message : string)
| Unauthorized (message : string)
| Forbidden (message : string)
| Invalid (message : string)
| Conflict (message : string)
| RateLimited (message : string)
| Unavailable (message : string)
| TimedOut (message : string).
#[export] Instance refusal_eq_dec : EqDecision refusal.
Proof. solve_decision. Defined.

Definition refusal_message (r : refusal) : string :=
  match r with
  | NotFound m | Unauthorized m | Forbidden m | Invalid m
  | Conflict m | RateLimited m | Unavailable m | TimedOut m => m
  end.

Definition refusal_code (r : refusal) : error_code :=
  match r with
  | NotFound _ => CodeNotFound
  | Unauthorized _ | Forbidden _ => CodeForbidden
  | Invalid _ | Conflict _ => CodeInvalid
  | RateLimited _ => CodeRateLimited
  | Unavailable _ => CodeUnavailable
  | TimedOut _ => CodeTimedOut
  end.

Definition refusal_status (r : refusal) : N :=
  match r with
  | NotFound _ => 404
  | Unauthorized _ => 401
  | Forbidden _ => 403
  | Invalid _ => 400
  | Conflict _ => 409
  | RateLimited _ => 429
  | Unavailable _ | TimedOut _ => 503
  end.

(** The cases of [sqlx::Error] the server distinguishes; [SqlOther] is every
    other one. *)
Inductive sqlx_error :=
| SqlDatabase (code : option string)
| PoolTimedOut
| PoolClosed
| InvalidArgument (message : string)
| RowNotFound
| SqlProtocol (message : string)
| SqlOther (message : string).
#[export] Instance sqlx_error_eq_dec : EqDecision sqlx_error.
Proof. solve_decision. Defined.

Inductive room_error :=
| Refused (r : refusal)
| Database (e : sqlx_error).
#[export] Instance room_error_eq_dec : EqDecision room_error.
Proof. solve_decision. Defined.

Inductive password_hash_error := Busy | HashFailed.

Definition password_hash_message (e : password_hash_error) : string :=
  match e with
  | Busy => "Password service is busy; try again"
  | HashFailed => "Password update failed"
  end.

Definition room_error_of_hash (e : password_hash_error) : room_error :=
  Refused (Unavailable (password_hash_message e)).

(** What the room manager's [anyhow] errors carry: a message of [bail!] or
    [ensure!], a [SocialFailure] with the code its client switches on, the
    password challenge of a join, or a room error passed on. *)
Inductive failure :=
| Message (m : string)
| SocialFailure (code : error_code) (m : string)
| PasswordRequired
| OfRoomError (e : room_error).
#[export] Instance failure_eq_dec : EqDecision failure.
Proof. solve_decision. Defined.
Coercion Message : string >-> failure.

(** [anyhow::bail!] and [anyhow::ensure!]. *)
Definition anyhow_bail {S A} (m : string) : handler failure S A := bail (Message m).
Definition anyhow_ensure {S} (b : bool) (m : string) : handler failure S unit := ensure b (Message m).

(** [social::refused], and the shorthands of [src/src/room/social.rs]. *)
Definition social_refused (r : refusal) : failure := SocialFailure (refusal_code r) (refusal_message r).
Definition social_invalid : string -> failure := SocialFailure CodeInvalid.
Definition social_forbidden : string -> failure := SocialFailure CodeForbidden.
Definition social_not_found : string -> failure := SocialFailure CodeNotFound.
Definition social_rate_limited : string -> failure := SocialFailure CodeRateLimited.
Definition social_unavailable : string -> failure := SocialFailure CodeUnavailable.
Definition social_timed_out : string -> failure := SocialFailure CodeTimedOut.
Definition social_failed : string -> failure := SocialFailure CodeRequestFailed.

(** ** Was a failed write applied? *)

Definition starts_with (p s : string) : bool := String.prefix p s.

Definition postgres_rejection_is_definite (code : option string) : bool :=
  match code with
  | None => false
  | Some code =>
      (String.length code =? 5)%nat
      && (starts_with "22" code || starts_with "23" code || starts_with "42" code
          || existsb (String.eqb code) ["40000"; "40001"; "40002"; "40P01"; "55P03"; "57014"])
  end.

Definition persistence_is_indeterminate (e : room_error) : bool :=
  match e with
  | Refused _ => false
  | Database (SqlDatabase code) => negb (postgres_rejection_is_definite code)
  | Database (PoolTimedOut | PoolClosed | InvalidArgument _) => false
  | Database _ => true
  end.

Definition deadline_exceeded : room_error :=
  Database (SqlProtocol "Room persistence deadline exceeded; commit status is unknown").
