(* ===== verification/Net.v ===== *)
(** * Address identities ([src/src/net.rs])

    [cohort] is the identity every per-address limit, ban and mute keys by.
    Shared by the rate limiters, the failure limiter and the room. *)

From S2P Require Import Prelude.

(** [std::net::IpAddr]: a 32-bit IPv4 address, or the eight 16-bit segments of
    an IPv6 address. *)
Inductive ip_addr : Type :=
| V4 (address : N)
| V6 (s0 s1 s2 s3 s4 s5 s6 s7 : N).

#[export] Instance ip_addr_eq_dec : EqDecision ip_addr.
Proof. solve_decision. Defined.

#[export] Instance ip_addr_countable : Countable ip_addr.
Proof.
  refine (inj_countable'
    (fun a => match a with
              | V4 x => inl x
              | V6 a b c d e f g h => inr (a, b, c, d, e, f, g, h)
              end)
    (fun s => match s with
              | inl x => V4 x
              | inr (a, b, c, d, e, f, g, h) => V6 a b c d e f g h
              end) _).
  by intros [].
Defined.

(** [Ipv6Addr::to_ipv4_mapped]: [::ffff:a.b.c.d] and nothing else. *)
Definition to_ipv4_mapped (s0 s1 s2 s3 s4 s5 s6 s7 : N) : option N :=
  if ((s0 =? 0) && (s1 =? 0) && (s2 =? 0) && (s3 =? 0) && (s4 =? 0) && (s5 =? 65535))%N
  then Some (s6 * 65536 + s7)%N
  else None.

Definition cohort (address : ip_addr) : ip_addr :=
  match address with
  | V4 _ => address
  | V6 s0 s1 s2 s3 s4 s5 s6 s7 =>
      match to_ipv4_mapped s0 s1 s2 s3 s4 s5 s6 s7 with
      | Some mapped => V4 mapped
      | None => V6 s0 s1 s2 s3 0 0 0 0
      end
  end.

(** The addresses that are not IPv4-mapped keep their IPv6 form. *)
Definition is_mapped (address : ip_addr) : bool :=
  match address with
  | V4 _ => false
  | V6 s0 s1 s2 s3 s4 s5 s6 s7 =>
      bool_decide (is_Some (to_ipv4_mapped s0 s1 s2 s3 s4 s5 s6 s7))
  end.

(** The /64 prefix of an IPv6 address. *)
Definition prefix64 (address : ip_addr) : option (N * N * N * N) :=
  match address with
  | V4 _ => None
  | V6 s0 s1 s2 s3 _ _ _ _ => Some (s0, s1, s2, s3)
  end.

(** Taking the cohort of a cohort changes nothing, so an address that was
    already reduced at admission may be reduced again at every later check. *)
Lemma cohort_cohort a : cohort (cohort a) = cohort a.
Proof.
  destruct a as [x|s0 s1 s2 s3 s4 s5 s6 s7]; [done|].
  cbn [cohort]. destruct (to_ipv4_mapped s0 s1 s2 s3 s4 s5 s6 s7); [done|].
  unfold cohort, to_ipv4_mapped. by rewrite andb_false_r.
Qed.
#[export] Hint Rewrite cohort_cohort : chat.

(** Two IPv6 addresses that are not IPv4-mapped share a cohort exactly when
    they share their /64. *)
Lemma cohort_prefix64 a b :
  is_Some (prefix64 a) -> is_Some (prefix64 b) -> is_mapped a = false -> is_mapped b = false ->
  (cohort a = cohort b <-> prefix64 a = prefix64 b).
Proof.
  destruct a as [|a0 a1 a2 a3 a4 a5 a6 a7], b as [|b0 b1 b2 b3 b4 b5 b6 b7];
    cbn; intros [? [=]] [? [=]] Ha Hb.
  apply bool_decide_eq_false, eq_None_not_Some in Ha, Hb.
  rewrite Ha, Hb. split; congruence.
Qed.
