(* ===== verification/Roles.v ===== *)
(** * Roles ([src/src/room/roles.rs])

    The ordered standing of a participant, the authority tests every handler
    makes, and the saved roles of a persisted room. *)

From S2P Require Import Prelude.

Inductive role : Type := Guest | User | Member | Moderator | Admin | Owner.

#[export] Instance role_eq_dec : EqDecision role.
Proof. solve_decision. Defined.

(** The [repr(i16)] discriminant, which is also the derived [Ord]. *)
Definition role_number (r : role) : N :=
  match r with
  | Guest => 0 | User => 1 | Member => 2 | Moderator => 3 | Admin => 4 | Owner => 5
  end.

Definition role_ge (a b : role) : bool := (role_number b <=? role_number a)%N.
Definition role_gt (a b : role) : bool := (role_number b <? role_number a)%N.
Definition role_cmp (a b : role) : comparison := (role_number a ?= role_number b)%N.

Definition role_name (r : role) : string :=
  match r with
  | Owner => "owner" | Admin => "admin" | Moderator => "moderator"
  | Member => "member" | User => "user" | Guest => "guest"
  end.

Definition is_stored (r : role) : bool :=
  match r with Member | Moderator | Admin => true | _ => false end.

Definition can_moderate (self target : role) : bool :=
  role_ge self Moderator && role_gt self target.

Definition can_set_role (self target new_role : role) : bool :=
  role_ge self Moderator && role_gt self target && role_gt self new_role
  && negb (bool_decide (new_role = Owner)).

Definition can_broadcast (self : role) (moderated : bool) : bool :=
  if moderated then role_ge self Member else true.

Definition can_chat_role (self : role) (moderated : bool) : bool :=
  if moderated then role_ge self Member else true.

Definition can_change_settings (self : role) : bool := role_ge self Admin.

Definition can_admit_lobby (self : role) : bool := role_ge self Moderator.

(** ** Saved roles

    [room_roles] as a map from (room, account) to the stored role and who
    granted it; the statements of [resolve_role], [current_role] and
    [set_role] as lookups and writes of it.  A query can fail, which is the
    caller's error path; here it succeeds. *)

Record role_row := RoleRow { row_role : role; row_granted_by : N }.
Abbreviation role_table := (gmap (string * N) role_row) (only parsing).

Definition resolve_role (table : role_table) (room_id : string) (user_id : option N)
    (owner_id : N) (is_authenticated : bool) : role :=
  match user_id with
  | Some uid =>
      if (uid =? owner_id)%N then Owner
      else match table !! (room_id, uid) with
           | Some row => row_role row
           | None => if is_authenticated then User else Guest
           end
  | None => Guest
  end.

Definition current_role (table : role_table) (room_id : string) (owner_id user_id : N)
  : option role :=
  if (user_id =? owner_id)%N then Some Owner
  else row_role <$> table !! (room_id, user_id).

Definition set_role (table : role_table) (room_id : string) (user_id : N) (r : role)
    (granted_by : N) : role_table :=
  if negb (is_stored r) then delete (room_id, user_id) table
  else <[(room_id, user_id) := RoleRow r granted_by]> table.

(** ** Order lemmas *)

Lemma role_number_inj a b : role_number a = role_number b -> a = b.
Proof. by destruct a, b. Qed.

Lemma role_ge_refl a : role_ge a a = true.
Proof. by destruct a. Qed.

Lemma role_ge_trans a b c : role_ge a b = true -> role_ge b c = true -> role_ge a c = true.
Proof. unfold role_ge. rewrite !N.leb_le. lia. Qed.

Lemma role_gt_not_ge a b : role_gt a b = negb (role_ge b a).
Proof. unfold role_gt, role_ge. apply N.ltb_antisym. Qed.

Lemma role_gt_irrefl a : role_gt a a = false.
Proof. by destruct a. Qed.

Lemma role_name_inj a b : role_name a = role_name b -> a = b.
Proof. by destruct a, b. Qed.

#[export] Hint Resolve role_ge_refl role_ge_trans : chat.

(** A saved role is what the next join resolves to, and only that
    account's standing in that room changes. *)
Lemma resolve_set_role table room user r by_ room' user' owner auth :
  user <> owner ->
  resolve_role (set_role table room user r by_) room' (Some user') owner auth =
  if decide (room' = room /\ user' = user)
  then (if is_stored r then r else if auth then User else Guest)
  else resolve_role table room' (Some user') owner auth.
Proof.
  intros Hne. unfold resolve_role, set_role.
  destruct (decide (room' = room /\ user' = user)) as [[-> ->]|Hother].
  - apply N.eqb_neq in Hne. rewrite Hne.
    destruct (is_stored r); cbn; by rewrite ?lookup_insert_eq, ?lookup_delete_eq.
  - assert ((room, user) <> (room', user')) by naive_solver.
    destruct (user' =? owner)%N; [done|].
    destruct (is_stored r); cbn; by rewrite ?lookup_insert_ne, ?lookup_delete_ne.
Qed.

Lemma resolve_set_role_witness :
  resolve_role (set_role ∅ "den" 8 Moderator 7) "den" (Some 8%N) 7 true = Moderator.
Proof. exact (resolve_set_role ∅ "den" 8 Moderator 7 "den" 8 7 true ltac:(done)). Defined.
