(* ===== verification/Window.v ===== *)
(** * Trailing-window admission budgets ([src/src/room/window.rs])

    Each room keeps one [SlidingWindow] per kind of work it admits.  The
    queue is refined to a log of all outstanding reservations: the decision
    of [reserve] is exactly "fewer than [capacity] reservations are live". *)

From S2P Require Import Prelude.

Record sliding_window := SlidingWindow {
  window : duration;
  capacity : nat;
  reserved : list instant
}.
#[export] Instance eta_sliding_window : Eta sliding_window :=
  fun w => SlidingWindow (window w) (capacity w) (reserved w).

Definition window_new (d : duration) (cap : nat) : sliding_window := SlidingWindow d cap [].

(** The [while let Some(front)] loop: entries leave from the front until one
    is still inside the window. *)
Fixpoint pop_expired (now : instant) (d : duration) (q : list instant) : list instant :=
  match q with
  | [] => []
  | reserved_at :: q' =>
      if (d <=? duration_since now reserved_at)%N then pop_expired now d q' else q
  end.

Definition reserve (w : sliding_window) (now : instant) : sliding_window * bool :=
  let q := pop_expired now (window w) (reserved w) in
  if (capacity w <=? length q)%nat then (w <| reserved := q |>, false)
  else (w <| reserved := q ++ [now] |>, true).

(** [VecDeque::remove] at the first position holding [at]. *)
Fixpoint remove_first (at_ : instant) (q : list instant) : option (list instant) :=
  match q with
  | [] => None
  | entry :: q' => if (entry =? at_)%N then Some q' else cons entry <$> remove_first at_ q'
  end.

Definition refund (w : sliding_window) (reserved_at : instant) : sliding_window * bool :=
  match remove_first reserved_at (reserved w) with
  | None => (w, false)
  | Some q => (w <| reserved := q |>, true)
  end.

(** ** The abstract budget

    The specification keeps every outstanding reservation for ever and counts
    the live ones. *)

Definition live (d : duration) (now t : instant) : bool := (duration_since now t <? d)%N.
Definition live_count (d : duration) (now : instant) (log : list instant) : nat :=
  length (filter (fun t => live d now t = true) log).

Definition spec_reserve (d : duration) (cap : nat) (log : list instant) (now : instant)
  : list instant * bool :=
  if (live_count d now log <? cap)%nat then (log ++ [now], true) else (log, false).

(** What a budget is asked over its lifetime. *)
Inductive window_op := Reserve (now : instant) | Refund (reserved_at : instant).

(** The concrete run, and the log of the reservations it admitted and has not
    refunded. *)
Definition window_step (s : sliding_window * list instant) (op : window_op)
  : sliding_window * list instant :=
  let '(w, log) := s in
  match op with
  | Reserve now => let '(w', ok) := reserve w now in (w', if ok then log ++ [now] else log)
  | Refund at_ => let '(w', ok) := refund w at_ in
                  (w', if ok then default log (remove_first at_ log) else log)
  end.

(** The clock is monotonic: reservations are asked at nondecreasing instants. *)
Fixpoint monotone_from (last : instant) (ops : list window_op) : Prop :=
  match ops with
  | [] => True
  | Reserve now :: ops' => (last <= now)%N /\ monotone_from now ops'
  | Refund _ :: ops' => monotone_from last ops'
  end.

Definition window_run (w : sliding_window) (ops : list window_op) : sliding_window * list instant :=
  foldl window_step (w, []) ops.

(** Reservations of the log taken in the half-open interval [a, a + d). *)
Definition count_in (d : duration) (a : instant) (log : list instant) : nat :=
  length (filter (fun t => (a <= t /\ t < a + d)%N) log).

(** ** The simulation between queue and log *)

Section simulation.
Context (d : duration) (cap : nat) (Hd : (0 < d)%N).

(** The queue is the log without a prefix of reservations that have expired;
    both are in clock order and no interval holds more than the capacity. *)
Record sim (last : instant) (log : list instant) (w : sliding_window) : Prop := {
  sim_window : window w = d;
  sim_capacity : capacity w = cap;
  sim_split : exists old, log = old ++ reserved w
                          /\ Forall (fun t => (d <= duration_since last t)%N) old;
  sim_live : Forall (fun t => live d last t = true) (reserved w);
  sim_sorted : StronglySorted N.le log;
  sim_past : Forall (fun t => (t <= last)%N) log;
  sim_bound : forall a, (count_in d a log <= cap)%nat
}.

Lemma pop_expired_split now q :
  exists pre, q = pre ++ pop_expired now d q
              /\ Forall (fun t => (d <= duration_since now t)%N) pre.
Proof.
  induction q as [|t q IH]; cbn; [by exists []|].
  destruct (d <=? duration_since now t)%N eqn:E; [|by exists []].
  destruct IH as (pre & Hq & Hpre). exists (t :: pre). split; [cbn; congruence|].
  constructor; [by apply N.leb_le|done].
Qed.

Lemma pop_expired_live now q :
  StronglySorted N.le q -> Forall (fun t => live d now t = true) (pop_expired now d q).
Proof.
  induction 1 as [|t q Hsorted IH Hle]; cbn; [done|].
  destruct (d <=? duration_since now t)%N eqn:E; [done|].
  apply N.leb_gt in E. unfold duration_since in *.
  constructor; [by apply N.ltb_lt|].
  eapply Forall_impl; [exact Hle|]. intros u Hu. apply N.ltb_lt. unfold duration_since. lia.
Qed.

Lemma live_now now : live d now now = true.
Proof. apply N.ltb_lt. unfold duration_since. lia. Qed.

Lemma expired_not_live now t : (d <= duration_since now t)%N -> live d now t = false.
Proof. intros. by apply N.ltb_ge. Qed.

Lemma filter_all_expired now (old : list instant) :
  Forall (fun t => (d <= duration_since now t)%N) old ->
  filter (fun t => live d now t = true) old = [].
Proof.
  induction 1 as [|t l Ht _ IH]; [done|].
  rewrite filter_cons_False; [done|]. by rewrite (expired_not_live _ _ Ht).
Qed.

Lemma filter_all_live now q :
  Forall (fun t => live d now t = true) q -> filter (fun t => live d now t = true) q = q.
Proof. induction 1 as [|t l Ht _ IH]; [done|]. by rewrite filter_cons_True, IH. Qed.

Lemma StronglySorted_app_r (l k : list N) :
  StronglySorted N.le (l ++ k) -> StronglySorted N.le k.
Proof. induction l as [|x l IH]; [done|]. inversion 1; eauto. Qed.

Lemma StronglySorted_snoc (l : list N) x :
  StronglySorted N.le l -> Forall (fun t => (t <= x)%N) l -> StronglySorted N.le (l ++ [x]).
Proof.
  induction 1 as [|t l Hs IH Hle]; intros Hx; cbn; [by repeat constructor|].
  inversion_clear Hx. constructor; [by apply IH|]. apply Forall_app. by split; [|constructor].
Qed.

(** What the concrete queue counts is what the log counts. *)
Lemma live_count_pop last now log w :
  sim last log w -> (last <= now)%N ->
  live_count d now log = length (pop_expired now d (reserved w)).
Proof.
  intros [_ _ (old & -> & Hold) _ Hsorted _ _] Hle. unfold live_count.
  destruct (pop_expired_split now (reserved w)) as (pre & Hq & Hpre).
  assert (Hold' : Forall (fun t => (d <= duration_since now t)%N) old).
  { eapply Forall_impl; [exact Hold|]. cbn. unfold duration_since. lia. }
  rewrite Hq at 1. rewrite !filter_app, !(filter_all_expired now) by done. cbn.
  rewrite filter_all_live; [done|].
  by apply pop_expired_live, (StronglySorted_app_r old).
Qed.

Lemma count_in_snoc a log now :
  count_in d a (log ++ [now]) =
  (count_in d a log + (if decide (a <= now /\ now < a + d)%N then 1 else 0))%nat.
Proof.
  unfold count_in. rewrite filter_app, length_app. f_equal.
  destruct (decide (a <= now /\ now < a + d)%N).
  - by rewrite filter_cons_True.
  - by rewrite filter_cons_False.
Qed.

(** An interval that contains [now] only counts reservations live at [now]. *)
Lemma count_in_le_live a log now :
  Forall (fun t => (t <= now)%N) log -> (a <= now /\ now < a + d)%N ->
  (count_in d a log <= live_count d now log)%nat.
Proof.
  intros Hpast Ha. unfold count_in, live_count.
  induction Hpast as [|t log Ht _ IH]; [done|].
  rewrite !filter_cons. repeat case_decide; cbn; try lia.
  exfalso. by match goal with H : live _ _ _ <> true |- _ => apply H end;
    apply N.ltb_lt; unfold duration_since; lia.
Qed.

Lemma sim_reserve last log w now :
  sim last log w -> (last <= now)%N ->
  exists w', reserve w now = (w', (spec_reserve d cap log now).2)
             /\ sim now (spec_reserve d cap log now).1 w'.
Proof.
  intros Hsim Hle. pose proof (live_count_pop last now log w Hsim Hle) as Hcount.
  destruct Hsim as [Hw Hcap (old & Hlog & Hold) _ Hsorted Hpast Hbound].
  destruct (pop_expired_split now (reserved w)) as (pre & Hq & Hpre).
  assert (Hsplit : Forall (fun t => (d <= duration_since now t)%N) (old ++ pre)).
  { apply Forall_app. split; [|done].
    eapply Forall_impl; [exact Hold|]. cbn. unfold duration_since. lia. }
  assert (Hpast' : Forall (fun t => (t <= now)%N) log).
  { eapply Forall_impl; [exact Hpast|]. cbn. lia. }
  assert (Hlive : Forall (fun t => live d now t = true) (pop_expired now d (reserved w))).
  { apply pop_expired_live, (StronglySorted_app_r old). by rewrite <- Hlog. }
  unfold reserve, spec_reserve. rewrite Hw, Hcap, Hcount.
  destruct (Nat.leb_spec cap (length (pop_expired now d (reserved w)))) as [Hfull|Hroom];
    rewrite ?(proj2 (Nat.ltb_ge _ _)), ?(proj2 (Nat.ltb_lt _ _)) by lia; cbn;
    eexists; (split; [reflexivity|]); split; cbn; try done.
  - exists (old ++ pre). split; [|done]. by rewrite <- app_assoc, <- Hq.
  - exists (old ++ pre). split; [|done].
    by rewrite Hlog, <- !app_assoc, (app_assoc pre), <- Hq.
  - apply Forall_app. split; [done|]. repeat constructor. by rewrite live_now.
  - by apply StronglySorted_snoc.
  - apply Forall_app. by repeat constructor.
  - intros a. rewrite count_in_snoc.
    destruct (decide _) as [Hin|]; [|specialize (Hbound a); lia].
    pose proof (count_in_le_live a log now Hpast' Hin). lia.
Qed.

Lemma remove_first_split at_ q q' :
  remove_first at_ q = Some q' -> exists l k, q = l ++ at_ :: k /\ q' = l ++ k.
Proof.
  revert q'. induction q as [|t q IH]; intros q'; cbn; [done|].
  destruct (N.eqb_spec t at_) as [->|]; [intros [= <-]; by exists [], q|].
  destruct (remove_first at_ q) as [r|]; cbn; [|done]. intros [= <-].
  destruct (IH r eq_refl) as (l & k & -> & ->). by exists (t :: l), k.
Qed.

Lemma remove_first_app at_ (l k : list instant) :
  ~ at_ ∈ l -> remove_first at_ (l ++ k) = app l <$> remove_first at_ k.
Proof.
  induction l as [|t l IH]; intros Hnot; cbn.
  - by destruct (remove_first at_ k).
  - apply not_elem_of_cons in Hnot as [Hne Hnot].
    rewrite (proj2 (N.eqb_neq t at_)) by done. rewrite IH by done.
    by destruct (remove_first at_ k).
Qed.

Lemma StronglySorted_remove (l k : list N) x :
  StronglySorted N.le (l ++ x :: k) -> StronglySorted N.le (l ++ k).
Proof.
  induction l as [|y l IH]; cbn; intros Hall; inversion Hall as [|? ? Hs Hle]; subst; [done|].
  constructor; [by apply IH|]. apply Forall_app in Hle as [? Hle].
  inversion_clear Hle. by apply Forall_app.
Qed.

Lemma count_in_remove a (l k : list N) x :
  (count_in d a (l ++ k) <= count_in d a (l ++ x :: k))%nat.
Proof.
  unfold count_in. rewrite !filter_app, !length_app, filter_cons.
  destruct (decide _); cbn; lia.
Qed.

Lemma sim_refund last log w at_ :
  sim last log w ->
  let '(w', ok) := refund w at_ in
  ok = bool_decide (at_ ∈ reserved w)
  /\ sim last (if ok then default log (remove_first at_ log) else log) w'.
Proof.
  intros Hsim. unfold refund. destruct (remove_first at_ (reserved w)) as [q|] eqn:E.
  - destruct (remove_first_split _ _ _ E) as (l & k & Hq & ->).
    destruct Hsim as [Hw Hcap (old & -> & Hold) Hlive Hsorted Hpast Hbound].
    assert (Hnot : ~ at_ ∈ old).
    { intros Hin. rewrite Forall_forall in Hold, Hlive.
      specialize (Hold at_ Hin). apply expired_not_live in Hold.
      specialize (Hlive at_). rewrite Hlive in Hold; [done|].
      rewrite Hq. set_solver. }
    rewrite (remove_first_app _ _ _ Hnot), E. cbn. rewrite Hq in *.
    split; [symmetry; apply bool_decide_eq_true; set_solver|].
    rewrite app_assoc in Hsorted, Hpast.
    split; cbn; try done.
    + by exists old.
    + apply Forall_app in Hlive as [? [_ ?]%Forall_cons]. by apply Forall_app.
    + rewrite app_assoc. by eapply StronglySorted_remove.
    + rewrite app_assoc. apply Forall_app in Hpast as [? [_ ?]%Forall_cons].
      by apply Forall_app.
    + intros a. specialize (Hbound a). rewrite app_assoc in *.
      pose proof (count_in_remove a (old ++ l) k at_). lia.
  - split; [|done]. symmetry. apply bool_decide_eq_false. clear -E.
    induction (reserved w) as [|t q IH]; cbn in *; [set_solver|].
    destruct (N.eqb_spec t at_); [done|].
    destruct (remove_first at_ q); [done|]. apply not_elem_of_cons. by split; [|apply IH].
Qed.

Lemma sim_new : sim 0 [] (window_new d cap).
Proof.
  split; cbn; try done.
  - by exists [].
  - constructor.
  - intros a. unfold count_in. cbn. lia.
Qed.

Lemma sim_run ops rest last w log :
  sim last log w -> monotone_from last (ops ++ rest) ->
  exists last', monotone_from last' rest
    /\ sim last' (foldl window_step (w, log) ops).2 (foldl window_step (w, log) ops).1.
Proof.
  revert last w log. induction ops as [|[now|at_] ops IH]; intros last w log Hsim Hmono; cbn.
  - by exists last.
  - destruct Hmono as [Hle Hmono].
    destruct (sim_reserve last log w now Hsim Hle) as (w' & -> & Hsim').
    apply (IH now); [|done]. unfold spec_reserve in *. by destruct (_ <? _)%nat.
  - pose proof (sim_refund last log w at_ Hsim) as Hr.
    destruct (refund w at_) as [w' ok]. destruct Hr as [_ Hr]. by apply (IH last).
Qed.
End simulation.

(** ** Properties *)

(** Over its whole life, whatever is reserved and refunded in clock order,
    a room budget never has more than [capacity] outstanding reservations
    taken inside any interval as long as its window. *)
Theorem window_never_exceeds_capacity (d : duration) (cap : nat) (ops : list window_op) (a : instant) :
  (0 < d)%N -> monotone_from 0 ops ->
  (count_in d a (window_run (window_new d cap) ops).2 <= cap)%nat.
Proof.
  intros Hd Hmono.
  destruct (sim_run d cap Hd ops [] 0 (window_new d cap) []) as (last & _ & Hsim);
    [by apply sim_new|by rewrite app_nil_r|].
  apply Hsim.
Qed.

Lemma window_never_exceeds_capacity_witness :
  (count_in (from_secs 1) 5 (window_run (window_new (from_secs 1) 2)
     [Reserve 5; Reserve 6; Reserve 7; Refund 6; Reserve 8]).2 <= 2)%nat.
Proof.
  apply (window_never_exceeds_capacity (from_secs 1) 2
           [Reserve 5; Reserve 6; Reserve 7; Refund 6; Reserve 8] 5); [done|].
  cbn. lia.
Defined.

(** After any such life the next decision is exact: [reserve] admits if and
    only if fewer than [capacity] outstanding reservations are still inside
    the trailing window, so no budget is lost to expired or refunded work. *)
Theorem reserve_decides_live_count (d : duration) (cap : nat) (ops : list window_op) (now : instant) :
  (0 < d)%N -> monotone_from 0 (ops ++ [Reserve now]) ->
  let '(w, log) := window_run (window_new d cap) ops in
  (reserve w now).2 = (live_count d now log <? cap)%nat.
Proof.
  intros Hd Hmono. unfold window_run.
  destruct (sim_run d cap Hd ops [Reserve now] 0 _ _ (sim_new d cap Hd) Hmono)
    as (last & [Hle _] & Hsim).
  destruct (foldl window_step _ ops) as [w log]. cbn in Hsim.
  destruct (sim_reserve d cap Hd last log w now Hsim Hle) as (w' & -> & _).
  cbn [snd]. unfold spec_reserve. by destruct (live_count d now log <? cap)%nat.
Qed.

Lemma reserve_decides_live_count_witness :
  let '(w, log) := window_run (window_new (from_secs 1) 1) [Reserve 0; Refund 0] in
  (reserve w 1).2 = (live_count (from_secs 1) 1 log <? 1)%nat.
Proof.
  apply (reserve_decides_live_count (from_secs 1) 1 [Reserve 0; Refund 0] 1); [done|].
  cbn. lia.
Defined.
