(* ===== verification/RateTable.v ===== *)
(** * Join-attempt rate limits ([RateTable] and [SharedRateLimiter] of
      [src/src/room/mod.rs])

    A bounded table of fixed windows, one per key, with an order queue that
    reclaims expired windows and one shared overflow window for new keys of a
    full table.  The room manager keeps one table keyed by address cohort and
    one keyed by room and cohort. *)

From S2P Require Import Prelude.

Definition JOIN_RATE_WINDOW : duration := from_secs 60.
Definition MAX_TRACKED_JOIN_KEYS : nat := N.to_nat 10000.

Record rate_window := RateWindow { started_at : instant; attempts : N }.

Record rate_table (K : Type) `{Countable K} := RateTable {
  entries : gmap K rate_window;
  order : list (K * instant);
  overflow : option rate_window
}.
Arguments RateTable {K _ _} _ _ _.
Arguments entries {K _ _} _.
Arguments order {K _ _} _.
Arguments overflow {K _ _} _.

Section rate_table.
Context {K : Type} `{Countable K}.

Definition expired (now : instant) (w : rate_window) : bool :=
  (JOIN_RATE_WINDOW <=? duration_since now (started_at w))%N.

(** The [while let Some((key, stamp)) = order.front()] loop. *)
Fixpoint reclaim_loop (now : instant) (es : gmap K rate_window) (q : list (K * instant))
  : gmap K rate_window * list (K * instant) :=
  match q with
  | [] => (es, [])
  | (key, stamp) :: q' =>
      match es !! key with
      | Some w =>
          if negb (started_at w =? stamp)%N then reclaim_loop now es q'
          else if expired now w then reclaim_loop now (delete key es) q'
          else (es, q)
      | None => reclaim_loop now es q'
      end
  end.

Definition reclaim_expired (t : rate_table K) (now : instant) : rate_table K :=
  let '(es, q) := reclaim_loop now (entries t) (order t) in RateTable es q (overflow t).

Definition table_new : rate_table K := RateTable ∅ [] None.

(** The overflow branch: a full table and a key it does not track. *)
Definition allow_overflow (max_attempts : N) (t : rate_table K) (now : instant)
  : rate_table K * bool :=
  let w := default (RateWindow now 0) (overflow t) in
  let w := if expired now w then RateWindow now 0 else w in
  if (max_attempts <=? attempts w)%N
  then (RateTable (entries t) (order t) (Some w), false)
  else (RateTable (entries t) (order t) (Some (RateWindow (started_at w) (attempts w + 1))), true).

(** The tracked branch: the entry is reset in place once its window ended,
    or created; a fresh window pushes its stamp. *)
Definition allow_tracked (max_attempts : N) (t : rate_table K) (key : K) (now : instant)
  : rate_table K * bool :=
  let '(w, fresh) := match entries t !! key with
                     | Some w => if expired now w then (RateWindow now 0, true) else (w, false)
                     | None => (RateWindow now 0, true)
                     end in
  let q := if fresh then order t ++ [(key, now)] else order t in
  if (max_attempts <=? attempts w)%N
  then (RateTable (<[key := w]> (entries t)) q (overflow t), false)
  else (RateTable (<[key := RateWindow (started_at w) (attempts w + 1)]> (entries t)) q
          (overflow t), true).

Definition allow (max_attempts : N) (t : rate_table K) (key : K) (now : instant)
  : rate_table K * bool :=
  let t := reclaim_expired t now in
  if (MAX_TRACKED_JOIN_KEYS <=? size (entries t))%nat && negb (bool_decide (is_Some (entries t !! key)))
  then allow_overflow max_attempts t now
  else allow_tracked max_attempts t key now.

(** ** What reclamation does *)

Lemma reclaim_loop_subseteq now es q : (reclaim_loop now es q).1 ⊆ es.
Proof.
  revert es. induction q as [|[key stamp] q IH]; intros es; cbn; [done|].
  destruct (es !! key) as [w|]; [|done].
  destruct (negb _); [done|]. destruct (expired now w); [|done].
  etrans; [apply IH|]. apply delete_subseteq.
Qed.

(** Only expired windows leave the table. *)
Lemma reclaim_loop_lookup now es q key w :
  es !! key = Some w -> expired now w = false -> (reclaim_loop now es q).1 !! key = Some w.
Proof.
  revert es. induction q as [|[k stamp] q IH]; intros es Hk Hlive; cbn; [done|].
  destruct (es !! k) as [w'|] eqn:Ew; [|by apply IH].
  destruct (negb _); [by apply IH|]. destruct (expired now w') eqn:Ex; [|done].
  apply IH; [|done]. rewrite lookup_delete_ne; [done|]. intros ->. congruence.
Qed.

(** Every tracked window has its start stamp queued, so it can be reclaimed. *)
Definition queued (t : rate_table K) : Prop :=
  forall key w, entries t !! key = Some w -> (key, started_at w) ∈ order t.

Lemma reclaim_loop_queued now es q :
  (forall key w, es !! key = Some w -> (key, started_at w) ∈ q) ->
  forall key w, (reclaim_loop now es q).1 !! key = Some w ->
                (key, started_at w) ∈ (reclaim_loop now es q).2.
Proof.
  revert es. induction q as [|[k stamp] q IH]; intros es Hq key w; cbn; [apply Hq|].
  destruct (es !! k) as [w'|] eqn:Ew.
  - destruct (negb (started_at w' =? stamp)%N) eqn:Es.
    { apply IH. intros key' u Hu. specialize (Hq key' u Hu).
      apply elem_of_cons in Hq as [[= -> <-]|]; [|done].
      rewrite Ew in Hu. simplify_eq. by rewrite N.eqb_refl in Es. }
    destruct (expired now w'); [|cbn; apply Hq].
    apply IH. intros key' u Hu. apply lookup_delete_Some in Hu as [Hne Hu].
    specialize (Hq key' u Hu). apply elem_of_cons in Hq as [[= ? ?]|]; done.
  - apply IH. intros key' u Hu. specialize (Hq key' u Hu).
    apply elem_of_cons in Hq as [[= ? ?]|]; [congruence|done].
Qed.

(** ** Well-formed tables *)

Record table_ok (max_attempts : N) (t : rate_table K) : Prop := {
  ok_size : (size (entries t) <= MAX_TRACKED_JOIN_KEYS)%nat;
  ok_queued : queued t;
  ok_attempts : map_Forall (fun _ w => (attempts w <= max_attempts)%N) (entries t);
  ok_overflow : forall w, overflow t = Some w -> (attempts w <= max_attempts)%N
}.

Lemma table_new_ok m : table_ok m table_new.
Proof.
  split; cbn; try done.
  rewrite map_size_empty. lia.
Qed.

Lemma reclaim_expired_ok m t now : table_ok m t -> table_ok m (reclaim_expired t now).
Proof.
  intros [Hsize Hq Hatt Hover]. unfold reclaim_expired.
  pose proof (reclaim_loop_subseteq now (entries t) (order t)) as Hsub.
  pose proof (reclaim_loop_queued now (entries t) (order t) Hq) as Hq'.
  destruct (reclaim_loop _ _ _) as [es q]. cbn in *. split; cbn.
  - etrans; [by apply map_subseteq_size|done].
  - exact Hq'.
  - intros k w Hk. apply (Hatt k). by eapply lookup_weaken.
  - done.
Qed.

Lemma size_insert_le (es : gmap K rate_window) key w :
  ((size es < MAX_TRACKED_JOIN_KEYS)%nat \/ is_Some (es !! key)) ->
  (size es <= MAX_TRACKED_JOIN_KEYS)%nat ->
  (size (<[key := w]> es) <= MAX_TRACKED_JOIN_KEYS)%nat.
Proof.
  intros Hor Hle. destruct (es !! key) eqn:E.
  - by rewrite map_size_insert_Some by eauto.
  - rewrite map_size_insert_None by done. destruct Hor as [|[? ?]]; [lia|done].
Qed.

Lemma allow_tracked_ok m t key now :
  table_ok m t -> ((size (entries t) < MAX_TRACKED_JOIN_KEYS)%nat \/ is_Some (entries t !! key)) ->
  table_ok m (allow_tracked m t key now).1.
Proof.
  intros [Hsize Hq Hatt Hover] Hor. unfold allow_tracked.
  assert (Hgoal : forall w q,
    (attempts w <= m)%N -> (forall k u, <[key := w]> (entries t) !! k = Some u -> (k, started_at u) ∈ q) ->
    table_ok m (RateTable (<[key := w]> (entries t)) q (overflow t))).
  { intros w q Hw Hqq. split; cbn; [by apply size_insert_le|done| |done].
    by apply map_Forall_insert_2. }
  assert (Hfresh : forall w, started_at w = now ->
    forall k u, <[key := w]> (entries t) !! k = Some u -> (k, started_at u) ∈ order t ++ [(key, now)]).
  { intros w Hw k u [[<- <-]|[_ Hu]]%lookup_insert_Some; apply elem_of_app.
    - right. rewrite Hw. by apply list_elem_of_singleton.
    - left. by apply Hq. }
  destruct (entries t !! key) as [w|] eqn:Ew; [destruct (expired now w)|];
    cbn [attempts started_at];
    match goal with |- context [(m <=? ?x)%N] => destruct (N.leb_spec m x) end; cbn in *;
    apply Hgoal; cbn; try lia; try (apply Hfresh; done).
  - by apply (Hatt key).
  - intros k u [[<- <-]|[_ Hu]]%lookup_insert_Some; by apply Hq.
  - intros k u [[<- <-]|[_ Hu]]%lookup_insert_Some; cbn; [by apply Hq|by apply Hq].
Qed.

Lemma allow_overflow_ok m t now : table_ok m t -> table_ok m (allow_overflow m t now).1.
Proof.
  intros [Hsize Hq Hatt Hover]. unfold allow_overflow.
  set (w := if expired now (default _ _) then _ else _).
  destruct (N.leb_spec m (attempts w)) as [Hm|Hm]; split; cbn; try done;
    intros u [= <-]; cbn; [|lia].
  subst w. destruct (expired now _); cbn in *; [lia|].
  destruct (overflow t) as [u|]; cbn in *; [by apply Hover|lia].
Qed.

Lemma allow_ok m t key now : table_ok m t -> table_ok m (allow m t key now).1.
Proof.
  intros Hok%(reclaim_expired_ok m t now). unfold allow.
  destruct (_ && _) eqn:E; [by apply allow_overflow_ok|].
  apply allow_tracked_ok; [done|].
  apply andb_false_iff in E as [E|E]; bool_hyps; [by left|by right].
Qed.

(** ** The abstract limiter

    One fixed window per key, never forgotten. *)

Definition spec_allow (max_attempts : N) (spec : gmap K rate_window) (key : K) (now : instant)
  : gmap K rate_window * bool :=
  let w := match spec !! key with
           | Some w => if expired now w then RateWindow now 0 else w
           | None => RateWindow now 0
           end in
  if (max_attempts <=? attempts w)%N then (<[key := w]> spec, false)
  else (<[key := RateWindow (started_at w) (attempts w + 1)]> spec, true).

(** The table tracks every window of the specification that has not ended. *)
Definition tracks (last : instant) (t : rate_table K) (spec : gmap K rate_window) : Prop :=
  entries t ⊆ spec
  /\ forall key w, spec !! key = Some w -> expired last w = false -> entries t !! key = Some w.

Lemma expired_mono now now' w : (now <= now')%N -> expired now w = true -> expired now' w = true.
Proof. unfold expired, duration_since. rewrite !N.leb_le. lia. Qed.

Lemma expired_mono_false now now' w :
  (now <= now')%N -> expired now' w = false -> expired now w = false.
Proof. unfold expired, duration_since. rewrite !N.leb_gt. lia. Qed.

Lemma expired_fresh now n : expired now (RateWindow now n) = false.
Proof.
  unfold expired, duration_since. cbn. rewrite N.sub_diag.
  unfold JOIN_RATE_WINDOW, from_secs, NANOS. apply N.leb_gt. lia.
Qed.

Lemma tracks_reclaim last now t spec :
  tracks last t spec -> (last <= now)%N -> tracks now (reclaim_expired t now) spec.
Proof.
  intros [Hsub Hlive] Hle. unfold reclaim_expired.
  pose proof (reclaim_loop_subseteq now (entries t) (order t)) as Hs.
  pose proof (reclaim_loop_lookup now (entries t) (order t)) as Hl.
  destruct (reclaim_loop _ _ _) as [es q]. cbn in *. split; cbn; [by etrans|].
  intros key w Hk Hw. apply Hl; [|done]. apply Hlive; [done|]. by eapply expired_mono_false.
Qed.

Lemma tracks_insert now t spec key w q o :
  tracks now t spec -> tracks now (RateTable (<[key := w]> (entries t)) q o) (<[key := w]> spec).
Proof.
  intros [Hsub Hlive]. split; cbn; [by apply insert_mono|].
  intros k u [[<- <-]|[? Hu]]%lookup_insert_Some Hex; [by rewrite lookup_insert_eq|].
  rewrite lookup_insert_ne by done. by apply Hlive.
Qed.

Lemma allow_tracked_refines m now t spec key :
  tracks now t spec ->
  (allow_tracked m t key now).2 = (spec_allow m spec key now).2
  /\ tracks now (allow_tracked m t key now).1 (spec_allow m spec key now).1.
Proof.
  intros Ht. pose proof Ht as [Hsub Hlive]. unfold allow_tracked, spec_allow.
  destruct (spec !! key) as [w|] eqn:Es.
  - destruct (expired now w) eqn:Ex.
    + destruct (entries t !! key) as [u|] eqn:Et.
      * pose proof (lookup_weaken _ _ _ _ Et Hsub) as Hu. rewrite Es in Hu. simplify_eq.
        rewrite Ex. destruct (_ <=? _)%N; split; (done || by apply tracks_insert).
      * destruct (_ <=? _)%N; split; (done || by apply tracks_insert).
    + rewrite (Hlive key w Es Ex), Ex.
      destruct (_ <=? _)%N; split; (done || by apply tracks_insert).
  - destruct (entries t !! key) as [u|] eqn:Et.
    + pose proof (lookup_weaken _ _ _ _ Et Hsub). congruence.
    + destruct (_ <=? _)%N; split; (done || by apply tracks_insert).
Qed.

(** A call the full table answers from the shared overflow window. *)
Definition overflows (t : rate_table K) (key : K) (now : instant) : bool :=
  let t := reclaim_expired t now in
  (MAX_TRACKED_JOIN_KEYS <=? size (entries t))%nat && negb (bool_decide (is_Some (entries t !! key))).

Lemma allow_refines m last now t spec key :
  tracks last t spec -> (last <= now)%N -> overflows t key now = false ->
  (allow m t key now).2 = (spec_allow m spec key now).2
  /\ tracks now (allow m t key now).1 (spec_allow m spec key now).1.
Proof.
  intros Ht Hle Hover. unfold allow. unfold overflows in Hover. rewrite Hover.
  by apply allow_tracked_refines, (tracks_reclaim last).
Qed.

Lemma allow_overflow_tracks m last now t spec key :
  tracks last t spec -> (last <= now)%N -> overflows t key now = true ->
  tracks now (allow m t key now).1 spec.
Proof.
  intros Ht Hle Hover. unfold allow. unfold overflows in Hover. rewrite Hover.
  apply (tracks_reclaim last now) in Ht; [|done].
  unfold allow_overflow. destruct (_ <=? _)%N; exact Ht.
Qed.

(** ** Runs

    The limiter and its specification side by side over a list of attempts;
    an attempt the overflow window answers is not charged to the
    specification. *)

Definition rate_step (m : N) (s : rate_table K * gmap K rate_window * list bool) (call : K * instant)
  : rate_table K * gmap K rate_window * list bool :=
  let '(t, spec, agreed) := s in
  let '(key, now) := call in
  let '(t', ok) := allow m t key now in
  if overflows t key now then (t', spec, agreed)
  else let '(spec', ok') := spec_allow m spec key now in (t', spec', agreed ++ [eqb ok ok']).

Definition rate_run (m : N) (calls : list (K * instant)) :=
  foldl (rate_step m) (table_new, ∅, []) calls.

Lemma rate_run_inv m calls last t spec agreed :
  table_ok m t -> tracks last t spec -> Forall (fun b => b = true) agreed ->
  StronglySorted N.le (last :: calls.*2) ->
  let '(t', _, agreed') := foldl (rate_step m) (t, spec, agreed) calls in
  table_ok m t' /\ Forall (fun b => b = true) agreed'.
Proof.
  revert last t spec agreed. induction calls as [|[key now] calls IH];
    intros last t spec agreed Hok Ht Hag Hs; [done|].
  cbn in Hs. apply StronglySorted_inv in Hs as [Hs' [Hle _]%Forall_cons].
  cbn [foldl rate_step].
  pose proof (allow_ok m t key now Hok) as Hok'.
  destruct (overflows t key now) eqn:Eo.
  - pose proof (allow_overflow_tracks m last now t spec key Ht Hle Eo) as Ht'.
    destruct (allow m t key now) as [t' ok]. by apply (IH now).
  - destruct (allow_refines m last now t spec key Ht Hle Eo) as [Heq Ht'].
    destruct (allow m t key now) as [t' ok], (spec_allow m spec key now) as [spec' ok'].
    cbn in *. subst. apply (IH now); try done.
    apply Forall_app. split; [done|]. repeat constructor. apply eqb_reflx.
Qed.
End rate_table.

(** ** Properties *)

(** C33: over any attempts in clock order, the table stays within its memory
    bound with every tracked window queued for reclamation and within its
    allowance, and each attempt it does not answer from the overflow window
    gets the answer of one never-forgotten fixed window per key: reclaiming
    expired windows neither renews nor withholds an allowance. *)
Theorem rate_limiter_refines_fixed_windows {K} `{Countable K} (m : N) (calls : list (K * instant)) :
  StronglySorted N.le (calls.*2) ->
  let '(t, _, agreed) := rate_run m calls in
  table_ok m t /\ Forall (fun b => b = true) agreed.
Proof.
  intros Hs. unfold rate_run.
  apply (rate_run_inv m calls 0%N); [apply table_new_ok| |done|].
  - split; cbn; [done|]. by intros key w ?%lookup_empty_Some.
  - constructor; [done|]. apply Forall_forall. intros. lia.
Qed.

Lemma rate_limiter_refines_fixed_windows_witness :
  let '(t, _, agreed) := rate_run 1 [("a"%string, 0%N); ("a"%string, 1%N); ("a"%string, from_secs 60)] in
  table_ok 1 t /\ Forall (fun b => b = true) agreed.
Proof.
  apply (rate_limiter_refines_fixed_windows 1
           [("a"%string, 0%N); ("a"%string, 1%N); ("a"%string, from_secs 60)]).
  cbn. repeat constructor; vm_compute; discriminate.
Defined.

Example rate_run_answers :
  ((allow 1 (allow 1 (table_new (K := string)) "a" 0).1 "a" 1).2,
   (allow 1 (allow 1 (table_new (K := string)) "a" 0).1 "a" (from_secs 60)).2) = (false, true).
Proof. vm_compute. reflexivity. Qed.
