(* ===== verification/Labels.v ===== *)
(** * Labels and identifiers ([src/src/labels.rs], [src/src/ids.rs])

    What may stand as a participant name, a room label or message text, and
    what may stand as a room identifier.  The Unicode tables the server takes
    from ICU are an interface: the class [Unicode]. *)

From S2P Require Import Prelude.

(** ** Unicode data

    [default_ignorable] is the property [DefaultIgnorableCodePoint], [nfkc] the
    compatibility normalisation and [fold_case] the full case folding. *)
Class Unicode := {
  default_ignorable : char -> bool;
  nfkc : text -> text;
  fold_case : text -> text
}.

(** The restriction of those tables to ASCII, where nothing is ignorable,
    normalisation is the identity and folding lowers [A]-[Z]. *)
Definition ascii_unicode : Unicode := {|
  default_ignorable _ := false;
  nfkc t := t;
  fold_case t := (fun c => if in_range 65 90 c then (c + 32)%N else c) <$> t
|}.

Section labels.
Context `{Unicode}.

Definition comparison_key (t : text) : text :=
  let visible := filter (fun c => negb (default_ignorable c)) t in
  let normalized := nfkc (trim visible) in
  let folded := fold_case normalized in
  trim (nfkc folded).

Definition is_hidden_format (c : char) : bool :=
  if (c =? 0x2028)%N || (c =? 0x2029)%N then true
  else
    let needed := in_range 0x200C 0x200F c || (c =? 0x061C)%N || in_range 0x180B 0x180F c
                  || in_range 0xFE00 0xFE0F c || in_range 0xE0020 0xE007F c
                  || in_range 0xE0100 0xE01EF c in
    negb needed && default_ignorable c.

Definition is_plain_text (t : text) : bool :=
  negb (existsb (fun c => (is_control c && negb (c =? 10)%N && negb (c =? 9)%N)
                          || is_hidden_format c) t).

Definition is_plain (t : text) : bool :=
  negb (bool_decide (comparison_key t = []))
  && negb (existsb (fun c => is_control c || is_hidden_format c) t).

Definition is_reserved_name (name : text) : bool :=
  bool_decide (comparison_key name = text_of "you").

(** A label is a stricter form of message text. *)
Lemma is_plain_is_plain_text t : is_plain t = true -> is_plain_text t = true.
Proof.
  unfold is_plain, is_plain_text. intros [_ Hn]%andb_true_iff.
  rewrite !negb_true_iff in *. revert Hn.
  induction t as [|c t IH]; cbn; [done|].
  rewrite !orb_false_iff. intros [[-> ->] Ht]. split; [done|by apply IH].
Qed.
End labels.

(** ** Room identifiers

    A [RoomId] is held as its bytes. *)

Definition MAX_ROOM_ID_LEN : nat := 128.

Inductive invalid_room_id := Empty | TooLong | Character.
#[export] Instance invalid_room_id_eq_dec : EqDecision invalid_room_id.
Proof. solve_decision. Defined.

Definition is_ascii_alphanumeric (b : Ascii.ascii) : bool :=
  let c := Ascii.N_of_ascii b in in_range 48 57 c || in_range 65 90 c || in_range 97 122 c.

Definition room_id_byte (b : Ascii.ascii) : bool :=
  is_ascii_alphanumeric b || (Ascii.N_of_ascii b =? 45)%N || (Ascii.N_of_ascii b =? 95)%N.

Definition room_id_new (value : string) : result invalid_room_id string :=
  if String.eqb value "" then Err Empty
  else if (MAX_ROOM_ID_LEN <? String.length value)%nat then Err TooLong
  else if negb (forallb room_id_byte (String.list_ascii_of_string value)) then Err Character
  else Ok value.

Lemma room_id_new_ok value id :
  room_id_new value = Ok id ->
  id = value /\ (1 <= String.length value <= MAX_ROOM_ID_LEN)%nat
  /\ forallb room_id_byte (String.list_ascii_of_string value) = true.
Proof.
  unfold room_id_new. intros Hid.
  destruct (String.eqb_spec value ""); [done|].
  destruct (Nat.ltb_spec MAX_ROOM_ID_LEN (String.length value)); [done|].
  destruct (forallb room_id_byte _) eqn:E; simplify_eq/=. split_and!; try done; try lia.
  destruct id; cbn; [done|lia].
Qed.
