(* ===== verification/Settings.v ===== *)
(** * Room settings ([src/src/room/settings.rs], [ChatStyle] of
      [src/src/signaling/protocol.rs])

    The settings a room holds in memory, the row the database holds, the
    partial change both receive, and the validation of a creation request.
    The database is a finite map of rows; the SQL of [create_room],
    [load_room] and [update_room_settings] is executed on it. *)

From S2P Require Import Prelude Refusal Labels.

(** ** Appearance *)

Definition CHAT_COLORS : list string :=
  ["rose"; "red"; "orange"; "amber"; "lime"; "green"; "emerald"; "teal"; "cyan"; "sky"; "blue";
   "indigo"; "violet"; "purple"; "fuchsia"; "pink"].

Inductive chat_style_kind := Accent | TextStyle | Bubble.
#[export] Instance chat_style_kind_eq_dec : EqDecision chat_style_kind.
Proof. solve_decision. Defined.

Definition style_named (name : string) : option chat_style_kind :=
  if String.eqb name "accent" then Some Accent
  else if String.eqb name "text" then Some TextStyle
  else if String.eqb name "bubble" then Some Bubble
  else None.

Definition style_as_str (k : chat_style_kind) : string :=
  match k with Accent => "accent" | TextStyle => "text" | Bubble => "bubble" end.

Record chat_style := ChatStyle { color : option string; style : chat_style_kind }.
#[export] Instance chat_style_eq_dec : EqDecision chat_style.
Proof. solve_decision. Defined.
Definition default_style : chat_style := ChatStyle None Accent.

Definition validated (s : chat_style) : option chat_style :=
  match color s with
  | Some c => if bool_decide (c ∈ CHAT_COLORS) then Some s else None
  | None => Some s
  end.

Lemma style_named_as_str k : style_named (style_as_str k) = Some k.
Proof. by destruct k. Qed.

(** ** Data

    Identifiers ([Uuid]) are numbers; the nil one is 0.  [i32] and [i64] are [Z]. *)

Module RoomSettings.
Record room_settings := mk {
  id : string;
  owner_id : N;
  display_name : text;
  password_protected : bool;
  require_registration : bool;
  max_participants : option Z;
  max_broadcasters : option Z;
  allow_screen_sharing : bool;
  allow_chat : bool;
  allow_video : bool;
  moderated : bool;
  invite_only : bool;
  secret : bool;
  lobby_enabled : bool;
  push_to_talk : bool;
  guests_allowed : bool;
  guests_can_broadcast : bool;
  topic : option text;
  name_style : chat_style;
  topic_style : chat_style;
  history_retention_days : Z
}.
#[export] Instance eta_room_settings : Eta room_settings := fun r =>
  mk (id r) (owner_id r) (display_name r) (password_protected r) (require_registration r)
     (max_participants r) (max_broadcasters r) (allow_screen_sharing r) (allow_chat r)
     (allow_video r) (moderated r) (invite_only r) (secret r) (lobby_enabled r) (push_to_talk r)
     (guests_allowed r) (guests_can_broadcast r) (topic r) (name_style r) (topic_style r)
     (history_retention_days r).
End RoomSettings.
Export (hints) RoomSettings.
Abbreviation room_settings := RoomSettings.room_settings.

#[export] Instance room_settings_eq_dec : EqDecision room_settings.
Proof. solve_decision. Defined.

Definition defaults (room_id : string) : room_settings := {|
  RoomSettings.id := room_id;
  RoomSettings.owner_id := 0;
  RoomSettings.display_name := text_of room_id;
  RoomSettings.password_protected := false;
  RoomSettings.require_registration := false;
  RoomSettings.max_participants := None;
  RoomSettings.max_broadcasters := None;
  RoomSettings.allow_screen_sharing := true;
  RoomSettings.allow_chat := true;
  RoomSettings.allow_video := true;
  RoomSettings.moderated := false;
  RoomSettings.invite_only := false;
  RoomSettings.secret := false;
  RoomSettings.lobby_enabled := false;
  RoomSettings.push_to_talk := false;
  RoomSettings.guests_allowed := true;
  RoomSettings.guests_can_broadcast := true;
  RoomSettings.topic := None;
  RoomSettings.name_style := default_style;
  RoomSettings.topic_style := default_style;
  RoomSettings.history_retention_days := 0
|}.

(** A partial change: [None] keeps the value; for the ceilings and the
    password [Some None] clears it. *)
Module SettingsPatch.
Record settings_patch := mk {
  moderated : option bool;
  lobby_enabled : option bool;
  guests_allowed : option bool;
  guests_can_broadcast : option bool;
  max_broadcasters : option (option Z);
  max_participants : option (option Z);
  allow_screen_sharing : option bool;
  allow_chat : option bool;
  allow_video : option bool;
  require_registration : option bool;
  invite_only : option bool;
  push_to_talk : option bool;
  secret : option bool;
  password : option (option text)
}.
#[export] Instance eta_settings_patch : Eta settings_patch := fun p =>
  mk (moderated p) (lobby_enabled p) (guests_allowed p) (guests_can_broadcast p)
     (max_broadcasters p) (max_participants p) (allow_screen_sharing p) (allow_chat p)
     (allow_video p) (require_registration p) (invite_only p) (push_to_talk p) (secret p)
     (password p).
(** [SettingsPatch::default()]. *)
Definition empty : settings_patch :=
  mk None None None None None None None None None None None None None None.
End SettingsPatch.
Export (hints) SettingsPatch.
Abbreviation settings_patch := SettingsPatch.settings_patch.

Module RoomRow.
Record room_row := mk {
  id : string;
  owner_id : N;
  display_name : text;
  password_hash : option string;
  require_registration : bool;
  max_participants : option Z;
  max_broadcasters : option Z;
  allow_screen_sharing : bool;
  allow_chat : bool;
  allow_video : bool;
  moderated : bool;
  invite_only : bool;
  secret : bool;
  lobby_enabled : bool;
  push_to_talk : bool;
  guests_allowed : bool;
  guests_can_broadcast : bool;
  topic : option text;
  name_style : chat_style;
  topic_style : chat_style;
  history_retention_days : Z
}.
#[export] Instance eta_room_row : Eta room_row := fun r =>
  mk (id r) (owner_id r) (display_name r) (password_hash r) (require_registration r)
     (max_participants r) (max_broadcasters r) (allow_screen_sharing r) (allow_chat r)
     (allow_video r) (moderated r) (invite_only r) (secret r) (lobby_enabled r) (push_to_talk r)
     (guests_allowed r) (guests_can_broadcast r) (topic r) (name_style r) (topic_style r)
     (history_retention_days r).
End RoomRow.
Export (hints) RoomRow.
Abbreviation room_row := RoomRow.room_row.

Module CreateRoom.
Record create_room_request := mk {
  id : string;
  display_name : text;
  password : option text;
  require_registration : option bool;
  max_participants : option Z;
  max_broadcasters : option Z;
  moderated : option bool;
  secret : option bool;
  lobby_enabled : option bool;
  guests_allowed : option bool;
  guests_can_broadcast : option bool;
  topic : option text
}.
End CreateRoom.
Abbreviation create_room_request := CreateRoom.create_room_request.

(** ** Validation of a creation request *)

Definition MAX_DISPLAY_NAME_LEN : N := 128.
Definition MAX_TOPIC_LEN : N := 512.
Definition MIN_PASSWORD_LEN : N := 8.
Definition MAX_PASSWORD_LEN : N := 256.
Definition MAX_PARTICIPANTS : Z := 10000.
Definition MAX_BROADCASTERS : Z := 1000.
Definition MAX_PERSISTED_ROOMS_PER_OWNER : Z := 100.

Definition valid_room_id (room_id : string) : bool := is_ok (room_id_new room_id).

Definition valid_new_room_password (password : text) : bool :=
  in_range MIN_PASSWORD_LEN MAX_PASSWORD_LEN (text_len password)
  && negb (existsb is_control password).

Definition z_in_range (lo hi z : Z) : bool := (lo <=? z)%Z && (z <=? hi)%Z.

(** [Option::is_some_and]. *)
Definition is_some_and {A} (o : option A) (f : A -> bool) : bool :=
  match o with Some a => f a | None => false end.

Definition broadcasters_exceed (broadcasters participants : option Z) : bool :=
  match broadcasters, participants with
  | Some b, Some p => (p <? b)%Z
  | _, _ => false
  end.

Definition validate_create_request `{Unicode} (request : create_room_request)
  : result string unit :=
  if negb (valid_room_id (CreateRoom.id request))
  then Err "Room ID must use 1-128 letters, numbers, hyphens, or underscores"
  else if bool_decide (trim (CreateRoom.display_name request) = [])
          || (MAX_DISPLAY_NAME_LEN <? text_len (CreateRoom.display_name request))%N
          || negb (is_plain (CreateRoom.display_name request))
  then Err "Display name must be 1-128 characters without control characters"
  else if is_some_and (CreateRoom.password request) (fun p => negb (valid_new_room_password p))
  then Err "Password must be 8-256 bytes without control characters"
  else if is_some_and (CreateRoom.topic request)
            (fun t => (MAX_TOPIC_LEN <? text_len t)%N || existsb is_control t)
  then Err "Topic must be at most 512 characters without control characters"
  else if is_some_and (CreateRoom.max_participants request)
            (fun v => negb (z_in_range 1 MAX_PARTICIPANTS v))
  then Err "Maximum participants must be between 1 and 10000"
  else if is_some_and (CreateRoom.max_broadcasters request)
            (fun v => negb (z_in_range 1 MAX_BROADCASTERS v))
  then Err "Maximum broadcasters must be between 1 and 1000"
  else if broadcasters_exceed (CreateRoom.max_broadcasters request)
            (CreateRoom.max_participants request)
  then Err "Maximum broadcasters cannot exceed maximum participants"
  else Ok tt.

(** ** The [rooms] table *)

Abbreviation rooms_table := (gmap string room_row).

(** The constraints of the schema ([migrations/003_create_rooms.sql],
    [016_constraints_and_indexes.sql], [025_chat_history.sql]): lengths in
    characters, the ranges, and the retention choices. *)
Definition rooms_check (r : room_row) : bool :=
  (String.length (RoomRow.id r) <=? 128)%nat
  && (length (RoomRow.display_name r) <=? 128)%nat
  && (match RoomRow.password_hash r with Some h => String.length h <=? 255 | None => true end)%nat
  && (match RoomRow.topic r with Some t => length t <=? 512 | None => true end)%nat
  && (match RoomRow.max_participants r with Some v => z_in_range 1 10000 v | None => true end)
  && (match RoomRow.max_broadcasters r with Some v => z_in_range 1 1000 v | None => true end)
  && negb (broadcasters_exceed (RoomRow.max_broadcasters r) (RoomRow.max_participants r))
  && bool_decide (RoomRow.history_retention_days r ∈ [0; 1; 7; 30; 90]%Z).

Definition settings_of_row (r : room_row) : room_settings * option string :=
  ({| RoomSettings.id := RoomRow.id r;
      RoomSettings.owner_id := RoomRow.owner_id r;
      RoomSettings.display_name := RoomRow.display_name r;
      RoomSettings.password_protected := bool_decide (is_Some (RoomRow.password_hash r));
      RoomSettings.require_registration := RoomRow.require_registration r;
      RoomSettings.max_participants := RoomRow.max_participants r;
      RoomSettings.max_broadcasters := RoomRow.max_broadcasters r;
      RoomSettings.allow_screen_sharing := RoomRow.allow_screen_sharing r;
      RoomSettings.allow_chat := RoomRow.allow_chat r;
      RoomSettings.allow_video := RoomRow.allow_video r;
      RoomSettings.moderated := RoomRow.moderated r;
      RoomSettings.invite_only := RoomRow.invite_only r;
      RoomSettings.secret := RoomRow.secret r;
      RoomSettings.lobby_enabled := RoomRow.lobby_enabled r;
      RoomSettings.push_to_talk := RoomRow.push_to_talk r;
      RoomSettings.guests_allowed := RoomRow.guests_allowed r;
      RoomSettings.guests_can_broadcast := RoomRow.guests_can_broadcast r;
      RoomSettings.topic := RoomRow.topic r;
      RoomSettings.name_style := RoomRow.name_style r;
      RoomSettings.topic_style := RoomRow.topic_style r;
      RoomSettings.history_retention_days := RoomRow.history_retention_days r |},
   RoomRow.password_hash r).

Definition load_room (db : rooms_table) (room_id : string)
  : option (room_settings * option string) := settings_of_row <$> db !! room_id.

(** The row the [INSERT] of [create_room] stores: the bound columns, and the
    schema's defaults for those it does not name. *)
Definition inserted_row (owner_id : N) (req : create_room_request) (password_hash : option string)
  : room_row := {|
  RoomRow.id := CreateRoom.id req;
  RoomRow.owner_id := owner_id;
  RoomRow.display_name := CreateRoom.display_name req;
  RoomRow.password_hash := password_hash;
  RoomRow.require_registration := default false (CreateRoom.require_registration req);
  RoomRow.max_participants := CreateRoom.max_participants req;
  RoomRow.max_broadcasters := CreateRoom.max_broadcasters req;
  RoomRow.allow_screen_sharing := true;
  RoomRow.allow_chat := true;
  RoomRow.allow_video := true;
  RoomRow.moderated := default false (CreateRoom.moderated req);
  RoomRow.invite_only := false;
  RoomRow.secret := default false (CreateRoom.secret req);
  RoomRow.lobby_enabled := default false (CreateRoom.lobby_enabled req);
  RoomRow.push_to_talk := false;
  RoomRow.guests_allowed := default true (CreateRoom.guests_allowed req);
  RoomRow.guests_can_broadcast := default true (CreateRoom.guests_can_broadcast req);
  RoomRow.topic := CreateRoom.topic req;
  RoomRow.name_style := default_style;
  RoomRow.topic_style := default_style;
  RoomRow.history_retention_days := 0
|}.

(** The settings [create_room] answers with, spelled out by the code rather
    than read back. *)
Definition created_settings (owner_id : N) (req : create_room_request)
  (password_hash : option string) : room_settings := {|
  RoomSettings.id := CreateRoom.id req;
  RoomSettings.owner_id := owner_id;
  RoomSettings.display_name := CreateRoom.display_name req;
  RoomSettings.password_protected := bool_decide (is_Some password_hash);
  RoomSettings.require_registration := default false (CreateRoom.require_registration req);
  RoomSettings.max_participants := CreateRoom.max_participants req;
  RoomSettings.max_broadcasters := CreateRoom.max_broadcasters req;
  RoomSettings.allow_screen_sharing := true;
  RoomSettings.allow_chat := true;
  RoomSettings.allow_video := true;
  RoomSettings.moderated := default false (CreateRoom.moderated req);
  RoomSettings.invite_only := false;
  RoomSettings.secret := default false (CreateRoom.secret req);
  RoomSettings.lobby_enabled := default false (CreateRoom.lobby_enabled req);
  RoomSettings.push_to_talk := false;
  RoomSettings.guests_allowed := default true (CreateRoom.guests_allowed req);
  RoomSettings.guests_can_broadcast := default true (CreateRoom.guests_can_broadcast req);
  RoomSettings.topic := CreateRoom.topic req;
  RoomSettings.name_style := default_style;
  RoomSettings.topic_style := default_style;
  RoomSettings.history_retention_days := 0
|}.

Definition owned_rooms (db : rooms_table) (owner_id : N) : rooms_table :=
  filter (fun kv => RoomRow.owner_id kv.2 = owner_id) db.

(** The transaction of [create_room], which holds the global and the owner's
    advisory lock: both counts, the [INSERT] (refused by the primary key or a
    constraint), the commit. *)
Definition create_room (max_persisted_rooms : Z) (owner_id : N) (req : create_room_request)
  (password_hash : option string) : handler room_error rooms_table room_settings :=
  (let! db := hget in
   ensure (Z.of_nat (size db) <? max_persisted_rooms)%Z
     (Refused (Unavailable "Persisted room capacity has been reached"));;
   ensure (Z.of_nat (size (owned_rooms db owner_id)) <? MAX_PERSISTED_ROOMS_PER_OWNER)%Z
     (Refused (Conflict "Persisted room quota reached (maximum 100)"));;
   ensure (bool_decide (db !! CreateRoom.id req = None)) (Database (SqlDatabase (Some "23505")));;
   ensure (rooms_check (inserted_row owner_id req password_hash))
     (Database (SqlDatabase (Some "23514")));;
   hput (<[CreateRoom.id req := inserted_row owner_id req password_hash]> db);;
   hret (created_settings owner_id req password_hash))%handler.

(** ** Changing settings *)

(** [if let Some(v) = value { field = v }]. *)
Definition set_some {R A} (value : option A) (set : A -> R -> R) (r : R) : R :=
  match value with Some v => set v r | None => r end.

Definition apply_settings_update (settings : room_settings) (patch : settings_patch)
  : room_settings :=
  let s := settings in
  let s := set_some (SettingsPatch.moderated patch) (fun v s => s <| RoomSettings.moderated := v |>) s in
  let s := set_some (SettingsPatch.lobby_enabled patch)
             (fun v s => s <| RoomSettings.lobby_enabled := v |>) s in
  let s := set_some (SettingsPatch.guests_allowed patch)
             (fun v s => s <| RoomSettings.guests_allowed := v |>) s in
  let s := set_some (SettingsPatch.guests_can_broadcast patch)
             (fun v s => s <| RoomSettings.guests_can_broadcast := v |>) s in
  let s := set_some (SettingsPatch.max_broadcasters patch)
             (fun v s => s <| RoomSettings.max_broadcasters := v |>) s in
  let s := set_some (SettingsPatch.max_participants patch)
             (fun v s => s <| RoomSettings.max_participants := v |>) s in
  let s := set_some (SettingsPatch.allow_screen_sharing patch)
             (fun v s => s <| RoomSettings.allow_screen_sharing := v |>) s in
  let s := set_some (SettingsPatch.allow_chat patch) (fun v s => s <| RoomSettings.allow_chat := v |>) s in
  let s := set_some (SettingsPatch.allow_video patch) (fun v s => s <| RoomSettings.allow_video := v |>) s in
  let s := set_some (SettingsPatch.require_registration patch)
             (fun v s => s <| RoomSettings.require_registration := v |>) s in
  let s := set_some (SettingsPatch.invite_only patch) (fun v s => s <| RoomSettings.invite_only := v |>) s in
  let s := set_some (SettingsPatch.push_to_talk patch)
             (fun v s => s <| RoomSettings.push_to_talk := v |>) s in
  let s := set_some (SettingsPatch.secret patch) (fun v s => s <| RoomSettings.secret := v |>) s in
  set_some (SettingsPatch.password patch)
    (fun v s => s <| RoomSettings.password_protected := bool_decide (is_Some v) |>) s.

(** One [column = value] of the [UPDATE]. *)
Definition assign {A} (value : option A) (column : string) (set : A -> room_row -> room_row)
  : list (string * (room_row -> room_row)) :=
  match value with Some v => [(column, set v)] | None => [] end.

Definition assignments (patch : settings_patch) (password_hash : option (option string))
  : list (string * (room_row -> room_row)) :=
  assign (SettingsPatch.moderated patch) "moderated" (fun v r => r <| RoomRow.moderated := v |>)
  ++ assign (SettingsPatch.lobby_enabled patch) "lobby_enabled"
       (fun v r => r <| RoomRow.lobby_enabled := v |>)
  ++ assign (SettingsPatch.guests_allowed patch) "guests_allowed"
       (fun v r => r <| RoomRow.guests_allowed := v |>)
  ++ assign (SettingsPatch.guests_can_broadcast patch) "guests_can_broadcast"
       (fun v r => r <| RoomRow.guests_can_broadcast := v |>)
  ++ assign (SettingsPatch.max_broadcasters patch) "max_broadcasters"
       (fun v r => r <| RoomRow.max_broadcasters := v |>)
  ++ assign (SettingsPatch.max_participants patch) "max_participants"
       (fun v r => r <| RoomRow.max_participants := v |>)
  ++ assign (SettingsPatch.allow_screen_sharing patch) "allow_screen_sharing"
       (fun v r => r <| RoomRow.allow_screen_sharing := v |>)
  ++ assign (SettingsPatch.allow_chat patch) "allow_chat" (fun v r => r <| RoomRow.allow_chat := v |>)
  ++ assign (SettingsPatch.allow_video patch) "allow_video"
       (fun v r => r <| RoomRow.allow_video := v |>)
  ++ assign (SettingsPatch.require_registration patch) "require_registration"
       (fun v r => r <| RoomRow.require_registration := v |>)
  ++ assign (SettingsPatch.invite_only patch) "invite_only"
       (fun v r => r <| RoomRow.invite_only := v |>)
  ++ assign (SettingsPatch.push_to_talk patch) "push_to_talk"
       (fun v r => r <| RoomRow.push_to_talk := v |>)
  ++ assign (SettingsPatch.secret patch) "secret" (fun v r => r <| RoomRow.secret := v |>)
  ++ assign password_hash "password_hash" (fun v r => r <| RoomRow.password_hash := v |>).

(** The [UPDATE]: nothing to run without an assignment; a constraint refuses
    the row; a missing row is [RowNotFound].  [updated_at], which no reader of
    the model looks at, is left out. *)
Definition update_room_settings (room_id : string) (patch : settings_patch)
  (password_hash : option (option string)) : handler room_error rooms_table unit :=
  match assignments patch password_hash with
  | [] => hret tt
  | sets =>
      (let! db := hget in
       let! row := hlift (ok_or (db !! room_id) (Database RowNotFound)) in
       let row' := foldl (fun r set => set.2 r) row sets in
       ensure (rooms_check row') (Database (SqlDatabase (Some "23514")));;
       hput (<[room_id := row']> db))%handler
  end.

(** ** Lemmas *)

(** Every character takes at least one byte. *)
Lemma length_le_text_len (t : text) : (N.of_nat (length t) <= text_len t)%N.
Proof.
  induction t as [|c t IH]; cbn; [done|].
  assert (1 <= len_utf8 c)%N by (unfold len_utf8; repeat case_match; lia). unfold text_len in IH. lia.
Qed.

Lemma foldl_assign {A} (value : option A) column set sets row :
  foldl (fun r (s : string * (room_row -> room_row)) => s.2 r) row (assign value column set ++ sets)
  = foldl (fun r s => s.2 r) (set_some value set row) sets.
Proof. by destruct value. Qed.

(** The projection commutes with one provided field. *)
Lemma settings_of_row_set_some {A} (value : option A) set set' row s :
  (forall v row, (settings_of_row (set v row)).1 = set' v (settings_of_row row).1) ->
  (settings_of_row row).1 = s ->
  (settings_of_row (set_some value set row)).1 = set_some value set' s.
Proof. intros Hset <-. by destruct value; cbn [set_some]; [apply Hset|]. Qed.

(** The assignments read back as [apply_settings_update], whatever the row. *)
Lemma settings_of_assigned patch password_hash row :
  (fun h => bool_decide (is_Some h)) <$> password_hash
  = (fun p => bool_decide (is_Some p)) <$> SettingsPatch.password patch ->
  (settings_of_row (foldl (fun r s => s.2 r) row (assignments patch password_hash))).1
  = apply_settings_update (settings_of_row row).1 patch.
Proof.
  intros Hhash. unfold assignments, apply_settings_update.
  rewrite !foldl_assign, <-(app_nil_r (assign password_hash _ _)), foldl_assign. cbn [foldl].
  assert (forall s, set_some (SettingsPatch.password patch)
                      (fun v s => s <| RoomSettings.password_protected := bool_decide (is_Some v) |>) s
                    = set_some password_hash
                      (fun v s => s <| RoomSettings.password_protected := bool_decide (is_Some v) |>) s)
    as ->.
  { intros s. destruct password_hash, (SettingsPatch.password patch); simplify_eq/=; congruence. }
  repeat (apply settings_of_row_set_some; [intros; reflexivity|]). reflexivity.
Qed.

(** A field the update does not name keeps its value. *)
Lemma set_some_other {R A B} (f : R -> B) (value : option A) set r :
  (forall v r, f (set v r) = f r) -> f (set_some value set r) = f r.
Proof. intros Hset. by destruct value; cbn; [apply Hset|]. Qed.

Lemma assigned_password_hash patch password_hash row :
  RoomRow.password_hash (foldl (fun r s => s.2 r) row (assignments patch password_hash))
  = default (RoomRow.password_hash row) password_hash.
Proof.
  unfold assignments.
  rewrite !foldl_assign, <-(app_nil_r (assign password_hash _ _)), foldl_assign. cbn [foldl].
  destruct password_hash; [done|]. cbn [set_some default].
  by repeat (rewrite (set_some_other RoomRow.password_hash) by reflexivity).
Qed.

(** ** Properties *)

(** A settings change that the database accepts leaves a row from
    which [load_room] reads exactly what [apply_settings_update] computed in
    memory, with the new password hash when one was given and the old one
    otherwise, and touches no other room. *)
Theorem settings_update_reads_back room_id patch password_hash db db' row :
  db !! room_id = Some row ->
  (fun h => bool_decide (is_Some h)) <$> password_hash
  = (fun p => bool_decide (is_Some p)) <$> SettingsPatch.password patch ->
  update_room_settings room_id patch password_hash db = (db', Ok tt) ->
  load_room db' room_id
  = Some (apply_settings_update (settings_of_row row).1 patch,
          default (RoomRow.password_hash row) password_hash)
  /\ (forall other, other <> room_id -> db' !! other = db !! other).
Proof.
  intros Hrow Hhash Hup.
  pose proof (settings_of_assigned patch password_hash row Hhash) as Hset.
  pose proof (assigned_password_hash patch password_hash row) as Hpw.
  assert (settings_of_row (foldl (fun r s => s.2 r) row (assignments patch password_hash))
          = (apply_settings_update (settings_of_row row).1 patch,
             default (RoomRow.password_hash row) password_hash)) as Hboth.
  { apply injective_projections; [done|]. by rewrite <-Hpw. }
  unfold update_room_settings in Hup. destruct (assignments patch password_hash) as [|s sets] eqn:Ea.
  - injection Hup as <-. split; [|done]. unfold load_room. rewrite Hrow. cbn [fmap option_fmap option_map].
    f_equal. exact Hboth.
  - unfold hbind, hget, hlift, ensure, hret, bail, hput in Hup. rewrite Hrow in Hup. cbn [ok_or] in Hup.
    destruct (rooms_check _); [|done]. injection Hup as <-.
    split; [|intros other Hne; by rewrite lookup_insert_ne].
    unfold load_room. rewrite lookup_insert_eq. cbn [fmap option_fmap option_map]. f_equal. exact Hboth.
Qed.

Lemma settings_update_reads_back_witness :
  let patch := SettingsPatch.empty <| SettingsPatch.moderated := Some true |>
                                   <| SettingsPatch.max_participants := Some None |>
                                   <| SettingsPatch.password := Some (Some (text_of "correct horse")) |> in
  let req := CreateRoom.mk "lounge" (text_of "Lounge") None None (Some 12%Z) None None None None
               None None None in
  let db := {[ "lounge" := inserted_row 7 req None ]} in
  let row := inserted_row 7 req None in
  load_room (update_room_settings "lounge" patch (Some (Some "hash")) db).1 "lounge"
  = Some (apply_settings_update (settings_of_row row).1 patch, Some "hash")
  /\ RoomSettings.moderated (apply_settings_update (settings_of_row row).1 patch) = true.
Proof.
  intros patch req db row. split; [|reflexivity].
  refine (proj1 (settings_update_reads_back "lounge" patch (Some (Some "hash")) db
                   (update_room_settings "lounge" patch (Some (Some "hash")) db).1 row _ _ _)).
  - reflexivity.
  - reflexivity.
  - vm_compute. reflexivity.
Defined.

(** A successful creation answers with the settings, and stores the
    hash, that a later [load_room] reads; the deployment's and the owner's
    quotas hold of the table it leaves, and no other row changes.  A failed
    one leaves the table as it was. *)
Theorem create_room_reads_back max owner req password_hash db db' r :
  create_room max owner req password_hash db = (db', r) ->
  match r with
  | Ok settings =>
      load_room db' (CreateRoom.id req) = Some (settings, password_hash)
      /\ (Z.of_nat (size db') <= max)%Z
      /\ (Z.of_nat (size (owned_rooms db' owner)) <= MAX_PERSISTED_ROOMS_PER_OWNER)%Z
      /\ (forall other, other <> CreateRoom.id req -> db' !! other = db !! other)
  | Err _ => db' = db
  end.
Proof.
  unfold create_room, hbind, hget, hput, hret, bail, ensure.
  destruct (Z.ltb_spec (Z.of_nat (size db)) max) as [Hmax|]; [|by intros [= <- <-]].
  destruct (Z.ltb_spec (Z.of_nat (size (owned_rooms db owner))) MAX_PERSISTED_ROOMS_PER_OWNER)
    as [Hown|]; [|by intros [= <- <-]].
  case_bool_decide as Hnone; [|by intros [= <- <-]].
  destruct (rooms_check _); [|by intros [= <- <-]]. intros [= <- <-].
  split_and!.
  - unfold load_room. by rewrite lookup_insert_eq.
  - rewrite map_size_insert_None by done. lia.
  - unfold owned_rooms. rewrite map_filter_insert_True by done.
    rewrite map_size_insert_None; [unfold owned_rooms in Hown; lia|].
    apply map_lookup_filter_None. by left.
  - intros other Hne. by rewrite lookup_insert_ne.
Qed.

Definition sample_request : create_room_request :=
  CreateRoom.mk "lounge" (text_of "Lounge") (Some (text_of "correct horse")) None (Some 12%Z)
    (Some 4%Z) (Some true) None (Some true) None None (Some (text_of "hello")).

Lemma create_room_reads_back_witness :
  load_room (create_room 10 7 sample_request (Some "hash") ∅).1 "lounge"
  = Some (created_settings 7 sample_request (Some "hash"), Some "hash").
Proof.
  exact (proj1 (create_room_reads_back 10 7 sample_request (Some "hash") ∅ _
                  (Ok (created_settings 7 sample_request (Some "hash"))) eq_refl)).
Defined.

(** C35: a creation request that validation accepts never trips a
    constraint of the [rooms] table (the identifier and lengths fit their
    columns, the ceilings their ranges), provided the password hash fits its
    column. *)
Theorem validated_request_is_storable `{Unicode} owner req password_hash :
  validate_create_request req = Ok tt ->
  is_some_and password_hash (fun h => negb (String.length h <=? 255)%nat) = false ->
  rooms_check (inserted_row owner req password_hash) = true.
Proof.
  unfold validate_create_request. intros Hv Hh.
  repeat match goal with Hv : context [if ?b then _ else _] |- _ => destruct b eqn:?; [done|] end.
  unfold valid_room_id in *. bool_hyps.
  destruct (room_id_new _) as [id|] eqn:Hid; [|done]. apply room_id_new_ok in Hid as (-> & Hlen & _).
  unfold rooms_check, inserted_row; cbn.
  repeat (apply andb_true_iff; split).
  - apply Nat.leb_le. unfold MAX_ROOM_ID_LEN in Hlen. lia.
  - apply Nat.leb_le. pose proof (length_le_text_len (CreateRoom.display_name req)).
    unfold MAX_DISPLAY_NAME_LEN in *. lia.
  - destruct password_hash as [h|]; [|done]. cbn [is_some_and] in Hh. by apply negb_false_iff in Hh.
  - destruct (CreateRoom.topic req) as [t|]; [|done]. cbn [is_some_and] in *. bool_hyps.
    apply Nat.leb_le. pose proof (length_le_text_len t). unfold MAX_TOPIC_LEN in *. lia.
  - destruct (CreateRoom.max_participants req); [|done]. cbn [is_some_and] in *. by bool_hyps.
  - destruct (CreateRoom.max_broadcasters req); [|done]. cbn [is_some_and] in *. by bool_hyps.
  - by apply negb_true_iff.
  - reflexivity.
Qed.

Lemma validated_request_is_storable_witness :
  validate_create_request (H := ascii_unicode) sample_request = Ok tt
  /\ rooms_check (inserted_row 7 sample_request (Some "hash")) = true.
Proof.
  split; [vm_compute; reflexivity|].
  apply (validated_request_is_storable (H := ascii_unicode)); vm_compute; reflexivity.
Defined.
