(* ===== verification/Protocol.v ===== *)
(** * The signaling protocol ([src/src/signaling/protocol.rs], and the
      classification of requests in [src/src/room/social.rs])

    The messages of the WebSocket protocol with the payloads the server looks
    at.  Values it only hands between a client and mediasoup (RTP and DTLS
    parameters, ICE candidates, tokens) are opaque numbers. *)

From S2P Require Import Prelude Refusal Net Roles Settings.

(** Identifiers are UUIDs, compared by value. *)
Abbreviation participant_id := N (only parsing).
Abbreviation user_id := N (only parsing).
Abbreviation message_id := N (only parsing).
Abbreviation producer_id := N (only parsing).
Abbreviation consumer_id := N (only parsing).
Abbreviation transport_id := N (only parsing).
Abbreviation opaque := N (only parsing).
Abbreviation timestamp := N (only parsing).

Inductive media_kind := Audio | Video.
#[export] Instance media_kind_eq_dec : EqDecision media_kind.
Proof. solve_decision. Defined.

Definition valid_correlation_id (value : string) : bool :=
  negb (String.eqb value "") && (String.length value <=? 64)%nat
  && forallb Labels.room_id_byte (String.list_ascii_of_string value).

(** ** Chat data *)

Record chat_attachment := ChatAttachment {
  attachment_id : N; attachment_name : text; content_type : string; attachment_size : Z }.
Record chat_reply_ref := ChatReplyRef {
  reply_message_id : message_id; reply_participant_id : participant_id;
  reply_participant_name : text; excerpt : text }.
Record chat_reaction := ChatReaction { emoji : text; reaction_participant_ids : list participant_id }.
#[export] Instance chat_attachment_eq_dec : EqDecision chat_attachment.
Proof. solve_decision. Defined.
#[export] Instance chat_reply_ref_eq_dec : EqDecision chat_reply_ref.
Proof. solve_decision. Defined.
#[export] Instance chat_reaction_eq_dec : EqDecision chat_reaction.
Proof. solve_decision. Defined.

Module ChatEntry.
Record chat_entry := mk {
  message_id : N;
  client_message_id : string;
  participant_id : N;
  participant_name : text;
  recipient_id : option N;
  recipient_name : option text;
  account_conversation : option bool;
  content : text;
  attachments : list chat_attachment;
  sent_at : timestamp;
  removed_at : option timestamp;
  revision : N;
  edited_at : option timestamp;
  chat_style : Settings.chat_style;
  reply_to : option chat_reply_ref;
  reactions : list chat_reaction
}.
#[export] Instance eta_chat_entry : Eta chat_entry := fun e =>
  mk (message_id e) (client_message_id e) (participant_id e) (participant_name e) (recipient_id e)
     (recipient_name e) (account_conversation e) (content e) (attachments e) (sent_at e)
     (removed_at e) (revision e) (edited_at e) (chat_style e) (reply_to e) (reactions e).
End ChatEntry.
Export (hints) ChatEntry.
Abbreviation chat_entry := ChatEntry.chat_entry.
#[export] Instance chat_entry_eq_dec : EqDecision chat_entry.
Proof. solve_decision. Defined.

Inductive chat_retry_outcome := RetryUnknown.
Inductive chat_retry_reason :=
| SessionChanged | ReceiptExpired | SequenceSuperseded | CapacityReached
| RetryConflict | RecipientUnconfirmed | StorageUnconfirmed.
#[export] Instance chat_retry_outcome_eq_dec : EqDecision chat_retry_outcome.
Proof. solve_decision. Defined.
#[export] Instance chat_retry_reason_eq_dec : EqDecision chat_retry_reason.
Proof. solve_decision. Defined.

Record retry_chat_message := RetryChat {
  retry_client_message_id : string;
  retry_sequence : N;
  retry_chat_session_id : string;
  retry_content : text;
  retry_attachment_ids : list N;
  retry_target : option participant_id;
  retry_reply_to : option message_id
}.

(** ** Room data *)

Record producer_metadata := ProducerMetadata {
  metadata_id : producer_id; metadata_kind : media_kind; metadata_source : option string }.
#[export] Instance producer_metadata_eq_dec : EqDecision producer_metadata.
Proof. solve_decision. Defined.

Record participant_info := ParticipantInfo {
  info_id : participant_id;
  info_name : text;
  info_producers : list producer_metadata;
  info_role : role;
  info_authenticated : bool;
  info_chat_style : chat_style
}.
#[export] Instance participant_info_eq_dec : EqDecision participant_info.
Proof. solve_decision. Defined.

Inductive report_status := ReportOpen | ReportResolved | ReportDismissed.
Inductive report_resolution := Resolved | Dismissed.
#[export] Instance report_status_eq_dec : EqDecision report_status.
Proof. solve_decision. Defined.
#[export] Instance report_resolution_eq_dec : EqDecision report_resolution.
Proof. solve_decision. Defined.

(** ** Client messages *)

Module ClientMessage.
Inductive client_message :=
| RenewAuthentication (request_id : string) (token : opaque)
| JoinRoom (room_id : string) (participant_name : text) (password : option text)
    (chat_style : option Settings.chat_style)
| LeaveRoom
| GetRouterRtpCapabilities
| CreateSendTransport
| CreateRecvTransport
| ReplaceRecvTransport (transport : transport_id)
| ConnectTransport (transport : transport_id) (dtls_parameters : opaque)
| Produce (transport : transport_id) (kind : media_kind) (rtp_parameters : opaque)
    (source : option string)
| Consume (producer : producer_id) (rtp_capabilities : opaque)
| ResumeConsumer (consumer : consumer_id)
| PauseConsumer (consumer : consumer_id)
| CloseConsumer (consumer : consumer_id)
| CloseProducer (producer : producer_id)
| PauseProducer (producer : producer_id)
| ResumeProducer (producer : producer_id)
| Reconnect (participant : participant_id) (room_id : string) (reconnect_token : opaque)
| RestartIce (transport : transport_id)
| SetConsumerPreferredLayers (consumer : consumer_id) (spatial_layer : N) (temporal_layer : option N)
| ChatMessage (content : text) (attachment_ids : list N) (client_message_id : option string)
    (sequence : option N) (reply_to : option message_id)
| PrivateMessage (target : participant_id) (content : text) (attachment_ids : list N)
    (client_message_id : string) (sequence : option N) (reply_to : option message_id)
| RetryChatMessage (message : retry_chat_message)
| GetAttachmentAccess (request_id : string) (attachment_id : N)
| GetChatHistory (request_id : string) (before after : option string) (around : option message_id)
    (resume : option bool) (q : option text) (limit : option N)
| MarkChatRead (request_id : string) (message : message_id)
| SetRoomHistory (request_id : string) (retention_days : Z)
| SetChatPreferences (request_id : string) (allow_private_messages : bool)
    (ignored_participant_ids : list participant_id)
| SetChatStyle (request_id : string) (chat_style : Settings.chat_style)
| EditChatMessage (request_id : string) (message : message_id) (content : text)
    (expected_revision : N)
| GetPinnedMessages (request_id : string)
| SetPinnedMessage (request_id : string) (message : message_id) (pinned : bool)
| RemoveChatMessage (request_id : string) (message : message_id)
| ReactToMessage (request_id : string) (message : message_id) (emoji : text)
| ChangeNickname (request_id : string) (nickname : text)
| GetRoomSnapshot (request_id : string)
| ListRoomBans (request_id : string) (offset : option N)
| RemoveRoomBan (request_id : string) (ban_id : string)
| ListRoomMembers (request_id : string) (offset : option N)
| SetMemberRole (request_id : string) (target_user : user_id) (new_role : role)
| ReportParticipant (request_id : string) (target : participant_id) (reason : text)
| ListRoomReports (request_id : string) (offset : option N)
| ResolveRoomReport (request_id : string) (report_id : string) (status : report_resolution)
| ListModerationEvents (request_id : string) (offset : option N)
| Typing (target : option participant_id)
| CloseCam (target : participant_id)
| CamBan (target : participant_id) (reason : option text)
| CamUnban (target : participant_id)
| TextMute (target : participant_id)
| TextUnmute (target : participant_id)
| Kick (target : participant_id) (reason : option text) (report_id : option string)
| Ban (target : participant_id) (reason : option text) (duration : option N)
    (report_id : option string)
| Unban (target_user : user_id)
| SetRole (target : participant_id) (new_role : role)
| RequestVoice
| UpdateRoomSettings (patch : settings_patch)
| SetTopic (topic : text)
| AdmitFromLobby (target : participant_id)
| DenyFromLobby (target : participant_id).
End ClientMessage.
Abbreviation client_message := ClientMessage.client_message.

(** ** Replies to social requests *)

Record snapshot_lobby_entry := SnapshotLobbyEntry {
  snapshot_participant_id : participant_id; snapshot_display_name : text;
  snapshot_authenticated : bool }.

Record room_snapshot := RoomSnapshot {
  snapshot_participants : list participant_info;
  snapshot_messages : list chat_entry;
  snapshot_lobby : list snapshot_lobby_entry;
  snapshot_your_role : role;
  snapshot_chat_session_id : N;
  snapshot_settings : option room_settings;
  snapshot_nickname : text;
  snapshot_allow_private_messages : bool;
  snapshot_ignored_participant_ids : list participant_id;
  snapshot_paused_producer_ids : list producer_id;
  snapshot_text_muted : bool;
  snapshot_cam_banned : bool;
  snapshot_can_chat : bool;
  snapshot_local_producer_ids : list producer_id;
  snapshot_can_broadcast : bool
}.

Record ban_entry := BanEntry {
  ban_id : string; ban_display_name : text; ban_authenticated : bool;
  ban_reason : option text; ban_expires_at : option timestamp }.

Record member_entry := MemberEntry {
  member_user_id : user_id; member_display_name : text; member_role : role;
  member_online : bool; member_authenticated : bool }.

Record report_outcome := ReportOutcome { outcome_action : string; outcome_created_at : timestamp }.

Record report_entry := ReportEntry {
  report_id : string; reporter_id : participant_id; reporter_name : text;
  report_target_id : participant_id; report_target_name : text; report_reason : text;
  report_status_of : report_status; report_created_at : timestamp;
  report_resolved_at : option timestamp; report_outcome_of : option report_outcome }.

Record history_page := HistoryPage {
  history_messages : list chat_entry; next_cursor : option string; newer_cursor : option string;
  first_unread_message_id : option message_id; page_read_message_id : option message_id;
  page_retention_days : Z }.

(** A moderation history entry; the target's address is shown to owners only. *)
Inductive moderation_action :=
| ActKick | ActBan | ActUnban | ActCamBan | ActCamUnban | ActTextMute | ActTextUnmute
| ActReportResolved | ActReportDismissed | ActMessageRemoved.
#[export] Instance moderation_action_eq_dec : EqDecision moderation_action.
Proof. solve_decision. Defined.

(** Guest bans are keyed by their own identifier. *)
Inductive moderation_target_id := TargetParticipant (id : participant_id) | TargetBan (id : string).

Record moderation_event := ModerationEvent {
  event_id : N;
  event_action : moderation_action;
  event_actor_id : participant_id;
  event_actor_name : text;
  event_target_id : moderation_target_id;
  event_target_name : text;
  event_target_authenticated : bool;
  event_reason : option text;
  event_expires_at : option timestamp;
  event_report_id : option N;
  event_created_at : timestamp;
  event_target_ip : option ip_addr
}.

Record moderation_event_view := ModerationEventView {
  view_event : moderation_event; view_target_ip : option ip_addr }.

(** [ModerationEventView::new]. *)
Definition event_view (event : moderation_event) (owner : bool) : moderation_event_view :=
  ModerationEventView event (if owner then event_target_ip event else None).

Module SocialResponse.
Inductive social_response :=
| SetChatPreferences (allow_private_messages : bool) (ignored : list participant_id)
| ChangeNickname (nickname : text)
| SetChatStyle (chat_style : Settings.chat_style)
| RemoveChatMessage (message : message_id) (removed_at : timestamp)
| EditChatMessage (message : chat_entry)
| GetAttachmentAccess (token : opaque) (expires_at : timestamp)
| GetPinnedMessages (messages : list chat_entry)
| SetPinnedMessage (messages : list chat_entry)
| ReactToMessage (message : message_id) (reactions : list chat_reaction)
| GetRoomSnapshot (snapshot : room_snapshot)
| GetChatHistory (page : history_page)
| MarkChatRead (read_message_id : option message_id)
| SetRoomHistory (retention_days : Z)
| ListRoomBans (bans : list ban_entry) (has_more : bool)
| RemoveRoomBan (removed : bool)
| ListRoomMembers (members : list member_entry) (has_more : bool)
| SetMemberRole (updated : bool)
| ReportParticipant (report_id : string) (status : report_status)
| ListRoomReports (reports : list report_entry) (has_more : bool)
| ResolveRoomReport (report_id : string) (status : report_resolution)
| ListModerationEvents (events : list moderation_event_view) (has_more : bool).
End SocialResponse.

(** ** Server messages *)

Module ServerMessage.
Inductive server_message :=
| RoomJoined (participant : participant_id) (participants : list participant_info)
    (reconnect_token : opaque) (your_role : role) (your_name : text)
    (your_chat_style : Settings.chat_style) (settings : option room_settings)
| AuthenticationRenewed (request_id : string) (expires_at : N)
| AuthenticationRenewalFailed (request_id : string)
| AuthenticationRenewalDeferred (request_id : string) (retry_after_ms : N) (expires_at : N)
| Error (code : error_code) (message : string)
| RoomPasswordRequired
| RoomClosed (reason : string)
| ServerRestarting (reason : string)
| RouterRtpCapabilities (rtp_capabilities : opaque)
| TransportCreated (transport : transport_id) (ice_parameters ice_candidates dtls_parameters : opaque)
    (ice_servers : list opaque)
| TransportConnected (transport : transport_id)
| ProducerCreated (producer : producer_id)
| ConsumerCreated (consumer : consumer_id) (producer : producer_id) (kind : media_kind)
    (rtp_parameters : opaque)
| ParticipantJoined (participant : participant_id) (participant_name : text) (joined_role : role)
    (authenticated : bool) (chat_style : Settings.chat_style)
| ParticipantLeft (participant : participant_id)
| NewProducer (participant : participant_id) (producer : producer_id) (kind : media_kind)
    (source : option string)
| ProducerClosed (producer : producer_id)
| ProducerPaused (producer : producer_id)
| ProducerResumed (producer : producer_id)
| ConsumerResumed (consumer : consumer_id)
| ConsumerPaused (consumer : consumer_id)
| MediaControlApplied
| RoomControlApplied
| ReconnectResult (success : bool) (participant : participant_id) (reconnect_token : option opaque)
| IceRestarted (transport : transport_id) (ice_parameters : opaque) (ice_servers : list opaque)
| ConnectionStats (available_bitrate : option N)
| ConsumerLayersChanged (consumer : consumer_id) (spatial_layer temporal_layer : option N)
| ChatReceived (participant : participant_id) (participant_name content : text)
    (attachments : list chat_attachment) (message : message_id) (client_message_id : string)
    (sent_at : timestamp) (removed_at : option timestamp) (revision : N)
    (edited_at : option timestamp) (chat_style : Settings.chat_style)
    (reply_to : option chat_reply_ref)
| MessageAck (client_message_id : string) (message : chat_entry)
| MessageRetryResult (client_message_id : string) (outcome : chat_retry_outcome)
    (reason : chat_retry_reason)
| PrivateMessageReceived (message : chat_entry)
| Social (request_id : string) (response : SocialResponse.social_response)
| SocialError (request_id client_message_id : option string) (code : error_code) (message : string)
| NicknameChanged (participant : participant_id) (nickname : text)
| ChatStyleChanged (participant : participant_id) (chat_style : Settings.chat_style)
| ParticipantTyping (participant : participant_id) (target : option participant_id)
| ChatMessageEdited (message : chat_entry)
| PinnedMessagesChanged (messages : list chat_entry)
| ChatMessageRemoved (message : message_id) (removed_at : timestamp)
| MessageReactions (message : message_id) (reactions : list chat_reaction)
| ActiveSpeaker (participant : participant_id)
| AudioLevels (levels : list (participant_id * Z))
| ForceClosedProducer (producer : producer_id) (reason : string)
| CamBanned (participant : participant_id)
| CamUnbanned (participant : participant_id)
| TextMuted (participant : participant_id)
| TextUnmuted (participant : participant_id)
| ParticipantKicked (participant : participant_id) (reason : option text)
| ParticipantBanned (participant : participant_id) (reason : option text)
| RoleChanged (participant : participant_id) (new_role : role) (granted_by : participant_id)
| VoiceRequested (participant : participant_id) (display_name : text)
| RoomSettingsChanged (settings : room_settings)
| TopicChanged (topic : text) (changed_by : text)
| LobbyWaiting (room_name : text) (topic : option text) (participant_count moderator_count : N)
| LobbyStatus (participant_count moderator_count : N)
| LobbyJoin (participant : participant_id) (display_name : text) (authenticated : bool)
| LobbyDenied (reason : option text)
| LobbyAdmitted.
End ServerMessage.
Abbreviation server_message := ServerMessage.server_message.

(** ** Which budget a request draws on *)

Inductive social_budget := BudgetNone | ChatBroadcast | AdminMutation.

Definition social_budget_of (m : client_message) : social_budget :=
  match m with
  | ClientMessage.GetRoomSnapshot _
  | ClientMessage.GetAttachmentAccess _ _
  | ClientMessage.GetPinnedMessages _
  | ClientMessage.GetChatHistory _ _ _ _ _ _ _
  | ClientMessage.MarkChatRead _ _
  | ClientMessage.ListRoomBans _ _
  | ClientMessage.ListRoomMembers _ _
  | ClientMessage.ListRoomReports _ _
  | ClientMessage.ListModerationEvents _ _
  | ClientMessage.SetChatPreferences _ _ _ => BudgetNone
  | ClientMessage.ChangeNickname _ _
  | ClientMessage.SetChatStyle _ _
  | ClientMessage.ReactToMessage _ _ _
  | ClientMessage.EditChatMessage _ _ _ _ => ChatBroadcast
  | _ => AdminMutation
  end.

Definition social_request (m : client_message) : option (string * string) :=
  match m with
  | ClientMessage.SetChatPreferences request_id _ _ => Some (request_id, "setChatPreferences")
  | ClientMessage.GetAttachmentAccess request_id _ => Some (request_id, "getAttachmentAccess")
  | ClientMessage.ChangeNickname request_id _ => Some (request_id, "changeNickname")
  | ClientMessage.SetChatStyle request_id _ => Some (request_id, "setChatStyle")
  | ClientMessage.EditChatMessage request_id _ _ _ => Some (request_id, "editChatMessage")
  | ClientMessage.GetPinnedMessages request_id => Some (request_id, "getPinnedMessages")
  | ClientMessage.SetPinnedMessage request_id _ _ => Some (request_id, "setPinnedMessage")
  | ClientMessage.RemoveChatMessage request_id _ => Some (request_id, "removeChatMessage")
  | ClientMessage.ReactToMessage request_id _ _ => Some (request_id, "reactToMessage")
  | ClientMessage.GetRoomSnapshot request_id => Some (request_id, "getRoomSnapshot")
  | ClientMessage.GetChatHistory request_id _ _ _ _ _ _ => Some (request_id, "getChatHistory")
  | ClientMessage.MarkChatRead request_id _ => Some (request_id, "markChatRead")
  | ClientMessage.SetRoomHistory request_id _ => Some (request_id, "setRoomHistory")
  | ClientMessage.ListRoomBans request_id _ => Some (request_id, "listRoomBans")
  | ClientMessage.RemoveRoomBan request_id _ => Some (request_id, "removeRoomBan")
  | ClientMessage.ListRoomMembers request_id _ => Some (request_id, "listRoomMembers")
  | ClientMessage.SetMemberRole request_id _ _ => Some (request_id, "setMemberRole")
  | ClientMessage.ReportParticipant request_id _ _ => Some (request_id, "reportParticipant")
  | ClientMessage.ListRoomReports request_id _ => Some (request_id, "listRoomReports")
  | ClientMessage.ResolveRoomReport request_id _ _ => Some (request_id, "resolveRoomReport")
  | ClientMessage.ListModerationEvents request_id _ => Some (request_id, "listModerationEvents")
  | _ => None
  end.

Definition social_error (m : client_message) (code : error_code) (message : string)
  : option server_message :=
  let request_id := fst <$> social_request m in
  let client_message_id :=
    match m with
    | ClientMessage.ChatMessage _ _ client_message_id _ _ => client_message_id
    | ClientMessage.PrivateMessage _ _ _ client_message_id _ _ => Some client_message_id
    | ClientMessage.RetryChatMessage message => Some (retry_client_message_id message)
    | _ => None
    end in
  match request_id, client_message_id with
  | None, None => None
  | _, _ => Some (ServerMessage.SocialError request_id client_message_id code message)
  end.
