(* ===== verification/TokenBucket.v ===== *)
(** * Token buckets and violation windows
      ([src/src/signaling/connection_token_bucket.rs])

    Capacity is counted in microseconds of a token, so that refills of less
    than a second stay exact; every arithmetic step saturates as in the code. *)

From S2P Require Import Prelude.
Open Scope N_scope.

Definition TOKEN_US : N := 1000000.

Record token_bucket := TokenBucket {
  tokens_us : N;
  capacity_us : N;
  refill_rate : N;
  last_refill : instant
}.
#[export] Instance eta_token_bucket : Eta token_bucket := fun b =>
  TokenBucket (tokens_us b) (capacity_us b) (refill_rate b) (last_refill b).

(** [TokenBucket::full]. *)
Definition bucket_full (now : instant) (rate capacity : N) : token_bucket :=
  TokenBucket capacity capacity rate now.

(** [u64::try_from(elapsed.as_micros()).unwrap_or(u64::MAX)]. *)
Definition elapsed_us (b : token_bucket) (now : instant) : N :=
  N.min (as_micros (duration_since now (last_refill b))) U64_MAX.

Definition try_consume (b : token_bucket) (now : instant) : token_bucket * bool :=
  let elapsed := elapsed_us b now in
  let b := b <| last_refill := now |> in
  let b := b <| tokens_us := N.min (u64_saturating_add (tokens_us b)
                                      (u64_saturating_mul elapsed (refill_rate b)))
                               (capacity_us b) |> in
  if tokens_us b <? TOKEN_US then (b, false)
  else (b <| tokens_us := tokens_us b - TOKEN_US |>, true).

Record violation_window := ViolationWindow { started : option instant; violations : N }.

Definition violation_default : violation_window := ViolationWindow None 0.

Definition record (v : violation_window) (now : instant) (window : duration)
  : violation_window * N :=
  let restart := match started v with
                 | None => true
                 | Some s => window <=? duration_since now s
                 end in
  let v := if restart then ViolationWindow (Some now) 0 else v in
  let v := ViolationWindow (started v) (u32_saturating_add (violations v) 1) in
  (v, violations v).

(** ** Runs *)

(** A sequence of attempts against one bucket: the final bucket and how many
    were admitted. *)
Fixpoint consume_run (b : token_bucket) (times : list instant) : token_bucket * N :=
  match times with
  | [] => (b, 0)
  | now :: times =>
      let '(b, ok) := try_consume b now in
      let '(b, n) := consume_run b times in
      (b, (if ok then 1 else 0) + n)
  end.

(** The times of a run do not go back, from [t] on. *)
Fixpoint nondecreasing (t : instant) (times : list instant) : Prop :=
  match times with
  | [] => True
  | now :: times => t <= now /\ nondecreasing now times
  end.

(** ** Lemmas *)

Definition bucket_ok (b : token_bucket) : Prop := tokens_us b <= capacity_us b.

Lemma bucket_full_ok now rate capacity : bucket_ok (bucket_full now rate capacity).
Proof. unfold bucket_ok, bucket_full; cbn. lia. Qed.

Lemma try_consume_ok b now : bucket_ok b -> bucket_ok (try_consume b now).1.
Proof.
  unfold bucket_ok, try_consume. cbn. destruct (_ <? _) eqn:E; cbn; lia.
Qed.

Lemma try_consume_same b now :
  capacity_us (try_consume b now).1 = capacity_us b
  /\ refill_rate (try_consume b now).1 = refill_rate b
  /\ last_refill (try_consume b now).1 = now.
Proof. unfold try_consume. cbn. by destruct (_ <? _). Qed.

(** One attempt: what is left and what was spent come from what was there and
    what the elapsed time refilled. *)
Lemma try_consume_spends b now :
  tokens_us (try_consume b now).1 + (if (try_consume b now).2 then TOKEN_US else 0)
  <= tokens_us b + refill_rate b * as_micros (duration_since now (last_refill b)).
Proof.
  assert (elapsed_us b now * refill_rate b
          <= refill_rate b * as_micros (duration_since now (last_refill b))).
  { rewrite N.mul_comm. apply N.mul_le_mono_l. unfold elapsed_us. lia. }
  unfold try_consume, u64_saturating_add, u64_saturating_mul. cbn.
  destruct (N.ltb_spec (N.min (N.min (tokens_us b + N.min (elapsed_us b now * refill_rate b) U64_MAX)
                                U64_MAX) (capacity_us b)) TOKEN_US); cbn [fst snd tokens_us]; lia.
Qed.

(** Truncating each step's microseconds never adds up to more than the whole. *)
Lemma as_micros_add (t0 t1 t2 : instant) :
  t0 <= t1 -> t1 <= t2 ->
  as_micros (duration_since t1 t0) + as_micros (duration_since t2 t1)
  <= as_micros (duration_since t2 t0).
Proof.
  unfold as_micros, duration_since. intros.
  replace (t2 - t0) with ((t1 - t0) + (t2 - t1)) by lia.
  pose proof (N.Div0.mul_div_le (t1 - t0) 1000). pose proof (N.Div0.mul_div_le (t2 - t1) 1000).
  apply N.div_le_lower_bound; lia.
Qed.

Lemma last_default {A} (x d d' : A) l : List.last (x :: l) d = List.last (x :: l) d'.
Proof. revert x. induction l as [|y l IH]; intros x; [done|]. exact (IH y). Qed.

Lemma nondecreasing_last t times : nondecreasing t times -> t <= List.last times t.
Proof.
  revert t. induction times as [|now times IH]; intros t; cbn; [lia|].
  intros [Ht Hn]. destruct times as [|u times]; [done|].
  specialize (IH now Hn). rewrite (last_default u now t) in IH. etrans; [exact Ht|exact IH].
Qed.

Lemma consume_run_bound b times :
  nondecreasing (last_refill b) times ->
  tokens_us (consume_run b times).1 + TOKEN_US * (consume_run b times).2
  <= tokens_us b
     + refill_rate b * as_micros (duration_since (List.last times (last_refill b)) (last_refill b)).
Proof.
  revert b. induction times as [|now times IH]; intros b Hn.
  { cbn. unfold duration_since. rewrite N.sub_diag. lia. }
  destruct Hn as [Hle Hn]. cbn [consume_run].
  pose proof (try_consume_spends b now) as Hs.
  destruct (try_consume_same b now) as (_ & Hr & Hl).
  destruct (try_consume b now) as [b1 ok]. cbn [fst snd] in *.
  specialize (IH b1). rewrite Hl, Hr in IH. specialize (IH Hn).
  destruct (consume_run b1 times) as [b2 n]. cbn [fst snd] in *.
  assert (List.last (now :: times) (last_refill b) = List.last times now) as ->.
  { destruct times as [|u times]; [done|]. apply (last_default u). }
  pose proof (as_micros_add (last_refill b) now (List.last times now) Hle
                (nondecreasing_last now times Hn)) as Hm.
  apply (N.mul_le_mono_l _ _ (refill_rate b)) in Hm. rewrite N.mul_add_distr_l in Hm.
  destruct ok; lia.
Qed.

Lemma consume_run_same b times :
  capacity_us (consume_run b times).1 = capacity_us b
  /\ refill_rate (consume_run b times).1 = refill_rate b
  /\ last_refill (consume_run b times).1 = List.last times (last_refill b).
Proof.
  revert b. induction times as [|now times IH]; intros b; [done|]. cbn [consume_run].
  destruct (try_consume_same b now) as (Hc & Hr & Hl).
  destruct (try_consume b now) as [b1 ok]. specialize (IH b1).
  destruct (consume_run b1 times) as [b2 n]. cbn [fst] in *. rewrite Hc, Hr, Hl in IH.
  destruct IH as (-> & -> & ->). split_and!; try done.
  destruct times as [|u times]; [done|]. apply (last_default u).
Qed.

Lemma consume_run_ok b times : bucket_ok b -> bucket_ok (consume_run b times).1.
Proof.
  revert b. induction times as [|now times IH]; intros b Hb; [done|]. cbn [consume_run].
  pose proof (try_consume_ok b now Hb). destruct (try_consume b now) as [b1 ok].
  specialize (IH b1). destruct (consume_run b1 times). by apply IH.
Qed.

(** A refill of a whole token admits, whatever was left. *)
Lemma try_consume_refilled b now :
  TOKEN_US <= capacity_us b <= U64_MAX ->
  TOKEN_US <= refill_rate b * as_micros (duration_since now (last_refill b)) ->
  (try_consume b now).2 = true.
Proof.
  intros Hc Hr. unfold try_consume. cbn.
  assert (TOKEN_US <= N.min (elapsed_us b now * refill_rate b) U64_MAX).
  { unfold elapsed_us. destruct (N.le_ge_cases (as_micros (duration_since now (last_refill b))) U64_MAX).
    - rewrite (N.min_l (as_micros _)) by done. unfold TOKEN_US, U64_MAX in *. lia.
    - rewrite (N.min_r (as_micros _)) by done. destruct (decide (refill_rate b = 0)) as [E|].
      + rewrite E in Hr. unfold TOKEN_US in Hr. lia.
      + apply N.min_glb; unfold TOKEN_US, U64_MAX in *; lia. }
  unfold u64_saturating_add, u64_saturating_mul.
  destruct (N.ltb_spec (N.min (N.min (tokens_us b + N.min (elapsed_us b now * refill_rate b) U64_MAX)
                                U64_MAX) (capacity_us b)) TOKEN_US); [|done].
  lia.
Qed.

(** Attempts [step] nanoseconds apart or more, from [t] on. *)
Fixpoint spaced (step : duration) (t : instant) (times : list instant) : Prop :=
  match times with
  | [] => True
  | now :: times => t + step <= now /\ spaced step now times
  end.

(** ** Properties *)

(** Whatever happened before, the attempts of any later stretch are
    admitted at most capacity plus refill: with [n] of them admitted by the
    time of the last, [n] tokens are at most the capacity plus the rate times
    the microseconds the stretch lasted. *)
Theorem bucket_bounds_every_stretch t0 rate capacity before stretch :
  nondecreasing t0 (before ++ stretch) ->
  let b := (consume_run (bucket_full t0 rate capacity) before).1 in
  let start := List.last before t0 in
  TOKEN_US * (consume_run b stretch).2
  <= capacity + rate * as_micros (duration_since (List.last stretch start) start).
Proof.
  intros Hn b start.
  destruct (consume_run_same (bucket_full t0 rate capacity) before) as (Hc & Hr & Hl).
  pose proof (consume_run_ok _ before (bucket_full_ok t0 rate capacity)) as Hok.
  fold b in Hc, Hr, Hl, Hok. unfold bucket_ok in Hok. cbn in Hc, Hr, Hl. fold start in Hl.
  assert (nondecreasing (last_refill b) stretch) as Hs.
  { rewrite Hl. unfold start. clear -Hn. revert t0 Hn.
    induction before as [|now before IH]; intros t0 Hn; [done|]. destruct Hn as [_ Hn].
    specialize (IH now Hn). destruct before as [|u before]; [done|].
    change (List.last (now :: u :: before) t0) with (List.last (u :: before) t0).
    by rewrite (last_default u t0 now). }
  pose proof (consume_run_bound b stretch Hs) as Hb. rewrite Hr, Hl in Hb. lia.
Qed.

Lemma bucket_bounds_every_stretch_witness :
  let times := [from_millis 0; from_millis 0; from_millis 0; from_millis 500; from_millis 500] in
  nondecreasing 0 ([from_millis 0] ++ times)
  /\ (consume_run (bucket_full 0 2 (2 * TOKEN_US)) times).2 = 3
  /\ TOKEN_US * (consume_run (consume_run (bucket_full 0 2 (2 * TOKEN_US)) [from_millis 0]).1 times).2
     <= 2 * TOKEN_US + 2 * as_micros (duration_since (from_millis 500) 0).
Proof.
  intros times. split_and!; [cbn; unfold from_millis; lia|reflexivity|].
  apply (bucket_bounds_every_stretch 0 2 (2 * TOKEN_US) [from_millis 0] times).
  cbn. unfold from_millis. lia.
Defined.

(** A sender that leaves the time of one token between its
    attempts is never refused, whatever state the bucket was in. *)
Theorem bucket_admits_paced_sender b step times :
  TOKEN_US <= capacity_us b <= U64_MAX ->
  TOKEN_US <= refill_rate b * as_micros step ->
  spaced step (last_refill b) times ->
  (consume_run b times).2 = N.of_nat (length times).
Proof.
  intros Hc Hstep. revert b Hc Hstep. induction times as [|now times IH]; intros b Hc Hstep Hs; [done|].
  destruct Hs as [Hle Hs]. cbn [consume_run].
  destruct (try_consume_same b now) as (Hc' & Hr' & Hl').
  assert ((try_consume b now).2 = true) as Hadm.
  { apply try_consume_refilled; [done|]. etrans; [exact Hstep|]. apply N.mul_le_mono_l.
    unfold as_micros, duration_since. apply N.Div0.div_le_mono. lia. }
  destruct (try_consume b now) as [b1 ok]. cbn [fst snd] in *. subst ok.
  specialize (IH b1). rewrite Hc', Hr', Hl' in IH. specialize (IH Hc Hstep Hs).
  destruct (consume_run b1 times) as [b2 n]. cbn [snd] in *. subst n. cbn [length]. lia.
Qed.

Lemma bucket_admits_paced_sender_witness :
  (consume_run (TokenBucket 0 (5 * TOKEN_US) 2 0)
     [from_millis 500; from_millis 1000; from_millis 1700]).2 = 3.
Proof.
  apply (bucket_admits_paced_sender (TokenBucket 0 (5 * TOKEN_US) 2 0) (from_millis 500)
           [from_millis 500; from_millis 1000; from_millis 1700]).
  - unfold TOKEN_US, U64_MAX. cbn. lia.
  - vm_compute. discriminate.
  - cbn. unfold from_millis. lia.
Defined.

Close Scope N_scope.
