(* ===== verification/Gates.v ===== *)
(** * Admission budgets of one connection
      ([src/src/signaling/connection_gates.rs])

    Every inbound frame, then every decoded command, passes the budgets of its
    connection before dispatch. *)

From S2P Require Import Prelude Refusal Settings Protocol TokenBucket.
Open Scope N_scope.

Definition RATE_LIMIT_MAX_TOKENS : N := 100.
Definition RATE_LIMIT_REFILL_RATE : N := 100.
Definition MAX_TOKENS_US : N := RATE_LIMIT_MAX_TOKENS * TOKEN_US.
Definition RATE_LIMIT_VIOLATION_WINDOW : duration := from_secs 10.
Definition RATE_LIMIT_MAX_VIOLATIONS : N := 3.
Definition CHAT_RATE_LIMIT_REFILL_RATE : N := 2.
Definition MAX_CHAT_TOKENS_US : N := 5 * TOKEN_US.
Definition MEDIA_MUTATION_RATE_LIMIT_REFILL_RATE : N := 2.
Definition MAX_MEDIA_MUTATION_TOKENS_US : N := 8 * TOKEN_US.
Definition MEDIA_MUTATION_VIOLATION_WINDOW : duration := from_secs 10.
Definition MEDIA_MUTATION_MAX_VIOLATIONS : N := 3.
Definition TRANSPORT_MUTATION_RATE_LIMIT_REFILL_RATE : N := 1.
Definition MAX_TRANSPORT_MUTATION_TOKENS_US : N := 6 * TOKEN_US.
Definition CONSUMER_MUTATION_RATE_LIMIT_REFILL_RATE : N := 4.
Definition ADMIN_MUTATION_RATE_LIMIT_REFILL_RATE : N := 5.
Definition MAX_ADMIN_MUTATION_TOKENS_US : N := 20 * TOKEN_US.
Definition ADMIN_MUTATION_VIOLATION_WINDOW : duration := from_secs 10.
Definition ADMIN_MUTATION_MAX_VIOLATIONS : N := 3.
Definition VOICE_REQUEST_COOLDOWN : duration := from_secs 5.
Definition ROOM_PASSWORD_HASH_COOLDOWN : duration := from_secs 30.

Definition consumer_mutation_capacity (consumer_limit : N) : N :=
  u64_saturating_mul (N.min consumer_limit U64_MAX) (3 * TOKEN_US).

Definition frame_capacity (consumer_capacity : N) : N :=
  N.max (u64_saturating_add
           (u64_saturating_add
              (u64_saturating_add consumer_capacity MAX_MEDIA_MUTATION_TOKENS_US)
              MAX_TRANSPORT_MUTATION_TOKENS_US)
           (2 * TOKEN_US))
        MAX_TOKENS_US.

(** ** Join attempts *)

Record join_attempt_state := JoinAttempts {
  last_attempt : option instant; password_challenge_room : option string }.
#[export] Instance eta_join_attempt_state : Eta join_attempt_state := fun s =>
  JoinAttempts (last_attempt s) (password_challenge_room s).

Definition within (previous : option instant) (now : instant) (d : duration) : bool :=
  is_some_and previous (fun previous => duration_since now previous <? d).

(** [JoinAttemptState::allow]: the challenge is taken on every attempt. *)
Definition allow_join (s : join_attempt_state) (room_id : string) (has_password : bool)
  (now : instant) : join_attempt_state * bool :=
  let answering_challenge :=
    is_some_and (password_challenge_room s)
      (fun pending => String.eqb pending room_id && has_password) in
  let s := s <| password_challenge_room := None |> in
  if negb answering_challenge && within (last_attempt s) now (from_secs 1) then (s, false)
  else (s <| last_attempt := Some now |>, true).

(** ** Media sessions *)

Definition is_media_mutation (m : client_message) : bool :=
  match m with
  | ClientMessage.Produce _ _ _ _ | ClientMessage.CloseProducer _
  | ClientMessage.PauseProducer _ | ClientMessage.ResumeProducer _ => true
  | _ => false
  end.

Definition is_transport_mutation (m : client_message) : bool :=
  match m with
  | ClientMessage.CreateSendTransport | ClientMessage.CreateRecvTransport
  | ClientMessage.ReplaceRecvTransport _ | ClientMessage.ConnectTransport _ _
  | ClientMessage.RestartIce _ => true
  | _ => false
  end.

Definition is_consumer_mutation (m : client_message) : bool :=
  match m with
  | ClientMessage.Consume _ _ | ClientMessage.ResumeConsumer _ | ClientMessage.PauseConsumer _
  | ClientMessage.CloseConsumer _ | ClientMessage.SetConsumerPreferredLayers _ _ _ => true
  | _ => false
  end.

Record media_session_rate_state := MediaRates {
  media_mutations : token_bucket;
  transport_mutations : token_bucket;
  consumer_mutations : token_bucket;
  media_violations : violation_window
}.
#[export] Instance eta_media_rates : Eta media_session_rate_state := fun s =>
  MediaRates (media_mutations s) (transport_mutations s) (consumer_mutations s) (media_violations s).

Definition with_consumer_limit (now : instant) (consumer_limit : N) : media_session_rate_state :=
  {| media_mutations := bucket_full now MEDIA_MUTATION_RATE_LIMIT_REFILL_RATE
                          MAX_MEDIA_MUTATION_TOKENS_US;
     transport_mutations := bucket_full now TRANSPORT_MUTATION_RATE_LIMIT_REFILL_RATE
                              MAX_TRANSPORT_MUTATION_TOKENS_US;
     consumer_mutations := bucket_full now CONSUMER_MUTATION_RATE_LIMIT_REFILL_RATE
                             (consumer_mutation_capacity consumer_limit);
     media_violations := violation_default |}.

Definition limit_exceeded (s : media_session_rate_state) (m : client_message) (now : instant)
  : media_session_rate_state * bool :=
  if is_media_mutation m then
    let '(b, ok) := try_consume (media_mutations s) now in (s <| media_mutations := b |>, negb ok)
  else if is_transport_mutation m then
    let '(b, ok) := try_consume (transport_mutations s) now in
    (s <| transport_mutations := b |>, negb ok)
  else if is_consumer_mutation m then
    let '(b, ok) := try_consume (consumer_mutations s) now in
    (s <| consumer_mutations := b |>, negb ok)
  else (s, false).

Definition record_violation (s : media_session_rate_state) (now : instant)
  : media_session_rate_state * N :=
  let '(v, n) := record (media_violations s) now MEDIA_MUTATION_VIOLATION_WINDOW in
  (s <| media_violations := v |>, n).

(** ** Commands *)

Definition is_admin_mutation (m : client_message) : bool :=
  bool_decide (is_Some (social_request m))
  || match m with
     | ClientMessage.CloseCam _ | ClientMessage.CamBan _ _ | ClientMessage.CamUnban _
     | ClientMessage.TextMute _ | ClientMessage.TextUnmute _ | ClientMessage.Kick _ _ _
     | ClientMessage.Ban _ _ _ _ | ClientMessage.Unban _ | ClientMessage.SetRole _ _
     | ClientMessage.UpdateRoomSettings _ | ClientMessage.SetTopic _
     | ClientMessage.AdmitFromLobby _ | ClientMessage.DenyFromLobby _ => true
     | _ => false
     end.

Definition is_chat (m : client_message) : bool :=
  match m with
  | ClientMessage.ChatMessage _ _ _ _ _ | ClientMessage.PrivateMessage _ _ _ _ _ _
  | ClientMessage.RetryChatMessage _ => true
  | _ => false
  end.

(** A settings change whose patch has [password: Some(Some(_))]. *)
Definition sets_password (m : client_message) : bool :=
  match m with
  | ClientMessage.UpdateRoomSettings patch =>
      match SettingsPatch.password patch with Some (Some _) => true | _ => false end
  | _ => false
  end.

Inductive close_reason := MediaMutations (n : N) | AdminMutations (n : N) | ChatFlood.

Inductive admission :=
| Allowed
| AdmissionRefused (response : server_message)
| Close (response : server_message) (why : close_reason).

Inductive frame_admission := FrameAllowed | FrameRefused (violations : N).

Record command_gates := CommandGates {
  frames : token_bucket;
  frame_refusals : violation_window;
  media : media_session_rate_state;
  admin : token_bucket;
  admin_refusals : violation_window;
  chat : token_bucket;
  last_room_password_hash : option instant;
  join_attempts : join_attempt_state;
  last_voice_request : option instant
}.
#[export] Instance eta_command_gates : Eta command_gates := fun g =>
  CommandGates (frames g) (frame_refusals g) (media g) (admin g) (admin_refusals g) (chat g)
    (last_room_password_hash g) (join_attempts g) (last_voice_request g).

Definition gates_new (now : instant) (consumer_limit : N) : command_gates :=
  {| frames := bucket_full now RATE_LIMIT_REFILL_RATE
                 (frame_capacity (consumer_mutation_capacity consumer_limit));
     frame_refusals := violation_default;
     media := with_consumer_limit now consumer_limit;
     admin := bucket_full now ADMIN_MUTATION_RATE_LIMIT_REFILL_RATE MAX_ADMIN_MUTATION_TOKENS_US;
     admin_refusals := violation_default;
     chat := bucket_full now CHAT_RATE_LIMIT_REFILL_RATE MAX_CHAT_TOKENS_US;
     last_room_password_hash := None;
     join_attempts := JoinAttempts None None;
     last_voice_request := None |}.

Definition admit_frame (g : command_gates) (now : instant) : command_gates * frame_admission :=
  let '(b, ok) := try_consume (frames g) now in
  let g := g <| frames := b |> in
  if ok then (g, FrameAllowed)
  else let '(v, n) := record (frame_refusals g) now RATE_LIMIT_VIOLATION_WINDOW in
       (g <| frame_refusals := v |>, FrameRefused n).

Definition refuse (message : string) : server_message :=
  ServerMessage.Error CodeRateLimited message.

Definition refuse_social (m : client_message) (message : string) : server_message :=
  default (refuse message) (social_error m CodeRateLimited message).

(** The gates of [admit_command], in the order of its [if]s.  Each either ends with a
    verdict or passes on. *)
Definition gate := command_gates -> command_gates * option admission.

Definition media_gate (m : client_message) (now : instant) : gate := fun g =>
  let '(s, exceeded) := limit_exceeded (media g) m now in
  let g := g <| media := s |> in
  if exceeded then
    let '(s, n) := record_violation (media g) now in
    let g := g <| media := s |> in
    let response := refuse "Media changes are rate limited" in
    (g, Some (if MEDIA_MUTATION_MAX_VIOLATIONS <=? n then Close response (MediaMutations n)
              else AdmissionRefused response))
  else (g, None).

Definition admin_gate (m : client_message) (now : instant) : gate := fun g =>
  if is_admin_mutation m then
    let '(b, ok) := try_consume (admin g) now in
    let g := g <| admin := b |> in
    if ok then (g, None)
    else
      let '(v, n) := record (admin_refusals g) now ADMIN_MUTATION_VIOLATION_WINDOW in
      let g := g <| admin_refusals := v |> in
      let response := refuse_social m "Room administration changes are rate limited" in
      (g, Some (if ADMIN_MUTATION_MAX_VIOLATIONS <=? n then Close response (AdminMutations n)
                else AdmissionRefused response))
  else (g, None).

Definition chat_gate (m : client_message) (now : instant) : gate := fun g =>
  if is_chat m then
    let '(b, ok) := try_consume (chat g) now in
    let g := g <| chat := b |> in
    if ok then (g, None)
    else (g, Some (Close (refuse_social m "Chat rate limit exceeded") ChatFlood))
  else (g, None).

Definition password_gate (m : client_message) (now : instant) : gate := fun g =>
  if sets_password m then
    if within (last_room_password_hash g) now ROOM_PASSWORD_HASH_COOLDOWN
    then (g, Some (AdmissionRefused (refuse "Room password updates are rate limited")))
    else (g <| last_room_password_hash := Some now |>, None)
  else (g, None).

Definition join_gate (m : client_message) (now : instant) : gate := fun g =>
  match m with
  | ClientMessage.JoinRoom room_id _ password _ =>
      let '(s, ok) := allow_join (join_attempts g) room_id (bool_decide (is_Some password)) now in
      let g := g <| join_attempts := s |> in
      if ok then (g, None)
      else (g, Some (AdmissionRefused (refuse "Join attempts are rate limited")))
  | _ => (g, None)
  end.

Definition voice_gate (m : client_message) (now : instant) : gate := fun g =>
  match m with
  | ClientMessage.RequestVoice =>
      if within (last_voice_request g) now VOICE_REQUEST_COOLDOWN
      then (g, Some (AdmissionRefused (refuse "Voice requests are rate limited")))
      else (g <| last_voice_request := Some now |>, None)
  | _ => (g, None)
  end.

Fixpoint through (gs : list gate) (g : command_gates) : command_gates * admission :=
  match gs with
  | [] => (g, Allowed)
  | pass :: gs =>
      let '(g, verdict) := pass g in
      match verdict with Some a => (g, a) | None => through gs g end
  end.

Definition admit_command (g : command_gates) (m : client_message) (now : instant)
  : command_gates * admission :=
  through [media_gate m now; admin_gate m now; chat_gate m now; password_gate m now;
           join_gate m now; voice_gate m now] g.

Definition note_password_challenge (g : command_gates) (room_id : string) : command_gates :=
  g <| join_attempts := (join_attempts g) <| password_challenge_room := Some room_id |> |>.
Definition reset_media (g : command_gates) (now : instant) (consumer_limit : N) : command_gates :=
  g <| media := with_consumer_limit now consumer_limit |>.
Definition restore_media (g : command_gates) (s : media_session_rate_state) : command_gates :=
  g <| media := s |>.
Definition into_media_state (g : command_gates) : media_session_rate_state := media g.

(** ** Runs of a connection *)

Inductive gate_event :=
| EvFrame (now : instant)
| EvCommand (m : client_message) (now : instant)
| EvChallenge (room_id : string).

Definition event_time (e : gate_event) : option instant :=
  match e with EvFrame now | EvCommand _ now => Some now | EvChallenge _ => None end.

(** One event, and the command it let through, if any. *)
Definition gate_step (g : command_gates) (e : gate_event)
  : command_gates * option (client_message * instant) :=
  match e with
  | EvFrame now => ((admit_frame g now).1, None)
  | EvCommand m now =>
      let '(g, a) := admit_command g m now in
      (g, match a with Allowed => Some (m, now) | _ => None end)
  | EvChallenge room_id => (note_password_challenge g room_id, None)
  end.

(** The commands a sequence of events lets through. *)
Fixpoint gate_run (g : command_gates) (es : list gate_event)
  : command_gates * list (client_message * instant) :=
  match es with
  | [] => (g, [])
  | e :: es =>
      let '(g, out) := gate_step g e in
      let '(g, outs) := gate_run g es in
      (g, match out with Some o => o :: outs | None => outs end)
  end.

(** The times of the events do not go back. *)
Definition events_from (t : instant) (es : list gate_event) : Prop :=
  nondecreasing t (omap event_time es).

(** *** The token budgets *)

Inductive budget := ChatBudget | AdminBudget | MediaBudget | TransportBudget | ConsumerBudget.

#[export] Instance budget_eq_dec : EqDecision budget.
Proof. solve_decision. Defined.

Definition draws_on (k : budget) : client_message -> bool :=
  match k with
  | ChatBudget => is_chat
  | AdminBudget => is_admin_mutation
  | MediaBudget => is_media_mutation
  | TransportBudget => is_transport_mutation
  | ConsumerBudget => is_consumer_mutation
  end.

Definition bucket_of (k : budget) (g : command_gates) : token_bucket :=
  match k with
  | ChatBudget => chat g
  | AdminBudget => admin g
  | MediaBudget => media_mutations (media g)
  | TransportBudget => transport_mutations (media g)
  | ConsumerBudget => consumer_mutations (media g)
  end.

(** How many of the commands let through draw on [k]. *)
Definition drawn (k : budget) (outs : list (client_message * instant)) : N :=
  N.of_nat (length (filter (fun out => draws_on k out.1 = true) outs)).

(** The classes of commands are disjoint. *)
Lemma classes_disjoint k k' m : draws_on k m = true -> draws_on k' m = true -> k = k'.
Proof. intros H1 H2. destruct k, k', m; first [reflexivity | discriminate H1 | discriminate H2]. Qed.

Lemma draws_on_other k k' m : draws_on k m = true -> k <> k' -> draws_on k' m = false.
Proof.
  intros Hk Hne. destruct (draws_on k' m) eqn:E; [|done]. by destruct Hne; apply (classes_disjoint k k' m).
Qed.

(** What no gate of a list changes, the whole passage keeps. *)
Lemma through_preserves {A} (f : command_gates -> A) gs g :
  Forall (fun pass : gate => forall g, f (pass g).1 = f g) gs -> f (through gs g).1 = f g.
Proof.
  intros Hgs. revert g. induction Hgs as [|pass gs Hp Hgs IH]; intros g; cbn; [done|].
  specialize (Hp g). destruct (pass g) as [g1 [a|]]; cbn in *; [done|]. by rewrite IH.
Qed.

Lemma through_pass pass gs g : (pass g).2 = None -> through (pass :: gs) g = through gs (pass g).1.
Proof. cbn. by destruct (pass g) as [g1 []]; cbn. Qed.

Lemma limit_exceeded_none s m now :
  is_media_mutation m = false -> is_transport_mutation m = false -> is_consumer_mutation m = false ->
  limit_exceeded s m now = (s, false).
Proof. unfold limit_exceeded. by intros -> -> ->. Qed.

Lemma media_gate_skip m now g :
  is_media_mutation m = false -> is_transport_mutation m = false -> is_consumer_mutation m = false ->
  media_gate m now g = (g, None).
Proof. intros. unfold media_gate. rewrite limit_exceeded_none by done. by destruct g. Qed.

Lemma media_gate_other k m now g :
  draws_on k m = false -> bucket_of k (media_gate m now g).1 = bucket_of k g.
Proof.
  unfold media_gate, limit_exceeded, record_violation. intros Hk.
  destruct k; cbn in Hk; rewrite ?Hk;
    repeat (case_match; simplify_eq; cbn); done.
Qed.

Lemma admin_gate_other k m now g :
  k <> AdminBudget -> bucket_of k (admin_gate m now g).1 = bucket_of k g.
Proof.
  intros Hk. unfold admin_gate. destruct (is_admin_mutation m); [|done].
  destruct (try_consume _ _) as [b []]; [by destruct k|]. destruct (record _ _ _). by destruct k.
Qed.

Lemma admin_gate_skip m now g : is_admin_mutation m = false -> admin_gate m now g = (g, None).
Proof. unfold admin_gate. by intros ->. Qed.

Lemma chat_gate_other k m now g :
  k <> ChatBudget -> bucket_of k (chat_gate m now g).1 = bucket_of k g.
Proof.
  intros Hk. unfold chat_gate. destruct (is_chat m); [|done].
  destruct (try_consume _ _) as [b []]; by destruct k.
Qed.

Lemma chat_gate_skip m now g : is_chat m = false -> chat_gate m now g = (g, None).
Proof. unfold chat_gate. by intros ->. Qed.

Lemma password_gate_other k m now g : bucket_of k (password_gate m now g).1 = bucket_of k g.
Proof. unfold password_gate. repeat case_match; by destruct k. Qed.

Lemma join_gate_other k m now g : bucket_of k (join_gate m now g).1 = bucket_of k g.
Proof.
  unfold join_gate. destruct m; try done. destruct (allow_join _ _ _ _) as [s []]; by destruct k.
Qed.

Lemma voice_gate_other k m now g : bucket_of k (voice_gate m now g).1 = bucket_of k g.
Proof. unfold voice_gate. destruct m; try done. case_match; by destruct k. Qed.

#[local] Hint Resolve media_gate_other admin_gate_other chat_gate_other password_gate_other
  join_gate_other voice_gate_other : chat.

Lemma admit_other k g m now :
  draws_on k m = false -> bucket_of k (admit_command g m now).1 = bucket_of k g.
Proof.
  intros Hk. apply through_preserves.
  repeat (apply Forall_cons; split; [intros g'|]); [..|done]; auto with chat.
  - destruct (decide (k = AdminBudget)) as [->|]; [by rewrite admin_gate_skip|auto with chat].
  - destruct (decide (k = ChatBudget)) as [->|]; [by rewrite chat_gate_skip|auto with chat].
Qed.

(** A gate that charges the bucket of [k] and ends the passage when it is empty. *)
Definition charges (k : budget) (now : instant) (pass : gate) (g : command_gates) : Prop :=
  bucket_of k (pass g).1 = (try_consume (bucket_of k g) now).1
  /\ ((try_consume (bucket_of k g) now).2 = false -> exists a, (pass g).2 = Some a /\ a <> Allowed).

Lemma through_charges k now pass gs g :
  charges k now pass g ->
  Forall (fun pass : gate => forall g, bucket_of k (pass g).1 = bucket_of k g) gs ->
  bucket_of k (through (pass :: gs) g).1 = (try_consume (bucket_of k g) now).1
  /\ ((through (pass :: gs) g).2 = Allowed -> (try_consume (bucket_of k g) now).2 = true).
Proof.
  intros [Hb Hr] Hgs. cbn. destruct (try_consume (bucket_of k g) now) as [b []]; cbn in *.
  - destruct (pass g) as [g1 [a|]]; cbn in *; [done|]. by rewrite through_preserves.
  - destruct Hr as (a & Ha & Hne); [done|]. destruct (pass g) as [g1 v]; cbn in *. by subst v.
Qed.

Lemma media_gate_charges k m now g :
  draws_on k m = true -> k <> ChatBudget -> k <> AdminBudget -> charges k now (media_gate m now) g.
Proof.
  intros Hk H1 H2.
  pose proof (draws_on_other k MediaBudget m Hk) as Hmedia.
  pose proof (draws_on_other k TransportBudget m Hk) as Htransport.
  unfold charges, media_gate, limit_exceeded, record_violation.
  destruct k; try done; cbn [draws_on bucket_of] in *; rewrite ?Hk, ?Hmedia, ?Htransport by done;
    (destruct (try_consume _ now) as [b []]; cbn; [done|];
     split; [done|]; intros _; eexists; split; [done|]; by destruct (_ <=? _)).
Qed.

Lemma admin_gate_charges m now g :
  is_admin_mutation m = true -> charges AdminBudget now (admin_gate m now) g.
Proof.
  intros Hm. unfold charges, admin_gate. rewrite Hm. cbn [bucket_of].
  destruct (try_consume (admin g) now) as [b []]; cbn; [done|].
  split; [done|]. intros _. eexists. split; [done|]. by destruct (_ <=? _).
Qed.

Lemma chat_gate_charges m now g : is_chat m = true -> charges ChatBudget now (chat_gate m now) g.
Proof.
  intros Hm. unfold charges, chat_gate. rewrite Hm. cbn [bucket_of].
  destruct (try_consume (chat g) now) as [b []]; cbn; [done|].
  split; [done|]. intros _. by eexists.
Qed.

Lemma media_gate_skip_other k m now g :
  draws_on k m = true -> k = ChatBudget \/ k = AdminBudget -> media_gate m now g = (g, None).
Proof.
  intros Hk Hor. apply media_gate_skip;
    [apply (draws_on_other k MediaBudget m)|apply (draws_on_other k TransportBudget m)
    |apply (draws_on_other k ConsumerBudget m)]; try done; by destruct Hor as [->| ->].
Qed.

(** A command charges its budget once, and passes only when the charge did. *)
Lemma admit_draws k g m now :
  draws_on k m = true ->
  bucket_of k (admit_command g m now).1 = (try_consume (bucket_of k g) now).1
  /\ ((admit_command g m now).2 = Allowed -> (try_consume (bucket_of k g) now).2 = true).
Proof.
  intros Hk. unfold admit_command.
  destruct (decide (k = ChatBudget)) as [->|Hc].
  { rewrite through_pass by (by rewrite (media_gate_skip_other ChatBudget) by auto).
    rewrite (media_gate_skip_other ChatBudget) by auto. cbn [fst].
    assert (is_admin_mutation m = false) by by apply (draws_on_other ChatBudget AdminBudget m).
    rewrite through_pass by by rewrite admin_gate_skip. rewrite admin_gate_skip by done. cbn [fst].
    apply through_charges; [by apply chat_gate_charges|]. repeat constructor; auto with chat. }
  destruct (decide (k = AdminBudget)) as [->|Ha].
  { rewrite through_pass by (by rewrite (media_gate_skip_other AdminBudget) by auto).
    rewrite (media_gate_skip_other AdminBudget) by auto. cbn [fst].
    apply through_charges; [by apply admin_gate_charges|]. repeat constructor; auto with chat. }
  apply through_charges; [by apply media_gate_charges|]. repeat constructor; auto with chat.
Qed.

Definition charge_time (k : budget) (e : gate_event) : option instant :=
  match e with
  | EvCommand m now => if draws_on k m then Some now else None
  | _ => None
  end.

(** A run is, for the bucket of [k], the run of its charges. *)
Lemma gate_run_charges k g es :
  bucket_of k (gate_run g es).1 = (consume_run (bucket_of k g) (omap (charge_time k) es)).1
  /\ drawn k (gate_run g es).2 <= (consume_run (bucket_of k g) (omap (charge_time k) es)).2.
Proof.
  revert g. induction es as [|e es IH]; intros g; [done|]. cbn [gate_run].
  destruct e as [now|m now|room_id].
  - unfold gate_step. specialize (IH (admit_frame g now).1).
    assert (bucket_of k (admit_frame g now).1 = bucket_of k g) as Hsame.
    { unfold admit_frame. destruct (try_consume _ _) as [b []]; [by destruct k|].
      destruct (record _ _ _). by destruct k. }
    rewrite Hsame in IH. destruct (gate_run _ es) as [g2 outs]. exact IH.
  - unfold gate_step. cbn [omap list_omap charge_time]. destruct (draws_on k m) eqn:Hk.
    + destruct (admit_draws k g m now Hk) as [Hb Ha]. cbn [consume_run].
      destruct (admit_command g m now) as [g1 a]. cbn [fst snd] in *.
      destruct (try_consume (bucket_of k g) now) as [b ok]. cbn [fst snd] in *. subst b.
      specialize (IH g1). destruct (gate_run g1 es) as [g2 outs]. unfold omap in IH.
      destruct (consume_run (bucket_of k g1) _) as [b2 n]. cbn [fst snd] in *.
      destruct IH as [-> IH]. split; [done|]. unfold drawn in *.
      destruct a; [rewrite filter_cons, decide_True by done; cbn [length];
        rewrite Ha by done; lia|destruct ok; lia|destruct ok; lia].
    + pose proof (admit_other k g m now Hk) as Hb.
      destruct (admit_command g m now) as [g1 a]. cbn [fst snd] in *. specialize (IH g1). rewrite Hb in IH.
      destruct (gate_run g1 es) as [g2 outs]. cbn [fst snd] in *. destruct IH as [-> IH].
      split; [done|]. etrans; [|exact IH]. unfold drawn.
      destruct a; [rewrite filter_cons, decide_False|..]; try done. cbn. congruence.
  - specialize (IH (note_password_challenge g room_id)).
    assert (bucket_of k (note_password_challenge g room_id) = bucket_of k g) as Hsame by by destruct k.
    rewrite Hsame in IH. cbn [gate_step]. destruct (gate_run _ es) as [g2 outs]. exact IH.
Qed.

(** The charges of a run are in time order and no later than its end. *)
Lemma charge_times_from k es t t_end :
  events_from t es -> Forall (fun e => is_some_and (event_time e) (fun now => t_end <? now) = false) es ->
  nondecreasing t (omap (charge_time k) es) /\ (t <= t_end -> List.last (omap (charge_time k) es) t <= t_end).
Proof.
  unfold events_from. revert t. induction es as [|e es IH]; intros t Hn He; [done|].
  apply Forall_cons in He as [Hend He].
  assert (forall now, event_time e = Some now -> t <= now /\ now <= t_end) as Htime.
  { intros now Hnow. rewrite Hnow in Hend. cbn in Hn. rewrite Hnow in Hn. cbn in Hn, Hend.
    apply N.ltb_ge in Hend. by destruct Hn. }
  assert (forall now, t <= now -> nondecreasing now (omap event_time es) ->
                      nondecreasing t (omap event_time es)) as Hweak.
  { intros now Hle. destruct (omap event_time es); [done|]. cbn. intros [? ?]. split; [lia|done]. }
  destruct (charge_time k e) as [now|] eqn:Ec.
  - assert (event_time e = Some now) as Et.
    { destruct e as [|m now'|]; [done| |done]. cbn in Ec |- *. by destruct (draws_on k m). }
    destruct (Htime now Et) as [Hle Hle']. cbn in Hn |- *. rewrite Et in Hn. rewrite Ec.
    destruct Hn as [_ Hn]. destruct (IH now Hn He) as [IH1 IH2]. split; [done|]. intros _.
    specialize (IH2 Hle'). unfold omap in *. cbn. destruct (list_omap _ _ (charge_time k) es) as [|u l]; [done|].
    by rewrite (last_default u t now).
  - cbn [omap list_omap]. rewrite Ec. apply IH; [|done].
    cbn in Hn. destruct (event_time e) as [now|] eqn:Et; [|done]. destruct Hn as [Hle Hn].
    by apply (Hweak now).
Qed.

(** *** The cooldowns *)

Inductive cooldown := VoiceCooldown | PasswordCooldown.

Definition cools (c : cooldown) (m : client_message) : bool :=
  match c, m with
  | VoiceCooldown, ClientMessage.RequestVoice => true
  | PasswordCooldown, _ => sets_password m
  | _, _ => false
  end.

Definition cooldown_of (c : cooldown) : duration :=
  match c with VoiceCooldown => VOICE_REQUEST_COOLDOWN | PasswordCooldown => ROOM_PASSWORD_HASH_COOLDOWN end.

Definition last_of (c : cooldown) (g : command_gates) : option instant :=
  match c with VoiceCooldown => last_voice_request g | PasswordCooldown => last_room_password_hash g end.

(** Times at least [d] after the previous one, and after [prev] when there is one. *)
Fixpoint apart (d : duration) (prev : option instant) (times : list instant) : Prop :=
  match times with
  | [] => True
  | now :: times => is_some_and prev (fun p => duration_since now p <? d) = false /\ apart d (Some now) times
  end.

Definition cooled_times (c : cooldown) (outs : list (client_message * instant)) : list instant :=
  snd <$> filter (fun out => cools c out.1 = true) outs.

Lemma gates_last_of c m now :
  cools c m = false ->
  Forall (fun pass : gate => forall g, last_of c (pass g).1 = last_of c g)
    [media_gate m now; admin_gate m now; chat_gate m now; password_gate m now;
     join_gate m now; voice_gate m now].
Proof.
  intros Hc. repeat (apply Forall_cons; split; [intros g|]); [..|done].
  - unfold media_gate. destruct (limit_exceeded _ _ _) as [s []]; by destruct c.
  - unfold admin_gate. destruct (is_admin_mutation m); [|done].
    destruct (try_consume _ _) as [b []]; by destruct c.
  - unfold chat_gate. destruct (is_chat m); [|done]. destruct (try_consume _ _) as [b []]; by destruct c.
  - unfold password_gate. destruct c; [by repeat case_match|]. cbn in Hc. by rewrite Hc.
  - unfold join_gate. destruct m; try done. destruct (allow_join _ _ _ _) as [s []]; by destruct c.
  - unfold voice_gate. destruct m; try done. destruct c; [done|]. by case_match.
Qed.

Lemma admit_cools c g m now :
  cools c m = true ->
  ((admit_command g m now).2 = Allowed /\ within (last_of c g) now (cooldown_of c) = false
   /\ last_of c (admit_command g m now).1 = Some now)
  \/ ((admit_command g m now).2 <> Allowed /\ last_of c (admit_command g m now).1 = last_of c g).
Proof.
  intros Hc. destruct c.
  - destruct m; try discriminate Hc. unfold admit_command. cbn.
    destruct (within _ _ _) eqn:Hw; cbn; [by right|by left].
  - cbn in Hc. unfold admit_command. destruct m; try discriminate Hc. cbn [cooldown_of last_of].
    rewrite through_pass; (rewrite media_gate_skip by done); [|done]. cbn [through fst].
    unfold admin_gate. cbn. destruct (try_consume (admin g) now) as [b []]; cbn.
    + unfold password_gate. rewrite Hc. cbn. destruct (within _ _ _) eqn:Hw; cbn; [by right|by left].
    + right. by destruct (_ <=? _).
Qed.

(** *** The start of a media session *)

Definition media_budget (k : budget) : bool :=
  match k with MediaBudget | TransportBudget | ConsumerBudget => true | _ => false end.

Definition setup_command (m : client_message) : bool :=
  is_media_mutation m || is_transport_mutation m || is_consumer_mutation m.

Definition count_of (k : budget) (ms : list client_message) : N :=
  N.of_nat (length (filter (fun m => draws_on k m = true) ms)).

(** Every command arrives in a frame of its own at [now]; all must pass. *)
Fixpoint burst (g : command_gates) (ms : list client_message) (now : instant) : bool :=
  match ms with
  | [] => true
  | m :: ms =>
      let '(g, f) := admit_frame g now in
      let '(g, a) := admit_command g m now in
      match f, a with FrameAllowed, Allowed => burst g ms now | _, _ => false end
  end.

(** A bucket that holds [n] tokens at [now]. *)
Definition holds_tokens (b : token_bucket) (now : instant) (n : N) : Prop :=
  last_refill b = now /\ tokens_us b <= capacity_us b <= U64_MAX /\ TOKEN_US * n <= tokens_us b.

Lemma holds_tokens_consume b now n :
  holds_tokens b now (n + 1) -> (try_consume b now).2 = true /\ holds_tokens (try_consume b now).1 now n.
Proof.
  intros (Hl & Hc & Ht). unfold try_consume, elapsed_us, as_micros, duration_since. cbn.
  rewrite Hl, N.sub_diag. change (0 / 1000) with 0. change (N.min 0 U64_MAX) with 0.
  unfold u64_saturating_mul, u64_saturating_add. rewrite N.mul_0_l. change (N.min 0 U64_MAX) with 0.
  rewrite N.add_0_r, (N.min_l (tokens_us b)) by lia. rewrite N.min_l by lia.
  destruct (N.ltb_spec (tokens_us b) TOKEN_US); [lia|]. unfold holds_tokens. cbn. split; [done|lia].
Qed.

Lemma admit_setup k g m now :
  media_budget k = true -> draws_on k m = true -> (try_consume (bucket_of k g) now).2 = true ->
  (admit_command g m now).2 = Allowed /\ frames (admit_command g m now).1 = frames g.
Proof.
  intros Hk Hd Ht. unfold admit_command.
  assert (forall g, through [admin_gate m now; chat_gate m now; password_gate m now; join_gate m now;
                             voice_gate m now] g = (g, Allowed)) as Hrest.
  { intros g'. destruct k, m; first [discriminate Hk | discriminate Hd | reflexivity]. }
  assert ((media_gate m now g).2 = None /\ frames (media_gate m now g).1 = frames g) as [Hpass Hf].
  { pose proof (draws_on_other k MediaBudget m Hd) as Hmedia.
    pose proof (draws_on_other k TransportBudget m Hd) as Htransport.
    unfold media_gate, limit_exceeded.
    destruct k; try discriminate Hk; cbn [draws_on bucket_of] in *;
      rewrite ?Hd, ?Hmedia, ?Htransport by done; by destruct (try_consume _ now) as [b []]. }
  rewrite through_pass, Hrest by done. by split.
Qed.

Lemma burst_admitted g ms now :
  (forall k, media_budget k = true -> holds_tokens (bucket_of k g) now (count_of k ms)) ->
  holds_tokens (frames g) now (N.of_nat (length ms)) ->
  forallb setup_command ms = true ->
  burst g ms now = true.
Proof.
  revert g. induction ms as [|m ms IH]; intros g Hk Hf Hm; [done|].
  cbn [forallb] in Hm. apply andb_true_iff in Hm as [Hm Hms].
  assert (exists k, media_budget k = true /\ draws_on k m = true) as (k & Hmk & Hd).
  { unfold setup_command in Hm. destruct (is_media_mutation m) eqn:?; [by exists MediaBudget|].
    destruct (is_transport_mutation m) eqn:?; [by exists TransportBudget|]. by exists ConsumerBudget. }
  cbn [burst]. destruct (admit_frame g now) as [g1 f] eqn:Ef.
  assert (f = FrameAllowed /\ (forall k, bucket_of k g1 = bucket_of k g)
          /\ holds_tokens (frames g1) now (N.of_nat (length ms))) as (-> & Hb & Hf1).
  { unfold admit_frame in Ef. replace (N.of_nat (length (m :: ms))) with (N.of_nat (length ms) + 1) in Hf
      by (cbn [length]; lia).
    destruct (holds_tokens_consume _ _ _ Hf) as [Hok Hh]. destruct (try_consume (frames g) now) as [b ok].
    cbn in Hok, Hh. subst ok. injection Ef as <- <-. split_and!; [done| |done]. by intros []. }
  assert (forall k', media_budget k' = true -> holds_tokens (bucket_of k' g1) now (count_of k' (m :: ms)))
    as Hk1 by (intros k' Hk'; rewrite Hb; by apply Hk).
  assert (count_of k (m :: ms) = count_of k ms + 1) as Hcount.
  { unfold count_of. rewrite filter_cons, decide_True by done. cbn [length]. lia. }
  pose proof (Hk1 k Hmk) as Hhk. rewrite Hcount in Hhk.
  destruct (holds_tokens_consume _ _ _ Hhk) as [Hok Hh].
  destruct (admit_setup k g1 m now Hmk Hd Hok) as [Ha Hfr].
  destruct (admit_draws k g1 m now Hd) as [Hbk _].
  assert (forall k', k' <> k -> bucket_of k' (admit_command g1 m now).1 = bucket_of k' g1) as Hothers.
  { intros k' Hne. apply admit_other, (draws_on_other k); [done|congruence]. }
  destruct (admit_command g1 m now) as [g2 a]. cbn [fst snd] in *. subst a.
  apply IH; [|by rewrite Hfr|done].
  intros k' Hk'. destruct (decide (k' = k)) as [->|Hne]; [by rewrite Hbk|].
  rewrite Hothers by done. pose proof (Hk1 k' Hk') as Hhk'. unfold count_of in Hhk' |- *.
  rewrite filter_cons, decide_False in Hhk'; [done|].
  rewrite (draws_on_other k k' m Hd) by congruence. done.
Qed.

(** ** Properties *)

(** C34: a fresh connection admits a whole media setup at one instant.
    With a limit of [l] consumers (and budgets that do not saturate), any
    [8] producer changes, [6] transport changes and [3 l] consumer changes,
    in any order, pass both the frame budget and their own. *)
Theorem media_setup_is_admitted l ms now :
  forallb setup_command ms = true ->
  TOKEN_US * (3 * l + 16) <= U64_MAX ->
  count_of MediaBudget ms <= 8 -> count_of TransportBudget ms <= 6 -> count_of ConsumerBudget ms <= 3 * l ->
  burst (gates_new now l) ms now = true.
Proof.
  intros Hms Hl Hmedia Htransport Hconsumer.
  assert (consumer_mutation_capacity l = TOKEN_US * (3 * l)) as Hcap.
  { unfold consumer_mutation_capacity, u64_saturating_mul, TOKEN_US, U64_MAX in *. lia. }
  assert (N.of_nat (length ms) <= 3 * l + 14) as Hlen.
  { assert (N.of_nat (length ms) = count_of MediaBudget ms + count_of TransportBudget ms
                                   + count_of ConsumerBudget ms); [|lia].
    clear -Hms. unfold count_of. induction ms as [|m ms IH]; [done|]. cbn [forallb] in Hms.
    apply andb_true_iff in Hms as [Hm Hms]. specialize (IH Hms). rewrite !filter_cons.
    destruct m; try discriminate Hm; repeat case_decide; try (exfalso; cbn in *; congruence);
      cbn [length]; lia. }
  apply burst_admitted; [|unfold holds_tokens, gates_new, frame_capacity; cbn; rewrite Hcap|done].
  - intros k Hk. destruct k; try discriminate Hk; unfold holds_tokens; cbn; rewrite ?Hcap;
      unfold MAX_MEDIA_MUTATION_TOKENS_US, MAX_TRANSPORT_MUTATION_TOKENS_US, TOKEN_US, U64_MAX in *;
      (split; [done|]); lia.
  - unfold u64_saturating_add, MAX_MEDIA_MUTATION_TOKENS_US, MAX_TRANSPORT_MUTATION_TOKENS_US,
      MAX_TOKENS_US, RATE_LIMIT_MAX_TOKENS, TOKEN_US, U64_MAX in *. split; [done|]. lia.
Qed.

Lemma media_setup_is_admitted_witness :
  let ms := repeat (ClientMessage.Produce 1 Video 2 None) 8 ++ repeat ClientMessage.CreateRecvTransport 6
            ++ repeat (ClientMessage.Consume 3 4) 12 in
  burst (gates_new 5 4) ms 5 = true.
Proof.
  intros ms. apply (media_setup_is_admitted 4 ms 5); vm_compute; (reflexivity || discriminate).
Defined.

(** Over any run of frames, commands and password challenges, the
    commands let through that draw on one budget (chat, administration, or
    the media session's three) number at most the budget's capacity plus its
    refill over the run. *)
Theorem gates_bound_each_budget k g es t_end :
  bucket_ok (bucket_of k g) ->
  events_from (last_refill (bucket_of k g)) es ->
  Forall (fun e => is_some_and (event_time e) (fun now => t_end <? now) = false) es ->
  last_refill (bucket_of k g) <= t_end ->
  TOKEN_US * drawn k (gate_run g es).2
  <= capacity_us (bucket_of k g)
     + refill_rate (bucket_of k g) * as_micros (duration_since t_end (last_refill (bucket_of k g))).
Proof.
  intros Hok Hfrom Hend Hle. destruct (gate_run_charges k g es) as [_ Hd].
  destruct (charge_times_from k es _ t_end Hfrom Hend) as [Hn Hlast].
  pose proof (consume_run_bound _ _ Hn) as Hb.
  apply (N.mul_le_mono_l _ _ TOKEN_US) in Hd. etrans; [exact Hd|].
  assert (as_micros (duration_since (List.last (omap (charge_time k) es) (last_refill (bucket_of k g)))
                       (last_refill (bucket_of k g)))
          <= as_micros (duration_since t_end (last_refill (bucket_of k g)))) as Hm.
  { unfold as_micros, duration_since. apply N.Div0.div_le_mono. specialize (Hlast Hle). lia. }
  apply (N.mul_le_mono_l _ _ (refill_rate (bucket_of k g))) in Hm. unfold bucket_ok in Hok. lia.
Qed.

Lemma gates_bound_each_budget_witness :
  let say := ClientMessage.ChatMessage (text_of "hi") [] None None None in
  let es := EvChallenge "lounge" :: repeat (EvCommand say (from_millis 100)) 9 in
  drawn ChatBudget (gate_run (gates_new 0 16) es).2 = 5
  /\ TOKEN_US * drawn ChatBudget (gate_run (gates_new 0 16) es).2
     <= MAX_CHAT_TOKENS_US + 2 * as_micros (from_millis 100).
Proof.
  intros say es. split; [vm_compute; reflexivity|].
  apply (gates_bound_each_budget ChatBudget (gates_new 0 16) es (from_millis 100)).
  - apply bucket_full_ok.
  - vm_compute. repeat split; discriminate.
  - repeat constructor.
  - vm_compute. discriminate.
Defined.

(** Over any run, the voice requests let through are at least
    five seconds apart, and the settings changes that set a password (each an
    expensive hash) at least thirty seconds, counted from the last one
    before the run. *)
Theorem gates_keep_cooldowns c g es :
  apart (cooldown_of c) (last_of c g) (cooled_times c (gate_run g es).2).
Proof.
  revert g. induction es as [|e es IH]; intros g; [done|]. cbn [gate_run].
  destruct e as [now|m now|room_id]; cbn [gate_step].
  - specialize (IH (admit_frame g now).1).
    assert (last_of c (admit_frame g now).1 = last_of c g) as <-; [|by destruct (gate_run _ es)].
    unfold admit_frame. destruct (try_consume _ _) as [b []]; by destruct c.
  - destruct (cools c m) eqn:Hc.
    + pose proof (admit_cools c g m now Hc) as Hadm. destruct (admit_command g m now) as [g1 a].
      specialize (IH g1). destruct (gate_run g1 es) as [g2 outs]. cbn [fst snd] in *.
      destruct Hadm as [(-> & Hw & Hl)|(Ha & Hl)]; rewrite Hl in IH.
      * unfold cooled_times. rewrite filter_cons, decide_True by done. by split.
      * by destruct a.
    + pose proof (through_preserves (last_of c) _ g (gates_last_of c m now Hc)) as Hl.
      change (through _ g) with (admit_command g m now) in Hl. destruct (admit_command g m now) as [g1 a].
      specialize (IH g1). destruct (gate_run g1 es) as [g2 outs]. cbn [fst snd] in *. rewrite Hl in IH.
      destruct a; try done. unfold cooled_times. rewrite filter_cons, decide_False; [done|].
      cbn. congruence.
  - specialize (IH (note_password_challenge g room_id)).
    assert (last_of c (note_password_challenge g room_id) = last_of c g) as <-; [by destruct c|].
    by destruct (gate_run _ es).
Qed.
Close Scope N_scope.
