(* ===== verification/Moderation.v ===== *)
(** * Sanctions ([src/src/room/moderation.rs] and the sanction helpers of
      [src/src/room/mod.rs])

    What a mute and a camera ban restrict, whom they bind, and how the
    restrictions of one identity combine. *)

From S2P Require Import Prelude Refusal Net Roles Protocol.

Record punitive_state := PunitiveState { cam_banned : bool; text_muted : bool }.
#[export] Instance punitive_state_eq_dec : EqDecision punitive_state.
Proof. solve_decision. Defined.
Definition no_sanction : punitive_state := PunitiveState false false.

Inductive punitive_kind := CamBanned | Muted.
#[export] Instance punitive_kind_eq_dec : EqDecision punitive_kind.
Proof. solve_decision. Defined.

Definition punitive_value (p : punitive_state) (kind : punitive_kind) : bool :=
  match kind with CamBanned => cam_banned p | Muted => text_muted p end.

Definition set_punitive (p : punitive_state) (kind : punitive_kind) (enabled : bool)
  : punitive_state :=
  match kind with
  | CamBanned => PunitiveState enabled (text_muted p)
  | Muted => PunitiveState (cam_banned p) enabled
  end.

Definition merge_punitive_state (resolved : punitive_state) (in_memory : option punitive_state)
  : punitive_state :=
  match in_memory with
  | Some m => PunitiveState (cam_banned resolved || cam_banned m) (text_muted resolved || text_muted m)
  | None => resolved
  end.

Definition punitive_notification (kind : punitive_kind) (enabled : bool) (id : participant_id)
  : server_message :=
  match kind, enabled with
  | CamBanned, true => ServerMessage.CamBanned id
  | CamBanned, false => ServerMessage.CamUnbanned id
  | Muted, true => ServerMessage.TextMuted id
  | Muted, false => ServerMessage.TextUnmuted id
  end.

(** ** Identities *)

(** A sanction's key outlives a connection: the account, or the guest's
    address cohort; without an address only the connection. *)
Inductive sanction_key :=
| KeyUser (user : participant_id)
| KeyGuestIp (ip : ip_addr)
| KeyConnection (id : participant_id).
#[export] Instance sanction_key_eq_dec : EqDecision sanction_key.
Proof. solve_decision. Defined.
#[export] Instance sanction_key_countable : Countable sanction_key.
Proof.
  refine (inj_countable'
    (fun k => match k with KeyUser u => inl (inl u) | KeyGuestIp ip => inl (inr ip) | KeyConnection c => inr c end)
    (fun s => match s with inl (inl u) => KeyUser u | inl (inr ip) => KeyGuestIp ip | inr c => KeyConnection c end) _).
  by intros [].
Defined.

(** [SanctionKey::for_identity]. *)
Definition for_identity (id : participant_id) (authenticated : bool) (ip : option ip_addr)
  : sanction_key :=
  if authenticated then KeyUser id
  else match ip with Some ip => KeyGuestIp (cohort ip) | None => KeyConnection id end.

(** Whom a saved sanction binds. *)
Inductive sanction_identity :=
| SanctionUser (id : participant_id) (ip : option ip_addr)
| SanctionGuest (ip : ip_addr).

Definition sanction_identity_of (id : participant_id) (authenticated : bool) (ip : option ip_addr)
  : result room_error sanction_identity :=
  if authenticated then Ok (SanctionUser id ip)
  else match ip with
       | Some ip => Ok (SanctionGuest (cohort ip))
       | None => Err (Refused (Invalid "The participant cannot be identified for a saved sanction"))
       end.

(** ** Permissions *)

Definition MAX_REASON_LEN : N := 256.

Definition valid_reason (value : text) : bool :=
  (text_len value <=? MAX_REASON_LEN)%N && negb (existsb is_control value).

Definition can_produce (state : punitive_state) (r : role) (moderated : bool) (kind : media_kind)
  : bool :=
  if cam_banned state && bool_decide (kind = Video) then false
  else if moderated && negb (can_broadcast r true) then false
  else true.

Definition can_chat (state : punitive_state) (r : role) (moderated : bool) : bool :=
  if text_muted state then false else can_chat_role r moderated.

(** [select_join_role]: a persisted room resolves every role; in an ad-hoc
    room the first to come owns it. *)
Definition select_join_role (persisted is_first : bool) (resolved : option role)
  (authenticated : bool) : option role :=
  if persisted then resolved
  else if is_first then Some Owner
  else if authenticated then Some User
  else Some Guest.

(** ** Restrictions order *)

(** [p] restricts no more than [q]. *)
Definition punitive_le (p q : punitive_state) : Prop :=
  (cam_banned p = true -> cam_banned q = true) /\ (text_muted p = true -> text_muted q = true).

#[export] Instance punitive_le_preorder : PreOrder punitive_le.
Proof. split; unfold Reflexive, Transitive, punitive_le; intuition. Qed.

Lemma merge_le_l p o : punitive_le p (merge_punitive_state p o).
Proof. destruct o; unfold punitive_le; cbn; rewrite ?orb_true_iff; intuition. Qed.

Lemma merge_le_r p q : punitive_le q (merge_punitive_state p (Some q)).
Proof. unfold punitive_le; cbn; rewrite ?orb_true_iff; intuition. Qed.

Lemma merge_lub p o r :
  punitive_le p r -> (forall q, o = Some q -> punitive_le q r) -> punitive_le (merge_punitive_state p o) r.
Proof.
  intros [H1 H2] Ho. destruct o as [q|]; [|done]. destruct (Ho q eq_refl) as [H3 H4].
  unfold punitive_le; cbn; rewrite !orb_true_iff. intuition.
Qed.

Lemma no_sanction_le p : punitive_le no_sanction p.
Proof. by split. Qed.

#[export] Hint Resolve merge_le_l merge_le_r no_sanction_le : chat.

(** Restricting further never lets anyone produce or chat who could not. *)
Lemma can_produce_mono p q r moderated kind :
  punitive_le p q -> can_produce q r moderated kind = true -> can_produce p r moderated kind = true.
Proof.
  intros [H1 _]. unfold can_produce. destruct (cam_banned p) eqn:Ep; [by rewrite H1|].
  cbn. by repeat case_match.
Qed.

Lemma can_chat_mono p q r moderated :
  punitive_le p q -> can_chat q r moderated = true -> can_chat p r moderated = true.
Proof. intros [_ H2]. unfold can_chat. destruct (text_muted p) eqn:Ep; [by rewrite H2|]. by case_match. Qed.
