(* ===== verification/Wire.v ===== *)
(** * Outbound queues ([src/src/signaling/outbound.rs], [try_send_essential]
      and [broadcast_departure] of [src/src/room/mod.rs])

    Every connection reads a bounded queue.  A [Sender] is the identity of its
    channel; the store of channels, the resynchronisation registry and the
    metrics form the [wire] that room code writes to.  A message stands for its
    JSON text, which serialization produces without failing. *)

From S2P Require Import Prelude Protocol.

Abbreviation sender := N (only parsing).

Record channel := Channel { queue : list server_message; chan_capacity : nat; closed : bool }.

(** A registration: the channel it watches and its resync bit. *)
Record registration := Registration { watched : sender; resync : bool }.

Record wire := Wire {
  channels : gmap sender channel;
  (** The [BTreeMap] of registrations, in key order. *)
  registrations : list (N * registration);
  next_registration : N;
  (** [outbound_queue_full] and [outbound_queue_closed] of the metrics. *)
  queue_full : N;
  queue_closed : N
}.
#[export] Instance eta_wire : Eta wire := fun w =>
  Wire (channels w) (registrations w) (next_registration w) (queue_full w) (queue_closed w).

(** [Sender::is_closed]: the receiver is gone. *)
Definition is_closed (w : wire) (s : sender) : bool :=
  match channels w !! s with Some ch => closed ch | None => true end.

Inductive try_send_error := Full | Closed.

(** [mpsc::Sender::try_send]. *)
Definition try_send (w : wire) (s : sender) (m : server_message) : wire * result try_send_error unit :=
  match channels w !! s with
  | None => (w, Err Closed)
  | Some ch =>
      if closed ch then (w, Err Closed)
      else if (chan_capacity ch <=? length (queue ch))%nat then (w, Err Full)
      else (w <| channels := <[s := Channel (queue ch ++ [m]) (chan_capacity ch) false]> (channels w) |>,
            Ok tt)
  end.

(** ** The registry *)

Definition register (w : wire) (s : sender) : wire * N :=
  let id := next_registration w in
  (w <| registrations := registrations w ++ [(id, Registration s false)] |>
     <| next_registration := u64_wrapping_add id 1 |>, id).

(** [Drop for Registration]. *)
Definition unregister (w : wire) (id : N) : wire :=
  w <| registrations := filter (fun e => e.1 <> id) (registrations w) |>.

Fixpoint mark_first (s : sender) (es : list (N * registration)) : list (N * registration) :=
  match es with
  | [] => []
  | (id, r) :: es =>
      if (watched r =? s)%N then (id, Registration (watched r) true) :: es
      else (id, r) :: mark_first s es
  end.

Definition request_resync (w : wire) (s : sender) : wire :=
  w <| registrations := mark_first s (registrations w) |>.

(** ** Essential messages *)

Definition try_send_essential (w : wire) (s : sender) (m : server_message)
  : wire * result try_send_error unit :=
  let '(w, r) := try_send w s m in
  match r with
  | Ok _ => (w, r)
  | Err Full => (request_resync (w <| queue_full := u64_wrapping_add (queue_full w) 1 |>) s, r)
  | Err Closed => (w <| queue_closed := u64_wrapping_add (queue_closed w) 1 |>, r)
  end.

(** Send to each sender in turn, ignoring the outcomes. *)
Definition send_each (ss : list sender) (m : server_message) (w : wire) : wire :=
  foldl (fun w s => (try_send_essential w s m).1) w ss.

Definition broadcast_departure (ss : list sender) (m : server_message) (w : wire) : wire :=
  send_each (filter (fun s => is_closed w s = false) ss) m w.

(** Speaker and level observations are lossy: their refusal counts for nothing. *)
Definition is_observation (m : server_message) : bool :=
  match m with ServerMessage.ActiveSpeaker _ | ServerMessage.AudioLevels _ => true | _ => false end.

Definition try_send_broadcast (s : sender) (m : server_message) (w : wire) : wire :=
  if is_observation m then (try_send w s m).1 else (try_send_essential w s m).1.

(** ** What a send does *)

(** What [s] has queued; a channel that is not there has nothing. *)
Definition queued_for (w : wire) (s : sender) : list server_message :=
  match channels w !! s with Some ch => queue ch | None => [] end.

(** Whether some registration of [s] has its resync bit set. *)
Definition resync_requested (w : wire) (s : sender) : Prop :=
  exists e, e ∈ registrations w /\ watched e.2 = s /\ resync e.2 = true.

Definition registered (w : wire) (s : sender) : Prop :=
  exists e, e ∈ registrations w /\ watched e.2 = s.

(** Queues keep their bound. *)
Definition wire_ok (w : wire) : Prop :=
  map_Forall (fun _ ch => (length (queue ch) <= chan_capacity ch)%nat) (channels w).

Lemma try_send_frame w s m s' :
  s' <> s -> channels (try_send w s m).1 !! s' = channels w !! s'.
Proof.
  intros Hne. unfold try_send. destruct (channels w !! s) as [ch|]; [|done].
  destruct (closed ch); [done|]. destruct (_ <=? _)%nat; [done|]. cbn. by rewrite lookup_insert_ne.
Qed.

Lemma try_send_ok w s m : wire_ok w -> wire_ok (try_send w s m).1.
Proof.
  intros Hw. unfold try_send. destruct (channels w !! s) as [ch|] eqn:Ec; [|done].
  destruct (closed ch); [done|].
  destruct (Nat.leb_spec (chan_capacity ch) (length (queue ch))) as [|Hlt]; [done|].
  apply map_Forall_insert_2; [|done]. cbn. rewrite length_app. cbn. lia.
Qed.

Lemma try_send_closed w s m s' : is_closed (try_send w s m).1 s' = is_closed w s'.
Proof.
  unfold try_send, is_closed. destruct (channels w !! s) as [ch|] eqn:Ec; [|done].
  destruct (closed ch) eqn:Ecl; [done|]. destruct (_ <=? _)%nat; [done|]. cbn.
  destruct (decide (s = s')) as [->|]; [by rewrite lookup_insert_eq, Ec|by rewrite lookup_insert_ne].
Qed.

Lemma essential_channels w s m :
  channels (try_send_essential w s m).1 = channels (try_send w s m).1.
Proof. unfold try_send_essential. by destruct (try_send w s m) as [w' [|[]]]. Qed.

Lemma essential_closed w s m s' : is_closed (try_send_essential w s m).1 s' = is_closed w s'.
Proof. unfold is_closed. rewrite essential_channels. apply (try_send_closed w s m s'). Qed.

Lemma essential_ok w s m : wire_ok w -> wire_ok (try_send_essential w s m).1.
Proof. unfold wire_ok. rewrite essential_channels. apply try_send_ok. Qed.

Lemma send_each_closed ss m w s : is_closed (send_each ss m w) s = is_closed w s.
Proof.
  revert w. induction ss as [|x ss IH]; intros w; [done|]. unfold send_each in *. cbn.
  by rewrite IH, essential_closed.
Qed.

Lemma send_each_ok ss m w : wire_ok w -> wire_ok (send_each ss m w).
Proof.
  revert w. induction ss as [|x ss IH]; intros w Hw; [done|]. unfold send_each in *. cbn.
  by apply IH, essential_ok.
Qed.

#[export] Hint Rewrite essential_closed send_each_closed : chat.
#[export] Hint Resolve essential_ok send_each_ok : chat.

Lemma mark_first_marks s es :
  (exists e, e ∈ es /\ watched e.2 = s) ->
  exists e, e ∈ mark_first s es /\ watched e.2 = s /\ resync e.2 = true.
Proof.
  induction es as [|[id r] es IH]; intros (e & He & Hw); [by apply not_elem_of_nil in He|]. cbn.
  destruct (N.eqb_spec (watched r) s) as [Heq|Hne].
  - exists (id, Registration (watched r) true). split; [by left|done].
  - apply elem_of_cons in He as [->|He]; [done|].
    destruct IH as (e' & He' & Hr); [by exists e|]. exists e'. split; [by right|done].
Qed.

(** Marking keeps every watched channel, and every bit already set. *)
Lemma mark_first_keeps s es e :
  e ∈ es -> exists e', e' ∈ mark_first s es /\ watched e'.2 = watched e.2
                       /\ (resync e.2 = true -> resync e'.2 = true).
Proof.
  induction es as [|[id r] es IH]; intros He; [by apply not_elem_of_nil in He|]. cbn.
  apply elem_of_cons in He as [->|He].
  - destruct (watched r =? s)%N; eexists; (split; [by left|done]).
  - destruct (watched r =? s)%N; [exists e; split; [by right|done]|].
    destruct (IH He) as (e' & He' & Hr). exists e'. split; [by right|done].
Qed.

Lemma essential_registrations w s m :
  registrations (try_send_essential w s m).1 = registrations w
  \/ registrations (try_send_essential w s m).1 = mark_first s (registrations w).
Proof.
  unfold try_send_essential, try_send.
  destruct (channels w !! s) as [ch|]; [|by left]. destruct (closed ch); [by left|].
  destruct (_ <=? _)%nat; [by right|by left].
Qed.

Lemma essential_registered w s m s' :
  registered w s' -> registered (try_send_essential w s m).1 s'.
Proof.
  intros (e & He & Hw). unfold registered.
  destruct (essential_registrations w s m) as [-> | ->]; [by exists e|].
  destruct (mark_first_keeps s _ e He) as (e' & He' & Hw' & _). exists e'. by rewrite Hw'.
Qed.

Lemma essential_resync w s m s' :
  resync_requested w s' -> resync_requested (try_send_essential w s m).1 s'.
Proof.
  intros (e & He & Hw & Hr). unfold resync_requested.
  destruct (essential_registrations w s m) as [-> | ->]; [by exists e|].
  destruct (mark_first_keeps s _ e He) as (e' & He' & Hw' & Hr'). exists e'. rewrite Hw'. auto.
Qed.

(** An essential message to an open registered connection is queued, or the
    connection is told to resynchronise. *)
Lemma essential_delivers w s m :
  is_closed w s = false -> registered w s ->
  m ∈ queued_for (try_send_essential w s m).1 s \/ resync_requested (try_send_essential w s m).1 s.
Proof.
  intros Ho Hr. unfold is_closed in Ho. unfold queued_for. rewrite essential_channels.
  unfold try_send_essential, try_send. destruct (channels w !! s) as [ch|] eqn:Ec; [|done].
  rewrite Ho. destruct (_ <=? _)%nat.
  - right. cbn. by apply mark_first_marks.
  - left. cbn. rewrite lookup_insert_eq. cbn. apply elem_of_app. right. by apply list_elem_of_singleton.
Qed.

(** Queues only grow while nobody reads. *)
Lemma essential_keeps w s m s' x :
  x ∈ queued_for w s' -> x ∈ queued_for (try_send_essential w s m).1 s'.
Proof.
  unfold queued_for. rewrite essential_channels. unfold try_send.
  destruct (channels w !! s) as [ch|] eqn:Ec; [|done].
  destruct (closed ch); [done|]. destruct (_ <=? _)%nat; [done|]. cbn.
  destruct (decide (s = s')) as [->|]; [|by rewrite lookup_insert_ne].
  rewrite lookup_insert_eq, Ec. cbn. intros Hx. apply elem_of_app. by left.
Qed.

Lemma essential_other w s m s' :
  s' <> s -> queued_for (try_send_essential w s m).1 s' = queued_for w s'.
Proof. intros Hne. unfold queued_for. by rewrite essential_channels, try_send_frame. Qed.

Lemma send_each_keeps ss m w s x :
  (x ∈ queued_for w s -> x ∈ queued_for (send_each ss m w) s)
  /\ (registered w s -> registered (send_each ss m w) s)
  /\ (resync_requested w s -> resync_requested (send_each ss m w) s).
Proof.
  revert w. induction ss as [|y ss IH]; intros w; [done|]. unfold send_each in *. cbn.
  destruct (IH (try_send_essential w y m).1) as (I1 & I2 & I3).
  split_and!; intros; [apply I1, essential_keeps|apply I2, essential_registered|apply I3, essential_resync];
    done.
Qed.

Lemma send_each_delivers ss m w s :
  s ∈ ss -> is_closed w s = false -> registered w s ->
  m ∈ queued_for (send_each ss m w) s \/ resync_requested (send_each ss m w) s.
Proof.
  revert w. induction ss as [|y ss IH]; intros w Hs Ho Hr; [by apply not_elem_of_nil in Hs|].
  unfold send_each in *. cbn. apply elem_of_cons in Hs as [->|Hs].
  - destruct (send_each_keeps ss m (try_send_essential w y m).1 y m) as (K1 & _ & K3).
    destruct (essential_delivers w y m Ho Hr); [left; by apply K1|right; by apply K3].
  - apply IH; [done| |by apply essential_registered]. by rewrite essential_closed.
Qed.

Lemma send_each_other ss m w s : s ∉ ss -> queued_for (send_each ss m w) s = queued_for w s.
Proof.
  revert w. induction ss as [|y ss IH]; intros w Hs; [done|]. unfold send_each in *. cbn.
  apply not_elem_of_cons in Hs as [Hne Hs]. rewrite IH by done. by apply essential_other.
Qed.

(** ** Properties *)

(** A fan-out of an essential message never loses it silently.  Every
    recipient whose connection is open and registered ends with the message
    queued, or with its resynchronisation requested (the bit that retires the
    socket and sends it for a fresh snapshot); queues stay within their bounds
    and connections that are not recipients see nothing. *)
Theorem fan_out_delivers_or_resyncs ss m w :
  wire_ok w ->
  let w' := send_each ss m w in
  wire_ok w'
  /\ (forall s, s ∈ ss -> is_closed w s = false -> registered w s ->
        m ∈ queued_for w' s \/ resync_requested w' s)
  /\ (forall s, s ∉ ss -> queued_for w' s = queued_for w s).
Proof.
  intros Hok w'. split_and!; [by apply send_each_ok|intros; by apply send_each_delivers|intros; by apply send_each_other].
Qed.

(** Two connections with queues of one: the first already holds a message. *)
Definition sample_wire : wire :=
  Wire {[ 1%N := Channel [ServerMessage.LobbyAdmitted] 1 false; 2%N := Channel [] 1 false ]}
       [(1%N, Registration 1 false); (2%N, Registration 2 false)] 3 0 0.

Lemma fan_out_delivers_or_resyncs_witness :
  let m := ServerMessage.ParticipantLeft 9 in
  m ∈ queued_for (send_each [1%N; 2%N] m sample_wire) 2%N
  /\ resync_requested (send_each [1%N; 2%N] m sample_wire) 1%N
  /\ wire_ok (send_each [1%N; 2%N] m sample_wire).
Proof.
  intros m.
  assert (wire_ok sample_wire) as Hok.
  { unfold wire_ok, sample_wire. cbn. apply map_Forall_insert_2; [cbn; lia|].
    apply map_Forall_singleton. cbn. lia. }
  destruct (fan_out_delivers_or_resyncs [1%N; 2%N] m sample_wire Hok) as (H1 & H2 & _).
  split_and!; [| |exact H1].
  - destruct (H2 2%N) as [H|(e & He & Hw & Hr)]; [by right; left|reflexivity| |exact H|].
    + exists (2%N, Registration 2 false). split; [by right; left|done].
    + exfalso. change (e ∈ [(1%N, Registration 1 true); (2%N, Registration 2 false)]) in He.
      rewrite !elem_of_cons in He.
      destruct He as [-> |[-> |He]]; [done|done|by apply not_elem_of_nil in He].
  - exists (1%N, Registration 1 true). split; [by left|done].
Defined.
