(* ===== verification/Social.v ===== *)
(** * Chat state of a room ([src/src/room/social.rs])

    The bounded replay history, the delivery receipts, the pins, the runtime
    bans, reports and moderation history that a live room keeps, and the rules
    of who sees, quotes, edits and reacts to what.

    The JSON length of a message ([serde_json::to_vec]) is a parameter of the
    operations that count bytes. *)

From stdpp Require Import pretty.
From S2P Require Import Prelude Refusal Net Roles Settings Protocol.

Definition HISTORY_MESSAGES : nat := 300.
Definition MESSAGE_REACTIONS : nat := 64.
Definition REPLY_EXCERPT_CHARS : nat := 140.
Definition HISTORY_BYTES : N := 256 * 1024.
Definition MAX_RUNTIME_BANS : nat := N.to_nat 2000.
Definition MAX_RUNTIME_MODERATION_EVENTS : nat := 200.
Definition CHAT_RECEIPT_TTL : duration := from_secs 300.
Definition CHAT_RECEIPTS : nat := 512.
Definition CHAT_RECEIPT_BYTES : N := 512 * 1024.
Definition CHAT_RECEIPTS_PER_MEMBER : nat := 128.
Definition MAX_REPORTS : nat := 500.
Definition REPORT_COOLDOWN : duration := from_secs 30.
Definition TYPING_INTERVAL : duration := from_secs 2.

(** ** A member's chat state *)

Module ParticipantSocial.
Record participant_social := mk {
  connected : bool;
  chat_session_id : N;
  chat_high_water : N;
  joined_sequence : N;
  allow_private_messages : bool;
  ignored : gset participant_id;
  guest_ignored : gset participant_id;
  last_typing : option instant
}.
#[export] Instance eta_participant_social : Eta participant_social := fun p =>
  mk (connected p) (chat_session_id p) (chat_high_water p) (joined_sequence p)
     (allow_private_messages p) (ignored p) (guest_ignored p) (last_typing p).
End ParticipantSocial.
Export (hints) ParticipantSocial.
Abbreviation participant_social := ParticipantSocial.participant_social.
#[export] Instance participant_social_eq_dec : EqDecision participant_social.
Proof. solve_decision. Defined.

(** [ParticipantSocial::new], with the fresh session identifier. *)
Definition social_new (session : N) (joined_sequence : N) : participant_social :=
  ParticipantSocial.mk true session 0 joined_sequence true ∅ ∅ None.

(** [ChatPreferences] of an account; an ignored entry whose identifier does
    not parse is [None]. *)
Record chat_preferences := ChatPreferences {
  pref_allow_private_messages : bool; pref_ignored : list (option participant_id) }.

Definition apply_account_preferences (p : participant_social) (prefs : chat_preferences)
  : participant_social :=
  p <| ParticipantSocial.allow_private_messages := pref_allow_private_messages prefs |>
    <| ParticipantSocial.ignored :=
         list_to_set (omap id (pref_ignored prefs)) ∪ ParticipantSocial.guest_ignored p |>.

Definition accepts_inbox_from (p : participant_social) (from : participant_id) : bool :=
  ParticipantSocial.connected p && ParticipantSocial.allow_private_messages p
  && bool_decide (from ∉ ParticipantSocial.ignored p).

(** ** The room's chat state *)

Module HistoryEntry.
Record history_entry := mk {
  sequence : N;
  sender_session : N;
  recipient_session : option N;
  sender_authenticated : bool;
  message : chat_entry;
  bytes : N
}.
#[export] Instance eta_history_entry : Eta history_entry := fun e =>
  mk (sequence e) (sender_session e) (recipient_session e) (sender_authenticated e) (message e)
     (bytes e).
End HistoryEntry.
Export (hints) HistoryEntry.
Abbreviation history_entry := HistoryEntry.history_entry.

Module ChatReceipt.
Record chat_receipt := mk {
  sender_session : N;
  sequence : option N;
  accepted_at : instant;
  bytes : N;
  message : chat_entry
}.
#[export] Instance eta_chat_receipt : Eta chat_receipt := fun r =>
  mk (sender_session r) (sequence r) (accepted_at r) (bytes r) (message r).
End ChatReceipt.
Export (hints) ChatReceipt.
Abbreviation chat_receipt := ChatReceipt.chat_receipt.

Record runtime_ban := RuntimeBan {
  runtime_entry : ban_entry;
  ban_participant_ids : list participant_id;
  ban_guest_ip : option ip_addr;
  ban_expiry : option instant
}.

(** [reporter_key]: the durable identity behind a report.  The key's prefix and
    the identifier after it, as data. *)
Inductive reporter := ReporterUser (id : participant_id) | ReporterIp (ip : ip_addr) | ReporterSession (id : participant_id).
#[export] Instance reporter_eq_dec : EqDecision reporter.
Proof. solve_decision. Defined.
#[export] Program Instance reporter_countable : Countable reporter := inj_countable
  (fun k => match k with ReporterUser id => inl (inl id) | ReporterIp ip => inl (inr ip) | ReporterSession id => inr id end)
  (fun k => Some match k with inl (inl id) => ReporterUser id | inl (inr ip) => ReporterIp ip | inr id => ReporterSession id end) _.
Next Obligation. by intros []. Qed.

Module RoomSocial.
Record room_social := mk {
  next_sequence : N;
  report_cooldowns : gmap reporter instant;
  history : list history_entry;
  history_bytes : N;
  pins : list chat_entry;
  receipts : list chat_receipt;
  receipt_bytes : N;
  bans : gmap N runtime_ban;
  reports : list report_entry;
  moderation_events : list moderation_event
}.
#[export] Instance eta_room_social : Eta room_social := fun s =>
  mk (next_sequence s) (report_cooldowns s) (history s) (history_bytes s) (pins s) (receipts s)
     (receipt_bytes s) (bans s) (reports s) (moderation_events s).
End RoomSocial.
Export (hints) RoomSocial.
Abbreviation room_social := RoomSocial.room_social.

Definition social_default : room_social := RoomSocial.mk 0 ∅ [] 0 [] [] 0 ∅ [] [].

(** ** Replay history *)

(** The loop of [trim_history]: drop the oldest while over either bound. *)
Fixpoint trim_loop (history : list history_entry) (bytes : N) : list history_entry * N :=
  match history with
  | [] => ([], bytes)
  | old :: rest =>
      if (HISTORY_MESSAGES <? length history)%nat || (HISTORY_BYTES <? bytes)%N
      then trim_loop rest (saturating_sub bytes (HistoryEntry.bytes old))
      else (history, bytes)
  end.

Definition trim_history (s : room_social) : room_social :=
  let '(history, bytes) := trim_loop (RoomSocial.history s) (RoomSocial.history_bytes s) in
  s <| RoomSocial.history := history |> <| RoomSocial.history_bytes := bytes |>.

Section bytes.
(** The serialized length of a message; [None] when serialization fails. *)
Context (entry_bytes : chat_entry -> option N).

Definition history_size (m : chat_entry) : N := default HISTORY_BYTES (entry_bytes m).
Definition receipt_size (m : chat_entry) : N := default CHAT_RECEIPT_BYTES (entry_bytes m).

Definition remember (s : room_social) (sender_session : N) (recipient_session : option N)
  (sender_authenticated : bool) (message : chat_entry) : room_social :=
  let bytes := history_size message in
  let s := s <| RoomSocial.history_bytes ::= N.add bytes |> in
  let entry := HistoryEntry.mk (RoomSocial.next_sequence s) sender_session recipient_session
                 sender_authenticated message bytes in
  let s := s <| RoomSocial.history := RoomSocial.history s ++ [entry] |> in
  let s := s <| RoomSocial.next_sequence := u64_saturating_add (RoomSocial.next_sequence s) 1 |> in
  trim_history s.

Definition recount (s : room_social) (index : nat) : room_social :=
  let s :=
    match RoomSocial.history s !! index with
    | Some entry =>
        let bytes := history_size (HistoryEntry.message entry) in
        s <| RoomSocial.history_bytes :=
               (saturating_sub (RoomSocial.history_bytes s) (HistoryEntry.bytes entry) + bytes)%N |>
          <| RoomSocial.history := <[index := entry <| HistoryEntry.bytes := bytes |>]>
                                     (RoomSocial.history s) |>
    | None => s
    end in
  trim_history s.

(** Rewrite every retained message with [f] and count the bytes again. *)
Definition rewrite_history (f : chat_entry -> chat_entry) (s : room_social) : room_social :=
  let history := (fun e => let m := f (HistoryEntry.message e) in
                           e <| HistoryEntry.message := m |> <| HistoryEntry.bytes := history_size m |>)
                 <$> RoomSocial.history s in
  s <| RoomSocial.history := history |>
    <| RoomSocial.history_bytes := foldl (fun n e => (n + HistoryEntry.bytes e)%N) 0%N history |>.

Definition rewrite_receipts (f : chat_entry -> chat_entry) (s : room_social) : room_social :=
  let receipts := (fun r => let m := f (ChatReceipt.message r) in
                            r <| ChatReceipt.message := m |> <| ChatReceipt.bytes := receipt_size m |>)
                  <$> RoomSocial.receipts s in
  s <| RoomSocial.receipts := receipts |>
    <| RoomSocial.receipt_bytes := foldl (fun n r => (n + ChatReceipt.bytes r)%N) 0%N receipts |>.
End bytes.

(** The loop that brings the receipts back under their byte budget. *)
Fixpoint trim_receipts_loop (receipts : list chat_receipt) (bytes : N) : list chat_receipt * N :=
  match receipts with
  | [] => ([], bytes)
  | old :: rest =>
      if (CHAT_RECEIPT_BYTES <? bytes)%N
      then trim_receipts_loop rest (saturating_sub bytes (ChatReceipt.bytes old))
      else (receipts, bytes)
  end.

Definition trim_receipts (s : room_social) : room_social :=
  let '(receipts, bytes) := trim_receipts_loop (RoomSocial.receipts s) (RoomSocial.receipt_bytes s) in
  s <| RoomSocial.receipts := receipts |> <| RoomSocial.receipt_bytes := bytes |>.

(** ** Quotes *)

(** [char::is_whitespace]-separated words. *)
Fixpoint split_words (t : text) (word : text) : list text :=
  match t with
  | [] => match word with [] => [] | _ => [word] end
  | c :: t =>
      if is_whitespace c
      then match word with [] => split_words t [] | _ => word :: split_words t [] end
      else split_words t (word ++ [c])
  end.
Definition split_whitespace (t : text) : list text := split_words t [].

Fixpoint join_space (ws : list text) : text :=
  match ws with
  | [] => []
  | [w] => w
  | w :: ws => w ++ 32%N :: join_space ws
  end.

Definition ELLIPSIS : char := 0x2026.

Definition quote_excerpt (content : text) : text :=
  let flat := join_space (split_whitespace content) in
  let head := take REPLY_EXCERPT_CHARS flat in
  match drop REPLY_EXCERPT_CHARS flat with
  | [] => head
  | _ => trim_end head ++ [ELLIPSIS]
  end.

(** ** Removal *)

Definition redact_message (m : chat_entry) (message_id : message_id) (removed_at : timestamp)
  : chat_entry :=
  match ChatEntry.recipient_id m with
  | Some _ => m
  | None =>
      if (ChatEntry.message_id m =? message_id)%N then
        m <| ChatEntry.content := [] |> <| ChatEntry.attachments := [] |>
          <| ChatEntry.reply_to := None |> <| ChatEntry.reactions := [] |>
          <| ChatEntry.removed_at := Some removed_at |>
      else
        match ChatEntry.reply_to m with
        | Some reply =>
            if (reply_message_id reply =? message_id)%N then
              m <| ChatEntry.reply_to :=
                     Some (ChatReplyRef (reply_message_id reply) (reply_participant_id reply)
                             (reply_participant_name reply) (text_of "Message removed")) |>
            else m
        | None => m
        end
  end.

Definition remove_message (entry_bytes : chat_entry -> option N) (s : room_social)
  (message_id : message_id) (removed_at : timestamp) : room_social :=
  let s := s <| RoomSocial.pins :=
                  filter (fun m => ChatEntry.message_id m <> message_id) (RoomSocial.pins s) |> in
  let redact := fun m => redact_message m message_id removed_at in
  let s := rewrite_history entry_bytes redact s in
  let s := rewrite_receipts entry_bytes redact s in
  trim_receipts (trim_history s).

(** ** Edits *)

Record edit_request := EditRequest { edit_content : text; expected_revision : N }.

(** [apply_edit]: the edited message, at wall-clock time [now]. *)
Definition apply_edit `{Labels.Unicode} (now : timestamp) (message : chat_entry) (request : edit_request)
  : result string chat_entry :=
  if (bool_decide (trim (edit_content request) = []) && bool_decide (ChatEntry.attachments message = []))
     || (4096 <? text_len (edit_content request))%N
  then Err "Message must contain 1–4096 bytes of text"
  else if negb (Labels.is_plain_text (edit_content request))
  then Err "Message contains hidden formatting characters"
  else if bool_decide (is_Some (ChatEntry.removed_at message))
  then Err "That message has been removed"
  else if negb (ChatEntry.revision message =? expected_revision request)%N
  then
    if (expected_revision request <? U32_MAX)%N
       && (expected_revision request + 1 =? ChatEntry.revision message)%N
       && bool_decide (ChatEntry.content message = edit_content request)
    then Ok message
    else Err "This message changed. Reload it before editing again"
  else if bool_decide (ChatEntry.content message = edit_content request) then Ok message
  else if (ChatEntry.revision message <? U32_MAX)%N
  then Ok (message <| ChatEntry.revision := (ChatEntry.revision message + 1)%N |>
                   <| ChatEntry.content := edit_content request |>
                   <| ChatEntry.edited_at := Some now |>)
  else Err "This message cannot be edited again".

(** The update [edit_message] runs over every retained copy. *)
Definition update_edited (edited : chat_entry) (excerpt : text) (m : chat_entry) : chat_entry :=
  if bool_decide (is_Some (ChatEntry.removed_at m)) then m
  else
    let m := if (ChatEntry.message_id m =? ChatEntry.message_id edited)%N
                && (ChatEntry.revision m <=? ChatEntry.revision edited)%N
             then m <| ChatEntry.content := ChatEntry.content edited |>
                    <| ChatEntry.revision := ChatEntry.revision edited |>
                    <| ChatEntry.edited_at := ChatEntry.edited_at edited |>
             else m in
    match ChatEntry.reply_to m with
    | Some reply =>
        if (reply_message_id reply =? ChatEntry.message_id edited)%N
        then m <| ChatEntry.reply_to :=
                    Some (ChatReplyRef (reply_message_id reply) (reply_participant_id reply)
                            (reply_participant_name reply) excerpt) |>
        else m
    | None => m
    end.

(** Some retained copy is removed or newer: the edit is stale. *)
Definition edit_is_stale (s : room_social) (edited : chat_entry) : bool :=
  existsb (fun m => (ChatEntry.message_id m =? ChatEntry.message_id edited)%N
                    && (bool_decide (is_Some (ChatEntry.removed_at m))
                        || (ChatEntry.revision edited <? ChatEntry.revision m)%N))
    ((HistoryEntry.message <$> RoomSocial.history s) ++ (ChatReceipt.message <$> RoomSocial.receipts s)
     ++ RoomSocial.pins s).

Definition edit_message (entry_bytes : chat_entry -> option N) (s : room_social) (edited : chat_entry)
  : room_social :=
  if edit_is_stale s edited then s
  else
    let update := update_edited edited (quote_excerpt (ChatEntry.content edited)) in
    let s := rewrite_history entry_bytes update s in
    let s := rewrite_receipts entry_bytes update s in
    let s := s <| RoomSocial.pins := update <$> RoomSocial.pins s |> in
    trim_receipts (trim_history s).

(** ** Receipts *)

Fixpoint prune_loop (now : instant) (receipts : list chat_receipt) (bytes : N)
  : list chat_receipt * N :=
  match receipts with
  | [] => ([], bytes)
  | r :: rest =>
      if (CHAT_RECEIPT_TTL <=? duration_since now (ChatReceipt.accepted_at r))%N
      then prune_loop now rest (saturating_sub bytes (ChatReceipt.bytes r))
      else (receipts, bytes)
  end.

Definition prune_receipts (s : room_social) (now : instant) : room_social :=
  let '(receipts, bytes) := prune_loop now (RoomSocial.receipts s) (RoomSocial.receipt_bytes s) in
  s <| RoomSocial.receipts := receipts |> <| RoomSocial.receipt_bytes := bytes |>.

(** The receipts of one membership. *)
Definition receipts_of (session : N) (receipts : list chat_receipt) : nat :=
  length (filter (fun r => ChatReceipt.sender_session r = session) receipts).
Arguments receipts_of : simpl never.

(** [VecDeque::remove] at the first receipt of [session]: what is left, and it. *)
Fixpoint remove_receipt (session : N) (receipts : list chat_receipt)
  : option (list chat_receipt * chat_receipt) :=
  match receipts with
  | [] => None
  | r :: rest =>
      if (ChatReceipt.sender_session r =? session)%N then Some (rest, r)
      else match remove_receipt session rest with
           | Some (rest, found) => Some (r :: rest, found)
           | None => None
           end
  end.

(** The first loop of [make_receipt_room].  Every turn removes one receipt, so
    the queue's length bounds the turns. *)
Fixpoint member_loop (fuel : nat) (session : N) (receipts : list chat_receipt) (bytes : N)
  : list chat_receipt * N :=
  match fuel with
  | O => (receipts, bytes)
  | S fuel =>
      if (CHAT_RECEIPTS_PER_MEMBER <=? receipts_of session receipts)%nat
      then match remove_receipt session receipts with
           | Some (rest, r) => member_loop fuel session rest (bytes - ChatReceipt.bytes r)
           | None => (receipts, bytes)
           end
      else (receipts, bytes)
  end.

(** The second loop: the count and the bytes of the whole room. *)
Fixpoint room_loop (needed : N) (receipts : list chat_receipt) (bytes : N) : list chat_receipt * N :=
  match receipts with
  | [] => ([], bytes)
  | r :: rest =>
      if (CHAT_RECEIPTS <=? length receipts)%nat || (saturating_sub CHAT_RECEIPT_BYTES bytes <? needed)%N
      then room_loop needed rest (bytes - ChatReceipt.bytes r)
      else (receipts, bytes)
  end.

Definition make_receipt_room (s : room_social) (session : N) (needed : N) : room_social :=
  let '(receipts, bytes) :=
    member_loop (length (RoomSocial.receipts s)) session (RoomSocial.receipts s)
      (RoomSocial.receipt_bytes s) in
  let '(receipts, bytes) := room_loop needed receipts bytes in
  s <| RoomSocial.receipts := receipts |> <| RoomSocial.receipt_bytes := bytes |>.

(** ** Reactions *)

(** The offered reactions, by code points. *)
Definition REACTIONS : list text :=
  [[0x1F44D]; [0x2764; 0xFE0F]; [0x1F602]; [0x1F62E]; [0x1F622]; [0x1F389]; [0x1F525]; [0x1F44F]]%N.

(** The first reaction with this emoji: what precedes it, it, what follows. *)
Fixpoint find_reaction (e : text) (rs : list chat_reaction)
  : option (list chat_reaction * chat_reaction * list chat_reaction) :=
  match rs with
  | [] => None
  | r :: rs =>
      if bool_decide (emoji r = e) then Some ([], r, rs)
      else match find_reaction e rs with
           | Some (before, found, after) => Some (r :: before, found, after)
           | None => None
           end
  end.

Definition reaction_total (rs : list chat_reaction) : nat :=
  sum_list_with (fun r => length (reaction_participant_ids r)) rs.

Definition toggle_reactions (current : list chat_reaction) (reactor : participant_id) (e : text)
  : result string (list chat_reaction) :=
  if negb (bool_decide (e ∈ REACTIONS)) then Err "Choose one of the offered reactions"
  else
    let add := fun (rs : list chat_reaction) =>
      if (MESSAGE_REACTIONS <=? reaction_total current)%nat
      then Err "This message has all the reactions it can hold" else Ok rs in
    match find_reaction e current with
    | Some (before, r, after) =>
        if bool_decide (reactor ∈ reaction_participant_ids r) then
          match filter (fun id => id <> reactor) (reaction_participant_ids r) with
          | [] => Ok (before ++ after)
          | ids => Ok (before ++ ChatReaction (emoji r) ids :: after)
          end
        else add (before ++ ChatReaction (emoji r) (reaction_participant_ids r ++ [reactor]) :: after)
    | None => add (current ++ [ChatReaction e [reactor]])
    end.

Definition has_reacted (rs : list chat_reaction) (reactor : participant_id) (e : text) : bool :=
  existsb (fun r => bool_decide (emoji r = e) && bool_decide (reactor ∈ reaction_participant_ids r)) rs.

Definition set_reaction (current : list chat_reaction) (reactor : participant_id) (e : text)
  (present : bool) : result string (list chat_reaction) :=
  if negb (bool_decide (e ∈ REACTIONS)) then Err "Choose one of the offered reactions"
  else if Bool.eqb (has_reacted current reactor e) present then Ok current
  else toggle_reactions current reactor e.

(** ** Bans, reports and history of moderation *)

(** [expiry.is_none_or(|expiry| expiry > now)]. *)
Definition unexpired (now : instant) (expiry : option instant) : bool :=
  match expiry with None => true | Some e => (now <? e)%N end.

(** [reserve_ban]: expired records go; the table may not be full. *)
Definition reserve_ban (now : instant) : handler failure room_social unit :=
  (hmodify (fun s => s <| RoomSocial.bans :=
     filter (fun b => unexpired now (ban_expiry b.2) = true) (RoomSocial.bans s) |>);;
   let! s := hget in
   ensure (size (RoomSocial.bans s) <? MAX_RUNTIME_BANS)%nat
     (social_forbidden "Room ban capacity reached"))%handler.

(** [record_ban], with the fresh identifier and the two clocks. *)
Definition record_ban (fresh : N) (now : instant) (wall : timestamp) (s : room_social)
  (name : text) (authenticated : bool) (participant_ids : list participant_id)
  (ip : option ip_addr) (reason : option text) (duration : option N) : room_social :=
  s <| RoomSocial.bans :=
    <[fresh := {|
        runtime_entry := {| ban_id := pretty fresh; ban_display_name := name;
                            ban_authenticated := authenticated; ban_reason := reason;
                            ban_expires_at := (fun secs => wall + secs)%N <$> duration |};
        ban_participant_ids := participant_ids;
        ban_guest_ip := if authenticated then None else cohort <$> ip;
        ban_expiry := secs ← duration; instant_checked_add now (from_secs secs)
      |}]> (RoomSocial.bans s) |>.

Definition ban_matches (user : option participant_id) (guest_ip : option ip_addr) (b : runtime_ban)
  : bool :=
  is_some_and user (fun user => bool_decide (user ∈ ban_participant_ids b))
  || is_some_and guest_ip (fun ip => bool_decide (ban_guest_ip b = Some ip)).

(** [forget_ban]: the bans that match go; the identities they held are returned. *)
Definition forget_ban (s : room_social) (user : option participant_id) (guest_ip : option ip_addr)
  : room_social * list participant_id :=
  (s <| RoomSocial.bans :=
       filter (fun b => ban_matches user guest_ip b.2 = false) (RoomSocial.bans s) |>,
   concat ((fun b => ban_participant_ids b.2)
           <$> filter (fun b => ban_matches user guest_ip b.2 = true)
                 (map_to_list (RoomSocial.bans s)))).

Definition user_ban_matches (user : participant_id) (b : runtime_ban) : bool :=
  ban_authenticated (runtime_entry b) && bool_decide (user ∈ ban_participant_ids b).

(** [forget_user_ban]: the name of the last matching record. *)
Definition forget_user_ban (s : room_social) (user : participant_id) : room_social * option text :=
  (s <| RoomSocial.bans := filter (fun b => user_ban_matches user b.2 = false) (RoomSocial.bans s) |>,
   (fun b => ban_display_name (runtime_entry b.2))
   <$> last (filter (fun b => user_ban_matches user b.2 = true) (map_to_list (RoomSocial.bans s)))).

Definition record_moderation_event (s : room_social) (event : moderation_event) : room_social :=
  let events := RoomSocial.moderation_events s in
  let events := if (MAX_RUNTIME_MODERATION_EVENTS <=? length events)%nat then tail events else events in
  s <| RoomSocial.moderation_events := events ++ [event] |>.

(** [ModerationAction::as_str]. *)
Definition action_name (a : moderation_action) : string :=
  match a with
  | ActKick => "kick" | ActBan => "ban" | ActUnban => "unban"
  | ActCamBan => "cam_ban" | ActCamUnban => "cam_unban"
  | ActTextMute => "text_mute" | ActTextUnmute => "text_unmute"
  | ActReportResolved => "report_resolved" | ActReportDismissed => "report_dismissed"
  | ActMessageRemoved => "message_removed"
  end.

(** [report_outcome]: the latest decision that names the report. *)
Definition report_outcome_for (s : room_social) (id : string) : option report_outcome :=
  '(_, e) ← list_find (fun e => event_report_id e ≫= (fun n => Some (pretty n)) = Some id) (reverse (RoomSocial.moderation_events s));
  Some (ReportOutcome (action_name (event_action e)) (event_created_at e)).

(** [link_report]: resolve the first open report with this identifier. *)
Fixpoint resolve_first (wall : timestamp) (id : string) (rs : list report_entry)
  : option (list report_entry) :=
  match rs with
  | [] => None
  | r :: rs =>
      if String.eqb (report_id r) id then
        Some (match report_status_of r with
              | ReportOpen =>
                  ReportEntry (report_id r) (reporter_id r) (reporter_name r) (report_target_id r)
                    (report_target_name r) (report_reason r) ReportResolved (report_created_at r)
                    (Some wall) (report_outcome_of r) :: rs
              | _ => r :: rs
              end)
      else (r ::.) <$> resolve_first wall id rs
  end.

Definition link_report (wall : timestamp) (id : string) : handler failure room_social unit := fun s =>
  match resolve_first wall id (RoomSocial.reports s) with
  | Some reports => (s <| RoomSocial.reports := reports |>, Ok tt)
  | None => (s, Err (social_not_found "Report not found"))
  end.

Definition report_cooldown_active (s : room_social) (key : reporter) (now : instant)
  : room_social * bool :=
  let s := s <| RoomSocial.report_cooldowns :=
                  filter (fun e => (duration_since now e.2 < REPORT_COOLDOWN)%N)
                    (RoomSocial.report_cooldowns s) |> in
  (s, is_some_and (RoomSocial.report_cooldowns s !! key)
        (fun at_ => (duration_since now at_ <? REPORT_COOLDOWN)%N)).

Definition note_report (s : room_social) (key : reporter) (now : instant) : room_social :=
  s <| RoomSocial.report_cooldowns := <[key := now]> (RoomSocial.report_cooldowns s) |>.

(** The receipt part of [finish_chat_attempt]: make room, count, queue. *)
Definition accept_receipt (s : room_social) (r : chat_receipt) : room_social :=
  let s := make_receipt_room s (ChatReceipt.sender_session r) (ChatReceipt.bytes r) in
  s <| RoomSocial.receipt_bytes ::= N.add (ChatReceipt.bytes r) |>
    <| RoomSocial.receipts := RoomSocial.receipts s ++ [r] |>.

(** ** The retention invariant

    Both byte counters are exact and every bound holds: messages and bytes of
    the replay history, receipts and bytes of the room, receipts of each
    membership. *)

Fixpoint total {A} (f : A -> N) (l : list A) : N :=
  match l with [] => 0%N | a :: l => (f a + total f l)%N end.

Record social_ok (s : room_social) : Prop := {
  history_exact : RoomSocial.history_bytes s = total HistoryEntry.bytes (RoomSocial.history s);
  history_count : (length (RoomSocial.history s) <= HISTORY_MESSAGES)%nat;
  history_budget : (RoomSocial.history_bytes s <= HISTORY_BYTES)%N;
  receipts_exact : RoomSocial.receipt_bytes s = total ChatReceipt.bytes (RoomSocial.receipts s);
  receipts_count : (length (RoomSocial.receipts s) <= CHAT_RECEIPTS)%nat;
  (** A single receipt may be larger: a saved message is counted again when it
      comes back from the database. *)
  receipts_budget : (RoomSocial.receipt_bytes s <= CHAT_RECEIPT_BYTES)%N \/ (length (RoomSocial.receipts s) <= 1)%nat;
  receipts_member : forall session,
    (receipts_of session (RoomSocial.receipts s) <= CHAT_RECEIPTS_PER_MEMBER)%nat
}.

Lemma total_app {A} (f : A -> N) l1 l2 : total f (l1 ++ l2) = (total f l1 + total f l2)%N.
Proof. induction l1 as [|a l1 IH]; cbn; [done|]. rewrite IH. lia. Qed.

Lemma foldl_total {A} (f : A -> N) l n : foldl (fun n a => (n + f a)%N) n l = (n + total f l)%N.
Proof. revert n. induction l as [|a l IH]; intros n; cbn; [lia|]. rewrite IH. lia. Qed.

(** Trimming from an exact count leaves an exact count within both bounds, of
    a suffix of the history. *)
Lemma trim_loop_spec history bytes :
  bytes = total HistoryEntry.bytes history ->
  exists dropped, history = dropped ++ (trim_loop history bytes).1
    /\ (trim_loop history bytes).2 = total HistoryEntry.bytes (trim_loop history bytes).1
    /\ (length (trim_loop history bytes).1 <= HISTORY_MESSAGES)%nat
    /\ ((trim_loop history bytes).2 <= HISTORY_BYTES)%N.
Proof.
  revert bytes. induction history as [|old rest IH]; intros bytes Hb.
  { exists []. cbn in *. subst. split_and!; try done; unfold HISTORY_MESSAGES, HISTORY_BYTES; lia. }
  cbn [trim_loop].
  destruct ((_ <? _)%nat || _) eqn:E.
  - destruct (IH (saturating_sub bytes (HistoryEntry.bytes old))) as (dropped & Hd & Hrest).
    { subst. unfold saturating_sub. cbn. lia. }
    exists (old :: dropped). split; [by rewrite Hd at 1|done].
  - exists []. bool_hyps. cbn [fst snd]. by split_and!.
Qed.

Lemma trim_receipts_loop_spec receipts bytes :
  bytes = total ChatReceipt.bytes receipts ->
  exists dropped, receipts = dropped ++ (trim_receipts_loop receipts bytes).1
    /\ (trim_receipts_loop receipts bytes).2 = total ChatReceipt.bytes (trim_receipts_loop receipts bytes).1
    /\ ((trim_receipts_loop receipts bytes).2 <= CHAT_RECEIPT_BYTES)%N.
Proof.
  revert bytes. induction receipts as [|old rest IH]; intros bytes Hb.
  { exists []. cbn in *. subst. split_and!; try done; unfold CHAT_RECEIPT_BYTES; lia. }
  cbn [trim_receipts_loop]. destruct (N.ltb_spec CHAT_RECEIPT_BYTES bytes).
  - destruct (IH (saturating_sub bytes (ChatReceipt.bytes old))) as (dropped & Hd & Hrest).
    { subst. unfold saturating_sub. cbn. lia. }
    exists (old :: dropped). split; [by rewrite Hd at 1|done].
  - by exists [].
Qed.

Lemma prune_loop_spec now receipts bytes :
  bytes = total ChatReceipt.bytes receipts ->
  exists dropped, receipts = dropped ++ (prune_loop now receipts bytes).1
    /\ (prune_loop now receipts bytes).2 = total ChatReceipt.bytes (prune_loop now receipts bytes).1.
Proof.
  revert bytes. induction receipts as [|old rest IH]; intros bytes Hb.
  { by exists []. }
  cbn [prune_loop]. destruct (_ <=? _)%N.
  - destruct (IH (saturating_sub bytes (ChatReceipt.bytes old))) as (dropped & Hd & Hrest).
    { subst. unfold saturating_sub. cbn. lia. }
    exists (old :: dropped). split; [by rewrite Hd at 1|done].
  - by exists [].
Qed.

(** A suffix of bounded receipts is bounded. *)
Lemma receipts_of_app session l1 l2 :
  receipts_of session (l1 ++ l2) = (receipts_of session l1 + receipts_of session l2)%nat.
Proof. unfold receipts_of. by rewrite filter_app, length_app. Qed.

Lemma trim_history_ok s :
  RoomSocial.history_bytes s = total HistoryEntry.bytes (RoomSocial.history s) ->
  RoomSocial.receipt_bytes s = total ChatReceipt.bytes (RoomSocial.receipts s) ->
  (length (RoomSocial.receipts s) <= CHAT_RECEIPTS)%nat ->
  (RoomSocial.receipt_bytes s <= CHAT_RECEIPT_BYTES)%N \/ (length (RoomSocial.receipts s) <= 1)%nat ->
  (forall session, (receipts_of session (RoomSocial.receipts s) <= CHAT_RECEIPTS_PER_MEMBER)%nat) ->
  social_ok (trim_history s).
Proof.
  intros Hexact. destruct (trim_loop_spec _ _ Hexact) as (dropped & Hd & H1 & H2 & H3).
  unfold trim_history. destruct (trim_loop _ _) as [history bytes]. by split.
Qed.

Lemma remember_ok entry_bytes s session recipient auth m :
  social_ok s -> social_ok (remember entry_bytes s session recipient auth m).
Proof.
  intros []. apply trim_history_ok; cbn; try done.
  rewrite total_app. cbn. rewrite history_exact0. lia.
Qed.

Lemma total_insert (f : history_entry -> N) l i x y :
  l !! i = Some x -> (total f (<[i := y]> l) + f x = total f l + f y)%N.
Proof.
  intros Hi. pose proof (f_equal (total f) (take_drop_middle l i x Hi)) as Hl.
  rewrite insert_take_drop by (apply lookup_lt_is_Some; eauto).
  rewrite total_app in Hl |- *. cbn [total] in Hl |- *. lia.
Qed.

Lemma recount_ok entry_bytes s i : social_ok s -> social_ok (recount entry_bytes s i).
Proof.
  intros []. unfold recount. destruct (RoomSocial.history s !! i) as [e|] eqn:Ei.
  - apply trim_history_ok; cbn; try done.
    pose proof (total_insert HistoryEntry.bytes _ i e
      (e <| HistoryEntry.bytes := history_size entry_bytes (HistoryEntry.message e) |>) Ei) as Ht.
    cbn in Ht. unfold saturating_sub. rewrite history_exact0.
    assert (HistoryEntry.bytes e <= total HistoryEntry.bytes (RoomSocial.history s))%N; [|lia].
    rewrite <-(take_drop_middle _ _ _ Ei), total_app. cbn [total]. lia.
  - by apply trim_history_ok.
Qed.

Lemma trim_receipts_ok s :
  RoomSocial.history_bytes s = total HistoryEntry.bytes (RoomSocial.history s) ->
  (length (RoomSocial.history s) <= HISTORY_MESSAGES)%nat ->
  (RoomSocial.history_bytes s <= HISTORY_BYTES)%N ->
  RoomSocial.receipt_bytes s = total ChatReceipt.bytes (RoomSocial.receipts s) ->
  (length (RoomSocial.receipts s) <= CHAT_RECEIPTS)%nat ->
  (forall session, (receipts_of session (RoomSocial.receipts s) <= CHAT_RECEIPTS_PER_MEMBER)%nat) ->
  social_ok (trim_receipts s).
Proof.
  intros H1 H2 H3 Hexact Hcount Hmember.
  destruct (trim_receipts_loop_spec _ _ Hexact) as (dropped & Hd & E1 & E2).
  unfold trim_receipts. destruct (trim_receipts_loop _ _) as [receipts bytes]. cbn [fst snd] in *.
  rewrite Hd in Hcount, Hmember. rewrite length_app in Hcount.
  split; try done; cbn; [lia|by left|]. intros session. specialize (Hmember session).
  rewrite receipts_of_app in Hmember. lia.
Qed.

(** Rewriting the retained copies and trimming, as removal and edits do. *)
Lemma rewrite_ok entry_bytes f s :
  social_ok s ->
  social_ok (trim_receipts (trim_history (rewrite_receipts entry_bytes f
                                            (rewrite_history entry_bytes f s)))).
Proof.
  intros []. unfold trim_history, rewrite_receipts, rewrite_history. cbn.
  destruct (trim_loop_spec _ _ (foldl_total HistoryEntry.bytes
    ((fun e => e <| HistoryEntry.message := f (HistoryEntry.message e) |>
                 <| HistoryEntry.bytes := history_size entry_bytes (f (HistoryEntry.message e)) |>)
       <$> RoomSocial.history s) 0%N)) as (dropped & _ & H1 & H2 & H3).
  cbn [update_field] in H1, H2, H3. destruct (trim_loop _ _) as [history bytes]. cbn [fst snd] in *.
  apply trim_receipts_ok; cbn; try done.
  - by rewrite foldl_total.
  - by rewrite length_fmap.
  - intros session. etrans; [|exact (receipts_member0 session)]. apply Nat.eq_le_incl.
    unfold receipts_of. clear. induction (RoomSocial.receipts s) as [|r l IH]; [done|].
    rewrite fmap_cons, !filter_cons. cbn. case_decide; cbn; by rewrite IH.
Qed.

Lemma remove_message_ok entry_bytes s id at_ :
  social_ok s -> social_ok (remove_message entry_bytes s id at_).
Proof. intros Hok. unfold remove_message. apply rewrite_ok. destruct Hok. by split. Qed.

Lemma edit_message_ok entry_bytes s edited :
  social_ok s -> social_ok (edit_message entry_bytes s edited).
Proof.
  intros Hok. unfold edit_message. destruct (edit_is_stale s edited); [done|].
  set (f := update_edited _ _). pose proof (rewrite_ok entry_bytes f s Hok) as Hr.
  unfold trim_receipts, trim_history in *. cbn in *.
  destruct (trim_loop _ _) as [history bytes]. cbn in *.
  destruct (trim_receipts_loop _ _) as [receipts rbytes]. destruct Hr. by split.
Qed.

Lemma prune_receipts_ok now s : social_ok s -> social_ok (prune_receipts s now).
Proof.
  intros []. destruct (prune_loop_spec now _ _ receipts_exact0) as (dropped & Hd & He).
  unfold prune_receipts. destruct (prune_loop _ _ _) as [receipts bytes]. cbn [fst snd] in *.
  rewrite Hd in receipts_count0, receipts_member0, receipts_exact0, receipts_budget0.
  rewrite length_app in receipts_count0, receipts_budget0. rewrite total_app in receipts_exact0.
  split; try done; cbn; [lia|destruct receipts_budget0; [left|right]; lia|]. intros session. specialize (receipts_member0 session).
  rewrite receipts_of_app in receipts_member0. lia.
Qed.

Lemma remove_receipt_spec session receipts :
  match remove_receipt session receipts with
  | Some (rest, r) => exists l1 l2, receipts = l1 ++ r :: l2 /\ rest = l1 ++ l2
                                    /\ ChatReceipt.sender_session r = session
  | None => receipts_of session receipts = 0%nat
  end.
Proof.
  induction receipts as [|r receipts IH]; cbn; [done|].
  destruct (N.eqb_spec (ChatReceipt.sender_session r) session) as [Hr|Hr]; [by exists [], receipts|].
  destruct (remove_receipt session receipts) as [[rest found]|].
  - destruct IH as (l1 & l2 & -> & -> & Hs). by exists (r :: l1), l2.
  - unfold receipts_of in *. rewrite filter_cons, decide_False; done.
Qed.

Lemma receipts_of_cons session r l :
  receipts_of session (r :: l)
  = ((if decide (ChatReceipt.sender_session r = session) then 1 else 0) + receipts_of session l)%nat.
Proof. unfold receipts_of. rewrite filter_cons. by case_decide. Qed.

(** With a turn for every receipt the member loop ends under the member's
    bound; it only removes receipts, and keeps the count exact. *)
Lemma member_loop_spec fuel session receipts bytes :
  bytes = total ChatReceipt.bytes receipts -> (length receipts <= fuel)%nat ->
  let '(receipts', bytes') := member_loop fuel session receipts bytes in
  bytes' = total ChatReceipt.bytes receipts'
  /\ (receipts_of session receipts' < CHAT_RECEIPTS_PER_MEMBER)%nat
  /\ (length receipts' <= length receipts)%nat /\ (bytes' <= bytes)%N
  /\ (forall other, receipts_of other receipts' <= receipts_of other receipts)%nat.
Proof.
  revert receipts bytes. induction fuel as [|fuel IH]; intros receipts bytes Hb Hf.
  { destruct receipts; [|cbn in Hf; lia]. cbn. split_and!; [done|unfold receipts_of, CHAT_RECEIPTS_PER_MEMBER; cbn; lia|lia|lia|lia]. }
  cbn [member_loop]. pose proof (remove_receipt_spec session receipts) as Hrm.
  destruct (Nat.leb_spec CHAT_RECEIPTS_PER_MEMBER (receipts_of session receipts)) as [Hge|Hlt];
    [|by split_and!].
  destruct (remove_receipt session receipts) as [[rest r]|].
  - destruct Hrm as (l1 & l2 & -> & -> & Hs). rewrite total_app in Hb. cbn [total] in Hb.
    rewrite length_app in Hf. cbn in Hf.
    specialize (IH (l1 ++ l2) (bytes - ChatReceipt.bytes r)%N).
    destruct (member_loop fuel session (l1 ++ l2) _) as [receipts' bytes'].
    destruct IH as (H1 & H2 & H3 & Hle & H4); [rewrite total_app; lia|rewrite length_app; lia|].
    split_and!; try done.
    + rewrite length_app in *. cbn. lia.
    + lia.
    + intros other. specialize (H4 other). rewrite receipts_of_app in *. rewrite receipts_of_cons. lia.
  - unfold CHAT_RECEIPTS_PER_MEMBER in *. lia.
Qed.

Lemma room_loop_spec needed receipts bytes :
  bytes = total ChatReceipt.bytes receipts -> (0 < needed)%N ->
  exists dropped, receipts = dropped ++ (room_loop needed receipts bytes).1
    /\ (room_loop needed receipts bytes).2 = total ChatReceipt.bytes (room_loop needed receipts bytes).1
    /\ (length (room_loop needed receipts bytes).1 < CHAT_RECEIPTS)%nat
    /\ ((room_loop needed receipts bytes).1 = [] \/ (needed + (room_loop needed receipts bytes).2 <= CHAT_RECEIPT_BYTES)%N).
Proof.
  revert bytes. induction receipts as [|r rest IH]; intros bytes Hb Hn.
  { exists []. cbn in *. subst. split_and!; [done|done|unfold CHAT_RECEIPTS; lia|by left]. }
  cbn [room_loop]. destruct ((_ <=? _)%nat || _) eqn:E.
  - destruct (IH (bytes - ChatReceipt.bytes r)%N) as (dropped & Hd & Hrest); [|done|].
    { subst. cbn. lia. }
    exists (r :: dropped). split; [by rewrite Hd at 1|done].
  - exists []. bool_hyps. cbn [fst snd]. unfold saturating_sub in *. split_and!; try done. right.
    unfold CHAT_RECEIPT_BYTES in *. lia.
Qed.

Lemma accept_receipt_ok s r : social_ok s -> (0 < ChatReceipt.bytes r)%N -> social_ok (accept_receipt s r).
Proof.
  intros [] Hr. unfold accept_receipt, make_receipt_room.
  pose proof (member_loop_spec (length (RoomSocial.receipts s)) (ChatReceipt.sender_session r)
                (RoomSocial.receipts s) (RoomSocial.receipt_bytes s) receipts_exact0 (le_n _)) as Hm.
  destruct (member_loop _ _ _ _) as [l1 b1]. destruct Hm as (M1 & M2 & M3 & Mle & M4).
  destruct (room_loop_spec (ChatReceipt.bytes r) l1 b1 M1 Hr) as (dropped & Hd & R1 & R2 & R3).
  destruct (room_loop _ _ _) as [l2 b2]. cbn [fst snd] in *. subst l1.
  split; cbn; try done.
  - rewrite total_app. cbn [total]. lia.
  - rewrite length_app. cbn. lia.
  - destruct R3 as [->|R3]; [by right|left; lia].
  - intros session. specialize (M4 session). specialize (receipts_member0 session).
    rewrite receipts_of_app in M2, M4 |- *. rewrite receipts_of_cons.
    change (receipts_of session []) with 0%nat. case_decide; subst; lia.
Qed.

(** ** The books: bans, reports and the history of moderation *)

Record books_ok (s : room_social) : Prop := {
  bans_count : (size (RoomSocial.bans s) <= MAX_RUNTIME_BANS)%nat;
  reports_count : (length (RoomSocial.reports s) <= MAX_REPORTS)%nat;
  events_count : (length (RoomSocial.moderation_events s) <= MAX_RUNTIME_MODERATION_EVENTS)%nat
}.

Record memory_ok (s : room_social) : Prop := { memory_chat : social_ok s; memory_books : books_ok s }.

(** What the bounds are about. *)
Definition books (s : room_social) := (RoomSocial.bans s, RoomSocial.reports s, RoomSocial.moderation_events s).
Definition holdings (s : room_social) :=
  (RoomSocial.history s, RoomSocial.history_bytes s, RoomSocial.receipts s, RoomSocial.receipt_bytes s, books s).

Lemma holdings_ok s s' : holdings s' = holdings s -> memory_ok s -> memory_ok s'.
Proof.
  unfold holdings, books. intros [= E1 E2 E3 E4 E5 E6 E7] [[] []]. split; split; by rewrite ?E1, ?E2, ?E3, ?E4, ?E5, ?E6, ?E7.
Qed.

(** Operations on retained chat leave the books alone. *)
Lemma chat_keeps_memory s s' : memory_ok s -> (social_ok s -> social_ok s') -> books s' = books s -> memory_ok s'.
Proof. unfold books. intros [Hc []] Hs [= E5 E6 E7]. split; [by apply Hs|]. split; by rewrite ?E5, ?E6, ?E7. Qed.

Lemma books_bans s s' : books s' = books s -> RoomSocial.bans s' = RoomSocial.bans s.
Proof. by intros [= -> _ _]. Qed.

Lemma trim_history_books s : books (trim_history s) = books s.
Proof. unfold trim_history. by destruct (trim_loop _ _). Qed.
Lemma trim_receipts_books s : books (trim_receipts s) = books s.
Proof. unfold trim_receipts. by destruct (trim_receipts_loop _ _). Qed.
Lemma prune_receipts_books s now : books (prune_receipts s now) = books s.
Proof. unfold prune_receipts. by destruct (prune_loop _ _ _). Qed.
Lemma accept_receipt_books s r : books (accept_receipt s r) = books s.
Proof.
  unfold accept_receipt, make_receipt_room. destruct (member_loop _ _ _ _) as [receipts bytes]. by destruct (room_loop _ _ _).
Qed.
Lemma remember_books eb s session recipient auth m : books (remember eb s session recipient auth m) = books s.
Proof. unfold remember. by rewrite trim_history_books. Qed.
Lemma recount_books eb s i : books (recount eb s i) = books s.
Proof. unfold recount. rewrite trim_history_books. by destruct (RoomSocial.history s !! i). Qed.
Lemma remove_message_books eb s id at_ : books (remove_message eb s id at_) = books s.
Proof. unfold remove_message. by rewrite trim_receipts_books, trim_history_books. Qed.
Lemma edit_message_books eb s m : books (edit_message eb s m) = books s.
Proof. unfold edit_message. destruct (edit_is_stale s m); [done|]. by rewrite trim_receipts_books, trim_history_books. Qed.

Lemma resolve_first_length wall id rs rs' : resolve_first wall id rs = Some rs' -> length rs' = length rs.
Proof.
  revert rs'. induction rs as [|r rs IH]; intros rs'; cbn; [done|]. destruct (String.eqb _ _).
  - intros [= <-]. by destruct (report_status_of r).
  - destruct (resolve_first wall id rs) as [l|]; [|done]. intros [= <-]. cbn. by rewrite IH.
Qed.

Lemma link_report_ok wall id s : memory_ok s -> memory_ok (link_report wall id s).1.
Proof.
  intros [Hc []]. unfold link_report. destruct (resolve_first _ _ _) as [l|] eqn:Hl; [|by split].
  split; [by destruct Hc|]. split; cbn; by rewrite ?(resolve_first_length _ _ _ _ Hl).
Qed.

Lemma fewer_runtime_bans_ok P `{!forall x, Decision (P x)} s :
  memory_ok s -> memory_ok (s <| RoomSocial.bans := filter P (RoomSocial.bans s) |>).
Proof.
  intros [Hc []]. split; [by destruct Hc|]. split; [|done..]. cbn [RoomSocial.bans update_field].
  etransitivity; [apply map_size_filter|done].
Qed.

Lemma link_report_bans wall id s : RoomSocial.bans (link_report wall id s).1 = RoomSocial.bans s.
Proof. unfold link_report. by destruct (resolve_first _ _ _). Qed.

(** A reserved ban has a free place in the table. *)
Lemma reserve_ban_ok now s : memory_ok s -> memory_ok (reserve_ban now s).1
  /\ (is_ok (reserve_ban now s).2 = true -> (size (RoomSocial.bans (reserve_ban now s).1) < MAX_RUNTIME_BANS)%nat).
Proof.
  intros [Hc []]. unfold reserve_ban, ensure, hbind, hmodify, hget, bail, hret.
  match goal with |- context [filter ?P (RoomSocial.bans s)] => pose proof (map_size_filter P (RoomSocial.bans s)) as Hs end.
  case_match eqn:Hlt; cbn [fst snd]; (split; [split; [by destruct Hc|split; [by etransitivity|done..]]|]); [|done].
  intros _. by apply Nat.ltb_lt.
Qed.

Lemma record_event_ok s event : memory_ok s -> memory_ok (record_moderation_event s event).
Proof.
  intros [Hc []]. split; [by destruct Hc|]. split; [done..|]. unfold record_moderation_event.
  cbn [RoomSocial.moderation_events update_field]. rewrite length_app. cbn [length].
  destruct (Nat.leb_spec MAX_RUNTIME_MODERATION_EVENTS (length (RoomSocial.moderation_events s))); [|lia].
  unfold MAX_RUNTIME_MODERATION_EVENTS in *. destruct (RoomSocial.moderation_events s); cbn in *; lia.
Qed.

Lemma social_default_ok : memory_ok social_default.
Proof.
  split; split; cbn; try done; try (unfold HISTORY_BYTES, CHAT_RECEIPT_BYTES, MAX_REPORTS; lia); [|by rewrite map_size_empty; lia].
  intros session. unfold receipts_of, CHAT_RECEIPTS_PER_MEMBER. cbn. lia.
Qed.

Definition sample_message (id : N) (content : text) (reply : option chat_reply_ref) : chat_entry :=
  ChatEntry.mk id "m" 1 (text_of "Ann") None None None content [] 5 None 0 None default_style reply [].

(** ** Properties *)

(** *** Removal *)

(** Nothing of the removed message [id] is left in [m]. *)
Definition scrubbed (id : message_id) (at_ : timestamp) (m : chat_entry) : Prop :=
  ChatEntry.recipient_id m = None ->
  (ChatEntry.message_id m = id ->
     ChatEntry.content m = [] /\ ChatEntry.attachments m = [] /\ ChatEntry.reactions m = []
     /\ ChatEntry.reply_to m = None /\ ChatEntry.removed_at m = Some at_)
  /\ (forall r, ChatEntry.reply_to m = Some r -> reply_message_id r = id ->
        excerpt r = text_of "Message removed").

Lemma redact_scrubs id at_ m : scrubbed id at_ (redact_message m id at_).
Proof.
  unfold scrubbed, redact_message. destruct (ChatEntry.recipient_id m) eqn:Er; [congruence|].
  destruct (N.eqb_spec (ChatEntry.message_id m) id) as [Heq|Hne]; cbn; [by split|].
  destruct (ChatEntry.reply_to m) as [r|] eqn:Ep; cbn.
  - destruct (N.eqb_spec (reply_message_id r) id) as [Hr|Hr]; cbn.
    + split; [done|]. intros r' [= <-] _. done.
    + split; [done|]. rewrite Ep. intros r' [= <-]. done.
  - split; [done|]. by rewrite Ep.
Qed.

(** Removing a message leaves no copy of its text, attachments or
    reactions in the replay history or in the delivery receipts, replaces every
    quote of it there, and unpins it. *)
Theorem removal_scrubs_retained_chat entry_bytes s id at_ :
  let s' := remove_message entry_bytes s id at_ in
  Forall (fun e => scrubbed id at_ (HistoryEntry.message e)) (RoomSocial.history s')
  /\ Forall (fun r => scrubbed id at_ (ChatReceipt.message r)) (RoomSocial.receipts s')
  /\ Forall (fun m => ChatEntry.message_id m <> id) (RoomSocial.pins s').
Proof.
  cbn zeta. unfold remove_message, trim_receipts, trim_history, rewrite_receipts, rewrite_history. cbn.
  destruct (trim_loop_spec _ _ (foldl_total HistoryEntry.bytes
    ((fun e => e <| HistoryEntry.message := redact_message (HistoryEntry.message e) id at_ |>
                 <| HistoryEntry.bytes := history_size entry_bytes
                                            (redact_message (HistoryEntry.message e) id at_) |>)
       <$> RoomSocial.history s) 0%N)) as (dropped & Hh & _).
  cbn [update_field] in Hh. destruct (trim_loop _ _) as [history bytes]. cbn [fst] in *. cbn.
  destruct (trim_receipts_loop_spec _ _ (foldl_total ChatReceipt.bytes
    ((fun r => r <| ChatReceipt.message := redact_message (ChatReceipt.message r) id at_ |>
                 <| ChatReceipt.bytes := receipt_size entry_bytes
                                           (redact_message (ChatReceipt.message r) id at_) |>)
       <$> RoomSocial.receipts s) 0%N)) as (dropped' & Hr & _).
  cbn [update_field] in Hr. destruct (trim_receipts_loop _ _) as [receipts rbytes]. cbn [fst] in *. cbn.
  split_and!.
  - assert (Forall (fun e => scrubbed id at_ (HistoryEntry.message e)) (dropped ++ history)) as Hall.
    { rewrite <-Hh. apply Forall_fmap, Forall_true. intros e. apply redact_scrubs. }
    by apply Forall_app in Hall as [_ Hall].
  - assert (Forall (fun r => scrubbed id at_ (ChatReceipt.message r)) (dropped' ++ receipts)) as Hall.
    { rewrite <-Hr. apply Forall_fmap, Forall_true. intros e. apply redact_scrubs. }
    by apply Forall_app in Hall as [_ Hall].
  - apply Forall_forall. intros m Hm. by apply list_elem_of_filter in Hm as [Hne _].
Qed.

(** *** Reactions *)

(** One record per emoji, nobody twice in it, none empty, and the bound of the
    message. *)
Record reactions_ok (rs : list chat_reaction) : Prop := {
  one_record : NoDup (emoji <$> rs);
  people_once : Forall (fun r => NoDup (reaction_participant_ids r) /\ reaction_participant_ids r <> []) rs;
  reactions_bound : (reaction_total rs <= MESSAGE_REACTIONS)%nat
}.

Lemma find_reaction_spec e rs :
  match find_reaction e rs with
  | Some (before, r, after) =>
      rs = before ++ r :: after /\ emoji r = e /\ Forall (fun r => emoji r <> e) before
  | None => Forall (fun r => emoji r <> e) rs
  end.
Proof.
  induction rs as [|r rs IH]; cbn; [done|]. case_bool_decide as He; [by split_and!|].
  destruct (find_reaction e rs) as [[[before found] after]|].
  - destruct IH as (-> & Hf & Hb). split_and!; [done|done|]. by constructor.
  - by constructor.
Qed.

Lemma has_reacted_app l1 l2 who e :
  has_reacted (l1 ++ l2) who e = has_reacted l1 who e || has_reacted l2 who e.
Proof. apply existsb_app. Qed.

Lemma has_reacted_other rs who e :
  Forall (fun r => emoji r <> e) rs -> has_reacted rs who e = false.
Proof.
  unfold has_reacted. induction 1 as [|r rs Hr _ IH]; cbn; [done|].
  by rewrite bool_decide_eq_false_2, IH.
Qed.

Lemma has_reacted_cons r rs who e :
  has_reacted (r :: rs) who e
  = (bool_decide (emoji r = e) && bool_decide (who ∈ reaction_participant_ids r)) || has_reacted rs who e.
Proof. done. Qed.

Lemma reaction_total_app l1 l2 : reaction_total (l1 ++ l2) = (reaction_total l1 + reaction_total l2)%nat.
Proof. apply sum_list_with_app. Qed.

Lemma reactions_ok_middle before r after :
  reactions_ok (before ++ r :: after) ->
  Forall (fun r' => emoji r' <> emoji r) (before ++ after)
  /\ NoDup (emoji <$> before ++ after)
  /\ Forall (fun r => NoDup (reaction_participant_ids r) /\ reaction_participant_ids r <> []) (before ++ after).
Proof.
  intros [Hn Hp _]. rewrite fmap_app, fmap_cons in Hn.
  assert (NoDup (emoji r :: (emoji <$> before) ++ (emoji <$> after))) as Hn'.
  { by rewrite Permutation_middle. }
  apply NoDup_cons in Hn' as [Hin Hn']. rewrite <-fmap_app in Hin, Hn'.
  apply Forall_app in Hp as [Hp1 Hp2]. apply Forall_cons in Hp2 as [_ Hp2].
  split_and!; [|done|by apply Forall_app].
  apply Forall_forall. intros r' Hr' He. apply Hin. rewrite <-He. by apply list_elem_of_fmap_2.
Qed.

(** Replacing the record of an emoji keeps the reactions well formed. *)
Lemma reactions_ok_replace before r after ids :
  reactions_ok (before ++ r :: after) -> NoDup ids -> ids <> [] ->
  (reaction_total (before ++ ChatReaction (emoji r) ids :: after) <= MESSAGE_REACTIONS)%nat ->
  reactions_ok (before ++ ChatReaction (emoji r) ids :: after).
Proof.
  intros Hok Hids Hne Hb. pose proof Hok as [Hn Hp _]. split; [|apply Forall_app in Hp as [Hp1 Hp2]|done].
  - rewrite fmap_app, fmap_cons in Hn |- *. done.
  - apply Forall_app. apply Forall_cons in Hp2 as [_ Hp2]. split; [done|]. by constructor.
Qed.

Lemma reaction_total_cons r l :
  reaction_total (r :: l) = (length (reaction_participant_ids r) + reaction_total l)%nat.
Proof. done. Qed.

(** Who has reacted once the record of an emoji holds [ids]. *)
Lemma has_reacted_replace before r after ids who e :
  reactions_ok (before ++ r :: after) ->
  has_reacted (before ++ ChatReaction (emoji r) ids :: after) who e
  = if decide (e = emoji r) then bool_decide (who ∈ ids) else has_reacted (before ++ after) who e.
Proof.
  intros Hok. destruct (reactions_ok_middle _ _ _ Hok) as (Hothers & _ & _).
  apply Forall_app in Hothers as [Hb Ha]. rewrite !has_reacted_app, has_reacted_cons. cbn.
  case_decide as He; [subst|by rewrite bool_decide_eq_false_2].
  rewrite !has_reacted_other by done. rewrite bool_decide_eq_true_2 by done. by rewrite orb_false_r.
Qed.

Lemma has_reacted_current before r after who e :
  reactions_ok (before ++ r :: after) ->
  has_reacted (before ++ r :: after) who e
  = if decide (e = emoji r) then bool_decide (who ∈ reaction_participant_ids r)
    else has_reacted (before ++ after) who e.
Proof. intros Hok. rewrite <-has_reacted_replace by done. by destruct r. Qed.

(** The effect of one toggle: [who]'s reaction [e] flips, nothing else changes. *)
Definition flips (current rs : list chat_reaction) (who : participant_id) (e : text) : Prop :=
  forall who' e', has_reacted rs who' e'
    = if decide (who' = who /\ e' = e) then negb (has_reacted current who e)
      else has_reacted current who' e'.

Lemma flips_replace before r after ids who :
  reactions_ok (before ++ r :: after) ->
  (forall x, x ∈ ids <-> if decide (x = who) then who ∉ reaction_participant_ids r
                         else x ∈ reaction_participant_ids r) ->
  flips (before ++ r :: after) (before ++ ChatReaction (emoji r) ids :: after) who (emoji r).
Proof.
  intros Hok Hids who' e'. rewrite has_reacted_replace, !has_reacted_current by done.
  rewrite (decide_True (P := emoji r = emoji r)) by done.
  specialize (Hids who').
  destruct (decide (e' = emoji r)) as [->|Hne]; [|rewrite decide_False; [done|by intros [_ ?]]].
  destruct (decide (who' = who)) as [->|Hw].
  - rewrite decide_True by done. rewrite <-bool_decide_not. by apply bool_decide_ext.
  - rewrite decide_False by (by intros [? _]). by apply bool_decide_ext.
Qed.

Lemma toggle_off_empty before r after who :
  reactions_ok (before ++ r :: after) -> who ∈ reaction_participant_ids r ->
  filter (fun id => id <> who) (reaction_participant_ids r) = [] ->
  reactions_ok (before ++ after) /\ flips (before ++ r :: after) (before ++ after) who (emoji r).
Proof.
  intros Hok Hin Hf. destruct (reactions_ok_middle _ _ _ Hok) as (Hothers & Hnd & Hpeople).
  split.
  - pose proof (reactions_bound _ Hok) as Hb. rewrite reaction_total_app, reaction_total_cons in Hb.
    split; [done|done|]. rewrite reaction_total_app. lia.
  - pose proof (flips_replace before r after [] who Hok) as Hflip.
    assert (forall x, x ∈ [] <-> if decide (x = who) then who ∉ reaction_participant_ids r
                                else x ∈ reaction_participant_ids r) as Hids.
    { intros x. rewrite <-Hf, list_elem_of_filter. destruct (decide (x = who)); subst; intuition. }
    intros who' e'. rewrite <-(Hflip Hids), has_reacted_replace by done.
    case_decide; [subst|done]. rewrite has_reacted_other by done. symmetry.
    apply bool_decide_eq_false, not_elem_of_nil.
Qed.

Lemma toggle_off before r after who :
  reactions_ok (before ++ r :: after) -> who ∈ reaction_participant_ids r ->
  let ids := filter (fun id => id <> who) (reaction_participant_ids r) in
  ids <> [] ->
  reactions_ok (before ++ ChatReaction (emoji r) ids :: after)
  /\ flips (before ++ r :: after) (before ++ ChatReaction (emoji r) ids :: after) who (emoji r).
Proof.
  intros Hok Hin ids Hne. pose proof Hok as [_ Hp Hb]. apply Forall_app in Hp as [_ Hp].
  apply Forall_cons in Hp as [[Hids _] _]. split.
  - apply reactions_ok_replace; [done|by apply NoDup_filter|done|].
    rewrite reaction_total_app, reaction_total_cons in Hb |- *. cbn [reaction_participant_ids].
    pose proof (length_filter (fun id => id <> who) (reaction_participant_ids r)). unfold ids. lia.
  - apply flips_replace; [done|]. intros x. unfold ids. rewrite list_elem_of_filter.
    destruct (decide (x = who)); subst; intuition.
Qed.

Lemma toggle_on before r after who :
  reactions_ok (before ++ r :: after) -> who ∉ reaction_participant_ids r ->
  (reaction_total (before ++ r :: after) < MESSAGE_REACTIONS)%nat ->
  let ids := reaction_participant_ids r ++ [who] in
  reactions_ok (before ++ ChatReaction (emoji r) ids :: after)
  /\ flips (before ++ r :: after) (before ++ ChatReaction (emoji r) ids :: after) who (emoji r).
Proof.
  intros Hok Hin Hlt ids. pose proof Hok as [_ Hp _]. apply Forall_app in Hp as [_ Hp].
  apply Forall_cons in Hp as [[Hids _] _]. split.
  - apply reactions_ok_replace; [done| |by destruct (reaction_participant_ids r)|].
    + apply NoDup_app. split_and!; [done| |by apply NoDup_singleton].
      intros x Hx ->%list_elem_of_singleton. done.
    + rewrite reaction_total_app, reaction_total_cons in Hlt |- *. cbn [reaction_participant_ids].
      unfold ids. rewrite length_app. cbn [length]. lia.
  - apply flips_replace; [done|]. intros x. unfold ids. rewrite elem_of_app, list_elem_of_singleton.
    destruct (decide (x = who)); subst; intuition congruence.
Qed.

Lemma toggle_new current who e :
  reactions_ok current -> Forall (fun r => emoji r <> e) current ->
  (reaction_total current < MESSAGE_REACTIONS)%nat ->
  reactions_ok (current ++ [ChatReaction e [who]])
  /\ flips current (current ++ [ChatReaction e [who]]) who e.
Proof.
  intros [Hn Hp Hb] Hf Hlt. split; [split|].
  - rewrite fmap_app. apply NoDup_app. split_and!; [done| |by apply NoDup_singleton].
    intros x Hx ->%list_elem_of_singleton. apply list_elem_of_fmap in Hx as (r & He & Hr).
    rewrite Forall_forall in Hf. by apply (Hf r Hr).
  - apply Forall_app. split; [done|]. repeat constructor; [|done..]. by apply not_elem_of_nil.
  - rewrite reaction_total_app, reaction_total_cons. cbn. lia.
  - intros who' e'. rewrite has_reacted_app, has_reacted_cons. cbn. rewrite orb_false_r.
    case_decide as Hd.
    + destruct Hd as [-> ->]. rewrite has_reacted_other by done. cbn.
      by rewrite !bool_decide_eq_true_2 by (done || by apply list_elem_of_singleton).
    + destruct (decide (e' = e)) as [->|];
        [|by rewrite (bool_decide_eq_false_2 (e = e')), orb_false_r by done].
      rewrite (bool_decide_eq_false_2 (who' ∈ [who])); [by rewrite andb_false_r, orb_false_r|].
      rewrite list_elem_of_singleton. intuition.
Qed.

Lemma toggle_reactions_spec current who e rs :
  reactions_ok current -> toggle_reactions current who e = Ok rs ->
  reactions_ok rs /\ flips current rs who e.
Proof.
  intros Hok. unfold toggle_reactions. destruct (negb _); [done|].
  pose proof (find_reaction_spec e current) as Hf.
  destruct (find_reaction e current) as [[[before r] after]|].
  - destruct Hf as (-> & <- & _). case_bool_decide as Hin.
    + destruct (filter (fun id => id <> who) (reaction_participant_ids r)) as [|id ids] eqn:Ef;
        intros [= <-]; [by apply toggle_off_empty|].
      rewrite <-Ef. apply toggle_off; [done|done|by rewrite Ef].
    + destruct (Nat.leb_spec MESSAGE_REACTIONS (reaction_total (before ++ r :: after))) as [|Hlt]; [done|].
      intros [= <-]. by apply toggle_on.
  - destruct (Nat.leb_spec MESSAGE_REACTIONS (reaction_total current)) as [|Hlt]; [done|].
    intros [= <-]. by apply toggle_new.
Qed.

(** Setting a reaction is what it says and safe to repeat.  The
    result has the wanted presence, leaves every other person's and every other
    emoji's reaction alone, keeps at most 64 reactions with nobody twice, and a
    second identical request (a retry whose answer was lost) changes nothing. *)
Theorem set_reaction_is_idempotent current who e present rs :
  reactions_ok current -> set_reaction current who e present = Ok rs ->
  reactions_ok rs
  /\ (forall who' e', has_reacted rs who' e'
        = if decide (who' = who /\ e' = e) then present else has_reacted current who' e')
  /\ set_reaction rs who e present = Ok rs.
Proof.
  intros Hok. unfold set_reaction. destruct (negb (bool_decide (e ∈ REACTIONS))) eqn:Ee; [done|].
  assert (reactions_ok rs -> (forall who' e', has_reacted rs who' e'
            = if decide (who' = who /\ e' = e) then present else has_reacted current who' e') ->
          reactions_ok rs /\ (forall who' e', has_reacted rs who' e'
            = if decide (who' = who /\ e' = e) then present else has_reacted current who' e')
          /\ (if Bool.eqb (has_reacted rs who e) present then Ok rs else toggle_reactions rs who e) = Ok rs)
    as Hdone.
  { intros H1 H2. split_and!; [done|done|]. rewrite H2, decide_True by done. by rewrite Bool.eqb_reflx. }
  destruct (Bool.eqb (has_reacted current who e) present) eqn:Ep.
  - intros [= <-]. apply Hdone; [done|]. intros who' e'.
    destruct (decide (who' = who /\ e' = e)) as [[-> ->]|]; [|done]. by apply Bool.eqb_prop.
  - intros Ht. destruct (toggle_reactions_spec current who e rs Hok Ht) as [Hrs Hflip].
    apply Hdone; [done|]. intros who' e'. rewrite Hflip. case_decide; [|done].
    by destruct (has_reacted current who e), present.
Qed.

Lemma set_reaction_is_idempotent_witness :
  let heart := [0x2764; 0xFE0F]%N in
  let current := [ChatReaction heart [4; 5]%N] in
  has_reacted [ChatReaction heart [4; 5; 6]%N] 6 heart = true
  /\ set_reaction [ChatReaction heart [4; 5; 6]%N] 6 heart true = Ok [ChatReaction heart [4; 5; 6]%N].
Proof.
  intros heart current.
  destruct (set_reaction_is_idempotent current 6 heart true [ChatReaction heart [4; 5; 6]%N])
    as (_ & H1 & H2).
  - split; cbn; [by apply NoDup_singleton| |unfold MESSAGE_REACTIONS; lia].
    repeat constructor; try done; rewrite ?list_elem_of_singleton; (done || by apply not_elem_of_nil).
  - vm_compute. reflexivity.
  - split; [|exact H2]. rewrite H1. by rewrite decide_True.
Defined.
