(* ===== verification/Room.v ===== *)
(** * Room state ([src/src/room/mod.rs])

    The live state of one room behind its lock: members, lobby, media index,
    bans, sanctions and policy generation.  Reads and writes are functions of
    the record; what a method sends goes to the [wire] it is given. *)

From stdpp Require Import pretty.
From S2P Require Import Prelude Refusal Net Roles Window Labels Settings Protocol Moderation Wire Social.

(** ** Data *)

Record producer_record := ProducerRecord {
  producer_kind : media_kind; producer_source : option string; paused : bool }.
#[export] Instance eta_producer_record : Eta producer_record := fun r =>
  ProducerRecord (producer_kind r) (producer_source r) (paused r).
#[export] Instance producer_record_eq_dec : EqDecision producer_record.
Proof. solve_decision. Defined.

Record revoked_producer := RevokedProducer {
  revoked_participant_id : participant_id;
  revoked_media_session_id : N;
  revoked_producer_id : producer_id;
  revoked_kind : media_kind
}.

Module Participant.
Record participant := mk {
  social : participant_social;
  id : participant_id;
  name : text;
  sender : Wire.sender;
  media_session_id : N;
  producers : gmap producer_id producer_record;
  role : Roles.role;
  punitive : punitive_state;
  authenticated : bool;
  ip : option ip_addr;
  chat_style : Settings.chat_style
}.
#[export] Instance eta_participant : Eta participant := fun p =>
  mk (social p) (id p) (name p) (sender p) (media_session_id p) (producers p) (role p) (punitive p)
     (authenticated p) (ip p) (chat_style p).
End Participant.
Export (hints) Participant.
Abbreviation participant := Participant.participant.

(** [in_lobby_flag] is the cell shared with the connection task: its address. *)
Module LobbyEntry.
Record lobby_entry := mk {
  participant_id : N;
  name : text;
  sender : Wire.sender;
  chat_style : Settings.chat_style;
  media_session_id : N;
  authenticated : bool;
  reconnect_token : opaque;
  in_lobby_flag : N;
  ip : option ip_addr;
  role : Roles.role;
  punitive : punitive_state
}.
#[export] Instance eta_lobby_entry : Eta lobby_entry := fun e =>
  mk (participant_id e) (name e) (sender e) (chat_style e) (media_session_id e) (authenticated e)
     (reconnect_token e) (in_lobby_flag e) (ip e) (role e) (punitive e).
End LobbyEntry.
Export (hints) LobbyEntry.
Abbreviation lobby_entry := LobbyEntry.lobby_entry.

(** [Room].  The control mutex and the shared metrics are not part of the
    state: control is what admits an operation, metrics live on the wire. *)
Module Room.
Record room := mk {
  social : room_social;
  id : string;
  participants : gmap participant_id participant;
  settings : option room_settings;
  broadcaster_ceiling : option N;
  persisted : bool;
  password_hash : option string;
  last_password_hash_at : option instant;
  chat_broadcasts : sliding_window;
  media_mutations : sliding_window;
  media_control_ipc : sliding_window;
  voice_requests : sliding_window;
  admin_mutations : sliding_window;
  active_speaker_observer : option opaque;
  audio_level_observer : option opaque;
  producer_to_participant : gmap producer_id participant_id;
  banned_participants : gmap participant_id (option instant);
  banned_guest_ips : gmap ip_addr (option instant);
  banned_guest_participants : gset participant_id;
  policy_revision : N;
  pending_joins : N;
  sanctions : gmap sanction_key punitive_state;
  deleting : bool;
  lobby : gmap participant_id lobby_entry
}.
#[export] Instance eta_room : Eta room := fun r =>
  mk (social r) (id r) (participants r) (settings r) (broadcaster_ceiling r) (persisted r)
     (password_hash r) (last_password_hash_at r) (chat_broadcasts r) (media_mutations r)
     (media_control_ipc r) (voice_requests r) (admin_mutations r) (active_speaker_observer r)
     (audio_level_observer r) (producer_to_participant r) (banned_participants r)
     (banned_guest_ips r) (banned_guest_participants r) (policy_revision r) (pending_joins r)
     (sanctions r) (deleting r) (lobby r).
End Room.
Export (hints) Room.
Abbreviation room := Room.room.

Definition ROOM_CHAT_WINDOW : duration := from_secs 1.
Definition MAX_ROOM_CHAT_MESSAGES_PER_WINDOW : nat := 10.
Definition ROOM_MEDIA_MUTATION_WINDOW : duration := from_secs 1.
Definition MAX_ROOM_MEDIA_MUTATIONS_PER_WINDOW : nat := 20.
Definition ROOM_MEDIA_CONTROL_IPC_WINDOW : duration := from_secs 1.
Definition MAX_ROOM_MEDIA_CONTROL_IPC_PER_WINDOW : nat := N.to_nat 2048.
Definition ROOM_VOICE_REQUEST_WINDOW : duration := from_secs 10.
Definition MAX_ROOM_VOICE_REQUESTS_PER_WINDOW : nat := 5.
Definition ROOM_ADMIN_MUTATION_WINDOW : duration := from_secs 1.
Definition MAX_ROOM_ADMIN_MUTATIONS_PER_WINDOW : nat := 20.

(** The creating join owns the first reservation. *)
Definition new_with_observers (room_id : string) (settings : option room_settings) (persisted : bool)
  (password_hash : option string) (active_speaker audio_level : option opaque) : room := {|
  Room.social := social_default;
  Room.id := room_id;
  Room.participants := ∅;
  Room.settings := settings;
  Room.broadcaster_ceiling := None;
  Room.persisted := persisted;
  Room.password_hash := password_hash;
  Room.last_password_hash_at := None;
  Room.chat_broadcasts := window_new ROOM_CHAT_WINDOW MAX_ROOM_CHAT_MESSAGES_PER_WINDOW;
  Room.media_mutations := window_new ROOM_MEDIA_MUTATION_WINDOW MAX_ROOM_MEDIA_MUTATIONS_PER_WINDOW;
  Room.media_control_ipc :=
    window_new ROOM_MEDIA_CONTROL_IPC_WINDOW MAX_ROOM_MEDIA_CONTROL_IPC_PER_WINDOW;
  Room.voice_requests := window_new ROOM_VOICE_REQUEST_WINDOW MAX_ROOM_VOICE_REQUESTS_PER_WINDOW;
  Room.admin_mutations := window_new ROOM_ADMIN_MUTATION_WINDOW MAX_ROOM_ADMIN_MUTATIONS_PER_WINDOW;
  Room.active_speaker_observer := active_speaker;
  Room.audio_level_observer := audio_level;
  Room.producer_to_participant := ∅;
  Room.banned_participants := ∅;
  Room.banned_guest_ips := ∅;
  Room.banned_guest_participants := ∅;
  Room.policy_revision := 0;
  Room.pending_joins := 1;
  Room.sanctions := ∅;
  Room.deleting := false;
  Room.lobby := ∅
|}.

(** [self.policy_revision = self.policy_revision.wrapping_add(1)]. *)
Definition bump_policy (r : room) : room :=
  r <| Room.policy_revision := u64_wrapping_add (Room.policy_revision r) 1 |>.

(** The values of a [HashMap], in its iteration order. *)
Definition values {K A} `{Countable K} (m : gmap K A) : list A := snd <$> map_to_list m.
Definition keys {K A} `{Countable K} (m : gmap K A) : list K := fst <$> map_to_list m.

Definition members (r : room) : list participant := values (Room.participants r).
Definition waiting (r : room) : list lobby_entry := values (Room.lobby r).

(** ** Names *)

Definition MAX_PARTICIPANT_NAME_LEN : nat := 64.

Section names.
Context `{Unicode}.

Definition name_in_use (r : room) (name : text) (except : option participant_id) : bool :=
  let wanted := comparison_key name in
  existsb (fun taken => bool_decide (comparison_key taken = wanted))
    ((Participant.name <$> filter (fun p => Some (Participant.id p) <> except) (members r))
     ++ (LobbyEntry.name <$> waiting r)).

(** The keys of every label in the room. *)
Definition occupied (r : room) : gset text :=
  list_to_set (comparison_key <$> ((Participant.name <$> members r) ++ (LobbyEntry.name <$> waiting r))).

Definition candidate (base : text) (suffix : N) : text :=
  trim_end base ++ text_of " (" ++ text_of (pretty suffix) ++ text_of ")".

(** The suffix loop; [None] when the fuel runs out. *)
Fixpoint first_free (fuel : nat) (occ : gset text) (base : text) (suffix : N) : option text :=
  match fuel with
  | O => None
  | S fuel =>
      let c := candidate base suffix in
      if bool_decide (comparison_key c ∈ occ) then first_free fuel occ base (suffix + 1)
      else Some c
  end.

Definition unique_participant_name (r : room) (name : text) : option text :=
  let occ := occupied r in
  if bool_decide (comparison_key name ∈ occ) then
    first_free (S (size occ)) occ (take (MAX_PARTICIPANT_NAME_LEN - 6) (trim name)) 2
  else Some name.

(** What the code relies on of ICU: the suffixes of one base stay distinct
    after normalisation and folding. *)
Definition suffix_keys_distinct : Prop :=
  forall base n m, comparison_key (candidate base n) = comparison_key (candidate base m) -> n = m.

Lemma first_free_spec fuel occ base suffix c :
  first_free fuel occ base suffix = Some c ->
  (comparison_key c ∉ occ) /\ exists k, (suffix <= k)%N /\ c = candidate base k.
Proof.
  revert suffix. induction fuel as [|fuel IH]; intros suffix; cbn [first_free]; [done|].
  case_bool_decide.
  - intros (? & k & Hk & ->)%IH. split; [done|]. exists k. split; [lia|done].
  - intros [= <-]. split; [done|]. by exists suffix.
Qed.

(** The keys already tried are distinct members of [occ], so the fuel of one
    more than its size is enough. *)
Lemma first_free_total (Hd : suffix_keys_distinct) fuel occ base suffix :
  (size occ < fuel)%nat -> is_Some (first_free fuel occ base suffix).
Proof.
  intros Hf.
  enough (forall tried : gset text, tried ⊆ occ ->
    (forall k, k ∈ tried -> exists n, (n < suffix)%N /\ k = comparison_key (candidate base n)) ->
    (size occ < fuel + size tried)%nat -> is_Some (first_free fuel occ base suffix)) as Hgen.
  { apply (Hgen ∅); [apply empty_subseteq|set_solver|lia]. }
  clear Hf. revert suffix. induction fuel as [|fuel IH]; intros suffix tried Hsub Hold Hf.
  { apply subseteq_size in Hsub. lia. }
  cbn. case_bool_decide as Hin; [|done].
  apply (IH (suffix + 1)%N ({[comparison_key (candidate base suffix)]} ∪ tried)).
  - apply union_subseteq. split; [by apply singleton_subseteq_l|done].
  - intros k [->%elem_of_singleton|Hk]%elem_of_union; [exists suffix; split; [lia|done]|].
    destruct (Hold k Hk) as (n & Hn & ->). exists n. split; [lia|done].
  - rewrite size_union; [rewrite size_singleton; lia|].
    intros k ->%elem_of_singleton Hk. destruct (Hold _ Hk) as (n & Hn & Heq).
    apply Hd in Heq. lia.
Qed.

Lemma comparison_key_occupied r name :
  name_in_use r name None = bool_decide (comparison_key name ∈ occupied r).
Proof.
  unfold name_in_use, occupied. apply Bool.eq_iff_eq_true.
  rewrite existsb_exists, bool_decide_eq_true, elem_of_list_to_set.
  match goal with |- context [filter ?P (members r)] => replace (filter P (members r)) with (members r) end.
  2: { induction (members r) as [|p l IH]; [done|]. rewrite filter_cons, decide_True by done. by f_equal. }
  rewrite list_elem_of_fmap. split.
  - intros (t & Hin & Ht). apply bool_decide_eq_true in Ht. exists t.
    split; [done|]. by apply list_elem_of_In.
  - intros (t & Ht & Hin). exists t. split; [by apply list_elem_of_In|].
    by apply bool_decide_eq_true.
Qed.
End names.

(** *** Decimal suffixes under the ASCII tables *)

Definition is_digit (c : char) : bool := in_range 48 57 c.

Lemma pretty_digits (n : N) : forallb is_digit (text_of (pretty n)) = true.
Proof.
  assert (forall x s, forallb is_digit (text_of s) = true ->
                      forallb is_digit (text_of (pretty_N_go x s)) = true) as Hgo.
  { intros x. induction (N.lt_wf_0 x) as [x _ IH]. intros s Hs.
    destruct (decide (0 < x)%N) as [Hx|Hx].
    - rewrite pretty_N_go_step by done. apply IH; [by apply N.div_lt|].
      unfold text_of in *. cbn. apply andb_true_iff. split; [|done].
      unfold pretty_N_char. repeat case_match; done.
    - replace x with 0%N by lia. by rewrite pretty_N_go_0. }
  unfold pretty, pretty_N. destruct (decide (n = 0)%N); [done|]. by apply Hgo.
Qed.

Lemma trim_start_app l c rest :
  is_whitespace c = false -> trim_start (l ++ c :: rest) = trim_start l ++ c :: rest.
Proof.
  intros Hc. induction l as [|x l IH]; cbn; [by rewrite Hc|]. by destruct (is_whitespace x).
Qed.

Lemma trim_end_snoc l c : is_whitespace c = false -> trim_end (l ++ [c]) = l ++ [c].
Proof.
  intros Hc. unfold trim_end. rewrite reverse_app, reverse_singleton.
  cbn [app trim_start]. rewrite Hc, reverse_cons. by rewrite reverse_involutive.
Qed.

(** Trimming a text that ends in a parenthesised suffix only touches what is
    before the parenthesis. *)
Lemma trim_suffix p d : trim (p ++ 40%N :: d ++ [41%N]) = trim_start p ++ 40%N :: d ++ [41%N].
Proof.
  unfold trim. rewrite trim_start_app by done.
  change (40%N :: d ++ [41%N]) with ((40%N :: d) ++ [41%N]). rewrite app_assoc. by rewrite trim_end_snoc.
Qed.

Lemma ascii_suffix_keys_distinct : suffix_keys_distinct (H := ascii_unicode).
Proof.
  set (fold := fun c => if in_range 65 90 c then (c + 32)%N else c).
  assert (forall base n, comparison_key (H := ascii_unicode) (candidate base n)
    = trim_start (fold <$> trim_start (trim_end base ++ [32%N])) ++ 40%N :: text_of (pretty n) ++ [41%N]) as Hkey.
  { intros base n. unfold comparison_key, candidate. cbn [nfkc fold_case default_ignorable ascii_unicode].
    assert (forall l : text, filter (fun _ => negb false) l = l) as Hfilter.
    { intros l. induction l as [|c l IH]; [done|]. rewrite filter_cons, decide_True by done. by f_equal. }
    rewrite Hfilter. change (text_of " (") with ([32%N] ++ [40%N]). change (text_of ")") with [41%N].
    rewrite <-!app_assoc. rewrite app_assoc. cbn [app]. rewrite trim_suffix.
    rewrite fmap_app, fmap_cons, fmap_app. fold fold.
    assert (fold <$> text_of (pretty n) = text_of (pretty n)) as ->.
    { pose proof (pretty_digits n) as Hd. induction (text_of (pretty n)) as [|c l IH]; [done|].
      cbn [forallb] in Hd. apply andb_true_iff in Hd as [Hc Hl]. rewrite fmap_cons, IH by done. f_equal.
      unfold fold, is_digit, in_range in *. bool_hyps.
      by rewrite (proj2 (N.leb_gt 65 c)) by lia. }
    apply trim_suffix. }
  intros base n m Heq. rewrite !Hkey in Heq. apply app_inv_head in Heq. injection Heq as Heq.
  apply app_inv_tail in Heq. unfold text_of in Heq. apply list_fmap_eq_inj in Heq.
  - apply (inj pretty). apply (f_equal String.string_of_list_ascii) in Heq.
    by rewrite !String.string_of_list_ascii_of_string in Heq.
  - intros a b Hab. apply (f_equal Ascii.ascii_of_N) in Hab. by rewrite !Ascii.ascii_N_embedding in Hab.
Qed.

(** The name found is free in the room. *)
Lemma unique_name_found `{Unicode} r name :
  suffix_keys_distinct -> exists n, unique_participant_name r name = Some n /\ (comparison_key n ∉ occupied r)
    /\ (n = name \/ exists k, (2 <= k)%N /\ n = candidate (take (MAX_PARTICIPANT_NAME_LEN - 6) (trim name)) k).
Proof.
  intros Hd. unfold unique_participant_name. case_bool_decide as Hin; [|by exists name; auto].
  destruct (first_free_total Hd (S (size (occupied r))) (occupied r)
              (take (MAX_PARTICIPANT_NAME_LEN - 6) (trim name)) 2) as [n Hn]; [lia|].
  exists n. destruct (first_free_spec _ _ _ _ _ Hn) as [Hfree Hk]. auto.
Qed.

(** C36: a joiner always gets a name, the name is free in the room (in
    the room's own comparison, members and lobby alike), and it is the
    requested one or the requested one with a number from 2 up. *)
Theorem unique_name_is_free `{Unicode} r name :
  suffix_keys_distinct ->
  exists n, unique_participant_name r name = Some n
    /\ name_in_use r n None = false
    /\ (n = name \/ exists k, (2 <= k)%N
          /\ n = candidate (take (MAX_PARTICIPANT_NAME_LEN - 6) (trim name)) k).
Proof.
  intros Hd. destruct (unique_name_found r name Hd) as (n & Hn & Hfree & Hform). exists n. split_and!; [done| |done].
  rewrite comparison_key_occupied. by apply bool_decide_eq_false.
Qed.

Definition sample_participant (id : participant_id) (name : text) (sender : N) : participant :=
  Participant.mk (social_new id 0) id name sender (100 + id) ∅ User no_sanction true None default_style.

Definition sample_room (ps : list participant) : room :=
  (new_with_observers "lounge" None false None None None)
    <| Room.participants := list_to_map ((fun p => (Participant.id p, p)) <$> ps) |>.

Lemma unique_name_is_free_witness :
  let r := sample_room [sample_participant 1 (text_of "Ann") 1; sample_participant 2 (text_of "ANN (2)") 2] in
  unique_participant_name (H := ascii_unicode) r (text_of "ann") = Some (text_of "ann (3)")
  /\ name_in_use (H := ascii_unicode) r (text_of "ann (3)") None = false.
Proof.
  intros r.
  destruct (unique_name_is_free (H := ascii_unicode) r (text_of "ann") ascii_suffix_keys_distinct)
    as (n & Hn & Hfree & _).
  assert (unique_participant_name (H := ascii_unicode) r (text_of "ann") = Some (text_of "ann (3)")) as He
    by (vm_compute; reflexivity).
  rewrite He in Hn. injection Hn as <-. by split.
Defined.

(** The numbered name is not kept within the limit.  The base
    is cut at 58 characters but the limit of a name is 64 bytes, so a second
    joiner with a 63-byte name of three-byte characters gets 67 bytes. *)
Theorem numbered_name_exceeds_limit :
  let name := repeat 0x6C49%N 21 in
  let r := sample_room [sample_participant 1 name 1] in
  text_len name = 63%N
  /\ exists n, unique_participant_name (H := ascii_unicode) r name = Some n
       /\ text_len n = 67%N.
Proof. split; [reflexivity|]. eexists. split; [vm_compute; reflexivity|]. vm_compute. reflexivity. Qed.

(** ** Lobby *)

(** [lobby_counts]: connected members, and how many of them may admit. *)
Definition lobby_counts (r : room) (w : wire) : N * N :=
  foldl (fun c p =>
           let ps := u32_saturating_add c.1 1 in
           (ps, if can_admit_lobby (Participant.role p) then u32_saturating_add c.2 1 else c.2))
    (0, 0)%N
    (filter (fun p => ParticipantSocial.connected (Participant.social p) = true
                      /\ is_closed w (Participant.sender p) = false) (members r)).

Definition notify_lobby_status (r : room) (w : wire) : wire :=
  if bool_decide (Room.lobby r = ∅) then w
  else
    let '(participant_count, moderator_count) := lobby_counts r w in
    send_each (filter (fun s => is_closed w s = false) (LobbyEntry.sender <$> waiting r))
      (ServerMessage.LobbyStatus participant_count moderator_count) w.

Definition mark_disconnected (id : participant_id) (expected : sender) (r : room) (w : wire)
  : room * wire :=
  match Room.participants r !! id with
  | None => (r, w)
  | Some p =>
      if negb (Participant.sender p =? expected)%N
         || negb (ParticipantSocial.connected (Participant.social p))
      then (r, w)
      else
        let p := p <| Participant.social := (Participant.social p) <| ParticipantSocial.connected := false |> |> in
        let r := r <| Room.participants := <[id := p]> (Room.participants r) |> in
        (r, notify_lobby_status r w)
  end.

(** ** Liveness and bans *)

Definition ensure_live {S} (r : room) : handler failure S unit :=
  if Room.deleting r then anyhow_bail "Room is being deleted" else hret tt.

Definition prune_expired_bans (now : instant) (r : room) : room :=
  let banned := filter (fun b => unexpired now b.2 = true) (Room.banned_participants r) in
  r <| Room.banned_participants := banned |>
    <| Room.banned_guest_ips := filter (fun b => unexpired now b.2 = true) (Room.banned_guest_ips r) |>
    <| Room.banned_guest_participants :=
         filter (fun id => is_Some (banned !! id)) (Room.banned_guest_participants r) |>.

Definition identity_is_banned (r : room) (id : participant_id) (authenticated : bool)
  (ip : option ip_addr) : bool :=
  bool_decide (is_Some (Room.banned_participants r !! id))
  || (negb authenticated
      && is_some_and ip (fun address => bool_decide (is_Some (Room.banned_guest_ips r !! cohort address)))).

(** ** Broadcasts *)

Definition broadcast_except (r : room) (sender_id : participant_id) (m : server_message) (w : wire)
  : wire :=
  foldl (fun w kv => if (kv.1 =? sender_id)%N then w
                     else try_send_broadcast (Participant.sender kv.2) m w)
    w (map_to_list (Room.participants r)).

Definition broadcast_to_role (r : room) (min_role : role) (m : server_message) (w : wire) : wire :=
  foldl (fun w p => if role_ge (Participant.role p) min_role
                    then try_send_broadcast (Participant.sender p) m w else w)
    w (members r).

Definition broadcast_all (r : room) (m : server_message) (w : wire) : wire :=
  foldl (fun w p => try_send_broadcast (Participant.sender p) m w) w (members r).

Definition broadcast_participant_left (r : room) (id : participant_id) (w : wire) : wire :=
  broadcast_departure (Participant.sender <$> members r) (ServerMessage.ParticipantLeft id) w.

Definition policy_snapshot_matches (r : room) (revision : N) : bool :=
  negb (Room.deleting r) && (Room.policy_revision r =? revision)%N.

Definition lobby_admission_state (r : room) (e : lobby_entry) : role * punitive_state :=
  let key := for_identity (LobbyEntry.participant_id e) (LobbyEntry.authenticated e) (LobbyEntry.ip e) in
  (LobbyEntry.role e, merge_punitive_state (LobbyEntry.punitive e) (Room.sanctions r !! key)).

(** ** Cohorts

    Guest sanctions and bans are scoped to the address, so every live guest on
    it moves together. *)

Definition sort_unstable (ids : list participant_id) : list participant_id := merge_sort N.le ids.

(** An unauthenticated identity on the address cohort. *)
Definition guest_on (target_ip : ip_addr) (authenticated : bool) (ip : option ip_addr) : bool :=
  negb authenticated && bool_decide (cohort <$> ip = Some target_ip).

Definition moderation_cohort (r : room) (target_id : participant_id) (moderator_role : role)
  : result failure (list participant_id) :=
  match Room.participants r !! target_id with
  | None => Err (Message "Target participant not found")
  | Some target =>
      let ids :=
        if negb (Participant.authenticated target) then
          match Participant.ip target with
          | Some ip =>
              keys (filter (fun kv => guest_on (cohort ip) (Participant.authenticated kv.2)
                                        (Participant.ip kv.2) = true) (Room.participants r))
          | None => [target_id]
          end
        else [target_id] in
      if existsb (fun id => match Room.participants r !! id with
                            | Some p => negb (can_moderate moderator_role (Participant.role p))
                            | None => true
                            end) ids
      then Err (Message "Insufficient permissions to moderate this participant")
      else Ok (sort_unstable ids)
  end.

Definition guest_ip_lobby_cohort (r : room) (target_authenticated : bool)
  (target_ip : option ip_addr) (moderator_role : role) : result failure (list participant_id) :=
  if target_authenticated then Ok []
  else match target_ip with
       | None => Ok []
       | Some ip =>
           let ids := keys (filter (fun kv => guest_on (cohort ip) (LobbyEntry.authenticated kv.2)
                                                (LobbyEntry.ip kv.2) = true) (Room.lobby r)) in
           if existsb (fun id => match Room.lobby r !! id with
                                 | Some e => negb (can_moderate moderator_role (LobbyEntry.role e))
                                 | None => true
                                 end) ids
           then Err (Message "Insufficient permissions to moderate this participant")
           else Ok (sort_unstable ids)
       end.

Definition punitive_cohort_matches (r : room) (participant_ids lobby_ids : list participant_id)
  (key : sanction_key) (kind : punitive_kind) (enabled : bool) : bool :=
  let stored := match Room.sanctions r !! key with
                | Some p => punitive_value p kind
                | None => false
                end in
  eqb stored enabled
  && forallb (fun id => is_some_and (Room.participants r !! id)
                          (fun p => eqb (punitive_value (Participant.punitive p) kind) enabled))
       participant_ids
  && forallb (fun id => is_some_and (Room.lobby r !! id)
                          (fun e => eqb (punitive_value (LobbyEntry.punitive e) kind) enabled))
       lobby_ids.

(** The union of the restrictions the cohort is under. *)
Definition cohort_union (r : room) (participant_ids lobby_ids : list participant_id)
  (key : sanction_key) : punitive_state :=
  let stored := default no_sanction (Room.sanctions r !! key) in
  let with_members := foldl (fun s id => merge_punitive_state s (Participant.punitive <$> Room.participants r !! id))
                        stored participant_ids in
  foldl (fun s id => merge_punitive_state s (LobbyEntry.punitive <$> Room.lobby r !! id))
    with_members lobby_ids.

Definition set_members_punitive (s : punitive_state) (ids : list participant_id)
  (m : gmap participant_id participant) : gmap participant_id participant :=
  foldl (fun m id => alter (fun p => p <| Participant.punitive := s |>) id m) m ids.

Definition set_lobby_punitive (s : punitive_state) (ids : list participant_id)
  (m : gmap participant_id lobby_entry) : gmap participant_id lobby_entry :=
  foldl (fun m id => alter (fun e => e <| LobbyEntry.punitive := s |>) id m) m ids.

Definition apply_punitive_to_cohort (r : room) (participant_ids lobby_ids : list participant_id)
  (key : sanction_key) (kind : punitive_kind) (enabled : bool) : room * punitive_state :=
  let s := set_punitive (cohort_union r participant_ids lobby_ids key) kind enabled in
  (r <| Room.participants ::= set_members_punitive s participant_ids |>
     <| Room.lobby ::= set_lobby_punitive s lobby_ids |>
     <| Room.sanctions ::= if bool_decide (s = no_sanction) then delete key else <[key := s]> |>, s).

Definition record_banned_cohort (r : room) (ids : list participant_id) (target_authenticated : bool)
  (target_ip : option ip_addr) (runtime_expiry : option instant) : room :=
  let r := r <| Room.banned_participants ::= fun m => foldl (fun m id => <[id := runtime_expiry]> m) m ids |> in
  if target_authenticated then r
  else
    let r := r <| Room.banned_guest_participants ::= fun s => s ∪ list_to_set ids |> in
    match target_ip with
    | Some address => r <| Room.banned_guest_ips ::= <[cohort address := runtime_expiry]> |>
    | None => r
    end.

(** ** Join reservations *)

(** [PendingRoomJoin::complete_locked]; an underflow is only logged. *)
Definition complete_locked (r : room) : room :=
  r <| Room.pending_joins ::= fun n => if (n =? 0)%N then n else (n - 1)%N |>.

(** [release_join_reservation]: whether the room may be torn down. *)
Definition release_join_reservation (r : room) : room * bool :=
  if (Room.pending_joins r =? 0)%N then (r, false)
  else
    let r := r <| Room.pending_joins ::= fun n => (n - 1)%N |> in
    (r, negb (Room.deleting r) && (Room.pending_joins r =? 0)%N
        && bool_decide (Room.participants r = ∅) && bool_decide (Room.lobby r = ∅)).

(** ** Authority of a connection *)

Definition participant_for_sender (r : room) (id : participant_id) (expected : sender)
  : result failure participant :=
  if Room.deleting r then Err (Message "Room is being deleted")
  else match Room.participants r !! id with
       | None => Err (Message "Participant is not an active member of this room")
       | Some p =>
           if negb (Participant.sender p =? expected)%N
           then Err (Message "This connection no longer owns the participant session")
           else Ok p
       end.

Definition participant_session_is_current (r : room) (id : participant_id) (expected : sender)
  (media_session_id : N) : bool :=
  negb (Room.deleting r)
  && is_some_and (Room.participants r !! id) (fun p =>
       (Participant.media_session_id p =? media_session_id)%N && (Participant.sender p =? expected)%N).

(** [set_topic]'s commit: the topic alone changes, or comes with defaults that
    restrict nothing. *)
Definition with_topic (room_id : string) (topic : text) (r : room) : room :=
  r <| Room.settings :=
         Some ((default (defaults room_id) (Room.settings r)) <| RoomSettings.topic := Some topic |>) |>.
