(* ===== verification/Media.v ===== *)
(** * Broadcast authority ([src/src/room/manager/media_ops.rs])

    Who may publish which media under a room's policy, the broadcaster limit,
    and the revocation that follows a policy change. *)

From S2P Require Import Prelude Refusal Roles Settings Protocol Moderation Wire Social Room.

Definition valid_media_source (kind : media_kind) (source : string) : bool :=
  match kind with
  | Audio => String.eqb source "microphone" || String.eqb source "screen-audio"
  | Video => String.eqb source "camera" || String.eqb source "screen"
  end.

Definition producer_allowed_without_capacity (r : room) (p : participant) (kind : media_kind)
  (source : string) : bool :=
  if negb (valid_media_source kind source) then false
  else if is_some_and (Room.settings r) (fun s =>
            (bool_decide (Participant.role p = Guest) && negb (RoomSettings.guests_can_broadcast s))
            || (negb (RoomSettings.allow_screen_sharing s)
                && (String.eqb source "screen" || String.eqb source "screen-audio"))
            || (negb (RoomSettings.allow_video s) && bool_decide (kind = Video)
                && String.eqb source "camera"))
  then false
  else
    let moderated := is_some_and (Room.settings r) RoomSettings.moderated in
    can_produce (Participant.punitive p) (Participant.role p) moderated kind.

(** [usize::try_from(maximum).unwrap_or(0)]. *)
Definition limit_of_i32 (maximum : Z) : N := Z.to_N maximum.

Definition broadcaster_limit (r : room) : option N :=
  let own := limit_of_i32 <$> (s ← Room.settings r; RoomSettings.max_broadcasters s) in
  match own, Room.broadcaster_ceiling r with
  | Some own, Some ceiling => Some (N.min own ceiling)
  | Some own, None => Some own
  | None, ceiling => ceiling
  end.

(** Members with at least one producer. *)
Definition broadcaster_count (r : room) : N :=
  N.of_nat (length (filter (fun p => Participant.producers p <> ∅) (members r))).

Definition participant_can_produce (r : room) (p : participant) (kind : media_kind) (source : string)
  : bool :=
  if negb (producer_allowed_without_capacity r p kind source) then false
  else match broadcaster_limit r with
       | Some max =>
           negb (bool_decide (Participant.producers p = ∅) && (max <=? broadcaster_count r)%N)
       | None => true
       end.

(** A room in which [id] also publishes [producer]. *)
Definition with_producer (id : participant_id) (p : participant) (producer : producer_id)
  (rec : producer_record) (r : room) : room :=
  r <| Room.participants ::= <[id := p <| Participant.producers ::= <[producer := rec]> |>]> |>
    <| Room.producer_to_participant ::= <[producer := id]> |>.

(** [record_producer_paused]: only the pause mark of one record changes. *)
Definition record_producer_paused (r : room) (id : participant_id) (producer : producer_id) (is_paused : bool)
  : room :=
  r <| Room.participants ::=
         alter (fun p => p <| Participant.producers ::= alter (fun rec => rec <| paused := is_paused |>) producer |>)
           id |>.

(** ** Revocation *)

(** Whether a record satisfies the policy. *)
Definition record_allowed (r : room) (p : participant) (rec : producer_record) : bool :=
  is_some_and (producer_source rec)
    (fun source => producer_allowed_without_capacity r p (producer_kind rec) source).

Definition broadcaster_candidate (r : room) (p : participant) : bool :=
  existsb (record_allowed r p) (values (Participant.producers p)).

(** Higher roles first, then the smaller identifier. *)
Definition candidate_le (a b : participant_id * role) : Prop :=
  (role_number b.2 < role_number a.2)%N \/ (role_number b.2 = role_number a.2 /\ (a.1 <= b.1)%N).
#[export] Instance candidate_le_dec a b : Decision (candidate_le a b).
Proof. unfold candidate_le. solve_decision. Defined.

Definition broadcaster_candidates (r : room) : list (participant_id * role) :=
  merge_sort candidate_le
    ((fun p => (Participant.id p, Participant.role p))
     <$> filter (fun p => broadcaster_candidate r p = true) (members r)).

Definition over_capacity (r : room) : list participant_id :=
  match broadcaster_limit r with
  | Some maximum => fst <$> drop (N.to_nat maximum) (broadcaster_candidates r)
  | None => []
  end.

Definition revoked_of (r : room) (over : list participant_id) (p : participant)
  : list revoked_producer :=
  omap (fun kv : producer_id * producer_record =>
          if negb (record_allowed r p kv.2) || bool_decide (Participant.id p ∈ over)
          then Some (RevokedProducer (Participant.id p) (Participant.media_session_id p) kv.1
                       (producer_kind kv.2))
          else None)
    (map_to_list (Participant.producers p)).

Definition matches_filter (participant_filter : option participant_id) (p : participant) : bool :=
  match participant_filter with None => true | Some id => (Participant.id p =? id)%N end.

(** Drop one producer from the books and tell everyone. *)
Definition revoke_one (reason : string) (rw : room * wire) (v : revoked_producer) : room * wire :=
  let '(r, w) := rw in
  let r := match Room.participants r !! revoked_participant_id v with
           | Some p => r <| Room.participants :=
                              <[revoked_participant_id v :=
                                  p <| Participant.producers ::= delete (revoked_producer_id v) |>]>
                                (Room.participants r) |>
           | None => r
           end in
  let r := r <| Room.producer_to_participant ::= delete (revoked_producer_id v) |> in
  let w := broadcast_all r (ServerMessage.ForceClosedProducer (revoked_producer_id v) reason) w in
  (r, broadcast_all r (ServerMessage.ProducerClosed (revoked_producer_id v)) w).

Definition revoke_unauthorized_producers (participant_filter : option participant_id)
  (reason : string) (r : room) (w : wire) : room * wire * list revoked_producer :=
  let over := over_capacity r in
  let revoked := concat (revoked_of r over
                         <$> filter (fun p => matches_filter participant_filter p = true) (members r)) in
  (foldl (revoke_one reason) (r, w) revoked, revoked).

(** ** Authority depends on policy, role and sanctions only *)

Lemma allowed_ext r r' p p' kind source :
  Room.settings r' = Room.settings r -> Participant.role p' = Participant.role p ->
  Participant.punitive p' = Participant.punitive p ->
  producer_allowed_without_capacity r' p' kind source = producer_allowed_without_capacity r p kind source.
Proof. unfold producer_allowed_without_capacity. by intros -> -> ->. Qed.

Lemma record_allowed_ext r r' p p' rec :
  Room.settings r' = Room.settings r -> Participant.role p' = Participant.role p ->
  Participant.punitive p' = Participant.punitive p ->
  record_allowed r' p' rec = record_allowed r p rec.
Proof.
  intros H1 H2 H3. unfold record_allowed. destruct (producer_source rec); [|done]. by apply allowed_ext.
Qed.

Lemma broadcaster_limit_ext r r' :
  Room.settings r' = Room.settings r -> Room.broadcaster_ceiling r' = Room.broadcaster_ceiling r ->
  broadcaster_limit r' = broadcaster_limit r.
Proof. unfold broadcaster_limit. by intros -> ->. Qed.
