(* ===== verification/Publication.v ===== *)
(** * Publishing moderation decisions ([src/src/room/publication.rs])

    What a moderation decision changes in a live room once it is authorized
    and saved.  Each operation is a function of the room and the wire; what it
    returns is closed by the caller after the room lock is released. *)

From S2P Require Import Prelude Refusal Net Roles Protocol Moderation Wire Social Room Media.

Module SanctionPublication.
Record sanction_publication := mk {
  target : participant_id;
  participants : list participant_id;
  lobby : list participant_id;
  authenticated : bool;
  ip : option ip_addr;
  kind : punitive_kind;
  enabled : bool
}.
End SanctionPublication.
Abbreviation sanction_publication := SanctionPublication.sanction_publication.

Module RemovalPublication.
Record removal_publication := mk {
  ban : bool;
  participants : list participant_id;
  lobby : list participant_id;
  authenticated : bool;
  ip : option ip_addr;
  name : text;
  reason : option text;
  duration_seconds : option N
}.
End RemovalPublication.
Abbreviation removal_publication := RemovalPublication.removal_publication.

Record removed_session := RemovedSession {
  removed_participant_id : participant_id; removed_media_session_id : N }.

(** Tell a lobby entry, when it is still there. *)
Definition notify_waiting (r : room) (m : server_message) (w : wire) (id : participant_id) : wire :=
  match Room.lobby r !! id with
  | Some e => (try_send_essential w (LobbyEntry.sender e) m).1
  | None => w
  end.

(** Revoke what each of [ids] may no longer publish. *)
Fixpoint revoke_each (reason : string) (ids : list participant_id) (r : room) (w : wire)
  : room * wire * list revoked_producer :=
  match ids with
  | [] => (r, w, [])
  | id :: ids =>
      let '(r, w, revoked) := revoke_unauthorized_producers (Some id) reason r w in
      let '(r, w, more) := revoke_each reason ids r w in
      (r, w, revoked ++ more)
  end.

Definition publish_sanction (p : sanction_publication) (r : room) (w : wire)
  : room * wire * list revoked_producer :=
  let notice := punitive_notification (SanctionPublication.kind p) (SanctionPublication.enabled p) in
  let key := for_identity (SanctionPublication.target p) (SanctionPublication.authenticated p)
               (SanctionPublication.ip p) in
  let r := (apply_punitive_to_cohort r (SanctionPublication.participants p)
              (SanctionPublication.lobby p) key (SanctionPublication.kind p)
              (SanctionPublication.enabled p)).1 in
  let w := foldl (fun w id => broadcast_all r (notice id) w) w (SanctionPublication.participants p) in
  let w := foldl (fun w id => notify_waiting r (notice id) w id) w (SanctionPublication.lobby p) in
  let '(r, w, revoked) :=
    if bool_decide (SanctionPublication.kind p = CamBanned) && SanctionPublication.enabled p
    then revoke_each "Camera access revoked by moderator" (SanctionPublication.participants p) r w
    else (r, w, []) in
  let r := bump_policy r in
  (r, notify_lobby_status r w, revoked).

(** Remember a ban: the live keys and the entry moderators list. *)
Definition remember_ban (fresh : N) (now : instant) (wall : timestamp) (p : removal_publication)
  (r : room) : room :=
  let ids := RemovalPublication.participants p ++ RemovalPublication.lobby p in
  let runtime_expiry := secs ← RemovalPublication.duration_seconds p;
                        instant_checked_add now (from_secs secs) in
  let r := record_banned_cohort r ids (RemovalPublication.authenticated p)
             (RemovalPublication.ip p) runtime_expiry in
  r <| Room.social := record_ban fresh now wall (Room.social r) (RemovalPublication.name p)
                        (RemovalPublication.authenticated p) ids (RemovalPublication.ip p)
                        (RemovalPublication.reason p) (RemovalPublication.duration_seconds p) |>.

(** Forget every producer of a departed member. *)
Definition unindex (p : participant) (index : gmap producer_id participant_id)
  : gmap producer_id participant_id :=
  foldl (fun index id => delete id index) index (keys (Participant.producers p)).

(** One removed member: everyone hears of it, the member too. *)
Definition remove_member (notice : participant_id -> server_message)
  (s : room * wire * list removed_session) (id : participant_id)
  : room * wire * list removed_session :=
  let '(r, w, sessions) := s in
  let w := broadcast_all r (notice id) w in
  match Room.participants r !! id with
  | Some p =>
      let r := r <| Room.participants ::= delete id |>
                 <| Room.producer_to_participant ::= unindex p |> in
      (r, broadcast_participant_left r id w,
       sessions ++ [RemovedSession id (Participant.media_session_id p)])
  | None => (r, w, sessions)
  end.

Definition remove_waiting (notice : server_message) (s : room * wire) (id : participant_id)
  : room * wire :=
  let '(r, w) := s in
  match Room.lobby r !! id with
  | Some e => (r <| Room.lobby ::= delete id |>, (try_send_essential w (LobbyEntry.sender e) notice).1)
  | None => (r, w)
  end.

Definition publish_removal (fresh : N) (now : instant) (wall : timestamp) (p : removal_publication)
  (r : room) (w : wire) : room * wire * list removed_session :=
  let reason := RemovalPublication.reason p in
  let r := if RemovalPublication.ban p then remember_ban fresh now wall p r else r in
  let notice id := if RemovalPublication.ban p then ServerMessage.ParticipantBanned id reason
                   else ServerMessage.ParticipantKicked id reason in
  let '(r, w, sessions) := foldl (remove_member notice) (r, w, []) (RemovalPublication.participants p) in
  let denied := ServerMessage.LobbyDenied (Some (default (text_of "Banned from room") reason)) in
  let '(r, w) := if RemovalPublication.ban p
                 then foldl (remove_waiting denied) (r, w) (RemovalPublication.lobby p)
                 else (r, w) in
  let r := bump_policy r in
  (r, notify_lobby_status r w, sessions).

Definition publish_role (target : participant_id) (new_role : role) (granted_by : participant_id)
  (r : room) (w : wire) : room * wire * list revoked_producer :=
  let r := r <| Room.participants ::= alter (fun p => p <| Participant.role := new_role |>) target |>
             <| Room.lobby ::= alter (fun e => e <| LobbyEntry.role := new_role |>) target |> in
  let w := notify_lobby_status r w in
  let r := bump_policy r in
  let '(r, w, revoked) :=
    revoke_unauthorized_producers (Some target) "Role no longer permits this producer" r w in
  (r, broadcast_all r (ServerMessage.RoleChanged target new_role granted_by) w, revoked).

Definition publish_unban (user : option participant_id) (guest_ip : option ip_addr)
  (released : list participant_id) (r : room) : room :=
  let '(social, forgotten) := forget_ban (Room.social r) user guest_ip in
  let affected := released ++ forgotten in
  let r := r <| Room.social := social |> in
  let r := match user with
           | Some user => r <| Room.banned_participants ::= delete user |>
           | None => r
           end in
  let r := match guest_ip with
           | Some ip => r <| Room.banned_guest_ips ::= delete ip |>
           | None => r
           end in
  let r := foldl (fun r id => r <| Room.banned_participants ::= delete id |>
                                <| Room.banned_guest_participants ::= fun s => s ∖ {[id]} |>)
             r affected in
  bump_policy r.
