(* ===== verification/RoomInv.v ===== *)
(** * The room invariant

    What holds of every room between two critical sections, and that each
    mutation of [Media.v] and [Publication.v] keeps it. *)

From S2P Require Import Prelude Refusal Net Roles Settings Protocol Moderation Wire Social Room Media Publication.

#[local] Arguments can_produce : simpl never.

(** ** Identities *)

Definition member_key (p : participant) : sanction_key :=
  for_identity (Participant.id p) (Participant.authenticated p) (Participant.ip p).
Definition waiting_key (e : lobby_entry) : sanction_key :=
  for_identity (LobbyEntry.participant_id e) (LobbyEntry.authenticated e) (LobbyEntry.ip e).

Definition sanction_of (r : room) (key : sanction_key) : punitive_state :=
  default no_sanction (Room.sanctions r !! key).

(** What room settings and role allow, sanctions aside. *)
Definition policy_allows (r : room) (p : participant) (rec : producer_record) : bool :=
  record_allowed r (p <| Participant.punitive := no_sanction |>) rec.

(** Members that publish. *)
Definition broadcasters (r : room) : gset participant_id :=
  dom (filter (fun kv => Participant.producers kv.2 <> ∅) (Room.participants r)).

(** The ownership index is exact. *)
Definition index_exact (r : room) : Prop := forall producer id,
  Room.producer_to_participant r !! producer = Some id
  <-> exists p, Room.participants r !! id = Some p /\ is_Some (Participant.producers p !! producer).

(** Who is present, under which identity. *)
Record room_struct (r : room) : Prop := {
  ok_members : forall id p, Room.participants r !! id = Some p -> Participant.id p = id;
  ok_lobby : forall id e, Room.lobby r !! id = Some e -> LobbyEntry.participant_id e = id;
  ok_apart : forall id, is_Some (Room.participants r !! id) -> Room.lobby r !! id = None;
  ok_index : index_exact r;
  (** Nobody present is banned. *)
  ok_member_bans : forall id p, Room.participants r !! id = Some p ->
    identity_is_banned r id (Participant.authenticated p) (Participant.ip p) = false;
  ok_lobby_bans : forall id e, Room.lobby r !! id = Some e ->
    identity_is_banned r id (LobbyEntry.authenticated e) (LobbyEntry.ip e) = false;
  (** In a room without a database row everyone is under exactly the sanction
      their identity is remembered with. *)
  ok_member_sanctions : Room.persisted r = false -> forall id p,
    Room.participants r !! id = Some p -> Participant.punitive p = sanction_of r (member_key p);
  ok_lobby_sanctions : Room.persisted r = false -> forall id e,
    Room.lobby r !! id = Some e -> LobbyEntry.punitive e = sanction_of r (waiting_key e)
}.

(** A published stream the policy in force permits: always by the settings
    and the role, and in a room without a database row by the camera ban too. *)
Definition permitted (r : room) (p : participant) (rec : producer_record) : Prop :=
  policy_allows r p rec = true /\ (Room.persisted r = false -> record_allowed r p rec = true).

(** What is published is permitted and within the broadcaster limit. *)
Record room_auth (r : room) : Prop := {
  ok_permitted : forall id p producer rec,
    Room.participants r !! id = Some p -> Participant.producers p !! producer = Some rec ->
    permitted r p rec;
  ok_limit : forall maximum, broadcaster_limit r = Some maximum -> (broadcaster_count r <= maximum)%N
}.

Record room_ok (r : room) : Prop := { ok_struct : room_struct r; ok_auth : room_auth r }.

(** ** Frames *)

(** The fields the invariant reads. *)
Definition core (r : room) :=
  (Room.participants r, Room.lobby r, Room.producer_to_participant r, Room.settings r,
   Room.broadcaster_ceiling r, Room.persisted r, Room.banned_participants r,
   Room.banned_guest_ips r, Room.sanctions r).

Lemma fmap_sublist {A B} (f : A -> B) l k : l `sublist_of` k -> (f <$> l) `sublist_of` (f <$> k).
Proof. induction 1; cbn; by constructor. Qed.

Lemma length_filter_values {K A} `{Countable K} (P : A -> Prop) `{!forall x, Decision (P x)} (m : gmap K A) :
  length (filter P (values m)) = size (filter (fun kv => P kv.2) m).
Proof.
  rewrite map_filter_alt, map_size_list_to_map.
  - unfold values. induction (map_to_list m) as [|[k x] l IH]; [done|].
    rewrite fmap_cons, !filter_cons. cbn. destruct (decide (P x)); cbn; by rewrite IH.
  - eapply sublist_NoDup; [apply (NoDup_fst_map_to_list m)|]. apply fmap_sublist, sublist_filter.
Qed.

Lemma broadcaster_count_size r : broadcaster_count r = N.of_nat (size (broadcasters r)).
Proof.
  unfold broadcaster_count, broadcasters, members. by rewrite length_filter_values, size_dom.
Qed.

Lemma elem_of_broadcasters r id :
  id ∈ broadcasters r <-> exists p, Room.participants r !! id = Some p /\ Participant.producers p <> ∅.
Proof.
  unfold broadcasters. rewrite elem_of_dom. split.
  - intros [p Hp]. apply map_lookup_filter_Some in Hp. by exists p.
  - intros (p & Hp & Hne). exists p. by apply map_lookup_filter_Some.
Qed.

Lemma permitted_ext r r' p p' rec :
  Room.settings r' = Room.settings r -> Room.persisted r' = Room.persisted r ->
  Participant.role p' = Participant.role p -> Participant.punitive p' = Participant.punitive p ->
  permitted r p rec -> permitted r' p' rec.
Proof.
  intros H1 H2 H3 H4 [Hp Hc]. split.
  - unfold policy_allows in *. rewrite <-Hp. by apply record_allowed_ext.
  - rewrite H2. intros Hper. rewrite <-(Hc Hper). by apply record_allowed_ext.
Qed.

Lemma room_ok_core r r' : core r' = core r -> room_ok r -> room_ok r'.
Proof.
  intros Hc [[H1 H2 H3 H4 H5 H6 H7 H8] [H9 H10]]. unfold core in Hc.
  injection Hc as E1 E2 E3 E4 E5 E6 E7 E8 E9.
  assert (forall id a ip, identity_is_banned r' id a ip = identity_is_banned r id a ip) as Hb
    by (intros; unfold identity_is_banned; by rewrite E7, E8).
  assert (forall k, sanction_of r' k = sanction_of r k) as Hs by (intros; unfold sanction_of; by rewrite E9).
  split; split; rewrite ?E1, ?E2, ?E6; try done.
  - unfold index_exact. by rewrite E1, E3.
  - intros. rewrite Hb. by eapply H5.
  - intros. rewrite Hb. by eapply H6.
  - intros. rewrite Hs. by eapply H7.
  - intros. rewrite Hs. by eapply H8.
  - intros. eapply permitted_ext; [..|by eapply H9]; done.
  - intros m Hm. rewrite (broadcaster_limit_ext r) in Hm by done.
    unfold broadcaster_count, members. rewrite E1. by apply H10.
Qed.

(** ** Dropping producers *)

Definition strip (keep : producer_id -> bool) (p : participant) : participant :=
  p <| Participant.producers ::= filter (fun kv => keep kv.1 = true) |>.

(** The room with only the producers [keep] holds of. *)
Definition prune (keep : producer_id -> bool) (r : room) : room :=
  r <| Room.participants ::= fmap (strip keep) |>
    <| Room.producer_to_participant ::= filter (fun kv => keep kv.1 = true) |>.

Lemma lookup_prune keep r id p' :
  Room.participants (prune keep r) !! id = Some p' <->
  exists p, Room.participants r !! id = Some p /\ p' = strip keep p.
Proof. cbn. rewrite lookup_fmap_Some. split; intros (p & ? & ?); exists p; by split. Qed.

Lemma broadcasters_prune keep r : broadcasters (prune keep r) ⊆ broadcasters r.
Proof.
  intros id. rewrite !elem_of_broadcasters. intros (p' & (p & Hp & ->)%lookup_prune & Hne).
  exists p. split; [done|]. intros He. apply Hne. cbn. by rewrite He, map_filter_empty.
Qed.

Lemma prune_index_exact keep r : index_exact r -> index_exact (prune keep r).
Proof.
  unfold index_exact. intros H4 producer id. cbn. rewrite map_lookup_filter_Some, H4. split.
  - intros [(p & Hp & rec & Hrec) Hk]. exists (strip keep p). split; [by rewrite lookup_fmap, Hp|].
    exists rec. by apply map_lookup_filter_Some.
  - intros (p' & (p & Hp & ->)%lookup_prune & rec & [Hrec Hk]%map_lookup_filter_Some). eauto.
Qed.

Lemma prune_struct keep r : room_struct r -> room_struct (prune keep r).
Proof.
  intros [H1 H2 H3 H4 H5 H6 H7 H8]. split; try done.
  - intros id p' (p & Hp & ->)%lookup_prune. exact (H1 id p Hp).
  - intros id [p' (p & Hp & ->)%lookup_prune]. cbn. by apply H3.
  - by apply prune_index_exact.
  - intros id p' (p & Hp & ->)%lookup_prune. exact (H5 id p Hp).
  - intros Hper id p' (p & Hp & ->)%lookup_prune. exact (H7 Hper id p Hp).
Qed.

Lemma prune_limit keep r maximum :
  (broadcaster_count r <= maximum)%N -> (broadcaster_count (prune keep r) <= maximum)%N.
Proof.
  rewrite !broadcaster_count_size. pose proof (subseteq_size _ _ (broadcasters_prune keep r)). lia.
Qed.

Lemma prune_ok keep r : room_ok r -> room_ok (prune keep r).
Proof.
  intros [Hs [H9 H10]]. split; [by apply prune_struct|]. split.
  - intros id p' producer rec (p & Hp & ->)%lookup_prune [Hrec _]%map_lookup_filter_Some.
    eapply permitted_ext; [..|exact (H9 id p producer rec Hp Hrec)]; done.
  - intros m Hm. by apply prune_limit, H10.
Qed.

Lemma prune_ext keep keep' r : (forall pr, keep pr = keep' pr) -> prune keep r = prune keep' r.
Proof.
  intros He. unfold prune, strip. cbn.
  assert (forall A (m : gmap producer_id A), filter (fun kv => keep kv.1 = true) m
                                    = filter (fun kv => keep' kv.1 = true) m) as Hf.
  { intros A m. apply map_filter_ext. intros i x _. cbn. by rewrite He. }
  f_equal; [|apply Hf]. apply map_fmap_ext. intros i p _. cbn. by rewrite Hf.
Qed.

Lemma prune_prune k1 k2 r : prune k2 (prune k1 r) = prune (fun pr => k1 pr && k2 pr) r.
Proof.
  assert (forall A (m : gmap producer_id A),
    filter (fun kv => k2 kv.1 = true) (filter (fun kv => k1 kv.1 = true) m)
    = filter (fun kv => k1 kv.1 && k2 kv.1 = true) m) as Hf.
  { intros A m. rewrite map_filter_filter. apply map_filter_ext. intros i x _. cbn.
    rewrite andb_true_iff. intuition. }
  unfold prune. cbn. f_equal; [|apply Hf].
  rewrite <-map_fmap_compose. apply map_fmap_ext. intros i p _. cbn. unfold strip. cbn. by rewrite Hf.
Qed.

(** A producer no one but [v]'s owner can hold. *)
Definition weakly_owned (r : room) (v : revoked_producer) : Prop :=
  forall owner, Room.producer_to_participant r !! revoked_producer_id v = Some owner ->
                owner = revoked_participant_id v.

Lemma strip_id keep p :
  (forall pr, is_Some (Participant.producers p !! pr) -> keep pr = true) -> strip keep p = p.
Proof.
  intros Hk. unfold strip. destruct p; cbn in *. f_equal. apply map_filter_id. intros i x Hi. by apply Hk.
Qed.

Lemma delete_as_filter {A} (pid : producer_id) (m : gmap producer_id A) :
  delete pid m = filter (fun kv => bool_decide (kv.1 <> pid) = true) m.
Proof.
  apply map_eq. intros i. destruct (decide (i = pid)) as [->|Hne].
  - rewrite lookup_delete_eq. symmetry. apply map_lookup_filter_None_2. right. intros x _ Hx.
    by apply bool_decide_eq_true in Hx.
  - rewrite lookup_delete_ne by done. destruct (m !! i) eqn:E; symmetry.
    + apply map_lookup_filter_Some. split; [done|]. by apply bool_decide_eq_true.
    + apply map_lookup_filter_None_2. by left.
Qed.

Lemma revoke_one_prune reason r w v :
  index_exact r -> weakly_owned r v ->
  (revoke_one reason (r, w) v).1 = prune (fun pr => bool_decide (pr <> revoked_producer_id v)) r.
Proof.
  intros Hidx Hown. set (keep := fun pr => bool_decide (pr <> revoked_producer_id v)).
  assert (forall id q, Room.participants r !! id = Some q -> id <> revoked_participant_id v ->
                       strip keep q = q) as Hother.
  { intros id q Hq Hne. apply strip_id. intros pr Hpr. apply bool_decide_eq_true. intros ->.
    apply Hne, Hown, Hidx. eauto. }
  unfold revoke_one, prune. cbn [fst].
  assert (forall m : gmap producer_id participant_id, delete (revoked_producer_id v) m
    = filter (fun kv => keep kv.1 = true) m) as Hdel by (intros; apply delete_as_filter).
  destruct (Room.participants r !! revoked_participant_id v) as [p|] eqn:Ep; cbn; f_equal; try apply Hdel.
  - apply map_eq. intros id. rewrite lookup_fmap. destruct (decide (id = revoked_participant_id v)) as [->|Hne].
    + rewrite lookup_insert_eq, Ep. cbn. f_equal. unfold strip. destruct p; cbn. f_equal. apply delete_as_filter.
    + rewrite lookup_insert_ne by done. destruct (Room.participants r !! id) as [q|] eqn:Eq; [|done].
      cbn. by rewrite (Hother id q).
  - apply map_eq. intros id. rewrite lookup_fmap. destruct (Room.participants r !! id) as [q|] eqn:Eq; [|done].
    cbn. rewrite (Hother id q); [done|done|]. intros ->. by rewrite Ep in Eq.
Qed.

Lemma prune_all keep r : (forall pr, keep pr = true) -> prune keep r = r.
Proof.
  intros Hk. unfold prune. destruct r as [? ? ps]. cbn. f_equal.
  - apply map_eq. intros i. rewrite lookup_fmap. destruct (ps !! i); cbn; [|done].
    rewrite strip_id; [done|]. intros. apply Hk.
  - apply map_filter_id. intros. apply Hk.
Qed.

Definition revoked_ids (vs : list revoked_producer) : list producer_id := revoked_producer_id <$> vs.

Lemma revoke_fold_prune reason vs r w :
  index_exact r -> Forall (weakly_owned r) vs ->
  (foldl (revoke_one reason) (r, w) vs).1 = prune (fun pr => bool_decide (pr ∉ revoked_ids vs)) r.
Proof.
  revert r w. induction vs as [|v vs IH]; intros r w Hidx Hown; cbn [foldl].
  - cbn. by rewrite prune_all.
  - apply Forall_cons in Hown as [Hv Hvs]. pose proof (revoke_one_prune reason r w v Hidx Hv) as Hone.
    destruct (revoke_one reason (r, w) v) as [r1 w1]. cbn in Hone. subst r1. rewrite IH.
    + rewrite prune_prune. apply prune_ext. intros pr. apply Bool.eq_iff_eq_true.
      rewrite andb_true_iff, !bool_decide_eq_true. cbn. rewrite not_elem_of_cons. intuition.
    + by apply prune_index_exact.
    + eapply Forall_impl; [done|]. intros v' Hv' owner. cbn.
      rewrite map_lookup_filter_Some. intros [Ho _]. by apply Hv'.
Qed.

(** ** Revocation *)

Definition revoked_list (f : option participant_id) (r : room) : list revoked_producer :=
  concat (revoked_of r (over_capacity r) <$> filter (fun p => matches_filter f p = true) (members r)).

Definition kept (f : option participant_id) (r : room) (producer : producer_id) : bool :=
  bool_decide (producer ∉ revoked_ids (revoked_list f r)).

Lemma elem_of_members r p : p ∈ members r <-> exists id, Room.participants r !! id = Some p.
Proof.
  unfold members, values. rewrite list_elem_of_fmap. split.
  - intros ([id q] & -> & Hin%elem_of_map_to_list). by exists id.
  - intros [id Hp]. exists (id, p). split; [done|]. by apply elem_of_map_to_list.
Qed.

Lemma elem_of_revoked_list f r v :
  v ∈ revoked_list f r <-> exists id p producer rec,
    Room.participants r !! id = Some p /\ matches_filter f p = true
    /\ Participant.producers p !! producer = Some rec
    /\ (record_allowed r p rec = false \/ Participant.id p ∈ over_capacity r)
    /\ v = RevokedProducer (Participant.id p) (Participant.media_session_id p) producer (producer_kind rec).
Proof.
  unfold revoked_list. rewrite list_elem_of_In, in_concat. split.
  - intros (l & Hl%list_elem_of_In & Hv%list_elem_of_In). apply list_elem_of_fmap in Hl as (p & -> & Hp).
    apply list_elem_of_filter in Hp as [Hf [id Hp]%elem_of_members].
    apply list_elem_of_omap in Hv as ([producer rec] & Hin%elem_of_map_to_list & Hv). cbn in Hv.
    destruct (negb (record_allowed r p rec)) eqn:Ea; cbn in Hv.
    + injection Hv as <-. exists id, p, producer, rec. apply negb_true_iff in Ea. eauto 10.
    + case_bool_decide; [|done]. injection Hv as <-. exists id, p, producer, rec. eauto 10.
  - intros (id & p & producer & rec & Hp & Hf & Hrec & Hbad & ->).
    exists (revoked_of r (over_capacity r) p). rewrite <-!list_elem_of_In. split.
    + apply list_elem_of_fmap_2, list_elem_of_filter. split; [done|]. apply elem_of_members. by exists id.
    + apply list_elem_of_omap. exists (producer, rec). split; [by apply elem_of_map_to_list|]. cbn.
      destruct Hbad as [->|Hover]; [done|]. rewrite (bool_decide_eq_true_2 _ Hover), orb_true_r. done.
Qed.

Lemma revoke_room f reason r w :
  room_struct r -> (revoke_unauthorized_producers f reason r w).1.1 = prune (kept f r) r.
Proof.
  intros Hs. unfold revoke_unauthorized_producers. cbn [fst]. apply revoke_fold_prune; [apply Hs|].
  apply Forall_forall. intros v (id & p & producer & rec & Hp & _ & Hrec & _ & ->)%elem_of_revoked_list.
  intros owner Howner. cbn in *. apply (ok_index _ Hs) in Howner as Hq.
  assert (Room.producer_to_participant r !! producer = Some id) as Hid by (apply (ok_index _ Hs); eauto).
  rewrite (ok_members _ Hs id p Hp). congruence.
Qed.

(** What revocation leaves to those it looked at is allowed and within the limit. *)
Lemma kept_allowed f r id p producer rec :
  room_struct r -> Room.participants r !! id = Some p -> matches_filter f p = true ->
  Participant.producers p !! producer = Some rec -> kept f r producer = true ->
  record_allowed r p rec = true /\ id ∉ over_capacity r.
Proof.
  intros Hs Hp Hf Hrec Hk. unfold kept in Hk. apply bool_decide_eq_true in Hk.
  assert (~ (record_allowed r p rec = false \/ Participant.id p ∈ over_capacity r)) as Hgood.
  { intros Hbad. apply Hk. unfold revoked_ids. apply list_elem_of_fmap.
    exists (RevokedProducer (Participant.id p) (Participant.media_session_id p) producer (producer_kind rec)).
    split; [done|]. apply elem_of_revoked_list. exists id, p, producer, rec. auto. }
  rewrite (ok_members _ Hs id p Hp) in Hgood. destruct (record_allowed r p rec); intuition.
Qed.

Lemma allowed_policy r p rec : record_allowed r p rec = true -> policy_allows r p rec = true.
Proof.
  unfold policy_allows, record_allowed. destruct (producer_source rec) as [src|]; [cbn|done].
  unfold producer_allowed_without_capacity. cbn. case_match; [done|].
  case_match; [done|]. apply can_produce_mono, no_sanction_le.
Qed.

Lemma allowed_permitted r p rec : record_allowed r p rec = true -> permitted r p rec.
Proof. intros Ha. split; [by apply allowed_policy|done]. Qed.

(** *** The broadcaster limit *)

Lemma size_list_to_set_le (l : list participant_id) :
  (size (list_to_set l : gset participant_id) <= length l)%nat.
Proof.
  induction l as [|x l IH]; cbn; [by rewrite size_empty|]. rewrite size_union_alt, size_singleton.
  assert (size ((list_to_set l : gset participant_id) ∖ {[x]}) <= size (list_to_set l : gset participant_id))%nat
    by apply subseteq_size, subseteq_difference_l, reflexivity. lia.
Qed.

Lemma broadcasters_within (r : room) maximum :
  room_struct r -> broadcaster_limit r = Some maximum ->
  (broadcaster_count (prune (kept None r) r) <= maximum)%N.
Proof.
  intros Hs Hm. rewrite broadcaster_count_size.
  set (chosen := fst <$> take (N.to_nat maximum) (broadcaster_candidates r)).
  enough (broadcasters (prune (kept None r) r) ⊆ (list_to_set chosen : gset participant_id)) as Hsub.
  { apply subseteq_size in Hsub. pose proof (size_list_to_set_le chosen) as Hle.
    assert (length chosen <= N.to_nat maximum)%nat by (unfold chosen; rewrite length_fmap, length_take; lia).
    lia. }
  intros id. rewrite elem_of_broadcasters, elem_of_list_to_set.
  intros (p' & (p & Hp & ->)%lookup_prune & Hne).
  apply map_choose in Hne as (producer & rec & [Hrec Hk]%map_lookup_filter_Some).
  destruct (kept_allowed None r id p producer rec) as [Ha Hover]; [done..|].
  assert (id ∈ (fst <$> broadcaster_candidates r)) as Hcand.
  { unfold broadcaster_candidates. apply list_elem_of_fmap. exists (id, Participant.role p). split; [done|].
    rewrite merge_sort_Permutation. apply list_elem_of_fmap. exists p. rewrite (ok_members _ Hs id p Hp).
    split; [done|]. apply list_elem_of_filter. split; [|apply elem_of_members; by exists id].
    unfold broadcaster_candidate. apply existsb_exists. exists rec. split; [|done].
    apply list_elem_of_In. unfold values. apply list_elem_of_fmap. exists (producer, rec).
    split; [done|]. by apply elem_of_map_to_list. }
  rewrite <-(take_drop (N.to_nat maximum) (broadcaster_candidates r)), fmap_app in Hcand.
  apply elem_of_app in Hcand as [Hin|Hin]; [done|]. exfalso. apply Hover. unfold over_capacity. by rewrite Hm.
Qed.

(** Revocation re-establishes authority: it is enough that those it does not
    look at publish nothing they may not, and that it looks at everyone or the
    limit already held. *)
Lemma revoke_restores f reason r w :
  room_struct r ->
  (forall id p producer rec, Room.participants r !! id = Some p ->
     Participant.producers p !! producer = Some rec -> matches_filter f p = false -> permitted r p rec) ->
  (f = None \/ forall maximum, broadcaster_limit r = Some maximum -> (broadcaster_count r <= maximum)%N) ->
  room_ok (revoke_unauthorized_producers f reason r w).1.1.
Proof.
  intros Hs Hothers Hlimit. rewrite revoke_room by done. split; [by apply prune_struct|]. split.
  - intros id p' producer rec (p & Hp & ->)%lookup_prune [Hrec Hk]%map_lookup_filter_Some.
    cbn in Hk. apply (permitted_ext r _ p); [done..|]. destruct (matches_filter f p) eqn:Ef.
    + apply allowed_permitted. by eapply kept_allowed.
    + by eapply Hothers.
  - intros maximum Hm. destruct Hlimit as [->|Hlimit]; [by apply broadcasters_within|].
    apply prune_limit. by apply Hlimit.
Qed.

Lemma revoke_ok f reason r w : room_ok r -> room_ok (revoke_unauthorized_producers f reason r w).1.1.
Proof.
  intros [Hs [H9 H10]]. apply revoke_restores; [done|intros; by eapply H9|by right].
Qed.
