(* ===== verification/RoomSteps.v ===== *)
(** * What each room mutation keeps

    The mutations of [Publication.v] and the membership changes of the room
    manager preserve [room_ok]. *)

From S2P Require Import Prelude Refusal Net Roles Settings Protocol Moderation Wire Social Room Media Publication RoomInv.

#[local] Arguments can_produce : simpl never.
#[local] Arguments merge_punitive_state : simpl never.

(** ** Cohorts *)

(** [pids] and [lids] are exactly the members and lobby entries with identity
    [key]. *)
Record covers (r : room) (key : sanction_key) (pids lids : list participant_id) : Prop := {
  cov_members : forall id p, Room.participants r !! id = Some p -> (member_key p = key <-> id ∈ pids);
  cov_lobby : forall id e, Room.lobby r !! id = Some e -> (waiting_key e = key <-> id ∈ lids);
  cov_present : forall id, id ∈ pids -> is_Some (Room.participants r !! id);
  cov_waiting : forall id, id ∈ lids -> is_Some (Room.lobby r !! id)
}.

Lemma elem_of_sort_unstable id ids : id ∈ sort_unstable ids <-> id ∈ ids.
Proof. unfold sort_unstable. by rewrite merge_sort_Permutation. Qed.

Lemma elem_of_keys_filter {A} (P : participant_id * A -> Prop) `{!forall x, Decision (P x)}
    (m : gmap participant_id A) id :
  id ∈ keys (filter P m) <-> exists x, m !! id = Some x /\ P (id, x).
Proof.
  unfold keys. rewrite list_elem_of_fmap. split.
  - intros ([k x] & -> & Hin%elem_of_map_to_list). apply map_lookup_filter_Some in Hin as [? ?]. eauto.
  - intros (x & Hx & HP). exists (id, x). split; [done|].
    apply elem_of_map_to_list, map_lookup_filter_Some. done.
Qed.

Lemma existsb_none {A} (f : A -> bool) l : existsb f l = false -> forall x, x ∈ l -> f x = false.
Proof.
  intros Hn x Hx. destruct (f x) eqn:Ef; [|done]. rewrite <-Hn. symmetry. apply existsb_exists.
  exists x. by rewrite <-list_elem_of_In.
Qed.

Lemma for_identity_guest id authenticated ip c :
  for_identity id authenticated ip = KeyGuestIp c <-> guest_on c authenticated ip = true.
Proof.
  unfold for_identity, guest_on. destruct authenticated; cbn; [done|].
  destruct ip as [a|]; cbn; rewrite bool_decide_eq_true; split; congruence.
Qed.

(** The keys that are not an address cohort name one identifier. *)
Lemma for_identity_single id id' authenticated authenticated' ip ip' :
  for_identity id authenticated ip = for_identity id' authenticated' ip' ->
  (authenticated' = true \/ ip' = None) -> id = id'.
Proof. unfold for_identity. intros H [->| ->]; repeat case_match; congruence. Qed.

Lemma moderation_cohort_spec r t moderator pids :
  moderation_cohort r t moderator = Ok pids ->
  exists target, Room.participants r !! t = Some target
    /\ (forall id, id ∈ pids <->
          match Participant.authenticated target, Participant.ip target with
          | false, Some ip => exists p, Room.participants r !! id = Some p
              /\ guest_on (cohort ip) (Participant.authenticated p) (Participant.ip p) = true
          | _, _ => id = t
          end)
    /\ (forall id, id ∈ pids -> exists p, Room.participants r !! id = Some p
          /\ can_moderate moderator (Participant.role p) = true).
Proof.
  unfold moderation_cohort. destruct (Room.participants r !! t) as [target|] eqn:Et; [|done].
  set (ids := if negb _ then _ else _). destruct (existsb _ ids) eqn:Ex; [done|]. intros [= <-].
  exists target. split_and!; [done| |].
  - intros id. rewrite elem_of_sort_unstable. subst ids.
    destruct (Participant.authenticated target); cbn; [by rewrite list_elem_of_singleton|].
    destruct (Participant.ip target) as [ip|]; [|by rewrite list_elem_of_singleton].
    by rewrite elem_of_keys_filter.
  - intros id. rewrite elem_of_sort_unstable. intros Hid. apply (existsb_none _ _ Ex) in Hid.
    destruct (Room.participants r !! id) as [p|]; [|done]. exists p. split; [done|]. by apply negb_false_iff.
Qed.

Lemma lobby_cohort_spec r authenticated ip moderator lids :
  guest_ip_lobby_cohort r authenticated ip moderator = Ok lids ->
  forall id, id ∈ lids <->
    match authenticated, ip with
    | false, Some ip => exists e, Room.lobby r !! id = Some e
        /\ guest_on (cohort ip) (LobbyEntry.authenticated e) (LobbyEntry.ip e) = true
    | _, _ => False
    end.
Proof.
  unfold guest_ip_lobby_cohort. destruct authenticated.
  { intros [= <-] id. by rewrite elem_of_nil. }
  destruct ip as [ip|]; [|intros [= <-] id; by rewrite elem_of_nil].
  case_match; [done|]. intros [= <-] id. rewrite elem_of_sort_unstable. by rewrite elem_of_keys_filter.
Qed.

Lemma cohort_covers r t target moderator pids lids :
  room_struct r -> Room.participants r !! t = Some target ->
  moderation_cohort r t moderator = Ok pids ->
  guest_ip_lobby_cohort r (Participant.authenticated target) (Participant.ip target) moderator = Ok lids ->
  covers r (for_identity t (Participant.authenticated target) (Participant.ip target)) pids lids.
Proof.
  intros Hs Ht (target' & Ht' & Hpids & Hmod)%moderation_cohort_spec Hl.
  pose proof (lobby_cohort_spec _ _ _ _ _ Hl) as Hlids. clear Hl.
  rewrite Ht in Ht'. injection Ht' as <-.
  destruct (decide (Participant.authenticated target = true \/ Participant.ip target = None)) as [Hone|Hmany].
  - assert (forall id, id ∈ pids <-> id = t) as Hp.
    { intros id. rewrite Hpids. destruct Hone as [-> | ->]; [done|]. by case_match. }
    assert (forall id, ~ id ∈ lids) as Hl.
    { intros id. rewrite Hlids. destruct Hone as [-> | ->]; [by intros []|]. case_match; by intros []. }
    split.
    + intros id p Hid. rewrite Hp. unfold member_key. rewrite (ok_members _ Hs id p Hid). split.
      * intros He. by eapply for_identity_single.
      * intros ->. congruence.
    + intros id e Hid. split; [|by intros ?%Hl]. unfold waiting_key. rewrite (ok_lobby _ Hs id e Hid).
      intros He. apply for_identity_single in He; [subst|done].
      rewrite (ok_apart _ Hs t) in Hid by eauto. done.
    + intros id ->%Hp. eauto.
    + by intros id ?%Hl.
  - destruct (Participant.authenticated target); [by destruct Hmany; left|].
    destruct (Participant.ip target) as [ip|]; [|by destruct Hmany; right].
    change (for_identity t false (Some ip)) with (KeyGuestIp (cohort ip)). split.
    + intros id p Hid. unfold member_key. rewrite for_identity_guest, Hpids.
      split; [by exists p|intros (q & ? & ?); congruence].
    + intros id e Hid. unfold waiting_key. rewrite for_identity_guest, Hlids.
      split; [by exists e|intros (q & ? & ?); congruence].
    + intros id (p & ? & _)%Hpids. eauto.
    + intros id (e & ? & _)%Hlids. eauto.
Qed.

(** ** Authority *)

Lemma limit_same_producers r r' :
  (forall id, Participant.producers <$> Room.participants r' !! id
              = Participant.producers <$> Room.participants r !! id) ->
  broadcaster_count r' = broadcaster_count r.
Proof.
  intros Heq. rewrite !broadcaster_count_size. do 2 f_equal. apply set_eq. intros id.
  rewrite !elem_of_broadcasters. specialize (Heq id).
  destruct (Room.participants r' !! id) as [p'|], (Room.participants r !! id) as [p|]; cbn in Heq; try done.
  injection Heq as Heq. split; intros (q & [= <-] & Hq); eexists; (split; [done|]); congruence.
Qed.

Lemma index_same_producers r r' :
  (forall id, Participant.producers <$> Room.participants r' !! id
              = Participant.producers <$> Room.participants r !! id) ->
  Room.producer_to_participant r' = Room.producer_to_participant r ->
  index_exact r -> index_exact r'.
Proof.
  intros Heq Hidx Hr producer id. rewrite Hidx. unfold index_exact in Hr. rewrite Hr. specialize (Heq id).
  destruct (Room.participants r' !! id) as [p'|], (Room.participants r !! id) as [p|]; cbn in Heq; try done.
  injection Heq as Heq. split; intros (q & [= <-] & Hq); eexists; (split; [done|]); congruence.
Qed.

(** Revocation of one member permits what that member keeps, and disturbs
    nobody else. *)
Lemma revoke_permits f r id p producer rec :
  room_struct r -> Room.participants (prune (kept f r) r) !! id = Some p ->
  Participant.producers p !! producer = Some rec ->
  (matches_filter f p = true \/ forall q, Room.participants r !! id = Some q ->
     forall producer rec, Participant.producers q !! producer = Some rec -> permitted r q rec) ->
  permitted (prune (kept f r) r) p rec.
Proof.
  intros Hs (q & Hq & ->)%lookup_prune [Hrec Hk]%map_lookup_filter_Some Hgood. cbn in Hk.
  apply (permitted_ext r _ q); [done..|]. destruct Hgood as [Hf|Hothers]; [|by eapply Hothers].
  apply allowed_permitted. by eapply kept_allowed.
Qed.

Lemma revoke_each_ok reason ids r w :
  room_struct r ->
  (forall id p producer rec, Room.participants r !! id = Some p ->
     Participant.producers p !! producer = Some rec -> id ∉ ids -> permitted r p rec) ->
  (forall maximum, broadcaster_limit r = Some maximum -> (broadcaster_count r <= maximum)%N) ->
  room_ok (revoke_each reason ids r w).1.1.
Proof.
  revert r w. induction ids as [|i ids IH]; intros r w Hs Hothers Hlimit; cbn [revoke_each].
  { split; [done|]. split; [|done]. intros id p producer rec Hp Hrec. eapply Hothers; [done..|].
    by apply not_elem_of_nil. }
  pose proof (revoke_room (Some i) reason r w Hs) as Hr.
  destruct (revoke_unauthorized_producers (Some i) reason r w) as [[r1 w1] v1]. cbn in Hr. subst r1.
  specialize (IH (prune (kept (Some i) r) r) w1).
  destruct (revoke_each reason ids (prune (kept (Some i) r) r) w1) as [[r2 w2] v2]. apply IH.
  - by apply prune_struct.
  - intros id p producer rec Hp Hrec Hnot. eapply revoke_permits; [done..|].
    destruct (decide (id = i)) as [->|Hne].
    + left. cbn. apply N.eqb_eq. apply lookup_prune in Hp as (q & Hq & ->). exact (ok_members _ Hs i q Hq).
    + right. intros q Hq producer' rec' Hrec'. eapply Hothers; [done..|]. by apply not_elem_of_cons.
  - intros maximum Hm. by apply prune_limit, Hlimit.
Qed.

(** ** Sanctions *)

(** Publishing depends on a sanction through its camera ban only. *)
Lemma record_allowed_camera r p s rec :
  (cam_banned s = true -> cam_banned (Participant.punitive p) = true) ->
  record_allowed r p rec = true -> record_allowed r (p <| Participant.punitive := s |>) rec = true.
Proof.
  intros Hcam. unfold record_allowed. destruct (producer_source rec) as [src|]; [cbn|done].
  unfold producer_allowed_without_capacity. cbn. case_match; [done|]. case_match; [done|].
  unfold can_produce. destruct (cam_banned s); [by rewrite Hcam|]. cbn. case_match; [done|]. done.
Qed.

Lemma lookup_alter_all {A} (f : A -> A) ids (m : gmap participant_id A) id :
  (forall x, f (f x) = f x) ->
  foldl (fun m id => alter f id m) m ids !! id
  = (fun x => if bool_decide (id ∈ ids) then f x else x) <$> m !! id.
Proof.
  intros Hidem. revert m. induction ids as [|i ids IH]; intros m; cbn [foldl].
  { destruct (m !! id); cbn; [|done]. by rewrite bool_decide_eq_false_2 by apply not_elem_of_nil. }
  rewrite IH. destruct (decide (id = i)) as [->|Hne].
  - rewrite lookup_alter_eq. destruct (m !! i) as [x|]; cbn; [|done].
    rewrite (bool_decide_eq_true_2 (i ∈ i :: ids)) by apply elem_of_cons, or_introl, eq_refl.
    case_bool_decide; by rewrite ?Hidem.
  - rewrite lookup_alter_ne by done. destruct (m !! id) as [x|]; cbn; [|done].
    f_equal. do 2 case_bool_decide; rewrite ?elem_of_cons in *; intuition congruence.
Qed.

Section sanction.
Context (r : room) (key : sanction_key) (pids lids : list participant_id).
Context (kind : punitive_kind) (enabled : bool).
Context (Hok : room_ok r) (Hcov : covers r key pids lids).

Let s := set_punitive (cohort_union r pids lids key) kind enabled.
Let r' := (apply_punitive_to_cohort r pids lids key kind enabled).1.

Lemma sanctioned_member id p' :
  Room.participants r' !! id = Some p' ->
  exists p, Room.participants r !! id = Some p /\
    p' = if bool_decide (id ∈ pids) then p <| Participant.punitive := s |> else p.
Proof.
  cbn. unfold set_members_punitive. rewrite lookup_alter_all by done. rewrite fmap_Some. done.
Qed.

Lemma sanctioned_entry id e' :
  Room.lobby r' !! id = Some e' ->
  exists e, Room.lobby r !! id = Some e /\
    e' = if bool_decide (id ∈ lids) then e <| LobbyEntry.punitive := s |> else e.
Proof.
  cbn. unfold set_lobby_punitive. rewrite lookup_alter_all by done. rewrite fmap_Some. done.
Qed.

(** Without a database row the cohort agrees, so the union is what it has. *)
Lemma cohort_union_agrees : Room.persisted r = false -> cohort_union r pids lids key = sanction_of r key.
Proof.
  intros Hp. unfold cohort_union.
  assert (forall p : punitive_state, merge_punitive_state p (Some p) = p) as Hmerge.
  { intros [[] []]; done. }
  assert (forall ids, (forall id, id ∈ ids -> id ∈ pids) ->
    foldl (fun s id => merge_punitive_state s (Participant.punitive <$> Room.participants r !! id))
      (sanction_of r key) ids = sanction_of r key) as Hm.
  { induction ids as [|i ids IH]; intros Hin; cbn [foldl]; [done|].
    destruct (Room.participants r !! i) as [p|] eqn:Ep; cbn; [|apply IH; intros; apply Hin; by right].
    rewrite (ok_member_sanctions _ (ok_struct _ Hok) Hp i p Ep).
    rewrite (proj2 (cov_members _ _ _ _ Hcov i p Ep)) by (apply Hin; by left).
    rewrite Hmerge. apply IH. intros. apply Hin. by right. }
  assert (forall ids, (forall id, id ∈ ids -> id ∈ lids) ->
    foldl (fun s id => merge_punitive_state s (LobbyEntry.punitive <$> Room.lobby r !! id))
      (sanction_of r key) ids = sanction_of r key) as Hl.
  { induction ids as [|i ids IH]; intros Hin; cbn [foldl]; [done|].
    destruct (Room.lobby r !! i) as [e|] eqn:Ee; cbn; [|apply IH; intros; apply Hin; by right].
    rewrite (ok_lobby_sanctions _ (ok_struct _ Hok) Hp i e Ee).
    rewrite (proj2 (cov_lobby _ _ _ _ Hcov i e Ee)) by (apply Hin; by left).
    rewrite Hmerge. apply IH. intros. apply Hin. by right. }
  fold (sanction_of r key). rewrite Hm by done. by apply Hl.
Qed.

Lemma sanction_of_applied k :
  sanction_of r' k = if bool_decide (k = key) then s else sanction_of r k.
Proof.
  unfold r', apply_punitive_to_cohort, sanction_of. cbn. fold s.
  destruct (bool_decide_reflect (s = no_sanction)) as [Hs|Hs]; case_bool_decide as Hk; subst.
  - by rewrite lookup_delete_eq.
  - by rewrite lookup_delete_ne.
  - by rewrite lookup_insert_eq.
  - by rewrite lookup_insert_ne.
Qed.

Lemma sanction_struct : room_struct r'.
Proof.
  destruct Hok as [[H1 H2 H3 H4 H5 H6 H7 H8] _]. split.
  - intros id p' (p & Hp & ->)%sanctioned_member. case_bool_decide; exact (H1 id p Hp).
  - intros id e' (e & He & ->)%sanctioned_entry. case_bool_decide; exact (H2 id e He).
  - intros id [p' (p & Hp & ->)%sanctioned_member]. cbn. unfold set_lobby_punitive.
    rewrite lookup_alter_all by done. by rewrite (H3 id) by eauto.
  - apply (index_same_producers r); [|done|done]. intros id. cbn. unfold set_members_punitive.
    rewrite lookup_alter_all by done. destruct (Room.participants r !! id); cbn; [|done]. by case_bool_decide.
  - intros id p' (p & Hp & ->)%sanctioned_member. case_bool_decide; exact (H5 id p Hp).
  - intros id e' (e & He & ->)%sanctioned_entry. case_bool_decide; exact (H6 id e He).
  - intros Hper id p' (p & Hp & ->)%sanctioned_member. rewrite sanction_of_applied.
    pose proof (cov_members _ _ _ _ Hcov id p Hp) as Hc. do 2 case_bool_decide; cbn in *; try done.
    + exfalso. intuition.
    + exfalso. intuition.
    + by apply (H7 Hper id).
  - intros Hper id e' (e & He & ->)%sanctioned_entry. rewrite sanction_of_applied.
    pose proof (cov_lobby _ _ _ _ Hcov id e He) as Hc. do 2 case_bool_decide; cbn in *; try done.
    + exfalso. intuition.
    + exfalso. intuition.
    + by apply (H8 Hper id).
Qed.

Lemma sanction_permitted id p' producer rec :
  Room.participants r' !! id = Some p' -> Participant.producers p' !! producer = Some rec ->
  (id ∉ pids \/ ~ (kind = CamBanned /\ enabled = true)) -> permitted r' p' rec.
Proof.
  intros (p & Hp & ->)%sanctioned_member Hrec Hwhy. revert Hrec.
  case_bool_decide as Hin; intros Hrec; destruct (ok_permitted _ (ok_auth _ Hok) id p producer rec Hp Hrec) as [Ha Hc].
  - destruct Hwhy as [Hout|Hwhy]; [done|]. split; [exact Ha|]. intros Hper. specialize (Hc Hper).
    erewrite record_allowed_ext; [apply (record_allowed_camera r p s)|done..]; [|done].
    intros Hcam. rewrite (ok_member_sanctions _ (ok_struct _ Hok) Hper id p Hp).
    rewrite (proj2 (cov_members _ _ _ _ Hcov id p Hp) Hin). revert Hcam. unfold s.
    rewrite cohort_union_agrees by done. destruct kind; cbn; [|done]. intros ->. by destruct Hwhy.
  - by apply (permitted_ext r _ p).
Qed.

Lemma sanction_limit maximum :
  broadcaster_limit r' = Some maximum -> (broadcaster_count r' <= maximum)%N.
Proof.
  intros Hm. rewrite (limit_same_producers r); [by apply (ok_limit _ (ok_auth _ Hok))|].
  intros id. cbn. unfold set_members_punitive. rewrite lookup_alter_all by done.
  destruct (Room.participants r !! id); cbn; [|done]. by case_bool_decide.
Qed.
End sanction.

Lemma publish_sanction_ok p r w :
  room_ok r ->
  covers r (for_identity (SanctionPublication.target p) (SanctionPublication.authenticated p)
              (SanctionPublication.ip p)) (SanctionPublication.participants p) (SanctionPublication.lobby p) ->
  room_ok (publish_sanction p r w).1.1.
Proof.
  intros Hok Hcov. unfold publish_sanction.
  set (key := for_identity _ _ _) in *. set (pids := SanctionPublication.participants p) in *.
  set (r1 := (apply_punitive_to_cohort _ _ _ _ _ _).1). set (w1 := foldl _ _ (SanctionPublication.lobby p)).
  enough (room_ok (if bool_decide (SanctionPublication.kind p = CamBanned) && SanctionPublication.enabled p
           then revoke_each "Camera access revoked by moderator" pids r1 w1 else (r1, w1, [])).1.1) as Hgoal.
  { destruct (if bool_decide _ && _ then revoke_each _ _ _ _ else _) as [[r2 w2] v2].
    cbn in *. by apply (room_ok_core r2). }
  pose proof (sanction_struct r key pids _ (SanctionPublication.kind p) (SanctionPublication.enabled p) Hok Hcov) as Hs.
  pose proof (sanction_limit r key pids (SanctionPublication.lobby p) (SanctionPublication.kind p)
                (SanctionPublication.enabled p) Hok) as Hlimit.
  destruct (bool_decide_reflect (SanctionPublication.kind p = CamBanned)) as [Hk|Hk];
    [destruct (SanctionPublication.enabled p) eqn:He|]; cbn [andb].
  - apply revoke_each_ok; [done| |done]. intros id q producer rec Hq Hrec Hnot.
    eapply sanction_permitted; [done..|by left].
  - split; [done|]. split; [|done]. intros id q producer rec Hq Hrec.
    eapply sanction_permitted; [done..|]. right. by intros [_ ?].
  - split; [done|]. split; [|done]. intros id q producer rec Hq Hrec.
    eapply sanction_permitted; [done..|]. right. by intros [? _].
Qed.

(** ** Roles *)

(** What a member and a lobby entry are to the structure of the room. *)
Definition member_view (p : participant) :=
  (Participant.id p, Participant.authenticated p, Participant.ip p, Participant.producers p,
   Participant.punitive p).
Definition waiting_view (e : lobby_entry) :=
  (LobbyEntry.participant_id e, LobbyEntry.authenticated e, LobbyEntry.ip e, LobbyEntry.punitive e).

(** The same people under the same identities and sanctions. *)
Record same_people (r r' : room) : Prop := {
  same_members : forall id, member_view <$> Room.participants r' !! id
                            = member_view <$> Room.participants r !! id;
  same_waiting : forall id, waiting_view <$> Room.lobby r' !! id = waiting_view <$> Room.lobby r !! id;
  same_books : (Room.producer_to_participant r', Room.persisted r', Room.banned_participants r',
                Room.banned_guest_ips r', Room.sanctions r')
             = (Room.producer_to_participant r, Room.persisted r, Room.banned_participants r,
                Room.banned_guest_ips r, Room.sanctions r)
}.

Lemma fmap_eq_Some {A B} (f : A -> B) (o o' : option A) x :
  f <$> o' = f <$> o -> o' = Some x -> exists y, o = Some y /\ f x = f y.
Proof. intros He ->. destruct o; [|done]. injection He as He. eauto. Qed.

Lemma same_people_producers r r' : same_people r r' -> forall id,
  Participant.producers <$> Room.participants r' !! id = Participant.producers <$> Room.participants r !! id.
Proof.
  intros [Hm _ _] id. specialize (Hm id).
  destruct (Room.participants r' !! id), (Room.participants r !! id); try done.
  injection Hm as H1 H2 H3 H4 H5. cbn. by rewrite H4.
Qed.

Lemma same_people_struct r r' : same_people r r' -> room_struct r -> room_struct r'.
Proof.
  intros Hsame [H1 H2 H3 H4 H5 H6 H7 H8]. pose proof (same_people_producers _ _ Hsame) as Hprod.
  destruct Hsame as [Hm Hl Hb]. injection Hb as E1 E2 E3 E4 E5.
  assert (forall id a ip, identity_is_banned r' id a ip = identity_is_banned r id a ip) as Hban
    by (intros; unfold identity_is_banned; by rewrite E3, E4).
  assert (forall k, sanction_of r' k = sanction_of r k) as Hs by (intros; unfold sanction_of; by rewrite E5).
  split.
  - intros id p' Hp'. destruct (fmap_eq_Some _ _ _ _ (Hm id) Hp') as (p & Hp & [= -> ? ? ? ?]). by apply H1.
  - intros id e' He'. destruct (fmap_eq_Some _ _ _ _ (Hl id) He') as (e & He & [= -> ? ? ?]). by apply H2.
  - intros id [p' Hp']. destruct (fmap_eq_Some _ _ _ _ (Hm id) Hp') as (p & Hp & _).
    specialize (Hl id). rewrite (H3 id) in Hl by eauto. by destruct (Room.lobby r' !! id).
  - by apply (index_same_producers r).
  - intros id p' Hp'. destruct (fmap_eq_Some _ _ _ _ (Hm id) Hp') as (p & Hp & [= ? -> -> ? ?]).
    rewrite Hban. by apply H5.
  - intros id e' He'. destruct (fmap_eq_Some _ _ _ _ (Hl id) He') as (e & He & [= ? -> -> ?]).
    rewrite Hban. by apply H6.
  - rewrite E2. intros Hper id p' Hp'.
    destruct (fmap_eq_Some _ _ _ _ (Hm id) Hp') as (p & Hp & [= Ei Ea Eip ? ->]).
    rewrite Hs. unfold member_key. rewrite Ei, Ea, Eip. by apply (H7 Hper id).
  - rewrite E2. intros Hper id e' He'.
    destruct (fmap_eq_Some _ _ _ _ (Hl id) He') as (e & He & [= Ei Ea Eip ->]).
    rewrite Hs. unfold waiting_key. rewrite Ei, Ea, Eip. by apply (H8 Hper id).
Qed.

Lemma publish_role_ok target new_role granted_by r w :
  room_ok r -> room_ok (publish_role target new_role granted_by r w).1.1.
Proof.
  intros [Hs Ha]. unfold publish_role. cbv zeta.
  set (r0 := r <| Room.participants ::= _ |> <| Room.lobby ::= _ |>).
  assert (same_people r (bump_policy r0)) as Hsame.
  { split; [| |done]; intros id; cbn; (destruct (decide (id = target)) as [->|Hne];
      [rewrite lookup_alter_eq|by rewrite lookup_alter_ne]).
    - by destruct (Room.participants r !! target).
    - by destruct (Room.lobby r !! target). }
  pose proof (revoke_restores (Some target) "Role no longer permits this producer" (bump_policy r0)
                (notify_lobby_status r0 w) (same_people_struct _ _ Hsame Hs)) as Hrev.
  destruct (revoke_unauthorized_producers _ _ (bump_policy r0) _) as [[r2 w2] v2]. apply Hrev.
  - intros id p producer rec Hp Hrec Hf. cbn in Hp, Hf. apply N.eqb_neq in Hf.
    destruct (decide (id = target)) as [->|Hne].
    + rewrite lookup_alter_eq in Hp. destruct (Room.participants r !! target) as [q|] eqn:Eq; [|done].
      injection Hp as <-. by rewrite (ok_members _ Hs target q Eq) in Hf.
    + rewrite lookup_alter_ne in Hp by done. by apply (permitted_ext r _ p), (ok_permitted _ Ha id p producer).
  - right. intros maximum Hm. rewrite (limit_same_producers r); [by apply (ok_limit _ Ha)|].
    by apply same_people_producers.
Qed.

Lemma same_people_ok r r' :
  same_people r r' -> Room.settings r' = Room.settings r ->
  Room.broadcaster_ceiling r' = Room.broadcaster_ceiling r ->
  (forall id, Participant.role <$> Room.participants r' !! id = Participant.role <$> Room.participants r !! id) ->
  room_ok r -> room_ok r'.
Proof.
  intros Hsame Hset Hceil Hrole [Hs [H9 H10]]. split; [by eapply same_people_struct|]. split.
  - intros id p' producer rec Hp' Hrec.
    destruct (fmap_eq_Some _ _ _ _ (same_members _ _ Hsame id) Hp') as (p & Hp & [= ? ? ? Epr Epun]).
    rewrite Epr in Hrec. specialize (Hrole id). rewrite Hp, Hp' in Hrole. injection Hrole as Hrole.
    pose proof (same_books _ _ Hsame) as [= _ Hper _ _ _].
    apply (permitted_ext r _ p); [done..|]. by apply (H9 id p producer).
  - intros maximum Hm. rewrite (limit_same_producers r) by by apply same_people_producers.
    apply H10. by rewrite <-(broadcaster_limit_ext r r').
Qed.

(** ** Departures *)

(** The room without [ids] and what they publish. *)
Definition drop_members (ids : list participant_id) (r : room) : room :=
  r <| Room.participants ::= filter (fun kv => kv.1 ∉ ids) |>
    <| Room.producer_to_participant ::= filter (fun kv => kv.2 ∉ ids) |>.
Definition drop_waiting (ids : list participant_id) (r : room) : room :=
  r <| Room.lobby ::= filter (fun kv => kv.1 ∉ ids) |>.

Lemma unindex_lookup p index producer :
  unindex p index !! producer
  = if bool_decide (is_Some (Participant.producers p !! producer)) then None else index !! producer.
Proof.
  unfold unindex.
  assert (forall ks (m : gmap producer_id participant_id),
    foldl (fun m id => delete id m) m ks !! producer
    = if bool_decide (producer ∈ ks) then None else m !! producer) as Hf.
  { induction ks as [|k ks IH]; intros m; cbn [foldl].
    - by rewrite bool_decide_eq_false_2 by apply not_elem_of_nil.
    - rewrite IH. destruct (decide (producer = k)) as [->|Hne].
      + rewrite lookup_delete_eq, (bool_decide_eq_true_2 (k ∈ k :: ks)) by (by left). by case_bool_decide.
      + rewrite lookup_delete_ne by done. do 2 case_bool_decide; rewrite ?elem_of_cons in *; intuition congruence. }
  rewrite Hf. replace (bool_decide (producer ∈ _))
    with (bool_decide (is_Some (Participant.producers p !! producer))); [done|].
  apply bool_decide_ext. symmetry. unfold keys. rewrite list_elem_of_fmap. split.
  - intros ([k rec] & -> & Hin%elem_of_map_to_list). eauto.
  - intros [rec Hrec]. exists (producer, rec). split; [done|]. by apply elem_of_map_to_list.
Qed.

Lemma drop_index_exact ids r : index_exact r -> index_exact (drop_members ids r).
Proof.
  unfold index_exact. intros Hi producer id. cbn. rewrite map_lookup_filter_Some, Hi. cbn. split.
  - intros [(p & Hp & Hrec) Hnot]. exists p. by rewrite map_lookup_filter_Some.
  - intros (p & [Hp Hnot]%map_lookup_filter_Some & Hrec). eauto.
Qed.

(** Removing a member drops it from the roster and the index. *)
Lemma remove_one_room r id :
  index_exact r ->
  (match Room.participants r !! id with
   | Some p => r <| Room.participants ::= delete id |> <| Room.producer_to_participant ::= unindex p |>
   | None => r
   end) = drop_members [id] r.
Proof.
  intros Hi. unfold index_exact in Hi. unfold drop_members.
  assert (delete id (Room.participants r) = filter (fun kv => kv.1 ∉ [id]) (Room.participants r)) as Hp.
  { rewrite delete_as_filter. apply map_filter_ext. intros i x _. cbn.
    rewrite bool_decide_eq_true, list_elem_of_singleton. done. }
  destruct (Room.participants r !! id) as [p|] eqn:Ep; cbn.
  - f_equal; [done|]. apply map_eq. intros producer. rewrite unindex_lookup.
    apply option_eq. intros owner. rewrite map_lookup_filter_Some. cbn. rewrite list_elem_of_singleton.
    case_bool_decide as Hprod.
    + split; [done|]. intros [Ho Hne]. destruct Hne. apply Hi in Ho as (q & Hq & ?).
      assert (Room.producer_to_participant r !! producer = Some id) as Hid by (apply Hi; eauto).
      assert (Room.producer_to_participant r !! producer = Some owner) as Ho by (apply Hi; eauto). congruence.
    + split; [|by intros [? _]]. intros Ho. split; [done|]. intros ->. apply Hi in Ho as (q & Hq & ?).
      rewrite Ep in Hq. by injection Hq as <-.
  - assert (filter (fun kv => kv.2 ∉ [id]) (Room.producer_to_participant r) = Room.producer_to_participant r) as Hx.
    { apply map_filter_id. intros producer owner Ho. cbn. rewrite list_elem_of_singleton. intros ->.
      apply Hi in Ho as (q & Hq & _). by rewrite Ep in Hq. }
    rewrite delete_id in Hp by done. destruct r; cbn in *. f_equal; done.
Qed.

Lemma drop_members_app ids ids' r : drop_members ids' (drop_members ids r) = drop_members (ids ++ ids') r.
Proof.
  unfold drop_members. cbn. f_equal; rewrite map_filter_filter; apply map_filter_ext; intros i x _;
    cbn; rewrite not_elem_of_app; intuition.
Qed.

Lemma remove_members_room notice ids r w sessions :
  index_exact r ->
  (foldl (remove_member notice) (r, w, sessions) ids).1.1 = drop_members ids r.
Proof.
  revert r w sessions. induction ids as [|id ids IH]; intros r w sessions Hi; cbn [foldl].
  - unfold drop_members. cbn. destruct r. cbn. f_equal; symmetry; apply map_filter_id; intros;
      by apply not_elem_of_nil.
  - pose proof (remove_one_room r id Hi) as Hone.
    change (id :: ids) with ([id] ++ ids). rewrite <-drop_members_app, <-Hone.
    unfold remove_member at 2. destruct (Room.participants r !! id) as [p|] eqn:Ep; rewrite IH; try done.
    rewrite Hone. by apply drop_index_exact.
Qed.

Lemma drop_members_ok ids r : room_ok r -> room_ok (drop_members ids r).
Proof.
  intros [[H1 H2 H3 H4 H5 H6 H7 H8] [H9 H10]]. split; split; try done.
  - intros id p [Hp _]%map_lookup_filter_Some. by apply H1.
  - intros id [p [Hp _]%map_lookup_filter_Some]. apply H3. eauto.
  - by apply drop_index_exact.
  - intros id p [Hp _]%map_lookup_filter_Some. by apply (H5 id).
  - intros Hper id p [Hp _]%map_lookup_filter_Some. by apply (H7 Hper id).
  - intros id p producer rec [Hp _]%map_lookup_filter_Some Hrec.
    by apply (permitted_ext r _ p), (H9 id p producer).
  - intros maximum Hm. specialize (H10 maximum Hm). rewrite broadcaster_count_size in *.
    assert (broadcasters (drop_members ids r) ⊆ broadcasters r) as Hsub%subseteq_size; [|lia].
    intros id. rewrite !elem_of_broadcasters. intros (p & [Hp _]%map_lookup_filter_Some & Hne). eauto.
Qed.

Lemma drop_waiting_ok ids r : room_ok r -> room_ok (drop_waiting ids r).
Proof.
  intros [[H1 H2 H3 H4 H5 H6 H7 H8] [H9 H10]]. split; split; try done.
  - intros id p [Hp _]%map_lookup_filter_Some. by apply H2.
  - intros id Hp. apply map_lookup_filter_None_2. left. by apply H3.
  - intros id p [Hp _]%map_lookup_filter_Some. by apply (H6 id).
  - intros Hper id p [Hp _]%map_lookup_filter_Some. by apply (H8 Hper id).
Qed.

(** Everything the invariant reads but the bans. *)
Definition people_core (r : room) :=
  (Room.participants r, Room.lobby r, Room.producer_to_participant r, Room.settings r,
   Room.broadcaster_ceiling r, Room.persisted r, Room.sanctions r).

Lemma bans_ok r r' :
  people_core r' = people_core r ->
  (forall id p, Room.participants r !! id = Some p ->
     identity_is_banned r' id (Participant.authenticated p) (Participant.ip p) = false) ->
  (forall id e, Room.lobby r !! id = Some e ->
     identity_is_banned r' id (LobbyEntry.authenticated e) (LobbyEntry.ip e) = false) ->
  room_ok r -> room_ok r'.
Proof.
  intros Hc Hbm Hbl [[H1 H2 H3 H4 H5 H6 H7 H8] [H9 H10]]. injection Hc as E1 E2 E3 E4 E5 E6 E7.
  assert (forall k, sanction_of r' k = sanction_of r k) as Hs by (intros; unfold sanction_of; by rewrite E7).
  split; split; rewrite ?E1, ?E2, ?E6; try done.
  - unfold index_exact. by rewrite E1, E3.
  - intros. rewrite Hs. by eapply H7.
  - intros. rewrite Hs. by eapply H8.
  - intros. eapply permitted_ext; [..|by eapply H9]; done.
  - intros m Hm. rewrite (broadcaster_limit_ext r) in Hm by done.
    unfold broadcaster_count, members. rewrite E1. by apply H10.
Qed.

(** Lifting bans: whoever was not banned is not banned. *)
Lemma fewer_bans_ok r r' :
  people_core r' = people_core r ->
  (forall id, is_Some (Room.banned_participants r' !! id) -> is_Some (Room.banned_participants r !! id)) ->
  (forall ip, is_Some (Room.banned_guest_ips r' !! ip) -> is_Some (Room.banned_guest_ips r !! ip)) ->
  room_ok r -> room_ok r'.
Proof.
  intros Hc Hp Hg Hok.
  assert (forall id a ip, identity_is_banned r id a ip = false -> identity_is_banned r' id a ip = false) as Hb.
  { intros id a ip. unfold identity_is_banned. intros [Hid Hip]%orb_false_iff. apply orb_false_iff.
    apply bool_decide_eq_false in Hid. split; [apply bool_decide_eq_false; auto|].
    destruct a; cbn in *; [done|]. destruct ip as [a|]; cbn in *; [|done].
    apply bool_decide_eq_false in Hip. apply bool_decide_eq_false. auto. }
  apply (bans_ok r); try done; intros id q Hq; apply Hb.
  - by apply (ok_member_bans _ (ok_struct _ Hok)).
  - by apply (ok_lobby_bans _ (ok_struct _ Hok)).
Qed.

Lemma prune_expired_bans_ok now r : room_ok r -> room_ok (prune_expired_bans now r).
Proof.
  apply fewer_bans_ok; [done|..]; intros i [x [Hx _]%map_lookup_filter_Some]; eauto.
Qed.

Lemma lookup_insert_all {A} (v : A) ids (m : gmap participant_id A) id :
  is_Some (foldl (fun m id => <[id := v]> m) m ids !! id) <-> id ∈ ids \/ is_Some (m !! id).
Proof.
  revert m. induction ids as [|i ids IH]; intros m; cbn [foldl].
  - rewrite elem_of_nil. intuition.
  - rewrite IH, elem_of_cons, lookup_insert_is_Some'. intuition congruence.
Qed.

Lemma remember_ban_banned fresh now wall p r id authenticated ip :
  identity_is_banned (remember_ban fresh now wall p r) id authenticated ip = true ->
  identity_is_banned r id authenticated ip = true
  \/ id ∈ RemovalPublication.participants p ++ RemovalPublication.lobby p
  \/ (RemovalPublication.authenticated p = false /\ exists a, RemovalPublication.ip p = Some a
      /\ guest_on (cohort a) authenticated ip = true).
Proof.
  unfold identity_is_banned. intros [Hid|Hip]%orb_true_iff.
  - apply bool_decide_eq_true in Hid.
    assert (is_Some (foldl (fun m id => <[id := secs ← RemovalPublication.duration_seconds p;
              instant_checked_add now (from_secs secs)]> m) (Room.banned_participants r)
              (RemovalPublication.participants p ++ RemovalPublication.lobby p) !! id)) as Hid'.
    { revert Hid. unfold remember_ban, record_banned_cohort. cbn.
      destruct (RemovalPublication.authenticated p), (RemovalPublication.ip p); done. }
    apply lookup_insert_all in Hid' as [Hin|Hold]; [by right; left|].
    left. by rewrite (bool_decide_eq_true_2 _ Hold).
  - apply andb_true_iff in Hip as [Ha Hip]. apply negb_true_iff in Ha. subst authenticated.
    destruct ip as [a|]; cbn in Hip; [|done]. apply bool_decide_eq_true in Hip.
    destruct (decide (is_Some (Room.banned_guest_ips r !! cohort a))) as [Hold|Hnew].
    { left. cbn. by rewrite (bool_decide_eq_true_2 _ Hold), orb_true_r. }
    right. right. revert Hip. unfold remember_ban, record_banned_cohort. cbn.
    destruct (RemovalPublication.authenticated p) eqn:Ea; cbn; [done|].
    destruct (RemovalPublication.ip p) as [b|]; cbn; [|done].
    rewrite lookup_insert_is_Some'. intros [He|?]; [|done]. split; [done|]. exists b. split; [done|].
    unfold guest_on. cbn. by rewrite He, bool_decide_eq_true_2.
Qed.

Lemma remove_waiting_room notice ids r w :
  (foldl (remove_waiting notice) (r, w) ids).1 = drop_waiting ids r.
Proof.
  revert r w. induction ids as [|id ids IH]; intros r w; cbn [foldl].
  - unfold drop_waiting. cbn. destruct r. cbn. f_equal. symmetry. apply map_filter_id. intros.
    by apply not_elem_of_nil.
  - assert (forall m : gmap participant_id lobby_entry,
      filter (fun kv => kv.1 ∉ id :: ids) m = filter (fun kv => kv.1 ∉ ids) (delete id m)) as Hf.
    { intros m. rewrite delete_as_filter, map_filter_filter. apply map_filter_ext. intros i x _. cbn.
      rewrite bool_decide_eq_true, not_elem_of_cons. intuition. }
    unfold remove_waiting at 2. destruct (Room.lobby r !! id) as [e|] eqn:Ee; rewrite IH; unfold drop_waiting.
    + cbn. by rewrite Hf.
    + cbn. by rewrite Hf, delete_id.
Qed.

Lemma remember_ban_core fresh now wall p r : people_core (remember_ban fresh now wall p r) = people_core r.
Proof.
  unfold remember_ban, record_banned_cohort, people_core. cbn.
  destruct (RemovalPublication.authenticated p), (RemovalPublication.ip p); done.
Qed.

(** A ban that names the whole cohort binds nobody else who is present. *)
Section ban_spares.
Context (fresh : N) (now : instant) (wall : timestamp) (p : removal_publication) (r : room) (target : participant_id).
Context (Hok : room_ok r).
Context (Hc : covers r (for_identity target (RemovalPublication.authenticated p) (RemovalPublication.ip p))
                (RemovalPublication.participants p) (RemovalPublication.lobby p)).

Lemma ban_spares_members id q :
  Room.participants r !! id = Some q -> id ∉ RemovalPublication.participants p ->
  identity_is_banned (remember_ban fresh now wall p r) id (Participant.authenticated q) (Participant.ip q) = false.
Proof.
  intros Hq Hout. apply not_true_iff_false. intros Hb.
  apply remember_ban_banned in Hb as [Hb|[Hb|(Ha & a & Hip & Hg)]].
  - by rewrite (ok_member_bans _ (ok_struct _ Hok) id q Hq) in Hb.
  - apply elem_of_app in Hb as [Hb|Hb]; [done|]. apply (cov_waiting _ _ _ _ Hc) in Hb as [e He].
    by rewrite (ok_apart _ (ok_struct _ Hok) id) in He by eauto.
  - apply Hout. apply (cov_members _ _ _ _ Hc id q Hq). rewrite Ha, Hip.
    unfold member_key. rewrite (ok_members _ (ok_struct _ Hok) id q Hq). by apply for_identity_guest.
Qed.

Lemma ban_spares_waiting id e :
  Room.lobby r !! id = Some e -> id ∉ RemovalPublication.lobby p ->
  identity_is_banned (remember_ban fresh now wall p r) id (LobbyEntry.authenticated e) (LobbyEntry.ip e) = false.
Proof.
  intros He Hout. apply not_true_iff_false. intros Hb.
  apply remember_ban_banned in Hb as [Hb|[Hb|(Ha & a & Hip & Hg)]].
  - by rewrite (ok_lobby_bans _ (ok_struct _ Hok) id e He) in Hb.
  - apply elem_of_app in Hb as [Hb|Hb]; [|done]. apply (cov_present _ _ _ _ Hc) in Hb.
    by rewrite (ok_apart _ (ok_struct _ Hok) id Hb) in He.
  - apply Hout. apply (cov_lobby _ _ _ _ Hc id e He). rewrite Ha, Hip.
    unfold waiting_key. rewrite (ok_lobby _ (ok_struct _ Hok) id e He). by apply for_identity_guest.
Qed.
End ban_spares.

(** A removal keeps the invariant when a ban names the whole cohort. *)
Lemma publish_removal_ok fresh now wall p r w :
  room_ok r ->
  (RemovalPublication.ban p = true -> exists target,
     covers r (for_identity target (RemovalPublication.authenticated p) (RemovalPublication.ip p))
       (RemovalPublication.participants p) (RemovalPublication.lobby p)) ->
  room_ok (publish_removal fresh now wall p r w).1.1.
Proof.
  intros Hok Hcov. unfold publish_removal.
  set (r0 := if RemovalPublication.ban p then _ else r). set (notice := fun id => _).
  assert (people_core r0 = people_core r) as Hcore.
  { unfold r0. destruct (RemovalPublication.ban p); [apply remember_ban_core|done]. }
  assert (index_exact r0) as Hidx.
  { injection Hcore as E1 _ E3 _ _ _ _. intros producer id. rewrite E1, E3. apply Hok. }
  pose proof (remove_members_room notice (RemovalPublication.participants p) r0 w [] Hidx) as Hm.
  destruct (foldl (remove_member notice) (r0, w, []) (RemovalPublication.participants p)) as [[r1 w1] ss].
  cbn in Hm. subst r1. destruct (RemovalPublication.ban p) eqn:Eban.
  - set (denied := ServerMessage.LobbyDenied _).
    pose proof (remove_waiting_room denied (RemovalPublication.lobby p)
                  (drop_members (RemovalPublication.participants p) r0) w1) as Hw.
    destruct (foldl (remove_waiting denied) _ (RemovalPublication.lobby p)) as [r2 w2]. cbn in Hw. subst r2.
    cbn [fst]. apply (room_ok_core (drop_waiting (RemovalPublication.lobby p)
                       (drop_members (RemovalPublication.participants p) r0))); [done|].
    destruct (Hcov eq_refl) as [target Hc].
    apply (bans_ok (drop_waiting (RemovalPublication.lobby p)
                       (drop_members (RemovalPublication.participants p) r))).
    + unfold people_core in *. cbn. by injection Hcore as -> -> -> -> -> -> ->.
    + intros id q [Hq Hout]%map_lookup_filter_Some. by apply (ban_spares_members _ _ _ _ _ target).
    + intros id e [He Hout]%map_lookup_filter_Some. by apply (ban_spares_waiting _ _ _ _ _ target).
    + by apply drop_waiting_ok, drop_members_ok.
  - cbn [fst]. apply (room_ok_core (drop_members (RemovalPublication.participants p) r)); [done|].
    by apply drop_members_ok.
Qed.

Lemma publish_unban_ok user guest_ip released r : room_ok r -> room_ok (publish_unban user guest_ip released r).
Proof.
  unfold publish_unban. destruct (forget_ban (Room.social r) user guest_ip) as [social forgotten].
  set (lift := fun (r : room) id => _).
  assert (forall ids q, people_core (foldl lift q ids) = people_core q
    /\ (forall i, is_Some (Room.banned_participants (foldl lift q ids) !! i) -> is_Some (Room.banned_participants q !! i))
    /\ Room.banned_guest_ips (foldl lift q ids) = Room.banned_guest_ips q) as Hfold.
  { induction ids as [|i ids IH]; intros q; cbn [foldl]; [done|]. destruct (IH (lift q i)) as (H1 & H2 & H3).
    split_and!; [done| |done]. intros j Hj. apply H2 in Hj as [x Hx]. cbn in Hx.
    apply lookup_delete_Some in Hx as [_ Hx]. eauto. }
  intros Hok. cbv zeta. set (base := match guest_ip with Some _ => _ | None => _ end).
  destruct (Hfold (released ++ forgotten) base) as (Hc & Hb & Hg).
  apply (fewer_bans_ok r); [|..|done].
  - change (people_core (bump_policy ?q)) with (people_core q). rewrite Hc.
    unfold base. by destruct user, guest_ip.
  - intros id Hid. apply Hb in Hid. revert Hid. unfold base. destruct user, guest_ip; cbn; try done;
      intros [x [_ Hx]%lookup_delete_Some]; eauto.
  - intros ip. change (Room.banned_guest_ips (bump_policy ?q)) with (Room.banned_guest_ips q). rewrite Hg.
    unfold base. destruct user, guest_ip; cbn; try done; intros [x [_ Hx]%lookup_delete_Some]; eauto.
Qed.

(** ** Arrivals *)

Lemma add_member_ok r p :
  let id := Participant.id p in
  room_ok r -> Room.participants r !! id = None -> Room.lobby r !! id = None ->
  Participant.producers p = ∅ ->
  identity_is_banned r id (Participant.authenticated p) (Participant.ip p) = false ->
  (Room.persisted r = false -> Participant.punitive p = sanction_of r (member_key p)) ->
  room_ok (r <| Room.participants ::= <[id := p]> |>).
Proof.
  intros id [[H1 H2 H3 H4 H5 H6 H7 H8] [H9 H10]] Hnew Hout Hprod Hban Hsan. split; split; try done; cbn.
  - intros i q [[<- <-]|[_ Hq]]%lookup_insert_Some; [done|by apply H1].
  - intros i [q [[<- <-]|[_ Hq]]%lookup_insert_Some]; [done|]. apply H3. eauto.
  - intros producer i. cbn. unfold index_exact in H4. rewrite H4. split.
    + intros (q & Hq & Hrec). exists q. rewrite lookup_insert_ne; [done|]. intros <-. by rewrite Hnew in Hq.
    + intros (q & [[<- <-]|[_ Hq]]%lookup_insert_Some & Hrec); [|eauto].
      rewrite Hprod, lookup_empty in Hrec. by destruct Hrec.
  - intros i q [[<- <-]|[_ Hq]]%lookup_insert_Some; [done|by apply (H5 i)].
  - intros Hper i q [[<- <-]|[_ Hq]]%lookup_insert_Some; [by apply Hsan|by apply (H7 Hper i)].
  - intros i q producer rec [[<- <-]|[_ Hq]]%lookup_insert_Some Hrec.
    + by rewrite Hprod, lookup_empty in Hrec.
    + by apply (permitted_ext r _ q), (H9 i q producer).
  - intros maximum Hm. specialize (H10 maximum Hm). rewrite broadcaster_count_size in *.
    match goal with |- context [broadcasters ?x] =>
      assert (broadcasters x ⊆ broadcasters r) as Hsub%subseteq_size; [|lia] end.
    intros i. rewrite !elem_of_broadcasters. cbn.
    intros (q & [[<- <-]|[_ Hq]]%lookup_insert_Some & Hne); [done|eauto].
Qed.

Lemma add_waiting_ok r e :
  let id := LobbyEntry.participant_id e in
  room_ok r -> Room.participants r !! id = None ->
  identity_is_banned r id (LobbyEntry.authenticated e) (LobbyEntry.ip e) = false ->
  (Room.persisted r = false -> LobbyEntry.punitive e = sanction_of r (waiting_key e)) ->
  room_ok (r <| Room.lobby ::= <[id := e]> |>).
Proof.
  intros id [[H1 H2 H3 H4 H5 H6 H7 H8] [H9 H10]] Hnew Hban Hsan. split; split; try done; cbn.
  - intros i q [[<- <-]|[_ Hq]]%lookup_insert_Some; [done|by apply H2].
  - intros i Hi. rewrite lookup_insert_ne; [by apply H3|]. intros <-. rewrite Hnew in Hi. by destruct Hi.
  - intros i q [[<- <-]|[_ Hq]]%lookup_insert_Some; [done|by apply (H6 i)].
  - intros Hper i q [[<- <-]|[_ Hq]]%lookup_insert_Some; [by apply Hsan|by apply (H8 Hper i)].
Qed.

(** Remembering the sanction a joiner comes with. *)
Lemma remember_sanction_ok r key s :
  room_ok r -> (Room.persisted r = false -> s = sanction_of r key) ->
  room_ok (r <| Room.sanctions ::= <[key := s]> |>).
Proof.
  intros [[H1 H2 H3 H4 H5 H6 H7 H8] Ha] Hs. split; [|by destruct Ha].
  split; try done; cbn; intros Hper.
  all: assert (forall k, sanction_of (r <| Room.sanctions ::= <[key := s]> |>) k = sanction_of r k) as Hk
    by (intros k; unfold sanction_of; cbn; destruct (decide (k = key)) as [->|];
        [by rewrite lookup_insert_eq, (Hs Hper)|by rewrite lookup_insert_ne]).
  all: intros i q Hq; rewrite Hk; eauto.
Qed.

(** ** Media *)

Section with_producer.
Context (r : room) (id : participant_id) (p : participant) (producer : producer_id) (rec : producer_record).
Context (Hok : room_ok r) (Hp : Room.participants r !! id = Some p).

Lemma with_producer_index :
  (forall owner, Room.producer_to_participant r !! producer = Some owner -> owner = id) ->
  index_exact (with_producer id p producer rec r).
Proof.
  intros Hown pr i. pose proof (ok_index _ (ok_struct _ Hok)) as H4. unfold index_exact in H4. cbn.
  destruct (decide (pr = producer)) as [->|Hpr].
  - rewrite lookup_insert_eq. split.
    + intros [= <-]. eexists. rewrite lookup_insert_eq. split; [done|]. cbn. by rewrite lookup_insert_eq.
    + intros (q & [[<- <-]|[Hne Hq]]%lookup_insert_Some & Hin); [done|].
      f_equal. symmetry. apply Hown, H4. eauto.
  - rewrite lookup_insert_ne by done. rewrite H4. split.
    + intros (q & Hq & Hin). destruct (decide (i = id)) as [->|Hi].
      * eexists. rewrite lookup_insert_eq. split; [done|]. cbn. rewrite lookup_insert_ne by done. by simplify_eq.
      * exists q. by rewrite lookup_insert_ne.
    + intros (q & [[<- <-]|[_ Hq]]%lookup_insert_Some & Hin); [|eauto].
      exists p. cbn in Hin. by rewrite lookup_insert_ne in Hin.
Qed.

(** One more broadcaster only where the limit left room for one. *)
Lemma with_producer_limit maximum :
  broadcaster_limit r = Some maximum ->
  (Participant.producers p = ∅ -> (broadcaster_count r < maximum)%N) ->
  (broadcaster_count (with_producer id p producer rec r) <= maximum)%N.
Proof.
  intros Hm Hroom. pose proof (ok_limit _ (ok_auth _ Hok) maximum Hm) as H10.
  rewrite broadcaster_count_size in *. destruct (decide (Participant.producers p = ∅)) as [He|Hne].
  - specialize (Hroom He).
    assert (broadcasters (with_producer id p producer rec r) ⊆ {[id]} ∪ broadcasters r) as Hsub%subseteq_size.
    { intros i. rewrite elem_of_union, elem_of_singleton, !elem_of_broadcasters. cbn.
      intros (q & [[<- <-]|[_ Hq]]%lookup_insert_Some & Hx); [by left|right; eauto]. }
    rewrite size_union_alt, size_singleton in Hsub.
    assert (size (broadcasters r ∖ {[id]}) <= size (broadcasters r))%nat
      by apply subseteq_size, subseteq_difference_l, reflexivity. lia.
  - assert (broadcasters (with_producer id p producer rec r) ⊆ broadcasters r) as Hsub%subseteq_size; [|lia].
    intros i. rewrite !elem_of_broadcasters. cbn.
    intros (q & [[<- <-]|[_ Hq]]%lookup_insert_Some & Hx); eauto.
Qed.

Lemma add_producer_ok :
  (forall owner, Room.producer_to_participant r !! producer = Some owner -> owner = id) ->
  is_some_and (producer_source rec) (participant_can_produce r p (producer_kind rec)) = true ->
  room_ok (with_producer id p producer rec r).
Proof.
  intros Hown Hcan. destruct (producer_source rec) as [src|] eqn:Esrc; [cbn in Hcan|done].
  unfold participant_can_produce in Hcan.
  destruct (producer_allowed_without_capacity r p (producer_kind rec) src) eqn:Eall; [cbn [negb] in Hcan|done].
  assert (record_allowed r p rec = true) as Hrec by (unfold record_allowed; by rewrite Esrc).
  pose proof (with_producer_index Hown) as Hidx. pose proof with_producer_limit as Hlim.
  destruct Hok as [[H1 H2 H3 H4 H5 H6 H7 H8] [H9 H10]]. split; split; try done; cbn.
  - intros i q [[<- <-]|[_ Hq]]%lookup_insert_Some; [exact (H1 id p Hp)|by apply H1].
  - intros i [q [[<- <-]|[_ Hq]]%lookup_insert_Some]; apply H3; eauto.
  - intros i q [[<- <-]|[_ Hq]]%lookup_insert_Some; [exact (H5 id p Hp)|by apply (H5 i)].
  - intros Hper i q [[<- <-]|[_ Hq]]%lookup_insert_Some; [exact (H7 Hper id p Hp)|by apply (H7 Hper i)].
  - intros i q pr rec' [[<- <-]|[_ Hq]]%lookup_insert_Some Hin.
    + cbn in Hin. apply (permitted_ext r _ p); [done..|].
      apply lookup_insert_Some in Hin as [[_ <-]|[_ Hin]]; [by apply allowed_permitted|by apply (H9 id p pr)].
    + by apply (permitted_ext r _ q), (H9 i q pr).
  - intros maximum Hm. apply Hlim; [done|]. intros He.
    change (broadcaster_limit r = Some maximum) in Hm. rewrite Hm, bool_decide_eq_true_2 in Hcan by done.
    cbn [andb] in Hcan. by bool_hyps.
Qed.
End with_producer.

Lemma paused_ok r id producer is_paused : room_ok r -> room_ok (record_producer_paused r id producer is_paused).
Proof.
  intros [[H1 H2 H3 H4 H5 H6 H7 H8] [H9 H10]].
  set (f := fun p : participant => p <| Participant.producers ::= alter (fun rec => rec <| paused := is_paused |>) producer |>).
  assert (forall i q, Room.participants (record_producer_paused r id producer is_paused) !! i = Some q ->
    exists p, Room.participants r !! i = Some p /\ (q = p \/ q = f p)) as Hq.
  { intros i q. cbn. rewrite lookup_alter_Some. intros [(-> & p & Hp & ->)|[_ Hp]]; eauto. }
  assert (forall p pr, is_Some (Participant.producers (f p) !! pr) <-> is_Some (Participant.producers p !! pr)) as Hf.
  { intros p pr. cbn. by rewrite lookup_alter_is_Some. }
  split; split; try done.
  - intros i q (p & Hp & [-> | ->])%Hq; exact (H1 i p Hp).
  - intros i [q (p & Hp & _)%Hq]. apply H3. eauto.
  - intros pr i. unfold index_exact in H4. cbn [Room.producer_to_participant record_producer_paused].
    etransitivity; [apply H4|]. split.
    + intros (p & Hp & Hrec). destruct (decide (i = id)) as [->|Hne].
      * exists (f p). cbn. rewrite lookup_alter_eq, Hp. split; [done|]. by apply Hf.
      * exists p. cbn. by rewrite lookup_alter_ne.
    + intros (q & (p & Hp & [-> | ->])%Hq & Hrec); exists p; split; try done. by apply Hf.
  - intros i q (p & Hp & [-> | ->])%Hq; exact (H5 i p Hp).
  - intros Hper i q (p & Hp & [-> | ->])%Hq; exact (H7 Hper i p Hp).
  - intros i q pr rec (p & Hp & [-> | ->])%Hq Hrec.
    + by apply (permitted_ext r _ p), (H9 i p pr).
    + cbn in Hrec. apply (permitted_ext r _ p); [done..|].
      apply lookup_alter_Some in Hrec as [(-> & rec0 & Hrec & ->)|[_ Hrec]]; exact (H9 i p _ _ Hp Hrec).
  - intros maximum Hm. specialize (H10 maximum Hm). rewrite broadcaster_count_size in *.
    assert (broadcasters (record_producer_paused r id producer is_paused) ⊆ broadcasters r) as Hsub%subseteq_size; [|lia].
    intros i. rewrite !elem_of_broadcasters. intros (q & (p & Hp & [-> | ->])%Hq & Hne); exists p; split; try done.
    intros He. apply Hne. cbn. by rewrite He, alter_empty.
Qed.

(** ** Policy *)

Lemma clear_ok r :
  room_ok (r <| Room.participants := ∅ |> <| Room.lobby := ∅ |> <| Room.producer_to_participant := ∅ |>).
Proof.
  split; split; cbn; try done.
  - intros producer id. cbn. rewrite lookup_empty. split; [done|]. intros (p & Hp & _). by rewrite lookup_empty in Hp.
  - intros maximum _. rewrite broadcaster_count_size. unfold broadcasters. cbn.
    rewrite map_filter_empty, dom_empty_L, size_empty. lia.
Qed.

(** New settings take effect with the revocation that follows them. *)
Lemma settings_ok r settings reason w :
  room_ok r ->
  room_ok (revoke_unauthorized_producers None reason (r <| Room.settings := settings |>) w).1.1.
Proof.
  intros [Hs _]. apply revoke_restores; [|by intros|by left]. apply (same_people_struct r); [by split|done].
Qed.

(** Settings that permit the same need no revocation. *)
Lemma same_policy_ok r settings :
  (forall p rec, record_allowed (r <| Room.settings := settings |>) p rec = record_allowed r p rec) ->
  broadcaster_limit (r <| Room.settings := settings |>) = broadcaster_limit r ->
  room_ok r -> room_ok (r <| Room.settings := settings |>).
Proof.
  intros Ha Hl [Hs [H9 H10]]. split; [apply (same_people_struct r); [by split|done]|]. split.
  - intros id p producer rec Hp Hrec. destruct (H9 id p producer rec Hp Hrec) as [H1 H2].
    split; unfold policy_allows in *; by rewrite Ha.
  - intros maximum. rewrite Hl. apply H10.
Qed.

Lemma with_topic_ok room_id topic r : room_ok r -> room_ok (with_topic room_id topic r).
Proof.
  apply same_policy_ok; [|unfold broadcaster_limit; cbn; by destruct (Room.settings r)].
  intros p rec. unfold record_allowed, producer_allowed_without_capacity. cbn.
  destruct (producer_source rec) as [src|]; [cbn|done]. destruct (Room.settings r) as [s|]; cbn; [done|].
  by rewrite !andb_false_r.
Qed.

Lemma with_retention_ok days settings r :
  Room.settings r = Some settings -> room_ok r ->
  room_ok (r <| Room.settings := Some (settings <| RoomSettings.history_retention_days := days |>) |>).
Proof.
  intros Hset. apply same_policy_ok; [|unfold broadcaster_limit; cbn; by rewrite Hset].
  intros p rec. unfold record_allowed, producer_allowed_without_capacity. cbn. by rewrite Hset.
Qed.
