(* ===== verification/Process.v ===== *)
(** * Interleaved handlers

    An async handler runs in critical sections.  Between two of them other
    tasks run: at every lock it waits for, and at every answer it awaits from
    the database, the media workers or the clock.  [process] is that structure;
    [step] interleaves a pool of them; [wp] is the rely-guarantee logic in which
    the handlers are proved, and [steps_keep] its soundness. *)

From S2P Require Import Prelude.
From stdpp Require Import relations.

Section process.
Context {world lock query : Type} {reply : query -> Type}.

Inductive process (A : Type) : Type :=
| Return (a : A)
(** One critical section: nothing else runs during it. *)
| Atomic {X : Type} (m : world -> world * X) (k : X -> process A)
| Acquire (l : lock) (k : process A)
(** Releasing a lock the task no longer holds does nothing. *)
| Release (l : lock) (k : process A)
(** An answer from outside the process. *)
| Await (q : query) (k : reply q -> process A)
(** A task that runs on its own. *)
| Spawn (child : process unit) (k : process A).
End process.
Arguments process : clear implicits.
Arguments Return {world lock query reply A} a.
Arguments Atomic {world lock query reply A X} m k.
Arguments Acquire {world lock query reply A} l k.
Arguments Release {world lock query reply A} l k.
Arguments Await {world lock query reply A} q k.
Arguments Spawn {world lock query reply A} child k.

Section bind.
Context {world lock query : Type} {reply : query -> Type}.
Local Abbreviation process := (process world lock query reply).

Fixpoint pbind {A B : Type} (p : process A) (f : A -> process B) : process B :=
  match p with
  | Return a => f a
  | Atomic m k => Atomic m (fun x => pbind (k x) f)
  | Acquire l k => Acquire l (pbind k f)
  | Release l k => Release l (pbind k f)
  | Await q k => Await q (fun r => pbind (k r) f)
  | Spawn child k => Spawn child (pbind k f)
  end.

(** The [?] operator: an error ends the handler. *)
Definition try_bind {E A B : Type} (p : process (result E A)) (f : A -> process (result E B))
  : process (result E B) :=
  pbind p (fun r => match r with Ok a => f a | Err e => Return (Err e) end).

Definition atomically {X : Type} (m : world -> world * X) : process X := Atomic m Return.
Definition ask (q : query) : process (reply q) := Await q Return.

(** A guard held for the duration of [p], dropped on every way out. *)
Definition holding {A : Type} (l : lock) (p : process A) : process A :=
  Acquire l (pbind p (fun a => Release l (Return a))).
End bind.

Declare Scope process_scope.
Delimit Scope process_scope with process.
Notation "'let*' x ':=' p 'in' k" := (pbind p (fun x => k))
  (at level 10, x name, p at level 100, k at level 200) : process_scope.
Notation "'let?' x ':=' p 'in' k" := (try_bind p (fun x => k))
  (at level 10, x name, p at level 100, k at level 200) : process_scope.
Notation "'let?' ' p ':=' m 'in' k" := (try_bind m (fun x => match x with p => k end))
  (at level 10, p pattern, m at level 100, k at level 200) : process_scope.

(** ** Interleaving *)

Section step.
Context {world lock query : Type} {reply : query -> Type} `{Countable lock}.
Local Abbreviation process := (process world lock query reply).

Record config := Config {
  the_world : world;
  held : gmap lock N;
  pool : gmap N (process unit)
}.

(** What the outside does to the world, and which handlers a request starts;
    its answers are arbitrary. *)
Context (env : world -> world -> Prop) (api : process unit -> Prop).

Definition drop_lock (l : lock) (t : N) (h : gmap lock N) : gmap lock N :=
  if bool_decide (h !! l = Some t) then delete l h else h.

(** A step, and the task that takes it. *)
Inductive step : option N -> config -> config -> Prop :=
| step_atomic w h ts t X (m : world -> world * X) k w' x :
    ts !! t = Some (Atomic m k) -> m w = (w', x) ->
    step (Some t) (Config w h ts) (Config w' h (<[t := k x]> ts))
| step_acquire w h ts t l k :
    ts !! t = Some (Acquire l k) -> h !! l = None ->
    step (Some t) (Config w h ts) (Config w (<[l := t]> h) (<[t := k]> ts))
| step_release w h ts t l k :
    ts !! t = Some (Release l k) ->
    step (Some t) (Config w h ts) (Config w (drop_lock l t h) (<[t := k]> ts))
| step_await w h ts t q k r :
    ts !! t = Some (Await q k) ->
    step (Some t) (Config w h ts) (Config w h (<[t := k r]> ts))
| step_spawn w h ts t child k t' :
    ts !! t = Some (Spawn child k) -> ts !! t' = None ->
    step (Some t) (Config w h ts) (Config w h (<[t' := child]> (<[t := k]> ts)))
| step_request w h ts t p :
    api p -> ts !! t = None ->
    step None (Config w h ts) (Config w h (<[t := p]> ts))
| step_env w h ts w' :
    env w w' -> step None (Config w h ts) (Config w' h ts).

Definition some_step (c c' : config) : Prop := exists who, step who c c'.
End step.
Arguments config world lock query reply {_ _}.

(** No section is excused. *)
Definition unexcused {world lock : Type} `{Countable lock} (t : N) (h : gmap lock N) (w w' : world) : Prop := False.

(** ** Rely and guarantee

    A lock [l] protects part of the world: [protects l w w'] says that part is
    the same in both.  Whoever does not hold [l] leaves it alone, and [idle l]
    holds of it while nobody does; [evolves] is what every section respects,
    over any number of them, and [local] what each single section does.  A
    section may be [excused], that is, break all this; nothing is claimed of an
    execution beyond such a step. *)

Section logic.
Context {world lock query : Type} {reply : query -> Type} `{Countable lock}.
Local Abbreviation process := (process world lock query reply).
Context (Inv : world -> Prop) (protects : lock -> world -> world -> Prop).
Context (evolves local : world -> world -> Prop) (idle : lock -> world -> Prop).
Context (idle_stable : forall l w w', protects l w w' -> idle l w -> idle l w').
Context (protects_preorder : forall l, PreOrder (protects l)) (evolves_preorder : PreOrder evolves).
Context (local_refl : Reflexive local).
Context (excused : N -> gmap lock N -> world -> world -> Prop).

(** What others may do between two sections of task [t]. *)
Record rely (t : N) (w : world) (h : gmap lock N) (w' : world) (h' : gmap lock N) : Prop := {
  rely_held : forall l, h !! l = Some t <-> h' !! l = Some t;
  rely_protects : forall l, h !! l = Some t -> protects l w w';
  rely_evolves : evolves w w'
}.

(** What a section of task [t] does to others. *)
Record guarantee (t : N) (h : gmap lock N) (w w' : world) : Prop := {
  guar_protects : forall l, h !! l <> Some t -> protects l w w';
  guar_evolves : evolves w w';
  guar_local : local w w'
}.

Fixpoint wp {A : Type} (t : N) (p : process A) (Q : A -> world -> gmap lock N -> Prop) (w : world)
    (h : gmap lock N) : Prop :=
  match p with
  | Return a => Q a w h
  | Atomic m k => forall w0 h0, rely t w h w0 h0 -> Inv w0 ->
      excused t h0 w0 (m w0).1
      \/ (Inv (m w0).1 /\ guarantee t h0 w0 (m w0).1 /\ wp t (k (m w0).2) Q (m w0).1 h0)
  | Acquire l k => forall w0 h0, rely t w h w0 h0 -> Inv w0 -> h0 !! l = None -> idle l w0 ->
      wp t k Q w0 (<[l := t]> h0)
  | Release l k => forall w0 h0, rely t w h w0 h0 -> Inv w0 ->
      (h0 !! l = Some t -> idle l w0) /\ wp t k Q w0 (drop_lock l t h0)
  | Await q k => forall r, wp t (k r) Q w h
  | Spawn child k =>
      (forall t' w0 h0, (forall l, h0 !! l <> Some t') -> evolves w w0 -> Inv w0 ->
         wp t' child (fun _ _ _ => True) w0 h0)
      /\ wp t k Q w h
  end.

Lemma rely_refl t w h : rely t w h w h.
Proof. split; [done|..]; reflexivity. Qed.

Lemma rely_trans t w1 h1 w2 h2 w3 h3 :
  rely t w1 h1 w2 h2 -> rely t w2 h2 w3 h3 -> rely t w1 h1 w3 h3.
Proof.
  intros [H1 H2 H3] [H4 H5 H6]. split.
  - intros l. by rewrite H1, H4.
  - intros l Hl. etransitivity; [by apply H2|]. apply H5. by apply H1.
  - by etransitivity.
Qed.

(** What holds of a task now holds of it after whatever others do. *)
Lemma wp_stable {A : Type} t (p : process A) Q w h w' h' :
  (forall a w h w' h', rely t w h w' h' -> Q a w h -> Q a w' h') ->
  rely t w h w' h' -> wp t p Q w h -> wp t p Q w' h'.
Proof.
  intros HQ. revert w h w' h'. induction p; intros w h w' h' Hr; cbn.
  - by apply HQ.
  - intros Hp w0 h0 Hr0. apply Hp. by eapply rely_trans.
  - intros Hp w0 h0 Hr0. apply Hp. by eapply rely_trans.
  - intros Hp w0 h0 Hr0. apply Hp. by eapply rely_trans.
  - intros Hp r. eauto.
  - intros [Hc Hk]. split; [|by eauto]. intros t' w0 h0 Hno He. apply Hc; [done|].
    etransitivity; [apply Hr|done].
Qed.

Lemma wp_mono {A : Type} t (p : process A) (Q Q' : A -> world -> gmap lock N -> Prop) w h :
  (forall a w h, Q a w h -> Q' a w h) -> wp t p Q w h -> wp t p Q' w h.
Proof.
  intros HQ. revert w h. induction p; intros w h; cbn; eauto.
  - intros Hp w0 h0 Hr Hi. destruct (Hp w0 h0 Hr Hi) as [?|(? & ? & ?)]; eauto 6.
  - intros Hp w0 h0 Hr Hi. destruct (Hp w0 h0 Hr Hi). eauto.
  - intros [Hc Hk]. split; eauto.
Qed.

Lemma wp_bind {A B : Type} t (p : process A) (f : A -> process B) Q w h :
  wp t p (fun a w h => wp t (f a) Q w h) w h -> wp t (pbind p f) Q w h.
Proof.
  revert w h. induction p; intros w h; cbn; eauto.
  - intros Hp w0 h0 Hr Hi. destruct (Hp w0 h0 Hr Hi) as [?|(? & ? & ?)]; eauto 6.
  - intros Hp w0 h0 Hr Hi. destruct (Hp w0 h0 Hr Hi). eauto.
  - intros [Hc Hk]. split; eauto.
Qed.

Lemma wp_try {E A B : Type} t (p : process (result E A)) (f : A -> process (result E B)) Q w h :
  wp t p (fun r w h => match r with Ok a => wp t (f a) Q w h | Err e => Q (Err e) w h end) w h ->
  wp t (try_bind p f) Q w h.
Proof.
  intros Hp. unfold try_bind. apply wp_bind. eapply wp_mono; [|exact Hp]. intros [a|e] w0 h0; done.
Qed.

(** *** Soundness *)

Context (env : world -> world -> Prop) (api : process unit -> Prop).
Context (env_ok : forall w w', Inv w -> env w w' -> Inv w' /\ evolves w w' /\ local w w' /\ forall l, protects l w w').
Context (api_ok : forall p, api p -> forall t w h, (forall l, h !! l <> Some t) -> Inv w ->
                    wp t p (fun _ _ _ => True) w h).

Record config_ok (c : config world lock query reply) : Prop := {
  cfg_inv : Inv (the_world c);
  cfg_tasks : forall t p, pool c !! t = Some p -> wp t p (fun _ _ _ => True) (the_world c) (held c);
  cfg_owners : forall l t, held c !! l = Some t -> is_Some (pool c !! t);
  cfg_idle : forall l, held c !! l = None -> idle l (the_world c)
}.

(** A section of [t] is interference that every other task relies on. *)
Lemma guarantee_rely t t' w h w' : t' <> t -> guarantee t h w w' -> rely t' w h w' h.
Proof. intros Hne [Hp He _]. split; [done| |done]. intros l Hl. apply Hp. congruence. Qed.

(** Locking and unlocking by [t] leave what other tasks hold. *)
Lemma acquire_rely t t' l w h : t' <> t -> h !! l = None -> rely t' w h w (<[l := t]> h).
Proof.
  intros Hne Hl. split; [|by intros; reflexivity|reflexivity]. intros l'.
  destruct (decide (l' = l)) as [->|?]; [|by rewrite lookup_insert_ne]. rewrite lookup_insert_eq, Hl.
  split; congruence.
Qed.

Lemma release_rely t t' l w h : t' <> t -> rely t' w h w (drop_lock l t h).
Proof.
  intros Hne. split; [|by intros; reflexivity|reflexivity]. intros l'. unfold drop_lock.
  case_bool_decide as Hl; [|done]. destruct (decide (l' = l)) as [->|?]; [|by rewrite lookup_delete_ne].
  rewrite lookup_delete_eq, Hl. split; congruence.
Qed.

Abbreviation fine t p w h := (wp (A := unit) t p (fun _ _ _ => True) w h).

Lemma fine_stable t p w h w' h' : rely t w h w' h' -> fine t p w h -> fine t p w' h'.
Proof. by apply wp_stable. Qed.

(** Replacing the running task. *)
Lemma tasks_update (ts : gmap N (process unit)) t k w h w' h' :
  (forall t' p, ts !! t' = Some p -> fine t' p w h) ->
  (forall t', t' <> t -> rely t' w h w' h') -> fine t k w' h' ->
  forall t' p, <[t := k]> ts !! t' = Some p -> fine t' p w' h'.
Proof.
  intros Hts Hr Hk t' p [[<- <-]|[Hne Hp]]%lookup_insert_Some; [done|].
  eapply fine_stable; [by apply Hr|by apply Hts].
Qed.

(** A lock that is free after [t] locked or unlocked, or ran a section. *)
Lemma idle_acquire t l (h : gmap lock N) w :
  (forall l, h !! l = None -> idle l w) -> forall l', <[l := t]> h !! l' = None -> idle l' w.
Proof. intros Hidle l' [Hl' _]%lookup_insert_None. auto. Qed.

Lemma idle_release t l (h : gmap lock N) w :
  (h !! l = Some t -> idle l w) -> (forall l, h !! l = None -> idle l w) ->
  forall l', drop_lock l t h !! l' = None -> idle l' w.
Proof.
  intros Hl Hidle l'. unfold drop_lock. case_bool_decide as Ht; [|auto].
  rewrite lookup_delete_None. intros [<-|Hl']; auto.
Qed.

Lemma idle_section t (h : gmap lock N) w w' :
  guarantee t h w w' -> (forall l, h !! l = None -> idle l w) -> forall l, h !! l = None -> idle l w'.
Proof. intros [Hp _ _] Hidle l Hl. eapply idle_stable; [|by apply Hidle]. apply Hp. congruence. Qed.

(** A step that is excused. *)
Definition strays (who : option N) (c c' : config world lock query reply) : Prop :=
  match who with Some t => excused t (held c) (the_world c) (the_world c') | None => False end.
(** The other steps. *)
Definition orderly (c c' : config world lock query reply) : Prop :=
  exists who, step env api who c c' /\ ~ strays who c c'.

Lemma step_keeps who c c' : step env api who c c' -> config_ok c -> strays who c c' \/ config_ok c'.
Proof.
  intros Hstep [Hinv Htasks Howners Hidle]. destruct Hstep as
    [w h ts t X m k w' x Ht Hm|w h ts t l k Ht Hl|w h ts t l k Ht|w h ts t q k r Ht
    |w h ts t child k t' Ht Hnew|w h ts t p Hapi Hnew|w h ts w' He]; cbn in *.
  - pose proof (Htasks t _ Ht w h (rely_refl t w h) Hinv) as Ha. rewrite Hm in Ha. destruct Ha as [Ha|(Hi & Hg & Hk)]; [by left|].
    right. split; cbn; [done| | |by eapply idle_section].
    + eapply tasks_update; [done| |done]. intros t' Hne. by eapply guarantee_rely.
    + intros l t' Hl. rewrite lookup_insert_is_Some'. eauto.
  - pose proof (Htasks t _ Ht w h (rely_refl t w h) Hinv Hl (Hidle l Hl)) as Hk. right. split; cbn; [done| | |by apply idle_acquire].
    + eapply tasks_update; [done| |done]. intros t' Hne. by apply acquire_rely.
    + intros l' t' [[<- <-]|[_ Hl']]%lookup_insert_Some; rewrite lookup_insert_is_Some'; eauto.
  - pose proof (Htasks t _ Ht w h (rely_refl t w h) Hinv) as [Hfree Hk]. right. split; cbn; [done| | |by apply idle_release].
    + eapply tasks_update; [done| |done]. intros t' Hne. by apply release_rely.
    + intros l' t'. unfold drop_lock. rewrite lookup_insert_is_Some'. case_bool_decide; [|by eauto].
      intros [_ Hl']%lookup_delete_Some. eauto.
  - right. split; cbn; [done| | |done].
    + eapply tasks_update; [done|intros; apply rely_refl|by apply (Htasks t _ Ht)].
    + intros l t' Hl. rewrite lookup_insert_is_Some'. eauto.
  - destruct (Htasks t _ Ht) as [Hc Hk]. right. split; cbn; [done| | |done].
    + eapply tasks_update; [|intros; apply rely_refl|apply Hc; [|reflexivity|done]].
      * eapply tasks_update; [done|intros; apply rely_refl|done].
      * intros l Hl. destruct (Howners l t' Hl) as [? Hsome]. by rewrite Hnew in Hsome.
    + intros l t0 Hl. rewrite !lookup_insert_is_Some'. eauto.
  - right. split; cbn; [done| | |done].
    + eapply tasks_update; [done|intros; apply rely_refl|apply api_ok; [done| |done]].
      intros l Hl. destruct (Howners l t Hl) as [? Hsome]. by rewrite Hnew in Hsome.
    + intros l t0 Hl. rewrite lookup_insert_is_Some'. eauto.
  - destruct (env_ok w w' Hinv He) as (Hi & Hev & _ & Hpr). right. split; cbn; [done| |done|].
    + intros t p Hp. eapply fine_stable; [|by apply Htasks]. by split.
    + intros l Hl. eapply idle_stable; [apply Hpr|auto].
Qed.

(** Whatever is interleaved, the invariant holds between sections. *)
Lemma orderly_keep c c' : rtc orderly c c' -> config_ok c -> config_ok c'.
Proof.
  induction 1 as [|c1 c2 c3 (who & Hs & Hin) _ IH]; [done|]. intros Hok.
  destruct (step_keeps who c1 c2 Hs Hok); [done|auto].
Qed.

(** Each step respects [evolves] and [local]. *)
Lemma step_relations who c c' : step env api who c c' -> config_ok c ->
  strays who c c' \/ (evolves (the_world c) (the_world c') /\ local (the_world c) (the_world c')).
Proof.
  intros Hstep [Hinv Htasks _ _].
  destruct Hstep as [w h ts t X m k w' x Ht Hm| | | | | |w h ts w' He]; cbn in *; try by right.
  - pose proof (Htasks t _ Ht w h (rely_refl t w h) Hinv) as Ha. rewrite Hm in Ha.
    destruct Ha as [Ha|(_ & [_ Hev Hl] & _)]; [by left|by right].
  - right. by destruct (env_ok w w' Hinv He) as (_ & Hev & Hl & _).
Qed.

(** While [t] holds a lock, no other task touches what it protects. *)
Lemma step_protects who c c' l t : step env api who c c' -> config_ok c ->
  held c !! l = Some t -> who <> Some t -> strays who c c' \/ protects l (the_world c) (the_world c').
Proof.
  intros Hstep [Hinv Htasks _ _].
  destruct Hstep as [w h ts t' X m k w' x Ht Hm| | | | | |w h ts w' He]; cbn in *; try by right.
  - intros Hl Hne. pose proof (Htasks t' _ Ht w h (rely_refl t' w h) Hinv) as Ha. rewrite Hm in Ha.
    destruct Ha as [Ha|(_ & [Hp _ _] & _)]; [by left|]. right. apply Hp; congruence.
  - intros _ _. right. by destruct (env_ok w w' Hinv He) as (_ & _ & _ & Hp).
Qed.

Lemma orderly_evolve c c' : rtc orderly c c' -> config_ok c -> evolves (the_world c) (the_world c').
Proof.
  induction 1 as [|c1 c2 c3 (who & Hs & Hin) _ IH]; [done|]. intros Hok.
  destruct (step_relations who c1 c2 Hs Hok) as [?|[He _]]; [done|]. etransitivity; [exact He|]. apply IH.
  by destruct (step_keeps who c1 c2 Hs Hok).
Qed.

(** An execution keeps the invariant, or a step that strays is found in it. *)
Lemma steps_keep c c' : rtc (some_step env api) c c' -> config_ok c ->
  config_ok c' \/ exists who c1 c2, rtc (some_step env api) c c1 /\ step env api who c1 c2 /\ strays who c1 c2
                                  /\ rtc (some_step env api) c2 c'.
Proof.
  induction 1 as [|c1 c2 c3 [who Hs] Hr IH]; [by left|]. intros Hok.
  destruct (step_keeps who c1 c2 Hs Hok) as [Hst|Hok2]; [right; by exists who, c1, c2|].
  destruct (IH Hok2) as [?|(who' & d1 & d2 & H1 & H2)]; [by left|right]. exists who', d1, d2.
  split; [|done]. eapply rtc_l; [|done]. by exists who.
Qed.
End logic.
