(* ===== verification/Triples.v ===== *)
(** * Triples

    Reasoning about one handler: it starts in a world, holding some locks;
    whatever others do in between, each of its sections keeps the invariant,
    and it ends in a world and with locks that satisfy its postcondition.  The
    triples are those of [Process.wp] with the held locks as a set. *)

From S2P Require Import Prelude Process.

Lemma unlocked `{Countable lock} (l : lock) (L : gset lock) : l ∉ L -> ({[l]} ∪ L) ∖ {[l]} = L.
Proof.
  intros Hl. apply set_eq. intros l'. rewrite elem_of_difference, elem_of_union, elem_of_singleton.
  split; [tauto|]. intros Hl'. split; [by right|]. by intros ->.
Qed.

Section triples.
Context {world lock query : Type} {reply : query -> Type} `{Countable lock}.
Local Abbreviation process := (process world lock query reply).
Context {Inv : world -> Prop} {protects : lock -> world -> world -> Prop}.
Context {evolves local : world -> world -> Prop} {idle : lock -> world -> Prop}.
Context `{protects_preorder : !forall l, PreOrder (protects l)} `{evolves_preorder : !PreOrder evolves}.
Context {excused : N -> gmap lock N -> world -> world -> Prop}.

Local Abbreviation wp := (Process.wp Inv protects evolves local idle excused).
Local Abbreviation rely := (Process.rely protects evolves).

(** [t] holds exactly [L]. *)
Definition owns (t : N) (h : gmap lock N) (L : gset lock) : Prop := forall l, h !! l = Some t <-> l ∈ L.

(** What may have happened while a task that holds [L] was not running. *)
Record frame (L : gset lock) (w w' : world) : Prop := {
  fr_evolves : evolves w w';
  fr_protects : forall l, l ∈ L -> protects l w w'
}.

(** What one section of a task that holds [L] does. *)
Record section_ok (L : gset lock) (w w' : world) : Prop := {
  se_ok : Inv w';
  se_evolves : evolves w w';
  se_local : local w w';
  se_protects : forall l, l ∉ L -> protects l w w'
}.

#[global] Instance frame_preorder L : PreOrder (frame L).
Proof.
  split; [by split|]. intros w1 w2 w3 [H1 H2] [G1 G2]. split; [by trans w2|].
  intros l Hl. trans w2; auto.
Qed.

(** [p], started in [w] holding [L], keeps the invariant in every section and
    ends in a world and with locks that satisfy [Q]. *)
Definition triple {A} (L : gset lock) (w : world) (p : process A) (Q : A -> world -> gset lock -> Prop) : Prop :=
  forall t h, owns t h L ->
    wp t p (fun x w' h' => exists L', owns t h' L' /\ evolves w w' /\ Q x w' L') w h.

Lemma rely_frame t w h w' h' L : owns t h L -> rely t w h w' h' -> frame L w w' /\ owns t h' L.
Proof.
  intros Ho [Hh Hp He]. split.
  - split; [done|]. intros l Hl. apply Hp. by apply Ho.
  - intros l. by rewrite <-Hh.
Qed.

Section rules.
Context {A : Type}.
Implicit Types (L : gset lock) (w : world) (Q : A -> world -> gset lock -> Prop).

Lemma triple_return L w x Q : Q x w L -> triple L w (Return x) Q.
Proof. intros HQ t h Ho. exists L. by split. Qed.

Lemma triple_mono L w (p : process A) Q Q' :
  (forall x w' L', evolves w w' -> Q x w' L' -> Q' x w' L') -> triple L w p Q -> triple L w p Q'.
Proof.
  intros HQ Hp t h Ho. eapply wp_mono; [|by apply Hp]. intros x w' h' (L' & HoL & He & Hx). exists L'. auto.
Qed.

Lemma triple_bind {B} L w (p : process B) (f : B -> process A) (Q' : B -> world -> gset lock -> Prop) Q :
  triple L w p Q' ->
  (forall x w' L', evolves w w' -> Q' x w' L' -> triple L' w' (f x) Q) ->
  triple L w (pbind p f) Q.
Proof.
  intros Hp Hf t h Ho. apply wp_bind. eapply wp_mono; [|by apply Hp].
  intros x w' h' (L' & HoL & He & Hx). eapply wp_mono; [|by apply (Hf x w' L')].
  intros y w2 h2 (L2 & Ho2 & He2 & Hy). exists L2. split; [done|]. split; [by trans w'|done].
Qed.

Lemma triple_try {E B} L w (p : process (result E B)) (f : B -> process (result E A))
    (Q' : result E B -> world -> gset lock -> Prop) (Q : result E A -> world -> gset lock -> Prop) :
  triple L w p Q' ->
  (forall x w' L', evolves w w' -> Q' (Ok x) w' L' -> triple L' w' (f x) Q) ->
  (forall e w' L', evolves w w' -> Q' (Err e) w' L' -> Q (Err e) w' L') ->
  triple L w (try_bind p f) Q.
Proof.
  intros Hp Hf He t h Ho. unfold try_bind. apply wp_bind. eapply wp_mono; [|by apply Hp].
  intros [x|e] w' h' (L' & HoL & Hev & Hx).
  - eapply wp_mono; [|by apply (Hf x w' L')]. intros y w2 h2 (L2 & Ho2 & He2 & Hy).
    exists L2. split; [done|]. split; [by trans w'|done].
  - exists L'. auto.
Qed.

(** A section that is excused unless it is as it should be. *)
Lemma triple_atomic_excused L w (m : world -> world * A) Q :
  (forall w0, frame L w w0 -> Inv w0 ->
     (forall t h, owns t h L -> excused t h w0 (m w0).1) \/ (section_ok L w0 (m w0).1 /\ Q (m w0).2 (m w0).1 L)) ->
  triple L w (atomically m) Q.
Proof.
  intros Hm t h Ho w0 h0 Hr Hi. destruct (rely_frame _ _ _ _ _ _ Ho Hr) as [Hf Ho0].
  destruct (Hm w0 Hf Hi) as [Hex|[[S1 S2 S3 S4] HQ]]; [left; by apply Hex|right]. split; [done|]. split.
  - split; [|done|done]. intros l Hl. apply S4. by rewrite <-(Ho0 l).
  - exists L. split; [done|]. split; [|done]. trans w0; [apply Hf|done].
Qed.

Lemma triple_atomic L w (m : world -> world * A) Q :
  (forall w0, frame L w w0 -> Inv w0 -> section_ok L w0 (m w0).1 /\ Q (m w0).2 (m w0).1 L) ->
  triple L w (atomically m) Q.
Proof. intros Hm. apply triple_atomic_excused. auto. Qed.

Lemma triple_await L w q (k : reply q -> process A) Q :
  (forall r, triple L w (k r) Q) -> triple L w (Await q k) Q.
Proof. intros Hk t h Ho r. by apply Hk. Qed.

Lemma triple_ask_bind L w q (f : reply q -> process A) Q :
  (forall r, triple L w (f r) Q) -> triple L w (pbind (ask q) f) Q.
Proof. apply triple_await. Qed.

Lemma triple_spawn L w (child : process unit) (k : process A) Q :
  (forall w0, evolves w w0 -> Inv w0 -> triple ∅ w0 child (fun _ _ _ => True)) ->
  triple L w k Q -> triple L w (Spawn child k) Q.
Proof.
  intros Hc Hk t h Ho. split; [|by apply Hk]. intros t' w0 h0 Hno He Hi.
  eapply wp_mono; [|apply Hc; [done..|]]; [done|]. intros l. split; [intros Hh; by destruct (Hno l)|set_solver].
Qed.

Lemma triple_unlock L w l (k : process A) Q :
  (forall w0, frame L w w0 -> Inv w0 -> (l ∈ L -> idle l w0) /\ triple (L ∖ {[l]}) w0 k Q) ->
  triple L w (Release l k) Q.
Proof.
  intros Hk t h Ho w0 h0 Hr Hi. destruct (rely_frame _ _ _ _ _ _ Ho Hr) as [Hf Ho0].
  destruct (Hk w0 Hf Hi) as [Hidle Hk']. split; [by rewrite (Ho0 l)|]. eapply wp_mono; [|apply Hk'].
  - intros x w' h' (L' & HoL & He & HQ). exists L'. split; [done|]. split; [|done]. trans w0; [apply Hf|done].
  - intros l'. unfold drop_lock. rewrite elem_of_difference, elem_of_singleton, <-(Ho0 l').
    case_bool_decide as Hl.
    + rewrite lookup_delete_Some. intuition.
    + split; [|tauto]. intros Hh. split; [done|]. intros ->. done.
Qed.

Lemma triple_lock L w l (k : process A) Q :
  (forall w0, l ∉ L -> frame L w w0 -> Inv w0 -> idle l w0 -> triple ({[l]} ∪ L) w0 k Q) ->
  triple L w (Acquire l k) Q.
Proof.
  intros Hk t h Ho w0 h0 Hr Hi Hl Hidle. destruct (rely_frame _ _ _ _ _ _ Ho Hr) as [Hf Ho0].
  eapply wp_mono; [|apply (Hk w0)]; [|..|done|done|done|].
  - intros x w' h' (L' & HoL & He & HQ). exists L'. split; [done|]. split; [|done]. trans w0; [apply Hf|done].
  - rewrite <-(Ho0 l). congruence.
  - intros l'. rewrite elem_of_union, elem_of_singleton, <-(Ho0 l'), lookup_insert_Some.
    split; [intros [[-> _]|[_ Hh]]; auto|]. intros [->|Hh]; [by left|]. right. split; [|done]. congruence.
Qed.
End rules.

Lemma triple_guard {A} L w l (p : process A) Q :
  (forall w0, l ∉ L -> frame L w w0 -> Inv w0 -> idle l w0 ->
     triple ({[l]} ∪ L) w0 p (fun x w' L' => forall w2, frame L' w' w2 -> Inv w2 ->
       (l ∈ L' -> idle l w2) /\ Q x w2 (L' ∖ {[l]}))) ->
  triple L w (holding l p) Q.
Proof.
  intros Hp. apply triple_lock. intros w0 Hl Hf Hi Hidle. eapply triple_bind; [by apply Hp|].
  intros x w' L' He Hx. apply triple_unlock. intros w2 Hf2 Hi2. destruct (Hx w2 Hf2 Hi2) as [Hfree HQ].
  split; [done|]. by apply triple_return.
Qed.

(** ** Calm processes

    A process that touches nothing a lock protects, whatever its task holds. *)

Definition calm {A} (w : world) (p : process A) (Q : A -> world -> Prop) : Prop :=
  forall L, triple L w p (fun x w' L' => L' = L /\ frame L w w' /\ Q x w').

(** What stays true whatever others do. *)
Definition stable {A} (Q : A -> world -> Prop) : Prop :=
  forall x w w', evolves w w' -> Q x w -> Q x w'.

Section calm.
Context {A : Type}.
Implicit Types (w : world) (Q : A -> world -> Prop).

Lemma calm_return w x Q : Q x w -> calm w (Return x) Q.
Proof. intros HQ L. by apply triple_return. Qed.

Lemma calm_mono w (p : process A) Q Q' :
  (forall x w', evolves w w' -> Q x w' -> Q' x w') -> calm w p Q -> calm w p Q'.
Proof. intros HQ Hp L. eapply triple_mono; [|apply Hp]. cbn. intros x w' L' He (? & ? & ?). auto. Qed.

Lemma calm_bind {B} w (p : process B) (f : B -> process A) (Q' : B -> world -> Prop) Q :
  calm w p Q' -> (forall x w', evolves w w' -> Q' x w' -> calm w' (f x) Q) -> calm w (pbind p f) Q.
Proof.
  intros Hp Hf L. eapply triple_bind; [apply Hp|]. cbn. intros x w' L' He (-> & Hfr & Hx).
  eapply triple_mono; [|by apply Hf]. cbn. intros y w2 L2 He2 (-> & Hfr2 & Hy).
  split; [done|]. split; [by trans w'|done].
Qed.

Lemma calm_ask w q (f : reply q -> process A) Q :
  (forall r, calm w (f r) Q) -> calm w (pbind (ask q) f) Q.
Proof. intros Hf L. apply triple_ask_bind. intros r. apply Hf. Qed.

Lemma calm_atomic w (m : world -> world * A) Q :
  (forall w0, evolves w w0 -> Inv w0 -> section_ok ∅ w0 (m w0).1 /\ Q (m w0).2 (m w0).1) ->
  calm w (atomically m) Q.
Proof.
  intros Hm L. apply triple_atomic. intros w0 Hf Hi. destruct (Hm w0 (fr_evolves _ _ _ Hf) Hi) as [[S1 S2 S3 S4] HQ].
  split; [split; [done..|]; intros; by apply S4|]. split; [done|]. split; [|done].
  trans w0; [done|]. split; [done|]. intros l _. apply S4. set_solver.
Qed.

Lemma calm_spawn w (child : process unit) (k : process A) Q :
  (forall w0, evolves w w0 -> Inv w0 -> triple ∅ w0 child (fun _ _ _ => True)) ->
  calm w k Q -> calm w (Spawn child k) Q.
Proof. intros Hc Hk L. apply triple_spawn; [done|apply Hk]. Qed.

Lemma calm_guard w l (p : process A) Q :
  (forall w w', protects l w w' -> idle l w -> idle l w') ->
  stable Q -> (forall w0, evolves w w0 -> calm w0 p Q) -> calm w (holding l p) Q.
Proof.
  intros Hid Hst Hp L. apply triple_guard. intros w0 Hl Hf Hi Hidle.
  eapply triple_mono; [|apply Hp, Hf]. cbn. intros x w' L' He (-> & Hf' & Hx) w2 Hf2 Hi2.
  assert (forall v1 v2, frame ({[l]} ∪ L) v1 v2 -> frame L v1 v2) as Hsub.
  { intros v1 v2 [F1 F2]. split; [done|]. intros l' Hl'. apply F2. set_solver. }
  split; [|split; [|split]].
  - intros _. apply (Hid w0); [|done]. trans w'; [apply Hf'|apply Hf2]; set_solver.
  - by apply unlocked.
  - trans w0; [done|]. trans w'; by apply Hsub.
  - eapply Hst; [apply Hf2|done].
Qed.

Lemma calm_triple L w (p : process A) Q :
  calm w p Q -> triple L w p (fun x w' L' => L' = L /\ frame L w w' /\ Q x w').
Proof. intros Hp. apply Hp. Qed.
End calm.

Lemma calm_try {E A B} w (p : process (result E B)) (f : B -> process (result E A))
    (Q' : result E B -> world -> Prop) (Q : result E A -> world -> Prop) :
  calm w p Q' -> (forall x w', evolves w w' -> Q' (Ok x) w' -> calm w' (f x) Q) ->
  (forall e w', evolves w w' -> Q (Err e) w') -> calm w (try_bind p f) Q.
Proof.
  intros Hp Hf He. unfold try_bind. eapply calm_bind; [exact Hp|]. intros [x|e] w' Hev Hx; [by apply Hf|].
  by apply calm_return, He.
Qed.

End triples.
Arguments frame {world lock EqDecision0 H} protects evolves L w w'.
Arguments section_ok {world lock EqDecision0 H} Inv protects evolves local L w w'.
Arguments triple {world lock query reply EqDecision0 H} Inv protects evolves local idle excused {A} L w p Q.
Arguments calm {world lock query reply EqDecision0 H} Inv protects evolves local idle excused {A} w p Q.
Arguments stable {world} evolves {A} Q.
