(* ===== verification/Schedule.v ===== *)
(** * Running schedules

    An executable scheduler for interleaved handlers: given the answers of the
    outside and the order in which tasks run, the configuration they reach.
    Every schedule is an execution of [step], so concrete executions are
    evaluated and general ones are steps. *)

From stdpp Require Import relations.
From S2P Require Import Prelude Process.

Section schedule.
Context {world lock query : Type} {reply : query -> Type} `{Countable lock}.
Local Abbreviation process := (Process.process world lock query reply).
Local Abbreviation config := (Process.config world lock query reply).
Context (oracle : N -> forall q, reply q).

(** One step of task [t]; a task that is done or waits for a lock stays. *)
Definition advance (c : config) (t : N) : config :=
  let '(Config w h ts) := c in
  match ts !! t with
  | Some (Atomic m k) => let '(w', x) := m w in Config w' h (<[t := k x]> ts)
  | Some (Acquire l k) =>
      match h !! l with
      | None => Config w (<[l := t]> h) (<[t := k]> ts)
      | Some _ => c
      end
  | Some (Release l k) => Config w (drop_lock l t h) (<[t := k]> ts)
  | Some (Await q k) => Config w h (<[t := k (oracle t q)]> ts)
  | Some (Spawn child k) => Config w h (<[fresh (dom ts) := child]> (<[t := k]> ts))
  | Some (Return _) | None => c
  end.

Definition run (schedule : list N) (c : config) : config := foldl advance c schedule.

(** A request arrives. *)
Definition arrive (t : N) (p : process unit) (c : config) : config :=
  let '(Config w h ts) := c in Config w h (<[t := p]> ts).

Context (env : world -> world -> Prop) (api : process unit -> Prop).
Local Abbreviation steps := (rtc (some_step env api)).

(** Whether task [t] can take a step. *)
Definition ready (c : config) (t : N) : bool :=
  match pool c !! t with
  | Some (Return _) | None => false
  | Some (Acquire l _) => bool_decide (held c !! l = None)
  | Some _ => true
  end.

Lemma advance_step c t : ready c t = true -> step env api (Some t) c (advance c t).
Proof.
  destruct c as [w h ts]. unfold ready. cbn. destruct (ts !! t) as [p|] eqn:Ht; [|done].
  destruct p as [x|X m k|l k|l k|q k|child k]; [done|intros Hready..].
  - destruct (m w) as [w' x] eqn:Hm. by eapply step_atomic.
  - apply bool_decide_eq_true in Hready. rewrite Hready. by apply step_acquire.
  - by apply step_release.
  - by eapply step_await.
  - apply step_spawn; [done|]. apply not_elem_of_dom, is_fresh.
Qed.

Lemma advance_stays c t : ready c t = false -> advance c t = c.
Proof.
  destruct c as [w h ts]. unfold ready. cbn. destruct (ts !! t) as [[]|]; try done.
  rewrite bool_decide_eq_false. by destruct (h !! l).
Qed.

Lemma advance_steps c t : steps c (advance c t).
Proof.
  destruct (ready c t) eqn:Hready; [|by rewrite advance_stays].
  apply rtc_once. exists (Some t). by apply advance_step.
Qed.

Lemma run_steps schedule c : steps c (run schedule c).
Proof.
  revert c. induction schedule as [|t schedule IH]; intros c; [done|].
  etransitivity; [apply advance_steps|]. apply IH.
Qed.

(** A schedule all of whose steps pass a test that excused ones fail. *)
Fixpoint passes (test : world -> world -> bool) (schedule : list N) (c : config) : bool :=
  match schedule with
  | [] => true
  | t :: schedule => test (the_world c) (the_world (advance c t)) && passes test schedule (advance c t)
  end.

Lemma run_orderly excused test schedule c :
  (forall t h w w', test w w' = true -> ~ excused t h w w') -> passes test schedule c = true ->
  rtc (orderly excused env api) c (run schedule c).
Proof.
  intros Htest. revert c. induction schedule as [|t schedule IH]; intros c; [done|]. cbn [passes run foldl].
  rewrite andb_true_iff. intros [Ht Hrest]. etransitivity; [|by apply IH].
  destruct (ready c t) eqn:Hready; [|by rewrite advance_stays].
  apply rtc_once. exists (Some t). split; [by apply advance_step|]. by apply Htest.
Qed.

Lemma arrive_orderly excused t p c :
  api p -> pool c !! t = None -> rtc (orderly excused env api) c (arrive t p c).
Proof.
  intros Hp Ht. destruct c as [w h ts]. apply rtc_once. exists None. split; [by apply step_request|by intros []].
Qed.

Lemma arrive_steps t p c : api p -> pool c !! t = None -> steps c (arrive t p c).
Proof. intros Hp Ht. destruct c as [w h ts]. apply rtc_once. exists None. by apply step_request. Qed.
End schedule.
