(* ===== verification/World.v ===== *)
(** * The room manager's world ([RoomManager] of [src/src/room/mod.rs],
      [src/src/room/manager.rs], [src/src/room/control.rs],
      [src/src/shutdown.rs])

    What all handlers share: the map of live rooms, the rooms themselves
    behind their locks, the deletion reservations, the drain switch, the
    outbound queues and the clock; what they ask of the database and of the
    media workers; and the control order every policy change goes through. *)

From S2P Require Import Prelude Refusal Net Roles Window RateTable Labels Settings Protocol Moderation Wire Social Room Media Publication Process.

(** The operator's settings ([ManagerSettings]); [has_database] is
    [db_pool.is_some()]. *)
Record manager := Manager {
  allow_ad_hoc_rooms : bool;
  max_participants_per_room : option N;
  max_broadcasters_per_room : option N;
  max_rooms : N;
  max_persisted_rooms : Z;
  join_attempts_per_ip_per_minute : N;
  join_attempts_per_room_ip_per_minute : N;
  has_database : bool
}.

Inductive lock := CreationLock | ControlLock (address : N).
#[export] Instance lock_eq_dec : EqDecision lock.
Proof. solve_decision. Defined.
#[export] Instance lock_countable : Countable lock.
Proof.
  refine (inj_countable' (fun l => match l with CreationLock => inl tt | ControlLock a => inr a end)
            (fun s => match s with inl _ => CreationLock | inr a => ControlLock a end) _).
  by intros [].
Defined.

(** [media_participant_id]: the text [room, session, participant] joined by a
    separator none of the parts contains. *)
Abbreviation media_participant := (string * N * participant_id)%type.
Definition media_participant_id (room_id : string) (id : participant_id) (media_session_id : N)
  : media_participant := (room_id, media_session_id, id).

(** What the manager asks of the media server. *)
Inductive media_call :=
| WebRtcServer (room_id : string)
(** Placement of a viewer: the answer is whether it comes with a lease. *)
| PlaceViewer (m : media_participant)
| AttachLease (m : media_participant)
| EnsurePiped (m : media_participant) (producer : producer_id)
| CreateSendTransport (m : media_participant)
| CreateRecvTransport (m : media_participant)
| ConnectTransport (m : media_participant) (transport : N)
| CreateProducer (m : media_participant) (transport : N) (kind : media_kind)
| CreateConsumer (m : media_participant) (producer : producer_id)
| ResumeConsumer (m : media_participant) (consumer : N)
| PauseConsumer (m : media_participant) (consumer : N)
| CloseConsumer (m : media_participant) (consumer : N)
| CloseProducer (m : media_participant) (producer : producer_id)
| PauseProducer (m : media_participant) (producer : producer_id)
| ResumeProducer (m : media_participant) (producer : producer_id)
| SetPreferredLayers (m : media_participant) (consumer : N) (spatial : N) (temporal : option N)
| ApplyLayerCeilings (m : media_participant) (consumer : N)
| SubscribeBwe (m : media_participant)
| RestartIce (m : media_participant) (transport : N)
| RemoveParticipant (m : media_participant)
| ObserverAdd (observer : opaque) (producer : producer_id)
| ObserverRemove (observer : opaque) (producer : producer_id)
| RemoveRouter (room_id : string).

(** The statements and transactions of control operations, one constructor per
    call of [persist_room]. *)
Inductive durable_write :=
| SavePunitive (room_id : string) (identity : sanction_identity) (kind : punitive_kind)
    (enabled : bool) (reason : option text) (applied_by : participant_id) (event : moderation_event)
| SaveBan (room_id : string) (identity : sanction_identity) (expires_at : option timestamp)
    (reason : option text) (applied_by : participant_id) (event : moderation_event)
| SaveEvent (room_id : string) (event : moderation_event)
| RemoveUserBan (room_id : string) (user : participant_id) (actor : participant_id) (actor_name : text)
| SaveRole (room_id : string) (user : participant_id) (new_role : role) (granted_by : participant_id)
| SaveSettings (room_id : string) (patch : settings_patch) (password_hash : option (option string))
| SaveTopic (room_id : string) (topic : text)
| SetRetention (room_id : string) (days : Z)
| SetPin (room_id : string) (message : message_id) (pinned : bool)
(** The removal of a message: its row when the room keeps history, its files,
    and the event of a saved room. *)
| RemoveSavedMessage (room_id : string) (message : message_id) (removed_at : timestamp) (keeps_history : bool)
    (event : moderation_event)
| DeleteEphemeralFiles (room_id : string) (message : message_id)
| SaveReactions (message : message_id) (reactions : list chat_reaction)
| FileReport (room_id : string) (report : report_entry)
| ResolveReport (room_id : string) (report : N) (status : report_resolution) (actor : participant_id) (actor_name : text).

(** Reads and writes of chat, accounts and lists whose answer is more than a
    yes or no. *)
Record history_query := HistoryQuery {
  query_before : option string; query_after : option string; query_around : option message_id;
  query_resume : option bool; query_q : option text; query_limit : option N }.

Inductive chat_query :=
| LookupPublic (room_id : string) (message : message_id)
| PersistMessage (public_room : option string) (sender_session : N) (authenticated : bool) (retention_days : Z)
    (message : chat_entry) (attachment_ids : list N)
| BindEphemeral (sender : participant_id) (attachment_ids : list N) (message : message_id) (room_id : string)
| LoadPage (room_id : string) (account : option participant_id) (days : Z) (query : history_query)
| MarkRead (room_id : string) (account : participant_id) (message : message_id)
| EditSaved (room_id : string) (account : participant_id) (guest_session : option N) (message : chat_entry)
    (content : text) (expected_revision : N)
| LoadPins (room_id : string)
| ReactPublic (room_id : string) (message : message_id) (participant : participant_id)
    (ignored : list participant_id) (emoji : text)
| PrivateRow (own peer : participant_id) (message : message_id)
| LoadBans (room_id : string) (offset limit : N)
| RemoveBan (room_id : string) (ban : N) (actor : participant_id) (actor_name : text)
| LoadMembers (room_id : string) (offset : N)
| CurrentRole (room_id : string) (user : participant_id)
| LoadReports (room_id : string) (offset limit : N)
| LoadEvents (room_id : string) (offset limit : N)
| SaveStyle (user : participant_id) (style : chat_style).

Definition chat_reply (q : chat_query) : Type :=
  match q with
  | LookupPublic _ _ => option (chat_entry * bool)
  | PersistMessage _ _ _ _ _ _ | EditSaved _ _ _ _ _ _ => chat_entry
  | BindEphemeral _ _ _ _ => list chat_attachment
  | LoadPage _ _ _ _ => history_page
  | MarkRead _ _ _ => message_id
  | LoadPins _ => list chat_entry
  | ReactPublic _ _ _ _ _ | PrivateRow _ _ _ => option chat_entry
  | LoadBans _ _ _ => list ban_entry
  (** The account or the address of the ban that was lifted. *)
  | RemoveBan _ _ _ _ => option (option participant_id * option ip_addr)
  | LoadMembers _ _ => list (participant_id * text * role)
  | CurrentRole _ _ => option role
  | LoadReports _ _ _ => list report_entry
  | LoadEvents _ _ _ => list moderation_event
  | SaveStyle _ _ => unit
  end.

Inductive verification := QueueTimedOut | QueueClosed | VerifierFailed | Verified (matches : bool).

(** Questions to the outside, and the answers there are to them.  A bounded
    wait that can run out answers [None]. *)
Inductive query :=
(** Did a bounded wait for a lock run out? *)
| Elapsed
| Saturated
| WorkerSaturated (room_id : string)
| WorkerOf (room_id : string)
| RouterOf (room_id : string)
(** [set_bandwidth_ceiling_for_transport]: the consumers left to write. *)
| CeilingFor (m : media_participant) (transport : N) (spatial : N)
(** [recv_replacement_replay]: the receiver an earlier request for [transport]
    was answered with. *)
| ReplayFor (m : media_participant) (transport : N)
(** The transport manager's replacement, on the router the viewer was placed on
    with a lease of its own or not. *)
| ReplaceRecv (m : media_participant) (transport : N) (lease bwe : bool)
| IsCurrentRecv (m : media_participant) (transport : N)
| LoadRoom (room_id : string)
| IsBanned (room_id : string) (user : option participant_id) (ip : option ip_addr) (authenticated : bool)
| ResolveRole (room_id : string) (user : option participant_id) (owner : participant_id) (authenticated : bool)
| LoadChatStyle (user : participant_id)
| LoadPunitive (room_id : string) (user : option participant_id) (ip : option ip_addr) (authenticated : bool)
| LoadPreferences (user : participant_id)
| VerifyPassword (supplied : text) (hash : string)
| HashPassword (password : text)
| Persist (write : durable_write)
| InsertRoom (owner : participant_id) (request : create_room_request) (password_hash : option string)
| RoomGeneration (room_id : string)
(** The conditional DELETE: whether it removed the row. *)
| DeleteRoomRow (room_id : string) (owner : participant_id) (created_at : timestamp)
| CreateRouter (room_id : string)
| Media (call : media_call)
| Chat (q : chat_query).

Definition reply (q : query) : Type :=
  match q with
  | Elapsed | Saturated | WorkerSaturated _ => bool
  | WorkerOf _ => option N
  | RouterOf _ => result string unit
  | CeilingFor _ _ _ => result string (list N)
  | ReplayFor _ _ => result string (option N)
  | ReplaceRecv _ _ _ _ => result string N
  | IsCurrentRecv _ _ => bool
  | LoadRoom _ => option (result room_error (option (room_settings * option string)))
  | IsBanned _ _ _ _ => result room_error bool
  | ResolveRole _ _ _ _ => result room_error role
  | LoadChatStyle _ => option (result room_error (option chat_style))
  | LoadPunitive _ _ _ _ => result room_error punitive_state
  | LoadPreferences _ => option (result room_error chat_preferences)
  | VerifyPassword _ _ => verification
  | HashPassword _ => result password_hash_error string
  | Persist _ => option (result room_error bool)
  | InsertRoom _ _ _ => option (result room_error room_settings)
  | RoomGeneration _ => option (result room_error (option (participant_id * timestamp)))
  | DeleteRoomRow _ _ _ => option (result room_error bool)
  | CreateRouter _ => option (result string (option opaque * option opaque))
  | Media _ => result string bool
  | Chat q => option (result room_error (chat_reply q))
  end.

Record world := World {
  (** [Arc<RwLock<Room>>]: rooms by address; an address is never reused. *)
  heap : gmap N room;
  next_address : N;
  rooms : gmap string N;
  deleting_rooms : gmap string N;
  identity_updates : gset string;
  draining : bool;
  the_wire : wire;
  lobby_flags : gmap N bool;
  join_attempts_by_ip : rate_table ip_addr;
  join_attempts_by_room_ip : rate_table (string * ip_addr);
  clock : instant;
  wall : timestamp;
  next_uuid : N;
  (** Producers the media workers have created, and for whom. *)
  issued : gmap producer_id participant_id;
  (** Calls made to the media server, in order. *)
  media_calls : list media_call
}.
#[export] Instance eta_world : Eta world := fun w =>
  World (heap w) (next_address w) (rooms w) (deleting_rooms w) (identity_updates w) (draining w)
    (the_wire w) (lobby_flags w) (join_attempts_by_ip w) (join_attempts_by_room_ip w) (clock w)
    (wall w) (next_uuid w) (issued w) (media_calls w).

Abbreviation process := (Process.process world lock query reply).
Abbreviation handled A := (process (result failure A)).
Open Scope process_scope.

(** ** Sections *)

(** Addresses come from the map of rooms and stay valid; the default is never
    read. *)
Definition empty_room : room := new_with_observers "" None false None None None.
Definition room_at (w : world) (a : N) : room := default empty_room (heap w !! a).

(** A section under one room's state lock.  It reads the world around it (the
    clock, the drain switch) and changes the room and the outbound queues. *)
Definition locked_section {E A} (a : N) (m : world -> handler E (room * wire) A) (w : world)
  : world * result E A :=
  let '((r, q), res) := m w (room_at w a, the_wire w) in
  (w <| heap ::= <[a := r]> |> <| the_wire := q |>, res).
Definition locked {E A} (a : N) (m : world -> handler E (room * wire) A) : process (result E A) :=
  atomically (locked_section a m).

Definition get {E} : handler E (room * wire) room := fun s => (s, Ok s.1).
Definition set_room {E} (f : room -> room) : handler E (room * wire) unit :=
  fun s => ((f s.1, s.2), Ok tt).
(** Send from the room as it is now. *)
Definition send {E} (f : room -> wire -> wire) : handler E (room * wire) unit :=
  fun s => ((s.1, f s.1 s.2), Ok tt).
Definition publish {E A} (f : room -> wire -> room * wire * A) : handler E (room * wire) A :=
  fun s => let '(r, q, x) := f s.1 s.2 in ((r, q), Ok x).
(** Take one unit of a sliding window of the room. *)
Definition reserve_window {E} (get_window : room -> sliding_window)
  (put : sliding_window -> room -> room) (now : instant) (e : E) : handler E (room * wire) unit :=
  fun s => let '(window, granted) := reserve (get_window s.1) now in
           ((put window s.1, s.2), if granted then Ok tt else Err e).

Definition reserve_admin (now : instant) : handler failure (room * wire) unit :=
  reserve_window Room.admin_mutations (fun v r => r <| Room.admin_mutations := v |>) now
    (Message "Room administration changes are rate limited").

(** [get_room]; its message also carries the room's log handle, a hash. *)
Definition get_room (room_id : string) : handled N :=
  atomically (fun w => (w, ok_or (rooms w !! room_id) (Message "Room not found"))).

(** A fresh [Uuid::new_v4]. *)
Definition new_uuid : process N :=
  atomically (fun w => (w <| next_uuid ::= N.succ |>, next_uuid w)).

Definition call_media (c : media_call) : process (result string bool) :=
  let* _ := atomically (fun w => (w <| media_calls ::= fun l => l ++ [c] |>, tt)) in ask (Media c).

Fixpoint for_each {A} (f : A -> process unit) (l : list A) : process unit :=
  match l with
  | [] => Return tt
  | x :: l => let* _ := f x in for_each f l
  end.

(** A lock awaited with a deadline. *)
Definition lock_within {E A} (l : lock) (e : E) (p : process (result E A)) : process (result E A) :=
  let* elapsed := ask Elapsed in
  if elapsed : bool then Return (Err e) else holding l p.

(** ** Deletion reservations *)

Definition release_deletion_reservation (room_id : string) (token : N) (w : world) : world :=
  if bool_decide (deleting_rooms w !! room_id = Some token)
  then w <| deleting_rooms ::= delete room_id |>
  else w.

Definition release_deletion_reservation_after_router_teardown (room_id : string) (token : N)
  (router_teardown_succeeded : bool) (w : world) : world :=
  if router_teardown_succeeded then release_deletion_reservation room_id token w else w.

(** [media_server.remove_router] under its deadline: whether it succeeded. *)
Definition remove_router (room_id : string) : process bool :=
  let* elapsed := ask Elapsed in
  let* removed := call_media (RemoveRouter room_id) in
  Return (negb elapsed && is_ok removed).

(** ** Control ([control.rs]) *)

Definition notify_lobby (r : room) (m : server_message) (q : wire) : wire :=
  send_each (LobbyEntry.sender <$> waiting r) m q.

Definition media_sessions (room_id : string) (r : room) : list media_participant :=
  (fun p => media_participant_id room_id (Participant.id p) (Participant.media_session_id p)) <$> members r.

Definition clear_membership (r : room) : room :=
  r <| Room.participants := ∅ |> <| Room.lobby := ∅ |> <| Room.producer_to_participant := ∅ |>.
Definition drop_observers (r : room) : room :=
  r <| Room.active_speaker_observer := None |> <| Room.audio_level_observer := None |>.

Definition quarantine_notice : server_message :=
  ServerMessage.RoomClosed "Room unavailable while its saved state is uncertain".

(** The state change of [quarantine_room]: the sessions to close, or [None]
    when the room is no longer the mapped one or already going. *)
Definition quarantine_section (room_id : string) (a : N) (w : world)
  : world * option (list media_participant) :=
  let r := room_at w a in
  if negb (bool_decide (rooms w !! room_id = Some a)) || Room.deleting r then (w, None)
  else
    let w := match deleting_rooms w !! room_id with
             | Some _ => w
             | None => w <| deleting_rooms ::= <[room_id := next_uuid w]> |> <| next_uuid ::= N.succ |>
             end in
    let r := bump_policy (r <| Room.deleting := true |>) in
    let q := notify_lobby r quarantine_notice (broadcast_all r quarantine_notice (the_wire w)) in
    (w <| heap ::= <[a := drop_observers (clear_membership r)]> |> <| the_wire := q |>,
     Some (media_sessions room_id r)).

(** The reservation is kept even after a successful cleanup. *)
Definition quarantine_room (room_id : string) (a : N) : process unit :=
  let* sessions := atomically (quarantine_section room_id a) in
  match sessions with
  | None => Return tt
  | Some sessions =>
      Spawn (let* _ := for_each (fun m => let* _ := call_media (RemoveParticipant m) in Return tt) sessions in
             let* _ := remove_router room_id in
             Return tt)
        (Return tt)
  end.

(** The outcome of the SQL phase of [persist_room]. *)
Definition settle {A} (room_id : string) (a : N) (answer : option (result room_error A))
  : process (result room_error A) :=
  match default (Err deadline_exceeded) answer with
  | Ok b => Return (Ok b)
  | Err e =>
      if persistence_is_indeterminate e
      then let* _ := quarantine_room room_id a in Return (Err e)
      else Return (Err e)
  end.

(** [persist_room]: the whole SQL phase under one deadline. *)
Definition persist_room (room_id : string) (a : N) (write : durable_write)
  : process (result room_error bool) :=
  let* answer := ask (Persist write) in settle room_id a answer.
Definition persist_chat (room_id : string) (a : N) (q : chat_query) : process (result room_error (chat_reply q)) :=
  let* answer := ask (Chat q) in settle room_id a answer.

(** [persist_room(..).await.map_err(f)?]. *)
Definition persisting {A} (room_id : string) (a : N) (write : durable_write)
  (f : room_error -> failure) (k : bool -> handled A) : handled A :=
  let* saved := persist_room room_id a write in
  match saved with Ok b => k b | Err e => Return (Err (f e)) end.

(** [run_room_control]: one owned operation against the mapped incarnation. *)
Definition run_room_control {A} (room_id : string) (action : N -> handled A) : handled A :=
  let? a := get_room room_id in
  lock_within (ControlLock a) (Message "Room control is busy; try again")
    (let? _ := atomically (fun w =>
       (w, if Room.deleting (room_at w a) then Err (Message "Room is being deleted")
           else if draining w then Err (Message "Server shutting down")
           else if bool_decide (rooms w !! room_id = Some a) then Ok tt
           else Err (Message "Room is no longer active"))) in
     action a).

(** [control.release()]. *)
Definition release_control {A} (a : N) (p : process A) : process A := Release (ControlLock a) p.

(** ** Closing what was revoked ([close_revoked_producers]) *)

Definition remove_from_observer (observer : option opaque) (producer : producer_id) : process unit :=
  match observer with
  | Some o => let* _ := call_media (ObserverRemove o producer) in Return tt
  | None => Return tt
  end.

(** A participant whose individual close failed loses all media state. *)
Fixpoint close_revoked (room_id : string) (active audio : option opaque)
  (failed : gset participant_id) (revoked : list revoked_producer) : process unit :=
  match revoked with
  | [] => Return tt
  | v :: revoked =>
      let id := revoked_participant_id v in
      let m := media_participant_id room_id id (revoked_media_session_id v) in
      let* failed :=
        if bool_decide (id ∈ failed) then Return failed
        else let* closed := call_media (CloseProducer m (revoked_producer_id v)) in
             match closed with
             | Ok _ => Return failed
             | Err _ => let* _ := call_media (RemoveParticipant m) in Return ({[id]} ∪ failed)
             end in
      let* _ := match revoked_kind v with
                | Audio => let* _ := remove_from_observer active (revoked_producer_id v) in
                           remove_from_observer audio (revoked_producer_id v)
                | Video => Return tt
                end in
      close_revoked room_id active audio failed revoked
  end.

Definition close_revoked_producers (room_id : string) (revoked : list revoked_producer)
  (active audio : option opaque) : process unit := close_revoked room_id active audio ∅ revoked.

(** ** Handlers that succeeded *)

(** Invert a handler that succeeded: every check it passed becomes a fact. *)
Ltac succeeded :=
  repeat match goal with
    | H : bail _ _ = (_, Ok _) |- _ => discriminate H
    | H : hret _ _ = (_, Ok _) |- _ => discriminate H
    | H : hbind _ _ _ = (_, Ok _) |- _ =>
        let s1 := fresh "s" in let x := fresh "x" in let E := fresh "E" in
        apply hbind_ok in H as (s1 & x & E & H)
    | H : get _ = (_, Ok _) |- _ => unfold get in H; injection H; clear H; intros; subst
    | H : hlift _ _ = (_, Ok _) |- _ => unfold hlift in H; injection H as ? H; subst
    | H : hret _ _ = (_, Ok _) |- _ => unfold hret in H; injection H; clear H; intros; subst
    | H : set_room _ _ = (_, Ok _) |- _ => unfold set_room in H; injection H; clear H; intros; subst
    | H : send _ _ = (_, Ok _) |- _ => unfold send in H; injection H; clear H; intros; subst
    | H : anyhow_ensure _ _ _ = (_, Ok _) |- _ => apply ensure_ok in H as [H ->]
    | H : ensure _ _ _ = (_, Ok _) |- _ => apply ensure_ok in H as [H ->]
    end; cbn [fst snd] in *.

(** Split on the first test a handler that succeeded has made. *)
Ltac branch H := match type of H with context [if ?b then _ else _] => destruct b eqn:? end.

Lemma sender_ok r id expected p :
  participant_for_sender r id expected = Ok p ->
  Room.deleting r = false /\ Room.participants r !! id = Some p /\ Participant.sender p = expected.
Proof.
  unfold participant_for_sender. destruct (Room.deleting r); [done|]. destruct (Room.participants r !! id) as [q|]; [|done].
  destruct (N.eqb_spec (Participant.sender q) expected); cbn; [|done]. by intros [= ->].
Qed.

Lemma live_ok {S} (r : room) (s s' : S) u : ensure_live r s = (s', Ok u) -> Room.deleting r = false /\ s' = s.
Proof. unfold ensure_live. destruct (Room.deleting r); [done|]. unfold hret. by intros [= ->]. Qed.
