(* ===== verification/Chat.v ===== *)
(** * Sending chat ([src/src/room/social.rs])

    What one chat command does to a room: the checks on the text, the replies
    to attempts that were made before, the permission to speak, the delivery,
    the receipt and the replay history.  [Codec] stands for the JSON length of
    a message, which is never empty (serde), for the parser of identifiers
    (uuid) and for the reader of history cursors (base64, chrono). *)

From stdpp Require Import pretty.
From S2P Require Import Prelude Refusal Net Roles Window Labels Settings Protocol Moderation Wire Social Room Media Process World.

Class Codec := {
  entry_bytes : chat_entry -> option N;
  parse_uuid : string -> option N;
  read_cursor : string -> option (timestamp * N);
  entry_bytes_positive : forall m n, entry_bytes m = Some n -> (0 < n)%N
}.

Definition MAX_CHAT_SEQUENCE : N := 9007199254740991.
Definition MAX_MESSAGE_FILES : nat := 4.

Record chat_attempt := ChatAttempt {
  attempt_content : text;
  attempt_attachment_ids : list N;
  attempt_client_message_id : option string;
  attempt_recipient_id : option participant_id;
  attempt_sequence : option N;
  attempt_retry_session : option string;
  attempt_reply_to : option message_id
}.

(** The recipient of a private message: name, membership and connection. *)
Module PreparedChat.
Record prepared_chat := mk {
  message : chat_entry;
  attachment_ids : list N;
  sender_session : N;
  sender_authenticated : bool;
  recipient : option (text * N * sender);
  sequence : option N;
  receipt_bytes : N;
  now : instant;
  persist : bool;
  durable : bool
}.
#[export] Instance eta_prepared_chat : Eta prepared_chat := fun p =>
  mk (message p) (attachment_ids p) (sender_session p) (sender_authenticated p) (recipient p) (sequence p)
     (receipt_bytes p) (now p) (persist p) (durable p).
End PreparedChat.
Export (hints) PreparedChat.
Abbreviation prepared_chat := PreparedChat.prepared_chat.

(** [attachments::valid_ids]. *)
Definition valid_ids (ids : list N) : bool :=
  (length ids <=? MAX_MESSAGE_FILES)%nat && bool_decide (NoDup ids).

(** ** Who may see and answer what *)

Definition ignores (p : participant) (id : participant_id) : bool :=
  bool_decide (id ∈ ParticipantSocial.ignored (Participant.social p)).

Definition visible (e : history_entry) (viewer : participant) : bool :=
  if (HistoryEntry.sequence e <? ParticipantSocial.joined_sequence (Participant.social viewer))%N then false
  else match ChatEntry.recipient_id (HistoryEntry.message e) with
       | Some _ =>
           (HistoryEntry.sender_session e =? Participant.media_session_id viewer)%N
           || bool_decide (HistoryEntry.recipient_session e = Some (Participant.media_session_id viewer))
       | None => negb (ignores viewer (ChatEntry.participant_id (HistoryEntry.message e)))
       end.

Definition replied_to (m : chat_entry) : option message_id := reply_message_id <$> ChatEntry.reply_to m.

Definition can_private_message (from to : participant) : bool :=
  negb (Participant.id from =? Participant.id to)%N
  && ParticipantSocial.allow_private_messages (Participant.social to)
  && negb (ignores to (Participant.id from)) && negb (ignores from (Participant.id to)).

(** [!allow_chat] and [can_chat]: may this member speak in this room? *)
Definition may_chat (r : room) (p : participant) : bool :=
  negb (is_some_and (Room.settings r) (fun s => negb (RoomSettings.allow_chat s)))
  && can_chat (Participant.punitive p) (Participant.role p) (is_some_and (Room.settings r) RoomSettings.moderated).

Definition same_conversation (sender : participant) (recipient : option participant_id) (m : chat_entry) : bool :=
  match recipient, ChatEntry.recipient_id m with
  | None, None => true
  | Some to, Some other =>
      let pair := [ChatEntry.participant_id m; other] in
      bool_decide (to ∈ pair) && bool_decide (Participant.id sender ∈ pair)
  | _, _ => false
  end.

Definition reply_reference (m : chat_entry) (sender : participant) (recipient : option participant_id)
  : result failure chat_reply_ref :=
  if bool_decide (is_Some (ChatEntry.removed_at m)) then Err (social_not_found "That message has been removed")
  else if negb (same_conversation sender recipient m)
  then Err (social_invalid "Reply within the conversation the message belongs to")
  else Ok (ChatReplyRef (ChatEntry.message_id m) (ChatEntry.participant_id m) (ChatEntry.participant_name m)
             (quote_excerpt (ChatEntry.content m))).

(** The last retained copy the replier can see. *)
Definition quote_reply (history : list history_entry) (sender : participant) (recipient : option participant_id)
  (id : message_id) : result failure chat_reply_ref :=
  match find (fun e => (ChatEntry.message_id (HistoryEntry.message e) =? id)%N && visible e sender) (rev history) with
  | Some original => reply_reference (HistoryEntry.message original) sender recipient
  | None => Err (social_not_found "That message is no longer available to reply to")
  end.

Definition saved_public_reply (m : chat_entry) (sender : participant) : result failure chat_reply_ref :=
  if bool_decide (is_Some (ChatEntry.recipient_id m)) || ignores sender (ChatEntry.participant_id m)
  then Err (social_not_found "That message is no longer available to reply to")
  else reply_reference m sender None.

(** ** Answers *)

(** [send] of [social.rs]. *)
Definition social_send (to : sender) (m : server_message) : handler failure (room * wire) unit := fun s =>
  let '(q, sent) := try_send_essential s.2 to m in
  ((s.1, q), match sent with Ok _ => Ok tt | Err _ => Err (social_rate_limited "Connection is busy; please retry") end).

Definition acknowledge_chat (to : sender) (m : chat_entry) : handler failure (room * wire) unit :=
  send (fun _ q => (try_send_essential q to (ServerMessage.MessageAck (ChatEntry.client_message_id m) m)).1).

(** ** Preparing an attempt *)

(** A retained message that answers to the attempt's identifier but is not it. *)
Definition conflicting (attempt : chat_attempt) (m : chat_entry) : bool :=
  (bool_decide (ChatEntry.removed_at m = None) && bool_decide (ChatEntry.edited_at m = None)
   && (negb (bool_decide (ChatEntry.content m = attempt_content attempt))
       || negb (bool_decide (replied_to m = attempt_reply_to attempt))))
  || (bool_decide (ChatEntry.removed_at m = None)
      && negb (bool_decide (attachment_id <$> ChatEntry.attachments m = attempt_attachment_ids attempt)))
  || negb (bool_decide (ChatEntry.recipient_id m = attempt_recipient_id attempt)).

Definition find_receipt (session : N) (client_message_id : string) (s : room_social) : option chat_receipt :=
  find (fun e => (ChatReceipt.sender_session e =? session)%N
                 && String.eqb (ChatEntry.client_message_id (ChatReceipt.message e)) client_message_id)
    (RoomSocial.receipts s).
Definition find_history (session : N) (client_message_id : string) (s : room_social) : option history_entry :=
  find (fun e => (HistoryEntry.sender_session e =? session)%N
                 && String.eqb (ChatEntry.client_message_id (HistoryEntry.message e)) client_message_id)
    (RoomSocial.history s).

Section chat.
Context `{Unicode, Codec}.

(** The checks on the command alone. *)
Definition validate_attempt (attempt : chat_attempt) (client_message_id : string) : handler failure (room * wire) unit :=
  (ensure (negb ((bool_decide (trim (attempt_content attempt) = []) && bool_decide (attempt_attachment_ids attempt = []))
                 || (4096 <? text_len (attempt_content attempt))%N))
     (social_invalid "Message must contain 1–4096 bytes of text") ;;
   ensure (is_plain_text (attempt_content attempt)) (social_invalid "Message contains hidden formatting characters") ;;
   ensure (valid_ids (attempt_attachment_ids attempt)) (social_invalid "Attach at most four different files") ;;
   ensure (valid_correlation_id client_message_id) (social_invalid "Invalid message ID") ;;
   ensure (negb (is_some_and (attempt_sequence attempt) (fun v => (v =? 0)%N || (MAX_CHAT_SEQUENCE <? v)%N)))
     (social_invalid "Invalid chat attempt"))%handler.

Definition reserve_chat (now : instant) : handler failure (room * wire) unit :=
  reserve_window Room.chat_broadcasts (fun v r => r <| Room.chat_broadcasts := v |>) now
    (social_rate_limited "Room chat rate limit exceeded").

Definition recipient_of (r : room) (sender : participant) (recipient : option participant_id)
  : result failure (option (text * N * Wire.sender)) :=
  match recipient with
  | None => Ok None
  | Some id =>
      match Room.participants r !! id with
      | None => Err (social_unavailable "Private message unavailable")
      | Some p =>
          if can_private_message sender p
          then Ok (Some (Participant.name p, Participant.media_session_id p, Participant.sender p))
          else Err (social_unavailable "Private message unavailable")
      end
  end.

Definition reply_of (r : room) (sender : participant) (attempt : chat_attempt) (saved_reply : option chat_entry)
  : result failure (option chat_reply_ref) :=
  match attempt_reply_to attempt with
  | None => Ok None
  | Some id =>
      match quote_reply (RoomSocial.history (Room.social r)) sender (attempt_recipient_id attempt) id with
      | Ok reply => Ok (Some reply)
      | Err e =>
          match attempt_recipient_id attempt, saved_reply with
          | None, Some original =>
              if (ChatEntry.message_id original =? id)%N
              then result_bind (saved_public_reply original sender) (fun reply => Ok (Some reply))
              else Err e
          | _, _ => Err e
          end
      end
  end.

Definition keeps_history (r : room) : bool :=
  Room.persisted r && is_some_and (Room.settings r) (fun s => (0 <? RoomSettings.history_retention_days s)%Z).

(** Is the message saved? *)
Definition is_saved (r : room) (sender : participant) (recipient : option participant_id) : bool :=
  match recipient with
  | Some id => Participant.authenticated sender
               && is_some_and (Room.participants r !! id) Participant.authenticated
  | None => keeps_history r
  end.

(** An attempt nothing answers to yet: permission, recipient, quote, size and
    budget. *)
Definition prepare_new_chat (sender_id : participant_id) (expected : Wire.sender) (attempt : chat_attempt)
  (client_message_id : string) (fresh : message_id) (saved_reply : option chat_entry) (sender : participant)
  (w : world) : handler failure (room * wire) (option prepared_chat) :=
  (let! r := get in
   ensure (may_chat r sender) (social_forbidden "You are not allowed to chat") ;;
   match find_history (Participant.media_session_id sender) client_message_id (Room.social r) with
   | Some existing =>
       ensure (negb (conflicting attempt (HistoryEntry.message existing))) (social_invalid "Message ID was already used") ;;
       acknowledge_chat expected (HistoryEntry.message existing) ;;
       hret None
   | None =>
       let! recipient := hlift (recipient_of r sender (attempt_recipient_id attempt)) in
       let! reply := hlift (reply_of r sender attempt saved_reply) in
       let message := {|
         ChatEntry.message_id := fresh;
         ChatEntry.client_message_id := client_message_id;
         ChatEntry.participant_id := sender_id;
         ChatEntry.participant_name := Participant.name sender;
         ChatEntry.recipient_id := attempt_recipient_id attempt;
         ChatEntry.recipient_name := (fun p => p.1.1) <$> recipient;
         ChatEntry.account_conversation := None;
         ChatEntry.content := attempt_content attempt;
         ChatEntry.attachments := [];
         ChatEntry.sent_at := wall w;
         ChatEntry.removed_at := None;
         ChatEntry.revision := 0;
         ChatEntry.edited_at := None;
         ChatEntry.chat_style := Participant.chat_style sender;
         ChatEntry.reply_to := reply;
         ChatEntry.reactions := []
       |} in
       let! receipt_bytes := hlift (ok_or (entry_bytes message) (Message "serialization failed")) in
       if (CHAT_RECEIPT_BYTES <? receipt_bytes)%N then
         match attempt_retry_session attempt with
         | Some _ => social_send expected (ServerMessage.MessageRetryResult client_message_id RetryUnknown CapacityReached) ;;
                     hret None
         | None => bail (social_invalid "Chat confirmation exceeds its size limit")
         end
       else
         (if bool_decide (recipient = None) then reserve_chat (clock w) else hret tt) ;;
         hret (Some (PreparedChat.mk message (attempt_attachment_ids attempt) (Participant.media_session_id sender)
                       (Participant.authenticated sender) recipient (attempt_sequence attempt) receipt_bytes
                       (clock w) (is_saved r sender (attempt_recipient_id attempt)) false))
   end)%handler.

(** [prepare_chat_attempt_with_saved_reply]; [None] when the attempt is already
    answered. *)
Definition prepare_chat_attempt (sender_id : participant_id) (expected : Wire.sender) (attempt : chat_attempt)
  (fresh : message_id) (saved_reply : option chat_entry) (w : world)
  : handler failure (room * wire) (option prepared_chat) :=
  (let client_message_id := default (pretty fresh) (attempt_client_message_id attempt) in
   let unknown := fun reason =>
     social_send expected (ServerMessage.MessageRetryResult client_message_id RetryUnknown reason) ;; hret None in
   let is_retry := bool_decide (is_Some (attempt_retry_session attempt)) in
   validate_attempt attempt client_message_id ;;
   let! r := get in
   ensure_live r ;;
   set_room (fun r => r <| Room.social ::= fun s => prune_receipts s (clock w) |>) ;;
   let! r := get in
   let! sender := hlift (participant_for_sender r sender_id expected) in
   ensure (bool_decide (attempt_attachment_ids attempt = []) || Participant.authenticated sender)
     (social_forbidden "Sign in to attach files") ;;
   if is_some_and (attempt_retry_session attempt) (fun session =>
        negb (bool_decide (parse_uuid session = Some (ParticipantSocial.chat_session_id (Participant.social sender)))))
   then unknown SessionChanged
   else
     match find_receipt (Participant.media_session_id sender) client_message_id (Room.social r) with
     | Some existing =>
         if conflicting attempt (ChatReceipt.message existing)
            || negb (bool_decide (ChatReceipt.sequence existing = attempt_sequence attempt))
         then if is_retry then unknown RetryConflict else bail (social_invalid "Message ID was already used")
         else acknowledge_chat expected (ChatReceipt.message existing) ;; hret None
     | None =>
         let high := ParticipantSocial.chat_high_water (Participant.social sender) in
         if is_some_and (attempt_sequence attempt) (fun v => (v <=? high)%N)
         then unknown (if bool_decide (attempt_sequence attempt = Some high) then ReceiptExpired else SequenceSuperseded)
         else if is_retry && bool_decide (is_Some (attempt_recipient_id attempt)) then unknown RecipientUnconfirmed
         else prepare_new_chat sender_id expected attempt client_message_id fresh saved_reply sender w
     end)%handler.

(** ** Delivery *)

Definition chat_received (m : chat_entry) : server_message :=
  ServerMessage.ChatReceived (ChatEntry.participant_id m) (ChatEntry.participant_name m) (ChatEntry.content m)
    (ChatEntry.attachments m) (ChatEntry.message_id m) (ChatEntry.client_message_id m) (ChatEntry.sent_at m)
    (ChatEntry.removed_at m) (ChatEntry.revision m) (ChatEntry.edited_at m) (ChatEntry.chat_style m)
    (ChatEntry.reply_to m).

(** Everyone else who does not ignore the sender. *)
Definition chat_audience (r : room) (sender_id : participant_id) : list Wire.sender :=
  Participant.sender <$> filter (fun p => Participant.id p <> sender_id /\ ignores p sender_id = false) (members r).

Definition deliver_chat (sender_id : participant_id) (p : prepared_chat) : handler failure (room * wire) unit :=
  match PreparedChat.recipient p with
  | Some (_, _, to) => fun s =>
      let '(s, delivered) := social_send to (ServerMessage.PrivateMessageReceived (PreparedChat.message p)) s in
      (s, if PreparedChat.durable p then Ok tt else delivered)
  | None => send (fun r q => send_each (chat_audience r sender_id) (chat_received (PreparedChat.message p)) q)
  end.

(** [sender.social.chat_high_water = sequence], when there is one. *)
Definition advance_watermark (sender_id : participant_id) (sequence : option N) (r : room) : room :=
  match sequence, Room.participants r !! sender_id with
  | Some v, Some p =>
      r <| Room.participants ::= <[sender_id := p <| Participant.social ::= fun s =>
             s <| ParticipantSocial.chat_high_water := v |> |>]> |>
  | _, _ => r
  end.

Definition finish_chat_attempt (sender_id : participant_id) (expected : Wire.sender) (p : prepared_chat)
  : handler failure (room * wire) unit :=
  (deliver_chat sender_id p ;;
   set_room (fun r => r <| Room.social ::= fun s => accept_receipt s
     (ChatReceipt.mk (PreparedChat.sender_session p) (PreparedChat.sequence p) (PreparedChat.now p)
        (PreparedChat.receipt_bytes p) (PreparedChat.message p)) |>) ;;
   set_room (advance_watermark sender_id (PreparedChat.sequence p)) ;;
   set_room (fun r => r <| Room.social ::= fun s => remember entry_bytes s (PreparedChat.sender_session p)
     ((fun x => x.1.2) <$> PreparedChat.recipient p) (PreparedChat.sender_authenticated p) (PreparedChat.message p) |>) ;;
   acknowledge_chat expected (PreparedChat.message p))%handler.

Definition process_chat_attempt (sender_id : participant_id) (expected : Wire.sender) (attempt : chat_attempt)
  (fresh : message_id) (w : world) : handler failure (room * wire) unit :=
  (let! prepared := prepare_chat_attempt sender_id expected attempt fresh None w in
   match prepared with
   | Some p => finish_chat_attempt sender_id expected p
   | None => hret tt
   end)%handler.
End chat.
