(* ===== verification/ChatDelivery.v ===== *)
(** * What becomes of a chat attempt

    An attempt is accepted only from someone who may speak and is acknowledged
    again when it is repeated; one that is not accepted is told to nobody else.
    What preparing and finishing an attempt do to the watermark of the member
    and to the queues of the room. *)

From stdpp Require Import pretty.
From S2P Require Import Prelude Refusal Net Roles Window RateTable Labels Settings Protocol Moderation Wire Social Room Media Process World Chat.

(** ** Nothing published *)

(** From [s] to [s'] the people and the history are the same and only the
    connection [to] has been told anything. *)
Record silent (to : sender) (s s' : room * wire) : Prop := {
  si_people : Room.participants s'.1 = Room.participants s.1;
  si_history : RoomSocial.history (Room.social s'.1) = RoomSocial.history (Room.social s.1);
  si_others : forall c, c <> to -> queued_for s'.2 c = queued_for s.2 c
}.

#[export] Instance silent_preorder to : PreOrder (silent to).
Proof.
  split; [by split|]. intros s1 s2 s3 [A1 A2 A3] [B1 B2 B3]. split; [congruence..|].
  intros c Hc. by rewrite B3, A3.
Qed.

Definition quietly {E A} (to : sender) (m : handler E (room * wire) A) : Prop := forall s, silent to s (m s).1.

Section quiet.
Context {E A : Type} (to : sender).

Lemma quietly_bind {B} (m : handler E (room * wire) B) (k : B -> handler E (room * wire) A) :
  quietly to m -> (forall x, quietly to (k x)) -> quietly to (hbind m k).
Proof.
  intros Hm Hk s. specialize (Hm s). unfold hbind. destruct (m s) as [s1 [x|e]]; [|done].
  etransitivity; [exact Hm|apply Hk].
Qed.

Lemma quietly_ret (x : A) : quietly to (hret (E := E) x).
Proof. intros s. done. Qed.
Lemma quietly_bail (e : E) : quietly to (bail (A := A) e).
Proof. intros s. done. Qed.
Lemma quietly_lift (x : result E A) : quietly to (hlift x).
Proof. intros s. done. Qed.
Lemma quietly_ensure (b : bool) (e : E) : quietly to (ensure b e).
Proof. intros s. by destruct b. Qed.
Lemma quietly_get : quietly to (get (E := E)).
Proof. intros s. done. Qed.

Lemma quietly_set (f : room -> room) :
  (forall r, Room.participants (f r) = Room.participants r) ->
  (forall r, RoomSocial.history (Room.social (f r)) = RoomSocial.history (Room.social r)) -> quietly to (set_room (E := E) f).
Proof. intros H1 H2 s. split; [apply H1|apply H2|done]. Qed.

Lemma quietly_reserve get_window put now (e : E) :
  (forall v r, Room.participants (put v r) = Room.participants r) ->
  (forall v r, Room.social (put v r) = Room.social r) -> quietly to (reserve_window get_window put now e).
Proof.
  intros H1 H2 s. unfold reserve_window. destruct (reserve (get_window s.1) now) as [v b].
  split; cbn; [apply H1|by rewrite H2|done].
Qed.
End quiet.

Lemma quietly_live to r : quietly to (ensure_live r).
Proof. intros s. unfold ensure_live. by destruct (Room.deleting r). Qed.

Lemma quietly_send to m : quietly to (social_send to m).
Proof.
  intros s. unfold social_send. pose proof (essential_other s.2 to m) as Ho.
  destruct (try_send_essential s.2 to m) as [q res]. split; [done..|]. intros c Hc. by apply Ho.
Qed.

Lemma quietly_ack to m : quietly to (acknowledge_chat to m).
Proof. intros s. split; [done..|]. intros c Hc. by apply essential_other. Qed.

Lemma prune_history s now : RoomSocial.history (prune_receipts s now) = RoomSocial.history s.
Proof. unfold prune_receipts. by destruct (prune_loop now (RoomSocial.receipts s) (RoomSocial.receipt_bytes s)). Qed.

Create HintDb quiet discriminated.
#[export] Hint Resolve quietly_ret quietly_bail quietly_lift quietly_ensure quietly_get quietly_live quietly_send
  quietly_ack : quiet.

(** Walk through a handler that publishes nothing. *)
Ltac quiet_go :=
  repeat first
    [ progress cbn beta iota zeta
    | progress intros
    | match goal with
      | |- quietly _ (hbind _ _) => apply quietly_bind
      | |- quietly _ (match ?x with _ => _ end) => destruct x
      end
    | solve [eauto with quiet] ].

Section chat.
Context `{Unicode, Codec}.

Lemma prepare_new_quietly id to attempt cid fresh saved sender w :
  quietly to (prepare_new_chat id to attempt cid fresh saved sender w).
Proof. unfold prepare_new_chat. quiet_go. by apply quietly_reserve. Qed.

Lemma prepare_quietly id to attempt fresh saved w : quietly to (prepare_chat_attempt id to attempt fresh saved w).
Proof.
  unfold prepare_chat_attempt, validate_attempt. quiet_go; [|apply prepare_new_quietly].
  apply quietly_set; [done|]. intros r. cbn. apply prune_history.
Qed.

(** ** What an attempt that was prepared has passed *)

Definition client_id (attempt : chat_attempt) (fresh : message_id) : string :=
  default (pretty fresh) (attempt_client_message_id attempt).

Record ready (id : participant_id) (expected : Wire.sender) (attempt : chat_attempt) (fresh : message_id) (w : world)
  (r : room) (sender : participant) (p : prepared_chat) : Prop := {
  rd_live : Room.deleting r = false;
  rd_member : Room.participants r !! id = Some sender;
  rd_bound : Participant.sender sender = expected;
  rd_text : is_plain_text (attempt_content attempt) = true /\ (text_len (attempt_content attempt) <= 4096)%N;
  rd_allowed : may_chat r sender = true;
  rd_new : forall v, attempt_sequence attempt = Some v ->
    (ParticipantSocial.chat_high_water (Participant.social sender) < v)%N;
  rd_unanswered : find_receipt (Participant.media_session_id sender) (client_id attempt fresh)
    (prune_receipts (Room.social r) (clock w)) = None;
  rd_recipient : recipient_of r sender (attempt_recipient_id attempt) = Ok (PreparedChat.recipient p);
  rd_sequence : PreparedChat.sequence p = attempt_sequence attempt;
  rd_session : PreparedChat.sender_session p = Participant.media_session_id sender;
  rd_now : PreparedChat.now p = clock w;
  rd_durable : PreparedChat.durable p = false;
  rd_message : ChatEntry.participant_id (PreparedChat.message p) = id
    /\ ChatEntry.client_message_id (PreparedChat.message p) = client_id attempt fresh
    /\ ChatEntry.recipient_id (PreparedChat.message p) = attempt_recipient_id attempt
    /\ ChatEntry.content (PreparedChat.message p) = attempt_content attempt
    /\ ChatEntry.removed_at (PreparedChat.message p) = None
    /\ ChatEntry.attachments (PreparedChat.message p) = [];
  rd_reply : replied_to (PreparedChat.message p) = attempt_reply_to attempt
}.

Lemma reply_reference_id m sender to reply : reply_reference m sender to = Ok reply -> reply_message_id reply = ChatEntry.message_id m.
Proof. unfold reply_reference. repeat case_match; try done. by intros [= <-]. Qed.

Lemma quote_reply_id history sender to id reply : quote_reply history sender to id = Ok reply -> reply_message_id reply = id.
Proof.
  unfold quote_reply. destruct (find _ _) as [e|] eqn:Ef; [|done]. intros Hr%reply_reference_id.
  apply find_some in Ef as [_ Hb]. apply andb_prop in Hb as [Hb%N.eqb_eq _]. congruence.
Qed.

Lemma reply_of_id r sender attempt saved reply :
  reply_of r sender attempt saved = Ok reply -> reply_message_id <$> reply = attempt_reply_to attempt.
Proof.
  unfold reply_of. destruct (attempt_reply_to attempt) as [id|]; [|by intros [= <-]].
  destruct (quote_reply _ _ _ _) as [q|e] eqn:Eq.
  - intros [= <-]. cbn. f_equal. by eapply quote_reply_id.
  - destruct (attempt_recipient_id attempt); [done|]. destruct saved as [m|]; [|done].
    destruct (N.eqb_spec (ChatEntry.message_id m) id) as [<-|]; [|done]. unfold saved_public_reply.
    destruct (_ || _); [done|]. destruct (reply_reference m sender None) as [q|] eqn:Er; [|done]. cbn. intros [= <-]. cbn.
    f_equal. by eapply reply_reference_id.
Qed.

(** What the rest of the section does not look at. *)
Definition surroundings (s : room * wire) := (s.2, Room.social s.1, Room.deleting s.1).

Lemma budget_frame (b : bool) now (s s' : room * wire) u :
  (if b then reserve_chat now else hret tt) s = (s', Ok u) -> surroundings s' = surroundings s.
Proof.
  destruct b; [|by intros [= <-]]. unfold reserve_chat, reserve_window.
  destruct (reserve _ _) as [window []]; [by intros [= <-]|done].
Qed.

Lemma prepare_new_ok id to attempt cid fresh saved sender w s s1 p :
  prepare_new_chat id to attempt cid fresh saved sender w s = (s1, Ok (Some p)) ->
  surroundings s1 = surroundings s /\ may_chat s.1 sender = true
  /\ recipient_of s.1 sender (attempt_recipient_id attempt) = Ok (PreparedChat.recipient p)
  /\ exists m reply bytes, reply_of s.1 sender attempt saved = Ok reply
     /\ m = ChatEntry.mk fresh cid id (Participant.name sender) (attempt_recipient_id attempt)
             ((fun p => p.1.1) <$> PreparedChat.recipient p) None (attempt_content attempt) [] (wall w) None 0 None
             (Participant.chat_style sender) reply []
     /\ p = PreparedChat.mk m (attempt_attachment_ids attempt) (Participant.media_session_id sender)
             (Participant.authenticated sender) (PreparedChat.recipient p) (attempt_sequence attempt) bytes (clock w)
             (is_saved s.1 sender (attempt_recipient_id attempt)) false.
Proof.
  unfold prepare_new_chat. intros Hp. apply hbind_ok in Hp as (? & ? & Hg & Hp). unfold get in Hg. injection Hg as <- <-.
  apply hbind_ok in Hp as (? & ? & [Hm ->]%ensure_ok & Hp).
  destruct (find_history _ _ _); [succeeded|]. succeeded. destruct (CHAT_RECEIPT_BYTES <? _)%N.
  { destruct (attempt_retry_session attempt); succeeded. }
  succeeded. split_and!; [by eapply budget_frame|done..|].
  by eexists _, _, _.
Qed.

Lemma validate_ok attempt cid (s s' : room * wire) :
  validate_attempt attempt cid s = (s', Ok tt) ->
  s' = s /\ is_plain_text (attempt_content attempt) = true /\ (text_len (attempt_content attempt) <= 4096)%N.
Proof.
  unfold validate_attempt. intros Hv. succeeded. split; [done|]. split; [done|].
  match goal with Ht : negb (_ || _) = true |- _ => apply negb_true_iff, orb_false_iff in Ht as [_ Ht%N.ltb_ge]; exact Ht end.
Qed.

Lemma prepare_ok id to attempt fresh saved w s s1 p :
  prepare_chat_attempt id to attempt fresh saved w s = (s1, Ok (Some p)) ->
  validate_attempt attempt (client_id attempt fresh) s = (s, Ok tt)
  /\ surroundings s1 = (s.2, prune_receipts (Room.social s.1) (clock w), false)
  /\ exists sender, ready id to attempt fresh w s.1 sender p.
Proof.
  unfold prepare_chat_attempt. intros Hp. apply hbind_ok in Hp as (s0 & [] & Hval & Hp).
  destruct (validate_ok _ _ _ _ Hval) as [-> Htext]. split; [done|]. succeeded.
  match goal with Hl : ensure_live _ _ = _ |- _ => apply live_ok in Hl as [Hlive ->] end. succeeded.
  match goal with Hs : participant_for_sender _ _ _ = Ok ?x |- _ => apply sender_ok in Hs as (_ & Hm & Hb); rename x into sender end.
  branch Hp; [succeeded|]. destruct (find_receipt _ _ _) eqn:Ef.
  { branch Hp; [branch Hp|]; succeeded. }
  destruct (is_some_and (attempt_sequence attempt) (fun v => (v <=? _)%N)) eqn:Eseq; [succeeded|].
  branch Hp; [succeeded|]. apply prepare_new_ok in Hp as (Hq & Hmay & Hrec & m & reply & bytes & Hreply & -> & ->).
  split; [rewrite Hq; unfold surroundings; cbn; by rewrite Hlive|]. exists sender. split; try done.
  - intros v Hv. rewrite Hv in Eseq. cbn in Eseq. by apply N.leb_gt in Eseq.
  - by eapply reply_of_id.
Qed.

(** ** Delivery *)

Definition accepts (id : participant_id) (expected : Wire.sender) (attempt : chat_attempt) (fresh : message_id)
  (w : world) (s : room * wire) : Prop :=
  exists s1 p, prepare_chat_attempt id expected attempt fresh None w s = (s1, Ok (Some p))
    /\ is_ok (finish_chat_attempt id expected p s1).2 = true.

Lemma refused_send q to m : (try_send_essential q to m).2 <> Ok tt ->
  forall c, queued_for (try_send_essential q to m).1 c = queued_for q c.
Proof.
  intros Hr c. unfold queued_for. rewrite essential_channels. unfold try_send_essential, try_send in *.
  destruct (channels q !! to) as [ch|]; [|done]. destruct (closed ch); [done|]. by destruct (_ <=? _)%nat.
Qed.

(** What [finish_chat_attempt] leaves: nothing when the delivery is refused. *)
Lemma finish_refused id to p s : is_ok (finish_chat_attempt id to p s).2 = false -> silent to s (finish_chat_attempt id to p s).1.
Proof.
  unfold finish_chat_attempt, hbind, deliver_chat.
  destruct (PreparedChat.recipient p) as [[[name session] c]|]; [|done]. unfold social_send.
  pose proof (refused_send s.2 c (ServerMessage.PrivateMessageReceived (PreparedChat.message p))) as Hq.
  destruct (try_send_essential _ _ _) as [q [[]|e]]; destruct (PreparedChat.durable p); cbn; try done.
  intros _. split; [done..|]. intros c' _. by apply Hq.
Qed.

Lemma finish_people id to p s : is_ok (finish_chat_attempt id to p s).2 = true ->
  Room.participants (finish_chat_attempt id to p s).1.1 = Room.participants (advance_watermark id (PreparedChat.sequence p) s.1).
Proof.
  unfold finish_chat_attempt, hbind. destruct (deliver_chat id p s) as [s1 [[]|e]] eqn:Ed; [|done]. intros _.
  assert (s1.1 = s.1) as <-.
  { unfold deliver_chat, social_send, send in Ed. destruct (PreparedChat.recipient p) as [[[name session] c]|]; [|by injection Ed as <-].
    destruct (try_send_essential _ _ _) as [q res]. injection Ed as <- _. done. }
  cbn. unfold advance_watermark. cbn. destruct (PreparedChat.sequence p); [|done].
  by destruct (Room.participants s1.1 !! id).
Qed.

(** ** At most once *)

Definition watermark (id : participant_id) (r : room) : option N :=
  (fun p => ParticipantSocial.chat_high_water (Participant.social p)) <$> Room.participants r !! id.

Lemma process_accepted id to attempt fresh w s s1 p :
  prepare_chat_attempt id to attempt fresh None w s = (s1, Ok (Some p)) ->
  process_chat_attempt id to attempt fresh w s = finish_chat_attempt id to p s1.
Proof. intros Hp. unfold process_chat_attempt, hbind. by rewrite Hp. Qed.

Lemma process_silent id to attempt fresh w s :
  ~ accepts id to attempt fresh w s -> silent to s (process_chat_attempt id to attempt fresh w s).1.
Proof.
  intros Hno. pose proof (prepare_quietly id to attempt fresh None w s) as Hq.
  destruct (prepare_chat_attempt id to attempt fresh None w s) as [s1 [[p|]|e]] eqn:Ep.
  - rewrite (process_accepted _ _ _ _ _ _ _ _ Ep). etransitivity; [exact Hq|]. apply finish_refused.
    destruct (is_ok _) eqn:Eok; [|done]. exfalso. apply Hno. by exists s1, p.
  - unfold process_chat_attempt, hbind. by rewrite Ep.
  - unfold process_chat_attempt, hbind. by rewrite Ep.
Qed.

(** An attempt that is not accepted, because it is malformed, not
    permitted, a duplicate or undeliverable, changes neither the people nor the
    history of the room, and no connection but the one it came from is told. *)
Theorem unaccepted_chat_is_silent id to attempt fresh w s :
  ~ accepts id to attempt fresh w s -> silent to s (process_chat_attempt id to attempt fresh w s).1.
Proof. apply process_silent. Qed.

(** ** Who hears it *)

Lemma finish_wire id to p s :
  is_ok (finish_chat_attempt id to p s).2 = true ->
  exists q1, (deliver_chat id p s).1.2 = q1 /\ is_ok (deliver_chat id p s).2 = true
    /\ (finish_chat_attempt id to p s).1.2
       = (try_send_essential q1 to (ServerMessage.MessageAck (ChatEntry.client_message_id (PreparedChat.message p))
                                      (PreparedChat.message p))).1.
Proof.
  unfold finish_chat_attempt, hbind. destruct (deliver_chat id p s) as [s1 [[]|e]]; [|done]. intros _. by eexists.
Qed.

(** What was sent before the acknowledgement is still there after it. *)
Lemma ack_keeps q to ack c m :
  m ∈ queued_for q c \/ resync_requested q c ->
  m ∈ queued_for (try_send_essential q to ack).1 c \/ resync_requested (try_send_essential q to ack).1 c.
Proof. intros [Hm|Hm]; [left; by apply essential_keeps|right; by apply essential_resync]. Qed.

Lemma recipient_of_ok r sender to found :
  recipient_of r sender (Some to) = Ok found ->
  exists p, Room.participants r !! to = Some p /\ can_private_message sender p = true
    /\ found = Some (Participant.name p, Participant.media_session_id p, Participant.sender p).
Proof.
  unfold recipient_of. destruct (Room.participants r !! to) as [p|]; [|done].
  destruct (can_private_message sender p) eqn:Ec; [|done]. intros [= <-]. by exists p.
Qed.

Lemma send_accepted q to m : (try_send_essential q to m).2 = Ok tt -> m ∈ queued_for (try_send_essential q to m).1 to.
Proof.
  unfold queued_for. rewrite essential_channels. unfold try_send_essential, try_send.
  destruct (channels q !! to) as [ch|] eqn:Ec; [|done]. destruct (closed ch); [done|]. destruct (_ <=? _)%nat; [done|]. cbn.
  intros _. rewrite lookup_insert_eq. cbn. apply elem_of_app. right. by apply list_elem_of_singleton.
Qed.

Lemma private_delivery id p s name session c :
  PreparedChat.recipient p = Some (name, session, c) -> PreparedChat.durable p = false ->
  is_ok (deliver_chat id p s).2 = true ->
  ServerMessage.PrivateMessageReceived (PreparedChat.message p) ∈ queued_for (deliver_chat id p s).1.2 c
  /\ forall c', c' <> c -> queued_for (deliver_chat id p s).1.2 c' = queued_for s.2 c'.
Proof.
  intros Hr Hd. unfold deliver_chat, social_send. rewrite Hr, Hd.
  set (m := ServerMessage.PrivateMessageReceived _).
  pose proof (send_accepted s.2 c m) as Ha. pose proof (essential_other s.2 c m) as Ho.
  destruct (try_send_essential s.2 c m) as [q [[]|e]]; cbn; [|done]. intros _. split; [by apply Ha|exact Ho].
Qed.

Lemma private_wire id p s name session c :
  PreparedChat.recipient p = Some (name, session, c) ->
  (deliver_chat id p s).1.2 = (try_send_essential s.2 c (ServerMessage.PrivateMessageReceived (PreparedChat.message p))).1.
Proof. intros Hr. unfold deliver_chat, social_send. rewrite Hr. by destruct (try_send_essential _ _ _). Qed.

(** ** Repeating an attempt *)

Lemma member_loop_subset fuel session receipts bytes x :
  x ∈ (member_loop fuel session receipts bytes).1 -> x ∈ receipts.
Proof.
  revert receipts bytes. induction fuel as [|fuel IH]; intros receipts bytes; cbn [member_loop]; [done|].
  destruct (_ <=? _)%nat; [|done]. pose proof (remove_receipt_spec session receipts) as Hs.
  destruct (remove_receipt session receipts) as [[rest found]|]; [|done]. intros Hx%IH.
  destruct Hs as (l1 & l2 & -> & -> & _). apply elem_of_app in Hx as [Hx|Hx]; apply elem_of_app; [by left|right; by right].
Qed.

Lemma room_loop_subset needed receipts bytes x : x ∈ (room_loop needed receipts bytes).1 -> x ∈ receipts.
Proof.
  revert bytes. induction receipts as [|r rest IH]; intros bytes; cbn [room_loop]; [done|].
  destruct (_ || _); [|done]. intros Hx%IH. by right.
Qed.

Lemma accept_receipt_shape s rc :
  exists l, RoomSocial.receipts (accept_receipt s rc) = l ++ [rc] /\ forall x, x ∈ l -> x ∈ RoomSocial.receipts s.
Proof.
  unfold accept_receipt, make_receipt_room.
  pose proof (member_loop_subset (length (RoomSocial.receipts s)) (ChatReceipt.sender_session rc) (RoomSocial.receipts s)
    (RoomSocial.receipt_bytes s)) as Hm. destruct (member_loop _ _ _ _) as [l1 b1]. cbn in Hm.
  pose proof (room_loop_subset (ChatReceipt.bytes rc) l1 b1) as Hr. destruct (room_loop _ _ _) as [l2 b2]. cbn in Hr.
  exists l2. split; [done|]. auto.
Qed.

(** A receipt that has not expired survives at the end of the queue. *)
Lemma prune_keeps_last s l rc now :
  RoomSocial.receipts s = l ++ [rc] -> (duration_since now (ChatReceipt.accepted_at rc) < CHAT_RECEIPT_TTL)%N ->
  exists l', RoomSocial.receipts (prune_receipts s now) = l' ++ [rc] /\ forall x, x ∈ l' -> x ∈ l.
Proof.
  intros Hl Hrc. unfold prune_receipts. rewrite Hl. generalize (RoomSocial.receipt_bytes s). clear Hl.
  induction l as [|x l IH]; intros bytes.
  - cbn. rewrite (proj2 (N.leb_gt _ _) Hrc). by exists [].
  - cbn [prune_loop app]. destruct (_ <=? _)%N; [|by exists (x :: l)].
    destruct (IH (saturating_sub bytes (ChatReceipt.bytes x))) as (l' & -> & Hsub). exists l'. split; [done|].
    intros y Hy. right. auto.
Qed.

Lemma find_last {A} (f : A -> bool) l x : (forall y, y ∈ l -> f y = false) -> f x = true -> find f (l ++ [x]) = Some x.
Proof.
  intros Hl Hx. induction l as [|y l IH]; cbn; [by rewrite Hx|]. rewrite (Hl y) by by left. apply IH. intros z Hz. apply Hl. by right.
Qed.

Lemma remember_receipts s session recipient auth m :
  RoomSocial.receipts (remember entry_bytes s session recipient auth m) = RoomSocial.receipts s.
Proof. unfold remember, trim_history. by destruct (trim_loop _ _). Qed.

(** The receipt of an accepted attempt is the one its repetition finds. *)
Lemma receipt_found s rc session cid now now' :
  find_receipt session cid (prune_receipts s now) = None ->
  ChatReceipt.sender_session rc = session -> ChatEntry.client_message_id (ChatReceipt.message rc) = cid ->
  (duration_since now' (ChatReceipt.accepted_at rc) < CHAT_RECEIPT_TTL)%N ->
  forall s', RoomSocial.receipts s' = RoomSocial.receipts (accept_receipt (prune_receipts s now) rc) ->
  find_receipt session cid (prune_receipts s' now') = Some rc.
Proof.
  intros Hnone Hs Hc Hlive s' Hs'. destruct (accept_receipt_shape (prune_receipts s now) rc) as (l & Hl & Hsub).
  rewrite <-Hs' in Hl. destruct (prune_keeps_last s' l rc now' Hl Hlive) as (l' & Hl' & Hsub').
  unfold find_receipt. rewrite Hl'. apply find_last.
  - intros y Hy. apply Hsub', Hsub, list_elem_of_In in Hy. exact (find_none _ _ Hnone y Hy).
  - by rewrite Hs, Hc, N.eqb_refl, String.eqb_refl.
Qed.

(** The checks of a command look at its text, files and number only. *)
Lemma validate_again attempt attempt' cid (s s0 s' : room * wire) :
  attempt_content attempt' = attempt_content attempt -> attempt_attachment_ids attempt' = attempt_attachment_ids attempt ->
  attempt_sequence attempt' = attempt_sequence attempt ->
  validate_attempt attempt cid s = (s0, Ok tt) -> validate_attempt attempt' cid s' = (s', Ok tt).
Proof.
  intros Hc Ha Hs Hv. unfold validate_attempt in *. rewrite Hc, Ha, Hs. succeeded. unfold hbind, ensure.
  by repeat match goal with E : _ = true |- _ => rewrite E; clear E end.
Qed.

(** The command's own checks and the member's, forward. *)
Lemma prepare_answers id to attempt fresh w s sender rc :
  validate_attempt attempt (client_id attempt fresh) s = (s, Ok tt) -> Room.deleting s.1 = false ->
  Room.participants s.1 !! id = Some sender -> Participant.sender sender = to -> attempt_attachment_ids attempt = [] ->
  (forall session, attempt_retry_session attempt = Some session ->
     parse_uuid session = Some (ParticipantSocial.chat_session_id (Participant.social sender))) ->
  find_receipt (Participant.media_session_id sender) (client_id attempt fresh) (prune_receipts (Room.social s.1) (clock w)) = Some rc ->
  conflicting attempt (ChatReceipt.message rc) = false -> ChatReceipt.sequence rc = attempt_sequence attempt ->
  process_chat_attempt id to attempt fresh w s
  = ((s.1 <| Room.social ::= fun x => prune_receipts x (clock w) |>,
      (try_send_essential s.2 to (ServerMessage.MessageAck (ChatEntry.client_message_id (ChatReceipt.message rc)) (ChatReceipt.message rc))).1),
     Ok tt).
Proof.
  intros Hval Hlive Hm Hb Hatt Hsession Hfind Hconf Hseq. unfold process_chat_attempt, prepare_chat_attempt, hbind.
  fold (client_id attempt fresh). rewrite Hval. unfold get, ensure_live, set_room, hlift. rewrite Hlive. cbn [fst snd hret].
  assert (participant_for_sender (s.1 <| Room.social ::= fun x => prune_receipts x (clock w) |>) id to = Ok sender) as Hs.
  { unfold participant_for_sender. cbn. rewrite Hlive, Hm. cbn. by rewrite Hb, N.eqb_refl. }
  rewrite Hs, Hatt. cbn [ensure bool_decide]. rewrite (bool_decide_eq_true_2 (@nil N = [])) by done. cbn.
  assert (is_some_and (attempt_retry_session attempt) (fun session => negb (bool_decide
    (parse_uuid session = Some (ParticipantSocial.chat_session_id (Participant.social sender))))) = false) as Hr.
  { destruct (attempt_retry_session attempt) as [session|]; [|done]. cbn. apply negb_false_iff, bool_decide_eq_true_2. by apply Hsession. }
  rewrite Hr, Hfind, Hconf, bool_decide_eq_true_2 by done. done.
Qed.

(** What an accepted attempt leaves of the room. *)
Lemma finish_room id to p s :
  is_ok (finish_chat_attempt id to p s).2 = true ->
  let r' := (finish_chat_attempt id to p s).1.1 in
  Room.deleting r' = Room.deleting s.1
  /\ RoomSocial.receipts (Room.social r') = RoomSocial.receipts (accept_receipt (Room.social s.1)
       (ChatReceipt.mk (PreparedChat.sender_session p) (PreparedChat.sequence p) (PreparedChat.now p)
          (PreparedChat.receipt_bytes p) (PreparedChat.message p))).
Proof.
  unfold finish_chat_attempt, hbind. destruct (deliver_chat id p s) as [s1 [[]|e]] eqn:Ed; [|done]. intros _.
  assert (s1.1 = s.1) as <-.
  { unfold deliver_chat, social_send, send in Ed. destruct (PreparedChat.recipient p) as [[[name session] c]|]; [|by injection Ed as <-].
    destruct (try_send_essential _ _ _) as [q res]. injection Ed as <- _. done. }
  cbn. rewrite remember_receipts. unfold advance_watermark. cbn.
  destruct (PreparedChat.sequence p); [|done]. by destruct (Room.participants s1.1 !! id).
Qed.

(** Repeating an accepted attempt within the five minutes a receipt
    lives, as the same command or as a retry that names the membership's chat
    session, is answered with the message as it was accepted; the people and
    the history stay, and nobody else is told. *)
Theorem repeated_chat_is_acknowledged id to attempt cid session fresh w s fresh' w' :
  accepts id to attempt fresh w s -> attempt_client_message_id attempt = Some cid -> attempt_attachment_ids attempt = [] ->
  (duration_since (clock w') (clock w) < CHAT_RECEIPT_TTL)%N ->
  (forall sender text, Room.participants s.1 !! id = Some sender -> session = Some text ->
     parse_uuid text = Some (ParticipantSocial.chat_session_id (Participant.social sender))) ->
  let s1 := (process_chat_attempt id to attempt fresh w s).1 in
  let again := ChatAttempt (attempt_content attempt) [] (Some cid) (attempt_recipient_id attempt) (attempt_sequence attempt)
                 session (attempt_reply_to attempt) in
  exists m s2, process_chat_attempt id to again fresh' w' s1 = (s2, Ok tt) /\ silent to s1 s2
  /\ s2.2 = (try_send_essential s1.2 to (ServerMessage.MessageAck cid m)).1
  /\ ChatEntry.participant_id m = id /\ ChatEntry.content m = attempt_content attempt.
Proof.
  intros (s0 & p & Hp & Hok) Hcid Hatt Hage Hsession s1 again.
  destruct (prepare_ok _ _ _ _ _ _ _ _ _ Hp) as (Hval & Hsur & sender & R). injection Hsur as _ Hsocial Hlive.
  pose proof (prepare_quietly id to attempt fresh None w s) as [Hpeople _ _]. rewrite Hp in Hpeople. cbn in Hpeople.
  destruct (rd_message _ _ _ _ _ _ _ _ R) as (Hid & Hmid & Hto & Hcontent & Hremoved & Hfiles).
  assert (client_id attempt fresh = cid) as Hc by (unfold client_id; by rewrite Hcid). rewrite Hc in *.
  destruct (finish_room id to p s0 Hok) as [Hdel Hrec]. pose proof (finish_people id to p s0 Hok) as Hpeople'.
  assert (s1 = (finish_chat_attempt id to p s0).1) as Hs1 by (unfold s1; by rewrite (process_accepted _ _ _ _ _ _ _ _ Hp)).
  set (rc := ChatReceipt.mk _ _ _ _ _) in Hrec.
  assert (exists sender', Room.participants s1.1 !! id = Some sender' /\ Participant.sender sender' = to
    /\ Participant.media_session_id sender' = Participant.media_session_id sender
    /\ ParticipantSocial.chat_session_id (Participant.social sender') = ParticipantSocial.chat_session_id (Participant.social sender))
    as (sender' & Hm' & Hb' & Hms' & Hcs').
  { rewrite Hs1, Hpeople'. unfold advance_watermark. rewrite Hpeople, (rd_member _ _ _ _ _ _ _ _ R).
    pose proof (rd_bound _ _ _ _ _ _ _ _ R) as Hb.
    destruct (PreparedChat.sequence p); cbn; rewrite ?lookup_insert_eq, ?Hpeople, ?(rd_member _ _ _ _ _ _ _ _ R); by eexists. }
  eassert (process_chat_attempt id to again fresh' w' s1 = _) as Hrun.
  { apply (prepare_answers id to again fresh' w' s1 sender' rc); try done.
    - change (client_id again fresh') with cid. by apply (validate_again attempt again cid s s).
    - by rewrite Hs1, Hdel.
    - intros text Htext. rewrite Hcs'. by apply (Hsession sender); [apply R|].
    - rewrite Hms'. change (client_id again fresh') with cid. apply (receipt_found (Room.social s.1) rc _ _ (clock w) (clock w'));
        [by rewrite <-(rd_unanswered _ _ _ _ _ _ _ _ R), Hc|apply R|done|unfold rc; cbn; by rewrite (rd_now _ _ _ _ _ _ _ _ R)|].
      rewrite Hs1, Hrec. by rewrite Hsocial.
    - unfold conflicting, rc, again. cbn. rewrite Hcontent, Hremoved, Hto, Hfiles, (rd_reply _ _ _ _ _ _ _ _ R).
      by repeat (case_bool_decide; try done).
    - apply R. }
  exists (PreparedChat.message p). eexists. split; [exact Hrun|]. split; [|split; [|done]].
  - split; cbn; [done|apply prune_history|]. intros c Hne. by apply essential_other.
  - cbn. by rewrite Hmid.
Qed.

Definition accepts_dec (id : participant_id) (expected : Wire.sender) (attempt : chat_attempt) (fresh : message_id)
  (w : world) (s : room * wire) : bool :=
  match prepare_chat_attempt id expected attempt fresh None w s with
  | (s1, Ok (Some p)) => is_ok (finish_chat_attempt id expected p s1).2
  | _ => false
  end.

Lemma accepts_dec_spec id to attempt fresh w s : accepts_dec id to attempt fresh w s = true <-> accepts id to attempt fresh w s.
Proof.
  unfold accepts_dec, accepts. split.
  - destruct (prepare_chat_attempt _ _ _ _ _ _ _) as [s1 [[p|]|e]]; try done. intros Hok. by exists s1, p.
  - intros (s1 & p & -> & Hok). done.
Qed.
End chat.

(** ** Two people talking *)

Definition sample_codec : Codec.
Proof.
  refine {| entry_bytes := fun m => Some (1 + text_len (ChatEntry.content m))%N;
            parse_uuid := fun s => if String.eqb s "one" then Some 1%N else None;
            read_cursor := fun _ => None |}.
  intros m n [= <-]. lia.
Defined.

Definition talk_world (now : instant) : world :=
  World ∅ 0 ∅ ∅ ∅ false sample_wire ∅ (RateTable ∅ [] None) (RateTable ∅ [] None) now 0 0 ∅ [].

(** Ann (1) and Bob (2), each with a free queue. *)
Definition talk_wire : wire :=
  Wire {[ 10%N := Channel [] 8 false; 20%N := Channel [] 8 false ]} [(1%N, Registration 10 false); (2%N, Registration 20 false)] 3 0 0.
Definition talk : room * wire :=
  (sample_room [sample_participant 1 (text_of "Ann") 10; sample_participant 2 (text_of "Bob") 20], talk_wire).

Definition say (words : string) (to : option participant_id) (v : N) (session : option string) : chat_attempt :=
  ChatAttempt (text_of words) [] (Some words) to (Some v) session None.

Abbreviation ann_says words to v session fresh now s :=
  (process_chat_attempt (H := ascii_unicode) (H0 := sample_codec) 1 10 (say words to v session) fresh (talk_world now) s).
Abbreviation ann_accepted words to v session fresh now s :=
  (accepts (H := ascii_unicode) (H0 := sample_codec) 1 10 (say words to v session) fresh (talk_world now) s).

Lemma hello_accepted : ann_accepted "hello" None 1 None 100 0 talk.
Proof. apply accepts_dec_spec. by vm_compute. Qed.

Definition after_hello : room * wire := (ann_says "hello" None 1 None 100 0 talk).1.

Lemma hello_again_unaccepted : ~ ann_accepted "hello" None 1 (Some "one") 101 5 after_hello.
Proof. rewrite <-accepts_dec_spec. by vm_compute. Qed.

Lemma unaccepted_chat_is_silent_witness :
  queued_for (ann_says "hello" None 1 (Some "one") 101 5 after_hello).1.2 20 = queued_for after_hello.2 20.
Proof.
  apply (si_others 10 after_hello); [|done].
  apply (unaccepted_chat_is_silent (H := ascii_unicode) (H0 := sample_codec) 1 10 (say "hello" None 1 (Some "one")) 101
    (talk_world 5) after_hello), hello_again_unaccepted.
Defined.

Lemma repeated_chat_is_acknowledged_witness :
  exists m s2, ann_says "hello" None 1 (Some "one") 101 5 after_hello = (s2, Ok tt)
  /\ s2.2 = (try_send_essential after_hello.2 10 (ServerMessage.MessageAck "hello" m)).1
  /\ ChatEntry.content m = text_of "hello".
Proof.
  destruct (repeated_chat_is_acknowledged (H := ascii_unicode) (H0 := sample_codec) 1 10 (say "hello" None 1 None) "hello"
    (Some "one") 100 (talk_world 0) talk 101 (talk_world 5) hello_accepted eq_refl eq_refl) as (m & s2 & H1 & _ & H3 & _ & H5).
  - by vm_compute.
  - intros sender text Hs [= <-]. vm_compute in Hs. injection Hs as <-. done.
  - exists m, s2. split; [exact H1|]. split; [exact H3|exact H5].
Defined.
