(* ===== verification/ChatEvents.v ===== *)
(** * Typing, reactions, edits, pins and snapshots ([src/src/room/social.rs])

    What the other chat requests do to a room under its lock, and what a
    member is shown of it. *)

From S2P Require Import Prelude Refusal Net Roles Window Labels Settings Protocol Moderation Wire Social Room Media Process World Chat.

(** ** Typing *)

Definition note_typing (id : participant_id) (now : instant) (r : room) : room :=
  match Room.participants r !! id with
  | Some p => r <| Room.participants ::= <[id := p <| Participant.social ::= fun s =>
                     s <| ParticipantSocial.last_typing := Some now |> |>]> |>
  | None => r
  end.

Definition relay_typing (sender_id : participant_id) (expected : sender) (target : option participant_id) (w : world)
  : handler failure (room * wire) unit :=
  (let! r := get in
   let! sender := hlift (participant_for_sender r sender_id expected) in
   let recent := is_some_and (ParticipantSocial.last_typing (Participant.social sender))
                   (fun last => (duration_since (clock w) last <? TYPING_INTERVAL)%N) in
   if negb (may_chat r sender && negb recent) then hret tt
   else
     set_room (note_typing sender_id (clock w)) ;;
     let event := ServerMessage.ParticipantTyping sender_id target in
     match target with
     | Some to =>
         let accepts := negb (to =? sender_id)%N && negb (ignores sender to)
           && is_some_and (Room.participants r !! to) (fun recipient =>
                ParticipantSocial.allow_private_messages (Participant.social recipient)
                && negb (ignores recipient sender_id)) in
         if accepts
         then send (fun r q => match Room.participants r !! to with
                               | Some recipient => try_send_broadcast (Participant.sender recipient) event q
                               | None => q
                               end)
         else hret tt
     | None => send (fun r q => foldl (fun q c => try_send_broadcast c event q) q (chat_audience r sender_id))
     end)%handler.

(** ** Finding messages *)

Definition entry_is (id : message_id) (e : history_entry) : Prop := ChatEntry.message_id (HistoryEntry.message e) = id.
#[export] Instance entry_is_dec id e : Decision (entry_is id e) := decide (_ = _).

(** The first retained copy, with its index. *)
Definition find_entry (id : message_id) (s : room_social) : option (nat * history_entry) :=
  list_find (entry_is id) (RoomSocial.history s).
Definition find_live_entry (id : message_id) (s : room_social) : option (nat * history_entry) :=
  list_find (fun e => entry_is id e /\ ChatEntry.removed_at (HistoryEntry.message e) = None) (RoomSocial.history s).

Definition set_entry_reactions (i : nat) (reactions : list chat_reaction) (s : room_social) : room_social :=
  s <| RoomSocial.history ::= alter (fun e => e <| HistoryEntry.message ::= fun m => m <| ChatEntry.reactions := reactions |> |>) i |>.

(** Everyone in the room for whom [f] holds. *)
Definition senders_where (f : participant -> bool) (r : room) : list sender :=
  Participant.sender <$> filter (fun p => f p = true) (members r).

Section events.
Context `{Unicode, Codec}.

(** ** Reactions *)

Definition prepare_reaction (r : room) (id : participant_id) (message : message_id) (e : text)
  : result failure (list chat_reaction) :=
  match Room.participants r !! id with
  | None => Err (social_not_found "Participant not found")
  | Some actor =>
      match list_find (fun h => entry_is message h /\ visible h actor = true) (RoomSocial.history (Room.social r)) with
      | None => Err (social_not_found "That message is no longer available")
      | Some (_, h) =>
          if bool_decide (is_Some (ChatEntry.removed_at (HistoryEntry.message h)))
          then Err (social_not_found "That message has been removed")
          else match toggle_reactions (ChatEntry.reactions (HistoryEntry.message h)) id e with
               | Ok reactions => Ok reactions
               | Err m => Err (social_invalid m)
               end
      end
  end.

Definition publish_reaction (message : message_id) (reactions : list chat_reaction)
  : handler failure (room * wire) (list chat_reaction) :=
  (let! r := get in
   match find_entry message (Room.social r) with
   | None => bail (social_not_found "That message is no longer available")
   | Some (i, h) =>
       if bool_decide (is_Some (ChatEntry.removed_at (HistoryEntry.message h)))
       then bail (social_not_found "That message has been removed")
       else
         set_room (fun r => r <| Room.social ::= set_entry_reactions i reactions |>) ;;
         send (fun r q => send_each (senders_where (visible h) r) (ServerMessage.MessageReactions message reactions) q) ;;
         set_room (fun r => r <| Room.social ::= fun s => recount entry_bytes s i |>) ;;
         hret reactions
   end)%handler.

(** [reconcile_reactions]. *)
Definition reconcile_reactions (message : chat_entry) (s : room_social) : room_social :=
  match find_live_entry (ChatEntry.message_id message) s with
  | Some (i, _) => recount entry_bytes (set_entry_reactions i (ChatEntry.reactions message) s) i
  | None => s
  end.

Definition pin_reactions (message : chat_entry) (pin : chat_entry) : chat_entry :=
  if (ChatEntry.message_id pin =? ChatEntry.message_id message)%N && bool_decide (ChatEntry.removed_at pin = None)
  then pin <| ChatEntry.reactions := ChatEntry.reactions message |> else pin.

Definition publish_saved_reaction (message : chat_entry) : handler failure (room * wire) unit :=
  (ensure (negb (bool_decide (is_Some (ChatEntry.recipient_id message)) || bool_decide (is_Some (ChatEntry.removed_at message))))
     (social_unavailable "Public message unavailable") ;;
   set_room (fun r => r <| Room.social ::= fun s =>
     (reconcile_reactions message s) <| RoomSocial.pins ::= fmap (pin_reactions message) |> |>) ;;
   send (fun r q => send_each
     (senders_where (fun p => ParticipantSocial.connected (Participant.social p)
                              && negb (ignores p (ChatEntry.participant_id message))) r)
     (ServerMessage.MessageReactions (ChatEntry.message_id message) (ChatEntry.reactions message)) q))%handler.

(** ** Edits *)

Definition prepare_edit (r : room) (actor : participant) (message : message_id) (request : edit_request) (wall : timestamp)
  : result failure (option chat_entry) :=
  if negb (may_chat r actor) then Err (social_forbidden "You are not allowed to chat")
  else match find_entry message (Room.social r) with
  | None => Ok None
  | Some (_, h) =>
      let m := HistoryEntry.message h in
      if negb (ChatEntry.participant_id m =? Participant.id actor)%N
         || (negb (Participant.authenticated actor)
             && negb (HistoryEntry.sender_session h =? Participant.media_session_id actor)%N)
         || (bool_decide (is_Some (ChatEntry.recipient_id m)) && negb (visible h actor))
      then Err (social_forbidden "Only the author can edit this message")
      else
        let edited := match apply_edit wall m request with Ok edited => Ok (Some edited) | Err e => Err (social_invalid e) end in
        match ChatEntry.recipient_id m with
        | None => edited
        | Some peer =>
            match Room.participants r !! peer with
            | None => Err (social_forbidden "Edit this saved conversation in Messages")
            | Some recipient =>
                if can_private_message actor recipient then edited else Err (social_unavailable "Private message unavailable")
            end
        end
  end.

Definition edit_viewers (r : room) (message : chat_entry) : list sender :=
  match ChatEntry.recipient_id message with
  | Some _ => match find_entry (ChatEntry.message_id message) (Room.social r) with
              | Some (_, h) => senders_where (visible h) r
              | None => []
              end
  | None => senders_where (fun p => negb (ignores p (ChatEntry.participant_id message))) r
  end.

Definition publish_edit (message : chat_entry) : handler failure (room * wire) unit :=
  (let! r := get in
   let viewers := edit_viewers r message in
   set_room (fun r => r <| Room.social ::= fun s => edit_message entry_bytes s message |>) ;;
   send (fun _ q => send_each viewers (ServerMessage.ChatMessageEdited message) q))%handler.

(** ** Pins *)

Definition pins_for (r : room) (viewer : participant) : list chat_entry :=
  filter (fun m => ignores viewer (ChatEntry.participant_id m) = false) (RoomSocial.pins (Room.social r)).

Definition publish_pins (r : room) (q : wire) : wire :=
  foldl (fun q viewer => (try_send_essential q (Participant.sender viewer)
                            (ServerMessage.PinnedMessagesChanged (pins_for r viewer))).1) q (members r).

(** ** What a member is shown *)

Definition info_of (p : participant) : participant_info := {|
  info_id := Participant.id p;
  info_name := Participant.name p;
  info_producers := (fun kv : producer_id * producer_record => ProducerMetadata kv.1 (producer_kind kv.2) (producer_source kv.2))
                      <$> map_to_list (Participant.producers p);
  info_role := Participant.role p;
  info_authenticated := Participant.authenticated p;
  info_chat_style := Participant.chat_style p
|}.

Definition room_snapshot (r : room) (actor : participant) : Protocol.room_snapshot := {|
  snapshot_participants := info_of <$> filter (fun p => Participant.id p <> Participant.id actor) (members r);
  snapshot_messages := HistoryEntry.message <$> filter (fun e => visible e actor = true) (RoomSocial.history (Room.social r));
  snapshot_lobby := if role_ge (Participant.role actor) Moderator
                    then (fun e => SnapshotLobbyEntry (LobbyEntry.participant_id e) (LobbyEntry.name e) (LobbyEntry.authenticated e))
                           <$> waiting r
                    else [];
  snapshot_your_role := Participant.role actor;
  snapshot_chat_session_id := ParticipantSocial.chat_session_id (Participant.social actor);
  snapshot_settings := Room.settings r;
  snapshot_nickname := Participant.name actor;
  snapshot_allow_private_messages := ParticipantSocial.allow_private_messages (Participant.social actor);
  snapshot_ignored_participant_ids := elements (ParticipantSocial.ignored (Participant.social actor));
  snapshot_paused_producer_ids :=
    concat ((fun p => fst <$> filter (fun kv : producer_id * producer_record => paused kv.2 = true) (map_to_list (Participant.producers p)))
            <$> members r);
  snapshot_text_muted := text_muted (Participant.punitive actor);
  snapshot_cam_banned := cam_banned (Participant.punitive actor);
  snapshot_can_chat := may_chat r actor;
  snapshot_local_producer_ids := keys (Participant.producers actor);
  snapshot_can_broadcast := participant_can_produce r actor Audio "microphone"
|}.
End events.
