(* ===== verification/ModerationOps.v ===== *)
(** * Moderation ([src/src/room/manager/moderation_ops.rs])

    Camera and text sanctions, kicks, bans, unbans, roles and voice requests,
    each committed through the room's control order: authorize under the room
    lock, save without it, publish under it again. *)

From stdpp Require Import pretty.
From S2P Require Import Prelude Refusal Net Roles Window Settings Protocol Moderation Wire Social Room Media Publication Process World.

Open Scope process_scope.

(** [ModerationAction::for_punitive]. *)
Definition for_punitive (kind : punitive_kind) (enabled : bool) : moderation_action :=
  match kind, enabled with
  | CamBanned, true => ActCamBan
  | CamBanned, false => ActCamUnban
  | Muted, true => ActTextMute
  | Muted, false => ActTextUnmute
  end.

(** [ModerationEvent::new]. *)
Definition event_new (event_id : N) (created_at : timestamp) (action : moderation_action)
  (actor_id : participant_id) (actor_name : text) (target_id : moderation_target_id) (target_name : text)
  (target_authenticated : bool) (target_ip : option ip_addr) (reason : option text)
  (expires_at : option timestamp) (report_id : option N) : moderation_event :=
  ModerationEvent event_id action actor_id actor_name target_id target_name target_authenticated
    reason expires_at report_id created_at
    (if target_authenticated then target_ip else cohort <$> target_ip).

(** [room.participants.get(target).ok_or_else(..)]. *)
Definition target_of (r : room) (id : participant_id) : result failure participant :=
  ok_or (Room.participants r !! id) (Message "Target participant not found").

Definition moderation_history_error (e : room_error) : failure :=
  match e with
  | Refused refused => social_refused refused
  | Database RowNotFound => Message "Report not found"
  | Database _ => Message "Moderation history could not be saved"
  end.

(** [db_pool.as_ref().ok_or_else(..)?]. *)
Definition require_database (mgr : manager) (m : string) : handled unit :=
  Return (if has_database mgr then Ok tt else Err (Message m)).

Section ops.
Context (mgr : manager).

(** ** Sanctions *)

(** The authorization section of [update_punitive_state_controlled]; [None]
    when the cohort is already as asked. *)
Definition authorize_punitive (moderator_id : participant_id) (expected : sender)
  (target_id : participant_id) (kind : punitive_kind) (enabled : bool) (reason : option text)
  (event_id : N) (w : world)
  : handler failure (room * wire) (option (participant * participant * list participant_id
                                           * list participant_id * moderation_event * bool)) :=
  (let! r := get in
   let! moderator := hlift (participant_for_sender r moderator_id expected) in
   let! target := hlift (target_of r target_id) in
   let! pids := hlift (moderation_cohort r target_id (Participant.role moderator)) in
   let! lids := hlift (guest_ip_lobby_cohort r (Participant.authenticated target) (Participant.ip target)
                         (Participant.role moderator)) in
   let key := for_identity target_id (Participant.authenticated target) (Participant.ip target) in
   if punitive_cohort_matches r pids lids key kind enabled then hret None
   else
     reserve_admin (clock w) ;;
     let event := event_new event_id (wall w) (for_punitive kind enabled) moderator_id
                    (Participant.name moderator) (TargetParticipant target_id) (Participant.name target)
                    (Participant.authenticated target) (Participant.ip target) reason None None in
     hret (Some (moderator, target, pids, lids, event, Room.persisted r)))%handler.

Definition observers (r : room) : option opaque * option opaque :=
  (Room.active_speaker_observer r, Room.audio_level_observer r).

(** The publication section. *)
Definition commit_punitive (target_id : participant_id) (target : participant)
  (pids lids : list participant_id) (kind : punitive_kind) (enabled : bool)
  (event : moderation_event) (persisted : bool) (_ : world)
  : handler failure (room * wire) (list revoked_producer * (option opaque * option opaque)) :=
  (let! r := get in
   ensure_live r ;;
   (if persisted then hret tt
    else set_room (fun r => r <| Room.social ::= fun s => record_moderation_event s event |>)) ;;
   let! revoked := publish (publish_sanction
     (SanctionPublication.mk target_id pids lids (Participant.authenticated target)
        (Participant.ip target) kind enabled)) in
   let! r := get in
   hret (revoked, observers r))%handler.

(** A registered moderator and an identity a saved sanction can name. *)
Definition sanction_authority (moderator_id : participant_id) (moderator : participant)
  (target_id : participant_id) (target : participant) : handled sanction_identity :=
  if negb (Participant.authenticated moderator)
  then Return (Err (Message "A registered moderator is required"))
  else Return (match sanction_identity_of target_id (Participant.authenticated target) (Participant.ip target) with
               | Ok i => Ok i
               | Err e => Err (OfRoomError e)
               end).

Definition update_punitive_state_controlled (room_id : string) (moderator_id : participant_id)
  (expected : sender) (target_id : participant_id) (kind : punitive_kind) (enabled : bool)
  (reason : option text) (control : N) : handled bool :=
  if is_some_and reason (fun value => negb (valid_reason value))
  then Return (Err (Message "Moderation reason must be at most 256 characters without control characters"))
  else
    let? a := get_room room_id in
    let* event_id := new_uuid in
    let? authorized := locked a (authorize_punitive moderator_id expected target_id kind enabled reason event_id) in
    match authorized with
    | None => Return (Ok false)
    | Some (moderator, target, pids, lids, event, persisted) =>
        let commit : handled bool :=
          let? done := locked a (commit_punitive target_id target pids lids kind enabled event persisted) in
          release_control control
            (let* _ := close_revoked_producers room_id done.1 done.2.1 done.2.2 in Return (Ok true)) in
        if persisted : bool then
          let? _ := require_database mgr "Moderation service is temporarily unavailable" in
          let? identity := sanction_authority moderator_id moderator target_id target in
          persisting room_id a (SavePunitive room_id identity kind enabled reason moderator_id event)
            (fun _ => Message "Moderation state could not be saved") (fun _ => commit)
        else commit
    end.

Definition update_punitive_state (room_id : string) (moderator_id : participant_id) (expected : sender)
  (target_id : participant_id) (kind : punitive_kind) (enabled : bool) (reason : option text)
  : handled bool :=
  run_room_control room_id
    (update_punitive_state_controlled room_id moderator_id expected target_id kind enabled reason).

Definition cam_ban room_id moderator_id expected target_id reason : handled unit :=
  let? _ := update_punitive_state room_id moderator_id expected target_id CamBanned true reason in Return (Ok tt).
Definition cam_unban room_id moderator_id expected target_id : handled unit :=
  let? _ := update_punitive_state room_id moderator_id expected target_id CamBanned false None in Return (Ok tt).
Definition text_mute room_id moderator_id expected target_id : handled unit :=
  let? _ := update_punitive_state room_id moderator_id expected target_id Muted true None in Return (Ok tt).
Definition text_unmute room_id moderator_id expected target_id : handled unit :=
  let? _ := update_punitive_state room_id moderator_id expected target_id Muted false None in Return (Ok tt).

(** ** Closing a camera *)

(** The video producers of the target; [[]] is a successful retry. *)
Definition authorize_close_cam (moderator_id : participant_id) (expected : sender)
  (target_id : participant_id) (w : world) : handler failure (room * wire) (list producer_id * N) :=
  (let! r := get in
   let! moderator := hlift (participant_for_sender r moderator_id expected) in
   let! target := hlift (target_of r target_id) in
   anyhow_ensure (can_moderate (Participant.role moderator) (Participant.role target))
     "Insufficient permissions to moderate this participant" ;;
   let producers := keys (filter (fun kv => producer_kind kv.2 = Video) (Participant.producers target)) in
   if bool_decide (producers = []) then hret ([], Participant.media_session_id target)
   else reserve_admin (clock w) ;; hret (producers, Participant.media_session_id target))%handler.

(** Tell everyone that producers are closed, after they are off the books. *)
Definition announce_closed (reason : string) (producers : list producer_id) (r : room) (q : wire) : wire :=
  foldl (fun q id => broadcast_all r (ServerMessage.ProducerClosed id)
                       (broadcast_all r (ServerMessage.ForceClosedProducer id reason) q)) q producers.

Definition commit_close_cam (target_id : participant_id) (session : N) (producers : list producer_id)
  (_ : world) : handler failure (room * wire) unit :=
  (let! r := get in
   ensure_live r ;;
   match Room.participants r !! target_id with
   | Some target =>
       if (Participant.media_session_id target =? session)%N then
         set_room (fun r => r
           <| Room.participants ::= <[target_id := target <| Participant.producers ::=
                fun m => foldl (fun m id => delete id m) m producers |>]> |>
           <| Room.producer_to_participant ::= fun m => foldl (fun m id => delete id m) m producers |>) ;;
         send (announce_closed "Closed by moderator" producers)
       else hret tt
   | None => hret tt
   end)%handler.

Definition close_cam (room_id : string) (moderator_id : participant_id) (expected : sender)
  (target_id : participant_id) : handled unit :=
  let? a := get_room room_id in
  let? found := holding (ControlLock a) (locked a (authorize_close_cam moderator_id expected target_id)) in
  let '(producers, session) := found in
  if bool_decide (producers = []) then Return (Ok tt)
  else
    let m := media_participant_id room_id target_id session in
    let* _ := for_each (fun id => let* _ := call_media (CloseProducer m id) in Return tt) producers in
    let? a := get_room room_id in
    locked a (commit_close_cam target_id session producers).

(** ** Kicks *)

Definition authorize_kick (moderator_id : participant_id) (expected : sender) (target_id : participant_id)
  (reason : option text) (report_id : option N) (event_id : N) (w : world)
  : handler failure (room * wire) (participant * moderation_event * bool) :=
  (let! r := get in
   let! moderator := hlift (participant_for_sender r moderator_id expected) in
   let! target := hlift (target_of r target_id) in
   anyhow_ensure (can_moderate (Participant.role moderator) (Participant.role target))
     "Insufficient permissions to kick this participant" ;;
   let event := event_new event_id (wall w) ActKick moderator_id (Participant.name moderator) (TargetParticipant target_id)
                  (Participant.name target) (Participant.authenticated target) (Participant.ip target)
                  reason None report_id in
   reserve_admin (clock w) ;;
   hret (target, event, Room.persisted r))%handler.

(** [link_report] for the report a decision answers, then the history entry. *)
Definition record_locally (wall : timestamp) (report_id : option N) (event : moderation_event)
  : handler failure (room * wire) unit :=
  ((match report_id with
    | Some id => fun s => let '(social, res) := link_report wall (pretty id) (Room.social s.1) in
                          ((s.1 <| Room.social := social |>, s.2), res)
    | None => hret tt
    end) ;;
   set_room (fun r => r <| Room.social ::= fun s => record_moderation_event s event |>))%handler.

Definition publish_kick (target_id : participant_id) (target : participant) (reason : option text) (w : world)
  : handler failure (room * wire) N :=
  (let! sessions := publish (publish_removal (next_uuid w) (clock w) (wall w)
     (RemovalPublication.mk false [target_id] [] (Participant.authenticated target) (Participant.ip target)
        (Participant.name target) reason None)) in
   match sessions with
   | s :: _ => hret (removed_media_session_id s)
   | [] => anyhow_bail "Target participant not found"
   end)%handler.

(** In a room without a database row the whole kick is one section.  A kick
    records no ban, so its identifier is not used. *)
Definition kick_section (moderator_id : participant_id) (expected : sender) (target_id : participant_id)
  (reason : option text) (report_id : option N) (event_id : N) (w : world)
  : handler failure (room * wire) (participant * moderation_event * option N) :=
  (let! found := authorize_kick moderator_id expected target_id reason report_id event_id w in
   let '(target, event, persisted) := found in
   if persisted : bool then hret (target, event, None)
   else
     record_locally (wall w) report_id event ;;
     let! session := publish_kick target_id target reason w in
     hret (target, event, Some session))%handler.

Definition commit_kick (target_id : participant_id) (target : participant) (reason : option text) (w : world)
  : handler failure (room * wire) N :=
  (let! r := get in
   ensure_live r ;;
   anyhow_ensure (bool_decide (is_Some (Room.participants r !! target_id))) "Target participant not found" ;;
   publish_kick target_id target reason w)%handler.

Definition kick_participant (room_id : string) (moderator_id : participant_id) (expected : sender)
  (target_id : participant_id) (reason : option text) (report_id : option N) : handled unit :=
  let? a := get_room room_id in
  let? session := holding (ControlLock a)
    (let* event_id := new_uuid in
     let? found := locked a (kick_section moderator_id expected target_id reason report_id event_id) in
     match found with
     | (_, _, Some session) => Return (Ok session)
     | (target, event, None) =>
         let? _ := require_database mgr "Moderation service is temporarily unavailable" in
         persisting room_id a (SaveEvent room_id event) moderation_history_error
           (fun _ => locked a (commit_kick target_id target reason))
     end) in
  let* _ := call_media (RemoveParticipant (media_participant_id room_id target_id session)) in
  Return (Ok tt).

(** ** Bans *)

Definition MAX_BAN_DURATION_SECS : N := 10 * 365 * 24 * 60 * 60.

Definition authorize_ban (moderator_id : participant_id) (expected : sender) (target_id : participant_id)
  (reason : option text) (duration : option N) (report_id : option N) (event_id : N) (w : world)
  : handler failure (room * wire)
      (participant * participant * list participant_id * list participant_id * moderation_event * bool) :=
  (let! r := get in
   let! moderator := hlift (participant_for_sender r moderator_id expected) in
   let! target := hlift (target_of r target_id) in
   let! pids := hlift (moderation_cohort r target_id (Participant.role moderator)) in
   let! lids := hlift (guest_ip_lobby_cohort r (Participant.authenticated target) (Participant.ip target)
                         (Participant.role moderator)) in
   (fun s => let '(social, res) := reserve_ban (clock w) (Room.social s.1) in
             ((s.1 <| Room.social := social |>, s.2), res)) ;;
   reserve_admin (clock w) ;;
   let event := event_new event_id (wall w) ActBan moderator_id (Participant.name moderator) (TargetParticipant target_id)
                  (Participant.name target) (Participant.authenticated target) (Participant.ip target)
                  reason ((fun secs => wall w + secs)%N <$> duration) report_id in
   hret (moderator, target, pids, lids, event, Room.persisted r))%handler.

Definition commit_ban (target : participant) (pids lids : list participant_id) (reason : option text)
  (duration : option N) (report_id : option N) (event : moderation_event) (persisted : bool) (ban_id : N)
  (w : world) : handler failure (room * wire) (list removed_session) :=
  (let! r := get in
   ensure_live r ;;
   (if persisted then hret tt else record_locally (wall w) report_id event) ;;
   publish (publish_removal ban_id (clock w) (wall w)
     (RemovalPublication.mk true pids lids (Participant.authenticated target) (Participant.ip target)
        (Participant.name target) reason duration)))%handler.

Definition ban_error (e : room_error) : failure :=
  match e with
  | Refused refused => social_refused refused
  | Database RowNotFound => Message "Report not found"
  | Database _ => Message "Ban could not be saved"
  end.

Definition ban_participant_controlled (room_id : string) (moderator_id : participant_id) (expected : sender)
  (target_id : participant_id) (reason : option text) (duration : option N) (report_id : option N)
  (control : N) : handled unit :=
  if is_some_and duration (fun secs => (secs =? 0)%N || (MAX_BAN_DURATION_SECS <? secs)%N)
  then Return (Err (Message "Ban duration must be between 1 second and 10 years"))
  else if is_some_and reason (fun value => negb (valid_reason value))
  then Return (Err (Message "Ban reason must be at most 256 characters without control characters"))
  else
    let? a := get_room room_id in
    let* event_id := new_uuid in
    let? '(moderator, target, pids, lids, event, persisted) :=
      locked a (authorize_ban moderator_id expected target_id reason duration report_id event_id) in
    let commit : handled unit :=
      let* ban_id := new_uuid in
      let? sessions := locked a (commit_ban target pids lids reason duration report_id event persisted ban_id) in
      release_control control
        (let* _ := for_each (fun s =>
           let* _ := call_media (RemoveParticipant
             (media_participant_id room_id (removed_participant_id s) (removed_media_session_id s))) in
           Return tt) sessions in
         Return (Ok tt)) in
    if persisted : bool then
      let? _ := require_database mgr "Ban service is temporarily unavailable" in
      let? identity := sanction_authority moderator_id moderator target_id target in
      persisting room_id a (SaveBan room_id identity (event_expires_at event) reason moderator_id event)
        ban_error (fun _ => commit)
    else commit.

Definition ban_participant (room_id : string) (moderator_id : participant_id) (expected : sender)
  (target_id : participant_id) (reason : option text) (duration : option N) (report_id : option N)
  : handled unit :=
  run_room_control room_id
    (ban_participant_controlled room_id moderator_id expected target_id reason duration report_id).

(** ** Unbans *)

Definition authorize_unban (moderator_id : participant_id) (expected : sender) (target_id : participant_id)
  (w : world) : handler failure (room * wire) (participant * bool) :=
  (let! r := get in
   ensure_live r ;;
   let! moderator := hlift (participant_for_sender r moderator_id expected) in
   anyhow_ensure (role_ge (Participant.role moderator) Admin)
     "Insufficient permissions to unban (requires Admin+)" ;;
   set_room (prune_expired_bans (clock w)) ;;
   let! r := get in
   anyhow_ensure (negb (bool_decide (target_id ∈ Room.banned_guest_participants r)))
     "Guest bans are identity/IP-scoped and cannot be removed by participant ID" ;;
   anyhow_ensure (bool_decide (is_Some (Room.banned_participants r !! target_id)) || Room.persisted r)
     "Participant is not banned" ;;
   reserve_admin (clock w) ;;
   hret (moderator, Room.persisted r))%handler.

Definition commit_unban (moderator_id : participant_id) (moderator_name : text) (target_id : participant_id)
  (persisted_removed : bool) (event_id : N) (w : world) : handler failure (room * wire) unit :=
  (let! r := get in
   ensure_live r ;;
   let in_memory := bool_decide (is_Some (Room.banned_participants r !! target_id)) in
   set_room (fun r => r <| Room.banned_participants ::= delete target_id |>) ;;
   anyhow_ensure (in_memory || persisted_removed) "Participant is not banned" ;;
   let '(social, banned_name) := forget_user_ban (Room.social r) target_id in
   set_room (fun r => r <| Room.social := social |>) ;;
   if Room.persisted r then hret tt
   else
     let event := event_new event_id (wall w) ActUnban moderator_id moderator_name (TargetParticipant target_id)
                    (default (text_of "Removed account") banned_name) true None None None None in
     set_room (fun r => r <| Room.social ::= fun s => record_moderation_event s event |>))%handler.

Definition unban_participant_controlled (room_id : string) (moderator_id : participant_id)
  (expected : sender) (target_id : participant_id) (control : N) : handled unit :=
  let? a := get_room room_id in
  let? '(moderator, persisted) := locked a (authorize_unban moderator_id expected target_id) in
  let commit persisted_removed : handled unit :=
    let* event_id := new_uuid in
    let? _ := locked a (commit_unban moderator_id (Participant.name moderator) target_id persisted_removed
                          event_id) in
    release_control control (Return (Ok tt)) in
  if persisted : bool then
    let? _ := require_database mgr "Ban service is temporarily unavailable" in
    persisting room_id a (RemoveUserBan room_id target_id moderator_id (Participant.name moderator))
      (fun _ => Message "Ban state could not be updated") commit
  else commit false.

Definition unban_participant (room_id : string) (moderator_id : participant_id) (expected : sender)
  (target_id : participant_id) : handled unit :=
  run_room_control room_id (unban_participant_controlled room_id moderator_id expected target_id).

(** ** Roles *)

(** [None] when the target already has the role. *)
Definition authorize_role (setter_id : participant_id) (expected : sender) (target_id : participant_id)
  (new_role : role) (w : world) : handler failure (room * wire) (option (participant * participant * bool)) :=
  (let! r := get in
   let! setter := hlift (participant_for_sender r setter_id expected) in
   let! target := hlift (target_of r target_id) in
   anyhow_ensure (can_set_role (Participant.role setter) (Participant.role target) new_role)
     "Insufficient permissions to set this role" ;;
   anyhow_ensure (negb (Participant.authenticated target && bool_decide (new_role = Guest)))
     "Registered participants must be assigned at least the user role" ;;
   if bool_decide (Participant.role target = new_role) then hret None
   else
     reserve_admin (clock w) ;;
     hret (Some (setter, target, Room.persisted r)))%handler.

Definition commit_role (setter_id target_id : participant_id) (new_role : role) (_ : world)
  : handler failure (room * wire) (list revoked_producer * (option opaque * option opaque)) :=
  (let! r := get in
   ensure_live r ;;
   let! revoked := publish (publish_role target_id new_role setter_id) in
   let! r := get in
   hret (revoked, observers r))%handler.

Definition set_participant_role_controlled (room_id : string) (setter_id : participant_id)
  (expected : sender) (target_id : participant_id) (new_role : role) (control : N) : handled unit :=
  let? a := get_room room_id in
  let? authorized := locked a (authorize_role setter_id expected target_id new_role) in
  match authorized with
  | None => Return (Ok tt)
  | Some (setter, target, persisted) =>
      let commit : handled unit :=
        let? done := locked a (commit_role setter_id target_id new_role) in
        release_control control
          (let* _ := close_revoked_producers room_id done.1 done.2.1 done.2.2 in Return (Ok tt)) in
      if persisted : bool then
        if negb (Participant.authenticated setter) || negb (Participant.authenticated target)
        then Return (Err (Message "Persistent roles require registered participants"))
        else
          let? _ := require_database mgr "Role service is temporarily unavailable" in
          persisting room_id a (SaveRole room_id target_id new_role setter_id)
            (fun _ => Message "Role could not be saved") (fun _ => commit)
      else commit
  end.

Definition set_participant_role (room_id : string) (setter_id : participant_id) (expected : sender)
  (target_id : participant_id) (new_role : role) : handled unit :=
  run_room_control room_id (set_participant_role_controlled room_id setter_id expected target_id new_role).

(** ** Voice *)

Definition request_voice (room_id : string) (participant_id : participant_id) (expected : sender)
  : handled unit :=
  let? a := get_room room_id in
  locked a (fun w =>
    (let! r := get in
     let! p := hlift (participant_for_sender r participant_id expected) in
     reserve_window Room.voice_requests (fun v r => r <| Room.voice_requests := v |>) (clock w)
       (Message "Room voice-request rate limit exceeded") ;;
     send (fun r => broadcast_to_role r Moderator
             (ServerMessage.VoiceRequested participant_id (Participant.name p))))%handler).
End ops.
