(* ===== verification/SettingsOps.v ===== *)
(** * Settings changes ([src/src/room/manager/settings_ops.rs])

    Authorization, validation, persistence as the commit point, then
    publication and the revocation of what the new settings forbid. *)

From stdpp Require Import pretty.
From S2P Require Import Prelude Refusal Roles Window Settings Protocol Moderation Wire Social Room Media Publication Process World ModerationOps.

Open Scope process_scope.

Definition ROOM_PASSWORD_HASH_COOLDOWN : duration := from_secs 30.

Definition validate_capacity (value : option (option Z)) (maximum : Z) : bool :=
  match value with Some (Some v) => z_in_range 1 maximum v | _ => true end.

Definition may_change_settings (admin_id : participant_id) (expected : sender) (r : room) (m : string)
  : result failure participant :=
  match participant_for_sender r admin_id expected with
  | Ok admin => if can_change_settings (Participant.role admin) then Ok admin else Err (Message m)
  | Err e => Err e
  end.

Definition needs_admin : string := "Insufficient permissions to change room settings (requires Admin+)".

Section ops.
Context (mgr : manager).

(** Reserve one expensive password change before hashing. *)
Definition reserve_password_change (admin_id : participant_id) (expected : sender) (w : world)
  : handler failure (room * wire) unit :=
  (let! r := get in
   let! _ := hlift (may_change_settings admin_id expected r needs_admin) in
   anyhow_ensure (negb (is_some_and (Room.last_password_hash_at r)
                          (fun previous => (duration_since (clock w) previous <? ROOM_PASSWORD_HASH_COOLDOWN)%N)))
     "Room password updates are rate limited" ;;
   reserve_admin (clock w) ;;
   set_room (fun r => r <| Room.last_password_hash_at := Some (clock w) |>))%handler.

(** Whether a patch changes the password a joiner needs. *)
Definition password_changes (patch : settings_patch) (r : room) (current : room_settings) : bool :=
  match SettingsPatch.password patch with
  | Some (Some _) => true
  | Some None => bool_decide (is_Some (Room.password_hash r)) || RoomSettings.password_protected current
  | None => false
  end.

(** The settings to be, and whether they are saved; [None] when nothing changes. *)
Definition authorize_settings (room_id : string) (admin_id : participant_id) (expected : sender)
  (patch : settings_patch) (reserved : bool) (w : world)
  : handler failure (room * wire) (option (room_settings * bool)) :=
  (let! r := get in
   let! _ := hlift (may_change_settings admin_id expected r needs_admin) in
   let current := default (defaults room_id) (Room.settings r) in
   let updated := apply_settings_update current patch in
   anyhow_ensure (negb (broadcasters_exceed (RoomSettings.max_broadcasters updated)
                          (RoomSettings.max_participants updated)))
     "Maximum broadcasters cannot exceed maximum participants" ;;
   if negb (password_changes patch r current) && bool_decide (updated = current) then hret None
   else
     (if reserved then hret tt else reserve_admin (clock w)) ;;
     hret (Some (updated, Room.persisted r)))%handler.

Definition commit_settings (updated : room_settings) (password_hash : option (option string)) (_ : world)
  : handler failure (room * wire) (list revoked_producer * (option opaque * option opaque)) :=
  (let! r := get in
   ensure_live r ;;
   (match password_hash with
    | Some hash => set_room (fun r => r <| Room.password_hash := hash |>)
    | None => hret tt
    end) ;;
   set_room (fun r => bump_policy (r <| Room.settings := Some updated |>)) ;;
   let! revoked := publish (revoke_unauthorized_producers None "Room policy no longer permits this producer") in
   let! r := get in
   send (fun r => broadcast_all r (ServerMessage.RoomSettingsChanged updated)) ;;
   hret (revoked, observers r))%handler.

Definition update_room_settings_controlled (room_id : string) (admin_id : participant_id) (expected : sender)
  (patch : settings_patch) (control : N) : handled unit :=
  let? a := get_room room_id in
  let? _ := locked a (fun _ => (let! r := get in hlift (may_change_settings admin_id expected r needs_admin))%handler) in
  if negb (validate_capacity (SettingsPatch.max_participants patch) MAX_PARTICIPANTS)
  then Return (Err (Message "max participants must be between 1 and 10000"))
  else if negb (validate_capacity (SettingsPatch.max_broadcasters patch) MAX_BROADCASTERS)
  then Return (Err (Message "max broadcasters must be between 1 and 1000"))
  else
    let? hashed :=
      match SettingsPatch.password patch with
      | Some (Some value) =>
          if negb (valid_new_room_password value)
          then Return (Err (Message "Room password must be 8-256 bytes without control characters"))
          else
            let? _ := locked a (reserve_password_change admin_id expected) in
            let* hash := ask (HashPassword value) in
            Return (match hash with
                    | Ok h => Ok (Some (Some h), true)
                    | Err e => Err (Message (password_hash_message e))
                    end)
      | Some None => Return (Ok (Some None, false))
      | None => Return (Ok (None, false))
      end in
    let '(password_hash, reserved) := hashed in
    let? authorized := locked a (authorize_settings room_id admin_id expected patch reserved) in
    match authorized with
    | None => Return (Ok tt)
    | Some (updated, persisted) =>
        let commit : handled unit :=
          let? done := locked a (commit_settings updated password_hash) in
          release_control control
            (let* _ := close_revoked_producers room_id done.1 done.2.1 done.2.2 in Return (Ok tt)) in
        if persisted : bool then
          let? _ := require_database mgr "Room settings are temporarily unavailable" in
          persisting room_id a (SaveSettings room_id patch password_hash)
            (fun _ => Message "Room settings could not be saved") (fun _ => commit)
        else commit
    end.

Definition update_room_settings (room_id : string) (admin_id : participant_id) (expected : sender)
  (patch : settings_patch) : handled unit :=
  run_room_control room_id (update_room_settings_controlled room_id admin_id expected patch).

(** ** The topic *)

Definition authorize_topic (admin_id : participant_id) (expected : sender) (topic : text) (w : world)
  : handler failure (room * wire) (option bool) :=
  (let! r := get in
   let! _ := hlift (may_change_settings admin_id expected r
                      "Insufficient permissions to change room topic (requires Admin+)") in
   if bool_decide ((s ← Room.settings r; RoomSettings.topic s) = Some topic) then hret None
   else reserve_admin (clock w) ;; hret (Some (Room.persisted r)))%handler.

Definition commit_topic (room_id : string) (admin_id : participant_id) (topic : text) (_ : world)
  : handler failure (room * wire) unit :=
  (let! r := get in
   ensure_live r ;;
   set_room (with_topic room_id topic) ;;
   send (fun r => broadcast_all r (ServerMessage.TopicChanged topic (text_of (pretty admin_id)))))%handler.

Definition set_topic_controlled (room_id : string) (admin_id : participant_id) (expected : sender)
  (topic : text) (control : N) : handled unit :=
  if (MAX_TOPIC_LEN <? text_len topic)%N || existsb is_control topic
  then Return (Err (Message "Room topic must be at most 512 characters without control characters"))
  else
    let? a := get_room room_id in
    let? authorized := locked a (authorize_topic admin_id expected topic) in
    match authorized with
    | None => Return (Ok tt)
    | Some persisted =>
        let commit : handled unit :=
          let? _ := locked a (commit_topic room_id admin_id topic) in
          release_control control (Return (Ok tt)) in
        if persisted : bool then
          let? _ := require_database mgr "Room topic is temporarily unavailable" in
          persisting room_id a (SaveTopic room_id topic)
            (fun _ => Message "Room topic could not be saved") (fun _ => commit)
        else commit
    end.

Definition set_topic (room_id : string) (admin_id : participant_id) (expected : sender) (topic : text)
  : handled unit := run_room_control room_id (set_topic_controlled room_id admin_id expected topic).
End ops.
