(* ===== verification/Lobby.v ===== *)
(** * The lobby ([src/src/room/manager/lobby.rs])

    Capacity, and admitting or denying someone who waits. *)

From S2P Require Import Prelude Refusal Roles Window Settings Protocol Moderation Wire Social Room Media Publication Process World.

Open Scope process_scope.

(** [usize::try_from(maximum)] fails for a negative stored limit. *)
Definition ensure_room_has_space (mgr : manager) (r : room) : result failure unit :=
  let count := N.of_nat (size (Room.participants r)) in
  let own :=
    match (s ← Room.settings r; RoomSettings.max_participants s) with
    | Some maximum =>
        if (maximum <? 0)%Z then Err (Message "Room capacity is unavailable")
        else if (maximum =? 0)%Z || (Z.to_N maximum <=? count)%N then Err (Message "Room is full")
        else Ok tt
    | None => Ok tt
    end in
  result_bind own (fun _ =>
    if is_some_and (max_participants_per_room mgr) (fun ceiling => (ceiling <=? count)%N)
    then Err (Message "Room is full") else Ok tt).

Definition producer_info (p : participant) : list producer_metadata :=
  (fun kv => ProducerMetadata kv.1 (producer_kind kv.2) (producer_source kv.2))
  <$> map_to_list (Participant.producers p).

Definition info_of (p : participant) : participant_info :=
  ParticipantInfo (Participant.id p) (Participant.name p) (producer_info p) (Participant.role p)
    (Participant.authenticated p) (Participant.chat_style p).

Definition joined_social (session : N) (r : room) (prefs : option chat_preferences) : participant_social :=
  let social := social_new session (RoomSocial.next_sequence (Room.social r)) in
  match prefs with Some prefs => apply_account_preferences social prefs | None => social end.

(** [membership_chat_preferences] ([privacy.rs]). *)
Definition membership_chat_preferences (mgr : manager) (authenticated : bool) (id : participant_id)
  : handled (option chat_preferences) :=
  if negb authenticated then Return (Ok None)
  else if negb (has_database mgr) then Return (Err (Message "Account privacy could not be verified"))
  else
    let* loaded := ask (LoadPreferences id) in
    Return (match loaded with
            | Some (Ok prefs) => Ok (Some prefs)
            | _ => Err (Message "Account privacy could not be verified")
            end).

Section ops.
Context (mgr : manager).

(** The checks of [admit_authorized_lobby]: whether the target is registered. *)
Definition check_admission (target_id : participant_id) (w : world)
  : handler failure (room * wire) bool :=
  (let! r := get in
   ensure_live r ;;
   let! entry := hlift (ok_or (Room.lobby r !! target_id) (Message "Participant not found in lobby")) in
   hlift (ensure_room_has_space mgr r) ;;
   set_room (prune_expired_bans (clock w)) ;;
   let! r := get in
   anyhow_ensure (negb (identity_is_banned r target_id (LobbyEntry.authenticated entry) (LobbyEntry.ip entry)))
     "Participant is banned from this room" ;;
   (fun s => ((if is_closed s.2 (LobbyEntry.sender entry)
               then anyhow_bail "Participant has already disconnected" else hret tt) s)) ;;
   reserve_admin (clock w) ;;
   hret (LobbyEntry.authenticated entry))%handler.

Definition admitted (session : N) (r : room) (e : lobby_entry) (prefs : option chat_preferences) : participant :=
  let '(admitted_role, admitted_punitive) := lobby_admission_state r e in
  Participant.mk (joined_social session r prefs) (LobbyEntry.participant_id e) (LobbyEntry.name e)
    (LobbyEntry.sender e) (LobbyEntry.media_session_id e) ∅ admitted_role admitted_punitive
    (LobbyEntry.authenticated e) (LobbyEntry.ip e) (LobbyEntry.chat_style e).

(** The admission itself. *)
Definition commit_admission (authorize : world -> result failure unit) (target_id : participant_id)
  (prefs : option chat_preferences) (session token : N) (w : world)
  : handler failure (room * wire) lobby_entry :=
  (let! r := get in
   hlift (authorize w) ;;
   anyhow_ensure (negb (draining w)) "Server shutting down" ;;
   ensure_live r ;;
   (fun s => ((if match Room.lobby r !! target_id with
                  | Some e => is_closed s.2 (LobbyEntry.sender e)
                  | None => true
                  end
               then anyhow_bail "Participant has already disconnected" else hret tt) s)) ;;
   let! entry := hlift (ok_or (Room.lobby r !! target_id) (Message "Participant not found in lobby")) in
   set_room (fun r => r <| Room.lobby ::= delete target_id |>) ;;
   let! r := get in
   let participants := info_of <$> members r in
   let p := admitted session r entry prefs in
   set_room (fun r => r <| Room.participants ::= <[LobbyEntry.participant_id entry := p]> |>) ;;
   let sender := LobbyEntry.sender entry in
   send (fun _ q => (try_send_essential q sender ServerMessage.LobbyAdmitted).1) ;;
   let reconnect_token := if (LobbyEntry.reconnect_token entry =? 0)%N then token
                          else LobbyEntry.reconnect_token entry in
   send (fun r q => (try_send_essential q sender
     (ServerMessage.RoomJoined (LobbyEntry.participant_id entry) participants reconnect_token
        (Participant.role p) (LobbyEntry.name entry) (LobbyEntry.chat_style entry) (Room.settings r))).1) ;;
   send (fun r => broadcast_except r (LobbyEntry.participant_id entry)
     (ServerMessage.ParticipantJoined (LobbyEntry.participant_id entry) (LobbyEntry.name entry)
        (Participant.role p) (LobbyEntry.authenticated entry) (LobbyEntry.chat_style entry))) ;;
   send notify_lobby_status ;;
   hret entry)%handler.

(** The section also clears the connection's lobby flag, before the client
    hears of the admission. *)
Definition admission_section (a : N) (authorize : world -> result failure unit) (target_id : participant_id)
  (prefs : option chat_preferences) (session token : N) (w : world) : world * result failure lobby_entry :=
  let '(w, res) := locked_section a (commit_admission authorize target_id prefs session token) w in
  match res with
  | Ok entry => (w <| lobby_flags ::= <[LobbyEntry.in_lobby_flag entry := false]> |>, Ok entry)
  | Err e => (w, Err e)
  end.

Definition admit_authorized_lobby (room_id : string) (target_id : participant_id) (control : N)
  (authorize : world -> result failure unit) : handled unit :=
  let? a := get_room room_id in
  let? authenticated := locked a (check_admission target_id) in
  let? prefs := membership_chat_preferences mgr authenticated target_id in
  let* session := new_uuid in
  let* token := new_uuid in
  let? _ := atomically (admission_section a authorize target_id prefs session token) in
  release_control control (Return (Ok tt)).

(** The moderator's own check, then the given decision under the same control. *)
Definition lobby_decision (room_id : string) (moderator_id : participant_id) (expected : sender)
  (refusal : string) (decide : N -> handled unit) : handled unit :=
  let? a := get_room room_id in
  holding (ControlLock a)
    (let? _ := locked a (fun _ =>
       (let! r := get in
        let! moderator := hlift (participant_for_sender r moderator_id expected) in
        anyhow_ensure (can_admit_lobby (Participant.role moderator)) refusal)%handler) in
     decide a).

Definition admit_from_lobby (room_id : string) (moderator_id : participant_id) (expected : sender)
  (target_id : participant_id) : handled unit :=
  lobby_decision room_id moderator_id expected "Insufficient permissions to admit from lobby"
    (fun a => admit_authorized_lobby room_id target_id a (fun _ => Ok tt)).

Definition commit_denial (authorize : world -> result failure unit) (target_id : participant_id)
  (reason : option text) (w : world) : handler failure (room * wire) unit :=
  (let! r := get in
   ensure_live r ;;
   hlift (authorize w) ;;
   let! entry := hlift (ok_or (Room.lobby r !! target_id) (Message "Participant not found in lobby")) in
   reserve_admin (clock w) ;;
   set_room (fun r => r <| Room.lobby ::= delete target_id |>) ;;
   send (fun _ q => (try_send_essential q (LobbyEntry.sender entry) (ServerMessage.LobbyDenied reason)).1))%handler.

Definition deny_authorized_lobby (room_id : string) (target_id : participant_id) (reason : option text)
  (authorize : world -> result failure unit) : handled unit :=
  let? a := get_room room_id in locked a (commit_denial authorize target_id reason).

Definition deny_from_lobby (room_id : string) (moderator_id : participant_id) (expected : sender)
  (target_id : participant_id) (reason : option text) : handled unit :=
  lobby_decision room_id moderator_id expected "Insufficient permissions to deny from lobby"
    (fun _ => deny_authorized_lobby room_id target_id reason (fun _ => Ok tt)).
End ops.
