(* ===== verification/Membership.v ===== *)
(** * Joining and leaving ([src/src/room/manager/membership.rs],
      [FailedJoinCleanup] of [src/src/room/mod.rs])

    Admission reservations, the dormant-room precheck, room creation, the
    join commit, departures and the eviction of empty rooms, and the rebinding
    of a reconnecting socket. *)

From S2P Require Import Prelude Refusal Net Roles Window RateTable Labels Settings Protocol Moderation Wire Social Room Media Publication Process World Lobby.

Open Scope process_scope.

Inductive join_result :=
| Joined (participants : list participant_info) (joined_role : role) (settings : option room_settings)
    (style : chat_style) (name : text)
| Lobbied.

(** ** Eviction *)

(** Tombstone and unmap a room that may go, reserving its identifier; the
    reservation's token.  Creation and control are held, so the second look at
    the map before the removal finds what the first one found. *)
Definition evict_section (room_id : string) (a : N) (r : room) (should_remove : bool) (w : world)
  : world * option N :=
  if should_remove then
    let token := next_uuid w in
    (w <| heap ::= <[a := bump_policy (r <| Room.deleting := true |>)]> |>
       <| deleting_rooms ::= <[room_id := token]> |>
       <| next_uuid ::= N.succ |>
       <| rooms ::= delete room_id |>, Some token)
  else (w <| heap ::= <[a := r]> |>, None).

Definition teardown_evicted (room_id : string) (token : option N) : process unit :=
  match token with
  | None => Return tt
  | Some token =>
      let* removed := remove_router room_id in
      atomically (fun w => (release_deletion_reservation_after_router_teardown room_id token removed w, tt))
  end.

(** [release_failed_join]: the cleanup a dropped [PendingRoomJoin] schedules. *)
Definition release_failed_join (room_id : string) (a : N) : process unit :=
  let* token := holding CreationLock (holding (ControlLock a) (atomically (fun w =>
    let '(r, empty) := release_join_reservation (room_at w a) in
    evict_section room_id a r (empty && bool_decide (rooms w !! room_id = Some a)) w))) in
  teardown_evicted room_id token.

(** A join owns its reservation until it commits. *)
Definition with_reservation {A} (room_id : string) (a : N) (p : handled A) : handled A :=
  let* res := p in
  match res with
  | Ok x => Return (Ok x)
  | Err e => Spawn (release_failed_join room_id a) (Return (Err e))
  end.

Section ops.
Context (mgr : manager) `{Unicode}.

(** ** Reservations and creation *)

Definition reserve_existing_room_join (a : N) : handled N :=
  let* elapsed := ask Elapsed in
  if elapsed : bool then Return (Err (Message "Room is busy; try again"))
  else
    locked a (fun w =>
      (anyhow_ensure (negb (draining w)) "Server shutting down" ;;
       let! r := get in
       ensure_live r ;;
       anyhow_ensure (Room.pending_joins r <? USIZE_MAX)%N "Room join capacity has been reached" ;;
       set_room (fun r => r <| Room.pending_joins ::= N.succ |>) ;;
       hret a)%handler).

Definition refuse_if (m : string) (test : world -> bool) : handled unit :=
  atomically (fun w => (w, if test w then Err (Message m) else Ok tt)).

Definition is_deleting (room_id : string) (w : world) : bool :=
  bool_decide (is_Some (deleting_rooms w !! room_id)).

(** The mapped room, or [None] when there is space to create it. *)
Definition existing_room (room_id : string) : handled (option N) :=
  atomically (fun w =>
    (w, match rooms w !! room_id with
        | Some a => Ok (Some a)
        | None => if (max_rooms mgr <=? N.of_nat (size (rooms w)))%N
                  then Err (Message "Room capacity has been reached") else Ok None
        end)).

Definition load_room_bounded (room_id : string) : handled (option (room_settings * option string)) :=
  let* loaded := ask (LoadRoom room_id) in
  Return (match loaded with
          | Some (Ok row) => Ok row
          | _ => Err (Message "Room data is temporarily unavailable")
          end).

(** Publish the initialized room unless draining has begun. *)
Definition insert_room_section (room_id : string) (settings : option room_settings)
  (password_hash : option string) (active audio : option opaque) (w : world) : world * option N :=
  let created := (new_with_observers room_id settings (bool_decide (is_Some settings)) password_hash active audio)
                   <| Room.broadcaster_ceiling := max_broadcasters_per_room mgr |> in
  if draining w then (w, None)
  else (w <| heap ::= <[next_address w := created]> |> <| rooms ::= <[room_id := next_address w]> |>
          <| next_address ::= N.succ |>, Some (next_address w)).

Definition create_room_locked (room_id : string) : handled N :=
  let? loaded := if has_database mgr then load_room_bounded room_id else Return (Ok None) in
  let settings := fst <$> loaded in
  let password_hash := loaded ≫= snd in
  if negb (bool_decide (is_Some settings)) && negb (allow_ad_hoc_rooms mgr)
  then Return (Err (Message "Ad-hoc room creation is disabled"))
  else
    let* media := ask (CreateRouter room_id) in
    match media with
    | Some (Ok (active, audio)) =>
        let* created := atomically (insert_room_section room_id settings password_hash active audio) in
        match created with
        | Some a => Return (Ok a)
        | None => let* _ := remove_router room_id in Return (Err (Message "Server shutting down"))
        end
    | Some (Err e) => let* _ := remove_router room_id in Return (Err (Message e))
    | None => let* _ := remove_router room_id in
              Return (Err (Message "Room media service is temporarily unavailable"))
    end.

Definition get_or_create_room (room_id : string) : handled N :=
  let? _ := refuse_if "Server shutting down" draining in
  let? _ := refuse_if "Room is being deleted" (is_deleting room_id) in
  let? existing := existing_room room_id in
  match existing with
  | Some a => reserve_existing_room_join a
  | None =>
      lock_within CreationLock (Message "Room creation is busy; try again")
        (let? _ := refuse_if "Server shutting down" draining in
         let? _ := refuse_if "Room is being deleted" (is_deleting room_id) in
         let? _ := refuse_if "Room settings are being updated; try again"
                     (fun w => bool_decide (room_id ∈ identity_updates w)) in
         let? existing := existing_room room_id in
         match existing with
         | Some a => Release CreationLock (reserve_existing_room_join a)
         | None => create_room_locked room_id
         end)
  end.

(** ** Passwords and the dormant room *)

Definition verify_room_password (supplied : text) (hash : string) : handled unit :=
  let* outcome := ask (VerifyPassword supplied hash) in
  Return (match outcome with
          | QueueTimedOut => Err (Message "Password verification is busy; try again")
          | QueueClosed => Err (Message "Password verification is unavailable")
          | VerifierFailed => Err (Message "Password verification failed")
          | Verified true => Ok tt
          | Verified false => Err (Message "Incorrect room password")
          end).

(** A saved ban ends the join; a failed lookup too. *)
Definition refuse_banned (room_id : string) (user : option participant_id) (ip : option ip_addr)
  (authenticated : bool) : handled unit :=
  let* banned := ask (IsBanned room_id user ip authenticated) in
  Return (match banned with
          | Ok true => Err (Message "You are banned from this room")
          | Ok false => Ok tt
          | Err _ => Err (Message "Room access could not be verified")
          end).

Definition resolve_saved_role (room_id : string) (user : option participant_id) (owner : participant_id)
  (authenticated : bool) : handled role :=
  let* resolved := ask (ResolveRole room_id user owner authenticated) in
  Return (match resolved with Ok r => Ok r | Err _ => Err (Message "Room access could not be verified") end).

Definition dormant_room_precheck (room_id : string) (user : option participant_id) (ip : option ip_addr)
  (authenticated : bool) (password : option text) : handled (option string) :=
  if negb (has_database mgr) then Return (Ok None)
  else
    let* live := atomically (fun w => (w, bool_decide (is_Some (rooms w !! room_id)))) in
    if live : bool then Return (Ok None)
    else
      let? loaded := load_room_bounded room_id in
      match loaded with
      | None => Return (Ok None)
      | Some (settings, password_hash) =>
          let? _ := refuse_banned room_id user ip authenticated in
          if RoomSettings.require_registration settings && negb authenticated
          then Return (Err (Message "This room requires registration"))
          else if negb (RoomSettings.guests_allowed settings) && negb authenticated
          then Return (Err (Message "Guests are not allowed in this room"))
          else if negb (RoomSettings.password_protected settings) then Return (Ok None)
          else
            let? role := resolve_saved_role room_id user (RoomSettings.owner_id settings) authenticated in
            if role_ge role Admin then Return (Ok None)
            else
              match password_hash, password with
              | None, _ => Return (Err (Message "Room password is unavailable"))
              | Some _, None => Return (Err PasswordRequired)
              | Some hash, Some supplied =>
                  let? _ := verify_room_password supplied hash in Return (Ok (Some hash))
              end
      end.

(** ** Departures *)

Record departure := Departure {
  removed_any : bool; room_empty : bool; departed_session : option N;
  audio_producers : list producer_id; departed_observers : option opaque * option opaque }.
#[export] Instance eta_departure : Eta departure := fun d =>
  Departure (removed_any d) (room_empty d) (departed_session d) (audio_producers d) (departed_observers d).

Definition is_empty_room (r : room) : bool :=
  bool_decide (Room.participants r = ∅) && bool_decide (Room.lobby r = ∅).

(** Whether [expected] is the socket of the membership or lobby entry. *)
Definition owns_membership (r : room) (id : participant_id) (expected : sender) : bool :=
  is_some_and (Room.participants r !! id) (fun p => (Participant.sender p =? expected)%N)
  || is_some_and (Room.lobby r !! id) (fun e => (LobbyEntry.sender e =? expected)%N).

(** [None] when a different socket owns the membership. *)
Definition departure_section (id : participant_id) (expected : option sender) (_ : world)
  : handler failure (room * wire) (option departure) :=
  (let! r := get in
   if is_some_and expected (fun expected => negb (owns_membership r id expected)) then hret None
   else
     let d := Departure false false None [] (None, None) in
     let! d :=
       match Room.lobby r !! id with
       | Some _ =>
           set_room (fun r => r <| Room.lobby ::= delete id |>) ;;
           let! r := get in
           hret (d <| removed_any := true |> <| room_empty := is_empty_room r |>)
       | None => hret d
       end in
     let! r := get in
     match Room.participants r !! id with
     | Some p =>
         set_room (fun r => r <| Room.participants ::= delete id |>
                              <| Room.producer_to_participant ::= unindex p |>) ;;
         send (fun r => broadcast_participant_left r id) ;;
         send notify_lobby_status ;;
         let! r := get in
         hret (Some (Departure true (is_empty_room r) (Some (Participant.media_session_id p))
                       (keys (filter (fun kv => producer_kind kv.2 = Audio) (Participant.producers p)))
                       (Room.active_speaker_observer r, Room.audio_level_observer r)))
     | None => hret (Some d)
     end)%handler.

(** The final check of [remove_participant_inner], with creation and control held. *)
Definition evict_empty_room (room_id : string) (a : N) : process (option N) :=
  let* elapsed := ask Elapsed in
  if elapsed : bool then Return None
  else atomically (fun w =>
    let r := room_at w a in
    evict_section room_id a r
      (bool_decide (rooms w !! room_id = Some a) && negb (Room.deleting r)
       && (Room.pending_joins r =? 0)%N && is_empty_room r) w).

Definition remove_participant_inner (room_id : string) (id : participant_id) (expected : option sender)
  : handled bool :=
  let* found := atomically (fun w => (w, rooms w !! room_id)) in
  match found with
  | None => Return (Ok false)
  | Some a =>
      let? departed := holding (ControlLock a) (locked a (departure_section id expected)) in
      match departed with
      | None => Return (Ok false)
      | Some d =>
          let* _ := for_each (fun producer =>
            let* _ := remove_from_observer (departed_observers d).1 producer in
            remove_from_observer (departed_observers d).2 producer) (audio_producers d) in
          let* _ := match departed_session d with
                    | Some session =>
                        let* _ := call_media (RemoveParticipant (media_participant_id room_id id session)) in
                        Return tt
                    | None => Return tt
                    end in
          if room_empty d then
            let* elapsed := ask Elapsed in
            if elapsed : bool then Return (Ok (removed_any d))
            else
              let* token := holding CreationLock (holding (ControlLock a) (evict_empty_room room_id a)) in
              let* _ := teardown_evicted room_id token in
              Return (Ok (removed_any d))
          else Return (Ok (removed_any d))
      end
  end.

Definition remove_participant_for_sender (room_id : string) (id : participant_id) (expected : sender)
  : handled bool := remove_participant_inner room_id id (Some expected).

(** ** Joining *)

(** What a joiner reads before its lookups. *)
Record join_policy := JoinPolicy {
  seen_lobby_enabled : bool; seen_invite_only : bool; seen_owner : option participant_id;
  seen_password_protected : bool; seen_password_hash : option string; seen_persisted : bool;
  seen_revision : N }.

Definition read_policy (r : room) : join_policy :=
  JoinPolicy (is_some_and (Room.settings r) RoomSettings.lobby_enabled)
    (is_some_and (Room.settings r) RoomSettings.invite_only)
    (RoomSettings.owner_id <$> Room.settings r)
    (is_some_and (Room.settings r) RoomSettings.password_protected)
    (Room.password_hash r) (Room.persisted r) (Room.policy_revision r).

(** The joiner as the handler knows it. *)
Record joiner := Joiner {
  join_id : participant_id; join_name : text; join_sender : sender; join_authenticated : bool;
  join_flag : N; join_token : opaque; join_ip : option ip_addr; join_style : chat_style;
  join_session : N; join_chat_session : N }.

(** Everyone below the lobby's and the invitation's roles waits. *)
Definition must_wait (policy : join_policy) (is_first : bool) (r : role) : bool :=
  (seen_invite_only policy && negb (role_ge r Member))
  || (seen_lobby_enabled policy && negb is_first && negb (role_ge r Moderator)).

Definition enter_lobby (j : joiner) (name : text) (r : role) (punitive : punitive_state)
  : handler failure (room * wire) join_result :=
  (let id := join_id j in
   send (fun room q =>
     let '(participant_count, moderator_count) := lobby_counts room q in
     let room_name := match Room.settings room with
                      | Some s => RoomSettings.display_name s
                      | None => text_of (Room.id room)
                      end in
     (try_send_essential q (join_sender j)
        (ServerMessage.LobbyWaiting room_name (s ← Room.settings room; RoomSettings.topic s)
           participant_count moderator_count)).1) ;;
   send (fun room => broadcast_to_role room Moderator
           (ServerMessage.LobbyJoin id name (join_authenticated j))) ;;
   set_room (fun room => room <| Room.lobby ::=
     <[id := LobbyEntry.mk id name (join_sender j) (join_style j) (join_session j) (join_authenticated j)
               (join_token j) (join_flag j) (join_ip j) r punitive]> |>) ;;
   set_room complete_locked ;;
   hret Lobbied)%handler.

Definition enter_room (j : joiner) (name : text) (r : role) (punitive : punitive_state)
  (prefs : option chat_preferences) : handler failure (room * wire) join_result :=
  (let id := join_id j in
   set_room (fun room => room <| Room.participants ::=
     <[id := Participant.mk (joined_social (join_chat_session j) room prefs) id name (join_sender j)
               (join_session j) ∅ r punitive (join_authenticated j) (join_ip j) (join_style j)]> |>) ;;
   send notify_lobby_status ;;
   set_room complete_locked ;;
   send (fun room => broadcast_except room id
           (ServerMessage.ParticipantJoined id name r (join_authenticated j) (join_style j))) ;;
   let! room := get in
   let participants := info_of <$> filter (fun p => Participant.id p <> id) (members room) in
   hret (Joined participants r (Room.settings room) (join_style j) name))%handler.

(** Sanctions of the identity only merge in the restrictive direction. *)
Definition merged_punitive (j : joiner) (persisted_punitive : punitive_state) (r : room)
  : sanction_key * punitive_state :=
  let key := for_identity (join_id j) (join_authenticated j) (join_ip j) in
  (key, merge_punitive_state persisted_punitive (Room.sanctions r !! key)).

(** The membership commit. *)
Definition commit_join (j : joiner) (policy : join_policy) (resolved : option role)
  (persisted_punitive : punitive_state) (prefs : option chat_preferences) (w : world)
  : handler failure (room * wire) join_result :=
  (anyhow_ensure (negb (draining w)) "Server shutting down" ;;
   let! r := get in
   anyhow_ensure (policy_snapshot_matches r (seen_revision policy))
     "Room policy changed while joining; retry" ;;
   set_room (prune_expired_bans (clock w)) ;;
   let! r := get in
   anyhow_ensure (negb (identity_is_banned r (join_id j) (join_authenticated j) (join_ip j)))
     "You are banned from this room" ;;
   anyhow_ensure (negb (bool_decide (is_Some (Room.participants r !! join_id j)))
                  && negb (bool_decide (is_Some (Room.lobby r !! join_id j))))
     "This participant already has an active room session" ;;
   anyhow_ensure (negb (is_some_and (Room.settings r) RoomSettings.require_registration
                        && negb (join_authenticated j))) "This room requires registration" ;;
   anyhow_ensure (negb (is_some_and (Room.settings r) (fun s => negb (RoomSettings.guests_allowed s))
                        && negb (join_authenticated j))) "Guests are not allowed in this room" ;;
   hlift (ensure_room_has_space mgr r) ;;
   anyhow_ensure (size (Room.lobby r) <? N.to_nat 1000)%nat "Room lobby is full" ;;
   let name := default (join_name j) (unique_participant_name r (join_name j)) in
   let is_first := is_empty_room r in
   let! role := hlift (ok_or (select_join_role (seen_persisted policy) is_first resolved (join_authenticated j))
                         (Message "Room access could not be verified")) in
   let '(key, punitive) := merged_punitive j persisted_punitive r in
   (if bool_decide (punitive = no_sanction) then hret tt
    else set_room (fun r => r <| Room.sanctions ::= <[key := punitive]> |>)) ;;
   if must_wait policy is_first role then enter_lobby j name role punitive
   else enter_room j name role punitive prefs)%handler.

(** One attempt against both tables; the second is not charged when the first
    refuses. *)
Definition charge_join (room_id : string) (address : ip_addr) (w : world) : world * bool :=
  let '(by_ip, granted) := allow (join_attempts_per_ip_per_minute mgr) (join_attempts_by_ip w) address (clock w) in
  let w := w <| join_attempts_by_ip := by_ip |> in
  if granted : bool then
    let '(by_room, granted) := allow (join_attempts_per_room_ip_per_minute mgr) (join_attempts_by_room_ip w)
                                 (room_id, address) (clock w) in
    (w <| join_attempts_by_room_ip := by_room |>, granted)
  else (w, false).

Definition limit_joins (room_id : string) (ip : option ip_addr) : handled unit :=
  match ip with
  | None => Return (Ok tt)
  | Some address =>
      let* granted := atomically (charge_join room_id (cohort address)) in
      Return (if granted : bool then Ok tt else Err (Message "Room join attempts are rate limited"))
  end.

Definition refuse_saturated (room_id : string) : handled unit :=
  let* saturated := ask Saturated in
  if saturated : bool
  then Return (Err (Message "The server is at capacity right now; please try again in a moment"))
  else
    let* worker := ask (WorkerSaturated room_id) in
    Return (if worker : bool
            then Err (Message "This room's media worker is at capacity right now; please try again in a moment")
            else Ok tt).

(** A retained membership whose socket has closed gives way to its identity. *)
Definition replace_stale_membership (room_id : string) (a : N) (id : participant_id) : handled unit :=
  let* stale := atomically (fun w =>
    (w, match Room.participants (room_at w a) !! id with
        | Some p => if is_closed (the_wire w) (Participant.sender p) then Some (Participant.sender p) else None
        | None => None
        end)) in
  match stale with
  | Some sender => let? _ := remove_participant_for_sender room_id id sender in Return (Ok tt)
  | None => Return (Ok tt)
  end.

(** An account's saved look replaces what the client sent; the lookup never
    fails a join. *)
Definition joiner_style (user : option participant_id) (requested : option chat_style) : process chat_style :=
  let requested := default default_style (requested ≫= validated) in
  match user with
  | Some user =>
      if has_database mgr then
        let* loaded := ask (LoadChatStyle user) in
        Return (match loaded with Some (Ok saved) => default default_style saved | _ => requested end)
      else Return requested
  | None => Return requested
  end.

(** The saved role and sanctions of a persisted room; [None] and no sanction
    otherwise. *)
Definition saved_standing (room_id : string) (policy : join_policy) (user : option participant_id)
  (ip : option ip_addr) (authenticated : bool) : handled (option role) :=
  if negb (seen_persisted policy) then Return (Ok None)
  else if negb (has_database mgr) then Return (Err (Message "Room access could not be verified"))
  else
    let? _ := refuse_banned room_id user ip authenticated in
    match seen_owner policy with
    | None => Return (Err (Message "Room access could not be verified"))
    | Some owner => let? r := resolve_saved_role room_id user owner authenticated in Return (Ok (Some r))
    end.

Definition saved_punitive (room_id : string) (policy : join_policy) (user : option participant_id)
  (ip : option ip_addr) (authenticated : bool) : handled punitive_state :=
  if negb (seen_persisted policy) then Return (Ok no_sanction)
  else if negb (has_database mgr) then Return (Err (Message "Room access could not be verified"))
  else
    let* loaded := ask (LoadPunitive room_id user ip authenticated) in
    Return (match loaded with Ok p => Ok p | Err _ => Err (Message "Room access could not be verified") end).

(** Everyone below Admin presents the password, unless it was just proved
    against this very hash. *)
Definition password_gate (policy : join_policy) (resolved : option role) (prechecked : option string)
  (password : option text) : handled unit :=
  if seen_password_protected policy && negb (is_some_and resolved (fun r => role_ge r Admin)) then
    match seen_password_hash policy with
    | None => Return (Err (Message "Room password is unavailable"))
    | Some hash =>
        if bool_decide (prechecked = Some hash) then Return (Ok tt)
        else match password with
             | None => Return (Err PasswordRequired)
             | Some supplied => verify_room_password supplied hash
             end
    end
  else Return (Ok tt).

Definition add_participant (room_id : string) (id : participant_id) (name : text) (sender : sender)
  (authenticated : bool) (flag : N) (password : option text) (token : opaque) (client_ip : option ip_addr)
  (style : option chat_style) : handled join_result :=
  let ip := if authenticated then client_ip else cohort <$> client_ip in
  let user := if authenticated then Some id else None in
  let? _ := limit_joins room_id ip in
  let? _ := refuse_saturated room_id in
  let? prechecked := dormant_room_precheck room_id user ip authenticated password in
  let? a := get_or_create_room room_id in
  with_reservation room_id a
    (let? _ := replace_stale_membership room_id a id in
     let? policy := lock_within (ControlLock a) (Message "Room control is busy; try again")
       (atomically (fun w => (w, Ok (read_policy (room_at w a))))) in
     let? resolved := saved_standing room_id policy user ip authenticated in
     let* style := joiner_style user style in
     let? punitive := saved_punitive room_id policy user ip authenticated in
     let? _ := password_gate policy resolved prechecked password in
     let* session := new_uuid in
     let* chat_session := new_uuid in
     lock_within (ControlLock a) (Message "Room control is busy; try again")
       (let? prefs := membership_chat_preferences mgr authenticated id in
        locked a (commit_join
          (Joiner id name sender authenticated flag token ip style session chat_session)
          policy resolved punitive prefs))).

(** ** Reconnection *)

Definition mark_participant_disconnected (room_id : string) (id : participant_id) (expected : sender)
  : handled unit :=
  let* draining := atomically (fun w => (w, draining w)) in
  if draining : bool then Return (Ok tt)
  else
    let? a := get_room room_id in
    let* elapsed := ask Elapsed in
    if elapsed : bool then Return (Ok tt)
    else locked a (fun _ => publish (fun r q => (mark_disconnected id expected r q, tt))).

(** [authenticated_subject] is the account of the socket's token. *)
Definition rebind_section (id : participant_id) (subject : option participant_id) (expected fresh : sender)
  (w : world) : handler failure (room * wire) bool :=
  (anyhow_ensure (negb (draining w)) "Server shutting down" ;;
   let! r := get in
   ensure_live r ;;
   match Room.participants r !! id with
   | None => hret false
   | Some p =>
       if negb (Participant.sender p =? expected)%N then hret false
       else if negb (match Participant.authenticated p, subject with
                     | true, Some subject => (subject =? id)%N
                     | false, None => true
                     | _, _ => false
                     end) then hret false
       else
         set_room (fun r => r <| Room.participants ::=
           <[id := p <| Participant.sender := fresh |>
                     <| Participant.social ::= fun s => s <| ParticipantSocial.connected := true |> |>]> |>) ;;
         send notify_lobby_status ;;
         hret true
   end)%handler.

Definition rebind_participant_sender (room_id : string) (id : participant_id) (subject : option participant_id)
  (expected fresh : sender) : handled bool :=
  let? a := get_room room_id in
  holding (ControlLock a) (locked a (rebind_section id subject expected fresh)).

Definition is_bound_participant (room_id : string) (id : participant_id) (expected : sender) : process bool :=
  let* found := get_room room_id in
  match found with
  | Err _ => Return false
  | Ok a => atomically (fun w =>
      (w, negb (Room.deleting (room_at w a)) && owns_membership (room_at w a) id expected))
  end.

(** ** Observer events *)

Inductive observer_event :=
| ObservedSpeaker (producer : producer_id)
| ObservedLevels (volumes : list (producer_id * Z))
| ObservedSilence.

(** One event of [observer_broadcast_task]. *)
Definition observed (e : observer_event) (r : room) (q : wire) : wire :=
  match e with
  | ObservedSpeaker producer =>
      match Room.producer_to_participant r !! producer with
      | Some id => broadcast_all r (ServerMessage.ActiveSpeaker id) q
      | None => q
      end
  | ObservedLevels volumes =>
      let levels := omap (fun v => (fun id => (id, v.2)) <$> Room.producer_to_participant r !! v.1) volumes in
      if bool_decide (levels = []) then q else broadcast_all r (ServerMessage.AudioLevels levels) q
  | ObservedSilence => broadcast_all r (ServerMessage.AudioLevels []) q
  end.

Definition observer_task_step (a : N) (e : observer_event) : process unit :=
  atomically (fun w => (w <| the_wire ::= observed e (room_at w a) |>, tt)).
End ops.
