(* ===== verification/MediaOps.v ===== *)
(** * Media requests ([src/src/room/manager/media_ops.rs])

    Transports, producers and consumers: the member's session and budget are
    checked under the room lock, the media worker is asked without it, and a
    change is committed only if the session is still the member's. *)

From S2P Require Import Prelude Refusal Roles Window Settings Protocol Moderation Wire Social Room Media Publication Process World.

Open Scope process_scope.

(** A media server failure reaches the client as its message. *)
Definition media_ok {A} (r : result string A) : result failure A :=
  match r with Ok x => Ok x | Err e => Err (Message e) end.

Definition media {A} (c : media_call) (k : bool -> handled A) : handled A :=
  let* answer := call_media c in
  match answer with Ok b => k b | Err e => Return (Err (Message e)) end.

(** ** Sessions and budgets *)

Definition media_session_for_sender (room_id : string) (id : participant_id) (expected : sender) : handled N :=
  let? a := get_room room_id in
  locked a (fun _ =>
    (let! r := get in
     let! p := hlift (participant_for_sender r id expected) in
     hret (Participant.media_session_id p))%handler).

Definition is_current_media_session (room_id : string) (id : participant_id) (expected : sender)
  (session : N) : process bool :=
  let* found := get_room room_id in
  match found with
  | Err _ => Return false
  | Ok a => atomically (fun w => (w, participant_session_is_current (room_at w a) id expected session))
  end.

(** A reservation names its room and the instant it was taken. *)
Record reservation := Reservation { reserved_room : N; reserved_at : instant }.

Definition reserve_media (now : instant) : handler failure (room * wire) unit :=
  reserve_window Room.media_mutations (fun v r => r <| Room.media_mutations := v |>) now
    (Message "Room media changes are rate limited").

Definition reserve_media_mutation_for_sender (room_id : string) (id : participant_id) (expected : sender)
  (producer : option producer_id) : handled reservation :=
  let? a := get_room room_id in
  locked a (fun w =>
    (let! r := get in
     let! p := hlift (participant_for_sender r id expected) in
     anyhow_ensure (negb (is_some_and producer
                            (fun pr => negb (bool_decide (is_Some (Participant.producers p !! pr))))))
       "Producer does not belong to this participant" ;;
     reserve_media (clock w) ;;
     hret (Reservation a (clock w)))%handler).

Definition reserve_producer_pause_mutation_for_sender (room_id : string) (id : participant_id)
  (expected : sender) (producer : producer_id) (desired_paused : bool) : handled (option reservation) :=
  let? a := get_room room_id in
  locked a (fun w =>
    (let! r := get in
     let! p := hlift (participant_for_sender r id expected) in
     let! rec := hlift (ok_or (Participant.producers p !! producer)
                          (Message "Producer does not belong to this participant")) in
     if eqb (paused rec) desired_paused then hret None
     else reserve_media (clock w) ;; hret (Some (Reservation a (clock w))))%handler).

Definition refund_media_mutation (v : reservation) : process unit :=
  let* _ := locked (E := failure) (reserved_room v) (fun _ =>
    set_room (fun r => r <| Room.media_mutations ::= fun win => (refund win (reserved_at v)).1 |>)) in Return tt.

Definition reserve_media_control_ipc_for_sender (room_id : string) (id : participant_id) (expected : sender)
  : handled reservation :=
  let? a := get_room room_id in
  locked a (fun w =>
    (let! r := get in
     let! _ := hlift (participant_for_sender r id expected) in
     reserve_window Room.media_control_ipc (fun v r => r <| Room.media_control_ipc := v |>) (clock w)
       (Message "Room media control operations are rate limited") ;;
     hret (Reservation a (clock w)))%handler).

Definition refund_media_control_ipc (v : reservation) : process unit :=
  let* _ := locked (E := failure) (reserved_room v) (fun _ =>
    set_room (fun r => r <| Room.media_control_ipc ::= fun win => (refund win (reserved_at v)).1 |>)) in Return tt.

Definition can_participant_produce (room_id : string) (id : participant_id) (expected : sender)
  (kind : media_kind) (source : string) : handled bool :=
  let? a := get_room room_id in
  locked a (fun _ =>
    (let! r := get in
     let! p := hlift (participant_for_sender r id expected) in
     hret (participant_can_produce r p kind source))%handler).

(** ** Producers *)

(** The media worker's new producer, an identifier of its own. *)
Definition create_native_producer (m : media_participant) (id : participant_id) (transport : N)
  (kind : media_kind) : handled producer_id :=
  media (CreateProducer m transport kind) (fun _ =>
    atomically (fun w =>
      let producer := fresh (dom (issued w)) in
      (w <| issued ::= <[producer := id]> |>, Ok producer))).

(** The commit of [create_producer]; its errors close the native producer. *)
Definition commit_producer (id : participant_id) (expected : sender) (session : N) (producer : producer_id)
  (kind : media_kind) (source : string) (_ : world)
  : handler failure (room * wire) (option opaque * option opaque) :=
  (let! r := get in
   ensure_live r ;;
   match Room.participants r !! id with
   | Some p =>
       if (Participant.media_session_id p =? session)%N && (Participant.sender p =? expected)%N
          && participant_can_produce r p kind source
       then
         set_room (with_producer id p producer (ProducerRecord kind (Some source) false)) ;;
         send (fun r => broadcast_except r id
                 (ServerMessage.NewProducer id producer kind (Some source))) ;;
         hret (Room.active_speaker_observer r, Room.audio_level_observer r)
       else anyhow_bail "You are no longer allowed to produce this media type"
   | None => anyhow_bail "You are no longer allowed to produce this media type"
   end)%handler.

Definition add_to_observer (observer : option opaque) (producer : producer_id) : process unit :=
  match observer with
  | Some o => let* _ := call_media (ObserverAdd o producer) in Return tt
  | None => Return tt
  end.

Definition create_producer (room_id : string) (id : participant_id) (expected : sender) (transport : N)
  (kind : media_kind) (source : option string) : handled producer_id :=
  match source with
  | None => Return (Err (Message "Media source is required"))
  | Some source =>
      if negb (valid_media_source kind source)
      then Return (Err (Message "Media kind does not match source"))
      else
        let? allowed := can_participant_produce room_id id expected kind source in
        if negb allowed then Return (Err (Message "You are not allowed to produce this media type"))
        else
          let? _ := reserve_media_mutation_for_sender room_id id expected None in
          let? session := media_session_for_sender room_id id expected in
          let m := media_participant_id room_id id session in
          let? producer := create_native_producer m id transport kind in
          let* committed :=
            (let? a := get_room room_id in
             locked a (commit_producer id expected session producer kind source)) in
          match committed with
          | Err e => let* _ := call_media (CloseProducer m producer) in Return (Err e)
          | Ok (active, audio) =>
              let* _ := match kind with
                        | Audio => let* _ := add_to_observer active producer in add_to_observer audio producer
                        | Video => Return tt
                        end in
              Return (Ok producer)
          end
  end.

Definition commit_close_producer (id : participant_id) (expected : sender) (session : N)
  (producer : producer_id) (_ : world)
  : handler failure (room * wire) (bool * (option opaque * option opaque)) :=
  (let! r := get in
   anyhow_ensure (participant_session_is_current r id expected session) "Participant is no longer in this room" ;;
   let was_audio := is_some_and (p ← Room.participants r !! id; Participant.producers p !! producer)
                      (fun rec => bool_decide (producer_kind rec = Audio)) in
   set_room (fun r => r
     <| Room.participants ::= alter (fun p => p <| Participant.producers ::= delete producer |>) id |>
     <| Room.producer_to_participant ::= delete producer |>) ;;
   send (fun r => broadcast_except r id (ServerMessage.ProducerClosed producer)) ;;
   hret (was_audio, (Room.active_speaker_observer r, Room.audio_level_observer r)))%handler.

Definition close_producer (room_id : string) (id : participant_id) (expected : sender) (producer : producer_id)
  : handled unit :=
  let? session := media_session_for_sender room_id id expected in
  let m := media_participant_id room_id id session in
  let? _ := reserve_media_mutation_for_sender room_id id expected (Some producer) in
  media (CloseProducer m producer) (fun _ =>
    let? a := get_room room_id in
    let? '(was_audio, (active, audio)) := locked a (commit_close_producer id expected session producer) in
    let* _ := if was_audio : bool
              then let* _ := remove_from_observer active producer in remove_from_observer audio producer
              else Return tt in
    Return (Ok tt)).

Definition commit_pause (id : participant_id) (expected : sender) (session : N) (producer : producer_id)
  (is_paused : bool) (_ : world) : handler failure (room * wire) unit :=
  (let! r := get in
   anyhow_ensure (participant_session_is_current r id expected session) "Participant is no longer in this room" ;;
   set_room (fun r => record_producer_paused r id producer is_paused) ;;
   send (fun r => broadcast_except r id (if is_paused then ServerMessage.ProducerPaused producer
                                         else ServerMessage.ProducerResumed producer)))%handler.

(** [pause_producer] and [resume_producer]. *)
Definition set_producer_paused (room_id : string) (id : participant_id) (expected : sender)
  (producer : producer_id) (is_paused : bool) : handled unit :=
  let? session := media_session_for_sender room_id id expected in
  let m := media_participant_id room_id id session in
  let? reserved := reserve_producer_pause_mutation_for_sender room_id id expected producer is_paused in
  match reserved with
  | None => Return (Ok tt)
  | Some v =>
      media (if is_paused then PauseProducer m producer else ResumeProducer m producer) (fun changed =>
        if negb changed then let* _ := refund_media_mutation v in Return (Ok tt)
        else let? a := get_room room_id in locked a (commit_pause id expected session producer is_paused))
  end.
Definition pause_producer room_id id expected producer : handled unit :=
  set_producer_paused room_id id expected producer true.
Definition resume_producer room_id id expected producer : handled unit :=
  set_producer_paused room_id id expected producer false.

(** ** Consumers and transports

    The room keeps no record of these; the requests differ in what they ask
    of the worker. *)

(** Check the session, take one unit of the room's budget, ask the worker. *)
Definition budgeted {A} (room_id : string) (id : participant_id) (expected : sender)
  (call : media_participant -> media_call) (k : media_participant -> N -> reservation -> bool -> handled A)
  : handled A :=
  let? session := media_session_for_sender room_id id expected in
  let m := media_participant_id room_id id session in
  let? v := reserve_media_control_ipc_for_sender room_id id expected in
  media (call m) (k m session v).

(** A request that changed nothing gives its unit back. *)
Definition refunded (room_id : string) (id : participant_id) (expected : sender)
  (call : media_participant -> media_call) : handled unit :=
  budgeted room_id id expected call (fun _ _ v changed =>
    if changed then Return (Ok tt) else let* _ := refund_media_control_ipc v in Return (Ok tt)).

Definition connect_transport room_id id expected transport : handled unit :=
  refunded room_id id expected (fun m => ConnectTransport m transport).
Definition resume_consumer room_id id expected consumer : handled unit :=
  refunded room_id id expected (fun m => ResumeConsumer m consumer).
Definition pause_consumer room_id id expected consumer : handled unit :=
  refunded room_id id expected (fun m => PauseConsumer m consumer).
Definition close_consumer room_id id expected consumer : handled unit :=
  refunded room_id id expected (fun m => CloseConsumer m consumer).
Definition set_preferred_layers room_id id expected consumer spatial temporal : handled unit :=
  refunded room_id id expected (fun m => SetPreferredLayers m consumer spatial temporal).
Definition subscribe_bwe_events room_id id expected : handled unit :=
  budgeted room_id id expected SubscribeBwe (fun _ _ _ _ => Return (Ok tt)).
Definition restart_ice room_id id expected transport : handled unit :=
  budgeted room_id id expected (fun m => RestartIce m transport) (fun _ _ _ _ => Return (Ok tt)).

(** What a worker built for a session that is no longer current is dropped. *)
Definition keep_if_current (room_id : string) (id : participant_id) (expected : sender)
  (m : media_participant) (session : N) : handled unit :=
  let* current := is_current_media_session room_id id expected session in
  if current : bool then Return (Ok tt)
  else let* _ := call_media (RemoveParticipant m) in Return (Err (Message "Participant is no longer in this room")).

Definition get_router (room_id : string) : handled unit :=
  let* router := ask (RouterOf room_id) in
  Return (media_ok router).

Definition get_router_rtp_capabilities room_id id expected : handled unit :=
  let? _ := media_session_for_sender room_id id expected in get_router room_id.

Definition create_send_transport (room_id : string) (id : participant_id) (expected : sender) : handled unit :=
  let? session := media_session_for_sender room_id id expected in
  let? _ := get_router room_id in
  media (WebRtcServer room_id) (fun _ =>
  let m := media_participant_id room_id id session in
  let? _ := reserve_media_control_ipc_for_sender room_id id expected in
  media (CreateSendTransport m) (fun _ => keep_if_current room_id id expected m session)).

Definition create_recv_transport (room_id : string) (id : participant_id) (expected : sender) : handled unit :=
  let? session := media_session_for_sender room_id id expected in
  let m := media_participant_id room_id id session in
  media (PlaceViewer m) (fun lease =>
  media (WebRtcServer room_id) (fun _ =>
  let? _ := reserve_media_control_ipc_for_sender room_id id expected in
  media (CreateRecvTransport m) (fun _ =>
  let* _ := if lease : bool then let* _ := call_media (AttachLease m) in Return tt else Return tt in
  keep_if_current room_id id expected m session))).

(** The producer's record, through the ownership index. *)
Definition producer_in_room (r : room) (producer : producer_id) : option producer_record :=
  match Room.producer_to_participant r !! producer with
  | Some owner => match Room.participants r !! owner with
                  | Some p => Participant.producers p !! producer
                  | None => None
                  end
  | None => None
  end.

Definition create_consumer (room_id : string) (id : participant_id) (expected : sender) (producer : producer_id)
  : handled unit :=
  let? session := media_session_for_sender room_id id expected in
  let? a := get_room room_id in
  let? _ := locked a (fun _ =>
    (let! r := get in
     hlift (ok_or (producer_in_room r producer) (Message "Producer is not in this room")))%handler) in
  let? _ := reserve_media_control_ipc_for_sender room_id id expected in
  let m := media_participant_id room_id id session in
  media (EnsurePiped m producer) (fun _ =>
  media (CreateConsumer m producer) (fun _ => keep_if_current room_id id expected m session)).

(** [apply_layer_ceilings] for each consumer the transport reports as pending. *)
Fixpoint apply_ceilings (room_id : string) (id : participant_id) (expected : sender) (m : media_participant)
  (pending : list N) (written : N) : handled N :=
  match pending with
  | [] => Return (Ok written)
  | consumer :: pending =>
      let? v := reserve_media_control_ipc_for_sender room_id id expected in
      media (ApplyLayerCeilings m consumer) (fun changed =>
        if changed then apply_ceilings room_id id expected m pending (written + 1)
        else let* _ := refund_media_control_ipc v in
             apply_ceilings room_id id expected m pending written)
  end.

Definition set_bandwidth_ceiling (room_id : string) (id : participant_id) (expected : sender)
  (transport spatial : N) : handled N :=
  let? session := media_session_for_sender room_id id expected in
  let m := media_participant_id room_id id session in
  let* pending := ask (CeilingFor m transport spatial) in
  match pending with
  | Ok pending => apply_ceilings room_id id expected m pending 0
  | Err e => Return (Err (Message e))
  end.

(** ** Replacement of a receiver ([src/src/room/receive_replacement.rs]) *)

Definition replace_receiver (room_id : string) (id : participant_id) (expected : sender) (transport : N) (bwe : bool) : handled N :=
  let? session := media_session_for_sender room_id id expected in
  let m := media_participant_id room_id id session in
  let* replay := ask (ReplayFor m transport) in
  match replay with
  | Err e => Return (Err (Message e))
  | Ok (Some t) => Return (Ok t)
  | Ok None =>
      let? _ := reserve_media_control_ipc_for_sender room_id id expected in
      media (PlaceViewer m) (fun lease =>
      media (WebRtcServer room_id) (fun _ =>
      let* replaced := ask (ReplaceRecv m transport lease bwe) in
      Return (media_ok replaced)))
  end.
Definition replace_recv_transport (room_id : string) (id : participant_id) (expected : sender) (transport : N) (bwe : bool)
  : handled N :=
  run_room_control room_id (fun _ => replace_receiver room_id id expected transport bwe).

Definition is_current_recv_transport (room_id : string) (id : participant_id) (expected : sender) (transport : N) : process bool :=
  let* session := media_session_for_sender room_id id expected in
  match session with
  | Ok session => ask (IsCurrentRecv (media_participant_id room_id id session) transport)
  | Err _ => Return false
  end.
