(* ===== verification/Lifecycle.v ===== *)
(** * Creation, deletion, recovery and shutdown
      ([src/src/room/manager/lifecycle.rs], the deletion helpers of
      [src/src/room/mod.rs])

    Saved rooms are created and deleted under the creation lock; a deleted or
    dead room keeps its identifier reserved until its router is gone; shutdown
    closes admission and clears every membership. *)

From S2P Require Import Prelude Refusal Roles Window Labels Settings Protocol Moderation Wire Social Room Media Publication Process World Membership.

Open Scope process_scope.

Inductive delete_room_result := Deleted | NoSuchRoom | NotOwner.

Definition room_delete_timeout (operation : string) : room_error :=
  Database (SqlProtocol ("room deletion timed out while " ++ operation)).
Definition room_creation_timeout (operation : string) : room_error :=
  Database (SqlProtocol ("room creation timed out while " ++ operation)).

(** ** Creation of a saved room *)

Section create.
Context (mgr : manager).

Definition create_persisted_room (owner : participant_id) (request : create_room_request)
  (password_hash : option string) : process (result room_error (option room_settings)) :=
  let room_id := CreateRoom.id request in
  let* draining_now := atomically (fun w => (w, draining w)) in
  if draining_now : bool then Return (Err (Database PoolClosed))
  else
    lock_within CreationLock (room_creation_timeout "waiting for room creation")
      (let* draining_now := atomically (fun w => (w, draining w)) in
       if draining_now : bool then Return (Err (Database PoolClosed))
       else
         let* taken := atomically (fun w =>
           (w, is_deleting room_id w || bool_decide (is_Some (rooms w !! room_id)))) in
         if taken : bool then Return (Ok None)
         else if negb (has_database mgr) then Return (Err (Database PoolClosed))
         else
           let* inserted := ask (InsertRoom owner request password_hash) in
           Return (match inserted with
                   | None => Err (room_creation_timeout "writing the database row")
                   | Some (Ok settings) => Ok (Some settings)
                   | Some (Err e) => Err e
                   end)).
End create.

(** ** Deletion *)

(** Reserve the identifier; [None] when it is reserved already. *)
Definition reserve_deletion (room_id : string) (w : world) : world * option N :=
  if is_deleting room_id w then (w, None)
  else (w <| deleting_rooms ::= <[room_id := next_uuid w]> |> <| next_uuid ::= N.succ |>, Some (next_uuid w)).

Definition set_deleting (deleting : bool) (r : room) : room := bump_policy (r <| Room.deleting := deleting |>).

Definition release_reservation (room_id : string) (token : N) : process unit :=
  atomically (fun w => (release_deletion_reservation room_id token w, tt)).

(** Close a room for its deletion, and open it again. *)
Definition tombstone (a : N) : process unit :=
  atomically (fun w => (w <| heap ::= <[a := set_deleting true (room_at w a)]> |>, tt)).
Definition revive (a : N) : process unit :=
  atomically (fun w => (w <| heap ::= <[a := set_deleting false (room_at w a)]> |>, tt)).

Definition restore_failed_deletion (runtime : option N) (room_id : string) (token : N) : process unit :=
  match runtime with
  | Some a =>
      let* elapsed := ask Elapsed in
      if elapsed : bool
      then Spawn (let* _ := revive a in release_reservation room_id token) (Return tt)
      else let* _ := revive a in release_reservation room_id token
  | None => release_reservation room_id token
  end.

Definition deletion_notice : server_message := ServerMessage.RoomClosed "Room was deleted by its owner".

(** Tell everyone, empty the room; the media sessions to close. *)
Definition drain_section (room_id : string) (notice : server_message) (finish : room -> room) (a : N) (w : world)
  : world * list media_participant :=
  let r := room_at w a in
  let q := notify_lobby r notice (broadcast_all r notice (the_wire w)) in
  (w <| heap ::= <[a := finish (clear_membership r)]> |> <| the_wire := q |>, media_sessions room_id r).

Definition unmap_section (room_id : string) (a : N) (w : world) : world * unit :=
  (if bool_decide (rooms w !! room_id = Some a) then w <| rooms ::= delete room_id |> else w, tt).

Definition remove_sessions (sessions : list media_participant) : process unit :=
  for_each (fun m => let* _ := call_media (RemoveParticipant m) in Return tt) sessions.

(** After the row is gone: the creation lock is free, the reservation stays. *)
Definition finish_deletion (room_id : string) (runtime : option N) (token : N)
  : process (result room_error delete_room_result) :=
  match runtime with
  | None =>
      let* _ := release_reservation room_id token in Return (Ok Deleted)
  | Some a =>
      let* elapsed := ask Elapsed in
      if elapsed : bool then Return (Ok Deleted)
      else
        let* sessions := atomically (drain_section room_id deletion_notice (fun r => r) a) in
        let* _ := atomically (unmap_section room_id a) in
        Release (ControlLock a)
          (let* _ := remove_sessions sessions in
           let* removed := remove_router room_id in
           let* _ := atomically (fun w =>
             (release_deletion_reservation_after_router_teardown room_id token removed w, tt)) in
           Return (Ok Deleted))
  end.

(** The conditional DELETE and what follows from its outcome. *)
Definition delete_reserved (room_id : string) (requester : participant_id) (created_at : timestamp)
  (runtime : option N) (token : N) : process (result room_error delete_room_result) :=
  let* deleted := ask (DeleteRoomRow room_id requester created_at) in
  Release CreationLock
    (match deleted with
     | None => Return (Err (room_delete_timeout "deleting the database row"))
     | Some (Err e) =>
         if persistence_is_indeterminate e then Return (Err e)
         else let* _ := restore_failed_deletion runtime room_id token in Return (Err e)
     | Some (Ok false) =>
         let* _ := restore_failed_deletion runtime room_id token in Return (Ok NoSuchRoom)
     | Some (Ok true) => finish_deletion room_id runtime token
     end).

Definition tombstone_and_delete (room_id : string) (requester : participant_id) (created_at : timestamp)
  (runtime : option N) : process (result room_error delete_room_result) :=
  let* token := atomically (reserve_deletion room_id) in
  match token with
  | None => Return (Ok NoSuchRoom)
  | Some token =>
      match runtime with
      | Some a =>
          let* elapsed := ask Elapsed in
          if elapsed : bool then
            let* _ := release_reservation room_id token in
            Return (Err (room_delete_timeout "waiting to tombstone the runtime room"))
          else
            let* _ := tombstone a in
            delete_reserved room_id requester created_at runtime token
      | None => delete_reserved room_id requester created_at runtime token
      end
  end.

Definition delete_persisted_room (mgr : manager) (room_id : string) (requester : participant_id)
  : process (result room_error delete_room_result) :=
  if negb (has_database mgr) then Return (Err (Database PoolClosed))
  else
    let* generation := ask (RoomGeneration room_id) in
    match generation with
    | None => Return (Err (room_delete_timeout "checking ownership"))
    | Some (Err e) => Return (Err e)
    | Some (Ok None) => Return (Ok NoSuchRoom)
    | Some (Ok (Some (owner, created_at))) =>
        if negb (owner =? requester)%N then Return (Ok NotOwner)
        else
          lock_within CreationLock (room_delete_timeout "waiting for room creation")
            (let* runtime := atomically (fun w => (w, rooms w !! room_id)) in
             match runtime with
             | Some a =>
                 lock_within (ControlLock a) (room_delete_timeout "waiting for room control")
                   (tombstone_and_delete room_id requester created_at (Some a))
             | None => tombstone_and_delete room_id requester created_at None
             end)
    end.

(** ** Worker death *)

Definition close_for_rejoin_section (room_id : string) (reason : string) (a : N) (w : world)
  : world * list media_participant :=
  drain_section room_id (ServerMessage.ServerRestarting reason)
    (fun r => set_deleting true (drop_observers r)) a w.

Definition close_room_for_rejoin (room_id : string) (expected_worker : N) (reason : string) : handled unit :=
  let* found := get_room room_id in
  match found with
  | Err _ => Return (Ok tt)
  | Ok a =>
      let? closed :=
        lock_within CreationLock (Message "Room creation is busy")
          (let* mapped := atomically (fun w => (w, bool_decide (rooms w !! room_id = Some a))) in
           if negb mapped then Return (Ok None)
           else
             let* worker := ask (WorkerOf room_id) in
             if negb (bool_decide (worker = Some expected_worker)) then Return (Ok None)
             else
               lock_within (ControlLock a) (Message "Room control is busy")
                 (let* elapsed := ask Elapsed in
                  if elapsed : bool then Return (Err (Message "Room state is busy"))
                  else
                    let* sessions := atomically (close_for_rejoin_section room_id reason a) in
                    let* _ := atomically (unmap_section room_id a) in
                    let* token := new_uuid in
                    let* _ := atomically (fun w => (w <| deleting_rooms ::= <[room_id := token]> |>, tt)) in
                    Return (Ok (Some (sessions, token))))) in
      match closed with
      | None => Return (Ok tt)
      | Some (sessions, token) =>
          let* _ := remove_sessions sessions in
          let* removed := remove_router room_id in
          let* _ := atomically (fun w =>
            (release_deletion_reservation_after_router_teardown room_id token removed w, tt)) in
          Return (if removed : bool then Ok tt
                  else Err (Message "Recovery router cleanup incomplete; room ID remains reserved"))
      end
  end.

(** [recover_from_worker_death]: [affected] are the rooms whose router lived
    on the dead worker, as the router manager reports them.  Dropping its viewer
    routers and recreating the worker change media state only. *)
Definition recover_from_worker_death (dead_worker : N) (affected : list string) : process unit :=
  for_each (fun room_id =>
    match room_id_new room_id with
    | Ok room_id =>
        let* _ := close_room_for_rejoin room_id dead_worker "Media worker restarted; rejoining" in Return tt
    | Err _ => Return tt
    end) affected.

(** ** Shutdown *)

Definition begin_draining : process unit := atomically (fun w => (w <| draining := true |>, tt)).

Definition drain_room (a : N) : process unit :=
  holding (ControlLock a) (atomically (fun w =>
    (w <| heap ::= <[a := drop_observers (clear_membership ((room_at w a) <| Room.deleting := true |>))]> |>, tt))).

(** [shutdown_with_budget] when its budget does not cut it short. *)
Definition shutdown : process unit :=
  let* _ := begin_draining in
  holding CreationLock
    (let* all := atomically (fun w => (w <| rooms := ∅ |>, map_to_list (rooms w))) in
     for_each (fun entry => drain_room entry.2) all).

(** ** Identity updates *)

(** [begin_identity_update] and the drop of its guard around an update. *)
Definition with_identity_update {A} (room_id : string) (p : process A) : process A :=
  let* _ := atomically (fun w => (w <| identity_updates ::= fun s => {[room_id]} ∪ s |>, tt)) in
  let* res := p in
  let* _ := atomically (fun w => (w <| identity_updates ::= fun s => s ∖ {[room_id]} |>, tt)) in
  Return res.
