(* ===== verification/ChatRequests.v ===== *)
(** * Chat commands and social requests ([src/src/room/social.rs],
      [src/src/room/social/])

    The async handlers around the chat state of a room.  Chat that nothing
    saves is checked and published in one section; everything else runs in the
    room's control order: check under the room lock, ask the database without
    it, take the room back and publish. *)

From stdpp Require Import pretty.
From S2P Require Import Prelude Refusal Net Roles Window Labels Settings Protocol Moderation Wire Social Room Media Publication Process World Chat ChatEvents ModerationOps.

Open Scope process_scope.

Definition PM_RETENTION_DAYS : Z := 90.
Definition ROOM_HISTORY_RETENTION_DAYS : list Z := [0; 1; 7; 30; 90]%Z.
Definition PAGE_SIZE : nat := 100.
Definition MAX_IGNORED : nat := 100.

(** Send to a connection outside any room lock. *)
Definition tell (to : sender) (m : server_message) : handled unit :=
  atomically (fun w =>
    let '(q, sent) := try_send_essential (the_wire w) to m in
    (w <| the_wire := q |>,
     match sent with Ok _ => Ok tt | Err _ => Err (social_rate_limited "Connection is busy; please retry") end)).

(** [timeout(PERSISTENCE_TIMEOUT, ..).await.map_err(..)??]. *)
Definition ask_chat {A} (q : chat_query) (late : failure) (k : chat_reply q -> handled A) : handled A :=
  let* answer := ask (Chat q) in
  match answer with
  | None => Return (Err late)
  | Some (Err e) => Return (Err (OfRoomError e))
  | Some (Ok x) => k x
  end.

(** A refusal keeps its code; a database error is passed on. *)
Definition refused_or (e : room_error) : failure :=
  match e with Refused refused => social_refused refused | Database _ => OfRoomError e end.

(** [request.persist(..).await.map_err(f)?]. *)
Definition persisting_chat {A} (room_id : string) (a : N) (q : chat_query) (f : room_error -> failure)
  (k : chat_reply q -> handled A) : handled A :=
  let* saved := persist_chat room_id a q in
  match saved with Ok x => k x | Err e => Return (Err (f e)) end.

(** [reacquire]: take the room back; it is live and the actor still bound. *)
Definition reacquire {A} (a : N) (id : participant_id) (expected : sender)
  (m : participant -> world -> handler failure (room * wire) A) : handled A :=
  locked a (fun w =>
    (let! r := get in
     ensure_live r ;;
     let! actor := hlift (participant_for_sender r id expected) in
     m actor w)%handler).

Section requests.
Context (mgr : manager) `{Unicode, Codec}.

Definition need_database {S} (e : failure) : handler failure S unit := ensure (has_database mgr) e.

(** ** Chat *)

Definition is_durable (r : room) (sender_id : participant_id) (attempt : chat_attempt) : bool :=
  has_database mgr &&
  match attempt_recipient_id attempt with
  | Some recipient => is_some_and (Room.participants r !! sender_id) Participant.authenticated
                      && is_some_and (Room.participants r !! recipient) Participant.authenticated
  | None => keeps_history r
  end.

(** How far a section took an attempt. *)
Inductive chat_turn :=
| Answered
| NeedsReply (message : message_id)
| Pending (p : prepared_chat) (retention_days : Z).

Definition retention_for (r : room) (p : prepared_chat) : Z :=
  match ChatEntry.recipient_id (PreparedChat.message p) with
  | Some _ => PM_RETENTION_DAYS
  | None => from_option RoomSettings.history_retention_days 0%Z (Room.settings r)
  end.

(** Prepare, and finish in the same section when nothing is to be saved. *)
Definition chat_section (sender_id : participant_id) (expected : sender) (attempt : chat_attempt) (fresh : message_id)
  (saved_reply : option chat_entry) (w : world) : handler failure (room * wire) chat_turn :=
  (let! prepared := prepare_chat_attempt sender_id expected attempt fresh saved_reply w in
   match prepared with
   | None => hret Answered
   | Some p =>
       let! r := get in
       if PreparedChat.persist p then
         need_database (social_unavailable "History unavailable") ;; hret (Pending p (retention_for r p))
       else if bool_decide (PreparedChat.attachment_ids p = []) then
         finish_chat_attempt sender_id expected p ;; hret Answered
       else need_database (social_unavailable "Attachments unavailable") ;; hret (Pending p (retention_for r p))
   end)%handler.

(** A reply to a public message that is not in the replay history is looked up
    first. *)
Definition first_chat_section (sender_id : participant_id) (expected : sender) (attempt : chat_attempt)
  (fresh : message_id) (w : world) : handler failure (room * wire) chat_turn :=
  (let! r := get in
   match attempt_recipient_id attempt, attempt_reply_to attempt with
   | None, Some id =>
       if keeps_history r then
         let! actor := hlift (participant_for_sender r sender_id expected) in
         if is_ok (quote_reply (RoomSocial.history (Room.social r)) actor None id)
         then chat_section sender_id expected attempt fresh None w
         else need_database (social_unavailable "History unavailable") ;; hret (NeedsReply id)
       else chat_section sender_id expected attempt fresh None w
   | _, _ => chat_section sender_id expected attempt fresh None w
   end)%handler.

Definition chat_persistence_failure (expected : sender) (client_message_id : string) (e : room_error) : handled unit :=
  match e with
  | Refused refused => Return (Err (social_refused refused))
  | Database _ =>
      if persistence_is_indeterminate e then
        let* _ := tell expected (ServerMessage.MessageRetryResult client_message_id RetryUnknown StorageUnconfirmed) in
        Return (Ok tt)
      else Return (Err (social_failed "Message could not be saved; try again"))
  end.

(** Publish what was saved, counted again. *)
Definition finish_saved (a : N) (sender_id : participant_id) (expected : sender) (p : prepared_chat) : handled unit :=
  match entry_bytes (PreparedChat.message p) with
  | None => Return (Err (Message "serialization failed"))
  | Some bytes =>
      reacquire a sender_id expected (fun _ _ =>
        finish_chat_attempt sender_id expected (p <| PreparedChat.receipt_bytes := bytes |>))
  end.

Definition finish_turn (room_id : string) (a : N) (sender_id : participant_id) (expected : sender) (turn : chat_turn)
  : handled unit :=
  match turn with
  | Answered | NeedsReply _ => Return (Ok tt)
  | Pending p days =>
      let m := PreparedChat.message p in
      if PreparedChat.persist p then
        let* saved := persist_chat room_id a (PersistMessage
          (match ChatEntry.recipient_id m with None => Some room_id | Some _ => None end)
          (PreparedChat.sender_session p) (PreparedChat.sender_authenticated p) days m (PreparedChat.attachment_ids p)) in
        match saved with
        | Ok m => finish_saved a sender_id expected
                    (p <| PreparedChat.message := m |> <| PreparedChat.durable := true |>)
        | Err e => chat_persistence_failure expected (ChatEntry.client_message_id m) e
        end
      else
        let* attached := persist_chat room_id a
          (BindEphemeral sender_id (PreparedChat.attachment_ids p) (ChatEntry.message_id m) room_id) in
        match attached with
        | Ok files => finish_saved a sender_id expected
                        (p <| PreparedChat.message := m <| ChatEntry.attachments := files |> |>)
        | Err e => chat_persistence_failure expected (ChatEntry.client_message_id m) e
        end
  end.

Definition controlled_chat (room_id : string) (sender_id : participant_id) (expected : sender) (attempt : chat_attempt)
  (fresh : message_id) : handled unit :=
  let? a := get_room room_id in
  let? turn := locked a (first_chat_section sender_id expected attempt fresh) in
  match turn with
  | NeedsReply id =>
      ask_chat (LookupPublic room_id id) (social_timed_out "Chat history timed out") (fun saved =>
        let? turn := reacquire a sender_id expected (fun _ w =>
          chat_section sender_id expected attempt fresh (fst <$> saved) w) in
        finish_turn room_id a sender_id expected turn)
  | turn => finish_turn room_id a sender_id expected turn
  end.

Definition submit_chat_attempt (room_id : string) (sender_id : participant_id) (expected : sender)
  (attempt : chat_attempt) : handled unit :=
  let? a := get_room room_id in
  let* fresh := new_uuid in
  let? published := locked a (fun w =>
    (let! r := get in
     if negb (is_durable r sender_id attempt) && bool_decide (attempt_attachment_ids attempt = [])
     then process_chat_attempt sender_id expected attempt fresh w ;; hret true
     else hret false)%handler) in
  if published : bool then Return (Ok tt)
  else run_room_control room_id (fun _ => controlled_chat room_id sender_id expected attempt fresh).

Definition chat_attempt_of (command : client_message) : result failure chat_attempt :=
  match command with
  | ClientMessage.ChatMessage content files client sequence reply =>
      Ok (ChatAttempt content files client None sequence None reply)
  | ClientMessage.PrivateMessage target content files client sequence reply =>
      Ok (ChatAttempt content files (Some client) (Some target) sequence None reply)
  | ClientMessage.RetryChatMessage m =>
      Ok (ChatAttempt (retry_content m) (retry_attachment_ids m) (Some (retry_client_message_id m)) (retry_target m)
            (Some (retry_sequence m)) (Some (retry_chat_session_id m)) (retry_reply_to m))
  | _ => Err (social_invalid "Invalid chat command")
  end.

Definition handle_chat_command (room_id : string) (sender_id : participant_id) (expected : sender)
  (command : client_message) : handled unit :=
  match chat_attempt_of command with
  | Ok attempt => submit_chat_attempt room_id sender_id expected attempt
  | Err e => Return (Err e)
  end.

Definition typing (room_id : string) (sender_id : participant_id) (expected : sender) (target : option participant_id)
  : handled unit :=
  let? a := get_room room_id in locked a (relay_typing sender_id expected target).

(** ** Committed private edits, in every room they are shown *)

Definition concerns (r : room) (message : chat_entry) (recipient : participant_id) : bool :=
  negb (Room.deleting r)
  && (bool_decide (is_Some (Room.participants r !! ChatEntry.participant_id message))
      || bool_decide (is_Some (Room.participants r !! recipient))).

Definition inbox_viewers (r : room) (message : chat_entry) (recipient : participant_id) : list sender :=
  senders_where (fun p =>
    Participant.authenticated p
    && ((Participant.id p =? ChatEntry.participant_id message)%N || (Participant.id p =? recipient)%N)
    && accepts_inbox_from (Participant.social p)
         (if (Participant.id p =? recipient)%N then ChatEntry.participant_id message else recipient)) r.

(** The last section of one room's completion. *)
Definition inbox_section (room_id : string) (a : N) (message : chat_entry) (recipient : participant_id)
  (reactions : bool) (w : world) : world * unit :=
  let r := room_at w a in
  if draining w || negb (bool_decide (rooms w !! room_id = Some a)) || negb (concerns r message recipient) then (w, tt)
  else
    let r := r <| Room.social ::= fun s =>
      if reactions then reconcile_reactions message s else edit_message entry_bytes s message |> in
    let event := if reactions
                 then ServerMessage.MessageReactions (ChatEntry.message_id message) (ChatEntry.reactions message)
                 else ServerMessage.ChatMessageEdited message in
    (w <| heap ::= <[a := r]> |> <| the_wire ::= send_each (inbox_viewers r message recipient) event |>, tt).

Definition complete_inbox_update (message : chat_entry) (recipient : participant_id) (reactions : bool)
  (entry : string * N) : process unit :=
  let* present := atomically (fun w => (w, concerns (room_at w entry.2) message recipient)) in
  if negb present then Return tt
  else
    holding (ControlLock entry.2)
      (if reactions then
         if negb (has_database mgr) then Return tt
         else
           let* latest := ask (Chat (PrivateRow (ChatEntry.participant_id message) recipient (ChatEntry.message_id message))) in
           match latest with
           | Some (Ok (Some saved)) => atomically (inbox_section entry.1 entry.2 saved recipient reactions)
           | _ => Return tt
           end
       else atomically (inbox_section entry.1 entry.2 message recipient reactions)).

(** [schedule_inbox_update]: an owned task over the rooms there are now. *)
Definition schedule_inbox_update (message : chat_entry) (reactions : bool) : process unit :=
  match ChatEntry.recipient_id message with
  | None => Return tt
  | Some recipient =>
      let* all := atomically (fun w => (w, map_to_list (rooms w))) in
      Spawn (for_each (complete_inbox_update message recipient reactions) all) (Return tt)
  end.

(** ** The context of a social request *)

Definition reserve_social (command : client_message) (now : instant) : handler failure (room * wire) unit :=
  match social_budget_of command with
  | BudgetNone => hret tt
  | ChatBroadcast => reserve_chat now
  | AdminMutation => reserve_window Room.admin_mutations (fun v r => r <| Room.admin_mutations := v |>) now
                       (social_rate_limited "Room requests are rate limited")
  end.

Definition require_role (actual required : role) (S : Type) : handler failure S unit :=
  ensure (role_ge actual required) (social_forbidden "This action requires a room moderator").

(** What [handle_social_request_inner] has when it calls a handler: the room it
    holds, and who acts, over which connection, with what command. *)
Record social_request := SocialRequest {
  req_room : string; req_address : N; req_participant : participant_id; req_sender : sender;
  req_command : client_message }.

(** The dispatcher's section, in which the handler's first section runs. *)
Definition admitted {A} (q : social_request) (m : participant -> world -> handler failure (room * wire) A) : handled A :=
  reacquire (req_address q) (req_participant q) (req_sender q) (fun actor w =>
    (reserve_social (req_command q) (clock w) ;; m actor w)%handler).
Definition again {A} (q : social_request) (m : participant -> world -> handler failure (room * wire) A) : handled A :=
  reacquire (req_address q) (req_participant q) (req_sender q) m.

Definition page_offset (offset : option N) (S : Type) : handler failure S nat :=
  (ensure (default 0 offset <=? 10000)%N (social_invalid "Invalid page") ;; hret (N.to_nat (default 0%N offset)))%handler.

(** One page of at most 100, and whether there is more. *)
Definition paged {A} (l : list A) : list A * bool := (take PAGE_SIZE l, (PAGE_SIZE <? length l)%nat).
End requests.
