(* ===== verification/ChatTurns.v ===== *)
(** * Chat attempts, saved and unsaved

    An attempt that nothing saves is prepared and finished in one section of
    the room; one that is saved, or brings files, is prepared in a section,
    written to the database outside the room's lock, and finished in another.
    What holds of both: an accepted attempt reaches those it is for, and no
    sequence number of a membership is accepted twice. *)

From S2P Require Import Prelude Refusal Net Roles Window RateTable Labels Settings Protocol Moderation Wire Social Room Media Process World Chat ChatDelivery ChatRequests.

Section turns.
Context (mgr : manager) `{Unicode, Codec}.

(** The last section of a saved attempt, as [reacquire] runs it. *)
Definition finish_section (id : participant_id) (to : Wire.sender) (p : prepared_chat) : handler failure (room * wire) unit :=
  (let! r := get in
   ensure_live r ;;
   let! _ := hlift (participant_for_sender r id to) in
   finish_chat_attempt id to p)%handler.

Lemma finish_saved_section a id to p bytes :
  entry_bytes (PreparedChat.message p) = Some bytes ->
  finish_saved a id to p = locked a (fun _ => finish_section id to (p <| PreparedChat.receipt_bytes := bytes |>)).
Proof. intros Hb. unfold finish_saved. by rewrite Hb. Qed.

(** What the database leaves of a prepared attempt: it returns the message it
    saved, or describes the files of one it does not save. *)
Record completes (p p' : prepared_chat) : Prop := {
  co_recipient : PreparedChat.recipient p' = PreparedChat.recipient p;
  co_sequence : PreparedChat.sequence p' = PreparedChat.sequence p;
  co_message : PreparedChat.durable p' = true
    \/ (PreparedChat.durable p' = PreparedChat.durable p
        /\ exists files, PreparedChat.message p' = (PreparedChat.message p) <| ChatEntry.attachments := files |>)
}.

Lemma completes_unsaved p : ChatEntry.attachments (PreparedChat.message p) = [] -> completes p p.
Proof. intros Hf. split; [done..|]. right. split; [done|]. exists []. destruct p as [[]]; cbn in *. by rewrite Hf. Qed.

(** ** Who hears it *)

(** ** At most once *)

(** The connection a member is bound to. *)
Definition bound (id : participant_id) (r : room) : option Wire.sender := Participant.sender <$> Room.participants r !! id.

(** Is an attempt prepared and finished in one section? *)
Definition accepted (id : participant_id) (to : Wire.sender) (attempt : chat_attempt) (fresh : message_id)
  (saved : option chat_entry) (w : world) (s : room * wire) : bool :=
  match prepare_chat_attempt id to attempt fresh saved w s with
  | (s1, Ok (Some p)) => is_ok (finish_chat_attempt id to p s1).2
  | _ => false
  end.

Definition number (sequence : option N) : list N := match sequence with Some v => [v] | None => [] end.

(** The sections in which chat of one member runs. *)
Inductive chat_step (id : participant_id) (s : room * wire) : room * wire -> Prop :=
| step_unsaved to attempt fresh w : chat_step id s (process_chat_attempt id to attempt fresh w s).1
| step_turn to attempt fresh saved w : chat_step id s (chat_section mgr id to attempt fresh saved w s).1
| step_finish to p : chat_step id s (finish_section id to p s).1.

(** The attempt of a member that is being saved, and its connection: the room's
    control admits one at a time. *)
Abbreviation saving := (option (Wire.sender * prepared_chat)).

(** A connection serves one command after the other. *)
Definition idle (to : Wire.sender) (pending : saving) : Prop :=
  match pending with Some (c, _) => c <> to | None => True end.

(** The life of one membership: the sequence numbers of its accepted attempts,
    in the order in which they are accepted, and the attempt being saved, among
    the chat of other members and whatever else happens in the room that leaves
    the member's watermark alone.  A connection that lost the membership does
    not get it back while a command of it is outstanding. *)
Inductive life (id : participant_id) (s : room * wire) : list N -> saving -> room * wire -> Prop :=
| life_start : life id s [] None s
| life_unsaved vs pending s1 to attempt fresh w :
    life id s vs pending s1 -> idle to pending ->
    life id s (vs ++ if accepted id to attempt fresh None w s1 then number (attempt_sequence attempt) else []) pending
      (process_chat_attempt id to attempt fresh w s1).1
| life_turn vs s1 to attempt fresh saved w :
    life id s vs None s1 ->
    let out := chat_section mgr id to attempt fresh saved w s1 in
    life id s
      (vs ++ match out.2 with
             | Ok Answered => if accepted id to attempt fresh saved w s1 then number (attempt_sequence attempt) else []
             | _ => []
             end)
      (match out.2 with Ok (Pending p _) => Some (to, p) | _ => None end) out.1
| life_finish vs to p p' s1 :
    life id s vs (Some (to, p)) s1 -> completes p p' ->
    let out := finish_section id to p' s1 in
    life id s (vs ++ if is_ok out.2 then number (PreparedChat.sequence p) else []) None out.1
| life_unsavable vs to p s1 : life id s vs (Some (to, p)) s1 -> life id s vs None s1
| life_others vs pending s1 other s2 :
    life id s vs pending s1 -> other <> id -> chat_step other s1 s2 -> life id s vs pending s2
| life_rest vs pending s1 s2 :
    life id s vs pending s1 -> watermark id s2.1 = watermark id s1.1 ->
    (forall to p, pending = Some (to, p) -> bound id s2.1 = Some to -> bound id s1.1 = Some to) ->
    life id s vs pending s2.

(** What a finished attempt does to the member, and to others. *)
Lemma finished_member id to p s sender :
  is_ok (finish_chat_attempt id to p s).2 = true -> Room.participants s.1 !! id = Some sender ->
  bound id (finish_chat_attempt id to p s).1.1 = bound id s.1
  /\ watermark id (finish_chat_attempt id to p s).1.1
     = Some (default (ParticipantSocial.chat_high_water (Participant.social sender)) (PreparedChat.sequence p)).
Proof.
  intros Hok Hm. unfold bound, watermark. rewrite finish_people by done. unfold advance_watermark. rewrite Hm.
  destruct (PreparedChat.sequence p); cbn; by rewrite ?lookup_insert_eq, ?Hm.
Qed.

Lemma finish_other id other to p s :
  other <> id -> Room.participants (finish_chat_attempt other to p s).1.1 !! id = Room.participants s.1 !! id.
Proof.
  intros Hne. destruct (is_ok (finish_chat_attempt other to p s).2) eqn:Eok.
  - rewrite finish_people by done. unfold advance_watermark. destruct (PreparedChat.sequence p); [|done].
    destruct (Room.participants s.1 !! other); [|done]. cbn. by rewrite lookup_insert_ne.
  - by rewrite (si_people _ _ _ (finish_refused _ _ _ _ Eok)).
Qed.

(** Preparing changes nobody. *)
Lemma prepared_people id to attempt fresh saved w s s1 res :
  prepare_chat_attempt id to attempt fresh saved w s = (s1, res) -> Room.participants s1.1 = Room.participants s.1.
Proof. intros Hp. pose proof (prepare_quietly id to attempt fresh saved w s) as [Hpeople _ _]. by rewrite Hp in Hpeople. Qed.

(** The finishing section runs for the bound connection, or changes nobody. *)
Lemma finish_section_cases id to p s :
  (finish_section id to p s = finish_chat_attempt id to p s
   /\ exists sender, Room.participants s.1 !! id = Some sender /\ Participant.sender sender = to)
  \/ ((finish_section id to p s).1 = s /\ is_ok (finish_section id to p s).2 = false).
Proof.
  unfold finish_section, hbind, get, ensure_live, hlift. destruct (Room.deleting s.1); [by right|]. cbn [fst snd hret].
  destruct (participant_for_sender s.1 id to) as [sender|e] eqn:Hs; [|by right]. left. split; [done|].
  apply sender_ok in Hs as (_ & ? & ?). eauto.
Qed.

(** A section of the saved path pends, publishes or changes nobody. *)
Lemma chat_section_cases id to attempt fresh saved w s :
  let out := chat_section mgr id to attempt fresh saved w s in
  (exists p days, out.2 = Ok (Pending p days) /\ prepare_chat_attempt id to attempt fresh saved w s = (out.1, Ok (Some p)))
  \/ (out.2 = Ok Answered /\ accepted id to attempt fresh saved w s = true
      /\ exists s1 p, prepare_chat_attempt id to attempt fresh saved w s = (s1, Ok (Some p)) /\ out.1 = (finish_chat_attempt id to p s1).1)
  \/ (Room.participants out.1.1 = Room.participants s.1
      /\ match out.2 with Ok Answered => accepted id to attempt fresh saved w s = false | Ok _ => False | Err _ => True end).
Proof.
  cbv zeta. unfold accepted, chat_section, hbind. destruct (prepare_chat_attempt id to attempt fresh saved w s) as [s1 [[p|]|e]] eqn:Hp;
    pose proof (prepared_people _ _ _ _ _ _ _ _ _ Hp) as Hpeople; [|by right; right..].
  unfold get, need_database, ensure, hret, bail. cbn [fst snd]. destruct (PreparedChat.persist p).
  { destruct (has_database mgr); [left; by eexists _, _|by right; right]. }
  case_bool_decide; [|destruct (has_database mgr); [left; by eexists _, _|by right; right]].
  destruct (finish_chat_attempt id to p s1) as [s2 [u|e]] eqn:Hfin; cbn.
  - right; left. split_and!; [done..|]. exists s1, p. by rewrite Hfin.
  - right; right. split; [|done]. pose proof (finish_refused id to p s1) as Hsilent. rewrite Hfin in Hsilent.
    destruct (Hsilent eq_refl) as [Hsame _ _]. cbn in Hsame. by rewrite Hsame.
Qed.

Lemma step_other id other s s' : chat_step other s s' -> other <> id -> Room.participants s'.1 !! id = Room.participants s.1 !! id.
Proof.
  intros Hstep Hne. destruct Hstep as [to attempt fresh w|to attempt fresh saved w|to p].
  - unfold process_chat_attempt, hbind. destruct (prepare_chat_attempt other to attempt fresh None w s) as [s1 [[p|]|e]] eqn:Hp;
      rewrite <-(prepared_people _ _ _ _ _ _ _ _ _ Hp); [by apply finish_other|done..].
  - destruct (chat_section_cases other to attempt fresh saved w s) as [(p & days & _ & Hp)|[(_ & _ & s1 & p & Hp & ->)|[-> _]]]; [..|done].
    + by rewrite (prepared_people _ _ _ _ _ _ _ _ _ Hp).
    + rewrite <-(prepared_people _ _ _ _ _ _ _ _ _ Hp). by apply finish_other.
  - destruct (finish_section_cases other to p s) as [[-> _]|[-> _]]; [by apply finish_other|done].
Qed.

(** The watermark bounds what was accepted, and is below the attempt being
    saved for as long as its connection is bound. *)
Record covered (id : participant_id) (vs : list N) (pending : saving) (r : room) : Prop := {
  cv_sorted : StronglySorted N.lt vs;
  cv_bound : forall v, v ∈ vs -> exists h, watermark id r = Some h /\ (v <= h)%N;
  cv_pending : forall to p v, pending = Some (to, p) -> PreparedChat.sequence p = Some v -> bound id r = Some to ->
    exists h, watermark id r = Some h /\ (h < v)%N
}.

Lemma covered_same id vs pending r r' :
  Room.participants r' !! id = Room.participants r !! id -> covered id vs pending r -> covered id vs pending r'.
Proof. intros Hp [Cs Cb Cp]. split; unfold watermark, bound in *; rewrite ?Hp; done. Qed.

Lemma covered_idle id vs pending r : covered id vs pending r -> covered id vs None r.
Proof. intros [Cs Cb _]. by split. Qed.

(** An accepted attempt of the member, over the bound connection [to]. *)
Lemma covered_accepted id to vs pending r r' sender sequence :
  covered id vs pending r -> Room.participants r !! id = Some sender -> Participant.sender sender = to -> idle to pending ->
  (forall v, sequence = Some v -> exists h, watermark id r = Some h /\ (h < v)%N) ->
  bound id r' = bound id r ->
  watermark id r' = Some (default (ParticipantSocial.chat_high_water (Participant.social sender)) sequence) ->
  covered id (vs ++ number sequence) pending r'.
Proof.
  intros [Cs Cb Cp] Hm Hto Hidle Hnew Hb Hw.
  assert (watermark id r = Some (ParticipantSocial.chat_high_water (Participant.social sender))) as Hw0 by (unfold watermark; by rewrite Hm).
  split.
  - destruct sequence as [v|]; cbn; [|by rewrite app_nil_r]. apply StronglySorted_app_2; [|done|by repeat constructor].
    intros x y Hx ->%list_elem_of_singleton. destruct (Cb x Hx) as (h & Hh & ?), (Hnew v eq_refl) as (h' & Hh' & ?). simplify_eq. lia.
  - rewrite Hw. intros x [Hx|Hx]%elem_of_app; eexists; (split; [done|]).
    + destruct (Cb x Hx) as (h & Hh & ?). destruct sequence as [v|]; cbn; [|simplify_eq; lia].
      destruct (Hnew v eq_refl) as (h' & Hh' & ?). simplify_eq. lia.
    + destruct sequence as [v|]; cbn in *; [apply list_elem_of_singleton in Hx as ->; lia|by apply not_elem_of_nil in Hx].
  - intros c p v -> _. rewrite Hb. unfold bound. rewrite Hm. cbn. intros [= Hc]. by rewrite <-Hc, Hto in Hidle.
Qed.

(** One that was prepared and finished in one section. *)
Lemma covered_published id to attempt fresh saved w vs pending s s1 p :
  covered id vs pending s.1 -> idle to pending ->
  prepare_chat_attempt id to attempt fresh saved w s = (s1, Ok (Some p)) -> is_ok (finish_chat_attempt id to p s1).2 = true ->
  covered id (vs ++ number (attempt_sequence attempt)) pending (finish_chat_attempt id to p s1).1.1.
Proof.
  intros Hc Hidle Hp Hok. destruct (prepare_ok _ _ _ _ _ _ _ _ _ Hp) as (_ & _ & sender & R).
  pose proof (prepared_people _ _ _ _ _ _ _ _ _ Hp) as Hpeople. pose proof (rd_member _ _ _ _ _ _ _ _ R) as Hm.
  assert (Room.participants s1.1 !! id = Some sender) as Hm1 by by rewrite Hpeople.
  destruct (finished_member id to p s1 sender Hok Hm1) as [Hb Hw]. rewrite (rd_sequence _ _ _ _ _ _ _ _ R) in Hw.
  eapply (covered_accepted id to vs pending s.1); [done|done|apply R|done| |rewrite Hb; unfold bound; by rewrite Hm1, Hm|done].
  intros v Hv. eexists. split; [unfold watermark; by rewrite Hm|]. by apply (rd_new _ _ _ _ _ _ _ _ R).
Qed.

Lemma life_covered id s vs pending s' : life id s vs pending s' -> covered id vs pending s'.1.
Proof.
  induction 1 as [|vs pending s1 to attempt fresh w _ IH Hidle|vs s1 to attempt fresh saved w _ IH out|vs to p p' s1 _ IH Hco out
                  |vs to p s1 _ IH|vs pending s1 other s2 _ IH Hne Hstep|vs pending s1 s2 _ IH Hw Hb].
  - split; [constructor|by intros v ?%not_elem_of_nil|done].
  - unfold process_chat_attempt, accepted, hbind. destruct (prepare_chat_attempt id to attempt fresh None w s1) as [s2 [[p|]|e]] eqn:Hp.
    + destruct (is_ok _) eqn:Hok; [by eapply covered_published|]. rewrite app_nil_r. eapply covered_same; [|exact IH].
      by rewrite (si_people _ _ _ (finish_refused _ _ _ _ Hok)), (prepared_people _ _ _ _ _ _ _ _ _ Hp).
    + rewrite app_nil_r. eapply covered_same; [|exact IH]. cbn. by rewrite (prepared_people _ _ _ _ _ _ _ _ _ Hp).
    + rewrite app_nil_r. eapply covered_same; [|exact IH]. cbn. by rewrite (prepared_people _ _ _ _ _ _ _ _ _ Hp).
  - destruct (chat_section_cases id to attempt fresh saved w s1) as [(p & days & Hout & Hp)|[(Hout & Hacc & s2 & p & Hp & Hs)|[Hpeople Hout]]].
    + unfold out. rewrite Hout, app_nil_r. destruct (prepare_ok _ _ _ _ _ _ _ _ _ Hp) as (_ & _ & sender & R).
      pose proof (prepared_people _ _ _ _ _ _ _ _ _ Hp) as Hpeople. destruct IH as [Cs Cb _].
      split; [done|unfold watermark in *; by rewrite Hpeople|]. intros c p0 v [= <- <-] Hv _. unfold watermark. rewrite Hpeople.
      rewrite (rd_member _ _ _ _ _ _ _ _ R). eexists. split; [done|]. apply (rd_new _ _ _ _ _ _ _ _ R). by rewrite <-(rd_sequence _ _ _ _ _ _ _ _ R).
    + unfold out. rewrite Hout, Hacc, Hs. unfold accepted in Hacc. rewrite Hp in Hacc. by eapply covered_published.
    + assert (covered id vs None out.1.1) as Hc by (eapply covered_same; [|exact IH]; unfold out; by rewrite Hpeople).
      unfold out in *. destruct ((chat_section mgr id to attempt fresh saved w s1).2) as [[]|]; try done; rewrite ?Hout, app_nil_r; done.
  - destruct (finish_section_cases id to p' s1) as [[Hrun (sender & Hm & Hto)]|[Hs Hno]].
    + unfold out. rewrite Hrun. destruct (is_ok _) eqn:Hok.
      * destruct (finished_member id to p' s1 sender Hok Hm) as [Hb Hw]. rewrite (co_sequence _ _ Hco) in Hw.
        eapply (covered_accepted id to vs None s1.1); [by eapply covered_idle|done|done|done| |done|done].
        intros v Hv. apply (cv_pending _ _ _ _ IH to p v); [done|done|]. unfold bound. by rewrite Hm, <-Hto.
      * rewrite app_nil_r. eapply covered_idle, covered_same; [|exact IH]. by rewrite (si_people _ _ _ (finish_refused _ _ _ _ Hok)).
    + unfold out. rewrite Hs, Hno, app_nil_r. by eapply covered_idle.
  - by eapply covered_idle.
  - eapply covered_same; [|exact IH]. by eapply step_other.
  - destruct IH as [Cs Cb Cp]. split; [done|by rewrite Hw|]. intros c p v Hpend Hv Hbound. rewrite Hw. eauto.
Qed.

(** C11: no sequence number of a membership is accepted twice.  Whatever
    numbered chat is sent, repeated and retried, saved in the database or not,
    with files or without, by this member and by others, and whatever becomes
    of receipts and history in between, the sequence numbers of the attempts
    that are accepted strictly increase.  As in the server, one attempt is saved
    at a time in a room, a connection serves its commands one after the other,
    and a connection that lost the membership while an attempt of it was being
    saved does not get it back. *)
Theorem chat_is_accepted_at_most_once id s vs pending s' : life id s vs pending s' -> StronglySorted N.lt vs /\ NoDup vs.
Proof.
  intros Hl. pose proof (cv_sorted _ _ _ _ (life_covered _ _ _ _ _ Hl)) as Hs. split; [done|]. clear Hl.
  induction Hs as [|v vs _ IH Hv]; constructor; [|done]. intros Hin. rewrite Forall_forall in Hv. specialize (Hv v Hin). lia.
Qed.
End turns.

(** ** Two talk talking *)

Definition turn_manager : manager := Manager false None None 10 10 100 100 true.

(** Ann says hello, and then something to Bob alone; both are signed in, so
    that it is saved. *)
Definition whispering : (room * wire) * result failure chat_turn :=
  chat_section (H := ascii_unicode) (H0 := sample_codec) turn_manager 1 10 (say "psst" (Some 2%N) 2 None) 101 None (talk_world 1) after_hello.
Definition whispered (p : prepared_chat) : prepared_chat := p <| PreparedChat.durable := true |>.

Lemma whispered_completes p : completes p (whispered p).
Proof. split; [done..|by left]. Qed.

(** Bob is told, and a repetition of the hello is not accepted. *)
Lemma chat_is_accepted_at_most_once_witness : NoDup [1; 2]%N.
Proof.
  pose proof (life_unsaved (H := ascii_unicode) (H0 := sample_codec) turn_manager 1 talk [] None talk 10 (say "hello" None 1 None) 100 (talk_world 0)
    (life_start turn_manager 1 talk) I) as H1. fold after_hello in H1.
  pose proof (life_turn (H := ascii_unicode) (H0 := sample_codec) turn_manager 1 talk _ after_hello 10 (say "psst" (Some 2%N) 2 None) 101 None (talk_world 1) H1) as H2.
  cbv zeta in H2. fold whispering in H2. destruct whispering as [s2 [[| |p days]|]] eqn:E; [vm_compute in E; discriminate E..| |vm_compute in E; discriminate E].
  cbn [fst snd] in H2. pose proof (life_finish (H := ascii_unicode) (H0 := sample_codec) turn_manager 1 talk _ 10 p (whispered p) s2 H2 (whispered_completes p)) as H3.
  cbv zeta in H3. pose proof (life_unsaved (H := ascii_unicode) (H0 := sample_codec) turn_manager 1 talk _ None _ 10 (say "hello" None 1 (Some "one")) 102
    (talk_world 5) H3 I) as H4.
  destruct (chat_is_accepted_at_most_once (H := ascii_unicode) (H0 := sample_codec) turn_manager _ _ _ _ _ H4) as [_ Hn].
  vm_compute in E. injection E as <- <- <-. match type of Hn with NoDup ?vs => assert (vs = [1; 2]%N) as Hvs by (vm_compute; reflexivity) end.
  rewrite Hvs in Hn. exact Hn.
Defined.

