(* ===== verification/SocialRequests.v ===== *)
(** * Social requests ([src/src/room/social/], the dispatcher of
      [src/src/room/social.rs])

    Preferences, history, edits, pins, removals, reactions, bans, members,
    reports and the moderation log, each a handler of its own, and the
    dispatcher that admits a request under the room's control. *)

From stdpp Require Import pretty.
From S2P Require Import Prelude Refusal Net Roles Window Labels Settings Protocol Moderation Wire Social Room Media Publication Process World Chat ChatEvents ModerationOps ChatRequests.

Open Scope process_scope.

Definition alter_member (id : participant_id) (f : participant -> participant) (r : room) : room :=
  r <| Room.participants ::= alter f id |>.
Definition alter_social (id : participant_id) (f : participant_social -> participant_social) (r : room) : room :=
  alter_member id (fun p => p <| Participant.social ::= f |>) r.

(** The actor's current entry; admission has found it under this lock. *)
Definition actor_of (r : room) (id : participant_id) : result failure participant :=
  ok_or (Room.participants r !! id) (social_not_found "Participant not found").

Section requests.
Context (mgr : manager) `{Unicode, Codec}.

(** ** Preferences ([preferences.rs]) *)

Definition preferences_response (id : participant_id) : handler failure (room * wire) SocialResponse.social_response :=
  (let! r := get in
   let! actor := hlift (actor_of r id) in
   hret (SocialResponse.SetChatPreferences (ParticipantSocial.allow_private_messages (Participant.social actor))
           (elements (ParticipantSocial.ignored (Participant.social actor)))))%handler.

(** The guests among the ignored: those present as guests, or ignored as such
    before. *)
Definition ignored_guests (r : room) (actor : participant) (ids : list participant_id) : gset participant_id :=
  list_to_set (filter (fun id =>
    is_some_and (Room.participants r !! id) (fun p => negb (Participant.authenticated p))
    || bool_decide (id ∈ ParticipantSocial.guest_ignored (Participant.social actor)) = true) ids).

Definition set_chat_preferences (q : social_request) (allow : bool) (ids : list participant_id)
  : handled SocialResponse.social_response :=
  let id := req_participant q in
  let? first := admitted q (fun actor w =>
    (ensure (negb ((MAX_IGNORED <? length ids)%nat || bool_decide (id ∈ ids)))
       (social_invalid "Choose at most 100 valid participant identities to ignore") ;;
     if Participant.authenticated actor then
       need_database mgr (social_unavailable "Account preferences unavailable") ;; hret None
     else
       set_room (alter_social id (fun s => s <| ParticipantSocial.allow_private_messages := allow |>
                                             <| ParticipantSocial.ignored := list_to_set ids |>)) ;;
       let! response := preferences_response id in hret (Some response))%handler) in
  match first with
  | Some response => Return (Ok response)
  | None =>
      let* loaded := ask (LoadPreferences id) in
      match loaded with
      | None => Return (Err (social_timed_out "Account preferences timed out"))
      | Some (Err e) => Return (Err (OfRoomError e))
      | Some (Ok prefs) =>
          again q (fun actor _ =>
            (let! r := get in
             set_room (alter_social id (fun s =>
               apply_account_preferences (s <| ParticipantSocial.guest_ignored := ignored_guests r actor ids |>) prefs)) ;;
             preferences_response id)%handler)
      end
  end.

(** The message has double quotation marks around the reserved name. *)
Definition nickname_section (id : participant_id) (nickname : text)
  : handler failure (room * wire) SocialResponse.social_response :=
  (let nickname := trim nickname in
   ensure (negb (bool_decide (nickname = []) || (64 <? text_len nickname)%N || negb (is_plain nickname)
                 || is_reserved_name nickname))
     (social_invalid "Nickname must be 1–64 bytes of plain text; 'You' is taken") ;;
   let! r := get in
   ensure (negb (name_in_use r nickname (Some id))) (social_invalid "That name is already in use in this room") ;;
   set_room (alter_member id (fun p => p <| Participant.name := nickname |>)) ;;
   send (fun r => broadcast_all r (ServerMessage.NicknameChanged id nickname)) ;;
   hret (SocialResponse.ChangeNickname nickname))%handler.

Definition change_nickname (q : social_request) (nickname : text) : handled SocialResponse.social_response :=
  admitted q (fun _ _ => nickname_section (req_participant q) nickname).

Definition publish_style (id : participant_id) (style : chat_style) : handler failure (room * wire) SocialResponse.social_response :=
  (set_room (alter_member id (fun p => p <| Participant.chat_style := style |>)) ;;
   send (fun r => broadcast_all r (ServerMessage.ChatStyleChanged id style)) ;;
   hret (SocialResponse.SetChatStyle style))%handler.

Definition set_chat_style (q : social_request) (style : chat_style) : handled SocialResponse.social_response :=
  let id := req_participant q in
  let? first := admitted q (fun actor _ =>
    (let! style := hlift (ok_or (validated style) (social_invalid "Choose a chat color from the palette")) in
     if Participant.authenticated actor && has_database mgr then hret (inl style)
     else let! response := publish_style id style in hret (inr response))%handler) in
  match first with
  | inr response => Return (Ok response)
  | inl style =>
      let* saved := ask (Chat (SaveStyle id style)) in
      match saved with
      | Some (Ok _) => again q (fun _ _ => publish_style id style)
      | _ => Return (Err (social_failed "Your chat look could not be saved"))
      end
  end.

(** ** History ([chat_history.rs]) *)

(** [HistoryQuery::validate]; [read_cursor] decodes base64, date and
    identifier. *)
Definition cursor_ok (c : option string) : bool :=
  match c with
  | None => true
  | Some value => (String.length value <=? 160)%nat && bool_decide (is_Some (read_cursor value))
  end.
Definition resumes (query : history_query) : bool := bool_decide (query_resume query = Some true).

Definition validate_query (query : history_query) : result failure unit :=
  let given {A} (o : option A) : nat := match o with Some _ => 1%nat | None => 0%nat end in
  let modes := (given (query_before query) + given (query_after query) + given (query_around query)
                + (if resumes query then 1 else 0))%nat in
  if negb (cursor_ok (query_before query)) || negb (cursor_ok (query_after query))
  then Err (social_invalid "Invalid history cursor")
  else if (1 <? modes)%nat
          || (bool_decide (is_Some (query_q query))
              && (bool_decide (is_Some (query_after query)) || bool_decide (is_Some (query_around query)) || resumes query))
  then Err (social_invalid "Choose one history position")
  else if is_some_and (query_limit query) (fun limit => negb (in_range 1 50 limit))
  then Err (social_invalid "History pages contain 1–50 messages")
  else if is_some_and (query_q query) (fun text =>
            let text := trim text in
            negb (in_range 3 128 (N.of_nat (length text))) || existsb is_control text)
  then Err (social_invalid "Search must contain 3–128 plain characters")
  else Ok tt.

Definition retention_days (r : room) : Z := from_option RoomSettings.history_retention_days 0%Z (Room.settings r).

Definition chat_history (q : social_request) (query : history_query) : handled SocialResponse.social_response :=
  let id := req_participant q in
  let? first := admitted q (fun actor _ =>
    (let! r := get in
     hlift (validate_query query) ;;
     if (retention_days r =? 0)%Z || negb (Room.persisted r) then hret None
     else
       need_database mgr (social_unavailable "History unavailable") ;;
       hret (Some (if Participant.authenticated actor then Some id else None, retention_days r)))%handler) in
  match first with
  | None => Return (Ok (SocialResponse.GetChatHistory (HistoryPage [] None None None None 0)))
  | Some (account, days) =>
      ask_chat (LoadPage (req_room q) account days query) (social_timed_out "History request timed out") (fun page =>
        again q (fun actor _ =>
          hret (SocialResponse.GetChatHistory
            (HistoryPage (filter (fun m => ignores actor (ChatEntry.participant_id m) = false) (history_messages page))
               (next_cursor page) (newer_cursor page) (first_unread_message_id page) (page_read_message_id page)
               (page_retention_days page)))))
  end.

Definition mark_chat_read (q : social_request) (message : message_id) : handled SocialResponse.social_response :=
  let id := req_participant q in
  let? _ := admitted q (fun actor _ =>
    (let! r := get in
     ensure (Participant.authenticated actor && keeps_history r) (social_unavailable "Saved room history is unavailable") ;;
     need_database mgr (social_unavailable "History unavailable"))%handler) in
  let* read := ask (Chat (MarkRead (req_room q) id message)) in
  match read with
  | None => Return (Err (social_failed "Read marker could not be saved"))
  | Some (Err (Database RowNotFound)) => Return (Err (social_unavailable "Message unavailable"))
  | Some (Err e) => Return (Err (OfRoomError e))
  | Some (Ok read) => again q (fun _ _ => hret (SocialResponse.MarkChatRead (Some read)))
  end.

Definition publish_retention (days : Z) : handler failure (room * wire) SocialResponse.social_response :=
  (let! r := get in
   match Room.settings r with
   | None => bail (social_unavailable "Room settings unavailable")
   | Some settings =>
       let settings := settings <| RoomSettings.history_retention_days := days |> in
       set_room (fun r => r <| Room.settings := Some settings |>) ;;
       send (fun r => broadcast_all r (ServerMessage.RoomSettingsChanged settings)) ;;
       (if (days =? 0)%Z then set_room (fun r => r <| Room.social ::= fun s => s <| RoomSocial.pins := [] |> |>) else hret tt) ;;
       send publish_pins ;;
       hret (SocialResponse.SetRoomHistory days)
   end)%handler.

Definition set_room_history (q : social_request) (days : Z) : handled SocialResponse.social_response :=
  let? _ := admitted q (fun actor _ =>
    (require_role (Participant.role actor) Owner _ ;;
     let! r := get in
     ensure (Room.persisted r) (social_forbidden "Only saved rooms can keep chat history") ;;
     ensure (bool_decide (days ∈ ROOM_HISTORY_RETENTION_DAYS)) (social_invalid "Choose off, 1, 7, 30 or 90 days") ;;
     need_database mgr (social_unavailable "History unavailable"))%handler) in
  persisting (req_room q) (req_address q) (SetRetention (req_room q) days) OfRoomError (fun _ =>
    again q (fun _ _ => publish_retention days)).

(** ** Edits *)

(** Whether the edit is saved first; an edit that is not is published here. *)
Definition decide_edit (q : social_request) (authenticated keeps : bool) (edit : edit_request) (edited : option chat_entry)
  (w : world) : handler failure (room * wire) (chat_entry + chat_entry) :=
  (match edited with
   | None => bail (social_unavailable "Message unavailable")
   | Some m =>
       ensure (ChatEntry.participant_id m =? req_participant q)%N (social_forbidden "Only the author can edit this message") ;;
       let! r := get in
       let durable := has_database mgr
         && match ChatEntry.recipient_id m with
            | Some peer => authenticated && is_some_and (Room.participants r !! peer) Participant.authenticated
            | None => keeps
            end in
       if durable then hret (inl m)
       else
         let! m := hlift (match apply_edit (wall w) m edit with Ok m => Ok m | Err e => Err (social_invalid e) end) in
         publish_edit m ;; hret (inr m)
   end)%handler.

Definition edited_response (m : chat_entry) : handled SocialResponse.social_response :=
  let* _ := schedule_inbox_update mgr m false in Return (Ok (SocialResponse.EditChatMessage m)).

Definition commit_edit (q : social_request) (guest_session : option N) (edit : edit_request)
  (decision : chat_entry + chat_entry) : handled SocialResponse.social_response :=
  match decision with
  | inr m => edited_response m
  | inl m =>
      persisting_chat (req_room q) (req_address q)
        (EditSaved (req_room q) (req_participant q) guest_session m (edit_content edit) (expected_revision edit)) refused_or
        (fun m => let? _ := again q (fun _ _ => publish_edit m) in edited_response m)
  end.

(** The first section: what the rest of the request needs, and the decision
    unless the message has to be looked up first. *)
Definition edit_section (q : social_request) (message : message_id) (edit : edit_request) (actor : participant) (w : world)
  : handler failure (room * wire) (option N * bool * bool * option (chat_entry + chat_entry)) :=
  (let! r := get in
   let! edited := hlift (prepare_edit r actor message edit (wall w)) in
   let guest_session := if Participant.authenticated actor then None else Some (Participant.media_session_id actor) in
   let authenticated := Participant.authenticated actor in
   let keeps := keeps_history r in
   if bool_decide (edited = None) && keeps then
     need_database mgr (social_unavailable "History unavailable") ;; hret (guest_session, authenticated, keeps, None)
   else
     let! decision := decide_edit q authenticated keeps edit edited w in
     hret (guest_session, authenticated, keeps, Some decision))%handler.

Definition edit_chat_message (q : social_request) (message : message_id) (edit : edit_request)
  : handled SocialResponse.social_response :=
  let? '(guest_session, authenticated, keeps, decision) := admitted q (edit_section q message edit) in
  match decision with
  | Some decision => commit_edit q guest_session edit decision
  | None =>
      ask_chat (LookupPublic (req_room q) message) (social_timed_out "History request timed out") (fun found =>
        let? decision := again q (fun _ w => decide_edit q authenticated keeps edit (fst <$> found) w) in
        commit_edit q guest_session edit decision)
  end.

(** ** Pins *)

Definition is_public (m : chat_entry) : Prop := ChatEntry.recipient_id m = None.
#[local] Instance is_public_dec m : Decision (is_public m) := decide (_ = None).

(** A change to the pins of a room that saves no chat. *)
Definition pin_locally (message : message_id) (pinned : bool) : handler failure (room * wire) unit :=
  (let! r := get in
   let pins := RoomSocial.pins (Room.social r) in
   if pinned && negb (existsb (fun m => ChatEntry.message_id m =? message)%N pins) then
     ensure (length pins <? 3)%nat (social_forbidden "Unpin a message before pinning another; rooms keep up to three") ;;
     match list_find (fun e => entry_is message e /\ is_public (HistoryEntry.message e)
                               /\ ChatEntry.removed_at (HistoryEntry.message e) = None) (RoomSocial.history (Room.social r)) with
     | None => bail (social_unavailable "Public message unavailable")
     | Some (_, e) => set_room (fun r => r <| Room.social ::= fun s =>
                        s <| RoomSocial.pins := HistoryEntry.message e :: pins |> |>)
     end
   else if negb pinned then
     set_room (fun r => r <| Room.social ::= fun s =>
       s <| RoomSocial.pins := filter (fun m => ChatEntry.message_id m <> message) pins |> |>)
   else hret tt)%handler.

(** Publish a change; what the actor sees of the pins. *)
Definition pins_response (q : social_request) (changed : bool) : handler failure (room * wire) SocialResponse.social_response :=
  ((if changed then send publish_pins else hret tt) ;;
   let! r := get in
   let! actor := hlift (participant_for_sender r (req_participant q) (req_sender q)) in
   hret (if changed then SocialResponse.SetPinnedMessage (pins_for r actor)
         else SocialResponse.GetPinnedMessages (pins_for r actor)))%handler.

Definition pinned_messages (q : social_request) (change : option (message_id * bool)) : handled SocialResponse.social_response :=
  let changed := bool_decide (is_Some change) in
  let? first := admitted q (fun actor _ =>
    ((if changed then require_role (Participant.role actor) Moderator _ else hret tt) ;;
     let! r := get in
     if keeps_history r then need_database mgr (social_unavailable "History unavailable") ;; hret None
     else
       (match change with Some (message, pinned) => pin_locally message pinned | None => hret tt end) ;;
       let! response := pins_response q changed in hret (Some response))%handler) in
  let load :=
    ask_chat (LoadPins (req_room q)) (social_timed_out "Pinned messages request timed out") (fun pins =>
      again q (fun _ _ =>
        (set_room (fun r => r <| Room.social ::= fun s => s <| RoomSocial.pins := pins |> |>) ;;
         pins_response q changed)%handler)) in
  match first, change with
  | Some response, _ => Return (Ok response)
  | None, Some (message, pinned) =>
      persisting (req_room q) (req_address q) (SetPin (req_room q) message pinned) refused_or (fun _ => load)
  | None, None => load
  end.

(** ** Removal *)

Definition publish_removal_of (message : message_id) (removed_at : timestamp)
  : handler failure (room * wire) SocialResponse.social_response :=
  (set_room (fun r => r <| Room.social ::= fun s => remove_message entry_bytes s message removed_at |>) ;;
   send (fun r => broadcast_all r (ServerMessage.ChatMessageRemoved message removed_at)) ;;
   send publish_pins ;;
   hret (SocialResponse.RemoveChatMessage message removed_at))%handler.

(** What is to be saved before a removal is published; a removal that saves
    nothing is published here. *)
Definition decide_removal (q : social_request) (message : message_id) (actor_name : text) (persisted : bool) (event_id : N)
  (original : option (chat_entry * bool)) (w : world)
  : handler failure (room * wire) (timestamp * moderation_event + SocialResponse.social_response) :=
  (match original with
   | None => bail (social_not_found "Message not found")
   | Some (m, authenticated) =>
       match ChatEntry.removed_at m with
       | Some removed_at => let! response := publish_removal_of message removed_at in hret (inr response)
       | None =>
           let event := event_new event_id (wall w) ActMessageRemoved (req_participant q) actor_name
                          (TargetParticipant (ChatEntry.participant_id m)) (ChatEntry.participant_name m) authenticated None
                          (Some (text_of (String.append "Message " (pretty message)))) None None in
           if persisted then
             need_database mgr (social_unavailable "Moderation unavailable") ;; hret (inl (wall w, event))
           else if has_database mgr then hret (inl (wall w, event))
           else
             set_room (fun r => r <| Room.social ::= fun s => record_moderation_event s event |>) ;;
             let! response := publish_removal_of message (wall w) in hret (inr response)
       end
   end)%handler.

Definition commit_removal (q : social_request) (message : message_id) (persisted keeps : bool)
  (decision : timestamp * moderation_event + SocialResponse.social_response) : handled SocialResponse.social_response :=
  match decision with
  | inr response => Return (Ok response)
  | inl (removed_at, event) =>
      if persisted then
        persisting (req_room q) (req_address q) (RemoveSavedMessage (req_room q) message removed_at keeps event) OfRoomError
          (fun _ => again q (fun _ _ => publish_removal_of message removed_at))
      else
        persisting (req_room q) (req_address q) (DeleteEphemeralFiles (req_room q) message) OfRoomError
          (fun _ => again q (fun _ _ =>
             (set_room (fun r => r <| Room.social ::= fun s => record_moderation_event s event |>) ;;
              publish_removal_of message removed_at)%handler))
  end.

Definition remove_chat_message (q : social_request) (message : message_id) : handled SocialResponse.social_response :=
  let* event_id := new_uuid in
  let? '(name, persisted, keeps, decision) := admitted q (fun actor w =>
    (require_role (Participant.role actor) Moderator _ ;;
     let! r := get in
     let name := Participant.name actor in
     let persisted := Room.persisted r in
     let keeps := (0 <? retention_days r)%Z in
     let original := (fun '(_, e) => (HistoryEntry.message e, HistoryEntry.sender_authenticated e))
       <$> list_find (fun e => entry_is message e /\ is_public (HistoryEntry.message e)) (RoomSocial.history (Room.social r)) in
     if bool_decide (original = None) && persisted && keeps then
       need_database mgr (social_unavailable "Chat history unavailable") ;; hret (name, persisted, keeps, None)
     else
       let! decision := decide_removal q message name persisted event_id original w in
       hret (name, persisted, keeps, Some decision))%handler) in
  match decision with
  | Some decision => commit_removal q message persisted keeps decision
  | None =>
      ask_chat (LookupPublic (req_room q) message) (social_timed_out "Chat history timed out") (fun found =>
        let? decision := again q (fun _ w => decide_removal q message name persisted event_id found w) in
        commit_removal q message persisted keeps decision)
  end.

(** ** Reactions *)

Definition react_to_message (q : social_request) (message : message_id) (e : text) : handled SocialResponse.social_response :=
  let id := req_participant q in
  let publish reactions : handler failure (room * wire) SocialResponse.social_response :=
    (let! reactions := publish_reaction message reactions in hret (SocialResponse.ReactToMessage message reactions))%handler in
  let? first := admitted q (fun actor _ =>
    (let! r := get in
     let saved_public := keeps_history r
       && match find_entry message (Room.social r) with
          | Some (_, h) => bool_decide (is_public (HistoryEntry.message h))
          | None => true
          end in
     if saved_public then
       need_database mgr (social_unavailable "History unavailable") ;;
       hret (inl (elements (ParticipantSocial.ignored (Participant.social actor))))
     else
       let! reactions := hlift (prepare_reaction r id message e) in
       if has_database mgr then hret (inr (inl reactions))
       else let! response := publish reactions in hret (inr (inr response)))%handler) in
  match first with
  | inr (inr response) => Return (Ok response)
  | inr (inl reactions) =>
      persisting (req_room q) (req_address q) (SaveReactions message reactions) OfRoomError
        (fun _ => again q (fun _ _ => publish reactions))
  | inl ignored =>
      persisting_chat (req_room q) (req_address q) (ReactPublic (req_room q) message id ignored e) refused_or (fun saved =>
        again q (fun _ _ =>
          match saved with
          | Some m =>
              (publish_saved_reaction m ;; hret (SocialResponse.ReactToMessage message (ChatEntry.reactions m)))%handler
          | None => (let! r := get in let! reactions := hlift (prepare_reaction r id message e) in publish reactions)%handler
          end))
  end.
End requests.
