(* ===== verification/RoomRequests.v ===== *)
(** * Bans, members, reports and the dispatcher of social requests
      ([src/src/room/social/members.rs], [src/src/room/social/reports.rs],
      [handle_social_request] of [src/src/room/social.rs])

    The lists moderators page through, the decisions they take on them, and
    the dispatcher that admits every social request under the room's control
    and answers it over the connection it came from. *)

From stdpp Require Import pretty sorting.
From S2P Require Import Prelude Refusal Net Roles Window Labels Settings Protocol Moderation Wire Social Room Media Publication Process World Chat ChatEvents ModerationOps ChatRequests SocialRequests.

Open Scope process_scope.

(** Strings compare by bytes, which orders them by code points. *)
Fixpoint text_compare (a b : text) : comparison :=
  match a, b with
  | [], [] => Eq
  | [], _ => Lt
  | _, [] => Gt
  | c :: a, d :: b => match (c ?= d)%N with Eq => text_compare a b | order => order end
  end.

(** The order of the roster: by name, then by account. *)
Definition member_before (a b : member_entry) : Prop :=
  match text_compare (member_display_name a) (member_display_name b) with
  | Lt => True
  | Gt => False
  | Eq => (member_user_id a <= member_user_id b)%N
  end.
#[local] Instance member_before_dec a b : Decision (member_before a b).
Proof. unfold member_before. destruct (text_compare _ _); apply _. Defined.

Definition ban_before (a b : ban_entry) : Prop := String.leb (ban_id a) (ban_id b) = true.
#[local] Instance ban_before_dec a b : Decision (ban_before a b) := decide (_ = true).

(** [skip(offset).take(PAGE_SIZE + 1)]. *)
Definition window_of {A} (offset : nat) (l : list A) : list A := take (S PAGE_SIZE) (drop offset l).

Section requests.
Context (mgr : manager) `{Unicode, Codec}.

(** A list that a saved room reads from the database and another room computes
    from its own state. *)
Definition list_request {A} (q : social_request) (required : role) (offset : option N) (unavailable : string)
  (load : nat -> chat_query) (convert : forall offset, chat_reply (load offset) -> room -> participant -> list A)
  (late : string) (own : nat -> participant -> world -> handler failure (room * wire) (list A))
  (answer : list A -> bool -> SocialResponse.social_response) : handled SocialResponse.social_response :=
  let respond entries := let '(entries, has_more) := paged entries in answer entries has_more in
  let? first := admitted q (fun actor w =>
    (require_role (Participant.role actor) required _ ;;
     let! offset := page_offset offset _ in
     let! r := get in
     if Room.persisted r then
       need_database mgr (social_unavailable unavailable) ;; hret (inl (offset, actor))
     else let! entries := own offset actor w in hret (inr (respond entries)))%handler) in
  match first with
  | inr response => Return (Ok response)
  | inl (offset, actor) =>
      ask_chat (load offset) (social_timed_out late) (fun rows =>
        again q (fun _ _ => (let! r := get in hret (respond (convert offset rows r actor)))%handler))
  end.

(** ** Bans and members ([members.rs]) *)

Definition sorted_bans (s : room_social) : list ban_entry :=
  merge_sort ban_before
    ((fun b => runtime_entry b.2) <$> map_to_list (RoomSocial.bans s)).

Definition list_room_bans (q : social_request) (offset : option N) : handled SocialResponse.social_response :=
  list_request q Admin offset "Ban service unavailable"
    (fun offset => LoadBans (req_room q) (N.of_nat offset) (N.of_nat (S PAGE_SIZE))) (fun _ bans _ _ => bans)
    "Ban service timed out"
    (fun offset _ w =>
      (set_room (fun r => r <| Room.social ::= fun s =>
         s <| RoomSocial.bans ::= filter (fun b => unexpired (clock w) (ban_expiry b.2) = true) |> |>) ;;
       let! r := get in hret (window_of offset (sorted_bans (Room.social r))))%handler)
    SocialResponse.ListRoomBans.

(** [bans.remove(ban_id)]. *)
Definition take_ban (id : string) (s : room_social) : option (room_social * runtime_ban) :=
  '(_, (key, ban)) ← list_find (fun b : N * runtime_ban => ban_id (runtime_entry b.2) = id) (map_to_list (RoomSocial.bans s));
  Some (s <| RoomSocial.bans ::= delete key |>, ban).

Definition remove_local_ban (q : social_request) (actor : participant) (id : string) (event_id : N) (w : world)
  : handler failure (room * wire) unit :=
  (let! r := get in
   match take_ban id (Room.social r) with
   | None => bail (social_not_found "Ban not found")
   | Some (social, ban) =>
       let target := if ban_authenticated (runtime_entry ban) then head (ban_participant_ids ban) else None in
       let event := event_new event_id (wall w) ActUnban (req_participant q) (Participant.name actor)
                      (match target with Some id => TargetParticipant id | None => TargetBan id end)
                      (ban_display_name (runtime_entry ban)) (ban_authenticated (runtime_entry ban)) (ban_guest_ip ban)
                      None None None in
       set_room (fun r => r <| Room.social := record_moderation_event social event |>) ;;
       set_room (publish_unban target (ban_guest_ip ban) (ban_participant_ids ban))
   end)%handler.

Definition remove_room_ban (q : social_request) (id : string) : handled SocialResponse.social_response :=
  let* event_id := new_uuid in
  let? first := admitted q (fun actor w =>
    (require_role (Participant.role actor) Admin _ ;;
     let! key := hlift (ok_or (parse_uuid id) (social_invalid "Invalid ban")) in
     let! r := get in
     if Room.persisted r then
       need_database mgr (social_unavailable "Ban service unavailable") ;; hret (Some (key, Participant.name actor))
     else remove_local_ban q actor id event_id w ;; hret None)%handler) in
  match first with
  | None => Return (Ok (SocialResponse.RemoveRoomBan true))
  | Some (key, name) =>
      persisting_chat (req_room q) (req_address q) (RemoveBan (req_room q) key (req_participant q) name) OfRoomError
        (fun removed => again q (fun _ _ =>
          match removed with
          | None => bail (social_not_found "Ban not found")
          | Some (user, ip) =>
              (set_room (publish_unban user (match user with None => ip | Some _ => None end) []) ;;
               hret (SocialResponse.RemoveRoomBan true))%handler
          end))
  end.

Definition own_members (r : room) : list member_entry :=
  merge_sort member_before
    ((fun p => MemberEntry (Participant.id p) (Participant.name p) (Participant.role p) true (Participant.authenticated p))
     <$> members r).

Definition list_room_members (q : social_request) (offset : option N) : handled SocialResponse.social_response :=
  list_request q Moderator offset "Member service unavailable"
    (fun offset => LoadMembers (req_room q) (N.of_nat offset))
    (fun _ rows r _ => (fun '(id, name, role) =>
       MemberEntry id name role (bool_decide (is_Some (Room.participants r !! id))) true) <$> rows)
    "Member service timed out"
    (fun offset _ _ => (let! r := get in hret (window_of offset (own_members r)))%handler)
    SocialResponse.ListRoomMembers.

(** The offline role path. *)
Definition set_member_role (q : social_request) (target : user_id) (new_role : role) : handled SocialResponse.social_response :=
  let? actor_role := admitted q (fun actor _ =>
    (require_role (Participant.role actor) Moderator _ ;;
     let! r := get in
     ensure (Room.persisted r && Participant.authenticated actor) (social_forbidden "Offline roles require a persistent room") ;;
     ensure (role_ge new_role User) (social_forbidden "Registered accounts require at least the user role") ;;
     need_database mgr (social_unavailable "Member service unavailable") ;;
     hret (Participant.role actor))%handler) in
  ask_chat (CurrentRole (req_room q) target) (social_timed_out "Member service timed out") (fun current =>
    match current with
    | None => Return (Err (social_not_found "Room member not found"))
    | Some current =>
        if negb (can_set_role actor_role current new_role)
        then Return (Err (social_forbidden "Insufficient role permissions"))
        else persisting (req_room q) (req_address q) (SaveRole (req_room q) target new_role (req_participant q)) OfRoomError
               (fun _ => again q (fun _ _ =>
                  (set_room bump_policy ;; hret (SocialResponse.SetMemberRole true))%handler))
    end).

(** ** Reports and the moderation log ([reports.rs]) *)

Definition reporter_key (p : participant) : reporter :=
  if Participant.authenticated p then ReporterUser (Participant.id p)
  else match Participant.ip p with
       | Some ip => ReporterIp ip
       | None => ReporterSession (Participant.id p)
       end.

(** A full list makes room by dropping its first closed report. *)
Definition make_report_room (reports : list report_entry) : option (list report_entry) :=
  if (MAX_REPORTS <=? length reports)%nat then
    '(i, _) ← list_find (fun r => report_status_of r <> ReportOpen) reports; Some (delete i reports)
  else Some reports.

Definition report_response (report : report_entry) : SocialResponse.social_response :=
  SocialResponse.ReportParticipant (report_id report) ReportOpen.
Definition note_reporter (key : reporter) (now : instant) : handler failure (room * wire) unit :=
  set_room (fun r => r <| Room.social ::= fun s => note_report s key now |>).

(** The report and the key it is counted under. *)
Definition prepare_report (q : social_request) (actor : participant) (target : participant_id) (reason : text)
  (report : N) (w : world) : handler failure (room * wire) (report_entry * reporter) :=
  (let reason := trim reason in
   ensure (negb (bool_decide (reason = []) || (1024 <? text_len reason)%N || existsb is_control reason))
     (social_invalid "Report reason must be 1–1024 bytes") ;;
   ensure (negb (target =? req_participant q)%N) (social_invalid "Choose another participant") ;;
   let! r := get in
   let! accused := hlift (ok_or (Room.participants r !! target) (social_not_found "Participant is no longer in this room")) in
   let key := reporter_key actor in
   let '(social, waiting) := report_cooldown_active (Room.social r) key (clock w) in
   set_room (fun r => r <| Room.social := social |>) ;;
   ensure (negb waiting) (social_rate_limited "Please wait before submitting another report") ;;
   hret (ReportEntry (pretty report) (req_participant q) (Participant.name actor) target (Participant.name accused) reason
           ReportOpen (wall w) None None, key))%handler.

Definition report_participant (q : social_request) (target : participant_id) (reason : text)
  : handled SocialResponse.social_response :=
  let full := social_forbidden "Room report capacity reached; contact a moderator" in
  let* id := new_uuid in
  let? '(report, key, filed) := admitted q (fun actor w =>
    (let! '(report, key) := prepare_report q actor target reason id w in
     let! r := get in
     if Room.persisted r then
       need_database mgr (social_unavailable "Report service unavailable") ;; hret (report, key, false)
     else
       let! reports := hlift (ok_or (make_report_room (RoomSocial.reports (Room.social r))) full) in
       set_room (fun r => r <| Room.social ::= fun s => s <| RoomSocial.reports := reports ++ [report] |> |>) ;;
       note_reporter key (clock w) ;;
       hret (report, key, true))%handler) in
  if filed : bool then Return (Ok (report_response report))
  else
    persisting (req_room q) (req_address q) (FileReport (req_room q) report) OfRoomError (fun inserted =>
      if negb inserted then Return (Err full)
      else again q (fun _ w => (note_reporter key (clock w) ;; hret (report_response report))%handler)).

Definition list_room_reports (q : social_request) (offset : option N) : handled SocialResponse.social_response :=
  list_request q Moderator offset "Report service unavailable"
    (fun offset => LoadReports (req_room q) (N.of_nat offset) (N.of_nat (S PAGE_SIZE))) (fun _ reports _ _ => reports)
    "Report service timed out"
    (fun offset _ _ =>
      (let! r := get in
       hret ((fun e => ReportEntry (report_id e) (reporter_id e) (reporter_name e) (report_target_id e)
                (report_target_name e) (report_reason e) (report_status_of e) (report_created_at e) (report_resolved_at e)
                (report_outcome_for (Room.social r) (report_id e)))
             <$> window_of offset (reverse (RoomSocial.reports (Room.social r)))))%handler)
    SocialResponse.ListRoomReports.

(** [ReportResolution::status] and [action]. *)
Definition resolution_status (r : report_resolution) : report_status :=
  match r with Resolved => ReportResolved | Dismissed => ReportDismissed end.
Definition resolution_action (r : report_resolution) : moderation_action :=
  match r with Resolved => ActReportResolved | Dismissed => ActReportDismissed end.

Definition close_report (wall : timestamp) (status : report_resolution) (e : report_entry) : report_entry :=
  ReportEntry (report_id e) (reporter_id e) (reporter_name e) (report_target_id e) (report_target_name e) (report_reason e)
    (resolution_status status) (report_created_at e) (Some wall) (report_outcome_of e).

Definition resolve_local_report (q : social_request) (actor : participant) (id : string) (key : N)
  (status : report_resolution) (event_id : N) (w : world) : handler failure (room * wire) unit :=
  (let! r := get in
   match list_find (fun e => report_id e = id /\ report_status_of e = ReportOpen) (RoomSocial.reports (Room.social r)) with
   | None => bail (social_not_found "Open report not found")
   | Some (i, e) =>
       let event := event_new event_id (wall w) (resolution_action status) (req_participant q) (Participant.name actor)
                      (TargetParticipant (report_target_id e)) (report_target_name e)
                      (is_some_and (Room.participants r !! report_target_id e) Participant.authenticated)
                      None None None (Some key) in
       set_room (fun r => r <| Room.social ::= fun s =>
         record_moderation_event (s <| RoomSocial.reports ::= <[i := close_report (wall w) status e]> |>) event |>)
   end)%handler.

Definition resolve_room_report (q : social_request) (id : string) (status : report_resolution)
  : handled SocialResponse.social_response :=
  let* event_id := new_uuid in
  let? first := admitted q (fun actor w =>
    (require_role (Participant.role actor) Moderator _ ;;
     let! key := hlift (ok_or (parse_uuid id) (social_invalid "Invalid report")) in
     let! r := get in
     if Room.persisted r then
       need_database mgr (social_unavailable "Report service unavailable") ;; hret (Some (key, Participant.name actor))
     else resolve_local_report q actor id key status event_id w ;; hret None)%handler) in
  match first with
  | None => Return (Ok (SocialResponse.ResolveRoomReport id status))
  | Some (key, name) =>
      persisting (req_room q) (req_address q) (ResolveReport (req_room q) key status (req_participant q) name) OfRoomError
        (fun resolved => again q (fun _ _ =>
           (ensure resolved (social_not_found "Open report not found") ;;
            hret (SocialResponse.ResolveRoomReport id status))%handler))
  end.

(** Only the owner reads a target's address. *)
Definition event_views (events : list moderation_event) (viewer : role) : list moderation_event_view :=
  (fun e => event_view e (role_ge viewer Owner)) <$> events.

Definition list_moderation_events (q : social_request) (offset : option N) : handled SocialResponse.social_response :=
  list_request q Moderator offset "History service unavailable"
    (fun offset => LoadEvents (req_room q) (N.of_nat offset) (N.of_nat (S PAGE_SIZE)))
    (fun _ events _ actor => event_views events (Participant.role actor))
    "History service timed out"
    (fun offset actor _ =>
      (let! r := get in
       hret (event_views (window_of offset (reverse (RoomSocial.moderation_events (Room.social r)))) (Participant.role actor)))%handler)
    SocialResponse.ListModerationEvents.

(** ** The dispatcher *)

Definition dispatch (q : social_request) : handled SocialResponse.social_response :=
  match req_command q with
  | ClientMessage.GetChatHistory _ before after around resume text limit =>
      chat_history mgr q (HistoryQuery before after around resume text limit)
  | ClientMessage.MarkChatRead _ message => mark_chat_read mgr q message
  | ClientMessage.SetRoomHistory _ days => set_room_history mgr q days
  | ClientMessage.SetChatPreferences _ allow ignored => set_chat_preferences mgr q allow ignored
  | ClientMessage.ChangeNickname _ nickname => change_nickname q nickname
  | ClientMessage.SetChatStyle _ style => set_chat_style mgr q style
  | ClientMessage.EditChatMessage _ message content revision =>
      edit_chat_message mgr q message (EditRequest content revision)
  | ClientMessage.GetPinnedMessages _ => pinned_messages mgr q None
  | ClientMessage.SetPinnedMessage _ message pinned => pinned_messages mgr q (Some (message, pinned))
  | ClientMessage.RemoveChatMessage _ message => remove_chat_message mgr q message
  | ClientMessage.ReactToMessage _ message e => react_to_message mgr q message e
  | ClientMessage.ListRoomBans _ offset => list_room_bans q offset
  | ClientMessage.RemoveRoomBan _ id => remove_room_ban q id
  | ClientMessage.ListRoomMembers _ offset => list_room_members q offset
  | ClientMessage.SetMemberRole _ target new_role => set_member_role q target new_role
  | ClientMessage.ReportParticipant _ target reason => report_participant q target reason
  | ClientMessage.ListRoomReports _ offset => list_room_reports q offset
  | ClientMessage.ResolveRoomReport _ id status => resolve_room_report q id status
  | ClientMessage.ListModerationEvents _ offset => list_moderation_events q offset
  | _ => admitted q (fun _ _ => bail (social_not_found "Unknown request"))
  end.

(** The request's identifier, when the command is a social request and the
    identifier is acceptable. *)
Definition request_id_of (command : client_message) : result failure string :=
  match Protocol.social_request command with
  | None => Err (social_not_found "Unknown request")
  | Some (id, _) => if valid_correlation_id id then Ok id else Err (social_invalid "Invalid request ID")
  end.

(** Whether the member whose role is set is here: the caller holds control. *)
Definition online_target (room_id : string) (id : participant_id) (expected : sender) (target : user_id) : handled bool :=
  let? a := get_room room_id in
  locked a (fun _ =>
    (let! r := get in
     let! _ := hlift (participant_for_sender r id expected) in
     hret (bool_decide (is_Some (Room.participants r !! target))))%handler).

Definition dispatched (room_id : string) (id : participant_id) (expected : sender) (command : client_message)
  (request_id : string) (control : option N) : handled unit :=
  let? a := get_room room_id in
  let? response := dispatch (SocialRequest room_id a id expected command) in
  let reply := tell expected (ServerMessage.Social request_id response) in
  match control with Some c => release_control c reply | None => reply end.

Definition handle_social_request_inner (room_id : string) (id : participant_id) (expected : sender)
  (command : client_message) (control : option N) : handled unit :=
  match request_id_of command with
  | Err e => Return (Err e)
  | Ok request_id =>
      match command with
      | ClientMessage.SetMemberRole _ target new_role =>
          let? online := online_target room_id id expected target in
          if online : bool then
            match control with
            | None => Return (Err (social_unavailable "Room control is unavailable"))
            | Some c =>
                let? _ := set_participant_role_controlled mgr room_id id expected target new_role c in
                tell expected (ServerMessage.Social request_id (SocialResponse.SetMemberRole true))
            end
          else dispatched room_id id expected command request_id control
      | _ => dispatched room_id id expected command request_id control
      end
  end.

Definition snapshot_section (id : participant_id) (expected : sender) (_ : world)
  : handler failure (room * wire) Protocol.room_snapshot :=
  (let! r := get in
   ensure_live r ;;
   let! actor := hlift (participant_for_sender r id expected) in
   hret (room_snapshot r actor))%handler.

Definition handle_social_request (room_id : string) (id : participant_id) (expected : sender) (command : client_message)
  : handled unit :=
  match request_id_of command with
  | Err e => Return (Err e)
  | Ok request_id =>
      match command with
      | ClientMessage.GetRoomSnapshot _ =>
          let? a := get_room room_id in
          let? snapshot := locked a (snapshot_section id expected) in
          tell expected (ServerMessage.Social request_id (SocialResponse.GetRoomSnapshot snapshot))
      | ClientMessage.ChangeNickname _ _ => handle_social_request_inner room_id id expected command None
      | _ => run_room_control room_id (fun a => handle_social_request_inner room_id id expected command (Some a))
      end
  end.
End requests.
