(* ===== verification/WorldInv.v ===== *)
(** * What the manager's sections keep

    The invariant of the shared world, what a held lock protects, and the
    triples in which the handlers are proved.  The point of the control lock
    is [control_view]: membership, roles, sanctions, bans and settings of a
    room change only under it, while budgets, producers and connections do
    not need it. *)

From S2P Require Import Prelude Refusal Net Roles Window Settings Protocol Moderation Wire Social Room Media Publication RoomInv RoomSteps Process Triples World Lifecycle.

Open Scope process_scope.

(** ** The invariant *)

(** A room's index names producers the media server issued to that member. *)
Definition index_issued (issued : gmap producer_id participant_id) (r : room) : Prop :=
  Room.producer_to_participant r ⊆ issued.

Definition deserted (r : room) : Prop := Room.participants r = ∅ /\ Room.lobby r = ∅.

(** A room is the one its name leads to; or the server is shutting down and
    the name leads nowhere; or it is closed and nobody is in it. *)
Definition placed (w : world) (a : N) (r : room) : Prop :=
  rooms w !! Room.id r = Some a
  \/ (draining w = true /\ rooms w !! Room.id r = None)
  \/ (Room.deleting r = true /\ deserted r).

Record world_ok (w : world) : Prop := {
  ok_rooms : forall a r, heap w !! a = Some r -> room_ok r;
  ok_chat : forall a r, heap w !! a = Some r -> memory_ok (Room.social r);
  ok_issued : forall a r, heap w !! a = Some r -> index_issued (issued w) r;
  ok_addresses : forall a, is_Some (heap w !! a) -> (a < next_address w)%N;
  (** The map leads to the room of that name. *)
  ok_map : forall id a, rooms w !! id = Some a -> exists r, heap w !! a = Some r /\ Room.id r = id;
  ok_placed : forall a r, heap w !! a = Some r -> placed w a r
}.

(** ** What every section respects *)

Record evolves (w w' : world) : Prop := {
  ev_heap : forall a r, heap w !! a = Some r ->
    exists r', heap w' !! a = Some r' /\ Room.id r' = Room.id r /\ Room.persisted r' = Room.persisted r;
  ev_issued : issued w ⊆ issued w';
  ev_draining : draining w = true -> draining w' = true;
  (** Nothing is added to a draining server. *)
  ev_drained : draining w = true -> rooms w' ⊆ rooms w
}.

#[export] Instance evolves_preorder : PreOrder evolves.
Proof.
  split.
  - intros w. split; [eauto|done..].
  - intros w1 w2 w3 [H1 H2 H3 H4] [G1 G2 G3 G4]. split.
    + intros a r Hr. destruct (H1 a r Hr) as (r2 & Hr2 & E1 & E2).
      destruct (G1 a r2 Hr2) as (r3 & Hr3 & F1 & F2). exists r3. split; [done|]. split; congruence.
    + by trans (issued w2).
    + auto.
    + intros Hd. trans (rooms w2); auto.
Qed.

(** ** What a lock protects *)

Definition standing (p : participant) :=
  (member_key p, Participant.role p, Participant.punitive p).
Definition control_view (r : room) :=
  (standing <$> Room.participants r, Room.lobby r, Room.settings r, Room.password_hash r,
   Room.banned_participants r, Room.banned_guest_ips r, Room.sanctions r, RoomSocial.bans (Room.social r),
   Room.deleting r).

Definition same_control (a : N) (w w' : world) : Prop :=
  forall r, heap w !! a = Some r -> exists r', heap w' !! a = Some r' /\ control_view r' = control_view r.
(** A room leaves the map under its control, or at shutdown. *)
Definition same_mapping (a : N) (w w' : world) : Prop :=
  forall id, rooms w !! id = Some a ->
    rooms w' !! id = Some a \/ (draining w' = true /\ rooms w' !! id = None).

Definition guarded (l : lock) (w w' : world) : Prop :=
  match l with
  | CreationLock => dom (rooms w') ⊆ dom (rooms w)
  | ControlLock a => same_control a w w' /\ same_mapping a w w'
  end.

Definition protects (l : lock) (w w' : world) : Prop := evolves w w' /\ guarded l w w'.

#[export] Instance protects_preorder l : PreOrder (protects l).
Proof.
  split.
  - intros w. split; [done|]. destruct l; cbn; [done|]. split; [intros r; eauto|intros id; auto].
  - intros w1 w2 w3 [He1 H1] [He2 H2]. split; [by trans w2|]. destruct l as [|a]; cbn in *; [by trans (dom (rooms w2))|].
    destruct H1 as [H1 M1], H2 as [H2 M2]. split.
    + intros r Hr. destruct (H1 r Hr) as (r2 & Hr2 & E). destruct (H2 r2 Hr2) as (r3 & Hr3 & F). exists r3. split; congruence.
    + intros id Hid. destruct (M1 id Hid) as [Hid2|[Hd Hn]]; [by apply M2|]. right.
      split; [by apply (ev_draining _ _ He2)|]. destruct (rooms w3 !! id) as [b|] eqn:Eb; [|done].
      exfalso. pose proof (lookup_weaken _ _ _ _ Eb (ev_drained _ _ He2 Hd)). congruence.
Qed.

(** ** What a single section does to the map *)

Record local (w w' : world) : Prop := {
  lo_kept : forall id a a', rooms w !! id = Some a -> rooms w' !! id = Some a' -> a' = a;
  lo_left : forall id a, rooms w !! id = Some a -> rooms w' !! id = None ->
    draining w' = true
    \/ exists r, heap w' !! a = Some r /\ deserted r
}.

#[export] Instance local_refl : Reflexive local.
Proof. intros w. split; intros; congruence. Qed.

(** A map that does not change. *)
Lemma local_same w w' : rooms w' = rooms w -> local w w'.
Proof. intros Hr. split; rewrite Hr; intros; congruence. Qed.

(** ** Triples *)

(** The one thing a section is excused: a deletion the database refuses opens
    its room again, and it may do so out of turn, without the room's control
    (its spawned second attempt) or after the room has left the map (see
    [Races.v]).  Nothing else changes in such a section. *)
Definition out_of_turn (t : N) (h : gmap lock N) (w w' : world) : Prop :=
  exists a r, heap w !! a = Some r /\ Room.deleting r = true
  /\ w' = w <| heap ::= <[a := set_deleting false r]> |>
  /\ (h !! ControlLock a <> Some t
      \/ (rooms w !! Room.id r <> Some a /\ ~ (draining w = true /\ rooms w !! Room.id r = None))).

(** Nothing is known of what a free lock protects. *)
Definition free_lock (l : lock) (w : world) : Prop := True.

Abbreviation wp := (Process.wp (query := query) (reply := reply) world_ok protects evolves local free_lock out_of_turn).
Abbreviation rely := (Process.rely protects evolves).
Abbreviation frame := (Triples.frame protects evolves).
Abbreviation section_ok := (Triples.section_ok world_ok protects evolves local).
Abbreviation triple := (Triples.triple (query := query) (reply := reply) world_ok protects evolves local free_lock out_of_turn).
Abbreviation calm := (Triples.calm (query := query) (reply := reply) world_ok protects evolves local free_lock out_of_turn).
Abbreviation stable := (Triples.stable evolves).

Lemma triple_release {A} L w l (k : process A) Q :
  (forall w0, frame L w w0 -> world_ok w0 -> triple (L ∖ {[l]}) w0 k Q) -> triple L w (Release l k) Q.
Proof. intros Hk. apply triple_unlock. intros w0 Hf Hi. split; [done|]. by apply Hk. Qed.

Lemma triple_holding {A} L w l (p : process A) Q :
  (forall w0, l ∉ L -> frame L w w0 -> world_ok w0 ->
     triple ({[l]} ∪ L) w0 p (fun x w' L' => forall w2, frame L' w' w2 -> world_ok w2 -> Q x w2 (L' ∖ {[l]}))) ->
  triple L w (holding l p) Q.
Proof.
  intros Hp. apply triple_guard. intros w0 Hl Hf Hi _. eapply triple_mono; [|by apply Hp]. intros x w1 L1 _ HQ w2 Hf2 Hi2. split; [done|]. by apply HQ.
Qed.

Lemma calm_holding {A} w l (p : process A) Q :
  stable Q -> (forall w0, evolves w w0 -> calm w0 p Q) -> calm w (holding l p) Q.
Proof. by apply calm_guard. Qed.

(** ** Quiet sections: queues, clocks, counters, reservations *)

Definition shared (w : world) := (heap w, next_address w, rooms w, issued w, draining w).

Lemma quiet_section L w w' : world_ok w -> shared w' = shared w -> section_ok L w w'.
Proof.
  intros [H1 Hc H2 H3 H4 H5] Hs. unfold shared in Hs. injection Hs as E1 E2 E3 E4 E5.
  assert (evolves w w') as He by (split; rewrite ?E1, ?E3, ?E4, ?E5; eauto).
  split; [|done|by apply local_same|].
  - split; unfold placed in *; rewrite ?E1, ?E2, ?E3, ?E4, ?E5; done.
  - intros l _. split; [done|]. destruct l as [|a]; cbn; [by rewrite E3|].
    split; [intros r; rewrite E1; eauto|intros id; rewrite E3; auto].
Qed.

(** More of the same section may follow outside the shared part. *)
Lemma section_then_quiet L w w1 w2 : section_ok L w w1 -> shared w2 = shared w1 -> section_ok L w w2.
Proof.
  intros [S1 S2 S3 S4] Hs. destruct (quiet_section ∅ w1 w2 S1 Hs) as [Q1 Q2 Q3 Q4].
  split; [done|by trans w1| |].
  - unfold shared in Hs. injection Hs as E1 E2 E3 E4 E5. destruct S3 as [K1 K2].
    split; rewrite ?E1, ?E3, ?E5; done.
  - intros l Hl. trans w1; [by apply S4|]. apply Q4. set_solver.
Qed.

Lemma calm_quiet {A} w (m : world -> world * A) (Q : A -> world -> Prop) :
  (forall w0, shared (m w0).1 = shared w0) ->
  (forall w0, evolves w w0 -> world_ok w0 -> Q (m w0).2 (m w0).1) -> calm w (atomically m) Q.
Proof.
  intros Hs HQ. apply calm_atomic. intros w0 He Hi. split; [|by apply HQ]. by apply quiet_section.
Qed.

(** ** Writing one room *)

Definition known (a : N) (w : world) : Prop := is_Some (heap w !! a).

Lemma known_evolves a w w' : evolves w w' -> known a w -> known a w'.
Proof. intros He [r Hr]. destruct (ev_heap _ _ He a r Hr) as (r' & ? & _). by exists r'. Qed.

Lemma room_at_known w a r : heap w !! a = Some r -> room_at w a = r.
Proof. unfold room_at. by intros ->. Qed.

(** A room between sections, the producers issued so far being [I]. *)
Record fine (I : gmap producer_id participant_id) (r : room) : Prop := {
  fine_ok : room_ok r;
  fine_issued : index_issued I r;
  fine_chat : memory_ok (Room.social r)
}.

(** A closed room stays closed, and nobody enters it. *)
Definition stays_closed (r r' : room) : Prop :=
  Room.deleting r = true ->
  Room.deleting r' = true /\ (Room.participants r = ∅ -> Room.participants r' = ∅)
  /\ (Room.lobby r = ∅ -> Room.lobby r' = ∅).

(** How a section may change a room: [c] says that it holds control. *)
Record moved (c : bool) (I : gmap producer_id participant_id) (r r' : room) : Prop := {
  mv_fine : fine I r';
  mv_id : Room.id r' = Room.id r;
  mv_persisted : Room.persisted r' = Room.persisted r;
  mv_closed : stays_closed r r';
  mv_view : c = false -> control_view r' = control_view r
}.

Lemma view_stays_closed r r' : control_view r' = control_view r -> stays_closed r r'.
Proof.
  intros Hv Hd. unfold control_view in Hv. injection Hv as Em El _ _ _ _ _ _ Ed. rewrite Ed, El.
  split; [done|]. split; [|done]. intros He. rewrite He, fmap_empty in Em. by apply fmap_empty_inv in Em.
Qed.

Lemma live_stays_closed r r' : Room.deleting r = false -> stays_closed r r'.
Proof. intros Hl Hd. congruence. Qed.

Lemma moved_view c I r r' :
  fine I r' -> Room.id r' = Room.id r -> Room.persisted r' = Room.persisted r ->
  control_view r' = control_view r -> moved c I r r'.
Proof. intros Hf Hid Hp Hv. split; [done..|by apply view_stays_closed|done]. Qed.

Lemma moved_refl c I r : fine I r -> moved c I r r.
Proof. intros. by apply moved_view. Qed.

Lemma moved_trans c I r1 r2 r3 : moved c I r1 r2 -> moved c I r2 r3 -> moved c I r1 r3.
Proof.
  intros [A1 A3 A4 A6 A5] [B1 B3 B4 B6 B5]. split; [done|congruence..| |].
  - intros Hd. destruct (A6 Hd) as (D & P & Q). destruct (B6 D) as (D' & P' & Q'). auto.
  - intros Hc. rewrite (B5 Hc). auto.
Qed.

(** The world after a section that writes the room at [a]. *)
Definition writes (a : N) (r' : room) (w w' : world) : Prop :=
  shared w' = (<[a := r']> (heap w), next_address w, rooms w, issued w, draining w).

Lemma write_evolves w w' a r r' :
  heap w !! a = Some r -> writes a r' w w' -> Room.id r' = Room.id r -> Room.persisted r' = Room.persisted r ->
  evolves w w'.
Proof.
  intros Hr Hw Hid Hper. unfold writes, shared in Hw. injection Hw as E1 E2 E3 E4 E5.
  split; rewrite ?E1, ?E3, ?E4, ?E5; auto. intros b q Hq. destruct (decide (b = a)) as [->|Hne].
  - exists r'. rewrite lookup_insert_eq. split; [done|]. split; congruence.
  - exists q. by rewrite lookup_insert_ne.
Qed.

Lemma write_world_ok w w' a r r' :
  world_ok w -> heap w !! a = Some r -> writes a r' w w' -> Room.id r' = Room.id r ->
  fine (issued w) r' -> placed w a r' -> world_ok w'.
Proof.
  intros [H1 Hc H2 H3 H4 H5] Hr Hw Hid [Hok Hix Hchat] Hpl. unfold writes, shared in Hw. injection Hw as E1 E2 E3 E4 E5.
  split; unfold placed in *; rewrite ?E1, ?E2, ?E3, ?E4, ?E5.
  - intros b q [[<- <-]|[_ Hq]]%lookup_insert_Some; eauto.
  - intros b q [[<- <-]|[_ Hq]]%lookup_insert_Some; eauto.
  - intros b q [[<- <-]|[_ Hq]]%lookup_insert_Some; eauto.
  - intros b Hb. apply H3. apply lookup_insert_is_Some' in Hb as [->|Hb]; [by exists r|done].
  - intros id b Hb. destruct (H4 id b Hb) as (q & Hq & Hidq). destruct (decide (b = a)) as [->|Hne].
    + exists r'. rewrite lookup_insert_eq. split; [done|]. congruence.
    + exists q. by rewrite lookup_insert_ne.
  - intros b q [[<- <-]|[_ Hq]]%lookup_insert_Some; eauto.
Qed.

Lemma write_protects w w' a r r' l :
  heap w !! a = Some r -> writes a r' w w' -> evolves w w' ->
  (l <> ControlLock a \/ control_view r' = control_view r) -> protects l w w'.
Proof.
  intros Hr Hw He Hl. split; [done|]. unfold writes, shared in Hw. injection Hw as E1 E2 E3 E4 E5.
  destruct l as [|b]; cbn; [by rewrite E3|]. split; [|intros id; rewrite E3; auto].
  intros q Hq. rewrite E1. destruct (decide (b = a)) as [->|Hne].
  - exists r'. rewrite lookup_insert_eq. split; [done|]. destruct Hl as [Hl|Hl]; [done|congruence].
  - exists q. by rewrite lookup_insert_ne.
Qed.

Lemma write_section L w w' a r r' :
  world_ok w -> heap w !! a = Some r -> writes a r' w w' ->
  Room.id r' = Room.id r -> Room.persisted r' = Room.persisted r -> fine (issued w) r' ->
  placed w a r' -> (ControlLock a ∈ L \/ control_view r' = control_view r) -> section_ok L w w'.
Proof.
  intros Hi Hr Hw Hid Hper Hf Hpl Hview. pose proof (write_evolves _ _ _ _ _ Hr Hw Hid Hper) as He.
  split; [by eapply write_world_ok|done| |].
  - apply local_same. unfold writes, shared in Hw. by injection Hw.
  - intros l Hl. apply (write_protects w w' a r r'); [done..|]. destruct Hview; [left; congruence|by right].
Qed.

(** The usual case: the room moved. *)
Lemma move_section c L w w' a r r' :
  world_ok w -> heap w !! a = Some r -> writes a r' w w' -> moved c (issued w) r r' ->
  (c = true -> ControlLock a ∈ L) -> section_ok L w w'.
Proof.
  intros Hi Hr Hw [M1 M3 M4 M6 M5] Hc. apply (write_section L w w' a r r'); try done; [|destruct c; auto].
  unfold placed. rewrite M3. destruct (ok_placed _ Hi a r Hr) as [Hp|[Hp|[Hd [He1 He2]]]]; [by left|by right; left|].
  right; right. destruct (M6 Hd) as (D & P & Q). split; [done|]. split; auto.
Qed.

Lemma world_fine w a r : world_ok w -> heap w !! a = Some r -> fine (issued w) r.
Proof. intros Hi Hr. split; [by eapply ok_rooms|by eapply ok_issued|by eapply ok_chat]. Qed.
