(* ===== verification/Sections.v ===== *)
(** * Sections under the room lock

    How a handler that runs under one room's state lock moves the room:
    [tracks] is its specification, composed along the handler monad, and
    [calm_locked] and [triple_locked] bring it to the interleaved world. *)

From S2P Require Import Prelude Refusal Net Roles Window Settings Protocol Moderation Wire Social Room Media Publication RoomInv RoomSteps Process Triples World WorldInv.

Open Scope process_scope.

(** ** Handlers *)

(** From a room that is as it should be, [m] moves the room and, when it
    succeeds, ends in [Q]. *)
Definition tracks {E A} (c : bool) (I : gmap producer_id participant_id)
  (m : handler E (room * wire) A) (s : room * wire) (Q : A -> room * wire -> Prop) : Prop :=
  fine I s.1 ->
  moved c I s.1 (m s).1.1 /\ match (m s).2 with Ok x => Q x (m s).1 | Err _ => True end.

Section tracks.
Context {E A : Type} (c : bool) (I : gmap producer_id participant_id).
Implicit Types (s : room * wire).

Lemma tracks_bind {B} (m : handler E (room * wire) B) (k : B -> handler E (room * wire) A) s Q :
  tracks c I m s (fun x s' => tracks c I (k x) s' Q) -> tracks c I (hbind m k) s Q.
Proof.
  intros Hm Hok. destruct (Hm Hok) as [Hmv Hx]. unfold hbind.
  destruct (m s) as [s1 [x|e]]; cbn in *; [|done].
  destruct (Hx (mv_fine _ _ _ _ Hmv)) as [Hmv2 Hy]. split; [by eapply moved_trans|done].
Qed.

Lemma tracks_mono (m : handler E (room * wire) A) s (Q Q' : A -> room * wire -> Prop) :
  (forall x s', Q x s' -> Q' x s') -> tracks c I m s Q -> tracks c I m s Q'.
Proof. intros HQ Hm Hok. destruct (Hm Hok) as [Hmv Hx]. split; [done|]. destruct (m s).2; auto. Qed.

Lemma tracks_fine (m : handler E (room * wire) A) s Q :
  (fine I s.1 -> tracks c I m s Q) -> tracks c I m s Q.
Proof. intros Hm Hf. by apply Hm. Qed.

Lemma tracks_ret (x : A) s (Q : A -> room * wire -> Prop) : Q x s -> tracks c I (hret (E := E) x) s Q.
Proof. intros HQ Hok. split; [by apply moved_refl|done]. Qed.

Lemma tracks_bail (e : E) s (Q : A -> room * wire -> Prop) : tracks c I (bail e) s Q.
Proof. intros Hok. split; [by apply moved_refl|done]. Qed.

Lemma tracks_lift (x : result E A) s (Q : A -> room * wire -> Prop) :
  (forall a, x = Ok a -> Q a s) -> tracks c I (hlift x) s Q.
Proof. intros HQ Hok. split; [by apply moved_refl|]. cbn. destruct x; auto. Qed.

Lemma tracks_get s (Q : room -> room * wire -> Prop) : Q s.1 s -> tracks c I (get (E := E)) s Q.
Proof. intros HQ Hok. split; [by apply moved_refl|done]. Qed.

Lemma tracks_send f s (Q : unit -> room * wire -> Prop) :
  Q tt (s.1, f s.1 s.2) -> tracks c I (send (E := E) f) s Q.
Proof. intros HQ Hok. split; [by apply moved_refl|done]. Qed.

Lemma tracks_set f s (Q : unit -> room * wire -> Prop) :
  (fine I s.1 -> moved c I s.1 (f s.1)) -> Q tt (f s.1, s.2) -> tracks c I (set_room (E := E) f) s Q.
Proof. intros Hf HQ Hok. split; [by apply Hf|done]. Qed.

Lemma tracks_publish (f : room -> wire -> room * wire * A) s (Q : A -> room * wire -> Prop) :
  (fine I s.1 -> moved c I s.1 (f s.1 s.2).1.1) -> Q (f s.1 s.2).2 (f s.1 s.2).1 ->
  tracks c I (publish (E := E) f) s Q.
Proof.
  intros Hf HQ Hok. specialize (Hf Hok). unfold publish. by destruct (f s.1 s.2) as [[r q] x].
Qed.

Lemma tracks_reserve get_window put now (e : E) s (Q : unit -> room * wire -> Prop) :
  (forall v, fine I s.1 -> moved c I s.1 (put v s.1)) -> (forall v, Q tt (put v s.1, s.2)) ->
  tracks c I (reserve_window get_window put now e) s Q.
Proof.
  intros Hput HQ Hok. unfold reserve_window. destruct (reserve (get_window s.1) now) as [v []]; cbn; auto.
Qed.
End tracks.

Lemma tracks_ensure {E} c I b (e : E) s (Q : unit -> room * wire -> Prop) :
  (b = true -> Q tt s) -> tracks c I (ensure b e) s Q.
Proof. intros HQ. unfold ensure. destruct b; [by apply tracks_ret, HQ|apply tracks_bail]. Qed.

Lemma tracks_live c I r s (Q : unit -> room * wire -> Prop) :
  (Room.deleting r = false -> Q tt s) -> tracks c I (ensure_live r) s Q.
Proof. intros HQ. unfold ensure_live. destruct (Room.deleting r); [apply tracks_bail|by apply tracks_ret, HQ]. Qed.

(** A change of fields that neither the invariant nor control reads. *)
Lemma moved_budget c I r r' :
  core r' = core r -> Room.id r' = Room.id r -> Room.password_hash r' = Room.password_hash r ->
  Room.deleting r' = Room.deleting r -> holdings (Room.social r') = holdings (Room.social r) ->
  fine I r -> moved c I r r'.
Proof.
  intros Hc Hid Hp Hd Hs [Hok Hix Hchat]. pose proof (room_ok_core r r' Hc Hok) as Hok'. unfold core in Hc.
  injection Hc as E1 E2 E3 E4 E5 E6 E7 E8 E9.
  apply moved_view; [|done..|unfold control_view, holdings, books in *; congruence]. split; [done|unfold index_issued; by rewrite E3|].
  by apply (holdings_ok (Room.social r)).
Qed.

(** A change of the chat state that keeps its bounds; bans change under
    control. *)
Lemma moved_books I f r :
  (memory_ok (Room.social r) -> memory_ok (f (Room.social r))) -> fine I r ->
  moved true I r (r <| Room.social ::= f |>).
Proof. intros Hs [Hok Hix Hchat]. split; [split; [by apply (room_ok_core r)|done|by apply Hs]|done..]. Qed.

Lemma moved_chat c I f r :
  (memory_ok (Room.social r) -> memory_ok (f (Room.social r))) ->
  RoomSocial.bans (f (Room.social r)) = RoomSocial.bans (Room.social r) -> fine I r ->
  moved c I r (r <| Room.social ::= f |>).
Proof.
  intros Hs Hb [Hok Hix Hchat]. apply moved_view; [split; [by apply (room_ok_core r)|done|by apply Hs]|done..|].
  unfold control_view. cbn. by rewrite Hb.
Qed.

(** What the invariant and control read of a member. *)
Definition profile (p : participant) := (member_view p, Participant.role p).

(** A change of one member that neither reads. *)
Lemma moved_member c I id p p' r :
  Room.participants r !! id = Some p -> profile p' = profile p -> fine I r ->
  moved c I r (r <| Room.participants ::= <[id := p']> |>).
Proof.
  intros Hp [= E1 E2 E3 E4 E5 E6] [Hok Hix Hchat]. apply moved_view; [split; [|done..]|done..|].
  - assert (forall {B} (f : participant -> B), f p' = f p -> forall i,
      f <$> <[id := p']> (Room.participants r) !! i = f <$> Room.participants r !! i) as Hmap.
    { intros B f Hf i. destruct (decide (i = id)) as [->|Hne]; [|by rewrite lookup_insert_ne].
      by rewrite lookup_insert_eq, Hp; cbn; rewrite Hf. }
    eapply same_people_ok; [..|exact Hok]; try done; [split; try done|]; apply Hmap; unfold member_view; congruence.
  - unfold control_view. cbn. rewrite fmap_insert, insert_id; [done|]. rewrite lookup_fmap, Hp. cbn.
    unfold standing, member_key. congruence.
Qed.

Lemma moved_alter c I id f r :
  (forall p, profile (f p) = profile p) -> fine I r -> moved c I r (r <| Room.participants ::= alter f id |>).
Proof.
  intros Hpr Hf. destruct (Room.participants r !! id) as [p|] eqn:Hp.
  - replace (r <| Room.participants ::= alter f id |>) with (r <| Room.participants ::= <[id := f p]> |>);
      [by eapply moved_member|]. cbn. f_equal. apply map_eq. intros i. destruct (decide (i = id)) as [->|Hne].
    + by rewrite lookup_alter_eq, lookup_insert_eq, Hp.
    + by rewrite lookup_alter_ne, lookup_insert_ne.
  - replace (r <| Room.participants ::= alter f id |>) with r; [by apply moved_refl|].
    destruct r; cbn in *. f_equal. apply map_eq. intros i. destruct (decide (i = id)) as [->|Hne].
    + by rewrite lookup_alter_eq, Hp.
    + by rewrite lookup_alter_ne.
Qed.

Lemma tracks_admin c I now s (Q : unit -> room * wire -> Prop) :
  (forall v, Q tt (s.1 <| Room.admin_mutations := v |>, s.2)) -> tracks c I (reserve_admin now) s Q.
Proof. intros HQ. apply tracks_reserve; [|done]. intros v. by apply moved_budget. Qed.

(** Walk through a handler; what is left are the changes it makes. *)
Ltac track :=
  repeat first
    [ progress cbn beta iota zeta
    | match goal with
      | |- tracks _ _ (hbind _ _) _ _ => apply tracks_bind
      | |- tracks _ _ (hret _) _ _ => apply tracks_ret
      | |- tracks _ _ (bail _) _ _ => apply tracks_bail
      | |- tracks _ _ (anyhow_bail _) _ _ => apply tracks_bail
      | |- tracks _ _ (hlift _) _ _ => apply tracks_lift; intros ? ?
      | |- tracks _ _ get _ _ => apply tracks_get
      | |- tracks _ _ (send _) _ _ => apply tracks_send
      | |- tracks _ _ (reserve_admin _) _ _ => apply tracks_admin; intros ?
      | |- tracks _ _ (anyhow_ensure _ _) _ _ => apply tracks_ensure; intros ?
      | |- tracks _ _ (ensure _ _) _ _ => apply tracks_ensure; intros ?
      | |- tracks _ _ (ensure_live _) _ _ => let Hlive := fresh "Hlive" in apply tracks_live; intros Hlive
      | |- tracks _ _ (set_room _) _ _ => apply tracks_set
      | |- tracks _ _ (publish _) _ _ => apply tracks_publish
      | |- tracks _ _ (reserve_window _ _ _ _) _ _ => apply tracks_reserve; intros ?
      end ].

(** ** Locked sections *)

(** [run_section]: the world after a section of the room at [a]. *)
Lemma locked_section_writes {E A} a (m : world -> handler E (room * wire) A) w :
  writes a (m w (room_at w a, the_wire w)).1.1 w (locked_section a m w).1
  /\ (locked_section a m w).2 = (m w (room_at w a, the_wire w)).2.
Proof. unfold locked_section, writes. by destruct (m w (room_at w a, the_wire w)) as [[r q] res]. Qed.

Lemma writes_lookup a r w w' : writes a r w w' -> heap w' !! a = Some r.
Proof. unfold writes, shared. intros Hw. injection Hw as -> _ _ _ _. apply lookup_insert_eq. Qed.

(** What holds of the result and the room at [a]. *)
Definition at_room {E A} (a : N) (Q : A -> room -> Prop) (res : result E A) (w : world) : Prop :=
  match res with Ok x => exists r, heap w !! a = Some r /\ index_issued (issued w) r /\ Q x r | Err _ => True end.

Lemma tracks_section {E A} c L a (m : world -> handler E (room * wire) A) w (Q : A -> room -> Prop) :
  world_ok w -> known a w -> (c = true -> ControlLock a ∈ L) ->
  (forall r, heap w !! a = Some r -> tracks c (issued w) (m w) (r, the_wire w) (fun x s => Q x s.1)) ->
  section_ok L w (locked_section a m w).1
  /\ at_room a Q (locked_section a m w).2 (locked_section a m w).1.
Proof.
  intros Hi [r Hr] Hc Hm. destruct (locked_section_writes a m w) as [Hw ->].
  rewrite (room_at_known _ _ _ Hr) in *. destruct (Hm r Hr (world_fine _ _ _ Hi Hr)) as [Hmv HQ].
  assert (section_ok L w (locked_section a m w).1) as Hs.
  { by apply (move_section c L w _ a r (m w (r, the_wire w)).1.1). }
  split; [done|]. pose proof (writes_lookup _ _ _ _ Hw) as Hl. unfold at_room.
  destruct (m w (r, the_wire w)).2; [|done]. exists (m w (r, the_wire w)).1.1. split; [done|].
  split; [|done]. by apply (ok_issued _ (se_ok _ _ _ Hs) a).
Qed.

Lemma calm_locked {E A} w a (m : world -> handler E (room * wire) A) (Q : A -> room -> Prop) :
  known a w ->
  (forall w0 r, evolves w w0 -> world_ok w0 -> heap w0 !! a = Some r ->
     tracks false (issued w0) (m w0) (r, the_wire w0) (fun x s => Q x s.1)) ->
  calm w (locked a m) (at_room a Q).
Proof.
  intros Hk Hm. apply calm_atomic. intros w0 He Hi.
  apply (tracks_section false); [done|by eapply known_evolves|done|]. eauto.
Qed.

Lemma triple_locked {E A} L w a (m : world -> handler E (room * wire) A) (Q : A -> room -> Prop) :
  known a w -> ControlLock a ∈ L ->
  (forall w0 r, frame L w w0 -> world_ok w0 -> heap w0 !! a = Some r ->
     tracks true (issued w0) (m w0) (r, the_wire w0) (fun x s => Q x s.1)) ->
  triple L w (locked a m) (fun res w' L' => L' = L /\ at_room a Q res w').
Proof.
  intros Hk HL Hm. apply triple_atomic. intros w0 Hf Hi.
  destruct (tracks_section true L a m w0 Q) as [Hs HQ]; [done|eapply known_evolves; [apply Hf|done]|done|eauto|].
  done.
Qed.

(** A section that reads. *)
Lemma calm_read {A} w (f : world -> A) (Q : A -> world -> Prop) :
  (forall w0, evolves w w0 -> world_ok w0 -> Q (f w0) w0) -> calm w (atomically (fun w => (w, f w))) Q.
Proof. intros HQ. apply calm_quiet; [done|]. intros w0 He Hi. by apply HQ. Qed.

Lemma calm_get_room w room_id :
  calm w (get_room room_id) (fun res w' => match res with Ok a => known a w' | Err _ => True end).
Proof.
  apply calm_read. intros w0 He Hi. destruct (rooms w0 !! room_id) as [a|] eqn:Ea; cbn; [|done].
  destruct (ok_map _ Hi _ _ Ea) as (r & Hr & _). by exists r.
Qed.

Lemma calm_uuid w (Q : N -> world -> Prop) : (forall x w', Q x w') -> calm w new_uuid Q.
Proof. intros HQ. by apply calm_quiet. Qed.

Lemma calm_call_media w c (Q : result string bool -> world -> Prop) :
  (forall x w', Q x w') -> calm w (call_media c) Q.
Proof.
  intros HQ. unfold call_media. eapply calm_bind with (Q' := fun _ _ => True); [by apply calm_quiet|].
  intros x w' He _. intros L. apply triple_await. intros r. apply triple_return. split; [done|]. by split.
Qed.

Lemma calm_for_each {A} w (f : A -> process unit) l :
  (forall x w', evolves w w' -> x ∈ l -> calm w' (f x) (fun _ _ => True)) ->
  calm w (for_each f l) (fun _ _ => True).
Proof.
  revert w. induction l as [|x l IH]; intros w Hf; cbn [for_each]; [by apply calm_return|].
  eapply calm_bind; [apply Hf; [done|by left]|]. intros [] w' He _. apply IH.
  intros y w2 He2 Hy. apply Hf; [by trans w'|by right].
Qed.
