(* ===== verification/CalmHandlers.v ===== *)
(** * Requests that need no control

    Media requests, voice requests, closing a camera and marking a socket as
    disconnected change producers, budgets and connections only: [calm] shows
    that they keep the invariant and leave everything control protects alone,
    whatever runs in between. *)

From S2P Require Import Prelude Refusal Net Roles Window Settings Protocol Moderation Wire Social Room Media Publication RoomInv RoomSteps Process Triples World ModerationOps Lobby Membership MediaOps WorldInv Sections.

Open Scope process_scope.

Abbreviation calmly w p := (calm w p (fun _ _ => True)).

Create HintDb calm discriminated.
#[export] Hint Resolve calm_get_room : calm.
#[export] Hint Extern 1 (known _ _) => (eapply known_evolves; eassumption) : calm.

Lemma calmly_media w c : calmly w (call_media c).
Proof. by apply calm_call_media. Qed.
Lemma calmly_uuid w : calmly w new_uuid.
Proof. by apply calm_uuid. Qed.
Lemma calmly_return {A} w (x : A) : calmly w (Return x).
Proof. by apply calm_return. Qed.
Lemma calmly_of {A} w (p : process A) Q : calm w p Q -> calmly w p.
Proof. by apply calm_mono. Qed.
#[export] Hint Resolve calmly_media calmly_uuid calmly_return : calm.

(** Walk through a process; what is left are its sections. *)
Ltac calm_go :=
  repeat (cbn beta iota zeta; match goal with
    | |- calm _ (Return _) (fun _ _ => True) => apply calmly_return
    | |- calm _ (pbind (ask _) _) _ => apply calm_ask; intros ?
    | |- calm _ (pbind _ _) _ => let HQ := fresh in eapply calm_bind; [solve [eauto with calm]|intros ? ? ? HQ; cbn beta iota in HQ]
    | |- calm _ (try_bind _ _) _ => let HQ := fresh in eapply calm_try; [solve [eauto with calm]|intros ? ? ? HQ; cbn beta iota in HQ|done]
    | |- calm _ (if ?b then _ else _) _ => destruct b
    | |- calm _ (match ?x with _ => _ end) _ => destruct x
    end); eauto with calm.

(** A section that only charges or reads the room. *)
Ltac charge := try unfold reserve_media; track; intros; try done; by apply moved_budget.

Lemma calm_media_section {E A} w a (m : world -> handler E (room * wire) A) :
  known a w -> (forall w0 s, evolves w w0 -> tracks false (issued w0) (m w0) s (fun _ _ => True)) ->
  calmly w (locked a m).
Proof.
  intros Hk Hm. apply (calmly_of _ _ (at_room a (fun _ _ => True))). apply calm_locked; [done|].
  intros w0 r He _ _. by apply Hm.
Qed.

(** ** Sessions and budgets *)

Section media.
Context (room_id : string) (id : participant_id) (expected : sender).

Lemma calm_session w : calmly w (media_session_for_sender room_id id expected).
Proof.
  eapply calm_try; [apply calm_get_room| |done]. intros a w' He Ha.
  apply calm_media_section; [done|]. intros w0 s _. charge.
Qed.

Lemma calm_current w session : calmly w (is_current_media_session room_id id expected session).
Proof. unfold is_current_media_session. calm_go. by apply calm_read. Qed.

(** A budget taken names a room that exists. *)
Definition reserved (v : reservation) (w : world) : Prop := known (reserved_room v) w.

Lemma calm_ipc w :
  calm w (reserve_media_control_ipc_for_sender room_id id expected)
    (fun res w' => match res with Ok v => reserved v w' | Err _ => True end).
Proof.
  eapply calm_try; [apply calm_get_room| |done]. intros a w' He Ha.
  eapply calm_mono; [|apply (calm_locked _ a _ (fun v _ => reserved_room v = a)); [done|]].
  - intros [v|e] w2 He2; cbn; [|done]. intros (r & Hr & _ & <-). by exists r.
  - intros w0 r _ _ _. charge.
Qed.

Lemma calm_refund_ipc w v : reserved v w -> calmly w (refund_media_control_ipc v).
Proof.
  intros Hv. eapply calm_bind; [|by intros; apply calmly_return].
  apply (calm_media_section (E := failure)); [done|]. intros w0 s _. charge.
Qed.

Lemma calm_refund_mutation w v : reserved v w -> calmly w (refund_media_mutation v).
Proof.
  intros Hv. eapply calm_bind; [|by intros; apply calmly_return].
  apply (calm_media_section (E := failure)); [done|]. intros w0 s _. charge.
Qed.
End media.
#[export] Hint Resolve calm_session calm_current calm_ipc calm_refund_ipc calm_refund_mutation : calm.
#[export] Hint Extern 1 (reserved _ _) => (eapply known_evolves; eassumption) : calm.

(** ** Producers *)

(** Members whose producers change keep their standing. *)
Lemma view_producers id p f r :
  Room.participants r !! id = Some p ->
  control_view (r <| Room.participants ::= <[id := p <| Participant.producers ::= f |>]> |>) = control_view r.
Proof.
  intros Hp. unfold control_view. cbn. rewrite fmap_insert, insert_id; [done|]. by rewrite lookup_fmap, Hp.
Qed.

Lemma view_prune keep r : control_view (prune keep r) = control_view r.
Proof. unfold control_view. cbn. by rewrite <-map_fmap_compose. Qed.

Lemma moved_prune c I keep r : fine I r -> moved c I r (prune keep r).
Proof.
  intros [Hok Hix Hchat]. apply moved_view; [split; [by apply prune_ok| |done]|done..|apply view_prune].
  unfold index_issued in *. cbn. etransitivity; [apply map_filter_subseteq|done].
Qed.

Lemma delete_all_filter {A} (ids : list producer_id) (m : gmap producer_id A) :
  foldl (fun m id => delete id m) m ids
  = filter (fun kv => negb (bool_decide (kv.1 ∈ ids)) = true) m.
Proof.
  revert m. induction ids as [|i ids IH]; intros m; cbn [foldl].
  - symmetry. apply map_filter_id. intros k x _. cbn. by rewrite bool_decide_eq_false_2 by apply not_elem_of_nil.
  - rewrite IH. apply map_eq. intros k. apply option_eq. intros x.
    rewrite !map_lookup_filter_Some, lookup_delete_Some. cbn.
    rewrite !negb_true_iff, !bool_decide_eq_false, not_elem_of_cons. intuition.
Qed.

(** Closing producers that can only be the member's own. *)
Lemma drop_producers_prune r id p ids :
  room_struct r -> Room.participants r !! id = Some p ->
  (forall pr owner, pr ∈ ids -> Room.producer_to_participant r !! pr = Some owner -> owner = id) ->
  r <| Room.participants ::= <[id := p <| Participant.producers ::=
         fun m => foldl (fun m id => delete id m) m ids |>]> |>
    <| Room.producer_to_participant ::= fun m => foldl (fun m id => delete id m) m ids |>
  = prune (fun pr => negb (bool_decide (pr ∈ ids))) r.
Proof.
  intros Hs Hp Hown. unfold prune. cbn. f_equal; [|apply delete_all_filter]. apply map_eq. intros i.
  rewrite lookup_fmap. destruct (decide (i = id)) as [->|Hne].
  - rewrite lookup_insert_eq, Hp. cbn. unfold strip. by rewrite delete_all_filter.
  - rewrite lookup_insert_ne by done. destruct (Room.participants r !! i) as [q|] eqn:Hq; [|done]. cbn. f_equal.
    unfold strip. destruct q; cbn. f_equal. symmetry. apply map_filter_id. intros pr rec Hrec. cbn in *.
    apply negb_true_iff, bool_decide_eq_false_2. intros Hin. apply Hne, (Hown pr); [done|].
    apply (ok_index _ Hs). eexists. split; [exact Hq|]. by exists rec.
Qed.

Lemma issued_owner I r producer owner id :
  index_issued I r -> I !! producer = Some id -> Room.producer_to_participant r !! producer = Some owner ->
  owner = id.
Proof. intros Hix Hid Ho. pose proof (lookup_weaken _ _ _ _ Ho Hix). congruence. Qed.

Section producers.
Context (room_id : string) (id : participant_id) (expected : sender).

Lemma session_member r session :
  participant_session_is_current r id expected session = true ->
  exists p, Room.participants r !! id = Some p.
Proof.
  unfold participant_session_is_current. destruct (Room.participants r !! id) as [p|]; [by exists p|].
  rewrite ?andb_false_r. done.
Qed.

Lemma commit_producer_tracks I session producer kind source w s :
  I !! producer = Some id ->
  tracks false I (commit_producer id expected session producer kind source w) s (fun _ _ => True).
Proof.
  intros Hid. unfold commit_producer. track; intros. destruct s as [r q]; cbn in *.
  destruct (Room.participants r !! id) as [p|] eqn:Hp; [|apply tracks_bail].
  destruct (_ && participant_can_produce r p kind source) eqn:Hcan; [|apply tracks_bail].
  apply andb_prop in Hcan as [_ Hcan]. track; [|done]. cbn. intros [Hok Hix Hchat]. apply moved_view; [|done..|].
  - split.
    + apply add_producer_ok; [done|done| |done]. intros owner. by apply issued_owner with I.
    + unfold index_issued. cbn. by apply insert_subseteq_l.
    + done.
  - by apply (view_producers id p (insert producer _)).
Qed.

Lemma close_moved I r p producer :
  I !! producer = Some id -> Room.participants r !! id = Some p -> fine I r ->
  moved false I r (r <| Room.participants ::= alter (fun p => p <| Participant.producers ::= delete producer |>) id |>
                     <| Room.producer_to_participant ::= delete producer |>).
Proof.
  intros Hid Hp Hf. pose proof Hf as [Hok Hix Hchat].
  replace (r <| Room.participants ::= _ |> <| Room.producer_to_participant ::= _ |>)
    with (prune (fun pr => negb (bool_decide (pr ∈ [producer]))) r); [by apply moved_prune|].
  rewrite <-(drop_producers_prune r id p [producer]); [|apply Hok|done|].
  - cbn. f_equal. apply map_eq. intros i. destruct (decide (i = id)) as [->|Hne].
    + by rewrite lookup_alter_eq, lookup_insert_eq, Hp.
    + by rewrite lookup_alter_ne, lookup_insert_ne.
  - intros pr owner ->%list_elem_of_singleton. by apply issued_owner with I.
Qed.

Lemma commit_close_tracks I session producer w s :
  I !! producer = Some id ->
  tracks false I (commit_close_producer id expected session producer w) s (fun _ _ => True).
Proof.
  intros Hid. unfold commit_close_producer. track; [|done]. intros Hf.
  destruct (session_member s.1 session) as [p Hp]; [done|]. by eapply close_moved.
Qed.

Lemma commit_pause_tracks I session producer is_paused w s :
  tracks false I (commit_pause id expected session producer is_paused w) s (fun _ _ => True).
Proof.
  unfold commit_pause. track; [|done]. intros [Hok Hix Hchat]. apply moved_view; [|done..|].
  - split; [by apply paused_ok|done..].
  - unfold control_view, record_producer_paused. cbn. do 8 f_equal. apply map_eq. intros i.
    rewrite !lookup_fmap. destruct (decide (i = id)) as [->|Hne].
    + rewrite lookup_alter_eq. by destruct (Room.participants s.1 !! id).
    + by rewrite lookup_alter_ne.
Qed.
End producers.

(** A process that fails or leaves [P] true of the world. *)
Abbreviation or_fails P := (fun res w => match res with Ok _ => P w | Err _ => True end).

Section requests.
Context (room_id : string) (id : participant_id) (expected : sender).

Lemma calm_mutation w : calmly w (reserve_media_mutation_for_sender room_id id expected None).
Proof.
  eapply calm_try; [apply calm_get_room| |done]. intros a w' He Ha.
  apply calm_media_section; [done|]. intros w0 s _. charge.
Qed.

(** Naming one's own producer shows that it was issued to one. *)
Lemma calm_own_mutation w producer :
  calm w (reserve_media_mutation_for_sender room_id id expected (Some producer))
    (or_fails (fun w' => issued w' !! producer = Some id)).
Proof.
  eapply calm_try; [apply calm_get_room| |done]. intros a w' He Ha.
  eapply calm_mono; [|apply (calm_locked _ a _ (fun _ r => Room.producer_to_participant r !! producer = Some id)); [done|]].
  - intros [v|e] w2 He2; cbn; [|done]. intros (r & Hr & Hix & Hown). by eapply lookup_weaken.
  - intros w0 r _ Hi Hr. pose proof (ok_rooms _ Hi _ _ Hr) as Hok. unfold reserve_media. track; intros; cbn; [by apply moved_budget|].
    match goal with Hp : participant_for_sender _ _ _ = Ok ?p |- _ =>
      unfold participant_for_sender in Hp; cbn in Hp; repeat case_match; simplify_eq end.
    apply (ok_index _ (ok_struct _ Hok)). eexists. split; [done|].
    match goal with Hb : negb (is_some_and _ _) = true |- _ => cbn in Hb end.
    by case_bool_decide.
Qed.

Lemma calm_pause_mutation w producer desired :
  calm w (reserve_producer_pause_mutation_for_sender room_id id expected producer desired)
    (fun res w' => match res with Ok (Some v) => reserved v w' | _ => True end).
Proof.
  eapply calm_try; [apply calm_get_room| |done]. intros a w' He Ha.
  eapply calm_mono; [|apply (calm_locked _ a _ (fun v _ => match v with Some v => reserved_room v = a | None => True end)); [done|]].
  - intros [[v|]|e] w2 He2; cbn; [|done..]. intros (r & Hr & _ & <-). by exists r.
  - intros w0 r _ _ _. track. destruct (eqb _ desired); charge.
Qed.

Lemma calm_can_produce w kind source : calmly w (can_participant_produce room_id id expected kind source).
Proof.
  eapply calm_try; [apply calm_get_room| |done]. intros a w' He Ha.
  apply calm_media_section; [done|]. intros w0 s _. charge.
Qed.

Lemma calm_issue w :
  calm w (atomically (fun w => (w <| issued ::= <[fresh (dom (issued w)) := id]> |>,
                                Ok (E := failure) (fresh (dom (issued w))))))
    (fun res w' => match res with Ok producer => issued w' !! producer = Some id | Err _ => True end).
Proof.
  apply calm_atomic. intros w0 He Hi. cbn. split; [|apply lookup_insert_eq].
  assert (issued w0 ⊆ <[fresh (dom (issued w0)) := id]> (issued w0)) as Hsub.
  { apply insert_subseteq. apply not_elem_of_dom. apply is_fresh. }
  assert (evolves w0 (w0 <| issued ::= <[fresh (dom (issued w0)) := id]> |>)) as Hev by (split; eauto).
  split; [|done|by apply local_same|].
  - destruct Hi as [H1 Hc H2 H3 H4]. split; try done. intros a r Hr. unfold index_issued in *. cbn.
    etransitivity; [by apply (H2 a)|done].
  - intros l _. split; [done|]. destruct l; cbn; [done|]. split; [intros r; eauto|intros ?; auto].
Qed.

Lemma calm_native w m transport kind :
  calm w (create_native_producer m id transport kind)
    (fun res w' => match res with Ok producer => issued w' !! producer = Some id | Err _ => True end).
Proof.
  unfold create_native_producer, media. eapply calm_bind; [apply calmly_media|].
  intros [b|e] w' He _; [apply calm_issue|by apply calm_return].
Qed.

Lemma calm_observers w (f : option opaque -> producer_id -> process unit) active audio producer kind :
  (forall o w, calmly w (f o producer)) ->
  calmly w (match kind with Audio => let* _ := f active producer in f audio producer | Video => Return tt end).
Proof. intros Hf. destruct kind; [|apply calmly_return]. eapply calm_bind; [apply Hf|]. intros. apply Hf. Qed.

Lemma calm_add_observer w o producer : calmly w (add_to_observer o producer).
Proof. unfold add_to_observer. calm_go. Qed.
Lemma calm_remove_observer w o producer : calmly w (remove_from_observer o producer).
Proof. unfold remove_from_observer. calm_go. Qed.
End requests.
#[export] Hint Resolve calm_mutation calm_own_mutation calm_pause_mutation calm_can_produce calm_native
  calm_add_observer calm_remove_observer : calm.

(** ** The media requests *)

Lemma calm_media {A} w c (k : bool -> handled A) :
  (forall b w', evolves w w' -> calmly w' (k b)) -> calmly w (media c k).
Proof.
  intros Hk. unfold media. eapply calm_bind; [apply calmly_media|].
  intros [b|e] w' He _; [by apply Hk|apply calmly_return].
Qed.

(** A commit of the member's own producer: the room is looked up again. *)
Lemma calm_commit {A} w room_id (m : world -> handler failure (room * wire) A) :
  (forall w0 s, evolves w w0 -> tracks false (issued w0) (m w0) s (fun _ _ => True)) ->
  calmly w (let? a := get_room room_id in locked a m).
Proof.
  intros Hm. eapply calm_try; [apply calm_get_room| |done]. intros a w' He Ha.
  apply calm_media_section; [done|]. intros w0 s He0. apply Hm. by trans w'.
Qed.

Section handlers.
Context (room_id : string) (id : participant_id) (expected : sender).

Lemma calm_create_producer w transport kind source :
  calmly w (create_producer room_id id expected transport kind source).
Proof.
  unfold create_producer. destruct source as [source|]; [|apply calmly_return].
  destruct (negb (valid_media_source kind source)); [apply calmly_return|]. calm_go.
  eapply calm_bind.
  - apply calm_commit. intros w0 s He. apply commit_producer_tracks.
    eapply lookup_weaken; [eassumption|]. apply (ev_issued _ _ He).
  - intros [[active audio]|e] w9 He9 _; [|calm_go]. eapply calm_bind; [|intros; apply calmly_return].
    apply calm_observers. eauto with calm.
Qed.

Lemma calm_close_producer w producer : calmly w (close_producer room_id id expected producer).
Proof.
  unfold close_producer. calm_go. apply calm_media. intros b w9 He9. calm_go.
  eapply calm_try; [apply calm_media_section; [eassumption|]| |done].
  - intros w0 s He0. apply commit_close_tracks. eapply lookup_weaken; [eassumption|].
    apply ev_issued. etransitivity; [exact He9|]. by etransitivity.
  - intros [was_audio [active audio]] w2 He2 _. eapply calm_bind with (Q' := fun _ _ => True); [|calm_go].
    destruct was_audio; calm_go.
Qed.

Lemma calm_set_paused w producer is_paused :
  calmly w (set_producer_paused room_id id expected producer is_paused).
Proof.
  unfold set_producer_paused. calm_go. apply calm_media. intros b w9 He9.
  destruct (negb b); [calm_go|]. apply calm_commit. intros. apply commit_pause_tracks.
Qed.

Lemma calm_budgeted {A} w call (k : media_participant -> N -> reservation -> bool -> handled A) :
  (forall m session v b w', reserved v w' -> calmly w' (k m session v b)) ->
  calmly w (budgeted room_id id expected call k).
Proof.
  intros Hk. unfold budgeted. calm_go. apply calm_media. intros b w9 He9. apply Hk. eauto with calm.
Qed.

Lemma calm_refunded w call : calmly w (refunded room_id id expected call).
Proof. apply calm_budgeted. intros m session v [] w' Hv; calm_go. Qed.

Lemma calm_keep w m session : calmly w (keep_if_current room_id id expected m session).
Proof. unfold keep_if_current. calm_go. Qed.

Lemma calm_router w : calmly w (get_router room_id).
Proof. unfold get_router. calm_go. Qed.
End handlers.
#[export] Hint Resolve calm_keep calm_router : calm.

Section transports.
Context (room_id : string) (id : participant_id) (expected : sender).

Lemma calm_send_transport w : calmly w (create_send_transport room_id id expected).
Proof.
  unfold create_send_transport. calm_go. apply calm_media. intros b w9 He9. calm_go.
  apply calm_media. eauto with calm.
Qed.

Lemma calm_recv_transport w : calmly w (create_recv_transport room_id id expected).
Proof.
  unfold create_recv_transport. calm_go. apply calm_media. intros lease w9 H9.
  apply calm_media. intros _ w2 H2. calm_go. apply calm_media. intros _ w3 ?.
  eapply calm_bind with (Q' := fun _ _ => True); [destruct lease; calm_go|]. eauto with calm.
Qed.

Lemma calm_consumer w producer : calmly w (create_consumer room_id id expected producer).
Proof.
  unfold create_consumer. calm_go. eapply calm_try; [apply calm_media_section; [eassumption|]| |done].
  - intros w0 s _. charge.
  - intros ? w1 ? _. calm_go. apply calm_media. intros _ w2 ?. apply calm_media. eauto with calm.
Qed.

Lemma calm_apply_ceilings m pending : forall w written,
  calmly w (apply_ceilings room_id id expected m pending written).
Proof.
  induction pending as [|consumer pending IH]; intros w written; cbn [apply_ceilings]; [apply calmly_return|].
  calm_go. apply calm_media. intros [] w1 ?; [apply IH|]. calm_go.
Qed.

Lemma calm_ceiling w transport spatial : calmly w (set_bandwidth_ceiling room_id id expected transport spatial).
Proof. unfold set_bandwidth_ceiling. calm_go. apply calm_apply_ceilings. Qed.

Lemma calm_replace_receiver w transport bwe : calmly w (replace_receiver room_id id expected transport bwe).
Proof.
  unfold replace_receiver. calm_go. apply calm_media. intros lease w9 ?. apply calm_media. intros _ w2 ?. calm_go.
Qed.

Lemma calm_current_recv w transport : calmly w (is_current_recv_transport room_id id expected transport).
Proof. unfold is_current_recv_transport. calm_go. intros L. apply triple_await. intros r. by apply triple_return. Qed.

Lemma calm_capabilities w : calmly w (get_router_rtp_capabilities room_id id expected).
Proof. unfold get_router_rtp_capabilities. calm_go. Qed.
End transports.

(** ** Closing a camera, voice, disconnection *)

Lemma commit_close_cam_tracks I target session producers w s :
  (forall producer, producer ∈ producers -> I !! producer = Some target) ->
  tracks false I (commit_close_cam target session producers w) s (fun _ _ => True).
Proof.
  intros Hown. unfold commit_close_cam. track; intros. destruct s as [r q]; cbn in *.
  destruct (Room.participants r !! target) as [p|] eqn:Hp; [|by apply tracks_ret].
  destruct (Participant.media_session_id p =? session)%N; [|by apply tracks_ret]. track; [|done].
  intros Hf. pose proof Hf as [Hok Hix Hchat].
  pose proof (moved_prune false I (fun pr => negb (bool_decide (pr ∈ producers))) r Hf) as Hm.
  rewrite <-(drop_producers_prune r target p producers) in Hm; [exact Hm|..].
  - apply Hok.
  - done.
  - intros pr owner Hin. apply issued_owner with I; auto.
Qed.

Lemma target_of_ok r id p : target_of r id = Ok p -> Room.participants r !! id = Some p.
Proof. unfold target_of, ok_or. destruct (Room.participants r !! id); [|done]. by intros [= ->]. Qed.

(** The producers found at authorization are the target's. *)
Lemma authorize_close_cam_tracks I moderator expected target w s :
  tracks false I (authorize_close_cam moderator expected target w) s
    (fun found s' => forall producer, producer ∈ found.1 -> Room.producer_to_participant s'.1 !! producer = Some target).
Proof.
  apply tracks_fine. intros [Hok _ _]. unfold authorize_close_cam. track.
  match goal with Ht : target_of _ _ = Ok ?p |- _ => rename Ht into Hp; rename p into q end.
  apply target_of_ok in Hp.
  assert (forall producer, producer ∈ keys (filter (fun kv => producer_kind kv.2 = Video) (Participant.producers q)) ->
            Room.producer_to_participant s.1 !! producer = Some target) as Hown.
  { intros producer Hin. apply (ok_index _ (ok_struct _ Hok)). exists q. split; [done|].
    apply elem_of_keys_filter in Hin as (rec & Hrec & _). by exists rec. }
  case_bool_decide; track; cbn; [|done]. intros producer Hin. by apply not_elem_of_nil in Hin.
Qed.

Lemma calm_close_cam w room_id moderator expected target :
  calmly w (close_cam room_id moderator expected target).
Proof.
  unfold close_cam. calm_go.
  eapply calm_try with (Q' := fun res w => match res with
    | Ok (producers, _) => forall producer, producer ∈ producers -> issued w !! producer = Some target
    | Err _ => True end); [|intros [producers session] w1 ? Hown|done].
  - apply calm_holding.
    + intros [[producers session]|e] w1 w2 He; [|done]. intros Hown producer Hin.
      eapply lookup_weaken; [by apply Hown|]. by apply ev_issued.
    + intros w0 ?. eapply calm_mono; [|apply (calm_locked _ _ _ (fun found r => forall producer,
        producer ∈ found.1 -> Room.producer_to_participant r !! producer = Some target)); [eauto with calm|]].
      * intros [[producers session]|e] w2 He; cbn; [|done]. intros (r & _ & Hix & Hown) producer Hin.
        eapply lookup_weaken; [by apply Hown|done].
      * intros. apply authorize_close_cam_tracks.
  - case_bool_decide; [apply calmly_return|]. eapply calm_bind.
    + apply calm_for_each. intros. calm_go.
    + intros _ w2 ? _. apply calm_commit. intros w0 s ?. apply commit_close_cam_tracks. intros producer Hin.
      eapply lookup_weaken; [by apply Hown|]. apply ev_issued. by trans w2.
Qed.

Lemma calm_voice w room_id id expected : calmly w (request_voice room_id id expected).
Proof. apply calm_commit. intros w0 s _. charge. Qed.

Lemma disconnect_moved c I id expected r q : fine I r -> moved c I r (mark_disconnected id expected r q).1.
Proof.
  intros Hf. unfold mark_disconnected. destruct (Room.participants r !! id) as [p|] eqn:Hp; [|by apply moved_refl].
  destruct (_ || _); [by apply moved_refl|]. by eapply moved_member.
Qed.

Lemma calm_disconnected w room_id id expected : calmly w (mark_participant_disconnected room_id id expected).
Proof.
  unfold mark_participant_disconnected. eapply calm_bind with (Q' := fun _ _ => True); [by apply calm_read|]. intros draining w1 H1 _.
  destruct draining; [apply calmly_return|]. calm_go. apply calm_media_section; [done|]. intros w0 s _. track; [|done].
  intros Hf. pose proof (disconnect_moved false (issued w0) id expected s.1 s.2 Hf) as Hm.
  by destruct (mark_disconnected id expected s.1 s.2).
Qed.

Lemma calm_observer_step w a e : calmly w (observer_task_step a e).
Proof. by apply calm_quiet. Qed.

Lemma calm_bound w room_id id expected : calmly w (is_bound_participant room_id id expected).
Proof. unfold is_bound_participant. calm_go. by apply calm_read. Qed.
