(* ===== verification/ControlHandlers.v ===== *)
(** * Requests under control

    Moderation, settings and the lobby: what was read when the request was
    authorized still holds when it is committed, because nothing control
    protects changes in between. *)

From S2P Require Import Prelude Refusal Net Roles Window Settings Protocol Moderation Wire Social Room Media Publication RoomInv RoomSteps Process Triples World ModerationOps SettingsOps Lobby Membership MediaOps WorldInv Sections CalmHandlers.

Open Scope process_scope.

Abbreviation keeps L w p := (triple L w p (fun _ _ _ => True)).

Lemma keeps_return {A} L w (x : A) : keeps L w (Return x).
Proof. by apply triple_return. Qed.
Lemma keeps_of {A} L w (p : process A) Q : triple L w p Q -> keeps L w p.
Proof. by apply triple_mono. Qed.
Lemma keeps_calm {A} L w (p : process A) Q : calm w p Q -> keeps L w p.
Proof. intros Hp. eapply keeps_of, Hp. Qed.

(** ** Closing media afterwards *)

Lemma calm_close_revoked room_id active audio revoked : forall w failed,
  calmly w (close_revoked room_id active audio failed revoked).
Proof.
  induction revoked as [|v revoked IH]; intros w failed; cbn [close_revoked]; [apply calmly_return|].
  eapply calm_bind with (Q' := fun _ _ => True).
  - case_bool_decide; calm_go.
  - intros failed' w1 ? _. eapply calm_bind with (Q' := fun _ _ => True); [destruct (revoked_kind v); calm_go|].
    intros _ w2 ? _. apply IH.
Qed.

Lemma calm_remove_router w room_id : calmly w (remove_router room_id).
Proof. unfold remove_router. calm_go. Qed.

(** ** Quarantine and persistence *)

Lemma clear_moved I r r' :
  core r' = core (clear_membership r) -> Room.id r' = Room.id r ->
  (Room.deleting r = true -> Room.deleting r' = true) -> holdings (Room.social r') = holdings (Room.social r) ->
  memory_ok (Room.social r) -> moved true I r r'.
Proof.
  intros Hc Hid Hd Hs Hchat. assert (room_ok r') as Hok by exact (room_ok_core _ _ Hc (clear_ok r)).
  unfold core in Hc. injection Hc as E1 E2 E3 E4 E5 E6 E7 E8 E9.
  split; [split; [done| |]|done..| |done].
  - unfold index_issued. rewrite E3. apply map_empty_subseteq.
  - by apply (holdings_ok (Room.social r)).
  - intros Hdel. auto.
Qed.

Lemma quarantine_section_ok L w room_id a :
  world_ok w -> known a w -> ControlLock a ∈ L -> section_ok L w (quarantine_section room_id a w).1.
Proof.
  intros Hi [r Hr] HL. unfold quarantine_section. rewrite (room_at_known _ _ _ Hr).
  destruct (_ || _); [by apply quiet_section|].
  set (w0 := match deleting_rooms w !! room_id with Some _ => _ | None => _ end).
  assert (shared w0 = shared w) as H0 by (unfold w0; by destruct (deleting_rooms w !! room_id)).
  eapply (move_section true L w _ a r (drop_observers (clear_membership (bump_policy (r <| Room.deleting := true |>)))));
    [done|done| |apply clear_moved; [done..|by eapply ok_chat]|done].
  unfold writes, shared in *. cbn. by injection H0 as -> -> -> -> ->.
Qed.

Lemma triple_quarantine L w room_id a :
  known a w -> ControlLock a ∈ L -> triple L w (quarantine_room room_id a) (fun _ _ L' => L' = L).
Proof.
  intros Hk HL. unfold quarantine_room. eapply triple_bind with (Q' := fun _ _ L' => L' = L).
  - apply triple_atomic. intros w0 Hf Hi. split; [|done].
    apply quarantine_section_ok; [done| |done]. eapply known_evolves; [apply Hf|done].
  - intros [sessions|] w1 L1 ? ->; [|by apply triple_return]. apply triple_spawn; [|by apply triple_return].
    intros w0 _ _. eapply keeps_calm. eapply calm_bind with (Q' := fun _ _ => True).
    + apply calm_for_each. intros. calm_go.
    + intros _ w2 ? _. eapply calm_bind; [apply calm_remove_router|]. intros. apply calmly_return.
Qed.

(** An outcome that is unknown quarantines the room; otherwise nothing has
    moved. *)
Lemma triple_settle {A} L w room_id a (answer : option (result room_error A)) :
  known a w -> ControlLock a ∈ L ->
  triple L w (settle room_id a answer) (fun res w' L' => L' = L /\ match res with Ok _ => w' = w | Err _ => True end).
Proof.
  intros Hk HL. unfold settle. destruct (default _ answer) as [b|e]; [by apply triple_return|].
  destruct (persistence_is_indeterminate e); [|by apply triple_return].
  eapply triple_bind; [by apply triple_quarantine|]. intros _ w1 L1 ? ->. by apply triple_return.
Qed.

(** A write that is refused ends the request. *)
Lemma triple_persisting {A} L w room_id a write f (k : bool -> handled A) Q :
  known a w -> ControlLock a ∈ L -> (forall b, triple L w (k b) Q) ->
  (forall e w', evolves w w' -> Q (Err e) w' L) -> triple L w (persisting room_id a write f k) Q.
Proof.
  intros Hk HL Hok Herr. unfold persisting, persist_room.
  eapply triple_bind with (Q' := fun res w' L' => L' = L /\ match res with Ok _ => w' = w | Err _ => True end).
  - apply triple_ask_bind. intros answer. by apply triple_settle.
  - intros [b|e] w1 L1 ? [-> H1]; [subst w1; apply Hok|]. apply triple_return. by apply Herr.
Qed.

Lemma keeps_persisting {A} L w room_id a write f (k : bool -> handled A) :
  known a w -> ControlLock a ∈ L -> (forall b, keeps L w (k b)) -> keeps L w (persisting room_id a write f k).
Proof. intros. by apply triple_persisting. Qed.

(** ** Control *)

(** The name leads to this room, or nowhere because the server is shutting
    down. *)
Definition mapped (room_id : string) (a : N) (w : world) : Prop :=
  rooms w !! room_id = Some a \/ (draining w = true /\ rooms w !! room_id = None).

(** Under control this stays so. *)
Lemma mapped_later L room_id a w w' : ControlLock a ∈ L -> frame L w w' -> mapped room_id a w -> mapped room_id a w'.
Proof.
  intros HL Hf Hm. destruct (fr_protects _ _ _ Hf _ HL) as [He [_ Hmap]]. destruct Hm as [Hm|[Hd Hn]]; [by apply Hmap|].
  right. split; [by apply (ev_draining _ _ He)|]. destruct (rooms w' !! room_id) as [b|] eqn:Eb; [|done].
  pose proof (lookup_weaken _ _ _ _ Eb (ev_drained _ _ He Hd)). congruence.
Qed.

Lemma triple_get_mapped L w room_id a :
  mapped room_id a w -> ControlLock a ∈ L ->
  triple L w (get_room room_id)
    (fun res w' L' => L' = L /\ frame L w w' /\ match res with Ok a' => a' = a | Err _ => True end).
Proof.
  intros Hm HL. apply triple_atomic. intros w0 Hf Hi. split; [by apply quiet_section|]. cbn.
  split; [done|]. split; [done|]. by destruct (mapped_later _ _ _ _ _ HL Hf Hm) as [-> |[_ ->]].
Qed.

Lemma keeps_lock_within {E A} w l e (p : process (result E A)) :
  (forall w0, evolves w w0 -> world_ok w0 -> keeps {[l]} w0 p) -> keeps ∅ w (lock_within l e p).
Proof.
  intros Hp. apply triple_ask_bind. intros []; [apply keeps_return|].
  apply triple_holding. intros w0 _ Hf Hi. rewrite union_empty_r_L. eapply triple_mono; [|apply Hp; [apply Hf|done]].
  done.
Qed.

Lemma keeps_control {A} w room_id (action : N -> handled A) :
  (forall a w0, known a w0 -> mapped room_id a w0 -> keeps {[ControlLock a]} w0 (action a)) ->
  keeps ∅ w (run_room_control room_id action).
Proof.
  intros Ha. unfold run_room_control. eapply triple_try; [apply calm_get_room| |done].
  intros a w1 L1 _ (-> & _ & Hk). apply keeps_lock_within. intros w2 He2 Hi2.
  eapply triple_try with (Q' := fun res w' L' => L' = {[ControlLock a]} /\ match res with
    | Ok _ => mapped room_id a w' | Err _ => True end); [| |done].
  - apply triple_atomic. intros w0 Hf Hi. split; [by apply quiet_section|]. split; [done|]. cbn.
    repeat case_match; try done. case_bool_decide; [by left|done].
  - intros _ w3 L3 He3 [-> Hm]. apply Ha; [|done]. eapply known_evolves; [|done]. by trans w2.
Qed.

Lemma keeps_replace_recv w room_id id expected transport bwe :
  keeps ∅ w (replace_recv_transport room_id id expected transport bwe).
Proof. apply keeps_control. intros a w0 _ _. eapply keeps_calm, calm_replace_receiver. Qed.

(** The control lock is given back before media is closed. *)
Lemma keeps_release {A} L w a (p : process A) :
  (forall w0, calmly w0 p) -> keeps L w (release_control a p).
Proof. intros Hp. apply triple_release. intros w0 _ _. eapply keeps_calm, Hp. Qed.

(** What was seen of the room under control is still so. *)
Lemma seen_again {A} L w w' a (P : A -> room -> Prop) x r :
  (forall r r', control_view r' = control_view r -> P x r -> P x r') ->
  frame L w w' -> ControlLock a ∈ L -> at_room (E := failure) a P (Ok x) w -> heap w' !! a = Some r -> P x r.
Proof.
  intros HP Hf HL (r0 & Hr0 & _ & HP0) Hr. destruct (fr_protects _ _ _ Hf _ HL) as [_ [Hv _]].
  destruct (Hv r0 Hr0) as (r1 & Hr1 & Hview). rewrite Hr1 in Hr. injection Hr as <-. by eapply HP.
Qed.

Lemma covers_same r r' key pids lids :
  standing <$> Room.participants r' = standing <$> Room.participants r -> Room.lobby r' = Room.lobby r ->
  covers r key pids lids -> covers r' key pids lids.
Proof.
  intros Em El [C1 C2 C3 C4].
  assert (forall id, standing <$> Room.participants r' !! id = standing <$> Room.participants r !! id) as Hs.
  { intros id. by rewrite <-!lookup_fmap, Em. }
  split; rewrite ?El; try done.
  - intros id p' Hp'. destruct (fmap_eq_Some _ _ _ _ (Hs id) Hp') as (p & Hp & Est).
    injection Est as Ek _ _. rewrite Ek. by apply C1.
  - intros id Hin. destruct (C3 id Hin) as [p Hp]. specialize (Hs id). rewrite Hp in Hs.
    destruct (Room.participants r' !! id); [by eexists|done].
Qed.

Lemma covers_view r r' key pids lids :
  control_view r' = control_view r -> covers r key pids lids -> covers r' key pids lids.
Proof. unfold control_view. intros [= Em El _ _ _ _ _ _ _]. by apply covers_same. Qed.

(** ** Sanctions *)

Definition cohort_of (target_id : participant_id) (target : participant) : sanction_key :=
  for_identity target_id (Participant.authenticated target) (Participant.ip target).

(** An authorized sanction covers the whole cohort of its target. *)
Definition covers_found (target_id : participant_id)
  (found : participant * participant * list participant_id * list participant_id * moderation_event * bool)
  (r : room) : Prop :=
  let '(_, target, pids, lids, _, _) := found in covers r (cohort_of target_id target) pids lids.

Lemma covers_found_view target found r r' :
  control_view r' = control_view r -> covers_found target found r -> covers_found target found r'.
Proof. destruct found as [[[[[? ?] ?] ?] ?] ?]. apply covers_view. Qed.

Lemma authorize_punitive_tracks c I moderator expected target kind enabled reason event w s :
  tracks c I (authorize_punitive moderator expected target kind enabled reason event w) s
    (fun found s' => from_option (fun found => covers_found target found s'.1) True found).
Proof.
  apply tracks_fine. intros [Hok _ _]. unfold authorize_punitive. track. destruct (punitive_cohort_matches _ _ _ _ _ _); track; [done|].
  cbn. apply (covers_view s.1); [done|]. eapply cohort_covers; [apply Hok|by apply target_of_ok|done..].
Qed.

Lemma view_live r r' : control_view r' = control_view r -> Room.deleting r = false -> Room.deleting r' = false.
Proof. unfold control_view. intros Hv. by injection Hv as _ _ _ _ _ _ _ _ ->. Qed.

Lemma sender_live r id expected p : participant_for_sender r id expected = Ok p -> Room.deleting r = false.
Proof. unfold participant_for_sender. by destruct (Room.deleting r). Qed.

(** Identity, persistence and a shrinking index, as publications leave them. *)
Record tame (r r' : room) : Prop := {
  tame_index : Room.producer_to_participant r' ⊆ Room.producer_to_participant r;
  tame_id : Room.id r' = Room.id r;
  tame_persisted : Room.persisted r' = Room.persisted r;
  tame_chat : memory_ok (Room.social r) -> memory_ok (Room.social r')
}.

#[export] Instance tame_preorder : PreOrder tame.
Proof.
  split; [by split|]. intros r1 r2 r3 [A1 A2 A3 A4] [B1 B2 B3 B4]. split; [|congruence..|auto].
  by trans (Room.producer_to_participant r2).
Qed.

Lemma tame_same r r' :
  Room.producer_to_participant r' = Room.producer_to_participant r -> Room.id r' = Room.id r ->
  Room.persisted r' = Room.persisted r -> holdings (Room.social r') = holdings (Room.social r) -> tame r r'.
Proof. intros H1 H2 H3 H4. split; [by rewrite H1|done..|by apply holdings_ok]. Qed.

(** Moving a room under control needs the invariant only. *)
Lemma moved_tame I r r' : room_ok r' -> tame r r' -> stays_closed r r' -> fine I r -> moved true I r r'.
Proof.
  intros Hok [T1 T2 T3 T4] Hc [_ Hix Hchat]. split; [split; [done| |]|done..].
  - unfold index_issued in *. by trans (Room.producer_to_participant r).
  - by apply T4.
Qed.

Lemma moved_live I r r' : Room.deleting r = false -> room_ok r' -> tame r r' -> fine I r -> moved true I r r'.
Proof. intros Hl ? ?. apply moved_tame; [done..|by apply live_stays_closed]. Qed.

Lemma delete_tame r keys : tame r (r <| Room.producer_to_participant ::= fun m => foldl (fun m id => delete id m) m keys |>).
Proof. split; [|done..]. cbn. rewrite delete_all_filter. apply map_filter_subseteq. Qed.

Lemma foldl_tame {A W} (f : room * W -> A -> room * W) l s :
  (forall s x, tame s.1 (f s x).1) -> tame s.1 (foldl f s l).1.
Proof. intros Hf. revert s. induction l as [|x l IH]; intros s; cbn [foldl]; [done|]. etransitivity; [apply Hf|apply IH]. Qed.

Lemma revoke_tame f reason r w : tame r (revoke_unauthorized_producers f reason r w).1.1.
Proof.
  apply (foldl_tame _ _ (r, w)). intros [r0 w0] v. cbn. etransitivity; [|apply (delete_tame _ [_])].
  destruct (Room.participants r0 !! revoked_participant_id v); [by apply tame_same|done].
Qed.

Lemma revoke_each_tame reason ids r w : tame r (revoke_each reason ids r w).1.1.
Proof.
  revert r w. induction ids as [|id ids IH]; intros r w; cbn [revoke_each]; [done|].
  pose proof (revoke_tame (Some id) reason r w) as H1.
  destruct (revoke_unauthorized_producers (Some id) reason r w) as [[r1 w1] v1]. cbn in H1.
  specialize (IH r1 w1). destruct (revoke_each reason ids r1 w1) as [[r2 w2] v2]. cbn in *. by trans r1.
Qed.

Lemma publish_sanction_tame p r w : tame r (publish_sanction p r w).1.1.
Proof.
  unfold publish_sanction. cbv zeta. set (r0 := (apply_punitive_to_cohort _ _ _ _ _ _).1).
  assert (tame r r0) as H0 by by apply tame_same.
  destruct (bool_decide _ && _); [|done].
  match goal with |- context [revoke_each ?reason ?ids r0 ?q] =>
    pose proof (revoke_each_tame reason ids r0 q) as H1; destruct (revoke_each reason ids r0 q) as [[r1 q1] v1] end.
  cbn in *. trans r0; [done|]. trans r1; [done|]. by apply tame_same.
Qed.

(** There is room for another ban. *)
Definition ban_room (r : room) : Prop := (size (RoomSocial.bans (Room.social r)) < MAX_RUNTIME_BANS)%nat.

Lemma record_ban_ok fresh now wall s name authenticated ids ip reason duration :
  (size (RoomSocial.bans s) < MAX_RUNTIME_BANS)%nat -> memory_ok s ->
  memory_ok (record_ban fresh now wall s name authenticated ids ip reason duration).
Proof.
  intros Hroom [Hc []]. split; [by destruct Hc|]. split; [|done..]. unfold record_ban. cbn [RoomSocial.bans update_field].
  rewrite map_size_insert. destruct (RoomSocial.bans s !! fresh); cbn [id]; lia.
Qed.

Lemma remember_ban_tame fresh now wall p r : ban_room r -> tame r (remember_ban fresh now wall p r).
Proof.
  intros Hroom. unfold remember_ban, record_banned_cohort.
  destruct (RemovalPublication.authenticated p), (RemovalPublication.ip p); split; try done; by apply record_ban_ok.
Qed.

Lemma remove_members_tame notice ids r w sessions :
  tame r (foldl (remove_member notice) (r, w, sessions) ids).1.1.
Proof.
  revert r w sessions. induction ids as [|id ids IH]; intros r w sessions; cbn [foldl]; [done|].
  unfold remove_member at 2. destruct (Room.participants r !! id) as [p|]; [|apply IH].
  etransitivity; [|apply IH]. etransitivity; [|apply (delete_tame _ (keys (Participant.producers p)))]. by apply tame_same.
Qed.

Lemma publish_removal_tame fresh now wall p r w :
  (RemovalPublication.ban p = true -> ban_room r) -> tame r (publish_removal fresh now wall p r w).1.1.
Proof.
  intros Hroom. unfold publish_removal. cbv zeta. set (r0 := if RemovalPublication.ban p then _ else r).
  assert (tame r r0) as H0. { unfold r0. destruct (RemovalPublication.ban p); [by apply remember_ban_tame, Hroom|done]. }
  match goal with |- context [foldl (remove_member ?notice) (r0, w, []) ?ids] =>
    pose proof (remove_members_tame notice ids r0 w []) as H1;
    destruct (foldl (remove_member notice) (r0, w, []) ids) as [[r1 w1] sessions] end. cbn in H1.
  assert (forall notice ids, tame r1 (foldl (remove_waiting notice) (r1, w1) ids).1) as H2.
  { intros notice ids. apply (foldl_tame _ _ (r1, w1)). intros [r2 w2] id. cbn.
    destruct (Room.lobby r2 !! id); [by apply tame_same|done]. }
  match goal with |- context [if RemovalPublication.ban p then ?x else ?y] =>
    assert (tame r1 (if RemovalPublication.ban p then x else y).1) as H3 by (destruct (RemovalPublication.ban p); [apply H2|done]);
    destruct (if RemovalPublication.ban p then x else y) as [r3 w3] end.
  cbn in *. trans r0; [done|]. trans r1; [done|]. trans r3; [done|]. by apply tame_same.
Qed.

Lemma publish_role_tame target new_role granted_by r w : tame r (publish_role target new_role granted_by r w).1.1.
Proof.
  unfold publish_role. cbv zeta. match goal with |- context [revoke_unauthorized_producers ?f ?s ?r0 ?q] =>
    pose proof (revoke_tame f s r0 q) as H1; destruct (revoke_unauthorized_producers f s r0 q) as [[r1 w1] v] end.
  cbn in *. etransitivity; [|exact H1]. by apply tame_same.
Qed.

(** Lifting bans touches nobody. *)
Definition people (r : room) := (Room.participants r, Room.lobby r, Room.deleting r).

Lemma people_closed r r' : people r' = people r -> stays_closed r r'.
Proof. unfold people. intros [= E1 E2 E3] Hd. by rewrite E1, E2, E3. Qed.

Lemma publish_unban_tame user guest_ip released r :
  tame r (publish_unban user guest_ip released r) /\ people (publish_unban user guest_ip released r) = people r.
Proof.
  pose proof (fewer_runtime_bans_ok (fun b => ban_matches user guest_ip b.2 = false) (Room.social r)) as Hfewer.
  unfold publish_unban, forget_ban. set (lift := fun (r : room) id => _).
  assert (forall ids q, tame q (foldl lift q ids) /\ people (foldl lift q ids) = people q) as Hfold.
  { induction ids as [|i ids IH]; intros q; cbn [foldl]; [done|]. destruct (IH (lift q i)) as [IH1 IH2].
    split; [|done]. etransitivity; [|exact IH1]. by apply tame_same. }
  cbv zeta. match goal with |- tame r (bump_policy (foldl lift ?base ?ids)) /\ _ =>
    destruct (Hfold ids base) as [H1 H2]; assert (tame r base /\ people base = people r) as [H3 H4]
      by (destruct user, guest_ip; (split; [by split|done]));
    split; [trans base; [done|]; trans (foldl lift base ids); [done|by apply tame_same]|] end.
  by rewrite <-H4, <-H2.
Qed.

Lemma moved_event c I event r :
  fine I r -> moved c I r (r <| Room.social ::= fun s => record_moderation_event s event |>).
Proof. apply moved_chat; [apply record_event_ok|done]. Qed.

Lemma commit_punitive_tracks I target_id target pids lids kind enabled event persisted w s :
  covers s.1 (cohort_of target_id target) pids lids ->
  tracks true I (commit_punitive target_id target pids lids kind enabled event persisted w) s (fun _ _ => True).
Proof.
  intros Hc. unfold commit_punitive. track.
  set (s1 := (if persisted then _ else _ : handler failure (room * wire) unit)).
  assert (tracks true I s1 s (fun _ s' => control_view s'.1 = control_view s.1)) as H1.
  { unfold s1. destruct persisted; track; [done|apply moved_event|done]. }
  eapply tracks_mono; [|exact H1]. intros [] s' Hv. track; [|done].
  intros Hf. apply moved_live; [by apply (view_live s.1)| |apply publish_sanction_tame|done].
  apply publish_sanction_ok; [apply Hf|by apply (covers_view s.1)].
Qed.

(** ** Shapes of controlled requests *)

Lemma keeps_pure {E A B} L w (x : result E B) (f : B -> process (result E A)) :
  (forall b, x = Ok b -> keeps L w (f b)) -> keeps L w (try_bind (Return x) f).
Proof. intros Hf. destruct x as [b|e]; [by apply Hf|apply keeps_return]. Qed.

(** The room of the request, again. *)
Lemma keeps_get {A} w room_id a (f : N -> handled A) :
  known a w -> mapped room_id a w -> (forall w', known a w' -> keeps {[ControlLock a]} w' (f a)) ->
  keeps {[ControlLock a]} w (let? a := get_room room_id in f a).
Proof.
  intros Hk Hm Hf. eapply triple_try; [apply (triple_get_mapped _ w room_id a); [done|set_solver]| |done].
  intros ? w1 ? H1 (-> & _ & ->). apply Hf. by eapply known_evolves.
Qed.

Lemma keeps_uuid {A} L w (f : N -> process A) :
  (forall x w', frame L w w' -> keeps L w' (f x)) -> keeps L w (let* x := new_uuid in f x).
Proof.
  intros Hf. eapply triple_bind; [apply (calm_triple L), calmly_uuid|]. intros x w1 ? H1 (-> & Hfr & _). by apply Hf.
Qed.

(** A section whose findings [P] control protects: they hold again in any later
    section of the same request. *)
Definition seen {A} (a : N) (P : A -> room -> Prop) (x : A) (w : world) : Prop :=
  known a w /\ forall w' r, frame {[ControlLock a]} w w' -> heap w' !! a = Some r -> P x r.

Lemma seen_frame {A} a (P : A -> room -> Prop) x w w' :
  frame {[ControlLock a]} w w' -> seen a P x w -> seen a P x w'.
Proof.
  intros Hf [Hk Hs]. split; [eapply known_evolves; [apply Hf|done]|]. intros w2 r Hf2. apply Hs. by trans w'.
Qed.

Lemma known_frame L a w w' : frame L w w' -> known a w -> known a w'.
Proof. intros Hf. apply known_evolves, Hf. Qed.

Lemma keeps_authorize {A B} w a (m : world -> handler failure (room * wire) A) (P : A -> room -> Prop)
    (f : A -> handled B) :
  known a w ->
  (forall x r r', control_view r' = control_view r -> P x r -> P x r') ->
  (forall I w0 s, tracks true I (m w0) s (fun x s' => P x s'.1)) ->
  (forall x w', seen a P x w' -> keeps {[ControlLock a]} w' (f x)) ->
  keeps {[ControlLock a]} w (let? x := locked a m in f x).
Proof.
  intros Hk HP Hm Hf. assert (ControlLock a ∈ ({[ControlLock a]} : gset lock)) as HL by set_solver.
  eapply triple_try; [apply triple_locked; [done|done|intros; apply Hm]| |done].
  intros x w1 ? H1 [-> Hx]. apply Hf. split; [by eapply known_evolves|].
  intros w2 r Hfr Hr. eapply seen_again; [intros ? ?; apply HP|done..].
Qed.

(** The commit and what follows it outside control. *)
Lemma keeps_commit {A B} w a control (m : world -> handler failure (room * wire) A) (k : A -> handled B) :
  known a w ->
  (forall w0 r, frame {[ControlLock a]} w w0 -> heap w0 !! a = Some r ->
     tracks true (issued w0) (m w0) (r, the_wire w0) (fun _ _ => True)) ->
  (forall x w0, calmly w0 (k x)) ->
  keeps {[ControlLock a]} w (let? x := locked a m in release_control control (k x)).
Proof.
  intros Hk Hm Hc. eapply triple_try; [apply triple_locked with (Q := fun _ _ => True); [done|set_solver|eauto]| |done].
  intros x w1 ? H1 [-> _]. apply keeps_release. intros w0. apply Hc.
Qed.

Lemma calm_after {A} w room_id revoked active audio (x : A) :
  calmly w (let* _ := close_revoked_producers room_id revoked active audio in Return x).
Proof. eapply calm_bind; [apply calm_close_revoked|]. intros. apply calmly_return. Qed.

Section sanctions.
Context (mgr : manager).

Lemma keeps_authority {A} L w moderator_id moderator target_id target (f : sanction_identity -> handled A) :
  (forall i, keeps L w (f i)) -> keeps L w (let? i := sanction_authority moderator_id moderator target_id target in f i).
Proof.
  intros Hf. unfold sanction_authority. destruct (negb _); [apply keeps_return|]. apply keeps_pure. intros. apply Hf.
Qed.

Lemma keeps_punitive w room_id moderator expected target kind enabled reason :
  keeps ∅ w (update_punitive_state mgr room_id moderator expected target kind enabled reason).
Proof.
  apply keeps_control. intros a w0 Hk Hm. unfold update_punitive_state_controlled.
  destruct (is_some_and reason _); [apply keeps_return|]. apply keeps_get; [done..|]. intros w1 Hk1.
  apply keeps_uuid. intros event w2 H2.
  apply keeps_authorize with (P := fun found r => from_option (fun found => covers_found target found r) True found);
    [by eapply known_frame| |intros; apply authorize_punitive_tracks|].
  { intros [found|] r r'; [apply covers_found_view|done]. }
  intros [[[[[[m t] pids] lids] ev] persisted]|] w3 [Hk3 Hseen]; [|apply keeps_return].
  match goal with |- context [if persisted then _ else ?c] => set (commit := c) end.
  assert (keeps {[ControlLock a]} w3 commit) as Hcommit.
  { apply keeps_commit; [done| |intros; apply calm_after]. intros w4 r Hf Hr. by apply commit_punitive_tracks, (Hseen w4 r). }
  destruct persisted; [|done]. apply keeps_pure. intros _ _. apply keeps_authority. intros i.
  by apply keeps_persisting; [|set_solver|].
Qed.
End sanctions.

(** ** Kicks and bans *)

Lemma tracks_social {A} c I (f : room_social -> room_social * result failure A) s (Q : A -> room * wire -> Prop) :
  (forall s0, memory_ok s0 -> memory_ok (f s0).1) ->
  (c = false -> forall s0, RoomSocial.bans (f s0).1 = RoomSocial.bans s0) ->
  (forall x, (f (Room.social s.1)).2 = Ok x -> Q x (s.1 <| Room.social := (f (Room.social s.1)).1 |>, s.2)) ->
  tracks c I (fun s => let '(social, res) := f (Room.social s.1) in ((s.1 <| Room.social := social |>, s.2), res)) s Q.
Proof.
  intros Hs Hb HQ Hf.
  assert (moved c I s.1 (s.1 <| Room.social := (f (Room.social s.1)).1 |>)) as Hm.
  { destruct c; [|by apply moved_chat; auto]. apply moved_books; [|done]. intros. by apply Hs. }
  destruct (f (Room.social s.1)) as [social [x|e]]; (split; [exact Hm|]); [by apply HQ|done].
Qed.

Lemma record_locally_tracks c I wall report event s (Q : unit -> room * wire -> Prop) :
  (forall r, control_view r = control_view s.1 -> Q tt (r, s.2)) ->
  tracks c I (record_locally wall report event) s Q.
Proof.
  intros HQ. unfold record_locally. apply tracks_bind.
  assert (tracks c I (match report with
    | Some id => fun s => let '(social, res) := link_report wall (pretty.pretty id) (Room.social s.1) in
                          ((s.1 <| Room.social := social |>, s.2), res)
    | None => hret tt end) s (fun _ s' => control_view s'.1 = control_view s.1 /\ s'.2 = s.2)) as H1.
  { destruct report; [|by apply tracks_ret]. apply tracks_social; [apply link_report_ok|intros _ s0; by apply link_report_bans|].
    intros x _. split; [|done]. unfold control_view. cbn. by rewrite link_report_bans. }
  eapply tracks_mono; [|exact H1]. intros [] [r q] [Hv Hq]. cbn in Hv, Hq. subst q. track; [apply moved_event|].
  by apply HQ.
Qed.

Lemma publish_removal_tracks {E} I fresh now wall p s (Q : list removed_session -> room * wire -> Prop) :
  Room.deleting s.1 = false ->
  (RemovalPublication.ban p = true -> exists target,
     covers s.1 (for_identity target (RemovalPublication.authenticated p) (RemovalPublication.ip p))
       (RemovalPublication.participants p) (RemovalPublication.lobby p)) ->
  (RemovalPublication.ban p = true -> ban_room s.1) ->
  (forall x s', Q x s') -> tracks (E := E) true I (publish (publish_removal fresh now wall p)) s Q.
Proof.
  intros Hl Hc Hroom HQ. apply tracks_publish; [|done]. intros Hf.
  apply moved_live; [done| |by apply publish_removal_tame|done]. apply publish_removal_ok; [apply Hf|done].
Qed.

Lemma publish_kick_tracks I target_id target reason w s :
  Room.deleting s.1 = false ->
  tracks true I (publish_kick target_id target reason w) s (fun _ _ => True).
Proof.
  intros Hl. unfold publish_kick. apply tracks_bind. apply publish_removal_tracks; [done..|].
  intros [|session sessions] s'; track. done.
Qed.

Lemma authorize_kick_tracks c I moderator expected target reason report event w s (Q : _ -> room * wire -> Prop) :
  (forall x s', Room.deleting s'.1 = false -> Q x s') ->
  tracks c I (authorize_kick moderator expected target reason report event w) s Q.
Proof. intros HQ. unfold authorize_kick. track. apply HQ. by eapply sender_live. Qed.

Lemma kick_section_tracks I moderator expected target reason report event w s :
  tracks true I (kick_section moderator expected target reason report event w) s (fun _ _ => True).
Proof.
  unfold kick_section. apply tracks_bind, authorize_kick_tracks. intros [[t ev] []] s' Hl; [by apply tracks_ret|].
  apply tracks_bind, record_locally_tracks. intros r Hv. apply tracks_bind.
  eapply tracks_mono; [|apply publish_kick_tracks; by apply (view_live s'.1)]. intros session s2 _. by apply tracks_ret.
Qed.

(** An authorized ban also has its place in the table. *)
Definition ban_found (target_id : participant_id)
  (found : participant * participant * list participant_id * list participant_id * moderation_event * bool)
  (r : room) : Prop := covers_found target_id found r /\ ban_room r.

Lemma ban_found_view target found r r' :
  control_view r' = control_view r -> ban_found target found r -> ban_found target found r'.
Proof.
  intros Hv [Hc Hr]. split; [by eapply covers_found_view|]. unfold ban_room in *. unfold control_view in Hv.
  by injection Hv as _ _ _ _ _ _ _ -> _.
Qed.

Lemma authorize_ban_tracks I moderator expected target reason duration report event w s :
  tracks true I (authorize_ban moderator expected target reason duration report event w) s
    (fun found s' => ban_found target found s'.1).
Proof.
  apply tracks_fine. intros [Hok _ Hmem]. unfold authorize_ban. track.
  apply tracks_social; [intros s0 Hs0; by apply reserve_ban_ok|done|]. intros [] Hres. track. split.
  - cbn. apply (covers_same s.1); [done..|]. eapply cohort_covers; [apply Hok|by apply target_of_ok|done..].
  - apply (reserve_ban_ok (clock w) (Room.social s.1) Hmem). by rewrite Hres.
Qed.

Lemma commit_ban_tracks I target_id target pids lids reason duration report event persisted ban_id w s :
  covers s.1 (cohort_of target_id target) pids lids -> ban_room s.1 ->
  tracks true I (commit_ban target pids lids reason duration report event persisted ban_id w) s (fun _ _ => True).
Proof.
  intros Hc Hroom. unfold commit_ban. track.
  set (s1 := (if persisted then _ else _ : handler failure (room * wire) unit)).
  assert (tracks true I s1 s (fun _ s' => control_view s'.1 = control_view s.1)) as H1.
  { unfold s1. destruct persisted; [by apply tracks_ret|]. by apply record_locally_tracks. }
  eapply tracks_mono; [|exact H1]. intros [] s' Hv. apply publish_removal_tracks; [by apply (view_live s.1)| | |done].
  - intros _. exists target_id. by apply (covers_view s.1).
  - intros _. unfold ban_room, control_view in *. by injection Hv as _ _ _ _ _ _ _ -> _.
Qed.

Section removals.
Context (mgr : manager).

Lemma keeps_kick w room_id moderator expected target reason report :
  keeps ∅ w (kick_participant mgr room_id moderator expected target reason report).
Proof.
  unfold kick_participant. eapply triple_try; [apply calm_get_room| |done]. intros a w1 ? H1 (-> & _ & Hk).
  eapply triple_try with (Q' := fun _ _ _ => True); [| |done].
  2: { intros session w2 L2 _ _. eapply keeps_calm. eapply calm_bind; [apply calmly_media|]. intros. apply calmly_return. }
  apply triple_holding. intros w2 _ Hf2 Hi2. rewrite union_empty_r_L.
  eapply triple_mono with (Q := fun _ _ _ => True); [done|]. apply keeps_uuid. intros event w3 H3.
  assert (known a w3) as Hk3 by (eapply known_frame, known_frame; eassumption).
  apply keeps_authorize with (P := fun _ _ => True); [done|done|intros; apply kick_section_tracks|].
  intros [[t ev] [session|]] w4 [Hk4 _]; [apply keeps_return|]. apply keeps_pure. intros _ _.
  apply keeps_persisting; [done|set_solver|]. intros _. eapply keeps_of, triple_locked with (Q := fun _ _ => True);
    [done|set_solver|]. intros. unfold commit_kick. track. by apply publish_kick_tracks.
Qed.

Lemma calm_close_sessions {A} w room_id (x : A) sessions :
  calmly w (let* _ := for_each (fun s => let* _ := call_media (RemoveParticipant
      (media_participant_id room_id (removed_participant_id s) (removed_media_session_id s))) in Return tt) sessions in
    Return x).
Proof. eapply calm_bind; [apply calm_for_each; intros; calm_go|]. intros. apply calmly_return. Qed.

Lemma keeps_ban w room_id moderator expected target reason duration report :
  keeps ∅ w (ban_participant mgr room_id moderator expected target reason duration report).
Proof.
  apply keeps_control. intros a w0 Hk Hm. unfold ban_participant_controlled.
  destruct (is_some_and duration _); [apply keeps_return|]. destruct (is_some_and reason _); [apply keeps_return|].
  apply keeps_get; [done..|]. intros w1 Hk1. apply keeps_uuid. intros event w2 H2.
  apply keeps_authorize with (P := ban_found target);
    [by eapply known_frame|intros; by eapply ban_found_view|intros; apply authorize_ban_tracks|].
  intros [[[[[m t] pids] lids] ev] persisted] w3 [Hk3 Hseen].
  match goal with |- context [if persisted then _ else ?c] => set (commit := c) end.
  assert (keeps {[ControlLock a]} w3 commit) as Hcommit.
  { apply keeps_uuid. intros ban_id w4 H4.
    apply keeps_commit; [by eapply known_frame| |intros; apply calm_close_sessions].
    intros w5 r Hf Hr. destruct (Hseen w5 r) as [Hc Hroom]; [by trans w4|done|]. by apply commit_ban_tracks with target. }
  destruct persisted; [|done]. apply keeps_pure. intros _ _. apply keeps_authority. intros i.
  by apply keeps_persisting; [|set_solver|].
Qed.
End removals.

(** ** Unbans and roles *)

Lemma prune_bans_moved I now r : fine I r -> moved true I r (prune_expired_bans now r).
Proof. intros Hf. apply moved_tame; [by apply prune_expired_bans_ok, Hf|by apply tame_same|by intros|done]. Qed.

Lemma unban_moved I target r : fine I r -> moved true I r (r <| Room.banned_participants ::= delete target |>).
Proof.
  intros Hf. apply moved_tame; [|by apply tame_same|by intros|done].
  apply (fewer_bans_ok r); [done| |done|apply Hf]. cbn. intros id [x [_ Hx]%lookup_delete_Some]. by exists x.
Qed.

Lemma authorize_unban_tracks I moderator expected target w s :
  tracks true I (authorize_unban moderator expected target w) s (fun _ _ => True).
Proof. unfold authorize_unban. track; [by apply prune_bans_moved|done]. Qed.

Lemma commit_unban_tracks I moderator name target removed event w s :
  tracks true I (commit_unban moderator name target removed event w) s (fun _ _ => True).
Proof.
  unfold commit_unban. track; [by apply unban_moved|].
  unfold forget_user_ban. track; [apply moved_books, fewer_runtime_bans_ok|].
  destruct (Room.persisted s.1); track; [done|apply moved_event|done].
Qed.

Lemma authorize_role_tracks I setter expected target new_role w s :
  tracks true I (authorize_role setter expected target new_role w) s (fun _ _ => True).
Proof. unfold authorize_role. track. match goal with |- tracks _ _ (if ?b then _ else _) _ _ => destruct b end; by track. Qed.

Lemma commit_role_tracks I setter target new_role w s :
  tracks true I (commit_role setter target new_role w) s (fun _ _ => True).
Proof.
  unfold commit_role. track; [|done]. intros Hf. apply moved_live; [done| |apply publish_role_tame|done].
  apply publish_role_ok, Hf.
Qed.

Section standing.
Context (mgr : manager).

Lemma keeps_unban w room_id moderator expected target :
  keeps ∅ w (unban_participant mgr room_id moderator expected target).
Proof.
  apply keeps_control. intros a w0 Hk Hm. unfold unban_participant_controlled. apply keeps_get; [done..|]. intros w1 Hk1.
  apply keeps_authorize with (P := fun _ _ => True); [done|done|intros; apply authorize_unban_tracks|].
  intros [m persisted] w2 [Hk2 _].
  assert (forall b, keeps {[ControlLock a]} w2 (let* event := new_uuid in
    let? _ := locked a (commit_unban moderator (Participant.name m) target b event) in
    release_control a (Return (Ok tt)))) as Hcommit.
  { intros b. apply keeps_uuid. intros event w3 H3.
    apply keeps_commit; [by eapply known_frame|intros; apply commit_unban_tracks|intros; apply calmly_return]. }
  destruct persisted; [|apply Hcommit]. apply keeps_pure. intros _ _. by apply keeps_persisting; [|set_solver|].
Qed.

Lemma keeps_role_controlled w room_id a setter expected target new_role :
  known a w -> mapped room_id a w ->
  keeps {[ControlLock a]} w (set_participant_role_controlled mgr room_id setter expected target new_role a).
Proof.
  intros Hk Hm. unfold set_participant_role_controlled. apply keeps_get; [done..|]. intros w1 Hk1.
  apply keeps_authorize with (P := fun _ _ => True); [done|done|intros; apply authorize_role_tracks|].
  intros [[[m t] persisted]|] w2 [Hk2 _]; [|apply keeps_return].
  match goal with |- context [if persisted then _ else ?c] => set (commit := c) end.
  assert (keeps {[ControlLock a]} w2 commit) as Hcommit.
  { apply keeps_commit; [done|intros; apply commit_role_tracks|intros; apply calm_after]. }
  destruct persisted; [|done]. destruct (_ || _); [apply keeps_return|]. apply keeps_pure. intros _ _.
  by apply keeps_persisting; [|set_solver|].
Qed.

Lemma keeps_role w room_id setter expected target new_role :
  keeps ∅ w (set_participant_role mgr room_id setter expected target new_role).
Proof. apply keeps_control. intros. by apply keeps_role_controlled. Qed.
End standing.

(** ** Settings *)

Lemma reserve_password_tracks I admin expected w s :
  tracks true I (reserve_password_change admin expected w) s (fun _ _ => True).
Proof. unfold reserve_password_change. track; [by apply moved_budget|done]. Qed.

Lemma authorize_settings_tracks I room_id admin expected patch reserved w s :
  tracks true I (authorize_settings room_id admin expected patch reserved w) s (fun _ _ => True).
Proof. unfold authorize_settings. track. destruct (_ && _); [by track|]. destruct reserved; by track. Qed.

(** Settings are published together with the revocation they call for. *)
Lemma tracks_set_publish {E A B} c I (f : room -> room) (g : room -> wire -> room * wire * B)
    (k : B -> handler E (room * wire) A) s Q :
  (fine I s.1 -> moved c I s.1 (g (f s.1) s.2).1.1) ->
  tracks c I (k (g (f s.1) s.2).2) (g (f s.1) s.2).1 Q ->
  tracks c I (set_room f ;; let! x := publish g in k x)%handler s Q.
Proof.
  intros Hm Hk Hf. unfold hbind, set_room, publish in *. cbn. specialize (Hm Hf).
  destruct (g (f s.1) s.2) as [[r q] x]. cbn in *. destruct (Hk (mv_fine _ _ _ _ Hm)) as [Hm2 HQ].
  split; [by eapply moved_trans|done].
Qed.

Lemma commit_settings_tracks I updated hash w s :
  tracks true I (commit_settings updated hash w) s (fun _ _ => True).
Proof.
  unfold commit_settings. track.
  set (s1 := (match hash with Some hash => _ | None => _ end : handler failure (room * wire) unit)).
  assert (tracks true I s1 s (fun _ s' => Room.deleting s'.1 = false)) as H1.
  { unfold s1. destruct hash; track; [|done..]. intros Hf. apply moved_live; [done| |by apply tame_same|done].
    by apply (room_ok_core s.1), Hf. }
  eapply tracks_mono; [|exact H1]. intros [] s' Hl'. apply tracks_set_publish; [|by track].
  intros Hf. apply moved_live; [done| |etransitivity; [|apply revoke_tame]; by apply tame_same|done].
  apply (settings_ok (bump_policy s'.1)). by apply (room_ok_core s'.1), Hf.
Qed.

Section settings.
Context (mgr : manager).

Lemma keeps_settings w room_id admin expected patch :
  keeps ∅ w (SettingsOps.update_room_settings mgr room_id admin expected patch).
Proof.
  apply keeps_control. intros a w0 Hk Hm. unfold update_room_settings_controlled. apply keeps_get; [done..|]. intros w1 Hk1.
  apply keeps_authorize with (P := fun _ _ => True); [done|done|intros; by track|]. intros _ w2 [Hk2 _].
  destruct (negb _); [apply keeps_return|]. destruct (negb _); [apply keeps_return|].
  eapply triple_try with (Q' := fun _ w' L' => L' = {[ControlLock a]} /\ known a w'); [| |done].
  { destruct (SettingsPatch.password patch) as [[value|]|]; [|by apply triple_return..].
    destruct (negb _); [by apply triple_return|].
    eapply triple_try; [apply triple_locked with (Q := fun _ _ => True); [done|set_solver|intros; apply reserve_password_tracks]|..].
    - intros [] w3 ? H3 [-> _]. apply triple_ask_bind. intros hash. apply triple_return. split; [done|]. by eapply known_evolves.
    - intros e w3 ? H3 [-> _]. split; [done|]. by eapply known_evolves. }
  intros [hash reserved] w3 ? H3 [-> Hk3].
  apply keeps_authorize with (P := fun _ _ => True); [done|done|intros; apply authorize_settings_tracks|].
  intros [[updated persisted]|] w4 [Hk4 _]; [|apply keeps_return].
  match goal with |- context [if persisted then _ else ?c] => set (commit := c) end.
  assert (keeps {[ControlLock a]} w4 commit) as Hcommit.
  { apply keeps_commit; [done|intros; apply commit_settings_tracks|intros; apply calm_after]. }
  destruct persisted; [|done]. apply keeps_pure. intros _ _. by apply keeps_persisting; [|set_solver|].
Qed.

Lemma commit_topic_tracks I room_id admin topic w s :
  tracks true I (commit_topic room_id admin topic w) s (fun _ _ => True).
Proof.
  unfold commit_topic. track; [|done]. intros Hf. apply moved_live; [done| |by apply tame_same|done]. by apply with_topic_ok, Hf.
Qed.

Lemma keeps_topic w room_id admin expected topic : keeps ∅ w (set_topic mgr room_id admin expected topic).
Proof.
  apply keeps_control. intros a w0 Hk Hm. unfold set_topic_controlled. destruct (_ || _); [apply keeps_return|].
  apply keeps_get; [done..|]. intros w1 Hk1. apply keeps_authorize with (P := fun _ _ => True); [done|done| |].
  { intros. unfold authorize_topic. track. case_bool_decide; by track. }
  intros [persisted|] w2 [Hk2 _]; [|apply keeps_return].
  match goal with |- context [if persisted then _ else ?c] => set (commit := c) end.
  assert (keeps {[ControlLock a]} w2 commit) as Hcommit.
  { apply keeps_commit; [done|intros; apply commit_topic_tracks|intros; apply calmly_return]. }
  destruct persisted; [|done]. apply keeps_pure. intros _ _. by apply keeps_persisting; [|set_solver|].
Qed.
End settings.
