(* ===== verification/ArrivalHandlers.v ===== *)
(** * Arrivals and departures

    Lobby decisions, joins with their reservation, departures, the eviction of
    empty rooms and the creation of new ones keep the invariant whatever runs
    in between. *)

From S2P Require Import Prelude Refusal Net Roles Window RateTable Labels Settings Protocol Moderation Wire Social Room Media Publication RoomInv RoomSteps Process Triples World ModerationOps SettingsOps Lobby Membership MediaOps WorldInv Sections CalmHandlers ControlHandlers.

Open Scope process_scope.

(** ** The lobby *)

Lemma leave_lobby_moved I id r : fine I r -> moved true I r (r <| Room.lobby ::= delete id |>).
Proof.
  intros Hf. apply moved_tame; [|by apply tame_same| |done].
  2: { intros Hd. split; [done|]. split; [done|]. cbn. intros ->. apply delete_empty. }
  replace (r <| Room.lobby ::= delete id |>) with (drop_waiting [id] r); [by apply drop_waiting_ok, Hf|].
  unfold drop_waiting. cbn. f_equal. apply map_eq. intros i. apply option_eq. intros e.
  rewrite map_lookup_filter_Some, lookup_delete_Some. cbn. rewrite list_elem_of_singleton. split; intros []; split; congruence.
Qed.

(** A test of the room or the queues that may end the request. *)
Lemma tracks_test c I (test : room * wire -> bool) m s (Q : unit -> room * wire -> Prop) :
  (test s = false -> Q tt s) -> tracks c I (fun s => (if test s then anyhow_bail m else hret tt) s) s Q.
Proof. intros HQ Hf. destruct (test s); (split; [by apply moved_refl|]); cbn; auto. Qed.

Lemma check_admission_tracks mgr I target w s :
  tracks true I (check_admission mgr target w) s (fun _ _ => True).
Proof.
  unfold check_admission. track; [by apply prune_bans_moved|]. 
  apply (tracks_test _ _ (fun s => is_closed s.2 _)). intros _. by track.
Qed.

(** The sanction someone is admitted under is the remembered one. *)
Lemma merge_remembered p (o : option punitive_state) : p = default no_sanction o -> merge_punitive_state p o = default no_sanction o.
Proof. intros ->. destruct o as [[[] []]|]; done. Qed.

Lemma admitted_moved I session r e prefs :
  let id := LobbyEntry.participant_id e in
  Room.deleting r = false -> Room.participants r !! id = None -> Room.lobby r !! id = None ->
  identity_is_banned r id (LobbyEntry.authenticated e) (LobbyEntry.ip e) = false ->
  (Room.persisted r = false -> LobbyEntry.punitive e = sanction_of r (waiting_key e)) -> fine I r ->
  moved true I r (r <| Room.participants ::= <[id := admitted session r e prefs]> |>).
Proof.
  intros id Hlive Hp Hl Hb Hs Hf. apply moved_live; [done| |by apply tame_same|done].
  apply (add_member_ok r (admitted session r e prefs)); try done; [apply Hf|].
  intros Hper. specialize (Hs Hper). cbn. by apply merge_remembered.
Qed.

Lemma commit_admission_tracks I authorize target prefs session token w s :
  tracks true I (commit_admission authorize target prefs session token w) s (fun _ _ => True).
Proof.
  apply tracks_fine. intros [Hok _ _]. unfold commit_admission. track.
  apply (tracks_test _ _ (fun s' => match Room.lobby s.1 !! target with Some e => is_closed s'.2 (LobbyEntry.sender e) | None => true end)).
  intros _. destruct (Room.lobby s.1 !! target) as [e|] eqn:He; [cbn [ok_or]|by track].
  assert (LobbyEntry.participant_id e = target) as Hid by by apply (ok_lobby _ (ok_struct _ Hok)).
  track; [by apply leave_lobby_moved| |done].
  match goal with Hx : Ok _ = Ok _ |- _ => injection Hx as <- end. apply admitted_moved; rewrite ?Hid; cbn; [done|..].
  - destruct (Room.participants s.1 !! target) as [p|] eqn:Hp; [|done].
    pose proof (ok_apart _ (ok_struct _ Hok) target ltac:(by exists p)). congruence.
  - apply lookup_delete_eq.
  - by apply (ok_lobby_bans _ (ok_struct _ Hok)).
  - intros Hper. by apply (ok_lobby_sanctions _ (ok_struct _ Hok) Hper target).
Qed.

Section lobby.
Context (mgr : manager).

Lemma calm_preferences w authenticated id : calmly w (membership_chat_preferences mgr authenticated id).
Proof. unfold membership_chat_preferences. calm_go. Qed.

Lemma admission_section_ok a authorize target prefs session token w :
  world_ok w -> known a w ->
  section_ok {[ControlLock a]} w (admission_section a authorize target prefs session token w).1.
Proof.
  intros Hi Hk. unfold admission_section.
  destruct (tracks_section true {[ControlLock a]} a (commit_admission authorize target prefs session token) w
    (fun _ _ => True)) as [Hs _]; [done|done|set_solver|intros; apply commit_admission_tracks|].
  destruct (locked_section a _ w) as [w1 [e|e]]; cbn [fst snd] in *; [|exact Hs].
  by apply (section_then_quiet _ w w1).
Qed.

(** [a] is a room of that name. *)
Definition named (room_id : string) (a : N) (w : world) : Prop :=
  exists r, heap w !! a = Some r /\ Room.id r = room_id.

Lemma named_evolves room_id a w w' : evolves w w' -> named room_id a w -> named room_id a w'.
Proof.
  intros He (r & Hr & Hid). destruct (ev_heap _ _ He a r Hr) as (r' & Hr' & Hid' & _). exists r'. split; congruence.
Qed.

Lemma named_known room_id a w : named room_id a w -> known a w.
Proof. intros (r & Hr & _). by exists r. Qed.

Lemma calm_get_named w room_id :
  calm w (get_room room_id) (fun res w' => match res with Ok a => named room_id a w' | Err _ => True end).
Proof.
  apply calm_read. intros w0 He Hi. destruct (rooms w0 !! room_id) as [a|] eqn:Ea; cbn; [|done].
  by apply (ok_map _ Hi).
Qed.

(** Under control, the name of a room that was found alive leads to it. *)
Lemma keeps_get_live {A B} w room_id a (x : A) (f : N -> handled B) :
  named room_id a w -> seen a (fun _ r => Room.deleting r = false) x w ->
  (forall w', known a w' -> keeps {[ControlLock a]} w' (f a)) ->
  keeps {[ControlLock a]} w (let? a := get_room room_id in f a).
Proof.
  intros Hn [Hk Hs] Hf. eapply triple_try with (Q' := fun res w' L' => L' = {[ControlLock a]} /\ known a w' /\
    match res with Ok a' => a' = a | Err _ => True end); [| |done].
  - apply triple_atomic. intros w0 Hfr Hi. split; [by apply quiet_section|]. cbn. split; [done|].
    destruct (named_evolves _ _ _ _ (fr_evolves _ _ _ Hfr) Hn) as (r & Hr & <-). split; [by exists r|].
    destruct (ok_placed _ Hi a r Hr) as [->|[[_ ->]|[Hd _]]]; [done..|]. rewrite (Hs w0 r Hfr Hr) in Hd. done.
  - intros ? w1 ? H1 (-> & Hk1 & ->). by apply Hf.
Qed.

(** A decision of a moderator, under control. *)
Lemma keeps_decision w room_id moderator expected refusal (decide : N -> handled unit) :
  (forall a w0, named room_id a w0 -> seen a (fun _ r => Room.deleting r = false) tt w0 ->
     keeps {[ControlLock a]} w0 (decide a)) ->
  keeps ∅ w (lobby_decision room_id moderator expected refusal decide).
Proof.
  intros Hd. unfold lobby_decision. eapply triple_try; [apply calm_get_named| |done]. intros a w1 ? H1 (-> & _ & Hn).
  apply triple_holding. intros w2 _ Hf2 Hi2. rewrite union_empty_r_L.
  pose proof (named_evolves _ _ _ _ (fr_evolves _ _ _ Hf2) Hn) as Hn2.
  eapply triple_mono with (Q := fun _ _ _ => True); [done|].
  eapply triple_try; [eapply triple_locked with (Q := fun _ r => Room.deleting r = false)| |done].
  - by eapply named_known.
  - set_solver.
  - intros. track. by eapply sender_live.
  - intros [] w3 ? H3 [-> Hx]. apply Hd; [by eapply named_evolves|].
    split; [eapply named_known, named_evolves; eassumption|]. intros w4 r Hf4 Hr.
    eapply (seen_again _ w3 w4 a (fun _ r => Room.deleting r = false) tt); [|done|set_solver|done..].
    intros r1 r2. apply view_live.
Qed.

Lemma keeps_admit w room_id moderator expected target :
  keeps ∅ w (admit_from_lobby mgr room_id moderator expected target).
Proof.
  apply keeps_decision. intros a w0 Hn Hs. eapply keeps_get_live; [done..|]. intros w1 Hk1.
  apply keeps_authorize with (P := fun _ _ => True); [done|done|intros; apply check_admission_tracks|].
  intros authenticated w2 [Hk2 _]. eapply triple_try; [apply calm_preferences| |done].
  intros prefs w3 ? H3 (-> & Hf3 & _). apply keeps_uuid. intros session w4 Hf4. apply keeps_uuid. intros token w5 Hf5.
  eapply triple_try with (Q' := fun _ _ _ => True); [| |done].
  - apply triple_atomic. intros w6 Hf6 Hi6. split; [|done]. apply admission_section_ok; [done|].
    by repeat (eapply known_frame; [eassumption|]).
  - intros e w6 L6 _ _. apply keeps_release. intros. apply calmly_return.
Qed.

Lemma keeps_deny w room_id moderator expected target reason :
  keeps ∅ w (deny_from_lobby room_id moderator expected target reason).
Proof.
  apply keeps_decision. intros a w0 Hn Hs. eapply keeps_get_live; [done..|]. intros w1 Hk1.
  eapply keeps_of, triple_locked with (Q := fun _ _ => True); [done|set_solver|].
  intros. unfold commit_denial. track; [by apply leave_lobby_moved|done].
Qed.
End lobby.

(** ** Leaving the map *)

(** A section that takes a closed, deserted room out of the map. *)
Section unmap.
Context (L : gset lock) (w w' : world) (a : N) (r r' : room) (room_id : string).
Context (Hi : world_ok w) (Hr : heap w !! a = Some r) (Hm : rooms w !! room_id = Some a).
Context (Hw : shared w' = (<[a := r']> (heap w), next_address w, delete room_id (rooms w), issued w, draining w)).
Context (Hf : fine (issued w) r') (Hid : Room.id r' = Room.id r) (Hper : Room.persisted r' = Room.persisted r).
Context (Hclosed : Room.deleting r' = true) (Hempty : deserted r') (HL : ControlLock a ∈ L).

Lemma unmap_evolves : evolves w w'.
Proof.
  unfold shared in Hw. injection Hw as E1 E2 E3 E4 E5. split; rewrite ?E1, ?E3, ?E4, ?E5; auto.
  - intros b q Hq. destruct (decide (b = a)) as [->|Hne].
    + exists r'. rewrite lookup_insert_eq. split; [done|]. split; congruence.
    + exists q. by rewrite lookup_insert_ne.
  - intros _. apply delete_subseteq.
Qed.

Lemma unmap_world_ok : world_ok w'.
Proof.
  destruct Hi as [H1 Hc H2 H3 H4 H5]. unfold shared in Hw. injection Hw as E1 E2 E3 E4 E5.
  split; unfold placed; rewrite ?E1, ?E2, ?E3, ?E4, ?E5.
  - intros b q [[<- <-]|[_ Hq]]%lookup_insert_Some; [apply Hf|eauto].
  - intros b q [[<- <-]|[_ Hq]]%lookup_insert_Some; [apply Hf|eauto].
  - intros b q [[<- <-]|[_ Hq]]%lookup_insert_Some; [apply Hf|eauto].
  - intros b Hb. apply H3. apply lookup_insert_is_Some' in Hb as [->|Hb]; [by exists r|done].
  - intros id b [_ Hb]%lookup_delete_Some. destruct (H4 id b Hb) as (q & Hq & Hidq). destruct (decide (b = a)) as [->|Hne].
    + exists r'. rewrite lookup_insert_eq. split; [done|]. congruence.
    + exists q. by rewrite lookup_insert_ne.
  - intros b q [[<- <-]|[Hne Hq]]%lookup_insert_Some; [by right; right|].
    destruct (decide (Room.id q = room_id)) as [Hq'|Hne'].
    + destruct (H5 b q Hq) as [Hp|[[_ Hp]|Hp]]; [congruence..|by right; right].
    + rewrite lookup_delete_ne by done. by apply (H5 b q).
Qed.

Lemma unmap_section_ok : section_ok L w w'.
Proof.
  pose proof unmap_evolves as He. pose proof unmap_world_ok as Hok.
  unfold shared in Hw. injection Hw as E1 E2 E3 E4 E5. split; [done..| |].
  - split; rewrite E3.
    + intros id b b' Hb [_ Hb']%lookup_delete_Some. congruence.
    + intros id b Hb Hnone. right. destruct (decide (id = room_id)) as [->|Hne].
      * exists r'. rewrite E1. replace b with a by congruence. by rewrite lookup_insert_eq.
      * rewrite lookup_delete_ne in Hnone by done. congruence.
  - intros l Hl. split; [done|]. destruct l as [|b]; cbn; [rewrite E3; apply subseteq_dom, delete_subseteq|].
    assert (b <> a) as Hne by (intros ->; done). split.
    + intros q Hq. exists q. by rewrite E1, lookup_insert_ne.
    + intros id Hb. left. rewrite E3, lookup_delete_ne; [done|]. congruence.
Qed.
End unmap.

Lemma evict_section_ok L w room_id a r r1 should_remove :
  world_ok w -> heap w !! a = Some r -> moved false (issued w) r r1 -> ControlLock a ∈ L ->
  (should_remove = true -> rooms w !! room_id = Some a /\ deserted r1) ->
  section_ok L w (evict_section room_id a r1 should_remove w).1.
Proof.
  intros Hi Hr Hmv HL Hrem. unfold evict_section. destruct should_remove; cbn [fst].
  - destruct (Hrem eq_refl) as [Hm Hd]. destruct Hmv as [[M1 M2 Mc] M3 M4 _ _].
    apply (unmap_section_ok L w _ a r (bump_policy (r1 <| Room.deleting := true |>)) room_id); try done.
    split; [by apply (room_ok_core r1)|done..].
  - by apply (move_section false L w _ a r r1).
Qed.

(** ** Departures *)

Lemma depart_moved I id p r :
  Room.participants r !! id = Some p -> fine I r ->
  moved true I r (r <| Room.participants ::= delete id |> <| Room.producer_to_participant ::= unindex p |>).
Proof.
  intros Hp Hf. pose proof Hf as [Hok Hix _].
  pose proof (remove_one_room r id (ok_index _ (ok_struct _ Hok))) as Hone. rewrite Hp in Hone.
  apply moved_tame; [rewrite Hone; by apply drop_members_ok| | |done].
  - etransitivity; [|apply (delete_tame _ (keys (Participant.producers p)))]. by apply tame_same.
  - intros Hd. split; [done|]. split; [|done]. cbn. intros He. by rewrite He, lookup_empty in Hp.
Qed.

Lemma departure_tracks I id expected w s :
  tracks true I (departure_section id expected w) s (fun _ _ => True).
Proof.
  unfold departure_section. track. destruct (is_some_and expected _); [by apply tracks_ret|].
  set (leave := (match Room.lobby s.1 !! id with Some _ => _ | None => _ end : handler failure (room * wire) departure)).
  assert (tracks true I leave s (fun _ _ => True)) as H1.
  { unfold leave. destruct (Room.lobby s.1 !! id); track; [by apply leave_lobby_moved|done..]. }
  apply tracks_bind. eapply tracks_mono; [|exact H1]. intros d s' _. track.
  destruct (Room.participants s'.1 !! id) as [p|] eqn:Hp; track; [|done..]. by apply depart_moved.
Qed.

Lemma calm_teardown w room_id token : calmly w (teardown_evicted room_id token).
Proof.
  unfold teardown_evicted. destruct token as [token|]; [|apply calmly_return].
  eapply calm_bind; [apply calm_remove_router|]. intros removed w1 _ _.
  apply calm_quiet; [|done]. intros w0. unfold release_deletion_reservation_after_router_teardown, release_deletion_reservation.
  destruct removed; [|done]. by case_bool_decide.
Qed.

(** Creation and control, for the last look at a room. *)
Definition both_locks (a : N) : gset lock := {[ControlLock a]} ∪ {[CreationLock]}.

Lemma keeps_both {A} w a (p : process A) :
  known a w ->
  (forall w0, known a w0 -> triple (both_locks a) w0 p (fun _ _ L' => L' = both_locks a)) ->
  triple ∅ w (holding CreationLock (holding (ControlLock a) p)) (fun _ _ L' => L' = ∅).
Proof.
  intros Hk Hm. apply triple_holding. intros w1 _ Hf1 _. rewrite union_empty_r_L.
  apply triple_holding. intros w2 Hne Hf2 _. eapply triple_mono; [|apply Hm].
  - cbn. intros x w3 ? _ ->. intros w4 _ _ w5 _ _. unfold both_locks. by rewrite unlocked, difference_diag_L.
  - by repeat (eapply known_frame; [eassumption|]).
Qed.

(** A section of a process that holds control of [a]. *)
Lemma triple_section {A} L w a (m : world -> world * A) :
  known a w -> (forall w0, world_ok w0 -> known a w0 -> section_ok L w0 (m w0).1) ->
  triple L w (atomically m) (fun _ _ L' => L' = L).
Proof.
  intros Hk Hm. apply triple_atomic. intros w0 Hf Hi. split; [|done]. apply Hm; [done|]. by eapply known_frame.
Qed.

Lemma bool_decide_and (P Q : Prop) `{!Decision P, !Decision Q} :
  bool_decide P && bool_decide Q = true -> P /\ Q.
Proof. rewrite andb_true_iff, !bool_decide_eq_true. done. Qed.

Lemma release_section_ok L w room_id a :
  world_ok w -> known a w -> ControlLock a ∈ L ->
  section_ok L w (let '(r, empty) := release_join_reservation (room_at w a) in
    evict_section room_id a r (empty && bool_decide (rooms w !! room_id = Some a)) w).1.
Proof.
  intros Hi [r Hr] HL. rewrite (room_at_known _ _ _ Hr). pose proof (world_fine _ _ _ Hi Hr) as Hf.
  unfold release_join_reservation. destruct (Room.pending_joins r =? 0)%N.
  - apply (evict_section_ok L w room_id a r r); [done..|by apply moved_refl|done|done].
  - apply (evict_section_ok L w room_id a r); [done..|by apply moved_budget|done|].
    rewrite !andb_true_iff, !bool_decide_eq_true. intros (((_ & Hp) & Hl) & Hm). done.
Qed.

Lemma keeps_release_join w room_id a : known a w -> keeps ∅ w (release_failed_join room_id a).
Proof.
  intros Hk. unfold release_failed_join. eapply triple_bind.
  - apply keeps_both; [done|]. intros w0 Hk0. apply (triple_section _ _ a); [done|].
    intros w1 Hi Hk1. apply release_section_ok; [done..|set_solver].
  - intros token w1 ? _ ->. eapply keeps_calm, calm_teardown.
Qed.

Lemma evict_empty_ok L w room_id a :
  world_ok w -> known a w -> ControlLock a ∈ L ->
  section_ok L w (let r := room_at w a in
    evict_section room_id a r
      (bool_decide (rooms w !! room_id = Some a) && negb (Room.deleting r)
       && (Room.pending_joins r =? 0)%N && is_empty_room r) w).1.
Proof.
  intros Hi [r Hr] HL. rewrite (room_at_known _ _ _ Hr). pose proof (world_fine _ _ _ Hi Hr) as Hf.
  apply (evict_section_ok L w room_id a r r); [done..|by apply moved_refl|done|].
  rewrite !andb_true_iff, bool_decide_eq_true. intros (((Hm & _) & _) & He). split; [done|].
  by apply bool_decide_and in He.
Qed.

Lemma keeps_evict w room_id a :
  known a w ->
  triple ∅ w (holding CreationLock (holding (ControlLock a) (evict_empty_room room_id a))) (fun _ _ L' => L' = ∅).
Proof.
  intros Hk. apply keeps_both; [done|]. intros w0 Hk0. apply triple_ask_bind. intros []; [by apply triple_return|].
  apply (triple_section _ _ a); [done|]. intros w1 Hi Hk1. apply evict_empty_ok; [done..|set_solver].
Qed.

Lemma keeps_remove_inner w room_id id expected :
  triple ∅ w (remove_participant_inner room_id id expected) (fun _ _ L' => L' = ∅).
Proof.
  unfold remove_participant_inner. eapply triple_bind.
  { eapply calm_triple, calm_read with (Q := fun found w => match found with Some a => known a w | None => True end).
    intros w0 _ Hi. destruct (rooms w0 !! room_id) as [a|] eqn:Ea; [|done].
    destruct (ok_map _ Hi _ _ Ea) as (r & Hr & _). by exists r. }
  intros [a|] w1 ? _ (-> & _ & Hk); [|by apply triple_return].
  eapply triple_try with (Q' := fun _ _ L' => L' = ∅); [| |done].
  { apply triple_holding. intros w2 Hne Hf2 _. eapply triple_mono; [|apply (triple_locked _ w2 a _ (fun _ _ => True))].
    - cbn. intros x w3 ? _ [-> _] w4 _ _. by apply unlocked.
    - by eapply known_frame.
    - set_solver.
    - intros. apply departure_tracks. }
  intros [d|] w2 ? H2 ->; [|by apply triple_return]. eapply triple_bind.
  { eapply calm_triple, calm_for_each. intros. calm_go. }
  intros _ w3 ? H3 (-> & _ & _). eapply triple_bind.
  { eapply (calm_triple _ _ _ (fun _ _ => True)). destruct (departed_session d); calm_go. }
  intros _ w4 ? H4 (-> & _ & _). destruct (room_empty d); [|by apply triple_return].
  apply triple_ask_bind. intros []; [by apply triple_return|]. eapply triple_bind; [apply keeps_evict|].
  { do 3 (eapply known_evolves; [eassumption|]). done. }
  intros token w5 ? _ ->. eapply triple_bind; [eapply calm_triple, calm_teardown|].
  intros _ w6 ? _ (-> & _ & _). by apply triple_return.
Qed.

(** ** Creation *)

Lemma created_ok room_id settings persisted hash active audio ceiling :
  room_ok ((new_with_observers room_id settings persisted hash active audio) <| Room.broadcaster_ceiling := ceiling |>).
Proof.
  set (r := _ <| Room.broadcaster_ceiling := _ |>). by apply (room_ok_core (clear_membership r)), clear_ok.
Qed.

Section insert.
Context (w w' : world) (room_id : string) (created : room).
Context (Hi : world_ok w) (Hfree : rooms w !! room_id = None) (Hdrain : draining w = false).
Context (Hok : room_ok created) (Hid : Room.id created = room_id) (Hix : Room.producer_to_participant created = ∅).
Context (Hsocial : Room.social created = social_default).
Context (Hw : shared w' = (<[next_address w := created]> (heap w), N.succ (next_address w),
                           <[room_id := next_address w]> (rooms w), issued w, draining w)).

Lemma insert_fresh : heap w !! next_address w = None.
Proof.
  destruct (heap w !! next_address w) as [q|] eqn:Hq; [|done].
  pose proof (ok_addresses _ Hi (next_address w) ltac:(by exists q)). lia.
Qed.

Lemma insert_world_ok : world_ok w'.
Proof.
  pose proof insert_fresh as Hnew. destruct Hi as [H1 Hc H2 H3 H4 H5]. unfold shared in Hw. injection Hw as E1 E2 E3 E4 E5.
  split; unfold placed; rewrite ?E1, ?E2, ?E3, ?E4, ?E5.
  - intros b q [[<- <-]|[_ Hq]]%lookup_insert_Some; eauto.
  - intros b q [[<- <-]|[_ Hq]]%lookup_insert_Some; [|eauto]. rewrite Hsocial. apply social_default_ok.
  - intros b q [[<- <-]|[_ Hq]]%lookup_insert_Some; [|eauto]. unfold index_issued. rewrite Hix. apply map_empty_subseteq.
  - intros b [->|Hb]%lookup_insert_is_Some'; [lia|]. specialize (H3 b Hb). lia.
  - intros id b [[<- <-]|[_ Hb]]%lookup_insert_Some; [exists created; by rewrite lookup_insert_eq|].
    destruct (H4 id b Hb) as (q & Hq & Hidq). exists q. rewrite lookup_insert_ne; [done|]. intros <-. congruence.
  - intros b q [[<- <-]|[Hne Hq]]%lookup_insert_Some; [left; by rewrite Hid, lookup_insert_eq|].
    destruct (decide (Room.id q = room_id)) as [Hq'|Hne'].
    + destruct (H5 b q Hq) as [Hp|[[Hp _]|Hp]]; [congruence..|by right; right].
    + rewrite lookup_insert_ne by done. by apply (H5 b q).
Qed.

Lemma insert_section_ok : section_ok {[CreationLock]} w w'.
Proof.
  pose proof insert_fresh as Hnew. pose proof insert_world_ok as Hok'.
  unfold shared in Hw. injection Hw as E1 E2 E3 E4 E5.
  assert (evolves w w') as He.
  { split; rewrite ?E1, ?E3, ?E4, ?E5; [|done|done|congruence]. intros b q Hq. exists q.
    rewrite lookup_insert_ne; [done|]. intros <-. congruence. }
  split; [done..| |].
  - split; rewrite E3.
    + intros id b b' Hb. rewrite lookup_insert_ne by congruence. congruence.
    + intros id b Hb. rewrite lookup_insert_ne by congruence. congruence.
  - intros l Hl. split; [done|]. destruct l as [|b]; cbn; [set_solver|]. split.
    + intros q Hq. exists q. rewrite E1, lookup_insert_ne; [done|]. intros <-. congruence.
    + intros id Hb. left. rewrite E3, lookup_insert_ne; [done|]. congruence.
Qed.
End insert.

(** An answer that names the room, or an error. *)
Definition names (room_id : string) (res : result failure N) (w : world) : Prop :=
  match res with Ok a => named room_id a w | Err _ => True end.

Section join.
Context (mgr : manager) `{Unicode}.

Lemma calm_reserve_join w room_id a : named room_id a w -> calm w (reserve_existing_room_join a) (names room_id).
Proof.
  intros Hn. unfold reserve_existing_room_join. apply calm_ask. intros []; [by apply calm_return|].
  eapply calm_mono; [|apply (calm_locked _ a _ (fun b _ => b = a)); [by eapply named_known|]].
  - intros [b|e] w1 He; cbn; [|done]. intros (r & _ & _ & ->). by eapply named_evolves.
  - intros w0 r _ _ _. track; [|done]. by apply moved_budget.
Qed.

Lemma calm_refuse_if w m test : calmly w (refuse_if m test).
Proof. by apply calm_read. Qed.

(** Whether the room is there, as seen by a task that may hold creation. *)
Lemma triple_existing L w room_id :
  triple L w (existing_room mgr room_id) (fun res w' L' => L' = L /\ match res with
    | Ok (Some a) => named room_id a w' | Ok None => rooms w' !! room_id = None | Err _ => True end).
Proof.
  apply triple_atomic. intros w0 _ Hi. split; [by apply quiet_section|]. split; [done|]. cbn.
  destruct (rooms w0 !! room_id) as [a|] eqn:Ea; [by apply (ok_map _ Hi)|]. by destruct (max_rooms mgr <=? _)%N.
Qed.

Lemma triple_insert w room_id settings hash active audio :
  rooms w !! room_id = None ->
  triple {[CreationLock]} w (atomically (insert_room_section mgr room_id settings hash active audio))
    (fun res w' L' => L' = {[CreationLock]} /\ match res with Some a => named room_id a w' | None => True end).
Proof.
  intros Hnone. apply triple_atomic. intros w0 Hf Hi. unfold insert_room_section.
  destruct (draining w0) eqn:Hd; cbn [fst snd]; [by split; [apply quiet_section|]|]. split.
  - apply (insert_section_ok w0 _ room_id ((new_with_observers room_id settings (bool_decide (is_Some settings)) hash
      active audio) <| Room.broadcaster_ceiling := max_broadcasters_per_room mgr |>)); try done; [|apply created_ok].
    destruct (fr_protects _ _ _ Hf CreationLock) as [_ Hdom]; [set_solver|]. cbn in Hdom.
    apply not_elem_of_dom. apply not_elem_of_dom in Hnone. set_solver.
  - split; [done|]. eexists. cbn. by rewrite lookup_insert_eq.
Qed.

Lemma triple_create w room_id :
  rooms w !! room_id = None ->
  triple {[CreationLock]} w (create_room_locked mgr room_id)
    (fun res w' L' => L' = {[CreationLock]} /\ names room_id res w').
Proof.
  intros Hnone. unfold create_room_locked.
  eapply triple_try with (Q' := fun _ w' L' => L' = {[CreationLock]} /\ w' = w); [| |by intros e w1 ? _ [-> _]].
  { destruct (has_database mgr); [|by apply triple_return]. apply triple_ask_bind. intros. by apply triple_return. }
  intros loaded w1 ? _ [-> ->]. destruct (negb _ && _); [by apply triple_return|].
  assert (forall e, triple {[CreationLock]} w (let* _ := remove_router room_id in Return (Err e))
    (fun res w' L' => L' = {[CreationLock]} /\ names room_id res w')) as Hback.
  { intros e. eapply triple_bind; [eapply calm_triple, calm_remove_router|]. intros _ w1 ? _ (-> & _). by apply triple_return. }
  apply triple_ask_bind. intros [[[active audio]|e]|]; [|apply Hback..].
  eapply triple_bind; [by apply triple_insert|]. intros [a|] w1 ? _ [-> Ha]; [by apply triple_return|].
  eapply triple_bind; [eapply calm_triple, calm_remove_router|]. intros _ w2 ? _ (-> & _). by apply triple_return.
Qed.

Lemma triple_get_or_create w room_id :
  triple ∅ w (get_or_create_room mgr room_id) (fun res w' L' => L' = ∅ /\ names room_id res w').
Proof.
  unfold get_or_create_room.
  do 2 (eapply triple_try; [eapply calm_triple, calm_refuse_if|intros [] ? ? _ (-> & _)|by intros e ? ? _ (-> & _)]).
  eapply triple_try; [apply triple_existing|intros [a|] w1 ? _ [-> Ha]|by intros e ? ? _ (-> & _)].
  { eapply triple_mono; [|by apply calm_triple, calm_reserve_join]. cbn. intros x w2 ? _ (-> & _ & Hx). done. }
  apply triple_ask_bind. intros []; [by apply triple_return|]. apply triple_holding. intros w2 _ _ _.
  rewrite union_empty_r_L. eapply triple_mono with (Q := fun res w' L' => (L' = {[CreationLock]} \/ L' = ∅) /\ names room_id res w').
  { intros res w3 L3 _ [HL Hn] w4 Hf4 _. split; [destruct HL as [->| ->]; set_solver|].
    destruct res; [|done]. eapply named_evolves; [apply Hf4|done]. }
  do 3 (eapply triple_try; [eapply calm_triple, calm_refuse_if|intros [] ? ? _ (-> & _)|intros e ? ? _ (-> & _); by split; [left|]]).
  eapply triple_try; [apply triple_existing|intros [a|] w3 ? _ [-> Hx]|intros e ? ? _ (-> & _); by split; [left|]].
  - apply triple_release. intros w4 Hf4 _. rewrite difference_diag_L.
    eapply triple_mono; [|eapply calm_triple, calm_reserve_join, named_evolves; [apply Hf4|done]].
    cbn. intros x w5 ? _ (-> & _ & Hn). auto.
  - eapply triple_mono; [|by apply triple_create]. cbn. intros x w4 ? _ [-> Hn]. auto.
Qed.

(** *** The commit *)

(** What the commit has checked of a joiner. *)
Record admissible (j : joiner) (punitive : punitive_state) (r : room) : Prop := {
  adm_live : Room.deleting r = false;
  adm_new : Room.participants r !! join_id j = None;
  adm_not_waiting : Room.lobby r !! join_id j = None;
  adm_bans : identity_is_banned r (join_id j) (join_authenticated j) (join_ip j) = false;
  adm_sanction : Room.persisted r = false ->
    punitive = sanction_of r (for_identity (join_id j) (join_authenticated j) (join_ip j))
}.

Lemma enter_lobby_tracks I j name role punitive s :
  admissible j punitive s.1 -> tracks true I (enter_lobby j name role punitive) s (fun _ _ => True).
Proof.
  intros [A1 A2 A3 A4 A5]. unfold enter_lobby. track; [|by apply moved_budget|done].
  intros Hf. apply moved_live; [done| |by apply tame_same|done].
  apply (add_waiting_ok s.1 (LobbyEntry.mk _ _ _ _ _ _ _ _ _ _ _)); try done. apply Hf.
Qed.

Lemma enter_room_tracks I j name role punitive prefs s :
  admissible j punitive s.1 -> tracks true I (enter_room j name role punitive prefs) s (fun _ _ => True).
Proof.
  intros [A1 A2 A3 A4 A5]. unfold enter_room. track; [|by apply moved_budget|done].
  intros Hf. apply moved_live; [done| |by apply tame_same|done].
  apply (add_member_ok s.1 (Participant.mk _ _ _ _ _ _ _ _ _ _ _)); try done. apply Hf.
Qed.

(** Remembering the sanction keeps the joiner admissible. *)
Lemma remember_tracks I j key punitive s :
  key = for_identity (join_id j) (join_authenticated j) (join_ip j) -> admissible j punitive s.1 ->
  tracks true I (if bool_decide (punitive = no_sanction) then hret (E := failure) tt
                 else set_room (fun r => r <| Room.sanctions ::= <[key := punitive]> |>)) s
    (fun _ s' => admissible j punitive s'.1).
Proof.
  intros -> Hadm. case_bool_decide; [by apply tracks_ret|]. destruct Hadm as [A1 A2 A3 A4 A5]. track.
  - intros Hf. apply moved_live; [done| |by apply tame_same|done]. apply remember_sanction_ok; [apply Hf|done].
  - split; try done. intros _. unfold sanction_of. cbn. by rewrite lookup_insert_eq.
Qed.

Lemma commit_join_tracks I j policy resolved punitive prefs w s :
  Room.persisted s.1 = seen_persisted policy -> (seen_persisted policy = false -> punitive = no_sanction) ->
  tracks true I (commit_join mgr j policy resolved punitive prefs w) s (fun _ _ => True).
Proof.
  intros Hper Hpun. unfold commit_join. track; [by apply prune_bans_moved|].
  destruct (merged_punitive _ _ _) as [key merged] eqn:Hmerge. unfold merged_punitive in Hmerge. simplify_eq.
  rewrite andb_true_iff, !negb_true_iff, !bool_decide_eq_false, <-!eq_None_not_Some in *.
  match goal with |- context [merge_punitive_state punitive ?o] => set (merged := merge_punitive_state punitive o) end.
  assert (admissible j merged (prune_expired_bans (clock w) s.1)) as Hadm.
  { split; try tauto.
    - match goal with Hs : policy_snapshot_matches _ _ = true |- _ =>
        unfold policy_snapshot_matches in Hs; apply andb_prop in Hs as [Hl _] end. by apply negb_true_iff in Hl.
    - intros Hp. unfold merged, sanction_of. rewrite Hpun by (rewrite <-Hper; exact Hp). cbn.
      by destruct (Room.sanctions s.1 !! _) as [[[] []]|]. }
  apply tracks_bind. eapply tracks_mono; [|by apply (remember_tracks I j)]. intros [] s' Hadm'.
  destruct (must_wait _ _ _); [by apply enter_lobby_tracks|by apply enter_room_tracks].
Qed.

(** *** The request *)

Lemma calm_limit w room_id ip : calmly w (limit_joins mgr room_id ip).
Proof.
  unfold limit_joins. destruct ip as [address|]; [|apply calmly_return].
  eapply calm_bind with (Q' := fun _ _ => True); [|intros; apply calmly_return]. apply calm_quiet; [|done].
  intros w0. unfold charge_join. destruct (allow _ _ _ _) as [by_ip []]; [|done]. by destruct (allow _ _ _ _) as [by_room granted].
Qed.

Lemma calm_saturated w room_id : calmly w (refuse_saturated room_id).
Proof. unfold refuse_saturated. calm_go. Qed.

Lemma calm_verify w supplied hash : calmly w (verify_room_password supplied hash).
Proof. unfold verify_room_password. calm_go. Qed.
Lemma calm_banned w room_id user ip authenticated : calmly w (refuse_banned room_id user ip authenticated).
Proof. unfold refuse_banned. calm_go. Qed.
Lemma calm_saved_role w room_id user owner authenticated : calmly w (resolve_saved_role room_id user owner authenticated).
Proof. unfold resolve_saved_role. calm_go. Qed.
Lemma calm_load w room_id : calmly w (load_room_bounded room_id).
Proof. unfold load_room_bounded. calm_go. Qed.
#[local] Hint Resolve calm_verify calm_banned calm_saved_role calm_load : calm.

Lemma calm_precheck w room_id user ip authenticated password :
  calmly w (dormant_room_precheck mgr room_id user ip authenticated password).
Proof.
  unfold dormant_room_precheck. destruct (negb _); [apply calmly_return|].
  eapply calm_bind with (Q' := fun _ _ => True); [by apply calm_read|]. intros live w1 _ _.
  destruct live; [apply calmly_return|]. calm_go.
Qed.

Lemma calm_style w user requested : calmly w (joiner_style mgr user requested).
Proof. unfold joiner_style. calm_go. Qed.
Lemma calm_standing w room_id policy user ip authenticated :
  calmly w (saved_standing mgr room_id policy user ip authenticated).
Proof. unfold saved_standing. calm_go. Qed.
Lemma calm_gate w policy resolved prechecked password : calmly w (password_gate policy resolved prechecked password).
Proof. unfold password_gate. calm_go. Qed.

(** Without a database row there is no saved sanction. *)
Lemma calm_saved_punitive w room_id policy user ip authenticated :
  calm w (saved_punitive mgr room_id policy user ip authenticated) (fun res _ => match res with
    | Ok p => seen_persisted policy = false -> p = no_sanction | Err _ => True end).
Proof.
  unfold saved_punitive. destruct (seen_persisted policy); cbn; [|by apply calm_return].
  destruct (negb _); [by apply calm_return|]. apply (calm_ask (reply := reply)). intros []; by apply calm_return.
Qed.

(** The policy was read from a room with that kind of persistence. *)
Definition policy_of (a : N) (policy : join_policy) (w : world) : Prop :=
  exists r, heap w !! a = Some r /\ Room.persisted r = seen_persisted policy.

Lemma policy_of_evolves a policy w w' : evolves w w' -> policy_of a policy w -> policy_of a policy w'.
Proof.
  intros He (r & Hr & Hp). destruct (ev_heap _ _ He a r Hr) as (r' & Hr' & _ & Hp'). exists r'. split; congruence.
Qed.

Lemma calm_lock_within {E A} w l (e : E) (p : process (result E A)) Q :
  stable Q -> (forall w0, evolves w w0 -> calm w0 p Q) -> (forall w0, Q (Err e) w0) -> calm w (lock_within l e p) Q.
Proof.
  intros Hst Hp Herr. apply calm_ask. intros []; [by apply calm_return|]. by apply calm_holding.
Qed.

Lemma calm_read_policy w a :
  known a w ->
  calm w (lock_within (ControlLock a) (Message "Room control is busy; try again")
    (atomically (fun w => (w, Ok (read_policy (room_at w a))))))
    (fun res w' => match res with Ok policy => policy_of a policy w' | Err _ => True end).
Proof.
  intros Hk. apply calm_lock_within; [|intros w0 He0|done].
  - intros [policy|e] w1 w2 He; [by apply policy_of_evolves|done].
  - apply calm_read. intros w1 He1 _. destruct (known_evolves _ _ _ (transitivity He0 He1) Hk) as [r Hr].
    exists r. split; [done|]. by rewrite (room_at_known _ _ _ Hr).
Qed.

Lemma keeps_commit_join w a id authenticated policy j resolved punitive :
  policy_of a policy w -> (seen_persisted policy = false -> punitive = no_sanction) ->
  keeps ∅ w (lock_within (ControlLock a) (Message "Room control is busy; try again")
    (let? prefs := membership_chat_preferences mgr authenticated id in
     locked a (commit_join mgr j policy resolved punitive prefs))).
Proof.
  intros Hpol Hpun. apply keeps_lock_within. intros w1 He1 _. eapply triple_try; [eapply calm_triple, calm_preferences| |done].
  intros prefs w2 ? He2 (-> & _ & _).
  assert (policy_of a policy w2) as Hpol2 by (do 2 (eapply policy_of_evolves; [eassumption|]); done).
  eapply keeps_of, triple_locked with (Q := fun _ _ => True); [|set_solver|].
  - destruct Hpol2 as (r & Hr & _). by exists r.
  - intros w3 r Hf Hi Hr. apply commit_join_tracks; [|done].
    destruct (policy_of_evolves _ _ _ _ (fr_evolves _ _ _ Hf) Hpol2) as (r' & Hr' & Hp). cbn. congruence.
Qed.

(** A failed join gives its reservation back. *)
Lemma keeps_reservation {A} w room_id a (p : handled A) :
  known a w -> keeps ∅ w p -> keeps ∅ w (with_reservation room_id a p).
Proof.
  intros Hk Hp. unfold with_reservation. eapply triple_bind; [exact Hp|].
  intros [x|e] w1 L1 He _; [apply keeps_return|]. apply triple_spawn; [|apply keeps_return].
  intros w0 He0 _. apply keeps_release_join. by do 2 (eapply known_evolves; [eassumption|]).
Qed.

Lemma keeps_replace w room_id a id :
  triple ∅ w (replace_stale_membership room_id a id) (fun _ _ L' => L' = ∅).
Proof.
  unfold replace_stale_membership. eapply triple_bind; [eapply calm_triple, calm_read with (Q := fun _ _ => True); done|].
  intros [sender|] w1 ? _ (-> & _); [|by apply triple_return].
  eapply triple_try; [apply keeps_remove_inner| |done]. intros b w2 ? _ ->. by apply triple_return.
Qed.

(** Run a calm step and go on from a world that has only evolved. *)
Lemma keeps_after {E A B} w (p : process (result E B)) (f : B -> process (result E A)) Q :
  calm w p Q -> (forall x w', evolves w w' -> Q (Ok x) w' -> keeps ∅ w' (f x)) -> keeps ∅ w (try_bind p f).
Proof.
  intros Hp Hf. eapply triple_try; [by eapply calm_triple|intros x w1 ? He (-> & _ & Hx)|done]. by apply Hf.
Qed.

Lemma keeps_join w room_id id name sender authenticated flag password token client_ip style :
  keeps ∅ w (add_participant mgr room_id id name sender authenticated flag password token client_ip style).
Proof.
  unfold add_participant. eapply keeps_after; [apply calm_limit|]. intros _ w1 _ _.
  eapply keeps_after; [apply calm_saturated|]. intros _ w2 _ _. eapply keeps_after; [apply calm_precheck|]. intros prechecked w3 _ _.
  eapply triple_try; [apply triple_get_or_create| |done]. intros a w4 ? _ [-> Hn]. apply named_known in Hn.
  apply keeps_reservation; [done|]. eapply triple_try; [apply keeps_replace| |done]. intros _ w5 ? He5 ->.
  eapply keeps_after; [apply calm_read_policy; by eapply known_evolves|]. intros policy w6 He6 Hpol.
  eapply keeps_after; [apply calm_standing|]. intros resolved w7 He7 _.
  eapply triple_bind; [eapply calm_triple, calm_style|]. intros chosen w8 ? He8 (-> & _ & _).
  eapply keeps_after; [apply calm_saved_punitive|]. intros punitive w9 He9 Hpun.
  eapply keeps_after; [apply calm_gate|]. intros _ w10 He10 _.
  apply keeps_uuid. intros session w11 Hf11. apply keeps_uuid. intros chat_session w12 Hf12.
  apply keeps_commit_join; [|done]. eapply policy_of_evolves; [apply Hf12|]. eapply policy_of_evolves; [apply Hf11|].
  by do 4 (eapply policy_of_evolves; [eassumption|]).
Qed.
End join.

(** ** Reconnection *)

Lemma rebind_tracks I id subject expected fresh w s :
  tracks true I (rebind_section id subject expected fresh w) s (fun _ _ => True).
Proof.
  unfold rebind_section. track. destruct (Room.participants s.1 !! id) as [p|] eqn:Hp; [|by apply tracks_ret].
  do 2 match goal with |- tracks _ _ (if ?b then _ else _) _ _ => destruct b; [by apply tracks_ret|] end. track; [|done].
  intros Hf. apply moved_live; [done| |by apply tame_same|done]. eapply same_people_ok; [..|apply Hf]; try done.
  - split; try done. intros i. cbn. destruct (decide (i = id)) as [->|Hne].
    + by rewrite lookup_insert_eq, Hp.
    + by rewrite lookup_insert_ne.
  - intros i. cbn. destruct (decide (i = id)) as [->|Hne].
    + by rewrite lookup_insert_eq, Hp.
    + by rewrite lookup_insert_ne.
Qed.

Lemma keeps_rebind w room_id id subject expected fresh :
  keeps ∅ w (rebind_participant_sender room_id id subject expected fresh).
Proof.
  eapply keeps_after; [apply calm_get_room|]. intros a w1 _ Hk. apply triple_holding. intros w2 Hne Hf2 _.
  eapply triple_mono; [|apply (triple_locked _ w2 a _ (fun _ _ => True))]; [done|by eapply known_frame|set_solver|].
  intros. apply rebind_tracks.
Qed.
