(* ===== verification/LifecycleHandlers.v ===== *)
(** * Creation, deletion, recovery and shutdown keep the invariant *)

From S2P Require Import Prelude Refusal Net Roles Window Labels Settings Protocol Moderation Wire Social Room Media Publication RoomInv RoomSteps Process Triples World Lobby Membership Lifecycle WorldInv Sections CalmHandlers ControlHandlers ArrivalHandlers.

Open Scope process_scope.

(** ** Creation *)

Lemma calm_create_persisted mgr w owner request hash : calmly w (create_persisted_room mgr owner request hash).
Proof.
  unfold create_persisted_room. eapply calm_bind with (Q' := fun _ _ => True); [by apply calm_read|]. intros [] w1 _ _; [apply calmly_return|].
  apply calm_lock_within; [done|intros w2 _|done]. eapply calm_bind with (Q' := fun _ _ => True); [by apply calm_read|].
  intros [] w3 _ _; [apply calmly_return|]. eapply calm_bind with (Q' := fun _ _ => True); [by apply calm_read|].
  intros [] w4 _ _; [apply calmly_return|]. calm_go.
Qed.

(** ** Closing a room *)

(** What holds of the room at [a] and is protected by its control. *)
Definition now (a : N) (P : room -> Prop) (w : world) : Prop := exists r, heap w !! a = Some r /\ P r.
Definition controlled (P : room -> Prop) : Prop :=
  forall r r', control_view r' = control_view r -> P r -> P r'.

Lemma now_later L a P w w' : controlled P -> ControlLock a ∈ L -> frame L w w' -> now a P w -> now a P w'.
Proof.
  intros HP HL Hf (r & Hr & HPr). destruct (fr_protects _ _ _ Hf _ HL) as [_ [Hv _]].
  destruct (Hv r Hr) as (r' & Hr' & Hview). exists r'. split; [done|]. by apply (HP r).
Qed.

Lemma now_known a P w : now a P w -> known a w.
Proof. intros (r & Hr & _). by exists r. Qed.

Definition closed (r : room) : Prop := Room.deleting r = true.
Definition empty_and_closed (r : room) : Prop := closed r /\ deserted r.

Lemma closed_controlled : controlled closed.
Proof. intros r r' Hv Hc. unfold control_view in Hv. injection Hv as _ _ _ _ _ _ _ _ Hd. unfold closed. congruence. Qed.

Lemma empty_controlled : controlled empty_and_closed.
Proof.
  intros r r' Hv [Hc [H1 H2]]. destruct (view_stays_closed r r' Hv Hc) as (Hc' & Hp & Hl).
  split; [done|]. split; auto.
Qed.

(** A section under control that writes the room. *)
Lemma triple_write {A} L w a (m : world -> world * A) (P Q : room -> Prop) (f : world -> room -> room) :
  ControlLock a ∈ L -> controlled P -> now a P w ->
  (forall w0, writes a (f w0 (room_at w0 a)) w0 (m w0).1) ->
  (forall w0 r, world_ok w0 -> P r -> fine (issued w0) r -> moved true (issued w0) r (f w0 r) /\ Q (f w0 r)) ->
  triple L w (atomically m) (fun _ w' L' => L' = L /\ now a Q w').
Proof.
  intros HL HP Hn Hw Hm. apply triple_atomic. intros w0 Hf Hi.
  destruct (now_later _ _ _ _ _ HP HL Hf Hn) as (r & Hr & HPr). specialize (Hw w0). rewrite (room_at_known _ _ _ Hr) in Hw.
  destruct (Hm w0 r Hi HPr (world_fine _ _ _ Hi Hr)) as [Hmv HQ]. split.
  - by apply (move_section true L w0 _ a r (f w0 r)).
  - split; [done|]. exists (f w0 r). split; [by eapply writes_lookup|done].
Qed.

Lemma set_deleting_section L w a r b :
  world_ok w -> ControlLock a ∈ L -> heap w !! a = Some r -> placed w a (set_deleting b r) ->
  section_ok L w (w <| heap ::= <[a := set_deleting b r]> |>).
Proof.
  intros Hi HL Hr Hpl. destruct (world_fine _ _ _ Hi Hr) as [Hok Hix Hchat].
  apply (write_section L w _ a r (set_deleting b r)); try done; [split; [by apply (room_ok_core r)|done..]|by left].
Qed.

Lemma triple_tombstone L w a :
  ControlLock a ∈ L -> known a w -> triple L w (tombstone a) (fun _ w' L' => L' = L /\ now a closed w').
Proof.
  intros HL Hk. apply triple_atomic. intros w0 Hf Hi. destruct (known_frame _ _ _ _ Hf Hk) as [r Hr]. cbn.
  rewrite (room_at_known _ _ _ Hr). split; [|split; [done|]].
  - apply set_deleting_section; [done..|].
    destruct (ok_placed _ Hi a r Hr) as [Hp|[Hp|[_ He]]]; [by left|by right; left|by right; right].
  - exists (set_deleting true r). cbn. by rewrite lookup_insert_eq.
Qed.

(** Opening an open room changes nothing that is protected. *)
Lemma revive_live_section L w a r :
  world_ok w -> heap w !! a = Some r -> Room.deleting r = false ->
  section_ok L w (w <| heap ::= <[a := set_deleting false r]> |>).
Proof.
  intros Hi Hr Hlive. apply (move_section false L w _ a r (set_deleting false r)); [done..| |done].
  apply moved_budget; [done..|by eapply world_fine].
Qed.

(** A refused deletion opens its room in turn, or is excused. *)
Lemma triple_revive L w a : known a w -> triple L w (revive a) (fun _ _ L' => L' = L).
Proof.
  intros Hk. apply triple_atomic_excused. intros w0 Hf Hi. destruct (known_frame _ _ _ _ Hf Hk) as [r Hr]. cbn.
  rewrite (room_at_known _ _ _ Hr). destruct (Room.deleting r) eqn:Hd; [|right; split; [by apply revive_live_section|done]].
  destruct (decide (ControlLock a ∈ L)) as [HL|HL].
  2: { left. intros t h Ho. exists a, r. split_and!; [done..|]. left. by rewrite (Ho (ControlLock a)). }
  destruct (decide (rooms w0 !! Room.id r = Some a \/ (draining w0 = true /\ rooms w0 !! Room.id r = None))) as [Hm|Hm].
  - right. split; [|done]. apply set_deleting_section; [done..|]. destruct Hm; [by left|by right; left].
  - left. intros t h _. exists a, r. split_and!; [done..|]. right. tauto.
Qed.

Lemma triple_drain L w a room_id notice finish (P : room -> Prop) :
  ControlLock a ∈ L -> controlled P -> now a P w ->
  (forall r, P r -> core (finish (clear_membership r)) = core (clear_membership r)
                    /\ Room.id (finish (clear_membership r)) = Room.id r
                    /\ Room.deleting (finish (clear_membership r)) = true
                    /\ Room.social (finish (clear_membership r)) = Room.social r) ->
  triple L w (atomically (drain_section room_id notice finish a)) (fun _ w' L' => L' = L /\ now a empty_and_closed w').
Proof.
  intros HL HP Hn Hfin.
  apply (triple_write L w a _ P empty_and_closed (fun _ r => finish (clear_membership r))); [done..|].
  intros w0 r _ HPr Hf. destruct (Hfin r HPr) as (Hc & Hid & Hdel & Hs).
  split; [apply clear_moved; [done..|by rewrite Hs|apply Hf]|].
  unfold core in Hc. injection Hc as E1 E2 _ _ _ _ _ _ _. by split.
Qed.

Lemma triple_unmap L w room_id a :
  ControlLock a ∈ L -> now a empty_and_closed w ->
  triple L w (atomically (unmap_section room_id a)) (fun _ _ L' => L' = L).
Proof.
  intros HL Hn. apply triple_atomic. intros w0 Hf Hi. split; [|done].
  destruct (now_later _ _ _ _ _ empty_controlled HL Hf Hn) as (r & Hr & Hc & He).
  unfold unmap_section. case_bool_decide as Hm; cbn [fst]; [|by apply quiet_section].
  apply (unmap_section_ok L w0 _ a r r room_id); try done; [|by eapply world_fine].
  unfold shared. cbn. by rewrite insert_id.
Qed.

(** ** Deletion *)

Lemma calm_release_reservation w room_id token : calmly w (release_reservation room_id token).
Proof. apply calm_quiet; [|done]. intros w0. unfold release_deletion_reservation. by case_bool_decide. Qed.

Lemma calm_reserve_deletion w room_id : calmly w (atomically (reserve_deletion room_id)).
Proof. apply calm_quiet; [|done]. intros w0. unfold reserve_deletion. by destruct (is_deleting room_id w0). Qed.

Lemma calm_close_media {A} w room_id token sessions (f : bool -> A) :
  calmly w (let* _ := remove_sessions sessions in
            let* removed := remove_router room_id in
            let* _ := atomically (fun w => (release_deletion_reservation_after_router_teardown room_id token removed w, tt)) in
            Return (f removed)).
Proof.
  eapply calm_bind; [apply calm_for_each; intros; calm_go|]. intros _ w1 _ _.
  eapply calm_bind; [apply calm_remove_router|]. intros removed w2 _ _.
  eapply calm_bind with (Q' := fun _ _ => True); [|intros; apply calmly_return]. apply calm_quiet; [|done].
  intros w0. unfold release_deletion_reservation_after_router_teardown, release_deletion_reservation.
  destruct removed; [|done]. by case_bool_decide.
Qed.

Lemma keeps_finish w room_id a token :
  now a closed w -> keeps {[ControlLock a]} w (finish_deletion room_id (Some a) token).
Proof.
  intros Hn. apply triple_ask_bind. intros []; [apply keeps_return|].
  assert (ControlLock a ∈ ({[ControlLock a]} : gset lock)) as HL by set_solver.
  eapply triple_bind; [by apply (triple_drain _ w a room_id deletion_notice (fun r => r) closed HL closed_controlled)|].
  intros sessions w1 ? _ [-> Hn1]. eapply triple_bind; [by apply triple_unmap|]. intros _ w2 ? _ ->.
  apply triple_release. intros w3 _ _. eapply keeps_calm. apply (calm_close_media w3 room_id token sessions (fun _ => Ok Deleted)).
Qed.

Lemma keeps_restore {A} L w room_id a token (x : A) :
  known a w -> keeps L w (let* _ := restore_failed_deletion (Some a) room_id token in Return x).
Proof.
  intros Hk.
  assert (forall L w, known a w -> keeps L w (let* _ := revive a in release_reservation room_id token)) as Hrevive.
  { intros L1 w1 Hk1. eapply triple_bind; [by apply triple_revive|]. intros _ w2 ? _ ->. eapply keeps_calm, calm_release_reservation. }
  eapply triple_bind with (Q' := fun _ _ _ => True); [|intros; apply keeps_return].
  apply triple_ask_bind. intros []; [|by apply Hrevive].
  apply triple_spawn; [|by apply triple_return]. intros w1 He _. apply Hrevive. by eapply known_evolves.
Qed.

(** The DELETE of a tombstoned room. *)
Lemma keeps_delete_live w room_id requester created_at a token :
  now a closed w -> keeps (both_locks a) w (delete_reserved room_id requester created_at (Some a) token).
Proof.
  intros Hn. apply triple_ask_bind. intros reply. apply triple_release. intros w1 Hf1 _.
  assert (ControlLock a ∈ both_locks a) as HL by (unfold both_locks; set_solver).
  pose proof (now_later _ _ _ _ _ closed_controlled HL Hf1 Hn) as Hn1.
  unfold both_locks. rewrite (union_comm_L ({[ControlLock a]} : gset lock)), unlocked by set_solver.
  destruct reply as [[[]|e]|]; [by apply keeps_finish|by eapply keeps_restore, now_known| |apply keeps_return].
  destruct (persistence_is_indeterminate e); [apply keeps_return|by eapply keeps_restore, now_known].
Qed.

Lemma keeps_delete_dormant w room_id requester created_at token :
  keeps {[CreationLock]} w (delete_reserved room_id requester created_at None token).
Proof.
  apply triple_ask_bind. intros reply. apply triple_release. intros w1 _ _. eapply keeps_calm.
  destruct reply as [[[]|e]|]; cbn [finish_deletion restore_failed_deletion]; [| |destruct (persistence_is_indeterminate e)|];
    try apply calmly_return; (eapply calm_bind; [apply calm_release_reservation|]; intros; apply calmly_return).
Qed.

Lemma keeps_tombstone_live w room_id requester created_at a :
  known a w -> keeps (both_locks a) w (tombstone_and_delete room_id requester created_at (Some a)).
Proof.
  intros Hk. eapply triple_bind; [eapply calm_triple, calm_reserve_deletion|]. intros [token|] w1 ? He (-> & _); [|apply keeps_return].
  apply triple_ask_bind. intros [].
  - eapply triple_bind; [eapply calm_triple, calm_release_reservation|]. intros. apply keeps_return.
  - eapply triple_bind; [apply triple_tombstone; [unfold both_locks; set_solver|by eapply known_evolves]|].
    intros _ w2 ? _ (-> & Hn). by apply keeps_delete_live.
Qed.

Lemma keeps_delete mgr w room_id requester : keeps ∅ w (delete_persisted_room mgr room_id requester).
Proof.
  unfold delete_persisted_room. destruct (negb _); [apply keeps_return|].
  apply triple_ask_bind. intros [[[[owner created_at]|]|e]|]; try apply keeps_return.
  destruct (negb _); [apply keeps_return|]. apply keeps_lock_within. intros w1 _ _.
  eapply triple_bind.
  { eapply calm_triple, calm_read with (Q := fun found w => match found with Some a => known a w | None => True end).
    intros w0 _ Hi. destruct (rooms w0 !! room_id) as [a|] eqn:Ea; [|done].
    destruct (ok_map _ Hi _ _ Ea) as (r & Hr & _). by exists r. }
  intros [a|] w2 ? _ (-> & _ & Hk).
  - apply triple_ask_bind. intros []; [apply keeps_return|]. apply triple_holding. intros w3 _ Hf3 _.
    eapply triple_mono with (Q := fun _ _ _ => True); [done|]. apply keeps_tombstone_live. by eapply known_frame.
  - eapply triple_bind; [eapply calm_triple, calm_reserve_deletion|]. intros [token|] w3 ? He (-> & _); [|apply keeps_return].
    apply keeps_delete_dormant.
Qed.

(** ** Recovery *)

(** A process that ends with the locks it started with. *)
Abbreviation balanced L w p := (triple L w p (fun _ _ L' => L' = L)).

Lemma balanced_return {A} L w (x : A) : balanced L w (Return x).
Proof. by apply triple_return. Qed.

Lemma balanced_calm {A} L w (p : process A) Q : calm w p Q -> balanced L w p.
Proof. intros Hp. eapply triple_mono; [|apply Hp]. cbn. intros x w' L' _ (-> & _). done. Qed.

Lemma balanced_lock_within {E A} L w l (e : E) (p : process (result E A)) :
  (forall w0, frame L w w0 -> balanced ({[l]} ∪ L) w0 p) -> balanced L w (lock_within l e p).
Proof.
  intros Hp. apply triple_ask_bind. intros []; [apply balanced_return|]. apply triple_holding. intros w0 Hl Hf _.
  eapply triple_mono; [|by apply Hp]. cbn. intros x w' ? _ -> w2 _ _. by apply unlocked.
Qed.

(** The part of [close_room_for_rejoin] under both locks. *)
Lemma balanced_close L w room_id reason a :
  ControlLock a ∈ L -> known a w ->
  balanced L w (let* elapsed := ask Elapsed in
    if elapsed : bool then Return (Err (Message "Room state is busy"))
    else
      let* sessions := atomically (close_for_rejoin_section room_id reason a) in
      let* _ := atomically (unmap_section room_id a) in
      let* token := new_uuid in
      let* _ := atomically (fun w => (w <| deleting_rooms ::= <[room_id := token]> |>, tt)) in
      Return (Ok (Some (sessions, token)))).
Proof.
  intros HL Hk. apply triple_ask_bind. intros []; [apply balanced_return|].
  eapply triple_bind; [apply (triple_drain L w a room_id (ServerMessage.ServerRestarting reason)
    (fun r => set_deleting true (drop_observers r)) (fun _ => True)); [done|done| |done]|].
  { destruct Hk as [r Hr]. by exists r. }
  intros sessions w1 ? _ [-> Hn]. eapply triple_bind; [by apply triple_unmap|]. intros _ w2 ? _ ->.
  eapply triple_bind; [eapply balanced_calm, calmly_uuid|]. intros token w3 ? _ ->.
  eapply triple_bind; [eapply balanced_calm, calm_quiet with (Q := fun _ _ => True); done|].
  intros _ w4 ? _ ->. apply balanced_return.
Qed.

Lemma balanced_rejoin w room_id expected_worker reason :
  balanced ∅ w (close_room_for_rejoin room_id expected_worker reason).
Proof.
  unfold close_room_for_rejoin. eapply triple_bind; [eapply calm_triple, calm_get_room|].
  intros [a|e] w1 ? _ (-> & _ & Hk); [|apply balanced_return].
  eapply triple_try with (Q' := fun _ _ L' => L' = ∅); [apply balanced_lock_within; intros w2 Hf2| |done].
  2: { intros [[sessions token]|] w2 ? _ ->; [|apply balanced_return]. eapply balanced_calm.
       apply (calm_close_media w2 room_id token sessions (fun removed => if removed then Ok tt else Err (Message _))). }
  eapply triple_bind; [eapply balanced_calm, calm_read with (Q := fun _ _ => True); done|]. intros mapped w3 ? He3 ->.
  destruct (negb mapped); [apply balanced_return|]. apply triple_ask_bind. intros worker.
  destruct (negb _); [apply balanced_return|]. apply balanced_lock_within. intros w4 Hf4.
  apply balanced_close; [set_solver|]. eapply known_frame; [exact Hf4|]. eapply known_evolves; [exact He3|]. by eapply known_frame.
Qed.

Lemma balanced_for_each {A} L w (f : A -> process unit) l :
  (forall x w', evolves w w' -> x ∈ l -> balanced L w' (f x)) -> balanced L w (for_each f l).
Proof.
  revert w. induction l as [|x l IH]; intros w Hf; cbn [for_each]; [by apply triple_return|].
  eapply triple_bind; [apply Hf; [done|by left]|]. intros [] w' ? He ->. apply IH.
  intros y w2 He2 Hy. apply Hf; [by trans w'|by right].
Qed.

Lemma keeps_recovery w dead_worker affected : keeps ∅ w (recover_from_worker_death dead_worker affected).
Proof.
  eapply keeps_of, balanced_for_each. intros room_id w1 _ _. destruct (room_id_new room_id); [|apply balanced_return].
  eapply triple_bind; [apply balanced_rejoin|]. intros _ w2 ? _ ->. apply balanced_return.
Qed.

(** ** Shutdown *)

Lemma begin_draining_section w : world_ok w -> section_ok ∅ w (w <| draining := true |>).
Proof.
  intros Hi. assert (evolves w (w <| draining := true |>)) as He by (split; eauto).
  split; [|done|by apply local_same|].
  - destruct Hi as [H1 Hc H2 H3 H4 H5]. split; try done. intros a r Hr. unfold placed. cbn.
    destruct (H5 a r Hr) as [?|[[_ ?]|?]]; auto.
  - intros l _. split; [done|]. destruct l as [|a]; cbn; [done|]. split; [intros r; eauto|intros id; auto].
Qed.

(** The map is emptied once draining has begun. *)
Lemma clear_map_section L w : world_ok w -> draining w = true -> section_ok L w (w <| rooms := ∅ |>).
Proof.
  intros Hi Hd. assert (evolves w (w <| rooms := ∅ |>)) as He by (split; eauto; intros; apply map_empty_subseteq).
  split; [|done| |].
  - destruct Hi as [H1 Hc H2 H3 H4 H5]. split; try done. intros a r Hr. unfold placed. cbn. auto.
  - split; cbn; [done|auto].
  - intros l _. split; [done|]. destruct l as [|a]; cbn; [by rewrite dom_empty_L|].
    split; [intros r; eauto|intros id _; auto].
Qed.

Lemma keeps_drain_room L w a : known a w -> balanced L w (drain_room a).
Proof.
  intros Hk. apply triple_holding. intros w1 Hl Hf _. set (L' := _ ∪ L).
  destruct (known_frame _ _ _ _ Hf Hk) as [r Hr].
  eapply triple_mono; [|apply (triple_write L' w1 a _ (fun _ => True) (fun _ => True)
    (fun _ r => drop_observers (clear_membership (r <| Room.deleting := true |>))));
    [unfold L'; set_solver|done|by exists r|done|]].
  - cbn. intros x w2 ? _ [-> _] w3 _ _. by apply unlocked.
  - intros w2 r2 _ _ Hf2. split; [apply clear_moved; [done..|apply Hf2]|done].
Qed.

Lemma keeps_shutdown w : keeps ∅ w shutdown.
Proof.
  unfold shutdown. eapply triple_bind with (Q' := fun _ w' L' => L' = ∅ /\ draining w' = true).
  { apply triple_atomic. intros w0 _ Hi. split; [by apply begin_draining_section|done]. }
  intros _ w1 ? _ [-> Hd]. apply triple_holding. intros w2 _ Hf2 _. set (L := _ ∪ ∅).
  eapply triple_mono with (Q := fun _ _ _ => True); [done|].
  eapply triple_bind with (Q' := fun all w' L' => L' = L /\ forall entry, entry ∈ all -> known entry.2 w').
  { apply triple_atomic. intros w3 Hf3 Hi3. split.
    - apply clear_map_section; [done|]. apply (ev_draining w2 w3 (fr_evolves _ _ _ Hf3)).
      by apply (ev_draining w1 w2 (fr_evolves _ _ _ Hf2)).
    - split; [done|]. cbn. intros [id a] Hin%elem_of_map_to_list.
      destruct (ok_map _ Hi3 id a Hin) as (r & Hr & _). by exists r. }
  intros all w3 ? _ [-> Hall].
  eapply keeps_of, balanced_for_each. intros entry w4 He Hin. apply keeps_drain_room.
  eapply known_evolves; [exact He|]. by apply Hall.
Qed.
