(* ===== verification/ChatHandlers.v ===== *)
(** * Chat and social requests keep the invariant

    Chat, typing, preferences, edits, pins, reactions, reports and the
    requests of moderators, whatever runs in between: retained chat stays
    within its bounds, and what control protects changes only under it. *)

From S2P Require Import Prelude Refusal Net Roles Window Labels Settings Protocol Moderation Wire Social Room Media Publication RoomInv RoomSteps Process Triples World Chat ChatEvents ModerationOps ChatRequests SocialRequests RoomRequests WorldInv Sections CalmHandlers ControlHandlers.

Open Scope process_scope.

(** ** Processes about one room

    [steady]: calm once the room is known.  [orderly]: keeps the invariant when
    it runs under the room's control. *)

Definition steady {A} (a : N) (p : process A) : Prop := forall w, known a w -> calmly w p.
Definition orderly {A} (a : N) (p : process A) : Prop := forall w, known a w -> keeps {[ControlLock a]} w p.

Section shapes.
Context (a : N).

Lemma steady_return {A} (x : A) : steady a (Return x).
Proof. intros w _. apply calmly_return. Qed.

Lemma steady_bind {A B} (p : process A) (f : A -> process B) :
  steady a p -> (forall x, steady a (f x)) -> steady a (pbind p f).
Proof. intros Hp Hf w Hk. eapply calm_bind; [by apply Hp|]. intros x w' He _. apply Hf. by eapply known_evolves. Qed.

Lemma steady_try {E A B} (p : process (result E A)) (f : A -> process (result E B)) :
  steady a p -> (forall x, steady a (f x)) -> steady a (try_bind p f).
Proof. intros Hp Hf. apply steady_bind; [done|]. intros [x|e]; [apply Hf|apply steady_return]. Qed.

Lemma steady_ask {A} q (f : reply q -> process A) : (forall x, steady a (f x)) -> steady a (pbind (ask q) f).
Proof. intros Hf w Hk. apply calm_ask. intros x. by apply Hf. Qed.

Lemma steady_locked {E A} (m : world -> handler E (room * wire) A) :
  (forall I w s, tracks false I (m w) s (fun _ _ => True)) -> steady a (locked a m).
Proof. intros Hm w Hk. apply calm_media_section; [done|]. intros. apply Hm. Qed.

Lemma steady_quiet {A} (m : world -> world * A) : (forall w, shared (m w).1 = shared w) -> steady a (atomically m).
Proof. intros Hm w _. by apply calm_quiet. Qed.

Lemma orderly_steady {A} (p : process A) : steady a p -> orderly a p.
Proof. intros Hp w Hk. by eapply keeps_calm, Hp. Qed.

(** Most of a request is steady; what follows may not be. *)
Lemma orderly_bind {A B} (p : process A) (f : A -> process B) :
  steady a p -> (forall x, orderly a (f x)) -> orderly a (pbind p f).
Proof.
  intros Hp Hf w Hk. eapply triple_bind; [by apply (calm_triple _ w p (fun _ _ => True)), Hp|].
  intros x w' ? He (-> & _ & _). apply Hf. by eapply known_evolves.
Qed.

Lemma orderly_try {E A B} (p : process (result E A)) (f : A -> process (result E B)) :
  steady a p -> (forall x, orderly a (f x)) -> orderly a (try_bind p f).
Proof. intros Hp Hf. apply orderly_bind; [done|]. intros [x|e]; [apply Hf|apply orderly_steady, steady_return]. Qed.

Lemma orderly_ask {A} q (f : reply q -> process A) : (forall x, orderly a (f x)) -> orderly a (pbind (ask q) f).
Proof. intros Hf w Hk. apply triple_ask_bind. intros x. by apply Hf. Qed.

Lemma orderly_locked {E A} (m : world -> handler E (room * wire) A) :
  (forall I w s, tracks true I (m w) s (fun _ _ => True)) -> orderly a (locked a m).
Proof.
  intros Hm w Hk. eapply keeps_of, triple_locked with (Q := fun _ _ => True); [done|set_solver|]. intros. apply Hm.
Qed.

Lemma orderly_then {E A B} (m : world -> handler E (room * wire) A) (f : A -> process (result E B)) :
  (forall I w s, tracks true I (m w) s (fun _ _ => True)) -> (forall x, orderly a (f x)) ->
  orderly a (let? x := locked a m in f x).
Proof.
  intros Hm Hf w Hk. eapply triple_try; [apply triple_locked with (Q := fun _ _ => True); [done|set_solver|]| |done].
  - intros. apply Hm.
  - intros x w' ? He [-> _]. apply Hf. by eapply known_evolves.
Qed.

Lemma orderly_persisting {A} room_id write f (k : bool -> handled A) :
  (forall b, orderly a (k b)) -> orderly a (persisting room_id a write f k).
Proof. intros Hk w Hw. apply keeps_persisting; [done|set_solver|]. intros b. by apply Hk. Qed.

(** A write whose answer is more than a yes or no. *)
Lemma orderly_persist_chat {A} room_id q (f : result room_error (chat_reply q) -> process A) :
  (forall res, orderly a (f res)) -> orderly a (let* saved := persist_chat room_id a q in f saved).
Proof.
  intros Hf w Hk. eapply triple_bind with (Q' := fun _ w' L' => L' = {[ControlLock a]} /\ known a w').
  - apply triple_ask_bind. intros answer. eapply triple_mono; [|apply triple_settle; [done|set_solver]].
    cbn. intros x w' ? He [-> _]. split; [done|]. by eapply known_evolves.
  - intros x w' ? _ [-> Hk']. by apply Hf.
Qed.

Lemma orderly_persisting_chat {A} room_id q f (k : chat_reply q -> handled A) :
  (forall x, orderly a (k x)) -> orderly a (persisting_chat room_id a q f k).
Proof. intros Hk. apply orderly_persist_chat. intros [x|e]; [apply Hk|apply orderly_steady, steady_return]. Qed.

Lemma steady_uuid : steady a new_uuid.
Proof. intros w _. apply calmly_uuid. Qed.

Lemma steady_tell to m : steady a (tell to m).
Proof. apply steady_quiet. intros w. by destruct (try_send_essential (the_wire w) to m). Qed.

(** A section of an admitted request. *)
Lemma tracks_reacquired {A} c I id expected (m : participant -> world -> handler failure (room * wire) A) w s :
  (forall actor s, tracks c I (m actor w) s (fun _ _ => True)) ->
  tracks c I (let! r := get in ensure_live r ;; let! actor := hlift (participant_for_sender r id expected) in m actor w)%handler
    s (fun _ _ => True).
Proof. intros Hm. by track. Qed.

Lemma steady_reacquire {A} id expected (m : participant -> world -> handler failure (room * wire) A) :
  (forall I actor w s, tracks false I (m actor w) s (fun _ _ => True)) -> steady a (reacquire a id expected m).
Proof. intros Hm. apply steady_locked. intros I w s. apply tracks_reacquired. intros. apply Hm. Qed.

Lemma orderly_reacquire {A} id expected (m : participant -> world -> handler failure (room * wire) A) :
  (forall I actor w s, tracks true I (m actor w) s (fun _ _ => True)) -> orderly a (reacquire a id expected m).
Proof. intros Hm. apply orderly_locked. intros I w s. apply tracks_reacquired. intros. apply Hm. Qed.
End shapes.

(** ** Sections *)

Create HintDb chat discriminated.
#[export] Hint Resolve prune_receipts_ok accept_receipt_ok remember_ok recount_ok remove_message_ok edit_message_ok : chat.

Lemma total_alter {A} (g : A -> N) (f : A -> A) l i : (forall x, g (f x) = g x) -> total g (alter f i l) = total g l.
Proof. intros Hg. revert i. induction l as [|x l IH]; intros [|i]; cbn; [done..|by rewrite Hg|]. by rewrite IH. Qed.

Lemma set_entry_reactions_ok i reactions s : social_ok s -> social_ok (set_entry_reactions i reactions s).
Proof.
  intros []. split; cbn; [|by rewrite length_alter|done..]. by rewrite total_alter.
Qed.

#[export] Hint Resolve set_entry_reactions_ok record_event_ok : chat.
#[export] Hint Resolve prune_receipts_books accept_receipt_books remember_books recount_books remove_message_books
  edit_message_books : chat.
#[export] Hint Extern 3 (books _ = books _) => reflexivity : chat.
#[export] Hint Extern 4 (memory_ok _) =>
  (eapply chat_keeps_memory; [eassumption|intros; solve [eauto with chat]|solve [eauto with chat]]) : chat.
#[export] Hint Extern 5 (memory_ok _) => (eapply holdings_ok; [reflexivity|eassumption]) : chat.
#[export] Hint Extern 2 (RoomSocial.bans _ = RoomSocial.bans _) =>
  first [reflexivity|apply books_bans; solve [eauto with chat]] : chat.

Lemma tracks_social_send c I to m s (Q : unit -> room * wire -> Prop) :
  (forall q, Q tt (s.1, q)) -> tracks c I (social_send to m) s Q.
Proof.
  intros HQ Hf. unfold social_send. destruct (try_send_essential s.2 to m) as [q sent].
  split; [by apply moved_refl|]. cbn. destruct sent; [apply HQ|done].
Qed.

(** Changes of the room that leave the invariant alone. *)
Ltac moves :=
  intros; first
    [ by apply moved_budget
    | apply moved_chat; [cbn beta; intros; solve [eauto with chat]|cbn beta; solve [eauto with chat]|done]
    | by apply moved_alter
    | by eapply moved_member ].

Ltac tracking :=
  repeat first
    [ progress track
    | match goal with
      | |- tracks _ _ (if ?b then _ else _) _ _ => destruct b eqn:?
      | |- tracks _ _ (match ?x with _ => _ end) _ _ => destruct x eqn:?
      | |- tracks _ _ (social_send _ _) _ _ => apply tracks_social_send; intros ?
      end ];
  try solve [done|moves].

Section chat.
Context `{Unicode, Codec} (c : bool) (I : gmap producer_id participant_id).

Lemma prepare_new_tracks id expected attempt client fresh saved sender w s :
  tracks c I (prepare_new_chat id expected attempt client fresh saved sender w) s
    (fun p _ => from_option (fun p => 0 < PreparedChat.receipt_bytes p)%N True p).
Proof.
  unfold prepare_new_chat, acknowledge_chat, reserve_chat. tracking; cbn;
    match goal with Hb : ok_or (entry_bytes ?m) _ = Ok ?n |- _ => apply (entry_bytes_positive m n);
      unfold ok_or in Hb; by destruct (entry_bytes m); [injection Hb as ->|] end.
Qed.

Lemma prepare_tracks id expected attempt fresh saved w s :
  tracks c I (prepare_chat_attempt id expected attempt fresh saved w) s
    (fun p _ => from_option (fun p => 0 < PreparedChat.receipt_bytes p)%N True p).
Proof. unfold prepare_chat_attempt, validate_attempt, acknowledge_chat. tracking; apply prepare_new_tracks. Qed.

Lemma deliver_tracks id p s (Q : unit -> room * wire -> Prop) :
  (forall q, Q tt (s.1, q)) -> tracks c I (deliver_chat id p) s Q.
Proof.
  intros HQ Hf. unfold deliver_chat. destruct (PreparedChat.recipient p) as [[[name session] to]|].
  - unfold social_send. destruct (try_send_essential s.2 to _) as [q [x|e]], (PreparedChat.durable p);
      (split; [by apply moved_refl|]); cbn; auto.
  - split; [by apply moved_refl|]. apply HQ.
Qed.

Lemma watermark_moved id sequence r : fine I r -> moved c I r (advance_watermark id sequence r).
Proof.
  intros Hf. unfold advance_watermark. destruct sequence as [v|]; [|by apply moved_refl].
  destruct (Room.participants r !! id) eqn:Hp; [by eapply moved_member|by apply moved_refl].
Qed.

Lemma finish_tracks id expected p s :
  (0 < PreparedChat.receipt_bytes p)%N -> tracks c I (finish_chat_attempt id expected p) s (fun _ _ => True).
Proof.
  intros Hp. unfold finish_chat_attempt, acknowledge_chat. apply tracks_bind, deliver_tracks. intros q. tracking.
  intros. by apply watermark_moved.
Qed.

Lemma process_chat_tracks id expected attempt fresh w s :
  tracks c I (process_chat_attempt id expected attempt fresh w) s (fun _ _ => True).
Proof.
  apply tracks_bind. eapply tracks_mono; [|apply prepare_tracks]. intros [p|] s' Hp; [by apply finish_tracks|by track].
Qed.

Lemma typing_tracks id expected target w s : tracks c I (relay_typing id expected target w) s (fun _ _ => True).
Proof.
  unfold relay_typing. tracking; intros Hf; unfold note_typing;
    destruct (Room.participants s.1 !! id) eqn:Hp; first [by eapply moved_member|by apply moved_refl].
Qed.
End chat.

(** ** Chat commands *)

Ltac steadily :=
  repeat first
    [ progress cbn beta iota zeta
    | match goal with
      | |- steady _ (Return _) => apply steady_return
      | |- steady _ (ask_chat _ _ _) => apply steady_ask; intros ?
      | |- steady _ (pbind (ask _) _) => apply steady_ask; intros ?
      | |- steady _ (pbind new_uuid _) => apply steady_bind; [apply steady_uuid|intros ?]
      | |- steady _ (tell _ _) => apply steady_tell
      | |- steady _ (try_bind _ _) => apply steady_try; [|intros ?]
      | |- steady _ (pbind _ _) => apply steady_bind; [|intros ?]
      | |- steady _ (again _ _) => apply steady_reacquire; intros ? ? ? ?
      | |- steady _ (if ?b then _ else _) => destruct b
      | |- steady _ (match ?x with _ => _ end) => destruct x
      | |- orderly _ (Return _) => apply orderly_steady, steady_return
      | |- orderly _ (ask_chat _ _ _) => apply orderly_ask; intros ?
      | |- orderly _ (pbind (ask _) _) => apply orderly_ask; intros ?
      | |- orderly _ (pbind new_uuid _) => apply orderly_bind; [apply steady_uuid|intros ?]
      | |- orderly _ (pbind (persist_chat _ _ _) _) => apply orderly_persist_chat; intros ?
      | |- orderly _ (persisting _ _ _ _ _) => apply orderly_persisting; intros ?
      | |- orderly _ (persisting_chat _ _ _ _ _) => apply orderly_persisting_chat; intros ?
      | |- orderly _ (try_bind _ _) => apply orderly_try; [|intros ?]
      | |- orderly _ (if ?b then _ else _) => destruct b
      | |- orderly _ (match ?x with _ => _ end) => destruct x
      end ].

Section commands.
Context (mgr : manager) `{Unicode, Codec}.

Lemma chat_section_tracks c I id expected attempt fresh saved w s :
  tracks c I (chat_section mgr id expected attempt fresh saved w) s (fun _ _ => True).
Proof.
  apply tracks_bind. eapply tracks_mono; [|apply prepare_tracks]. intros [p|] s' Hp; [|by track].
  unfold need_database. tracking. eapply tracks_mono; [|by apply finish_tracks]. intros. by track.
Qed.

Lemma first_chat_tracks c I id expected attempt fresh w s :
  tracks c I (first_chat_section mgr id expected attempt fresh w) s (fun _ _ => True).
Proof. unfold first_chat_section, need_database. tracking; apply chat_section_tracks. Qed.

Lemma steady_failure a expected client e : steady a (chat_persistence_failure expected client e).
Proof. unfold chat_persistence_failure. steadily. Qed.

Lemma steady_finish_saved a id expected p : steady a (finish_saved a id expected p).
Proof.
  unfold finish_saved. destruct (entry_bytes _) as [bytes|] eqn:Hb; [|apply steady_return].
  apply steady_reacquire. intros. apply finish_tracks. by apply (entry_bytes_positive (PreparedChat.message p)).
Qed.

Lemma orderly_turn room_id a id expected turn : orderly a (finish_turn room_id a id expected turn).
Proof.
  unfold finish_turn. steadily; apply orderly_steady; first [apply steady_finish_saved|apply steady_failure].
Qed.

Lemma keeps_controlled_chat w room_id a id expected attempt fresh :
  known a w -> mapped room_id a w -> keeps {[ControlLock a]} w (controlled_chat mgr room_id id expected attempt fresh).
Proof.
  intros Hk Hm. apply keeps_get; [done..|]. match goal with |- forall w, known a w -> keeps _ w ?p => change (orderly a p) end.
  apply orderly_try; [apply steady_locked; intros; apply first_chat_tracks|]. intros turn.
  destruct turn as [|message|p days]; [apply orderly_turn| |apply orderly_turn]. steadily; [|apply orderly_turn].
  apply steady_reacquire. intros. apply chat_section_tracks.
Qed.

(** Chat in one section, or saved under control. *)
Lemma keeps_chat w room_id id expected attempt : keeps ∅ w (submit_chat_attempt mgr room_id id expected attempt).
Proof.
  unfold submit_chat_attempt. eapply triple_try; [apply calm_get_room| |done]. intros a w1 ? _ (-> & _ & Hk1).
  apply keeps_uuid. intros fresh w2 H2. pose proof (known_frame _ _ _ _ H2 Hk1) as Hk2.
  eapply triple_try; [apply (calm_triple ∅ w2 _ (fun _ _ => True)), (steady_locked a); [|done]| |done].
  - intros. tracking. eapply tracks_mono; [|apply process_chat_tracks]. intros. by track.
  - intros published w3 ? _ (-> & _ & _). destruct published; [apply keeps_return|]. apply keeps_control.
    intros. by apply keeps_controlled_chat.
Qed.

Lemma keeps_chat_command w room_id id expected command :
  keeps ∅ w (handle_chat_command mgr room_id id expected command).
Proof. unfold handle_chat_command. destruct (chat_attempt_of command); [apply keeps_chat|apply keeps_return]. Qed.

Lemma calm_typing w room_id id expected target : calmly w (typing room_id id expected target).
Proof. apply calm_commit. intros. apply typing_tracks. Qed.

(** ** Private edits in other rooms *)

Lemma reconcile_ok message s : social_ok s -> social_ok (reconcile_reactions message s).
Proof. intros Hs. unfold reconcile_reactions. destruct (find_live_entry _ s) as [[i h]|]; eauto with chat. Qed.
Lemma reconcile_books message s : books (reconcile_reactions message s) = books s.
Proof. unfold reconcile_reactions. destruct (find_live_entry _ s) as [[i h]|]; [by rewrite recount_books|done]. Qed.
Hint Resolve reconcile_ok reconcile_books : chat.

Lemma steady_inbox room_id a message recipient reactions :
  steady a (atomically (inbox_section room_id a message recipient reactions)).
Proof.
  intros w Hk. apply calm_atomic. intros w0 He Hi. split; [|done]. destruct (known_evolves _ _ _ He Hk) as [r Hr].
  unfold inbox_section. rewrite (room_at_known _ _ _ Hr). destruct (_ || _ || _); [by apply quiet_section|]. cbn [fst].
  eapply (move_section false ∅ w0 _ a r); [done..| |done]. apply moved_chat; [| |by eapply world_fine];
    destruct reactions; intros; eauto with chat.
Qed.

Lemma calm_inbox_update w message recipient reactions entry :
  known entry.2 w -> calmly w (complete_inbox_update mgr message recipient reactions entry).
Proof.
  intros Hk. unfold complete_inbox_update. eapply calm_bind with (Q' := fun _ _ => True); [by apply calm_read|].
  intros present w1 H1 _. destruct (negb present); [apply calmly_return|]. apply calm_holding; [done|].
  intros w2 H2. assert (known entry.2 w2) as Hk2 by (do 2 (eapply known_evolves; [eassumption|]); done).
  revert w2 H2 Hk2. enough (steady entry.2 (if reactions then _ else _)) as Hs by (intros; by apply Hs).
  steadily; apply steady_inbox.
Qed.

Lemma steady_schedule a message reactions : steady a (schedule_inbox_update mgr message reactions).
Proof.
  unfold schedule_inbox_update. destruct (ChatEntry.recipient_id message) as [recipient|]; [|apply steady_return].
  intros w Hk. eapply calm_bind with (Q' := fun all w' => forall entry, entry ∈ all -> known entry.2 w').
  - apply calm_read. intros w0 He Hi [room_id b] Hin%elem_of_map_to_list.
    destruct (ok_map _ Hi room_id b Hin) as (r & Hr & _). by exists r.
  - intros all w1 H1 Hall. apply calm_spawn; [|apply calmly_return]. intros w2 H2 _. eapply keeps_calm, calm_for_each.
    intros entry w3 H3 Hin. apply calm_inbox_update. eapply known_evolves; [exact H3|]. eapply known_evolves; [exact H2|]. by apply Hall.
Qed.
End commands.

(** ** Social requests *)

Ltac trackings := unfold require_role, need_database, page_offset, preferences_response in *; tracking.

Section requests.
Context (mgr : manager) `{Unicode, Codec} (q : social_request).
Abbreviation a := (req_address q).

Lemma reserve_social_tracks c I command now s (Q : unit -> room * wire -> Prop) :
  (forall r, fine I r -> Q tt (r, s.2)) -> tracks c I (reserve_social command now) s Q.
Proof.
  intros HQ. apply tracks_fine. intros Hf. unfold reserve_social, reserve_chat.
  destruct (social_budget_of command); [apply tracks_ret; destruct s; by apply HQ| |];
    (apply tracks_reserve; [intros; by apply moved_budget|]; intros v; apply HQ;
     by eapply mv_fine, (moved_budget false I s.1)).
Qed.

Lemma tracks_admitted {A} c I (m : participant -> world -> handler failure (room * wire) A) actor w s :
  (forall I actor w s, tracks c I (m actor w) s (fun _ _ => True)) ->
  tracks c I (reserve_social (req_command q) (clock w) ;; m actor w)%handler s (fun _ _ => True).
Proof. intros Hm. apply tracks_bind, reserve_social_tracks. intros. apply Hm. Qed.

Lemma steady_admitted {A} (m : participant -> world -> handler failure (room * wire) A) :
  (forall I actor w s, tracks false I (m actor w) s (fun _ _ => True)) -> steady a (admitted q m).
Proof. intros Hm. apply steady_reacquire. intros. by apply tracks_admitted. Qed.

Lemma orderly_admitted {A B} (m : participant -> world -> handler failure (room * wire) A) (f : A -> handled B) :
  (forall I actor w s, tracks true I (m actor w) s (fun _ _ => True)) -> (forall x, orderly a (f x)) ->
  orderly a (let? x := admitted q m in f x).
Proof.
  intros Hm Hf. apply orderly_then; [|done]. intros I w s.
  apply (tracks_reacquired _ _ _ _ (fun actor w => reserve_social (req_command q) (clock w) ;; m actor w)%handler).
  intros. by apply tracks_admitted.
Qed.

Lemma steady_preferences allow ids : steady a (set_chat_preferences mgr q allow ids).
Proof. unfold set_chat_preferences. steadily; [apply steady_admitted; intros|]; trackings. Qed.

Lemma steady_nickname nickname : steady a (change_nickname q nickname).
Proof. apply steady_admitted. intros. unfold nickname_section. trackings. Qed.

Lemma steady_style style : steady a (set_chat_style mgr q style).
Proof. unfold set_chat_style, publish_style. steadily; [apply steady_admitted; intros|]; trackings. Qed.

Lemma steady_history query : steady a (chat_history mgr q query).
Proof. unfold chat_history. steadily; [apply steady_admitted; intros|]; trackings. Qed.

Lemma steady_mark_read message : steady a (mark_chat_read mgr q message).
Proof. unfold mark_chat_read. steadily; [apply steady_admitted; intros|]; trackings. Qed.

Lemma publish_retention_tracks I days s : tracks true I (publish_retention days) s (fun _ _ => True).
Proof.
  unfold publish_retention. tracking. intros Hf. apply moved_tame; [|by apply tame_same|by intros|done].
  apply with_retention_ok; [done|apply Hf].
Qed.

Lemma orderly_retention days : orderly a (set_room_history mgr q days).
Proof.
  unfold set_room_history. steadily; [apply steady_admitted; intros; trackings|].
  apply orderly_reacquire. intros. apply publish_retention_tracks.
Qed.

Lemma publish_edit_tracks c I m s : tracks c I (publish_edit m) s (fun _ _ => True).
Proof. unfold publish_edit. tracking. Qed.

Lemma decide_edit_tracks c I authenticated keeps edit edited w s :
  tracks c I (decide_edit mgr q authenticated keeps edit edited w) s (fun _ _ => True).
Proof. unfold decide_edit, publish_edit. tracking. Qed.

Lemma orderly_commit_edit guest edit decision : orderly a (commit_edit mgr q guest edit decision).
Proof.
  unfold commit_edit, edited_response. steadily; try apply orderly_steady; steadily; try apply steady_schedule.
  apply publish_edit_tracks.
Qed.

Lemma orderly_edit message edit : orderly a (edit_chat_message mgr q message edit).
Proof.
  unfold edit_chat_message, edit_section. steadily; try apply orderly_commit_edit.
  - apply steady_admitted. intros. trackings. eapply tracks_mono; [|apply decide_edit_tracks]. intros. by track.
  - apply decide_edit_tracks.
Qed.

Lemma pins_response_tracks c I changed s (Q : _ -> room * wire -> Prop) :
  (forall x s', Q x s') -> tracks c I (pins_response q changed) s Q.
Proof. intros HQ. unfold pins_response. tracking; apply HQ. Qed.

Lemma pin_locally_tracks c I message pinned s (Q : _ -> room * wire -> Prop) :
  (forall x s', Q x s') -> tracks c I (pin_locally message pinned) s Q.
Proof. intros HQ. unfold pin_locally. tracking; apply HQ. Qed.

Lemma orderly_pins change : orderly a (pinned_messages mgr q change).
Proof.
  unfold pinned_messages. steadily; try apply orderly_steady; steadily.
  2, 3: trackings; by apply pins_response_tracks.
  apply steady_admitted. intros. trackings; first [apply pin_locally_tracks|apply pins_response_tracks]; intros; trackings;
    apply pins_response_tracks; intros; trackings.
Qed.

Lemma publish_removed_tracks c I message removed_at s (Q : _ -> room * wire -> Prop) :
  (forall x s', Q x s') -> tracks c I (publish_removal_of message removed_at) s Q.
Proof. intros HQ. unfold publish_removal_of. tracking; apply HQ. Qed.

Lemma decide_removal_tracks c I message name persisted event original w s (Q : _ -> room * wire -> Prop) :
  (forall x s', Q x s') -> tracks c I (decide_removal mgr q message name persisted event original w) s Q.
Proof.
  intros HQ. unfold decide_removal. trackings; try apply publish_removed_tracks; intros; try apply HQ; track; apply HQ.
Qed.

Lemma orderly_removal message : orderly a (remove_chat_message mgr q message).
Proof.
  unfold remove_chat_message, commit_removal.
  steadily; try (apply orderly_steady; steadily; trackings; by apply publish_removed_tracks).
  - apply steady_admitted. intros. trackings. apply decide_removal_tracks. intros. by track.
  - by apply decide_removal_tracks.
Qed.

Lemma publish_reaction_tracks c I message reactions s (Q : _ -> room * wire -> Prop) :
  (forall x s', Q x s') -> tracks c I (publish_reaction message reactions) s Q.
Proof. intros HQ. unfold publish_reaction. tracking; apply HQ. Qed.

Lemma publish_saved_reaction_tracks c I m s (Q : _ -> room * wire -> Prop) :
  (forall x s', Q x s') -> tracks c I (publish_saved_reaction m) s Q.
Proof.
  intros HQ. unfold publish_saved_reaction. tracking. intros Hf. apply moved_chat; [| |done].
  - intros Hs. eapply chat_keeps_memory; [exact Hs| |apply reconcile_books]. intros Hc. by destruct (reconcile_ok m _ Hc).
  - apply books_bans, reconcile_books.
Qed.

Lemma orderly_reaction message e : orderly a (react_to_message mgr q message e).
Proof.
  unfold react_to_message. steadily; try apply orderly_steady; steadily; trackings.
  all: try (apply publish_reaction_tracks; intros; by track).
  - apply steady_admitted. intros. trackings. apply publish_reaction_tracks. intros. by track.
  - apply publish_saved_reaction_tracks. intros. by track.
Qed.

(** ** Lists, bans, roles and reports *)

Lemma steady_list {A} required offset unavailable load (convert : forall offset, chat_reply (load offset) -> room -> participant -> list A)
    late own answer :
  (forall I offset actor w s, tracks false I (own offset actor w) s (fun _ _ => True)) ->
  steady a (list_request mgr q required offset unavailable load convert late own answer).
Proof.
  intros Hown. unfold list_request. steadily; [|trackings]. apply steady_admitted. intros. trackings.
  eapply tracks_mono; [|apply Hown]. intros. by track.
Qed.

(** The bans a room lists are pruned first, under control. *)
Lemma orderly_bans offset : orderly a (list_room_bans mgr q offset).
Proof.
  unfold list_room_bans, list_request. apply orderly_admitted.
  - intros. trackings. apply moved_books, fewer_runtime_bans_ok.
  - intros first. apply orderly_steady. steadily. trackings.
Qed.
Lemma steady_members offset : steady a (list_room_members mgr q offset).
Proof. apply steady_list. intros. trackings. Qed.
Lemma steady_reports offset : steady a (list_room_reports mgr q offset).
Proof. apply steady_list. intros. trackings. Qed.
Lemma steady_events offset : steady a (list_moderation_events mgr q offset).
Proof. apply steady_list. intros. trackings. Qed.

Lemma publish_unban_moved I user ip ids r : fine I r -> moved true I r (publish_unban user ip ids r).
Proof.
  intros Hf. destruct (publish_unban_tame user ip ids r) as [Ht Hp].
  apply moved_tame; [by apply publish_unban_ok, Hf|done|by apply people_closed|done].
Qed.

Lemma deleted_ban_ok key s : memory_ok s -> memory_ok (s <| RoomSocial.bans ::= delete key |>).
Proof.
  intros [Hc []]. split; [by destruct Hc|]. split; [|done..]. cbn [RoomSocial.bans update_field].
  rewrite map_size_delete. destruct (RoomSocial.bans s !! key); cbn [id]; lia.
Qed.

Lemma remove_local_ban_tracks I actor id event w s (Q : _ -> room * wire -> Prop) :
  (forall x s', Q x s') -> tracks true I (remove_local_ban q actor id event w) s Q.
Proof.
  intros HQ. unfold remove_local_ban, take_ban. destruct s as [r q0].
  apply tracks_bind, tracks_get. cbn [fst]. destruct (list_find _ _) as [[i [key ban]]|]; cbn [mbind option_bind]; [|apply tracks_bail].
  tracking; [|apply publish_unban_moved]. apply moved_books. intros Hs. by apply record_event_ok, deleted_ban_ok.
Qed.

Lemma orderly_remove_ban id : orderly a (remove_room_ban mgr q id).
Proof.
  unfold remove_room_ban. apply orderly_bind; [apply steady_uuid|]. intros event. apply orderly_admitted.
  - intros. trackings. apply remove_local_ban_tracks. intros. by track.
  - intros first. steadily. apply orderly_reacquire. intros. trackings. apply publish_unban_moved.
Qed.

Lemma orderly_member_role target new_role : orderly a (set_member_role mgr q target new_role).
Proof.
  unfold set_member_role. steadily; [apply steady_admitted; intros; trackings|].
  apply orderly_steady. steadily. trackings.
Qed.

Lemma prepare_report_tracks c I actor target reason report w s (Q : _ -> room * wire -> Prop) :
  (forall x s', Q x s') -> tracks c I (prepare_report q actor target reason report w) s Q.
Proof. intros HQ. unfold prepare_report, report_cooldown_active. tracking; apply HQ. Qed.

Lemma filed_report_ok reports report s :
  make_report_room (RoomSocial.reports s) = Some reports -> memory_ok s ->
  memory_ok (s <| RoomSocial.reports := reports ++ [report] |>).
Proof.
  intros Hroom [Hc []]. split; [by destruct Hc|]. split; [done| |done]. cbn [RoomSocial.reports update_field].
  rewrite length_app. cbn [length]. unfold make_report_room in Hroom.
  destruct (Nat.leb_spec MAX_REPORTS (length (RoomSocial.reports s))); [|injection Hroom as <-; lia].
  destruct (list_find _ _) as [[i e]|] eqn:Hi; [|done]. cbn in Hroom. injection Hroom as <-.
  apply list_find_Some in Hi as (Hi & _). pose proof (length_delete _ _ (ex_intro _ _ Hi)).
  apply lookup_lt_Some in Hi. lia.
Qed.

Lemma orderly_report target reason : orderly a (report_participant mgr q target reason).
Proof.
  unfold report_participant, note_reporter. steadily; [|apply orderly_steady; steadily; trackings].
  apply steady_admitted. intros. apply tracks_bind, prepare_report_tracks. intros [report key] s'. trackings.
  apply moved_chat; [|done]. apply filed_report_ok.
  match goal with Hr : ok_or (make_report_room ?l) _ = Ok _ |- _ => destruct (make_report_room l) as [reports|]; [|done];
    cbn in Hr; injection Hr as -> end. done.
Qed.

Lemma closed_report_ok i report s : memory_ok s -> memory_ok (s <| RoomSocial.reports ::= <[i := report]> |>).
Proof.
  intros [Hc []]. split; [by destruct Hc|]. split; [done| |done]. cbn [RoomSocial.reports update_field]. by rewrite length_insert.
Qed.

Lemma orderly_resolve id status : orderly a (resolve_room_report mgr q id status).
Proof.
  unfold resolve_room_report, resolve_local_report. steadily; [|apply orderly_steady; steadily; trackings].
  apply steady_admitted. intros. trackings. apply moved_chat; [|done]. intros Hs. by apply record_event_ok, closed_report_ok.
Qed.

(** ** Dispatch *)

Create HintDb requests discriminated.
Hint Constants Opaque : requests.
Hint Resolve orderly_retention orderly_edit orderly_pins orderly_removal orderly_reaction orderly_remove_ban
  orderly_member_role orderly_report orderly_resolve orderly_bans : requests.
Hint Resolve steady_history steady_mark_read steady_preferences steady_nickname steady_style steady_members
  steady_reports steady_events : requests.
Hint Extern 5 (orderly _ _) => apply orderly_steady : requests.

Lemma orderly_dispatch : orderly a (dispatch mgr q).
Proof.
  unfold dispatch. destruct (req_command q); lazymatch goal with
    | |- orderly _ (admitted _ _) => apply orderly_steady, steady_admitted; intros; by track
    | _ => auto with requests
    end.
Qed.
End requests.

Section dispatcher.
Context (mgr : manager) `{Unicode, Codec} (room_id : string) (id : participant_id) (expected : sender).

Lemma calmly_tell w to m : calmly w (tell to m).
Proof. apply calm_quiet; [|done]. intros w0. by destruct (try_send_essential (the_wire w0) to m). Qed.

Lemma keeps_dispatched w a command request_id :
  known a w -> mapped room_id a w ->
  keeps {[ControlLock a]} w (dispatched mgr room_id id expected command request_id (Some a)).
Proof.
  intros Hk Hm. apply keeps_get; [done..|]. intros w1 Hk1.
  eapply triple_try; [by apply (orderly_dispatch mgr (SocialRequest room_id a id expected command))| |done].
  intros response w2 L2 _ _. apply keeps_release. intros. apply calmly_tell.
Qed.

(** Reading who is online lets nobody else in. *)
Lemma triple_online w a target :
  known a w -> mapped room_id a w ->
  triple {[ControlLock a]} w (online_target room_id id expected target)
    (fun _ w' L' => L' = {[ControlLock a]} /\ frame {[ControlLock a]} w w').
Proof.
  intros Hk Hm. eapply triple_try; [apply (triple_get_mapped _ w room_id a); [done|set_solver]| |by intros ? ? ? _ (-> & ? & _)].
  intros ? w1 ? H1 (-> & Hf1 & ->). eapply triple_mono; [|apply (calm_triple _ w1 _ (fun _ _ => True)), (steady_locked a)].
  - cbn. intros x w2 ? _ (-> & Hf2 & _). split; [done|]. by trans w1.
  - intros. by track.
  - by eapply known_evolves.
Qed.

(** A role is set where its holder is online, under the control already held. *)
Lemma keeps_social_inner w a command :
  known a w -> mapped room_id a w ->
  keeps {[ControlLock a]} w (handle_social_request_inner mgr room_id id expected command (Some a)).
Proof.
  intros Hk Hm. unfold handle_social_request_inner. destruct (request_id_of command) as [request_id|]; [|apply keeps_return].
  destruct command; try by apply keeps_dispatched.
  eapply triple_try; [by apply triple_online| |done]. intros online w1 ? H1 [-> Hf].
  assert (mapped room_id a w1) as Hm1 by (eapply mapped_later; [|exact Hf|done]; set_solver).
  pose proof (known_evolves _ _ _ H1 Hk) as Hk1. destruct online; [|by apply keeps_dispatched].
  eapply triple_try; [by apply keeps_role_controlled| |done]. intros. eapply keeps_calm, calmly_tell.
Qed.

Lemma keeps_social w command : keeps ∅ w (handle_social_request mgr room_id id expected command).
Proof.
  unfold handle_social_request. destruct (request_id_of command) as [request_id|] eqn:Hr; [|apply keeps_return].
  destruct command; try (apply keeps_control; intros; by apply keeps_social_inner).
  - eapply keeps_calm with (Q := fun _ _ => True). unfold handle_social_request_inner. rewrite Hr. unfold dispatched, dispatch. cbn [req_command].
    eapply calm_try; [apply calm_get_room| |done]. intros a w1 _ Hk. eapply calm_try; [by apply steady_nickname| |done].
    intros. apply calmly_tell.
  - eapply keeps_calm with (Q := fun _ _ => True), calm_try; [apply calm_get_room| |done]. intros a w1 _ Hk.
    eapply calm_try; [apply (steady_locked a); [|done]| |done]; [|intros; apply calmly_tell].
    intros. unfold snapshot_section. by track.
Qed.
End dispatcher.
