(* ===== verification/Safety.v ===== *)
(** * The room server under every interleaving

    The requests of [request], in any number and order, with whatever
    answers of the database, the media workers and the clocks: what holds of
    the rooms between any two critical sections.  One step is set apart: a
    deletion that the database refused may reopen its room [out_of_turn], and
    from then on the room may be live with no name leading to it.  Executions
    without such a step are [reachable]; [nobody_is_stranded] is about all. *)

From stdpp Require Import relations.
From S2P Require Import Prelude Refusal Net Roles Window RateTable Labels Settings Protocol Moderation Wire Social Room Media Publication RoomInv RoomSteps Process Triples Schedule World Chat ChatDelivery ModerationOps SettingsOps Lobby Membership MediaOps Lifecycle ChatRequests SocialRequests RoomRequests WorldInv Sections CalmHandlers ControlHandlers ArrivalHandlers LifecycleHandlers ChatHandlers.

Open Scope process_scope.

(** ** The system *)

(** Serve a request; its answer goes to the client. *)
Definition serve {A} (p : process A) : process unit := let* _ := p in Return tt.

(** The entry points of the room manager, but for those of
    [room/administration.rs] and [room/community.rs]. *)
Inductive request (mgr : manager) `{Unicode, Codec} : process unit -> Prop :=
| ReqJoin room_id id name sender authenticated flag password token ip style :
    request mgr (serve (add_participant mgr room_id id name sender authenticated flag password token ip style))
| ReqLeave room_id id expected : request mgr (serve (remove_participant_inner room_id id expected))
| ReqDisconnected room_id id expected : request mgr (serve (mark_participant_disconnected room_id id expected))
| ReqRebind room_id id subject expected fresh :
    request mgr (serve (rebind_participant_sender room_id id subject expected fresh))
| ReqIsBound room_id id expected : request mgr (serve (is_bound_participant room_id id expected))
| ReqObserved a e : request mgr (serve (observer_task_step a e))
| ReqSanction room_id moderator expected target kind enabled reason :
    request mgr (serve (update_punitive_state mgr room_id moderator expected target kind enabled reason))
| ReqCloseCam room_id moderator expected target : request mgr (serve (close_cam room_id moderator expected target))
| ReqKick room_id moderator expected target reason report :
    request mgr (serve (kick_participant mgr room_id moderator expected target reason report))
| ReqBan room_id moderator expected target reason duration report :
    request mgr (serve (ban_participant mgr room_id moderator expected target reason duration report))
| ReqUnban room_id moderator expected target :
    request mgr (serve (unban_participant mgr room_id moderator expected target))
| ReqRole room_id setter expected target new_role :
    request mgr (serve (set_participant_role mgr room_id setter expected target new_role))
| ReqVoice room_id id expected : request mgr (serve (request_voice room_id id expected))
| ReqSettings room_id admin expected patch :
    request mgr (serve (SettingsOps.update_room_settings mgr room_id admin expected patch))
| ReqTopic room_id admin expected topic : request mgr (serve (set_topic mgr room_id admin expected topic))
| ReqAdmit room_id moderator expected target :
    request mgr (serve (admit_from_lobby mgr room_id moderator expected target))
| ReqDeny room_id moderator expected target reason :
    request mgr (serve (deny_from_lobby room_id moderator expected target reason))
| ReqProduce room_id id expected transport kind source :
    request mgr (serve (create_producer room_id id expected transport kind source))
| ReqCloseProducer room_id id expected producer :
    request mgr (serve (close_producer room_id id expected producer))
| ReqPause room_id id expected producer is_paused :
    request mgr (serve (set_producer_paused room_id id expected producer is_paused))
| ReqMedia room_id id expected call : request mgr (serve (refunded room_id id expected call))
| ReqBwe room_id id expected : request mgr (serve (subscribe_bwe_events room_id id expected))
| ReqRestartIce room_id id expected transport : request mgr (serve (restart_ice room_id id expected transport))
| ReqCapabilities room_id id expected : request mgr (serve (get_router_rtp_capabilities room_id id expected))
| ReqSendTransport room_id id expected : request mgr (serve (create_send_transport room_id id expected))
| ReqRecvTransport room_id id expected : request mgr (serve (create_recv_transport room_id id expected))
| ReqConsume room_id id expected producer : request mgr (serve (create_consumer room_id id expected producer))
| ReqCeiling room_id id expected transport spatial :
    request mgr (serve (set_bandwidth_ceiling room_id id expected transport spatial))
| ReqReplaceRecv room_id id expected transport bwe :
    request mgr (serve (replace_recv_transport room_id id expected transport bwe))
| ReqCurrentRecv room_id id expected transport : request mgr (serve (is_current_recv_transport room_id id expected transport))
| ReqCreateRoom owner body hash : request mgr (serve (create_persisted_room mgr owner body hash))
| ReqDeleteRoom room_id requester : request mgr (serve (delete_persisted_room mgr room_id requester))
| ReqRecover worker affected : request mgr (serve (recover_from_worker_death worker affected))
| ReqShutdown : request mgr (serve shutdown)
| ReqChat room_id id expected command : request mgr (serve (handle_chat_command mgr room_id id expected command))
| ReqTyping room_id id expected target : request mgr (serve (typing room_id id expected target))
| ReqSocial room_id id expected command : request mgr (serve (handle_social_request mgr room_id id expected command)).

(** Between sections time passes and sockets read, close and connect. *)
Definition outside (w w' : world) : Prop :=
  exists now wall q, (clock w <= now)%N /\ w' = w <| clock := now |> <| World.wall := wall |> <| the_wire := q |>.

(** The server at start. *)
Definition empty_wire : wire := Wire ∅ [] 0 0 0.
Definition started (now : instant) (wall : timestamp) : world :=
  World ∅ 0 ∅ ∅ ∅ false empty_wire ∅ (RateTable ∅ [] None) (RateTable ∅ [] None) now wall 0 ∅ [].
Definition boot (now : instant) (wall : timestamp) : config world lock query reply :=
  Config (started now wall) ∅ ∅.

(** Any step of any task, a new request, or the outside; what the handlers are
    told is arbitrary. *)
Definition system (mgr : manager) `{Unicode, Codec} : config world lock query reply -> config world lock query reply -> Prop :=
  some_step outside (request mgr).
(** The task that steps reopens the room of a refused deletion out of turn. *)
Definition strays : option N -> config world lock query reply -> config world lock query reply -> Prop :=
  Process.strays out_of_turn.
(** A step that does not. *)
Definition orderly (mgr : manager) `{Unicode, Codec} : config world lock query reply -> config world lock query reply -> Prop :=
  Process.orderly out_of_turn outside (request mgr).
Definition reachable (mgr : manager) `{Unicode, Codec} (c : config world lock query reply) : Prop :=
  exists now wall, rtc (orderly mgr) (boot now wall) c.

(** ** Every handler keeps the invariant *)

Lemma keeps_serve {A} w (p : process A) : keeps ∅ w p -> keeps ∅ w (serve p).
Proof. intros Hp. eapply triple_bind; [exact Hp|]. intros. apply keeps_return. Qed.

Section handlers.
Context (mgr : manager) `{Unicode, Codec}.

Lemma request_keeps p w : request mgr p -> keeps ∅ w p.
Proof.
  intros Hr. destruct Hr; apply keeps_serve.
  - apply keeps_join.
  - eapply keeps_of, keeps_remove_inner.
  - eapply keeps_calm, calm_disconnected.
  - apply keeps_rebind.
  - eapply keeps_calm, calm_bound.
  - eapply keeps_calm, calm_observer_step.
  - apply keeps_punitive.
  - eapply keeps_calm, calm_close_cam.
  - apply keeps_kick.
  - apply keeps_ban.
  - apply keeps_unban.
  - apply keeps_role.
  - eapply keeps_calm, calm_voice.
  - apply keeps_settings.
  - apply keeps_topic.
  - apply keeps_admit.
  - apply keeps_deny.
  - eapply keeps_calm, calm_create_producer.
  - eapply keeps_calm, calm_close_producer.
  - eapply keeps_calm, calm_set_paused.
  - eapply keeps_calm, calm_refunded.
  - eapply keeps_calm, calm_budgeted. intros. apply calmly_return.
  - eapply keeps_calm, calm_budgeted. intros. apply calmly_return.
  - eapply keeps_calm, calm_capabilities.
  - eapply keeps_calm, calm_send_transport.
  - eapply keeps_calm, calm_recv_transport.
  - eapply keeps_calm, calm_consumer.
  - eapply keeps_calm, calm_ceiling.
  - apply keeps_replace_recv.
  - eapply keeps_calm, calm_current_recv.
  - eapply keeps_calm, calm_create_persisted.
  - apply keeps_delete.
  - apply keeps_recovery.
  - apply keeps_shutdown.
  - apply keeps_chat_command.
  - eapply keeps_calm, calm_typing.
  - apply keeps_social.
Qed.

Lemma request_ok p : request mgr p -> forall t w h, (forall l, h !! l <> Some t) -> world_ok w ->
  wp t p (fun _ _ _ => True) w h.
Proof.
  intros Hr t w h Hno Hi. eapply wp_mono; [|apply (request_keeps p w Hr)]; [done|].
  intros l. split; [intros Hl; by destruct (Hno l)|set_solver].
Qed.

Lemma outside_ok w w' : world_ok w -> outside w w' ->
  world_ok w' /\ evolves w w' /\ local w w' /\ forall l, protects l w w'.
Proof.
  intros Hi (now & wall & q & _ & ->).
  match goal with |- world_ok ?w' /\ _ => destruct (quiet_section ∅ w w' Hi eq_refl) as [Q1 Q2 Q3 Q4] end.
  split; [exact Q1|]. split; [exact Q2|]. split; [exact Q3|]. intros l. apply Q4. set_solver.
Qed.

Lemma started_ok now wall : world_ok (started now wall).
Proof. split; cbn; intros; by rewrite lookup_empty in *. Qed.

Abbreviation config_ok := (Process.config_ok (query := query) (reply := reply) world_ok protects evolves local free_lock out_of_turn).

Lemma boot_ok now wall : config_ok (boot now wall).
Proof. split; cbn; [apply started_ok|done..]. Qed.

Lemma reachable_ok c : reachable mgr c -> config_ok c.
Proof.
  intros (now & wall & Hsteps).
  by apply (orderly_keep world_ok protects evolves local free_lock (fun _ _ _ _ Hl => Hl) _ _ out_of_turn outside (request mgr) outside_ok request_ok
              (boot now wall) c Hsteps), boot_ok.
Qed.

Lemma reachable_world c : reachable mgr c -> world_ok (the_world c).
Proof. intros Hc. apply (cfg_inv _ _ _ _ _ _ _ (reachable_ok c Hc)). Qed.

(** What a step out of turn leaves alone. *)
Lemma strayed_map who c c' : strays who c c' -> rooms (the_world c') = rooms (the_world c).
Proof. destruct who as [t|]; [|done]. by intros (a & r & _ & _ & -> & _). Qed.

Lemma strayed_room who c c' a r : strays who c c' -> heap (the_world c) !! a = Some r ->
  heap (the_world c') !! a = Some r
  \/ (heap (the_world c') !! a = Some (set_deleting false r) /\ Room.deleting r = true).
Proof.
  destruct who as [t|]; [|done]. intros (b & r0 & Hr0 & Hd & -> & _) Hr. cbn.
  destruct (decide (a = b)) as [->|Hne]; [|left; by rewrite lookup_insert_ne].
  right. rewrite lookup_insert_eq. replace r0 with r in * by congruence. done.
Qed.

(** ** What holds in every interleaving *)

(** C1: whatever requests are served in whatever interleaving and whatever
    is answered, as long as no deletion refused by the database has reopened its
    room out of turn (without the room's control, or after the room left the
    map), every room stays consistent between sections.  Members and people waiting are
    filed under their own identifier, nobody is both, the ownership index
    names exactly the published producers, nobody present is banned, and in a
    room without a database row everyone is under exactly the sanction their
    identity is remembered with. *)
Theorem rooms_stay_consistent c a r :
  reachable mgr c -> heap (the_world c) !! a = Some r -> room_struct r.
Proof. intros Hc Hr. apply (ok_rooms _ (reachable_world c Hc) a r Hr). Qed.

(** C2: whatever is interleaved and answered, as long as no refused
    deletion has reopened its room out of turn, every published stream is one the
    settings and the role of its owner permit (and, in a room without a
    database row, the camera ban too), and no room has more broadcasters than
    its limit. *)
Theorem streams_stay_permitted c a r :
  reachable mgr c -> heap (the_world c) !! a = Some r ->
  (forall id p producer rec, Room.participants r !! id = Some p ->
     Participant.producers p !! producer = Some rec -> permitted r p rec)
  /\ (forall maximum, broadcaster_limit r = Some maximum -> (broadcaster_count r <= maximum)%N).
Proof.
  intros Hc Hr. destruct (ok_auth _ (ok_rooms _ (reachable_world c Hc) a r Hr)) as [H1 H2]. by split.
Qed.

(** C3: nobody is in a room that cannot be found, in whatever execution,
    unless a refused deletion went wrong in it.  A room that is live, or has
    anybody in it, is the one its name leads to; or the server is shutting down
    and has unmapped it; or some earlier step was a deletion, refused by the
    database, that reopened its room although it no longer had the room's
    control or the room had already left the map. *)
Theorem nobody_is_stranded now wall c a r :
  rtc (system mgr) (boot now wall) c -> heap (the_world c) !! a = Some r ->
  Room.deleting r = false \/ ~ deserted r ->
  rooms (the_world c) !! Room.id r = Some a
  \/ (draining (the_world c) = true /\ rooms (the_world c) !! Room.id r = None)
  \/ exists who c1 c2, rtc (system mgr) (boot now wall) c1 /\ step outside (request mgr) who c1 c2 /\ strays who c1 c2
       /\ rtc (system mgr) c2 c.
Proof.
  intros Hc Hr Hlive.
  destruct (steps_keep world_ok protects evolves local free_lock (fun _ _ _ _ Hl => Hl) _ _ out_of_turn outside (request mgr) outside_ok request_ok
              (boot now wall) c Hc (boot_ok now wall)) as [Hok|Hst]; [|by right; right].
  destruct (ok_placed _ (cfg_inv _ _ _ _ _ _ _ Hok) a r Hr) as [?|[?|[Hd He]]]; auto.
  destruct Hlive; [congruence|done].
Qed.

(** C4: as long as no refused deletion has reopened its room out of turn,
    and while one request holds a room's control, no step of any other task
    changes who is in the room or waits for it, their roles and sanctions, the
    bans, the settings or the password, nor whether the room is live, with one
    exception: the next step may be such a reopening, of a closed room by a
    refused deletion that gave up waiting for it, and then nothing else of the
    room changes. *)
Theorem control_is_exclusive who c c' a t r :
  reachable mgr c -> step outside (request mgr) who c c' ->
  held c !! ControlLock a = Some t -> who <> Some t -> heap (the_world c) !! a = Some r ->
  exists r', heap (the_world c') !! a = Some r'
    /\ (control_view r' = control_view r \/ (Room.deleting r = true /\ r' = set_deleting false r)).
Proof.
  intros Hc Hstep Hheld Hwho Hr.
  destruct (step_protects world_ok protects evolves local free_lock _ _ out_of_turn outside (request mgr) outside_ok who c c'
              (ControlLock a) t Hstep (reachable_ok c Hc) Hheld Hwho) as [Hst|[_ [Hview _]]].
  - destruct (strayed_room _ _ _ _ _ Hst Hr) as [?|[? ?]]; eauto.
  - destruct (Hview r Hr) as (r' & ? & ?). eauto.
Qed.

(** C5: as long as no refused deletion has reopened its room out of turn,
    no step replaces the room behind a name by another one, and a step takes a room out of the map only when nobody is in it or waits for
    it, or when the server is shutting down. *)
Theorem rooms_leave_empty who c c' id a :
  reachable mgr c -> step outside (request mgr) who c c' ->
  rooms (the_world c) !! id = Some a ->
  rooms (the_world c') !! id = Some a
  \/ (rooms (the_world c') !! id = None
      /\ (draining (the_world c') = true
          \/ exists r, heap (the_world c') !! a = Some r /\ deserted r)).
Proof.
  intros Hc Hstep Hid.
  destruct (step_relations world_ok protects evolves local free_lock _ _ _ out_of_turn outside (request mgr) outside_ok who c c'
              Hstep (reachable_ok c Hc)) as [Hst|[_ [Hkept Hleft]]]; [left; by rewrite (strayed_map _ _ _ Hst)|].
  destruct (rooms (the_world c') !! id) as [b|] eqn:Hb; [left; by rewrite (Hkept id a b Hid Hb)|]. right. eauto.
Qed.

(** C15: whatever is interleaved and answered, as long as no refused
    deletion has reopened its room out of turn, what a room remembers stays
    bounded.  The
    replay history holds at most 300 messages of 256 KiB together, and its
    byte counter is exact; at most 512 delivery receipts are kept, 128 for one
    membership, within 512 KiB unless a single one is larger; and there are at
    most 2,000 runtime bans, 500 reports and 200 moderation events. *)
Theorem room_memory_is_bounded c a r :
  reachable mgr c -> heap (the_world c) !! a = Some r ->
  let s := Room.social r in
  (length (RoomSocial.history s) <= 300)%nat
  /\ total HistoryEntry.bytes (RoomSocial.history s) = RoomSocial.history_bytes s
  /\ (RoomSocial.history_bytes s <= 256 * 1024)%N
  /\ (length (RoomSocial.receipts s) <= 512)%nat
  /\ (forall session, receipts_of session (RoomSocial.receipts s) <= 128)%nat
  /\ total ChatReceipt.bytes (RoomSocial.receipts s) = RoomSocial.receipt_bytes s
  /\ ((RoomSocial.receipt_bytes s <= 512 * 1024)%N \/ (length (RoomSocial.receipts s) <= 1)%nat)
  /\ (size (RoomSocial.bans s) <= N.to_nat 2000)%nat
  /\ (length (RoomSocial.reports s) <= 500)%nat
  /\ (length (RoomSocial.moderation_events s) <= 200)%nat.
Proof.
  intros Hc Hr. destruct (ok_chat _ (reachable_world c Hc) a r Hr) as [[] []]. by split_and!.
Qed.

(** Once shutdown has begun no room is ever added, and it never ends. *)
Theorem draining_admits_no_room c c' :
  reachable mgr c -> rtc (orderly mgr) c c' -> draining (the_world c) = true ->
  draining (the_world c') = true /\ rooms (the_world c') ⊆ rooms (the_world c).
Proof.
  intros Hc Hsteps Hd.
  destruct (orderly_evolve world_ok protects evolves local free_lock (fun _ _ _ _ Hl => Hl) _ _ _ out_of_turn outside (request mgr) outside_ok request_ok c c'
              Hsteps (reachable_ok c Hc)) as [_ _ H1 H2]. auto.
Qed.
End handlers.

(** ** A server with someone in it *)

Definition lab_manager : manager := Manager true None (Some 5%N) 10 10 100 100 false.

(** Nothing is slow, refused or saved. *)
Definition smooth (t : N) (q : query) : reply q :=
  match q with
  | Elapsed | Saturated | WorkerSaturated _ => false
  | WorkerOf _ => None
  | RouterOf _ => Ok tt
  | CeilingFor _ _ _ => Ok []
  | ReplayFor _ _ => Ok None
  | ReplaceRecv _ _ _ _ => Ok 0%N
  | IsCurrentRecv _ _ => true
  | LoadRoom _ => Some (Ok None)
  | IsBanned _ _ _ _ => Ok false
  | ResolveRole _ _ _ _ => Ok Guest
  | LoadChatStyle _ => None
  | LoadPunitive _ _ _ _ => Ok no_sanction
  | LoadPreferences _ => None
  | VerifyPassword _ _ => Verified false
  | HashPassword _ => Err Busy
  | Persist _ => None
  | InsertRoom _ _ _ => None
  | RoomGeneration _ => None
  | DeleteRoomRow _ _ _ => None
  | CreateRouter _ => Some (Ok (None, None))
  | Media _ => Ok true
  | Chat _ => None
  end.

(** No closed room is opened. *)
Definition stays_shut (w w' : world) : bool :=
  forallb (fun entry => negb (Room.deleting entry.2) || Room.deleting (room_at w' entry.1)) (map_to_list (heap w)).

Lemma stays_shut_in_turn t h w w' : stays_shut w w' = true -> ~ out_of_turn t h w w'.
Proof.
  unfold stays_shut. rewrite forallb_forall. intros Hall (a & r & Hr & Hd & -> & _).
  specialize (Hall (a, r)). cbn in Hall. rewrite Hd in Hall. cbn in Hall.
  unfold room_at in Hall. cbn in Hall. rewrite lookup_insert_eq in Hall. cbn in Hall.
  discriminate Hall. by apply list_elem_of_In, elem_of_map_to_list.
Qed.

Abbreviation lab_request := (request (H := ascii_unicode) (H0 := sample_codec) lab_manager).

(** Ann joins a room of her own and turns her camera on. *)
Definition lab : config world lock query reply :=
  let join := serve (add_participant (H := ascii_unicode) lab_manager "lab" 7 (text_of "Ann") 70 false 1 None 9 None None) in
  let produce := serve (create_producer "lab" 7 70 1 Video (Some "camera")) in
  run smooth (replicate 60 2%N) (arrive 2 produce (run smooth (replicate 60 1%N) (arrive 1 join (boot 0 0)))).
Definition lab_room : room := room_at (the_world lab) 0.

Lemma reachable_run schedule c :
  passes smooth stays_shut schedule c = true ->
  reachable (H := ascii_unicode) (H0 := sample_codec) lab_manager c -> reachable (H := ascii_unicode) (H0 := sample_codec) lab_manager (run smooth schedule c).
Proof.
  intros Hp (now & wall & Hc). exists now, wall. etransitivity; [exact Hc|]. by eapply run_orderly; [apply stays_shut_in_turn|].
Qed.

Lemma reachable_arrive t p c :
  lab_request p -> pool c !! t = None -> reachable (H := ascii_unicode) (H0 := sample_codec) lab_manager c ->
  reachable (H := ascii_unicode) (H0 := sample_codec) lab_manager (arrive t p c).
Proof.
  intros Hp Ht (now & wall & Hc). exists now, wall. etransitivity; [exact Hc|]. by apply arrive_orderly.
Qed.

Lemma lab_reachable : reachable (H := ascii_unicode) (H0 := sample_codec) lab_manager lab.
Proof.
  apply reachable_run; [by vm_compute|]; apply reachable_arrive; [apply ReqProduce|by vm_compute|].
  apply reachable_run; [by vm_compute|]; apply reachable_arrive; [apply ReqJoin|done|]. by exists 0%N, 0%N.
Qed.

Lemma lab_room_at : heap (the_world lab) !! 0%N = Some lab_room.
Proof. by vm_compute. Qed.

Lemma rooms_stay_consistent_witness :
  heap (the_world lab) !! 0%N = Some lab_room /\ room_struct lab_room.
Proof.
  split; [apply lab_room_at|]. apply (rooms_stay_consistent (H := ascii_unicode) (H0 := sample_codec) lab_manager lab 0);
    [apply lab_reachable|apply lab_room_at].
Defined.

Lemma streams_stay_permitted_witness :
  broadcaster_count lab_room = 1%N /\ broadcaster_limit lab_room = Some 5%N
  /\ (broadcaster_count lab_room <= 5)%N.
Proof.
  split; [by vm_compute|]. split; [by vm_compute|].
  destruct (streams_stay_permitted (H := ascii_unicode) (H0 := sample_codec) lab_manager lab 0 lab_room lab_reachable lab_room_at) as [_ Hlimit].
  apply Hlimit. by vm_compute.
Defined.

Lemma lab_runs : rtc (system (H := ascii_unicode) (H0 := sample_codec) lab_manager) (boot 0 0) lab.
Proof.
  unfold lab. eapply rtc_trans; [|apply run_steps]. eapply rtc_trans; [|apply arrive_steps; [apply ReqProduce|by vm_compute]].
  eapply rtc_trans; [|apply run_steps]. apply arrive_steps; [apply ReqJoin|done].
Qed.

Lemma nobody_is_stranded_witness :
  Room.deleting lab_room = false /\
  (rooms (the_world lab) !! Room.id lab_room = Some 0%N
   \/ (draining (the_world lab) = true /\ rooms (the_world lab) !! Room.id lab_room = None)
   \/ exists who c1 c2, rtc (system (H := ascii_unicode) (H0 := sample_codec) lab_manager) (boot 0 0) c1
        /\ step outside lab_request who c1 c2 /\ strays who c1 c2
        /\ rtc (system (H := ascii_unicode) (H0 := sample_codec) lab_manager) c2 lab).
Proof.
  split; [by vm_compute|].
  apply (nobody_is_stranded (H := ascii_unicode) (H0 := sample_codec) lab_manager 0 0 lab 0 lab_room lab_runs lab_room_at).
  left. by vm_compute.
Defined.

(** Ann's departure holds control while someone asks for the microphone. *)
Definition busy_lab : config world lock query reply :=
  arrive 4 (serve (request_voice "lab" 7 70))
    (run smooth (replicate 2 3%N) (arrive 3 (serve (remove_participant_inner "lab" 7 None)) lab)).

Lemma busy_lab_reachable : reachable (H := ascii_unicode) (H0 := sample_codec) lab_manager busy_lab.
Proof.
  apply reachable_arrive; [apply ReqVoice|by vm_compute|].
  apply reachable_run; [by vm_compute|]; apply reachable_arrive; [apply ReqLeave|by vm_compute|]. apply lab_reachable.
Qed.

Lemma control_is_exclusive_witness :
  held busy_lab !! ControlLock 0 = Some 3%N /\
  exists r', heap (the_world (advance smooth busy_lab 4)) !! 0%N = Some r'
    /\ (control_view r' = control_view lab_room \/ (Room.deleting lab_room = true /\ r' = set_deleting false lab_room)).
Proof.
  split; [by vm_compute|].
  apply (control_is_exclusive (H := ascii_unicode) (H0 := sample_codec) lab_manager (Some 4%N) busy_lab (advance smooth busy_lab 4) 0 3 lab_room).
  - apply busy_lab_reachable.
  - apply advance_step. by vm_compute.
  - by vm_compute.
  - done.
  - by vm_compute.
Defined.

(** Ann has left; the next step of her departure evicts the empty room. *)
Definition leaving_lab : config world lock query reply :=
  run smooth (replicate 10 3%N) (arrive 3 (serve (remove_participant_inner "lab" 7 None)) lab).

Lemma rooms_leave_empty_witness :
  let next := advance smooth leaving_lab 3 in
  rooms (the_world leaving_lab) !! "lab" = Some 0%N /\ rooms (the_world next) !! "lab" = None
  /\ (rooms (the_world next) !! "lab" = Some 0%N
      \/ (rooms (the_world next) !! "lab" = None
          /\ (draining (the_world next) = true
              \/ exists r, heap (the_world next) !! 0%N = Some r /\ deserted r))).
Proof.
  split; [by vm_compute|]. split; [by vm_compute|].
  apply (rooms_leave_empty (H := ascii_unicode) (H0 := sample_codec) lab_manager (Some 3%N) leaving_lab).
  - apply reachable_run; [by vm_compute|]; apply reachable_arrive; [apply ReqLeave|by vm_compute|]. apply lab_reachable.
  - apply advance_step. by vm_compute.
  - by vm_compute.
Defined.

(** Ann says hello. *)
Definition chatty_lab : config world lock query reply :=
  run smooth (replicate 20 6%N) (arrive 6 (serve (handle_chat_command (H := ascii_unicode) (H0 := sample_codec) lab_manager "lab" 7 70
    (ClientMessage.ChatMessage (text_of "hello") [] (Some "m1") (Some 1%N) None))) lab).
Definition chatty_room : room := room_at (the_world chatty_lab) 0.

Lemma room_memory_is_bounded_witness :
  length (RoomSocial.history (Room.social chatty_room)) = 1%nat
  /\ (RoomSocial.history_bytes (Room.social chatty_room) <= 256 * 1024)%N.
Proof.
  split; [by vm_compute|].
  apply (room_memory_is_bounded (H := ascii_unicode) (H0 := sample_codec) lab_manager chatty_lab 0 chatty_room).
  - apply reachable_run; [by vm_compute|]; apply reachable_arrive; [apply ReqChat|by vm_compute|]. apply lab_reachable.
  - by vm_compute.
Defined.

(** The server starts to shut down with the room open. *)
Definition closing_lab : config world lock query reply := run smooth [5%N] (arrive 5 (serve shutdown) lab).

Lemma draining_admits_no_room_witness :
  draining (the_world closing_lab) = true /\
  let closed := run smooth (replicate 9 5%N) closing_lab in
  draining (the_world closed) = true /\ rooms (the_world closed) ⊆ rooms (the_world closing_lab).
Proof.
  split; [by vm_compute|]. apply (draining_admits_no_room (H := ascii_unicode) (H0 := sample_codec) lab_manager closing_lab).
  - apply reachable_run; [by vm_compute|]; apply reachable_arrive; [apply ReqShutdown|by vm_compute|]. apply lab_reachable.
  - eapply run_orderly; [apply stays_shut_in_turn|]. by vm_compute.
  - by vm_compute.
Defined.
