(* ===== verification/Authority.v ===== *)
(** * Who may do what, under every interleaving

    Social requests that need a role are refused to anyone below it, whatever
    runs in between; and what an edit, a reaction or a new name may change. *)

From S2P Require Import Prelude Refusal Net Roles Window RateTable Labels Settings Protocol Moderation Wire Social Room Media Publication RoomInv RoomSteps Process Triples World Chat ChatDelivery ChatEvents ModerationOps Membership ChatRequests SocialRequests RoomRequests WorldInv Sections CalmHandlers ControlHandlers ArrivalHandlers LifecycleHandlers ChatHandlers Safety.

Open Scope process_scope.

(** ** Roles *)

(** The role a social request asks for. *)
Definition required_role (command : client_message) : option role :=
  match command with
  | ClientMessage.SetRoomHistory _ _ => Some Owner
  | ClientMessage.ListRoomBans _ _ | ClientMessage.RemoveRoomBan _ _ => Some Admin
  | ClientMessage.SetPinnedMessage _ _ _ | ClientMessage.RemoveChatMessage _ _
  | ClientMessage.ListRoomMembers _ _ | ClientMessage.SetMemberRole _ _ _
  | ClientMessage.ListRoomReports _ _ | ClientMessage.ResolveRoomReport _ _ _
  | ClientMessage.ListModerationEvents _ _ => Some Moderator
  | _ => None
  end.

Section authority.
Context (mgr : manager) `{Unicode, Codec} (room_id : string) (a : N) (id : participant_id) (expected : sender).
Context (required : role).

(** The member behind [id] has less than the required role. *)
Definition lacks (w : world) : Prop :=
  exists r p, heap w !! a = Some r /\ Room.participants r !! id = Some p /\ role_ge (Participant.role p) required = false.

Lemma lacks_later L w w' : ControlLock a ∈ L -> frame L w w' -> lacks w -> lacks w'.
Proof.
  intros HL Hf (r & p & Hr & Hp & Hrole). destruct (fr_protects _ _ _ Hf _ HL) as [_ [Hv _]].
  destruct (Hv r Hr) as (r' & Hr' & Hview). unfold control_view in Hview. injection Hview as Em _ _ _ _ _ _ _ _.
  assert (standing <$> Room.participants r' !! id = standing <$> Room.participants r !! id) as Hs by by rewrite <-!lookup_fmap, Em.
  rewrite Hp in Hs. destruct (Room.participants r' !! id) as [p'|] eqn:Hp'; [|done].
  injection Hs as _ Hrole' _. exists r', p'. by rewrite Hrole'.
Qed.

(** Holding control, the request ends in an error. *)
Definition refused {A} (p : handled A) : Prop :=
  forall w, lacks w -> known a w -> triple {[ControlLock a]} w p (fun res _ _ => is_ok res = false).

(** A first section that never succeeds for such a member. *)
Lemma refused_locked {A B} (m : world -> handler failure (room * wire) A) (f : A -> handled B) :
  (forall I w s p, Room.participants s.1 !! id = Some p -> role_ge (Participant.role p) required = false ->
     tracks true I (m w) s (fun _ _ => False)) ->
  refused (let? x := locked a m in f x).
Proof.
  intros Hm w Hl Hk. assert (ControlLock a ∈ ({[ControlLock a]} : gset lock)) as HL by set_solver.
  eapply triple_try; [apply triple_locked with (Q := fun _ _ => False); [done|done|]| |done].
  - intros w0 r Hf _ Hr. destruct (lacks_later _ _ _ HL Hf Hl) as (r' & p & Hr' & Hp & Hrole).
    rewrite Hr in Hr'. injection Hr' as <-. by eapply Hm.
  - intros x w' ? _ [_ (? & _ & _ & [])].
Qed.

Lemma denied {A} c I actor needed (k : handler failure (room * wire) A) s Q :
  role_ge (Participant.role actor) needed = false ->
  tracks c I (require_role (Participant.role actor) needed _ ;; k)%handler s Q.
Proof. intros Hrole. unfold require_role. track. congruence. Qed.

Context (q : social_request) (Hroom : req_address q = a) (Hid : req_participant q = id).

Lemma refused_admitted {A B} (m : participant -> world -> handler failure (room * wire) A) (f : A -> handled B) :
  (forall I actor w s, role_ge (Participant.role actor) required = false -> tracks true I (m actor w) s (fun _ _ => False)) ->
  refused (let? x := admitted q m in f x).
Proof.
  intros Hm. unfold admitted, reacquire. rewrite Hroom, Hid. apply refused_locked. intros I w s p Hp Hrole. track.
  match goal with Ha : participant_for_sender _ _ _ = Ok _ |- _ => apply sender_ok in Ha as (_ & Ha & _);
    rewrite Hp in Ha; injection Ha as <- end.
  apply reserve_social_tracks. intros. by apply Hm.
Qed.

Lemma refused_uuid {A} (f : N -> handled A) : (forall x, refused (f x)) -> refused (let* x := new_uuid in f x).
Proof.
  intros Hf w Hl Hk. eapply triple_bind; [apply (calm_triple _ w _ (fun _ _ => True)), calmly_uuid|].
  intros x w' ? He (-> & Hfr & _). apply Hf; [|by eapply known_evolves]. eapply lacks_later; [|done..]. set_solver.
Qed.

Lemma refused_dispatch : required_role (req_command q) = Some required -> refused (dispatch mgr q).
Proof.
  unfold dispatch. destruct (req_command q); try done; intros [= Hreq];
    unfold set_room_history, pinned_messages, remove_chat_message, list_room_bans, list_room_members, list_room_reports,
      list_moderation_events, list_request, remove_room_ban, set_member_role, resolve_room_report;
    try (apply refused_uuid; intros ?);
    apply refused_admitted; intros; apply denied; by rewrite Hreq.
Qed.
End authority.

(** The online path of a role change. *)
Lemma refused_role mgr room_id a id expected target new_role w :
  lacks a id Moderator w -> known a w -> mapped room_id a w ->
  triple {[ControlLock a]} w (set_participant_role_controlled mgr room_id id expected target new_role a)
    (fun res _ _ => is_ok res = false).
Proof.
  intros Hl Hk Hm. eapply triple_try; [apply (triple_get_mapped _ w room_id a); [done|set_solver]| |done].
  intros ? w1 ? H1 (-> & Hf1 & ->). apply (refused_locked a id Moderator).
  - intros I w0 s p Hp Hrole. unfold authorize_role. track.
    match goal with Ha : participant_for_sender _ _ _ = Ok _ |- _ => apply sender_ok in Ha as (_ & Ha & _);
      rewrite Hp in Ha; injection Ha as <- end.
    match goal with Hc : can_set_role _ _ _ = true |- _ => unfold can_set_role in Hc; by rewrite Hrole in Hc end.
  - eapply lacks_later; [|done..]. set_solver.
  - by eapply known_evolves.
Qed.

(** C13: a social request that needs a role is refused to a member who has
    less.  The refusal holds in every interleaving: the member's role is read
    in the section that decides, and while the request holds the room's
    control nobody can change it. *)
Theorem insufficient_role_is_refused (mgr : manager) `{Unicode, Codec} room_id a id expected command required w r p :
  required_role command = Some required ->
  mapped room_id a w -> heap w !! a = Some r -> Room.participants r !! id = Some p ->
  role_ge (Participant.role p) required = false ->
  triple {[ControlLock a]} w (handle_social_request_inner mgr room_id id expected command (Some a))
    (fun res _ _ => is_ok res = false).
Proof.
  intros Hreq Hm Hr Hp Hrole. assert (lacks a id required w) as Hl by by exists r, p.
  assert (known a w) as Hk by by exists r. assert (ControlLock a ∈ ({[ControlLock a]} : gset lock)) as HL by set_solver.
  assert (forall w, lacks a id required w -> known a w -> mapped room_id a w -> forall request_id,
    triple {[ControlLock a]} w (dispatched mgr room_id id expected command request_id (Some a))
      (fun res _ _ => is_ok res = false)) as Hd.
  { intros w1 Hl1 Hk1 Hm1 request_id. eapply triple_try; [by apply (triple_get_mapped _ w1 room_id a)| |done].
    intros ? w2 ? H2 (-> & Hf2 & ->). eapply triple_try; [apply refused_dispatch with (a := a) (id := id) (required := required); try done|..].
    - by eapply lacks_later.
    - by eapply known_evolves.
    - by intros x w3 L3 _ [=].
    - done. }
  unfold handle_social_request_inner. destruct (request_id_of command) as [request_id|]; [|by apply triple_return].
  destruct command; try by apply Hd. injection Hreq as <-.
  eapply triple_try; [by apply triple_online|intros online w1 ? H1 [-> Hf1]|done].
  pose proof (mapped_later _ _ _ _ _ HL Hf1 Hm) as Hm1. pose proof (lacks_later _ _ _ _ _ _ HL Hf1 Hl) as Hl1.
  pose proof (known_evolves _ _ _ H1 Hk) as Hk1. destruct online; [|by apply Hd].
  eapply triple_try; [by apply refused_role|by intros x w2 L2 _ [=]|done].
Qed.

Lemma insufficient_role_is_refused_witness :
  let r := sample_room [sample_participant 1 (text_of "Ann") 10] in
  let w := (started 0 0) <| heap := {[0%N := r]} |> <| rooms := {["lounge" := 0%N]} |> in
  Room.participants r !! 1%N = Some (sample_participant 1 (text_of "Ann") 10) /\
  triple {[ControlLock 0]} w
    (handle_social_request_inner (H := ascii_unicode) (H0 := sample_codec) lab_manager "lounge" 1 10
       (ClientMessage.RemoveChatMessage "r1" 5) (Some 0%N))
    (fun res _ _ => is_ok res = false).
Proof.
  intros r w. split; [by vm_compute|].
  apply (insufficient_role_is_refused (H := ascii_unicode) (H0 := sample_codec) lab_manager "lounge" 0 1 10 _ Moderator w r
           (sample_participant 1 (text_of "Ann") 10)); [done|by left|done|by vm_compute|done].
Defined.

(** ** Edits *)

Lemma trim_loop_suffix history bytes : exists dropped, history = dropped ++ (trim_loop history bytes).1.
Proof.
  revert bytes. induction history as [|e history IH]; intros bytes; cbn [trim_loop]; [by exists []|].
  destruct (_ || _); [|by exists []]. destruct (IH (saturating_sub bytes (HistoryEntry.bytes e))) as [dropped Hd].
  exists (e :: dropped). cbn. by f_equal.
Qed.

Lemma trimmed_history s e : e ∈ RoomSocial.history (trim_history s) -> e ∈ RoomSocial.history s.
Proof.
  unfold trim_history. destruct (trim_loop_suffix (RoomSocial.history s) (RoomSocial.history_bytes s)) as [dropped Hd].
  destruct (trim_loop _ _) as [history bytes]. cbn in *. intros He. rewrite Hd. apply elem_of_app. by right.
Qed.

Lemma trim_receipts_history s : RoomSocial.history (trim_receipts s) = RoomSocial.history s.
Proof. unfold trim_receipts. by destruct (trim_receipts_loop _ _). Qed.

(** What an edit leaves in the history was there before, up to the message. *)
Lemma edited_history eb s m e' :
  e' ∈ RoomSocial.history (edit_message eb s m) ->
  exists e, e ∈ RoomSocial.history s /\ HistoryEntry.sequence e' = HistoryEntry.sequence e
    /\ HistoryEntry.sender_session e' = HistoryEntry.sender_session e
    /\ (HistoryEntry.message e' = HistoryEntry.message e
        \/ HistoryEntry.message e' = update_edited m (quote_excerpt (ChatEntry.content m)) (HistoryEntry.message e)).
Proof.
  unfold edit_message. destruct (edit_is_stale s m); [intros He; exists e'; auto|].
  rewrite trim_receipts_history. intros He%trimmed_history. cbn in He.
  apply list_elem_of_fmap in He as (e & -> & He). exists e. auto.
Qed.

(** Only the message with the edited identifier gets another text, that of the edit. *)
Lemma update_content m excerpt x :
  ChatEntry.content (update_edited m excerpt x) <> ChatEntry.content x ->
  ChatEntry.message_id x = ChatEntry.message_id m /\ ChatEntry.content (update_edited m excerpt x) = ChatEntry.content m.
Proof.
  unfold update_edited. destruct (bool_decide _); [done|]. destruct (N.eqb_spec (ChatEntry.message_id x) (ChatEntry.message_id m)) as [Hid|_];
    [destruct (_ <=? _)%N|]; cbn; (destruct (ChatEntry.reply_to x); [destruct (_ =? _)%N|]); done.
Qed.

(** What an accepted edit leaves of the message. *)
Lemma applied_edit `{Unicode} now m request m' : apply_edit now m request = Ok m' ->
  ChatEntry.message_id m' = ChatEntry.message_id m /\ ChatEntry.content m' = edit_content request.
Proof. unfold apply_edit. repeat case_match; intros; simplify_eq; by bool_hyps. Qed.

(** What a prepared edit says of its message. *)
Lemma prepared_edit `{Unicode} r actor message request wall m :
  prepare_edit r actor message request wall = Ok (Some m) ->
  may_chat r actor = true /\ ChatEntry.message_id m = message /\
  exists i h, find_entry message (Room.social r) = Some (i, h)
    /\ ChatEntry.participant_id (HistoryEntry.message h) = Participant.id actor
    /\ (Participant.authenticated actor = false -> HistoryEntry.sender_session h = Participant.media_session_id actor).
Proof.
  unfold prepare_edit. destruct (may_chat r actor); cbn [negb]; [|done].
  destruct (find_entry message (Room.social r)) as [[i h]|] eqn:Hfind; [|done].
  pose proof Hfind as (_ & Hid & _)%list_find_Some. unfold entry_is in Hid.
  destruct (_ || _) eqn:Hauth; [done|]. apply orb_false_iff in Hauth as [Hauth _]. apply orb_false_iff in Hauth as [Hauthor Hguest].
  intros Hm. assert (exists m', apply_edit wall (HistoryEntry.message h) request = Ok m' /\ m' = m) as (m' & Hm' & ->).
  { destruct (apply_edit wall (HistoryEntry.message h) request) as [m'|e]; [|by repeat case_match].
    exists m'. repeat case_match; by simplify_eq. }
  split_and!; [done|by rewrite (proj1 (applied_edit _ _ _ _ Hm'))|]. exists i, h. split_and!; [done| |].
  - apply negb_false_iff, N.eqb_eq in Hauthor. done.
  - intros Ha. rewrite Ha in Hguest. by apply negb_false_iff, N.eqb_eq in Hguest.
Qed.

(** An edit section leaves the chat state alone or publishes the edit it has
    prepared. *)
Lemma edit_section_social (mgr : manager) `{Unicode, Codec} q message edit actor w s s' res :
  edit_section mgr q message edit actor w s = (s', Ok res) ->
  Room.social s'.1 = Room.social s.1
  \/ exists m m', prepare_edit s.1 actor message edit (wall w) = Ok (Some m)
      /\ ChatEntry.message_id m' = ChatEntry.message_id m /\ ChatEntry.content m' = edit_content edit
      /\ Room.social s'.1 = edit_message entry_bytes (Room.social s.1) m'.
Proof.
  intros Hok. unfold edit_section, decide_edit, need_database, publish_edit in Hok. succeeded.
  branch Hok; succeeded; [by left|]. match goal with Hp : prepare_edit _ _ _ _ _ = Ok ?x |- _ => destruct x as [m|] end;
    [|succeeded]. succeeded.
  match goal with Hb : (if _ then _ else _) _ = (_, Ok _) |- _ => rename Hb into Hd; branch Hd end; succeeded; [by left|].
  right. match goal with He : context [apply_edit _ m edit] |- _ => destruct (apply_edit (wall w) m edit) as [m'|] eqn:Hm; [|done];
    injection He as -> end. apply applied_edit in Hm as [Hid Hc]. exists m. eexists. split; [done|]. split; [done|]. by split.
Qed.

(** C14: an edit decided in the room's own history changes the text only of
    the retained message it names, to the text it brings, and only when the
    message retained under that identifier was written by the editor, who is
    allowed to speak, and by a guest only within the same membership.  The text
    of every other retained message is as before. *)
Theorem only_the_author_edits (mgr : manager) `{Unicode, Codec} q message edit actor w s s' res :
  edit_section mgr q message edit actor w s = (s', Ok res) ->
  forall e', e' ∈ RoomSocial.history (Room.social s'.1) ->
  exists e, e ∈ RoomSocial.history (Room.social s.1) /\ HistoryEntry.sequence e' = HistoryEntry.sequence e
    /\ (ChatEntry.content (HistoryEntry.message e') <> ChatEntry.content (HistoryEntry.message e) ->
        ChatEntry.message_id (HistoryEntry.message e) = message
        /\ ChatEntry.content (HistoryEntry.message e') = edit_content edit
        /\ may_chat s.1 actor = true
        /\ exists i h, find_entry message (Room.social s.1) = Some (i, h)
             /\ ChatEntry.participant_id (HistoryEntry.message h) = Participant.id actor
             /\ (Participant.authenticated actor = false ->
                 HistoryEntry.sender_session h = Participant.media_session_id actor)).
Proof.
  intros Hok e' He'. destruct (edit_section_social _ _ _ _ _ _ _ _ _ Hok) as [Hs|(m & m' & Hprep & Hid & Hc & Hs)];
    rewrite Hs in He'; [by exists e'|].
  destruct (prepared_edit _ _ _ _ _ _ Hprep) as (Hmay & Hmid & Hfound).
  destruct (edited_history _ _ _ _ He') as (e & He & Hseq & _ & Hmsg). exists e. split_and!; [done..|]. intros Hne.
  destruct Hmsg as [Hmsg|Hmsg]; [by rewrite Hmsg in Hne|]. rewrite Hmsg in Hne |- *.
  destruct (update_content _ _ _ Hne) as [Heid ->]. split_and!; [congruence|done..].
Qed.

Definition edited_room : room :=
  let said := sample_message 5 (text_of "helo") None in
  (sample_room [sample_participant 1 (text_of "Ann") 10])
    <| Room.social ::= fun s => s <| RoomSocial.history := [HistoryEntry.mk 0 101 None true said 4] |> <| RoomSocial.history_bytes := 4%N |> |>.

Lemma only_the_author_edits_witness :
  let s' := (edit_section (H := ascii_unicode) (H0 := sample_codec) lab_manager
    (SocialRequest "lounge" 0 1 10 (ClientMessage.EditChatMessage "r1" 5 (text_of "hello") 0)) 5
    (EditRequest (text_of "hello") 0) (sample_participant 1 (text_of "Ann") 10) (started 0 9) (edited_room, empty_wire)).1 in
  ChatEntry.content <$> (HistoryEntry.message <$> RoomSocial.history (Room.social s'.1)) = [text_of "hello"] /\
  forall e', e' ∈ RoomSocial.history (Room.social s'.1) ->
  exists e, e ∈ RoomSocial.history (Room.social edited_room) /\ HistoryEntry.sequence e' = HistoryEntry.sequence e
    /\ ChatEntry.content (HistoryEntry.message e') = text_of "hello"
    /\ exists i h, find_entry 5 (Room.social edited_room) = Some (i, h) /\ ChatEntry.participant_id (HistoryEntry.message h) = 1%N.
Proof.
  intros s'. split; [by vm_compute|]. intros e' He'.
  edestruct (only_the_author_edits (H := ascii_unicode) (H0 := sample_codec) lab_manager
    (SocialRequest "lounge" 0 1 10 (ClientMessage.EditChatMessage "r1" 5 (text_of "hello") 0)) 5
    (EditRequest (text_of "hello") 0) (sample_participant 1 (text_of "Ann") 10) (started 0 9) (edited_room, empty_wire) s')
    as (e & He & Hseq & Hedit); [vm_compute; reflexivity|exact He'|].
  exists e. split; [exact He|]. split; [exact Hseq|]. apply list_elem_of_singleton in He as ->.
  destruct Hedit as (_ & Hc & _ & i & h & Hfind & Hwho & _); [|split; [exact Hc|]; by exists i, h].
  vm_compute in He'. apply list_elem_of_singleton in He' as ->. by vm_compute.
Defined.

(** ** Private messages *)

(** The two memberships a retained private message is between. *)
Definition party (h : history_entry) (p : participant) : Prop :=
  HistoryEntry.sender_session h = Participant.media_session_id p
  \/ HistoryEntry.recipient_session h = Some (Participant.media_session_id p).

Lemma private_visible h p :
  is_Some (ChatEntry.recipient_id (HistoryEntry.message h)) -> visible h p = true -> party h p.
Proof.
  intros [to Hto]. unfold visible. destruct (_ <? _)%N; [done|]. rewrite Hto, orb_true_iff, bool_decide_eq_true, N.eqb_eq. done.
Qed.

(** A queue that a private update reaches belongs to one of the two. *)
Lemma private_viewers h r c :
  is_Some (ChatEntry.recipient_id (HistoryEntry.message h)) -> c ∈ senders_where (visible h) r ->
  exists p, p ∈ members r /\ Participant.sender p = c /\ party h p.
Proof.
  intros Hto Hc. apply list_elem_of_fmap in Hc as (p & -> & [Hv Hp]%list_elem_of_filter).
  exists p. split_and!; [done..|]. by apply private_visible.
Qed.

(** C12: a private message that a room retains is shown to nobody but its
    two parties: no snapshot has it for anyone else, and neither an edit nor a
    reaction to it reaches the queue of any other connection. *)
Theorem private_messages_stay_private `{Codec} s message i h :
  find_entry message (Room.social s.1) = Some (i, h) ->
  is_Some (ChatEntry.recipient_id (HistoryEntry.message h)) ->
  (forall actor m, m ∈ snapshot_messages (room_snapshot s.1 actor) -> is_Some (ChatEntry.recipient_id m) ->
     exists e, e ∈ RoomSocial.history (Room.social s.1) /\ HistoryEntry.message e = m /\ party e actor)
  /\ (forall m c, ChatEntry.message_id m = message -> is_Some (ChatEntry.recipient_id m) ->
        queued_for (publish_edit m s).1.2 c <> queued_for s.2 c ->
        exists p, p ∈ members s.1 /\ Participant.sender p = c /\ party h p)
  /\ (forall reactions c, queued_for (publish_reaction message reactions s).1.2 c <> queued_for s.2 c ->
        exists p, p ∈ members s.1 /\ Participant.sender p = c /\ party h p).
Proof.
  intros Hfind Hto. split_and!.
  - intros actor m Hm Hprivate. apply list_elem_of_fmap in Hm as (e & -> & [Hv He]%list_elem_of_filter).
    exists e. split_and!; [done..|]. by apply private_visible.
  - intros m c Hid [peer Hpeer] Hne. apply (private_viewers h s.1 c Hto). apply dec_stable. intros Hc. apply Hne.
    cbn. unfold edit_viewers. rewrite Hpeer, Hid, Hfind. by apply send_each_other.
  - intros reactions c Hne. apply (private_viewers h s.1 c Hto). apply dec_stable. intros Hc. apply Hne.
    unfold publish_reaction, hbind, get. cbn. rewrite Hfind. destruct (bool_decide _); [done|]. cbn. by apply send_each_other.
Qed.

(** Ann (1) has written to Bob (2) while Eve (3) is in the room. *)
Definition whisper : chat_entry := (sample_message 5 (text_of "psst") None) <| ChatEntry.recipient_id := Some 2%N |>.
Definition whisper_room : room :=
  (sample_room [sample_participant 1 (text_of "Ann") 10; sample_participant 2 (text_of "Bob") 20; sample_participant 3 (text_of "Eve") 30])
    <| Room.social ::= fun s => s <| RoomSocial.history := [HistoryEntry.mk 0 101 (Some 102%N) true whisper 4] |>
                                  <| RoomSocial.history_bytes := 4%N |> |>.
Definition three_queues : wire :=
  let open := Channel [] 8 false in
  Wire (<[10%N := open]> (<[20%N := open]> {[30%N := open]})) [] 0 0 0.

Lemma private_messages_stay_private_witness :
  let q := (publish_reaction (H0 := sample_codec) 5 [] (whisper_room, three_queues)).1.2 in
  queued_for q 20%N = [ServerMessage.MessageReactions 5 []] /\ queued_for q 30%N = queued_for three_queues 30%N.
Proof.
  intros q. split; [by vm_compute|].
  destruct (private_messages_stay_private (H := sample_codec) (whisper_room, three_queues) 5 0
    (HistoryEntry.mk 0 101 (Some 102%N) true whisper 4)) as (_ & _ & Hreactions); [by vm_compute|by eexists|].
  apply dec_stable. intros Hne. destruct (Hreactions [] 30%N Hne) as (p & Hp & Hsender & Hparty).
  assert (Participant.media_session_id p = 103%N) as Hs.
  { revert Hp Hsender. vm_compute (members _). rewrite !elem_of_cons. by intros [->|[->|[->|?%not_elem_of_nil]]]. }
  destruct Hparty as [Hparty|Hparty]; rewrite Hs in Hparty; discriminate Hparty.
Defined.

(** ** Names *)

(** The name someone goes by, in the room or waiting for it. *)
Definition label (r : room) (id : participant_id) : option text :=
  match Room.participants r !! id with
  | Some p => Some (Participant.name p)
  | None => LobbyEntry.name <$> Room.lobby r !! id
  end.

Definition names_distinct `{Unicode} (r : room) : Prop := forall i j n m,
  label r i = Some n -> label r j = Some m -> comparison_key n = comparison_key m -> i = j.

Lemma label_occupied `{Unicode} r id n : label r id = Some n -> comparison_key n ∈ occupied r.
Proof.
  unfold label, occupied. rewrite elem_of_list_to_set, list_elem_of_fmap. intros Hn. exists n. split; [done|].
  rewrite elem_of_app, !list_elem_of_fmap. destruct (Room.participants r !! id) as [p|] eqn:Hp.
  - injection Hn as <-. left. exists p. split; [done|]. apply list_elem_of_fmap. exists (id, p). split; [done|].
    by apply elem_of_map_to_list.
  - destruct (Room.lobby r !! id) as [e|] eqn:He; [|done]. injection Hn as <-. right. exists e. split; [done|].
    apply list_elem_of_fmap. exists (id, e). split; [done|]. by apply elem_of_map_to_list.
Qed.

(** One more person under a free name. *)
Lemma distinct_arrival `{Unicode} r r' id name :
  names_distinct r -> comparison_key name ∉ occupied r ->
  (forall i, label r' i = if decide (i = id) then Some name else label r i) -> names_distinct r'.
Proof.
  intros Hd Hfree Hl i j n m. rewrite !Hl. destruct (decide (i = id)) as [->|], (decide (j = id)) as [->|]; [done|..|by apply Hd].
  - intros [= <-] Hm Hk. exfalso. apply Hfree. rewrite Hk. by eapply label_occupied.
  - intros Hn [= <-] Hk. exfalso. apply Hfree. rewrite <-Hk. by eapply label_occupied.
Qed.

(** Labels after someone is put in the room or in its lobby. *)
Lemma entered_label (j : joiner) name r punitive prefs (wait : bool) s s' res :
  Room.participants s.1 !! join_id j = None ->
  (if wait then enter_lobby j name r punitive else enter_room j name r punitive prefs) s = (s', Ok res) ->
  forall i, label s'.1 i = if decide (i = join_id j) then Some name else label s.1 i.
Proof.
  intros Hp Hok i. destruct wait; unfold enter_lobby, enter_room in Hok; succeeded;
    unfold label, complete_locked; cbn; destruct (decide (i = join_id j)) as [->|Hne].
  - by rewrite Hp, lookup_insert_eq.
  - by rewrite lookup_insert_ne.
  - by rewrite lookup_insert_eq.
  - by rewrite lookup_insert_ne.
Qed.

(** What the membership commit does to the labels. *)
Lemma join_labels (mgr : manager) `{Unicode} j policy resolved punitive prefs w s s' res :
  suffix_keys_distinct -> commit_join mgr j policy resolved punitive prefs w s = (s', Ok res) ->
  exists name, (comparison_key name ∉ occupied s.1)
    /\ forall i, label s'.1 i = if decide (i = join_id j) then Some name else label s.1 i.
Proof.
  intros Hd Hok. unfold commit_join in Hok. succeeded.
  destruct (unique_name_found (prune_expired_bans (clock w) s.1) (join_name j) Hd) as (name & Hname & Hfree & _).
  rewrite Hname in Hok. exists name. split; [done|]. destruct (merged_punitive _ _ _) as [key sanction]. succeeded.
  match goal with Hb : negb (bool_decide (is_Some (Room.participants _ !! _))) && _ = true |- _ =>
    apply andb_true_iff in Hb as [Hb _]; apply negb_true_iff, bool_decide_eq_false, eq_None_not_Some in Hb; rename Hb into Hnew end.
  intros i. match goal with Hs : (if bool_decide (sanction = no_sanction) then _ else _) _ = _ |- _ => rename Hs into Hset end.
  assert (forall k, label s0.1 k = label s.1 k /\ (Room.participants s.1 !! k = None -> Room.participants s0.1 !! k = None)) as Hsame.
  { intros k. clear Hok. branch Hset; succeeded; done. }
  rewrite (entered_label j name x10 sanction prefs _ s0 s' res (proj2 (Hsame _) Hnew) Hok).
  destruct (decide _); [done|apply Hsame].
Qed.

(** Everyone is kept under their own id, as [room_struct] has it. *)
Definition own_ids (r : room) : Prop := forall id p, Room.participants r !! id = Some p -> Participant.id p = id.

Lemma rename_distinct `{Unicode} r id p name :
  Room.participants r !! id = Some p -> own_ids r -> names_distinct r -> name_in_use r name (Some id) = false ->
  names_distinct (alter_member id (fun p => p <| Participant.name := name |>) r).
Proof.
  intros Hp Hs Hd Hfree. assert (forall k n, k <> id -> label r k = Some n -> comparison_key n <> comparison_key name) as Hother.
  { intros k n Hne Hk Heq. apply not_true_iff_false in Hfree. apply Hfree. unfold name_in_use. apply existsb_exists.
    exists n. split; [|by apply bool_decide_eq_true]. apply list_elem_of_In. rewrite elem_of_app, !list_elem_of_fmap.
    unfold label in Hk. destruct (Room.participants r !! k) as [p'|] eqn:Hp'.
    - injection Hk as <-. left. exists p'. split; [done|]. apply list_elem_of_filter. split; [rewrite (Hs k p' Hp'); congruence|].
      apply list_elem_of_fmap. exists (k, p'). split; [done|]. by apply elem_of_map_to_list.
    - destruct (Room.lobby r !! k) as [e|] eqn:He; [|done]. injection Hk as <-. right. exists e. split; [done|].
      apply list_elem_of_fmap. exists (k, e). split; [done|]. by apply elem_of_map_to_list. }
  assert (forall k, label (alter_member id (fun p => p <| Participant.name := name |>) r) k
                    = if decide (k = id) then Some name else label r k) as Hl.
  { intros k. unfold label, alter_member. cbn. destruct (decide (k = id)) as [->|Hne]; [by rewrite lookup_alter_eq, Hp|].
    by rewrite lookup_alter_ne. }
  intros i j n m. rewrite !Hl. destruct (decide (i = id)) as [->|Hi], (decide (j = id)) as [->|Hj]; [done|..|by apply Hd].
  - intros [= <-] Hm Hk. by destruct (Hother j m Hj Hm).
  - intros Hn [= <-] Hk. by destruct (Hother i n Hi Hn).
Qed.

(** No two people in a room, or waiting for it, go by names that look
    the same: neither a join nor a change of nickname that succeeds breaks
    that. *)
Theorem names_stay_distinct (mgr : manager) `{Unicode} s s' :
  suffix_keys_distinct -> own_ids s.1 -> names_distinct s.1 ->
  (forall j policy resolved punitive prefs w res,
     commit_join mgr j policy resolved punitive prefs w s = (s', Ok res) -> names_distinct s'.1)
  /\ (forall id p nickname res, Room.participants s.1 !! id = Some p ->
        nickname_section id nickname s = (s', Ok res) -> names_distinct s'.1).
Proof.
  intros Hkeys Hs Hd. split.
  - intros j policy resolved punitive prefs w res Hok.
    destruct (join_labels _ _ _ _ _ _ _ _ _ _ Hkeys Hok) as (name & Hfree & Hl). by eapply distinct_arrival.
  - intros id p nickname res Hp Hok. unfold nickname_section in Hok. succeeded.
    match goal with Hn : negb (name_in_use _ _ _) = true |- _ => apply negb_true_iff in Hn; rename Hn into Hfree end.
    exact (rename_distinct _ _ _ _ Hp Hs Hd Hfree).
Qed.

Definition two_people : room := sample_room [sample_participant 1 (text_of "Ann") 10; sample_participant 2 (text_of "Bob") 20].

Lemma two_people_own_ids : own_ids two_people.
Proof.
  change (map_Forall (fun id p => Participant.id p = id) (Room.participants two_people)).
  eapply (bool_decide_unpack _). by vm_compute.
Qed.

Lemma two_people_distinct : names_distinct (H := ascii_unicode) two_people.
Proof.
  assert (map_Forall (fun id p => (id, Participant.name p) ∈ [(1%N, text_of "Ann"); (2%N, text_of "Bob")])
            (Room.participants two_people)) as Hall by (eapply (bool_decide_unpack _); by vm_compute).
  assert (forall i n, label two_people i = Some n -> (i, n) ∈ [(1%N, text_of "Ann"); (2%N, text_of "Bob")]) as Hl.
  { intros i n. unfold label. destruct (Room.participants two_people !! i) as [p|] eqn:Hp; [|done].
    intros [= <-]. exact (Hall i p Hp). }
  intros i j n m Hi Hj. apply Hl in Hi, Hj. rewrite !elem_of_cons, elem_of_nil in Hi, Hj.
  destruct Hi as [[= -> ->]|[[= -> ->]|[]]], Hj as [[= -> ->]|[[= -> ->]|[]]]; vm_compute; congruence.
Qed.

Lemma names_stay_distinct_witness :
  let s' := (nickname_section (H := ascii_unicode) 2 (text_of "Rob") (two_people, empty_wire)).1 in
  label s'.1 2 = Some (text_of "Rob") /\ names_distinct (H := ascii_unicode) s'.1.
Proof.
  cbv zeta. split; [by vm_compute|].
  refine (proj2 (names_stay_distinct (H := ascii_unicode) lab_manager (two_people, empty_wire) _
                  ascii_suffix_keys_distinct two_people_own_ids two_people_distinct)
            2%N (sample_participant 2 (text_of "Bob") 20) (text_of "Rob") (SocialResponse.ChangeNickname (text_of "Rob")) _ _);
    [vm_compute; reflexivity|].
  rewrite (surjective_pairing (nickname_section _ _ _)) at 1. f_equal.
Defined.
