(* ===== verification/Decisions.v ===== *)
(** * What single decisions do

    The functional behaviour of the sections that decide: who a ban may reach
    and that it keeps them out, what a join ends in, which streams a policy
    change closes, and what quarantine leaves behind. *)

From S2P Require Import Prelude Refusal Net Roles Window RateTable Labels Settings Protocol Moderation Wire Social Room Media Publication RoomInv RoomSteps Process Triples Schedule World Chat ChatDelivery ModerationOps Lobby Membership WorldInv Sections CalmHandlers ControlHandlers Safety.

(** ** Bans *)

(** C6: a ban that is authorized comes from the connection that
    owns the moderator's session in a live room, reaches the whole identity of
    its target (every guest on the address, whether in the room or waiting)
    and nobody else, and reaches only members the moderator may moderate. *)
Theorem authorized_ban_reaches_its_cohort moderator_id expected target_id reason duration report event w r q
    s' moderator target pids lids ev persisted :
  room_struct r ->
  authorize_ban moderator_id expected target_id reason duration report event w (r, q)
    = (s', Ok (moderator, target, pids, lids, ev, persisted)) ->
  Room.deleting r = false
  /\ Room.participants r !! moderator_id = Some moderator /\ Participant.sender moderator = expected
  /\ Room.participants r !! target_id = Some target
  /\ covers r (for_identity target_id (Participant.authenticated target) (Participant.ip target)) pids lids
  /\ (forall id, id ∈ pids -> exists p, Room.participants r !! id = Some p
        /\ can_moderate (Participant.role moderator) (Participant.role p) = true).
Proof.
  intros Hs H. unfold authorize_ban in H. succeeded. apply sender_ok in E0 as (Hl & Hm & Hsender).
  apply target_of_ok in E1. split_and!; try done.
  - by eapply cohort_covers.
  - apply moderation_cohort_spec in E2 as (_ & _ & _ & Hmod). exact Hmod.
Qed.

Lemma foldl_keeps {A S B} (g : S -> B) (f : S -> A -> S) l s : (forall s x, g (f s x) = g s) -> g (foldl f s l) = g s.
Proof. intros Hf. revert s. induction l as [|x l IH]; intros s; cbn [foldl]; [done|]. by rewrite IH. Qed.

(** The bans a removal leaves are those it remembered. *)
Definition ban_keys (r : room) := (Room.banned_participants r, Room.banned_guest_ips r).

Lemma removal_bans fresh now wall p r q :
  RemovalPublication.ban p = true ->
  ban_keys (publish_removal fresh now wall p r q).1.1 = ban_keys (remember_ban fresh now wall p r).
Proof.
  intros Hb. unfold publish_removal. rewrite Hb. cbv zeta. set (r0 := remember_ban fresh now wall p r).
  match goal with |- context [foldl (remove_member ?n) (r0, q, []) ?ids] =>
    assert (ban_keys (foldl (remove_member n) (r0, q, []) ids).1.1 = ban_keys r0) as H1;
    [|destruct (foldl (remove_member n) (r0, q, []) ids) as [[r1 q1] ss]] end.
  { rewrite (foldl_keeps (fun s => ban_keys s.1.1)); [done|]. intros [[r1 w1] ss] id. cbn. by destruct (Room.participants r1 !! id). }
  match goal with |- context [foldl (remove_waiting ?n) (r1, q1) ?ids] =>
    assert (ban_keys (foldl (remove_waiting n) (r1, q1) ids).1 = ban_keys r1) as H2;
    [|destruct (foldl (remove_waiting n) (r1, q1) ids) as [r2 q2]] end.
  { rewrite (foldl_keeps (fun s => ban_keys s.1)); [done|]. intros [r2 w2] id. cbn. by destruct (Room.lobby r2 !! id). }
  unfold ban_keys in *. cbn in *. congruence.
Qed.

(** The expiry of a ban as the room's clock tells it. *)
Definition ban_until (now : instant) (p : removal_publication) : option instant :=
  secs ← RemovalPublication.duration_seconds p; instant_checked_add now (from_secs secs).

Lemma lookup_insert_same {A} (v : A) ids (m : gmap participant_id A) id :
  foldl (fun m id => <[id := v]> m) m ids !! id = if bool_decide (id ∈ ids) then Some v else m !! id.
Proof.
  revert m. induction ids as [|i ids IH]; intros m; cbn [foldl]; [done|].
  rewrite IH. destruct (decide (id = i)) as [->|Hne].
  - rewrite lookup_insert_eq, (bool_decide_eq_true_2 (i ∈ i :: ids)) by by left. by case_bool_decide.
  - rewrite lookup_insert_ne by done. by rewrite (bool_decide_ext (id ∈ i :: ids) (id ∈ ids)) by (rewrite elem_of_cons; tauto).
Qed.

Lemma remember_ban_lookup fresh now wall p r id :
  id ∈ RemovalPublication.participants p ++ RemovalPublication.lobby p ->
  Room.banned_participants (remember_ban fresh now wall p r) !! id = Some (ban_until now p).
Proof.
  intros Hid. unfold remember_ban, record_banned_cohort.
  destruct (RemovalPublication.authenticated p), (RemovalPublication.ip p); cbn; rewrite lookup_insert_same;
    by rewrite bool_decide_eq_true_2.
Qed.

(** Who a remembered ban is about: the listed identities and, for a guest with
    an address, every guest on it. *)
Definition banned_by (p : removal_publication) (j : joiner) : Prop :=
  join_id j ∈ RemovalPublication.participants p ++ RemovalPublication.lobby p
  \/ (RemovalPublication.authenticated p = false /\ join_authenticated j = false
      /\ exists a b, RemovalPublication.ip p = Some a /\ join_ip j = Some b /\ cohort b = cohort a).

Section bans.
Context (mgr : manager) `{Unicode, Codec}.

(** C7: someone a ban covers cannot join until it expires.  Whatever the
    joiner resolved before, the commit of the join refuses the identity, and
    any other guest on the banned address. *)
Theorem banned_identity_cannot_join fresh now wall p r q q' j policy resolved punitive prefs w :
  RemovalPublication.ban p = true -> banned_by p j -> unexpired (clock w) (ban_until now p) = true ->
  is_ok (commit_join mgr j policy resolved punitive prefs w
           ((publish_removal fresh now wall p r q).1.1, q')).2 = false.
Proof.
  intros Hb Hj Hlive. destruct (commit_join _ _ _ _ _ _ _ _) as [s' [res|e]] eqn:E; [|done]. exfalso.
  injection (removal_bans fresh now wall p r q Hb) as Hids Hips.
  set (r' := (publish_removal fresh now wall p r q).1.1) in *. unfold commit_join in E. succeeded.
  match goal with Hn : negb (identity_is_banned _ _ _ _) = true |- _ => apply negb_true_iff in Hn; rename Hn into Hban end.
  unfold identity_is_banned in Hban. apply orb_false_iff in Hban as [Hid Hip]. cbn in Hid, Hip. rewrite Hids in Hid. rewrite Hips in Hip.
  destruct Hj as [Hj|(Ha & Hja & a & b & Hpa & Hjb & Hc)].
  - apply bool_decide_eq_false in Hid. apply Hid. exists (ban_until now p). apply map_lookup_filter_Some.
    split; [by apply (remember_ban_lookup fresh now wall p r)|done].
  - rewrite Hja, Hjb in Hip. cbn in Hip. apply bool_decide_eq_false in Hip. apply Hip. exists (ban_until now p).
    apply map_lookup_filter_Some. split; [|done]. rewrite Hc. unfold remember_ban, record_banned_cohort.
    rewrite Ha, Hpa. apply lookup_insert_eq.
Qed.
End bans.

(** ** Joins *)

Section joins.
Context (mgr : manager) `{Unicode, Codec}.

Lemma has_space r u :
  ensure_room_has_space mgr r = Ok u ->
  (forall maximum, (s ← Room.settings r; RoomSettings.max_participants s) = Some maximum ->
     (Z.of_nat (size (Room.participants r)) < maximum)%Z)
  /\ (forall ceiling, max_participants_per_room mgr = Some ceiling ->
        (N.of_nat (size (Room.participants r)) < ceiling)%N).
Proof.
  unfold ensure_room_has_space. intros Hs. split.
  - intros maximum Hm. rewrite Hm in Hs. destruct (Z.ltb_spec maximum 0); [done|].
    destruct ((maximum =? 0)%Z || _) eqn:Eb; [done|]. apply orb_false_iff in Eb as [_ Eb]. apply N.leb_gt in Eb. lia.
  - intros ceiling Hc. rewrite Hc in Hs. cbn in Hs. destruct (N.leb_spec ceiling (N.of_nat (size (Room.participants r)))); [|done].
    by destruct (match (s ← Room.settings r; RoomSettings.max_participants s) with Some _ => _ | None => _ end).
Qed.

(** What entering does to the people of a room. *)
Lemma enter_lobby_people j name role punitive r q s' res :
  enter_lobby j name role punitive (r, q) = (s', Ok res) ->
  res = Lobbied /\ Room.participants s'.1 = Room.participants r
  /\ exists e, Room.lobby s'.1 = <[join_id j := e]> (Room.lobby r) /\ LobbyEntry.role e = role.
Proof.
  intros E. unfold enter_lobby in E. cbn in E. injection E as <- <-. split; [done|]. split; [done|].
  eexists. by split.
Qed.

Lemma enter_room_people j name role punitive prefs r q s' res :
  enter_room j name role punitive prefs (r, q) = (s', Ok res) ->
  Room.lobby s'.1 = Room.lobby r
  /\ exists p, Room.participants s'.1 = <[join_id j := p]> (Room.participants r)
       /\ Participant.role p = role /\ Participant.producers p = ∅.
Proof.
  intros E. unfold enter_room in E. cbn in E. injection E as <- <-. split; [done|]. eexists. by split_and!.
Qed.

(** Who is sent to the lobby. *)
Definition waits (policy : join_policy) (r : room) (role : role) : Prop :=
  (seen_invite_only policy = true /\ (role_number role < role_number Member)%N)
  \/ (seen_lobby_enabled policy = true /\ ~ deserted r /\ (role_number role < role_number Moderator)%N).

Lemma must_wait_spec policy r role : reflect (waits policy r role) (must_wait policy (is_empty_room r) role).
Proof.
  apply iff_reflect. unfold waits, must_wait, role_ge, is_empty_room, deserted.
  rewrite orb_true_iff, !andb_true_iff, !negb_true_iff, andb_false_iff, !N.leb_gt, !bool_decide_eq_false.
  assert (forall P Q : Prop, Decision P -> ~ (P /\ Q) <-> ~ P \/ ~ Q) as Hdm by (intros P Q ?; destruct (decide P); tauto).
  rewrite Hdm by apply _. tauto.
Qed.

(** C8: a join that commits does so in a live room of a server that is not
    shutting down, whose policy is the one the joiner was checked against,
    below the room's own limit and the deployment's, for an identity that was
    neither in the room nor waiting.  It adds exactly that one person, with
    the resolved role: to the lobby when the room is invite-only and the role
    below member, or when it has a lobby, somebody is in it and the role is
    below moderator; to the room otherwise. *)
Theorem join_outcome j policy resolved punitive prefs w r q s' res :
  commit_join mgr j policy resolved punitive prefs w (r, q) = (s', Ok res) ->
  draining w = false /\ Room.deleting r = false /\ Room.policy_revision r = seen_revision policy
  /\ (forall maximum, (s ← Room.settings r; RoomSettings.max_participants s) = Some maximum ->
        (Z.of_nat (size (Room.participants r)) < maximum)%Z)
  /\ (forall ceiling, max_participants_per_room mgr = Some ceiling ->
        (N.of_nat (size (Room.participants r)) < ceiling)%N)
  /\ Room.participants r !! join_id j = None /\ Room.lobby r !! join_id j = None
  /\ exists role,
       select_join_role (seen_persisted policy) (is_empty_room r) resolved (join_authenticated j) = Some role
       /\ ((waits policy r role /\ res = Lobbied /\ Room.participants s'.1 = Room.participants r
            /\ exists e, Room.lobby s'.1 = <[join_id j := e]> (Room.lobby r) /\ LobbyEntry.role e = role)
           \/ (~ waits policy r role /\ Room.lobby s'.1 = Room.lobby r
               /\ exists p, Room.participants s'.1 = <[join_id j := p]> (Room.participants r)
                    /\ Participant.role p = role /\ Participant.producers p = ∅)).
Proof.
  intros E. unfold commit_join in E. succeeded.
  apply negb_true_iff in E0. unfold policy_snapshot_matches in E2. apply andb_prop in E2 as [Hl Hrev].
  apply negb_true_iff in Hl. apply N.eqb_eq in Hrev.
  apply andb_prop in E6 as [Hp%negb_true_iff%bool_decide_eq_false%eq_None_not_Some
                            Hw%negb_true_iff%bool_decide_eq_false%eq_None_not_Some].
  apply has_space in E9 as [Hmax Hceil]. split_and!; try done.
  exists x10. split; [unfold ok_or in E11; by destruct (select_join_role _ _ _ _); simplify_eq|].
  destruct (merged_punitive j punitive _) as [key merged]. apply hbind_ok in E as (s1 & [] & E1 & E).
  assert (Room.participants s1.1 = Room.participants r /\ Room.lobby s1.1 = Room.lobby r) as [<- <-].
  { revert E1. case_bool_decide; intros E1; succeeded; done. }
  destruct s1 as [r1 q1]. cbn [fst]. replace (is_empty_room r) with (is_empty_room (prune_expired_bans (clock w) r)) by done.
  pose proof (must_wait_spec policy r x10) as Hwait. change (is_empty_room r) with (is_empty_room (prune_expired_bans (clock w) r)) in Hwait.
  destruct Hwait; [left|right]; (split; [done|]); [by eapply enter_lobby_people|by eapply enter_room_people].
Qed.
End joins.

(** ** Revocation *)

(** C9: revocation closes exactly what the policy no longer allows.  Of
    the members it looks at, a stream survives if and only if settings, role
    and sanctions allow it and its owner is within the broadcaster limit;
    others keep theirs. *)
Theorem revocation_is_exact f reason r q id p producer rec :
  room_struct r -> Room.participants r !! id = Some p -> Participant.producers p !! producer = Some rec ->
  let r' := (revoke_unauthorized_producers f reason r q).1.1 in
  (exists p', Room.participants r' !! id = Some p' /\ Participant.producers p' !! producer = Some rec)
  <-> (matches_filter f p = true -> record_allowed r p rec = true /\ id ∉ over_capacity r).
Proof.
  intros Hs Hp Hrec r'. unfold r'. rewrite revoke_room by done. split.
  - intros (p' & (p0 & Hp0 & ->)%lookup_prune & [_ Hk]%map_lookup_filter_Some) Hf.
    assert (p0 = p) as -> by congruence. by eapply kept_allowed.
  - intros Hgood. exists (strip (kept f r) p). split; [apply lookup_prune; eauto|].
    apply map_lookup_filter_Some. split; [done|]. cbn. apply bool_decide_eq_true_2. intros Hin.
    apply list_elem_of_fmap in Hin as (v & -> & Hv).
    apply elem_of_revoked_list in Hv as (id' & p' & producer' & rec' & Hp' & Hf & Hrec' & Hbad & ->). cbn in *.
    assert (Room.producer_to_participant r !! producer' = Some id) as Hi by (apply (ok_index _ Hs); eauto).
    assert (Room.producer_to_participant r !! producer' = Some id') as Hi' by (apply (ok_index _ Hs); eauto).
    assert (id' = id) as -> by congruence. assert (p' = p) as -> by congruence. assert (rec' = rec) as -> by congruence.
    destruct (Hgood Hf) as [Ha Ho]. rewrite (ok_members _ Hs id p Hp) in Hbad. destruct Hbad; [congruence|done].
Qed.

(** ** Quarantine *)

(** C10: quarantining the mapped room closes it, empties it,
    reserves its name and leaves every media session it had to be closed;
    quarantining a room that is not the mapped one, or already closing, does
    nothing. *)
Theorem quarantine_closes_room room_id a w r :
  heap w !! a = Some r ->
  let '(w', sessions) := quarantine_section room_id a w in
  if bool_decide (rooms w !! room_id = Some a) && negb (Room.deleting r)
  then (exists r', heap w' !! a = Some r' /\ Room.deleting r' = true /\ deserted r')
       /\ is_deleting room_id w' = true /\ rooms w' = rooms w
       /\ exists closing, sessions = Some closing
          /\ forall id p, Room.participants r !! id = Some p ->
               media_participant_id room_id (Participant.id p) (Participant.media_session_id p) ∈ closing
  else w' = w /\ sessions = None.
Proof.
  intros Hr. unfold quarantine_section. rewrite (room_at_known _ _ _ Hr).
  destruct (bool_decide (rooms w !! room_id = Some a)); cbn; [|done]. destruct (Room.deleting r); cbn; [done|].
  set (w0 := match deleting_rooms w !! room_id with Some _ => w | None => _ end).
  assert (is_Some (deleting_rooms w0 !! room_id)) as Hres.
  { unfold w0. destruct (deleting_rooms w !! room_id) eqn:Ed; [by rewrite Ed|]. cbn. by rewrite lookup_insert_eq. }
  assert (rooms w0 = rooms w) as Hrooms by (unfold w0; by destruct (deleting_rooms w !! room_id)).
  split_and!.
  - eexists. rewrite lookup_insert_eq. split; [done|]. by split_and!.
  - unfold is_deleting. by apply bool_decide_eq_true_2.
  - done.
  - eexists. split; [done|]. intros id p Hp. unfold media_sessions. apply list_elem_of_fmap. exists p.
    split; [done|]. apply elem_of_members. by exists id.
Qed.

(** ** The decisions on a room with two members *)

(** Bob, a guest with an address, joins Ann's room. *)
Definition crowd : config world lock query reply :=
  run smooth (replicate 60 6%N)
    (arrive 6 (serve (add_participant (H := ascii_unicode) lab_manager "lab" 8 (text_of "Bob") 80 false 2 None 9
                        (Some (V4 5)) None)) lab).
Definition crowd_room : room := room_at (the_world crowd) 0.

Lemma crowd_room_at : heap (the_world crowd) !! 0%N = Some crowd_room.
Proof. by vm_compute. Qed.

Lemma crowd_room_ok : room_struct crowd_room.
Proof.
  assert (reachable (H := ascii_unicode) (H0 := sample_codec) lab_manager crowd) as Hc.
  { apply reachable_run; [by vm_compute|]; apply reachable_arrive; [apply ReqJoin|by vm_compute|]. apply lab_reachable. }
  apply (ok_struct _ (ok_rooms _ (reachable_world (H := ascii_unicode) (H0 := sample_codec) lab_manager crowd Hc) 0 crowd_room crowd_room_at)).
Qed.

Abbreviation crowd_ban := (authorize_ban 7 70 8 None (Some 60%N) None 99 (the_world crowd) (crowd_room, empty_wire)).

Lemma authorized_ban_witness :
  match crowd_ban with
  | (_, Ok (moderator, target, pids, lids, _, _)) =>
      pids = [8%N] /\ covers crowd_room (for_identity 8 (Participant.authenticated target) (Participant.ip target)) pids lids
  | (_, Err _) => False
  end.
Proof.
  destruct crowd_ban as [s' [[[[[[moderator target] pids] lids] ev] persisted]|e]] eqn:E.
  - assert (match crowd_ban with (_, Ok (_, _, pids, _, _, _)) => pids | _ => [] end = [8%N]) as Hp by by vm_compute.
    rewrite E in Hp. split; [exact Hp|].
    destruct (authorized_ban_reaches_its_cohort 7 70 8 None (Some 60%N) None 99 (the_world crowd) crowd_room empty_wire
      s' moderator target pids lids ev persisted crowd_room_ok E) as (_ & _ & _ & _ & Hcov & _). exact Hcov.
  - assert (is_ok crowd_ban.2 = true) as Hok by by vm_compute. by rewrite E in Hok.
Defined.

Definition bob_ban : removal_publication :=
  RemovalPublication.mk true [8%N] [] false (Some (V4 5)) (text_of "Bob") None (Some 60%N).
(** Someone else on Bob's address. *)
Definition eve : joiner := Joiner 9 (text_of "Eve") 90 false 3 9 (Some (V4 5)) default_style 1 2.
Definition open_policy (revision : N) : join_policy := JoinPolicy false false None false None false revision.

Lemma banned_identity_cannot_join_witness :
  is_ok (commit_join (H := ascii_unicode) lab_manager eve (open_policy 0) None no_sanction None (the_world crowd)
           (crowd_room, empty_wire)).2 = true
  /\ is_ok (commit_join (H := ascii_unicode) lab_manager eve (open_policy 1) None no_sanction None
              (the_world crowd) ((publish_removal 1 0 0 bob_ban crowd_room empty_wire).1.1, empty_wire)).2 = false.
Proof.
  split; [by vm_compute|]. apply (banned_identity_cannot_join (H := ascii_unicode) lab_manager 1 0 0 bob_ban); [done| |by vm_compute].
  right. split; [done|]. split; [done|]. by exists (V4 5), (V4 5).
Defined.

Lemma join_outcome_witness :
  match commit_join (H := ascii_unicode) lab_manager eve (open_policy 0) None no_sanction None (the_world crowd) (crowd_room, empty_wire) with
  | (s', Ok _) => Room.lobby s'.1 = Room.lobby crowd_room
      /\ exists p, Room.participants s'.1 = <[9%N := p]> (Room.participants crowd_room) /\ Participant.role p = Guest
  | (_, Err _) => False
  end.
Proof.
  destruct (commit_join _ _ _ _ _ _ _ _) as [s' [res|e]] eqn:E.
  - destruct (join_outcome (H := ascii_unicode) lab_manager eve (open_policy 0) None no_sanction None (the_world crowd)
      crowd_room empty_wire s' res E) as (_ & _ & _ & _ & _ & _ & _ & role & Hrole & Hout).
    assert (role = Guest) as -> by (vm_compute in Hrole; congruence).
    destruct Hout as [([[Hi _]|[Hi _]] & _)|(_ & Hl & p & Hp & Hr & _)]; [discriminate Hi..|].
    split; [exact Hl|]. exists p. split; [exact Hp|exact Hr].
  - assert (is_ok (commit_join (H := ascii_unicode) lab_manager eve (open_policy 0) None no_sanction None (the_world crowd)
      (crowd_room, empty_wire)).2 = true) as Hok by by vm_compute. by rewrite E in Hok.
Defined.

(** Ann's camera stays: it is allowed and she is the only broadcaster. *)
Definition ann : participant := default (Participant.mk (social_new 0 0) 0 [] 0 0 ∅ Guest no_sanction false None default_style)
  (Room.participants crowd_room !! 7%N).

Lemma revocation_is_exact_witness :
  exists p', Room.participants (revoke_unauthorized_producers None "policy" crowd_room empty_wire).1.1 !! 7%N = Some p'
  /\ Participant.producers p' !! 0%N = Some (ProducerRecord Video (Some "camera") false).
Proof.
  apply (revocation_is_exact None "policy" crowd_room empty_wire 7 ann 0); [apply crowd_room_ok|by vm_compute..|].
  intros _. split; [by vm_compute|]. assert (over_capacity crowd_room = []) as -> by by vm_compute. apply not_elem_of_nil.
Defined.

Lemma quarantine_closes_room_witness :
  let '(w', sessions) := quarantine_section "lab" 0 (the_world crowd) in
  exists r', heap w' !! 0%N = Some r' /\ Room.deleting r' = true /\ deserted r'.
Proof.
  pose proof (quarantine_closes_room "lab" 0 (the_world crowd) crowd_room crowd_room_at) as Hq.
  assert (bool_decide (rooms (the_world crowd) !! "lab" = Some 0%N) && negb (Room.deleting crowd_room) = true) as Hb by by vm_compute.
  destruct (quarantine_section "lab" 0 (the_world crowd)) as [w' sessions]. rewrite Hb in Hq. apply Hq.
Defined.
