(* ===== verification/Races.v ===== *)
(** * Executions that end badly

    Executions of the handlers, evaluated.  In two of them a room that was
    closed does not stay closed: recovery from a dead media worker reopens the
    name of a quarantined room, and a deletion that the database refuses
    revives a room that an earlier deletion has already taken out of the map.
    In the third a removed message is still quoted by a pin. *)

From stdpp Require Import relations.
From S2P Require Import Prelude Refusal Net Roles Window RateTable Labels Settings Protocol Moderation Wire Social Room Media Publication Process Triples Schedule World Chat ChatDelivery ModerationOps SettingsOps Lobby Membership MediaOps Lifecycle ChatRequests SocialRequests RoomRequests WorldInv Safety.

Open Scope process_scope.

Definition vault_manager : manager := Manager false None None 10 10 100 100 true.

(** A saved room whose owner is account 7, on media worker 3. *)
Definition vault_row : room_settings := (defaults "vault") <| RoomSettings.owner_id := 7%N |>.

(** The database knows the room and its owner, times out on writes, and the
    media server answers. *)
Definition vault_oracle (t : N) (q : query) : reply q :=
  match q with
  | LoadRoom _ => Some (Ok (Some (vault_row, None)))
  | ResolveRole _ user _ _ => Ok (if bool_decide (user = Some 7%N) then Owner else User)
  | LoadPreferences _ => Some (Ok (ChatPreferences true []))
  | WorkerOf _ => Some 3%N
  | q => smooth t q
  end.

Definition enter (id : participant_id) : process unit :=
  serve (add_participant (H := ascii_unicode) vault_manager "vault" id (text_of "Ann") (id * 10) true 1 None 9 None None).



Abbreviation vault_reaches := (rtc (orderly (H := ascii_unicode) (H0 := sample_codec) vault_manager)).


(** ** A refused second deletion *)

(** The first DELETE finds the row, the second does not. *)
Definition twice_oracle (t : N) (q : query) : reply q :=
  match q with
  | RoomGeneration _ => Some (Ok (Some (7%N, 100%N)))
  | DeleteRoomRow _ _ _ => Some (Ok (t =? 2)%N)
  | q => vault_oracle t q
  end.

Definition delete_vault : process unit := serve (delete_persisted_room vault_manager "vault" 7).

(** Bob has reserved a place (task 4) when the owner deletes the room twice:
    the second deletion (task 3) has found the room and waits for its control
    while the first (task 2) closes it. *)
Definition revived : config world lock query reply :=
  run twice_oracle
    (replicate 8 4%N ++ replicate 11 2%N ++ replicate 6 3%N ++ replicate 60 2%N ++ replicate 60 3%N ++ replicate 60 4%N)
    (arrive 4 (enter 8) (arrive 3 delete_vault (arrive 2 delete_vault
       (run twice_oracle (replicate 60 1%N) (arrive 1 (enter 7) (boot 0 0)))))).

Abbreviation vault_system := (system (H := ascii_unicode) (H0 := sample_codec) vault_manager).

(** C37: a deletion the database refuses can revive a room that is
    already gone.  It does not check, once it has control, that the room it
    found is still the mapped one, and it clears the tombstone when its DELETE
    finds no row; a join that was waiting then enters a live room that no name
    leads to, on a server that is not shutting down. *)
Theorem refused_deletion_strands_member :
  exists c r, rtc vault_system (boot 0 0) c
  /\ heap (the_world c) !! 0%N = Some r /\ Room.deleting r = false
  /\ is_Some (Room.participants r !! 8%N)
  /\ rooms (the_world c) !! Room.id r = None /\ draining (the_world c) = false.
Proof.
  exists revived, (room_at (the_world revived) 0). split_and!; [|by vm_compute|by vm_compute| |by vm_compute|by vm_compute].
  - unfold revived. eapply rtc_trans; [|apply run_steps].
    eapply rtc_trans; [|apply arrive_steps; [apply ReqJoin|by vm_compute]].
    eapply rtc_trans; [|apply arrive_steps; [apply ReqDeleteRoom|by vm_compute]].
    eapply rtc_trans; [|apply arrive_steps; [apply ReqDeleteRoom|by vm_compute]].
    eapply rtc_trans; [|apply run_steps]. apply arrive_steps; [apply ReqJoin|done].
  - vm_compute. by eexists.
Qed.

(** ** A removed message that is still quoted *)









