(* ===== verification/Lru.v ===== *)
(** * Least-recently-used tables

    The [LruCache] of the lru crate, in which the sign-in limits and the upgrade
    tickets are kept, as an interface: its entries, most recently used first,
    and what the crate documents each operation to do to them. *)

From S2P Require Import Prelude.

Section entries.
Context {K V : Type} `{EqDecision K}.

Fixpoint find_key (k : K) (l : list (K * V)) : option V :=
  match l with
  | [] => None
  | (k', v) :: l => if decide (k' = k) then Some v else find_key k l
  end.
Definition drop_key (k : K) (l : list (K * V)) : list (K * V) := filter (fun e => e.1 <> k) l.
(** Use [k]: it comes to the front, and beyond [cap] the last entry goes. *)
Definition push_entry (cap : nat) (k : K) (v : V) (l : list (K * V)) : list (K * V) := take cap ((k, v) :: drop_key k l).
Definition touch (k : K) (l : list (K * V)) : list (K * V) :=
  match find_key k l with Some v => (k, v) :: drop_key k l | None => l end.

Lemma find_drop k k' l : find_key k' (drop_key k l) = if decide (k' = k) then None else find_key k' l.
Proof.
  unfold drop_key in *. induction l as [|[i v] l IH]; [cbn; by destruct (decide _)|]. rewrite filter_cons. cbn [find_key fst].
  destruct (decide (i <> k)) as [Hi|Hi]; cbn [find_key]; rewrite IH; destruct (decide (i = k')) as [->|], (decide (k' = k)); try done;
    by destruct Hi.
Qed.

Lemma find_in k v l : NoDup l.*1 -> (k, v) ∈ l <-> find_key k l = Some v.
Proof.
  induction l as [|[i w] l IH]; cbn; intros Hnd; [by split; [intros ?%not_elem_of_nil|]|].
  apply NoDup_cons in Hnd as [Hi Hnd]. rewrite elem_of_cons. destruct (decide (i = k)) as [->|Hne].
  - split; [|intros [= ->]; auto]. intros [[= ->]|Hin]; [done|]. destruct Hi. apply list_elem_of_fmap. by exists (k, v).
  - rewrite <-IH by done. split; [|auto]. intros [[= -> ->]|?]; done.
Qed.

Lemma drop_keys k l : (drop_key k l).*1 = filter (.≠ k) l.*1.
Proof.
  unfold drop_key. induction l as [|[i v] l IH]; [done|]. rewrite filter_cons, fmap_cons, filter_cons. cbn [fst].
  destruct (decide (i <> k)); [rewrite fmap_cons; by f_equal|done].
Qed.

Lemma drop_nodup k l : NoDup l.*1 -> NoDup (k :: (drop_key k l).*1).
Proof.
  rewrite drop_keys. intros Hnd. constructor; [|by apply NoDup_filter]. intros Hin. by apply list_elem_of_filter in Hin as [? _].
Qed.

Lemma push_nodup cap k v l : NoDup l.*1 -> NoDup (push_entry cap k v l).*1.
Proof. intros Hnd. unfold push_entry. rewrite fmap_take. apply sublist_NoDup with (k :: (drop_key k l).*1); [|apply sublist_take]. by apply drop_nodup. Qed.

Lemma push_length cap k v l : (length (push_entry cap k v l) <= cap)%nat.
Proof. unfold push_entry. rewrite length_take. lia. Qed.

Lemma push_keys cap k v l i : i ∈ (push_entry cap k v l).*1 -> i = k \/ i ∈ l.*1.
Proof.
  unfold push_entry. rewrite fmap_take. intros Hin. apply elem_of_take in Hin as (n & Hin & _). apply list_elem_of_lookup_2 in Hin.
  cbn in Hin. rewrite drop_keys, elem_of_cons, list_elem_of_filter in Hin. tauto.
Qed.

Lemma push_find_eq cap k v l : (0 < cap)%nat -> find_key k (push_entry cap k v l) = Some v.
Proof. intros Hc. destruct cap as [|cap]; [lia|]. unfold push_entry. cbn. by rewrite decide_True. Qed.

Lemma find_take n k l v : find_key k (take n l) = Some v -> find_key k l = Some v.
Proof.
  revert n. induction l as [|[i w] l IH]; intros [|n]; cbn; try done. destruct (decide _); [done|]. apply IH.
Qed.

(** Using [k] never changes what is remembered of another key; it is remembered
    or it is gone. *)
Lemma push_find_ne cap k v l i w : i <> k -> find_key i (push_entry cap k v l) = Some w -> find_key i l = Some w.
Proof.
  intros Hne Hf. apply find_take in Hf. cbn in Hf. rewrite decide_False in Hf by congruence. by rewrite find_drop, decide_False in Hf.
Qed.

(** Nothing is lost while there is room, or when [k] was there already. *)
Lemma push_find_room cap k v l i :
  i <> k -> (length (drop_key k l) < cap)%nat -> find_key i (push_entry cap k v l) = find_key i l.
Proof.
  intros Hne Hlen. unfold push_entry. rewrite take_ge by (cbn; lia). cbn. rewrite decide_False by congruence.
  by rewrite find_drop, decide_False.
Qed.

Lemma touch_find k l i : find_key i (touch k l) = find_key i l.
Proof.
  unfold touch. destruct (find_key k l) as [v|] eqn:Hk; [|done]. cbn. destruct (decide (k = i)) as [<-|]; [done|].
  rewrite find_drop, decide_False; congruence.
Qed.

Lemma drop_perm k v l : NoDup l.*1 -> find_key k l = Some v -> (k, v) :: drop_key k l ≡ₚ l.
Proof.
  intros Hnd Hk. apply NoDup_Permutation.
  - apply (NoDup_fmap_1 fst). by apply drop_nodup.
  - by apply (NoDup_fmap_1 fst).
  - intros [i w]. rewrite elem_of_cons. unfold drop_key. rewrite list_elem_of_filter. cbn. destruct (decide (i = k)) as [->|Hne].
    + rewrite (find_in k w l Hnd), Hk. split; [intros [[= ->]|[? _]]; done|intros [= ->]; auto].
    + split; [intros [[= -> ->]|[_ ?]]; done|auto].
Qed.

Lemma touch_perm k l : NoDup l.*1 -> touch k l ≡ₚ l.
Proof. intros Hnd. unfold touch. destruct (find_key k l) eqn:Hk; [by apply drop_perm|done]. Qed.
End entries.

(** [get] and [get_or_insert_mut] use the key; a write through the returned
    reference is the function given to [lru_get_or_insert_mut].  [pop] removes
    the key, [iter] lists the entries and [len] counts them. *)
Class LruCache (K V : Type) `{EqDecision K} := {
  lru : Type;
  lru_entries : lru -> list (K * V);
  lru_cap : lru -> nat;
  lru_new : nat -> lru;
  lru_get : K -> lru -> lru * option V;
  lru_get_or_insert_mut : forall A, K -> V -> (V -> V * A) -> lru -> lru * A;
  lru_put : K -> V -> lru -> lru;
  lru_pop : K -> lru -> lru * option V;
  lru_new_ok n : lru_entries (lru_new n) = [] /\ lru_cap (lru_new n) = n;
  lru_get_ok k c : lru_entries (lru_get k c).1 = touch k (lru_entries c) /\ lru_cap (lru_get k c).1 = lru_cap c
    /\ (lru_get k c).2 = find_key k (lru_entries c);
  lru_get_or_insert_mut_ok A k d f c :
    let r := f (default d (find_key k (lru_entries c))) in
    lru_entries (lru_get_or_insert_mut A k d f c).1 = push_entry (lru_cap c) k r.1 (lru_entries c)
    /\ lru_cap (lru_get_or_insert_mut A k d f c).1 = lru_cap c /\ (lru_get_or_insert_mut A k d f c).2 = r.2;
  lru_put_ok k v c : lru_entries (lru_put k v c) = push_entry (lru_cap c) k v (lru_entries c)
    /\ lru_cap (lru_put k v c) = lru_cap c;
  lru_pop_ok k c : lru_entries (lru_pop k c).1 = drop_key k (lru_entries c) /\ lru_cap (lru_pop k c).1 = lru_cap c
    /\ (lru_pop k c).2 = find_key k (lru_entries c)
}.
Arguments lru_get_or_insert_mut {K V _ _ A} k d f c.
Arguments lru_get_or_insert_mut_ok {K V _ _ A} k d f c.

(** The interface is satisfied by the list itself. *)
#[export] Instance list_lru (K V : Type) `{EqDecision K} : LruCache K V.
Proof.
  refine {|
    lru := nat * list (K * V);
    lru_entries := snd; lru_cap := fst; lru_new := fun n => (n, []);
    lru_get := fun k c => ((c.1, touch k c.2), find_key k c.2);
    lru_get_or_insert_mut := fun A k d f c =>
      let r := f (default d (find_key k c.2)) in ((c.1, push_entry c.1 k r.1 c.2), r.2);
    lru_put := fun k v c => (c.1, push_entry c.1 k v c.2);
    lru_pop := fun k c => ((c.1, drop_key k c.2), find_key k c.2) |}; done.
Defined.
