(* ===== verification/SignIn.v ===== *)
(** * Sign-in delays and registration windows ([src/src/auth/limiter.rs])

    Failed sign-ins of one address cohort against one account earn a wait that
    doubles; registrations of one cohort share a fixed window.  Both live in
    tables of bounded size that forget the least recently used key. *)

From S2P Require Import Prelude Net Lru.

Definition FREE_PAIR_FAILURES : N := 3.
Definition MAX_PAIR_DELAY : duration := from_secs 300.
Definition FAILURE_MEMORY : duration := from_secs 3600.
Definition TRACKED_KEYS_CAPACITY : nat := N.to_nat 10000.
Lemma capacity_positive : (0 < TRACKED_KEYS_CAPACITY)%nat.
Proof. unfold TRACKED_KEYS_CAPACITY. lia. Qed.

(** [1u64.checked_shl(excess - 1)] is [None] from 64 on. *)
Definition delay_after (failures free : N) (ceiling : duration) : duration :=
  let excess := saturating_sub failures free in
  if (excess =? 0)%N then 0%N
  else let seconds := if (excess - 1 <? 64)%N then (2 ^ (excess - 1))%N else U64_MAX in
       N.min (from_secs seconds) ceiling.

Record failures := Failures { count : N; blocked_until : instant; last_failure : instant }.

Definition note_failure (free : N) (ceiling : duration) (now : instant) (e : failures) : failures :=
  let before := if (FAILURE_MEMORY <=? duration_since now (last_failure e))%N then 0%N else count e in
  let count := u32_saturating_add before 1 in
  Failures count (now + delay_after count free ceiling) now.

Section failure_table.
Context {K : Type} `{EqDecision K, !LruCache K failures}.

Record failure_table := FailureTable { entries : lru (K := K) (V := failures); free : N; ceiling : duration }.

Definition failure_table_new (free : N) (ceiling : duration) : failure_table :=
  FailureTable (lru_new TRACKED_KEYS_CAPACITY) free ceiling.

(** The remaining wait of one record. *)
Definition remaining (now : instant) (e : failures) : duration :=
  if (duration_since now (last_failure e) <? FAILURE_MEMORY)%N then saturating_sub (blocked_until e) now else 0%N.

Definition wait (k : K) (now : instant) (t : failure_table) : failure_table * duration :=
  let '(c, e) := lru_get k (entries t) in
  (FailureTable c (free t) (ceiling t), from_option (remaining now) 0%N e).

Definition record_failure (k : K) (now : instant) (t : failure_table) : failure_table :=
  let '(c, _) := lru_get_or_insert_mut k (Failures 0 now now) (fun e => (note_failure (free t) (ceiling t) now e, tt)) (entries t) in
  FailureTable c (free t) (ceiling t).

Definition clear (k : K) (t : failure_table) : failure_table :=
  FailureTable (lru_pop k (entries t)).1 (free t) (ceiling t).
End failure_table.
Arguments failure_table K {_ _}.

(** ** [FailureLimiter] *)

Abbreviation pair := (ip_addr * string)%type.

Section failure_limiter.
Context `{!LruCache pair failures}.

Definition failure_limiter_new : failure_table pair := failure_table_new FREE_PAIR_FAILURES MAX_PAIR_DELAY.

(** Whole seconds, rounded up; [None] when there is nothing to wait for. *)
Definition whole_seconds (d : duration) : option N :=
  if (d =? 0)%N then None else Some (if (0 <? d mod NANOS)%N then d / NANOS + 1 else d / NANOS)%N.

Definition wait_at (address : ip_addr) (account : string) (now : instant) (t : failure_table pair)
  : failure_table pair * option N :=
  let '(t, d) := wait (cohort address, account) now t in (t, whole_seconds d).
Definition record_failure_at (address : ip_addr) (account : string) (now : instant) (t : failure_table pair)
  : failure_table pair := record_failure (cohort address, account) now t.
Definition record_success (address : ip_addr) (account : string) (t : failure_table pair) : failure_table pair :=
  clear (cohort address, account) t.
End failure_limiter.

(** ** [WindowLimiter] *)

Record reg_window := RegWindow { started : instant; used : N }.

Section window_limiter.
Context `{!LruCache ip_addr reg_window}.

Record window_limiter := WindowLimiter { windows : lru (K := ip_addr) (V := reg_window); window : duration; allowance : N }.

Definition window_limiter_new (allowance : N) (window : duration) : window_limiter :=
  WindowLimiter (lru_new TRACKED_KEYS_CAPACITY) window allowance.

Definition use_window (window : duration) (allowance : N) (now : instant) (w : reg_window) : reg_window * bool :=
  let w := if (window <=? duration_since now (started w))%N then RegWindow now 0 else w in
  if (allowance <=? used w)%N then (w, false) else (RegWindow (started w) (used w + 1), true).

Definition allow_at (address : ip_addr) (now : instant) (l : window_limiter) : window_limiter * bool :=
  let '(c, ok) := lru_get_or_insert_mut (cohort address) (RegWindow now 0) (use_window (window l) (allowance l) now) (windows l) in
  (WindowLimiter c (window l) (allowance l), ok).
End window_limiter.

(** A table that may hold every key there is has room for one of them. *)
Lemma room_left `{Countable K} {V} (l : list (K * V)) (k : K) (S : gset K) (cap : nat) :
  NoDup l.*1 -> (forall p, p ∈ l.*1 -> p ∈ S) -> k ∈ S -> (size S <= cap)%nat -> (length (drop_key k l) < cap)%nat.
Proof.
  intros Hnd Hsub Hk Hsize. assert (NoDup (k :: (drop_key k l).*1)) as Hn by by apply drop_nodup.
  assert (list_to_set (k :: (drop_key k l).*1) ⊆ S) as Hs.
  { intros p Hp. rewrite elem_of_list_to_set, drop_keys, elem_of_cons, list_elem_of_filter in Hp. destruct Hp as [->|[_ Hp]]; auto. }
  apply subseteq_size in Hs. rewrite size_list_to_set in Hs by done. cbn in Hs. rewrite length_fmap in Hs. lia.
Qed.

(** ** What a wait depends on *)

(** Failures in a row, each within the memory of the one before; newest first. *)
Fixpoint streak (times : list instant) : N :=
  match times with
  | [] => 0%N
  | t :: rest =>
      u32_saturating_add (match rest with
                          | [] => 0%N
                          | t' :: _ => if (FAILURE_MEMORY <=? t - t')%N then 0%N else streak rest
                          end) 1
  end.

(** Three are free, then the wait doubles from one second up to five minutes. *)
Definition earned_delay (n : N) : duration :=
  if (n <=? 3)%N then 0%N else from_secs (N.min (2 ^ (n - 4)) 300).
Definition earned_wait (times : list instant) (now : instant) : duration :=
  match times with
  | [] => 0%N
  | t :: _ => if (now - t <? FAILURE_MEMORY)%N then (t + earned_delay (streak times) - now)%N else 0%N
  end.

Inductive attempt :=
| FailedAt (address : ip_addr) (account : string) (now : instant)
| Proved (address : ip_addr) (account : string)
| AskedAt (address : ip_addr) (account : string) (now : instant).

(** The failures that count against a pair: those since its last success. *)
Definition counted (p : pair) (times : list instant) (a : attempt) : list instant :=
  match a with
  | FailedAt address account now => if decide ((cohort address, account) = p) then now :: times else times
  | Proved address account => if decide ((cohort address, account) = p) then [] else times
  | AskedAt _ _ _ => times
  end.
Definition failures_of (p : pair) (attempts : list attempt) : list instant := foldl (counted p) [] attempts.

Definition failed_pair (a : attempt) : gset pair :=
  match a with FailedAt address account _ => {[(cohort address, account)]} | _ => ∅ end.
(** Every pair that failed at all. *)
Definition failed_pairs (attempts : list attempt) : gset pair := ⋃ (failed_pair <$> attempts).

Section limiter.
Context `{!LruCache pair failures}.

Definition attempt_step (t : failure_table pair) (a : attempt) : failure_table pair :=
  match a with
  | FailedAt address account now => record_failure_at address account now t
  | Proved address account => record_success address account t
  | AskedAt address account now => (wait_at address account now t).1
  end.
Definition attempt_run (attempts : list attempt) : failure_table pair := foldl attempt_step failure_limiter_new attempts.

Lemma earned_delay_spec n : delay_after n FREE_PAIR_FAILURES MAX_PAIR_DELAY = earned_delay n.
Proof.
  unfold delay_after, earned_delay, FREE_PAIR_FAILURES, MAX_PAIR_DELAY, saturating_sub, from_secs.
  destruct (N.eqb_spec (n - 3) 0) as [H0|H0], (N.leb_spec n 3) as [H3|H3]; try lia.
  replace (n - 3 - 1)%N with (n - 4)%N by lia. destruct (N.ltb_spec (n - 4) 64) as [H64|H64]; [by rewrite N.mul_min_distr_r|].
  assert (2 ^ 64 <= 2 ^ (n - 4))%N as Hp by (apply N.pow_le_mono_r; lia). unfold U64_MAX, NANOS. 
  rewrite (N.min_r (2 ^ (n - 4)) 300) by lia. apply N.min_r. vm_compute. congruence.
Qed.

Lemma earned_delay_mono n m : (n <= m)%N -> (earned_delay n <= earned_delay m)%N.
Proof.
  intros Hle. unfold earned_delay. destruct (N.leb_spec n 3), (N.leb_spec m 3); try lia.
  unfold from_secs. apply N.mul_le_mono_r, N.min_le_compat_r, N.pow_le_mono_r; lia.
Qed.

(** What the table holds of a pair: the pair's last failure, and no more of
    its streak than there was. *)
Definition recorded (times : list instant) (e : failures) : Prop :=
  exists t rest, times = t :: rest /\ last_failure e = t /\ blocked_until e = (t + earned_delay (count e))%N
    /\ (count e <= streak times)%N.

Lemma note_recorded times now e :
  recorded times e -> recorded (now :: times) (note_failure FREE_PAIR_FAILURES MAX_PAIR_DELAY now e).
Proof.
  intros (t & rest & -> & Ht & Hb & Hc). exists now, (t :: rest). unfold note_failure. rewrite Ht. cbn [last_failure blocked_until count].
  split_and!; [done..|by rewrite earned_delay_spec|]. cbn [streak]. unfold duration_since, u32_saturating_add.
  destruct (_ <=? _)%N; [lia|]. cbn [streak] in Hc. unfold u32_saturating_add in Hc. lia.
Qed.

Lemma first_recorded times now : recorded (now :: times) (note_failure FREE_PAIR_FAILURES MAX_PAIR_DELAY now (Failures 0 now now)).
Proof.
  exists now, times. unfold note_failure. cbn [last_failure blocked_until count]. split_and!; [done..|by rewrite earned_delay_spec|].
  cbn [streak]. unfold duration_since, u32_saturating_add. destruct times as [|t rest]; [by destruct (_ <=? _)%N|].
  destruct (FAILURE_MEMORY <=? now - now)%N, (_ <=? now - t)%N; lia.
Qed.

Lemma recorded_wait times now e : recorded times e -> (remaining now e <= earned_wait times now)%N.
Proof.
  intros (t & rest & -> & Ht & Hb & Hc). unfold remaining, earned_wait, duration_since, saturating_sub. rewrite Ht, Hb.
  destruct (_ <? _)%N; [|lia]. pose proof (earned_delay_mono _ _ Hc). lia.
Qed.

Record table_ok (attempts : list attempt) (t : failure_table pair) : Prop := {
  ok_free : free t = FREE_PAIR_FAILURES;
  ok_ceiling : ceiling t = MAX_PAIR_DELAY;
  ok_cap : lru_cap (entries t) = TRACKED_KEYS_CAPACITY;
  ok_nodup : NoDup (lru_entries (entries t)).*1;
  ok_keys : forall p, p ∈ (lru_entries (entries t)).*1 -> p ∈ failed_pairs attempts;
  ok_recorded : forall p e, find_key p (lru_entries (entries t)) = Some e -> recorded (failures_of p attempts) e
}.

Lemma failures_snoc p attempts a : failures_of p (attempts ++ [a]) = counted p (failures_of p attempts) a.
Proof. unfold failures_of. by rewrite foldl_app. Qed.
Lemma failed_snoc attempts a : failed_pairs (attempts ++ [a]) = failed_pairs attempts ∪ failed_pair a.
Proof. unfold failed_pairs. rewrite fmap_app, union_list_app_L. cbn. by rewrite (right_id_L ∅ (∪)). Qed.
Lemma limiter_run_snoc attempts a : attempt_run (attempts ++ [a]) = attempt_step (attempt_run attempts) a.
Proof. unfold attempt_run. by rewrite foldl_app. Qed.

(** The entries after a step. *)
Lemma step_entries t a :
  let '(l, l') := (lru_entries (entries t), lru_entries (entries (attempt_step t a))) in
  match a with
  | FailedAt address account now =>
      let p := (cohort address, account) in
      l' = push_entry (lru_cap (entries t)) p
             (note_failure (free t) (ceiling t) now (default (Failures 0 now now) (find_key p l))) l
  | Proved address account => l' = drop_key (cohort address, account) l
  | AskedAt address account _ => l' = touch (cohort address, account) l
  end.
Proof.
  destruct a as [address account now|address account|address account now]; cbn.
  - unfold record_failure_at, record_failure.
    match goal with |- context [lru_get_or_insert_mut ?k ?d ?f ?c] => pose proof (lru_get_or_insert_mut_ok k d f c) as [He _] end.
    destruct (lru_get_or_insert_mut _ _ _ _) as [c u]. exact He.
  - apply lru_pop_ok.
  - unfold wait_at, wait. pose proof (lru_get_ok (cohort address, account) (entries t)) as [He _].
    destruct (lru_get _ _) as [c e]. exact He.
Qed.

Lemma step_fixed t a :
  free (attempt_step t a) = free t /\ ceiling (attempt_step t a) = ceiling t
  /\ lru_cap (entries (attempt_step t a)) = lru_cap (entries t).
Proof.
  destruct a as [address account now|address account|address account now]; cbn.
  - unfold record_failure_at, record_failure.
    match goal with |- context [lru_get_or_insert_mut ?k ?d ?f ?c] => pose proof (lru_get_or_insert_mut_ok k d f c) as (_ & Hc & _) end.
    destruct (lru_get_or_insert_mut _ _ _ _) as [c u]. done.
  - split_and!; [done..|]. apply lru_pop_ok.
  - unfold wait_at, wait. pose proof (lru_get_ok (cohort address, account) (entries t)) as (_ & Hc & _).
    destruct (lru_get _ _) as [c e]. done.
Qed.

Lemma fail_recorded attempts t address account now :
  table_ok attempts t -> let p := (cohort address, account) in
  recorded (failures_of p (attempts ++ [FailedAt address account now]))
    (note_failure (free t) (ceiling t) now (default (Failures 0 now now) (find_key p (lru_entries (entries t))))).
Proof.
  intros Hok p. rewrite failures_snoc. cbn. rewrite decide_True, (ok_free _ _ Hok), (ok_ceiling _ _ Hok) by done.
  destruct (find_key p _) as [e|] eqn:He; [|apply first_recorded]. apply note_recorded. by apply (ok_recorded _ _ Hok).
Qed.

Lemma counted_other p times a : match a with FailedAt x y _ | Proved x y => (cohort x, y) <> p | AskedAt _ _ _ => True end -> counted p times a = times.
Proof. destruct a; cbn; intros H; [by rewrite decide_False..|done]. Qed.

Lemma step_ok attempts t a : table_ok attempts t -> table_ok (attempts ++ [a]) (attempt_step t a).
Proof.
  intros Hok. destruct (step_fixed t a) as (Hfree & Hceil & Hcap). pose proof (step_entries t a) as He.
  pose proof Hok as [Hf Hc Hcp Hnd Hk Hr].
  split; [congruence..| | |].
  - destruct a; rewrite He; [by apply push_nodup|rewrite drop_keys; by apply NoDup_filter|by rewrite touch_perm].
  - intros p Hp. rewrite failed_snoc. apply elem_of_union. destruct a; rewrite He in Hp.
    + apply push_keys in Hp as [->|Hp]; [right; cbn; set_solver|auto].
    + rewrite drop_keys, list_elem_of_filter in Hp. left. apply Hk, Hp.
    + rewrite touch_perm in Hp by done. auto.
  - intros p e Hp. destruct a as [address account now|address account|address account now]; rewrite He in Hp.
    + destruct (decide (p = (cohort address, account))) as [->|Hne].
      * rewrite push_find_eq in Hp by (rewrite Hcp; apply capacity_positive). injection Hp as <-. by apply fail_recorded.
      * apply push_find_ne in Hp; [|done]. rewrite failures_snoc, counted_other; [by apply Hr|cbn; congruence].
    + rewrite find_drop in Hp. destruct (decide _) as [->|Hne]; [done|].
      rewrite failures_snoc, counted_other; [by apply Hr|cbn; congruence].
    + rewrite touch_find in Hp. rewrite failures_snoc, counted_other; [by apply Hr|done].
Qed.

Lemma limiter_run_ok attempts : table_ok attempts (attempt_run attempts).
Proof.
  induction attempts as [|a attempts IH] using rev_ind; [|rewrite limiter_run_snoc; by apply step_ok].
  destruct (lru_new_ok (K := pair) (V := failures) TRACKED_KEYS_CAPACITY) as [He Hc].
  split; [done|done|exact Hc|..]; cbn; rewrite He; [constructor|by intros p ?%not_elem_of_nil|done].
Qed.

(** ** Nothing forgotten *)

Definition exact (attempts : list attempt) (t : failure_table pair) : Prop :=
  forall p, match find_key p (lru_entries (entries t)) with
            | Some e => count e = streak (failures_of p attempts)
            | None => failures_of p attempts = []
            end.

Lemma note_exact times now e :
  recorded times e -> count e = streak times ->
  count (note_failure FREE_PAIR_FAILURES MAX_PAIR_DELAY now e) = streak (now :: times).
Proof. intros (t & rest & -> & Ht & _) Hc. unfold note_failure, duration_since. rewrite Ht, Hc. done. Qed.

Lemma step_exact attempts t a :
  (size (failed_pairs (attempts ++ [a])) <= TRACKED_KEYS_CAPACITY)%nat ->
  table_ok attempts t -> exact attempts t -> exact (attempts ++ [a]) (attempt_step t a).
Proof.
  intros Hsize Hok Hex p. pose proof (step_entries t a) as He. pose proof Hok as [Hf Hc Hcp Hnd Hk Hr]. specialize (Hex p).
  destruct a as [address account now|address account|address account now]; rewrite He; rewrite failures_snoc.
  - rewrite Hcp. destruct (decide (p = (cohort address, account))) as [->|Hne].
    + rewrite push_find_eq by apply capacity_positive. cbn [counted]. rewrite decide_True, Hf, Hc by done.
      destruct (find_key _ _) as [e|] eqn:Hp; [exact (note_exact _ now e (Hr _ _ Hp) Hex)|].
      rewrite Hex. unfold note_failure. cbn. by destruct (_ <=? _)%N.
    + rewrite counted_other by (cbn; congruence). rewrite push_find_room; [exact Hex|done|].
      eapply (room_left _ _ (failed_pairs (attempts ++ [FailedAt address account now]))); [done| | |done]; rewrite failed_snoc; cbn.
      * intros q Hq. apply elem_of_union_l. auto.
      * by apply elem_of_union_r, elem_of_singleton.
  - rewrite find_drop. cbn [counted]. destruct (decide (p = _)) as [->|Hne]; [by rewrite decide_True|].
    by rewrite decide_False by congruence.
  - by rewrite touch_find.
Qed.

Lemma run_exact attempts : (size (failed_pairs attempts) <= TRACKED_KEYS_CAPACITY)%nat -> exact attempts (attempt_run attempts).
Proof.
  induction attempts as [|a attempts IH] using rev_ind; intros Hsize.
  - intros p. cbn. by rewrite (proj1 (lru_new_ok _)).
  - rewrite limiter_run_snoc. apply step_exact; [done|apply limiter_run_ok|]. apply IH. etrans; [|exact Hsize]. apply subseteq_size.
    rewrite failed_snoc. set_solver.
Qed.

Lemma whole_seconds_mono d d' : (d <= d')%N -> (default 0%N (whole_seconds d) <= default 0%N (whole_seconds d'))%N.
Proof.
  intros Hle. unfold whole_seconds. pose proof (N.div_mod d NANOS ltac:(done)) as Hd.
  pose proof (N.div_mod d' NANOS ltac:(done)) as Hd'. pose proof (N.mod_lt d NANOS ltac:(done)). pose proof (N.mod_lt d' NANOS ltac:(done)).
  assert (d / NANOS <= d' / NANOS)%N by by apply N.Div0.div_le_mono.
  destruct (N.eqb_spec d 0), (N.eqb_spec d' 0), (N.ltb_spec 0 (d mod NANOS)), (N.ltb_spec 0 (d' mod NANOS)); cbn; unfold NANOS in *; lia.
Qed.

(** A sign-in waits for the failures of its own address cohort against
    its own account since their last success, and for nothing else.  Whatever
    anyone else does, the wait is never longer than those failures have earned:
    three are free, then one second that doubles up to five minutes, and an hour
    without a failure forgives the streak.  While at most 10,000 pairs have
    failed at all, the wait is exactly that. *)
Theorem sign_in_wait_is_earned attempts address account now :
  let wait := (wait_at address account now (attempt_run attempts)).2 in
  let earned := whole_seconds (earned_wait (failures_of (cohort address, account) attempts) now) in
  (default 0%N wait <= default 0%N earned)%N
  /\ ((size (failed_pairs attempts) <= TRACKED_KEYS_CAPACITY)%nat -> wait = earned).
Proof.
  intros w earned. subst w earned. pose proof (limiter_run_ok attempts) as Hok. set (p := (cohort address, account)).
  assert ((wait_at address account now (attempt_run attempts)).2
          = whole_seconds (from_option (remaining now) 0%N (find_key p (lru_entries (entries (attempt_run attempts)))))) as Hw.
  { unfold wait_at, wait. destruct (lru_get_ok p (entries (attempt_run attempts))) as (_ & _ & <-). by destruct (lru_get _ _). }
  rewrite Hw. clear Hw. split.
  - apply whole_seconds_mono. destruct (find_key p _) as [e|] eqn:He; cbn; [|lia]. by apply recorded_wait, (ok_recorded _ _ Hok).
  - intros Hsize. pose proof (run_exact attempts Hsize p) as Hex. f_equal. destruct (find_key p _) as [e|] eqn:He; [|by rewrite Hex].
    destruct (ok_recorded _ _ Hok p e He) as (t & rest & Ht & Hl & Hb & _). rewrite Ht in Hex |- *. cbn. unfold remaining, duration_since, saturating_sub.
    by rewrite Hl, Hb, Hex.
Qed.
End limiter.

Lemma sign_in_wait_is_earned_witness :
  let ann := "ann" in let home := V4 7%N in
  let fail n := FailedAt home ann (from_secs n) in
  (wait_at home ann (from_secs 6%N) (attempt_run [fail 1%N; fail 2%N; fail 3%N; fail 4%N; fail 5%N])).2 = Some 1%N.
Proof.
  cbv zeta. rewrite (proj2 (sign_in_wait_is_earned [FailedAt (V4 7%N) "ann" (from_secs 1%N); FailedAt (V4 7%N) "ann" (from_secs 2%N);
    FailedAt (V4 7%N) "ann" (from_secs 3%N); FailedAt (V4 7%N) "ann" (from_secs 4%N); FailedAt (V4 7%N) "ann" (from_secs 5%N)] (V4 7%N) "ann" (from_secs 6%N))).
  - by vm_compute.
  - apply Nat.leb_le. by vm_compute.
Defined.

(** ** Registrations *)

Section registrations.
Context `{!LruCache ip_addr reg_window} (granted : N) (span : duration).

Definition register_run (uses : list (ip_addr * instant)) : window_limiter :=
  foldl (fun l u => (allow_at u.1 u.2 l).1) (window_limiter_new granted span) uses.

(** The window of one cohort, from its own uses alone. *)
Definition own_window (k : ip_addr) (uses : list (ip_addr * instant)) : option reg_window :=
  foldl (fun w u => if decide (cohort u.1 = k) then Some (use_window span granted u.2 (default (RegWindow u.2 0) w)).1 else w)
    None uses.

Definition cohorts_of (uses : list (ip_addr * instant)) : gset ip_addr := list_to_set ((fun u => cohort u.1) <$> uses).

Lemma own_snoc k uses u : own_window k (uses ++ [u])
  = if decide (cohort u.1 = k) then Some (use_window span granted u.2 (default (RegWindow u.2 0) (own_window k uses))).1 else own_window k uses.
Proof. unfold own_window. by rewrite foldl_app. Qed.
Lemma register_snoc uses u : register_run (uses ++ [u]) = (allow_at u.1 u.2 (register_run uses)).1.
Proof. unfold register_run. by rewrite foldl_app. Qed.
Lemma cohorts_snoc uses u : cohorts_of (uses ++ [u]) = cohorts_of uses ∪ {[cohort u.1]}.
Proof. unfold cohorts_of. rewrite fmap_app, list_to_set_app_L. cbn. by rewrite (right_id_L ∅ (∪)). Qed.

Lemma allow_entries address now l :
  let '(l', ok) := allow_at address now l in
  let r := use_window (window l) (allowance l) now (default (RegWindow now 0) (find_key (cohort address) (lru_entries (windows l)))) in
  lru_entries (windows l') = push_entry (lru_cap (windows l)) (cohort address) r.1 (lru_entries (windows l))
  /\ lru_cap (windows l') = lru_cap (windows l) /\ window l' = window l /\ allowance l' = allowance l /\ ok = r.2.
Proof.
  unfold allow_at.
  match goal with |- context [lru_get_or_insert_mut ?k ?d ?f ?c] => pose proof (lru_get_or_insert_mut_ok k d f c) as (He & Hc & Hr) end.
  destruct (lru_get_or_insert_mut _ _ _ _) as [c ok]. cbn in *. by split_and!.
Qed.

Lemma register_ok uses :
  (size (cohorts_of uses) <= TRACKED_KEYS_CAPACITY)%nat ->
  let l := register_run uses in
  lru_cap (windows l) = TRACKED_KEYS_CAPACITY /\ window l = span /\ allowance l = granted
  /\ NoDup (lru_entries (windows l)).*1 /\ (forall k, k ∈ (lru_entries (windows l)).*1 -> k ∈ cohorts_of uses)
  /\ forall k, find_key k (lru_entries (windows l)) = own_window k uses.
Proof.
  induction uses as [|u uses IH] using rev_ind; intros Hsize; cbn.
  { destruct (lru_new_ok (K := ip_addr) (V := reg_window) TRACKED_KEYS_CAPACITY) as [He Hc]. rewrite He.
    split_and!; [exact Hc|done|done|constructor|by intros k ?%not_elem_of_nil|done]. }
  rewrite cohorts_snoc in Hsize. destruct IH as (Hcap & Hw & Ha & Hnd & Hk & Hf); [etrans; [apply (subseteq_size _ (cohorts_of uses ∪ {[cohort u.1]})); set_solver|exact Hsize]|].
  rewrite register_snoc. pose proof (allow_entries u.1 u.2 (register_run uses)) as Hall.
  destruct (allow_at _ _ _) as [l' ok]. destruct Hall as (He & Hc & Hw' & Ha' & _). cbn. rewrite He, Hcap.
  split_and!; [congruence..|by apply push_nodup| |].
  - intros k Hin. rewrite cohorts_snoc. apply push_keys in Hin as [->|Hin]; [set_solver|]. apply elem_of_union_l. auto.
  - intros k. rewrite own_snoc, Hw, Ha. destruct (decide (cohort u.1 = k)) as [<-|Hne].
    + rewrite push_find_eq by apply capacity_positive. by rewrite Hf.
    + rewrite push_find_room; [by rewrite Hf|congruence|]. eapply room_left; [done| | |exact Hsize]; [|set_solver].
      intros q Hq. apply elem_of_union_l. auto.
Qed.

(** While no more cohorts than the table holds have registered, a registration
    is decided by the window of its own cohort. *)
Theorem registration_is_decided_by_own_window uses address now :
  (size (cohorts_of uses) <= TRACKED_KEYS_CAPACITY)%nat ->
  (allow_at address now (register_run uses)).2
  = (use_window span granted now (default (RegWindow now 0) (own_window (cohort address) uses))).2.
Proof.
  intros Hsize. destruct (register_ok uses Hsize) as (_ & Hw & Ha & _ & _ & Hf).
  pose proof (allow_entries address now (register_run uses)) as Hall. destruct (allow_at _ _ _) as [l' ok].
  destruct Hall as (_ & _ & _ & _ & ->). by rewrite Hw, Ha, Hf.
Qed.
End registrations.
