(* ===== verification/Tickets.v ===== *)
(** * One-use upgrade tickets ([src/src/auth/ws_tickets.rs])

    An authenticated HTTP request buys a ticket that opens one WebSocket within
    thirty seconds.  Only the digest of a ticket is kept, in a bounded table
    that never drops a live ticket: a full one refuses new tickets.
    [TicketSecrets] stands for base64 and SHA-256. *)

From S2P Require Import Prelude Refusal Lru.

Definition MAX_PENDING : nat := N.to_nat 10000.
Definition TICKET_TTL_SECONDS : N := 30.

Inductive auth_error :=
| InvalidInput (message : string) | RefusedByRoom (refused : refusal) | InvalidCredentials | InvalidPasskey
| EmailAlreadyExists | UserNotFound | InvalidToken | MissingToken | TokenExpired | RateLimited
| TooManyFailures (seconds : N) | InviteRequired | InviteNotFound | ServiceBusy | PreferencesSynchronizationFailed
| RegistrationDisabled | DatabaseError (detail : string) | WebAuthnError (detail : string) | NotConfigured.

(** [routes::database_error]; the text of the error is not modelled. *)
Definition database_error (e : sqlx_error) : auth_error := DatabaseError "".

Record claims := Claims {
  sub : string; claims_name : string; iss : string; aud : string; exp : N; auth_version : Z; sid : N }.

Record ticket := Ticket { ticket_claims : claims; deadline : instant }.

Class TicketSecrets := {
  digest : Type;
  digest_eq_dec :: EqDecision digest;
  sha256 : string -> digest;
  base64_encode : list Ascii.ascii -> string;
  base64_decode : string -> option (list Ascii.ascii);
  base64_round_trip bytes : base64_decode (base64_encode bytes) = Some bytes;
  base64_length bytes : length bytes = 32%nat -> String.length (base64_encode bytes) = 43%nat
}.

Section store.
Context `{TicketSecrets, !LruCache digest ticket}.

Abbreviation store := (lru (K := digest) (V := ticket)).

Definition valid_shape (token : string) : bool :=
  (String.length token =? 43)%nat
  && match base64_decode token with Some bytes => (length bytes =? 32)%nat | None => false end.

Definition store_new : store := lru_new MAX_PENDING.

Definition is_full (c : store) : bool := (length (lru_entries c) =? lru_cap c)%nat.

(** Pop every entry whose deadline has passed. *)
Definition retire (now : instant) (c : store) : store :=
  foldl (fun c k => (lru_pop k c).1) c
    (fst <$> filter (fun e : digest * ticket => (deadline e.2 <= now)%N) (lru_entries c)).

(** [random] is what the system's generator answers.  The token and how many
    seconds it lives. *)
Definition issue_at (random : option (list Ascii.ascii)) (who : claims) (now : instant) (epoch : N) : handler auth_error store (string * N) :=
  fun c =>
  let expires_in := N.min (saturating_sub (exp who) epoch) TICKET_TTL_SECONDS in
  if (expires_in =? 0)%N then (c, Err TokenExpired)
  else match random with
  | None => (c, Err ServiceBusy)
  | Some bytes =>
      let token := base64_encode bytes in
      let c := if is_full c then retire now c else c in
      if is_full c then (c, Err ServiceBusy)
      else (lru_put (sha256 token) (Ticket who (now + from_secs expires_in)) c, Ok (token, expires_in))
  end.

Definition take_at (token : string) (now : instant) (epoch : N) : handler auth_error store ticket := fun c =>
  if negb (valid_shape token) then (c, Err InvalidToken)
  else match lru_pop (sha256 token) c with
  | (c, None) => (c, Err InvalidToken)
  | (c, Some t) =>
      if ((deadline t <=? now) || (exp (ticket_claims t) <=? epoch))%N then (c, Err InvalidToken) else (c, Ok t)
  end.

(** [validated] is what [validate_current_claims] found in the database; the
    clocks are read again after it. *)
Definition redeem (token : string) (now : instant) (epoch : option N) (validated : result auth_error unit)
  (later : instant) (later_epoch : option N) : handler auth_error store claims := fun c =>
  match epoch with
  | None => (c, Err ServiceBusy)
  | Some epoch =>
      match take_at token now epoch c with
      | (c, Err e) => (c, Err e)
      | (c, Ok t) =>
          (c, match validated with
              | Err e => Err e
              | Ok _ =>
                  if (deadline t <=? later)%N then Err InvalidToken
                  else match later_epoch with
                  | None => Err ServiceBusy
                  | Some epoch => if (exp (ticket_claims t) <=? epoch)%N then Err InvalidToken else Ok (ticket_claims t)
                  end
              end)
      end
  end.

(** ** What a ticket is good for *)

Inductive event :=
| IssueAt (random : option (list Ascii.ascii)) (who : claims) (now : instant) (epoch : N)
| TakeAt (token : string) (now : instant) (epoch : N).

Definition event_time (e : event) : instant := match e with IssueAt _ _ now _ | TakeAt _ now _ => now end.

Definition store_step (c : store) (e : event) : store :=
  match e with
  | IssueAt random who now epoch => (issue_at random who now epoch c).1
  | TakeAt token now epoch => (take_at token now epoch c).1
  end.
Definition store_run (events : list event) : store := foldl store_step store_new events.

(** The ticket a digest stands for: the last one issued for it and not shown
    since, whatever else happened.  [c] is the store the event found. *)
Definition outstanding_step (d : digest) (s : store * option ticket) (e : event) : store * option ticket :=
  (store_step s.1 e,
   match e with
   | IssueAt random who now epoch =>
       match (issue_at random who now epoch s.1).2 with
       | Ok (token, seconds) => if decide (sha256 token = d) then Some (Ticket who (now + from_secs seconds)) else s.2
       | Err _ => s.2
       end
   | TakeAt token _ _ => if valid_shape token && bool_decide (sha256 token = d) then None else s.2
   end).
Definition outstanding (d : digest) (events : list event) : option ticket :=
  (foldl (outstanding_step d) (store_new, None) events).2.

(** Clocks do not run backwards. *)
Fixpoint ordered (last : instant) (events : list event) : Prop :=
  match events with [] => True | e :: events => (last <= event_time e)%N /\ ordered (event_time e) events end.

Definition last_time (events : list event) : instant := default 0%N (event_time <$> last events).

Lemma ordered_snoc t events e :
  ordered t (events ++ [e]) <-> ordered t events /\ (default t (event_time <$> last events) <= event_time e)%N.
Proof.
  revert t. induction events as [|e' events IH]; intros t; cbn [ordered app]; [by cbn; tauto|].
  rewrite IH, last_cons. destruct (last events); cbn; tauto.
Qed.

Lemma store_run_snoc events e : store_run (events ++ [e]) = store_step (store_run events) e.
Proof. unfold store_run. by rewrite foldl_app. Qed.

Lemma outstanding_snoc d events e :
  outstanding d (events ++ [e]) = (outstanding_step d (store_run events, outstanding d events) e).2.
Proof.
  assert (forall l s, (foldl (outstanding_step d) s l).1 = foldl store_step s.1 l) as Hfst.
  { induction l as [|x l IH]; intros s; [done|]. cbn. by rewrite IH. }
  unfold outstanding. rewrite foldl_app. cbn. unfold store_run. by rewrite (Hfst events (store_new, None)).
Qed.

Lemma pops_entries ks (c : store) :
  lru_cap (foldl (fun c k => (lru_pop k c).1) c ks) = lru_cap c
  /\ (forall d, find_key d (lru_entries (foldl (fun c k => (lru_pop k c).1) c ks))
               = if decide (d ∈ ks) then None else find_key d (lru_entries c))
  /\ (NoDup (lru_entries c).*1 -> NoDup (lru_entries (foldl (fun c k => (lru_pop k c).1) c ks)).*1)
  /\ (length (lru_entries (foldl (fun c k => (lru_pop k c).1) c ks)) <= length (lru_entries c))%nat.
Proof.
  revert c. induction ks as [|k ks IH]; intros c; cbn.
  { split_and!; [done| |done|done]. intros d. by rewrite decide_False by apply not_elem_of_nil. }
  destruct (lru_pop_ok k c) as (He & Hc & _). destruct (IH (lru_pop k c).1) as (IHc & IHf & IHn & IHl). split_and!.
  - congruence.
  - intros d. rewrite IHf, He, find_drop. destruct (decide (d ∈ ks)), (decide (d = k)), (decide (d ∈ k :: ks)); set_solver.
  - intros Hnd. apply IHn. rewrite He, drop_keys. by apply NoDup_filter.
  - etrans; [exact IHl|]. rewrite He. apply length_filter.
Qed.

Record store_ok (events : list event) (c : store) : Prop := {
  ok_cap : lru_cap c = MAX_PENDING;
  ok_nodup : NoDup (lru_entries c).*1;
  ok_len : (length (lru_entries c) <= MAX_PENDING)%nat;
  ok_held : forall d t, find_key d (lru_entries c) = Some t -> outstanding d events = Some t;
  ok_kept : forall d t, outstanding d events = Some t -> (last_time events < deadline t)%N -> find_key d (lru_entries c) = Some t
}.

(** Making room loses only what has expired. *)
Lemma retired now (c : store) :
  NoDup (lru_entries c).*1 -> let c1 := if is_full c then retire now c else c in
  lru_cap c1 = lru_cap c /\ NoDup (lru_entries c1).*1 /\ (length (lru_entries c1) <= length (lru_entries c))%nat
  /\ (forall d t, find_key d (lru_entries c1) = Some t -> find_key d (lru_entries c) = Some t)
  /\ (forall d t, find_key d (lru_entries c) = Some t -> (now < deadline t)%N -> find_key d (lru_entries c1) = Some t).
Proof.
  intros Hnd c1. unfold c1. destruct (is_full c); [|by split_and!]. unfold retire.
  destruct (pops_entries (fst <$> filter (fun e : digest * ticket => (deadline e.2 <= now)%N) (lru_entries c)) c) as (Hc & Hf & Hn & Hl).
  split_and!; [done|by apply Hn|done| |].
  - intros d t. rewrite Hf. by destruct (decide _).
  - intros d t Hd Hlive. rewrite Hf, decide_False; [done|]. intros Hin. apply list_elem_of_fmap in Hin as ([d' t'] & -> & [Hexp Hin]%list_elem_of_filter).
    apply (find_in _ _ _ Hnd) in Hin. cbn in *. rewrite Hd in Hin. injection Hin as <-. lia.
Qed.

Lemma last_snoc_time events e : last_time (events ++ [e]) = event_time e.
Proof. unfold last_time. by rewrite last_snoc. Qed.

(** An event that issues nothing and forgets only what has expired. *)
Lemma shrunk_ok events e c c1 :
  store_ok events c -> (last_time events <= event_time e)%N ->
  lru_cap c1 = lru_cap c -> NoDup (lru_entries c1).*1 -> (length (lru_entries c1) <= length (lru_entries c))%nat ->
  (forall d t, find_key d (lru_entries c1) = Some t -> find_key d (lru_entries c) = Some t) ->
  (forall d t, find_key d (lru_entries c) = Some t -> (event_time e < deadline t)%N -> find_key d (lru_entries c1) = Some t) ->
  (forall d, outstanding d (events ++ [e]) = outstanding d events) -> store_ok (events ++ [e]) c1.
Proof.
  intros [Hcap Hnd Hlen Hheld Hkept] Htime H1 H2 H3 H4 H5 H6. split; [congruence|done|lia| |].
  - intros d t Hd. rewrite H6. auto.
  - intros d t. rewrite H6, last_snoc_time. intros Hd Hlive. apply H5; [apply Hkept; [done|lia]|done].
Qed.

Lemma issue_ok events c random who now epoch :
  c = store_run events -> (last_time events <= now)%N -> store_ok events c ->
  store_ok (events ++ [IssueAt random who now epoch]) (issue_at random who now epoch c).1.
Proof.
  intros Hrun Htime Hok. pose proof Hok as [Hcap Hnd Hlen Hheld Hkept]. set (e := IssueAt random who now epoch).
  pose proof (shrunk_ok events e c) as Hsame.
  assert (forall d, outstanding d (events ++ [e])
    = match (issue_at random who now epoch c).2 with
      | Ok (token, seconds) => if decide (sha256 token = d) then Some (Ticket who (now + from_secs seconds)) else outstanding d events
      | Err _ => outstanding d events end) as Hos by (intros d; by rewrite outstanding_snoc, Hrun).
  unfold issue_at in *. set (seconds := N.min (saturating_sub (exp who) epoch) TICKET_TTL_SECONDS) in *.
  destruct (seconds =? 0)%N; [by apply Hsame|]. destruct random as [bytes|]; [|by apply Hsame].
  destruct (retired now c Hnd) as (R1 & R2 & R3 & R4 & R5). set (c1 := if is_full c then retire now c else c) in *.
  destruct (is_full c1) eqn:Hfull; [by apply Hsame|]. unfold is_full in Hfull. apply Nat.eqb_neq in Hfull.
  destruct (lru_put_ok (sha256 (base64_encode bytes)) (Ticket who (now + from_secs seconds)) c1) as [He Hc]. cbn [fst snd] in *.
  assert (0 < lru_cap c1)%nat as Hpos by (rewrite R1, Hcap; unfold MAX_PENDING; lia).
  assert (forall d, d <> sha256 (base64_encode bytes) ->
    find_key d (lru_entries (lru_put (sha256 (base64_encode bytes)) (Ticket who (now + from_secs seconds)) c1)) = find_key d (lru_entries c1)) as Hne.
  { intros d Hd. rewrite He. apply push_find_room; [done|]. eapply Nat.le_lt_trans; [apply length_filter|]. lia. }
  split.
  - congruence.
  - rewrite He. by apply push_nodup.
  - rewrite He. etrans; [apply push_length|]. lia.
  - intros d t. rewrite Hos. destruct (decide _) as [<-|Hd]; [rewrite He, push_find_eq by done; congruence|]. rewrite Hne by congruence. auto.
  - intros d t. rewrite Hos, last_snoc_time. cbn. destruct (decide _) as [<-|Hd]; [rewrite He, push_find_eq by done; congruence|].
    rewrite Hne by congruence. intros Ht Hlive. apply R5; [apply Hkept; [done|lia]|done].
Qed.

Lemma take_ok events c token now epoch :
  c = store_run events -> (last_time events <= now)%N -> store_ok events c ->
  store_ok (events ++ [TakeAt token now epoch]) (take_at token now epoch c).1.
Proof.
  intros Hrun Htime Hok. pose proof Hok as [Hcap Hnd Hlen Hheld Hkept].
  assert (forall d, outstanding d (events ++ [TakeAt token now epoch])
    = if valid_shape token && bool_decide (sha256 token = d) then None else outstanding d events) as Hos
    by (intros d; by rewrite outstanding_snoc).
  unfold take_at. destruct (valid_shape token); cbn [negb andb] in *; [|by eapply shrunk_ok].
  destruct (lru_pop_ok (sha256 token) c) as (He & Hc & _).
  assert (store_ok (events ++ [TakeAt token now epoch]) (lru_pop (sha256 token) c).1) as Hpop.
  { split; [congruence|rewrite He, drop_keys; by apply NoDup_filter| | |].
    - rewrite He. etrans; [apply length_filter|done].
    - intros d t. rewrite He, find_drop, Hos. destruct (decide (d = sha256 token)) as [|Hne]; [done|].
      rewrite bool_decide_false by congruence. auto.
    - intros d t. rewrite He, find_drop, Hos, last_snoc_time. destruct (decide (d = sha256 token)) as [->|Hne]; [by rewrite bool_decide_true|].
      rewrite bool_decide_false by congruence. cbn. intros Hd Hlive. apply Hkept; [done|lia]. }
  destruct (lru_pop (sha256 token) c) as [c' [t|]]; [by destruct (_ || _)|done].
Qed.

Lemma store_run_ok events : ordered 0 events -> store_ok events (store_run events).
Proof.
  induction events as [|e events IH] using rev_ind; intros Hord.
  - destruct (lru_new_ok (K := digest) (V := ticket) MAX_PENDING) as [He Hc]. unfold store_run, store_new. cbn.
    split; rewrite ?He; [done|constructor|cbn; lia|done|done].
  - apply ordered_snoc in Hord as [Hord Ht]. rewrite store_run_snoc. destruct e; [by apply issue_ok; auto|by apply take_ok; auto].
Qed.

Lemma issued_shape bytes who now epoch c token seconds :
  length bytes = 32%nat -> (issue_at (Some bytes) who now epoch c).2 = Ok (token, seconds) -> valid_shape token = true.
Proof.
  intros Hlen Hi. unfold issue_at in Hi. destruct (_ =? 0)%N; [done|]. destruct (is_full (if is_full c then retire now c else c)); [done|].
  injection Hi as <- _. unfold valid_shape. by rewrite base64_length, base64_round_trip, Hlen.
Qed.

(** C32: a ticket opens exactly one connection.  After any history of
    tickets issued and shown, showing a token succeeds if and only if it was
    issued, has not been shown since, is less than thirty seconds old and its
    session token has not expired; it then stands for the account it was issued
    to.  Every token that is issued can be shown.  The table never holds more
    than 10,000 tickets, and still never drops one that is good. *)
Theorem ticket_opens_one_connection events token now epoch :
  ordered 0 (events ++ [TakeAt token now epoch]) ->
  (take_at token now epoch (store_run events)).2
  = match outstanding (sha256 token) events with
    | Some t => if valid_shape token && (now <? deadline t)%N && (epoch <? exp (ticket_claims t))%N then Ok t else Err InvalidToken
    | None => Err InvalidToken
    end
  /\ (forall bytes who seconds, length bytes = 32%nat ->
        (issue_at (Some bytes) who now epoch (store_run events)).2 = Ok (token, seconds) -> valid_shape token = true)
  /\ (length (lru_entries (store_run events)) <= MAX_PENDING)%nat.
Proof.
  intros [Hord Htime]%ordered_snoc. pose proof (store_run_ok events Hord) as Hok.
  split; [|split; [intros bytes who seconds Hlen Hi; by eapply issued_shape|apply Hok]].
  unfold take_at. destruct (lru_pop_ok (sha256 token) (store_run events)) as (_ & _ & Hpop).
  destruct (valid_shape token); cbn [negb andb]; [|by destruct (outstanding _ _)].
  destruct (lru_pop (sha256 token) (store_run events)) as [c o]. cbn [snd] in Hpop. subst o.
  destruct (find_key _ _) as [t|] eqn:Hf.
  - rewrite (ok_held _ _ Hok _ _ Hf). rewrite !N.ltb_antisym. by destruct (deadline t <=? now)%N, (_ <=? epoch)%N.
  - destruct (outstanding _ _) as [t|] eqn:Ho; [|done]. destruct (N.ltb_spec now (deadline t)) as [Hlive|]; [|done]. exfalso.
    enough (find_key (sha256 token) (lru_entries (store_run events)) = Some t) by congruence.
    apply (ok_kept _ _ Hok); [done|]. unfold last_time in *. cbn in Htime. lia.
Qed.
End store.

(** Text for bytes, padded: enough to show that the interface can be met. *)
Definition pad : string := "===========".
Definition unpad (s : string) : option (list Ascii.ascii) :=
  let l := String.list_ascii_of_string s in
  if (11 <=? length l)%nat then Some (take (length l - 11) l) else None.

Lemma string_of_length l : String.length (String.string_of_list_ascii l) = length l.
Proof. induction l as [|a l IH]; [done|]. cbn. by rewrite IH. Qed.

#[export] Instance plain_secrets : TicketSecrets.
Proof.
  refine {| digest := string; sha256 := fun s => s;
            base64_encode := fun bytes => String.string_of_list_ascii (bytes ++ String.list_ascii_of_string pad);
            base64_decode := unpad |}.
  - intros bytes. unfold unpad. rewrite String.list_ascii_of_string_of_list_ascii, length_app.
    change (length (String.list_ascii_of_string pad)) with 11%nat. rewrite (proj2 (Nat.leb_le _ _)) by lia.
    rewrite take_app_le by lia. by rewrite take_ge by lia.
  - intros bytes Hlen. by rewrite string_of_length, length_app, Hlen.
Defined.

Definition ann_claims : claims := Claims "ann" "Ann" "simplestchat" "simplestchat" 1900 0 1.
Definition sample_bytes : list Ascii.ascii := repeat Ascii.zero 32.
Definition sample_token : string := base64_encode sample_bytes.

Lemma ticket_opens_one_connection_witness :
  let issued := IssueAt (Some sample_bytes) ann_claims (from_secs 10) 1000 in
  let shown := TakeAt sample_token (from_secs 12) 1002 in
  (take_at sample_token (from_secs 12) 1002 (store_run [issued])).2 = Ok (Ticket ann_claims (from_secs 40))
  /\ (take_at sample_token (from_secs 12) 1002 (store_run [issued; shown])).2 = Err InvalidToken.
Proof.
  cbv zeta. split.
  - rewrite (proj1 (ticket_opens_one_connection [IssueAt (Some sample_bytes) ann_claims (from_secs 10) 1000] sample_token (from_secs 12) 1002
               ltac:(repeat split; vm_compute; congruence))). vm_compute. reflexivity.
  - rewrite (proj1 (ticket_opens_one_connection [IssueAt (Some sample_bytes) ann_claims (from_secs 10) 1000;
               TakeAt sample_token (from_secs 12) 1002] sample_token (from_secs 12) 1002 ltac:(repeat split; vm_compute; congruence))). vm_compute. reflexivity.
Defined.
