(* ===== verification/Bandwidth.v ===== *)
(** * Bandwidth tiers of one connection ([src/src/signaling/connection_bandwidth.rs])

    Bandwidth estimates are coalesced into tiers and a changed tier is written
    to the connection's consumers at most once per interval, until a write
    succeeds. *)

From S2P Require Import Prelude.

Definition LAYER_UPDATE_INTERVAL : duration := from_secs 2.

Record tier_update := TierUpdate { desired : option N; applied : option N; next_attempt_at : instant }.
#[export] Instance eta_tier_update : Eta tier_update := fun u => TierUpdate (desired u) (applied u) (next_attempt_at u).

Definition update_new (now : instant) : tier_update := TierUpdate None None (now + LAYER_UPDATE_INTERVAL).

Definition tier_of (bitrate : N) : N := if (bitrate <? 200000)%N then 0 else if (bitrate <? 600000)%N then 1 else 2.
Definition observe (bitrate : N) (u : tier_update) : tier_update := u <| desired := Some (tier_of bitrate) |>.

Definition update_deadline (u : tier_update) : option instant :=
  match desired u with
  | Some tier => if decide (Some tier = applied u) then None else Some (next_attempt_at u)
  | None => None
  end.

Definition begin_attempt (now : instant) (u : tier_update) : tier_update * option N :=
  match update_deadline u with
  | None => (u, None)
  | Some deadline =>
      if (now <? deadline)%N then (u, None)
      else (u <| next_attempt_at := (now + LAYER_UPDATE_INTERVAL)%N |>, desired u)
  end.

Definition complete_attempt (tier : N) (succeeded : bool) (u : tier_update) : tier_update :=
  u <| applied := if succeeded then Some tier else None |>.

(** ** Runs *)

Inductive tier_event :=
| Estimate (bitrate : N)
| Due (now : instant)
| Completed (tier : N) (succeeded : bool).

(** The state, and the writes that were started with their times, last first. *)
Definition tier_step (s : tier_update * list (instant * N)) (e : tier_event) : tier_update * list (instant * N) :=
  match e with
  | Estimate bitrate => (observe bitrate s.1, s.2)
  | Due now =>
      let '(u, attempt) := begin_attempt now s.1 in
      (u, match attempt with Some tier => (now, tier) :: s.2 | None => s.2 end)
  | Completed tier ok => (complete_attempt tier ok s.1, s.2)
  end.
Definition tier_run (start : instant) (events : list tier_event) : tier_update * list (instant * N) :=
  foldl tier_step (update_new start, []) events.

(** The last estimate. *)
Definition estimated (events : list tier_event) : option N :=
  foldl (fun o e => match e with Estimate bitrate => Some (tier_of bitrate) | _ => o end) None events.

(** Attempts, last first, each an interval after the one before. *)
Fixpoint spread (attempts : list (instant * N)) : Prop :=
  match attempts with
  | (t, _) :: (((t', _) :: _) as rest) => (t' + LAYER_UPDATE_INTERVAL <= t)%N /\ spread rest
  | _ => True
  end.

Definition attempts_ok (start : instant) (s : tier_update * list (instant * N)) : Prop :=
  (spread s.2 /\ Forall (fun a => start + LAYER_UPDATE_INTERVAL <= a.1)%N s.2) /\ next_attempt_at s.1 = (match s.2 with (t, _) :: _ => t | [] => start end + LAYER_UPDATE_INTERVAL)%N.

Lemma begin_cases now u :
  (exists tier, begin_attempt now u = (u <| next_attempt_at := (now + LAYER_UPDATE_INTERVAL)%N |>, Some tier)
     /\ desired u = Some tier /\ applied u <> Some tier /\ (next_attempt_at u <= now)%N)
  \/ begin_attempt now u = (u, None) /\ forall tier, desired u = Some tier -> applied u <> Some tier -> (now < next_attempt_at u)%N.
Proof.
  unfold begin_attempt, update_deadline. destruct (desired u) as [tier|] eqn:Hd; [|right; by split].
  destruct (decide _) as [Ha|Ha]; [right; split; [done|by intros ? [= <-] []]|].
  destruct (N.ltb_spec now (next_attempt_at u)) as [Hlt|Hle]; [right; by split|].
  left. exists tier. split_and!; [done|done|congruence|done].
Qed.

Lemma step_attempts start s e : attempts_ok start s -> attempts_ok start (tier_step s e).
Proof.
  intros [[Hs Hf] Hn]. destruct e as [bitrate|now|tier ok]; [done| |done]. cbn.
  destruct (begin_cases now s.1) as [(tier & -> & _ & _ & Hle)|[-> _]]; [|done]. split; [|done]. cbn.
  destruct (s.2) as [|[t tier'] rest]; [split; [done|repeat constructor; cbn; lia]|].
  split; [split; [lia|done]|]. constructor; [|done]. apply Forall_cons in Hf as [Hf _]. cbn in *. lia.
Qed.

Lemma run_attempts start events : attempts_ok start (tier_run start events).
Proof.
  induction events as [|e events IH] using rev_ind; [repeat split; constructor|].
  unfold tier_run in *. rewrite foldl_app. by apply step_attempts.
Qed.

Lemma run_desired start events : desired (tier_run start events).1 = estimated events.
Proof.
  induction events as [|e events IH] using rev_ind; [done|].
  unfold tier_run, estimated in *. rewrite !foldl_app. cbn. destruct e as [bitrate|now|tier ok]; cbn; [done| |done].
  destruct (begin_cases now (foldl tier_step (update_new start, []) events).1) as [(tier & -> & _)|[-> _]]; done.
Qed.

(** Bandwidth changes are never lost and never hurried.  Writes are at
    least two seconds apart, and none comes in the first two seconds.  Whenever
    the last estimate is not what the consumers are known to have, also after a
    failed write, the connection has a deadline at most two seconds after the last
    write or the start, and what it then writes is the tier of the last
    estimate; when that succeeds, nothing is left to do. *)
Theorem bandwidth_changes_are_applied start events :
  let '(u, attempts) := tier_run start events in
  let base := match attempts with (t, _) :: _ => t | [] => start end in
  spread attempts /\ Forall (fun a => start + LAYER_UPDATE_INTERVAL <= a.1)%N attempts
  /\ match estimated events with
     | None => update_deadline u = None
     | Some tier =>
         (applied u = Some tier /\ update_deadline u = None)
         \/ (update_deadline u = Some (base + LAYER_UPDATE_INTERVAL)%N
             /\ forall now, (base + LAYER_UPDATE_INTERVAL <= now)%N ->
                exists u', begin_attempt now u = (u', Some tier)
                  /\ update_deadline (complete_attempt tier true u') = None
                  /\ update_deadline (complete_attempt tier false u') = Some (now + LAYER_UPDATE_INTERVAL)%N)
     end.
Proof.
  pose proof (run_desired start events) as Hd. destruct (run_attempts start events) as [[Hs Hf] Hn].
  destruct (tier_run start events) as [u attempts]. cbn [fst snd] in *. split; [done|]. split; [done|]. rewrite <-Hd.
  assert (update_deadline u = match desired u with
            | Some tier => if decide (Some tier = applied u) then None else Some (next_attempt_at u) | None => None end) as -> by done.
  destruct (desired u) as [tier|] eqn:Hdes; [|done].
  destruct (decide (Some tier = applied u)) as [Ha|Ha]; [by left|]. right. rewrite Hn. split; [done|]. intros now Hnow.
  destruct (begin_cases now u) as [(tier' & -> & Hd' & _ & _)|[_ Hlate]].
  - rewrite Hdes in Hd'. injection Hd' as <-. eexists. split; [done|]. unfold update_deadline. cbn. rewrite Hdes. by rewrite decide_True.
  - rewrite Hn in Hlate. exfalso. assert (applied u <> Some tier) by congruence. specialize (Hlate tier Hdes H). lia.
Qed.
