(* ===== verification/Workers.v ===== *)
(** * The pool of media workers ([src/src/media/worker_manager.rs])

    Which worker a router is created on: the least loaded of those that are
    alive and listening, and a saturated one only when all are.  A
    [RouterLoadReservation] counts against its worker while it lives; it is
    owned by a registered router ([None]) or by the operation that is still
    creating or removing one.

    Workers, listeners, routers and pipes are native objects with identifiers
    of their own; [closed] is what their [closed()] answers. *)

From S2P Require Import Prelude.

Inductive media_error :=
| WorkerError (message : string) | RouterError (message : string) | TransportError (message : string)
| ProducerError (message : string) | ConsumerError (message : string) | RoomNotFound (room : string)
| ParticipantNotFound (participant : string) | ResourceNotFound (message : string) | InvalidState (message : string)
| ConfigurationError (message : string) | MediasoupError (detail : string) | OtherMediaError (detail : string).

(** ** Selection *)

Record worker_load := WorkerLoad { consumers : N; router_count : N }.

(** The derived order: consumers first, then routers. *)
Definition load_ltb (a b : worker_load) : bool :=
  ((consumers a <? consumers b) || ((consumers a =? consumers b) && (router_count a <? router_count b)))%N.

(** [min_by_key] keeps the first of equal elements. *)
Fixpoint select_from (i : nat) (best : option (nat * worker_load)) (loads : list (option worker_load))
  : option (nat * worker_load) :=
  match loads with
  | [] => best
  | None :: loads => select_from (S i) best loads
  | Some l :: loads =>
      select_from (S i) (match best with
                         | Some (j, b) => if load_ltb l b then Some (i, l) else Some (j, b)
                         | None => Some (i, l)
                         end) loads
  end.
Definition select_worker_by_load (loads : list (option worker_load)) : result media_error (nat * worker_load) :=
  ok_or (select_from 0 None loads) (WorkerError "No live media workers available").

Definition worker_has_capacity (worker_closed : bool) (server_closed : option bool) : bool :=
  negb worker_closed && bool_decide (server_closed = Some false).

(** ** The pool *)

Record pool_state := Pool {
  workers : list N;
  servers : gmap N N;
  load : gmap N N;
  counts : gmap N N;
  threads : gmap N nat;
  saturated : gset N;
  closed : gset N;
  reservations : gmap N (N * option N);
  next_id : N
}.
#[export] Instance eta_pool_state : Eta pool_state := fun p =>
  Pool (workers p) (servers p) (load p) (counts p) (threads p) (saturated p) (closed p) (reservations p) (next_id p).

Definition is_closed (p : pool_state) (id : N) : bool := bool_decide (id ∈ closed p).

Definition candidate_load (p : pool_state) (skip_saturated : bool) (worker : N) : option worker_load :=
  if negb (worker_has_capacity (is_closed p worker) (is_closed p <$> servers p !! worker))
     || (skip_saturated && bool_decide (worker ∈ saturated p))
  then None
  else n ← counts p !! worker; m ← load p !! worker; Some (WorkerLoad n m).
Definition candidates (p : pool_state) (skip_saturated : bool) : list (option worker_load) :=
  candidate_load p skip_saturated <$> workers p.

(** The worker and the reservation, which the operation [me] owns. *)
Definition reserve_worker (me : N) : handler media_error pool_state (N * N) := fun p =>
  match (match select_worker_by_load (candidates p true) with
         | Ok best => Ok best
         | Err _ => select_worker_by_load (candidates p false)
         end) with
  | Err e => (p, Err e)
  | Ok (i, best) =>
      match workers p !! i with
      | None => (p, Err (WorkerError "index out of range"))
      | Some worker =>
          if (router_count best =? USIZE_MAX)%N then (p, Err (WorkerError "Worker router reservation count exhausted"))
          else
            let rid := next_id p in
            (p <| load ::= <[worker := (router_count best + 1)%N]> |>
               <| reservations ::= <[rid := (worker, Some me)]> |> <| next_id ::= N.succ |>, Ok (worker, rid))
      end
  end.

(** [Drop for RouterLoadReservation]. *)
Definition drop_reservation (p : pool_state) (rid : N) : pool_state :=
  match reservations p !! rid with
  | Some (worker, _) =>
      p <| reservations ::= delete rid |> <| load ::= alter (fun n => saturating_sub n 1) worker |>
  | None => p
  end.

(** What an operation still owns is dropped when it ends. *)
Definition owned (me : N) (p : pool_state) : list N :=
  fst <$> map_to_list (filter (fun x : N * (N * option N) => x.2.2 = Some me) (reservations p)).
Definition drop_owned (me : N) (p : pool_state) : pool_state := foldl drop_reservation p (owned me p).

(** A reservation changes hands. *)
Definition give (owner : option N) (p : pool_state) (rid : N) : pool_state :=
  p <| reservations ::= alter (fun r => (r.1, owner)) rid |>.

Definition set_worker_saturated (worker : N) (b : bool) (p : pool_state) : pool_state :=
  p <| saturated ::= fun s => if b then {[worker]} ∪ s else s ∖ {[worker]} |>.
Definition worker_saturated (worker : N) (p : pool_state) : bool := bool_decide (worker ∈ saturated p).

Definition get_webrtc_server (worker : N) (p : pool_state) : result media_error N :=
  match servers p !! worker with
  | Some server => if is_closed p server then Err (WorkerError "No open WebRtcServer") else Ok server
  | None => Err (WorkerError "No open WebRtcServer")
  end.

Definition live_worker_count (p : pool_state) : nat :=
  length (filter (fun w => worker_has_capacity (is_closed p w) (is_closed p <$> servers p !! w) = true) (workers p)).

(** The swap that installs a replacement with its listener in slot [i]; dropping
    the old worker closes it. *)
Definition install_replacement (i : nat) (dead : N) (p : pool_state) : pool_state :=
  let replacement := next_id p in
  let server := N.succ (next_id p) in
  p <| workers ::= <[i := replacement]> |>
    <| servers ::= fun s => <[replacement := server]> (delete dead s) |>
    <| load ::= fun l => <[replacement := 0%N]> (delete dead l) |>
    <| counts ::= fun c => <[replacement := 0%N]> (delete dead c) |>
    <| threads ::= fun t => <[replacement := i]> (delete dead t) |>
    <| saturated ::= fun s => s ∖ {[dead]} |>
    <| closed ::= fun c => {[dead]} ∪ c |>
    <| next_id := N.succ server |>.

(** One turn of the loop of [WorkerManager::new], whose native calls succeed. *)
Definition start_worker (p : pool_state) (i : nat) : pool_state :=
  let worker := next_id p in
  let server := N.succ (next_id p) in
  p <| threads ::= <[worker := i]> |>
    <| servers ::= <[worker := server]> |>
    <| load ::= <[worker := 0%N]> |>
    <| counts ::= <[worker := 0%N]> |>
    <| workers ::= fun ws => ws ++ [worker] |>
    <| next_id := N.succ server |>.
Definition pool_new (num_workers : nat) : pool_state :=
  foldl start_worker (Pool [] ∅ ∅ ∅ ∅ ∅ ∅ ∅ 0) (seq 0 num_workers).

Definition clear_pool (p : pool_state) : pool_state :=
  p <| servers := ∅ |> <| workers := [] |> <| load := ∅ |> <| counts := ∅ |> <| threads := ∅ |> <| saturated := ∅ |>
    <| closed ::= fun c => list_to_set (workers p) ∪ c |>.

(** [checked_worker_port] of [src/src/media/config.rs]. *)
Definition MAX_MEDIA_WORKERS : nat := 64.
Definition worker_port (base : N) (count index : nat) : option N :=
  if negb ((1 <=? count)%nat && (count <=? MAX_MEDIA_WORKERS)%nat) then None
  else if (count <=? index)%nat then None
  else let port := (base + N.of_nat index)%N in if (port <=? 65535)%N then Some port else None.

(** ** The choice of a worker *)

Lemma load_ltb_spec a b :
  load_ltb a b = true <-> (consumers a < consumers b \/ consumers a = consumers b /\ router_count a < router_count b)%N.
Proof.
  unfold load_ltb. rewrite orb_true_iff, andb_true_iff, !N.ltb_lt, N.eqb_eq. done.
Qed.
Lemma load_ltb_false a b :
  load_ltb a b = false <-> (consumers b < consumers a \/ consumers a = consumers b /\ router_count b <= router_count a)%N.
Proof. rewrite <-not_true_iff_false, load_ltb_spec. lia. Qed.

(** The first of the least loaded. *)
Definition first_least (loads : list (option worker_load)) (best : option (nat * worker_load)) : Prop :=
  match best with
  | Some (i, l) => loads !! i = Some (Some l)
      /\ forall j l', loads !! j = Some (Some l') -> load_ltb l' l = false /\ (load_ltb l l' = true \/ (i <= j)%nat)
  | None => forall j l', loads !! j <> Some (Some l')
  end.

Lemma first_least_snoc loads best o :
  first_least loads best ->
  first_least (loads ++ [o])
    match o with
    | None => best
    | Some l => match best with
                | Some (j, b) => if load_ltb l b then Some (length loads, l) else Some (j, b)
                | None => Some (length loads, l)
                end
    end.
Proof.
  intros Hbest.
  assert (forall j l', (loads ++ [o]) !! j = Some (Some l') -> loads !! j = Some (Some l') \/ j = length loads /\ o = Some l') as Hin.
  { intros j l' [Hj|[Hj Hl]]%lookup_app_Some; [by left|]. right. apply list_lookup_singleton_Some in Hl as [Hz ->]. split; [lia|done]. }
  assert (forall l', (loads ++ [Some l']) !! length loads = Some (Some l')) as Hlast
    by (intros l'; rewrite lookup_app_r, Nat.sub_diag by lia; done).
  destruct o as [l|], best as [[i b]|]; cbn in Hbest |- *.
  - destruct Hbest as [Hi Hmin]. pose proof (lookup_lt_Some _ _ _ Hi) as Hlt. destruct (load_ltb l b) eqn:Hlb; cbn.
    + split; [apply Hlast|]. intros j l' Hj. apply Hin in Hj as [Hj|[-> [= <-]]].
      * destruct (Hmin j l' Hj) as [Hm _]. rewrite load_ltb_spec in Hlb |- *. rewrite load_ltb_false in Hm |- *. lia.
      * rewrite load_ltb_false. lia.
    + split; [by apply lookup_app_l_Some|]. intros j l' Hj. apply Hin in Hj as [Hj|[-> [= <-]]]; [by apply Hmin|]. split; [done|right; lia].
  - split; [apply Hlast|]. intros j l' Hj. apply Hin in Hj as [Hj|[-> [= <-]]]; [by destruct (Hbest j l')|]. rewrite load_ltb_false. lia.
  - destruct Hbest as [Hi Hmin]. split; [by apply lookup_app_l_Some|]. intros j l' Hj. apply Hin in Hj as [Hj|[_ [=]]]. by apply Hmin.
  - intros j l' Hj. apply Hin in Hj as [Hj|[_ [=]]]. by apply (Hbest j l').
Qed.

Lemma select_from_spec loads rest best :
  first_least loads best -> first_least (loads ++ rest) (select_from (length loads) best rest).
Proof.
  revert loads best. induction rest as [|o rest IH]; intros loads best Hb; [by rewrite app_nil_r|].
  rewrite cons_middle, app_assoc. pose proof (first_least_snoc loads best o Hb) as Hs.
  specialize (IH _ _ Hs). rewrite length_app, Nat.add_comm in IH. cbn in IH |- *. by destruct o.
Qed.

Lemma select_spec loads : first_least loads (select_from 0 None loads).
Proof. apply (select_from_spec [] loads None). by intros j l' ?. Qed.

Lemma candidate_unsaturated p w l :
  candidate_load p true w = Some l <-> candidate_load p false w = Some l /\ w ∉ saturated p.
Proof.
  unfold candidate_load. rewrite andb_false_l, orb_false_r, andb_true_l.
  destruct (worker_has_capacity _ _); cbn [negb orb]; [|naive_solver]. case_bool_decide; naive_solver.
Qed.

Lemma selected p skip i l :
  select_worker_by_load (candidates p skip) = Ok (i, l) ->
  exists w, workers p !! i = Some w /\ candidate_load p skip w = Some l
    /\ forall w' l', w' ∈ workers p -> candidate_load p skip w' = Some l' -> load_ltb l' l = false.
Proof.
  unfold select_worker_by_load, ok_or. pose proof (select_spec (candidates p skip)) as Hs.
  destruct (select_from _ _ _) as [[j b]|]; [|done]. intros [= -> ->]. destruct Hs as [Hi Hmin].
  unfold candidates in Hi. rewrite list_lookup_fmap, fmap_Some in Hi. destruct Hi as (w & Hw & Hl). exists w. split_and!; [done..|].
  intros w' l' [k Hk]%list_elem_of_lookup Hl'. apply (Hmin k l'). unfold candidates. by rewrite list_lookup_fmap, Hk; cbn; rewrite Hl'.
Qed.

Lemma none_selected p skip e w :
  select_worker_by_load (candidates p skip) = Err e -> w ∈ workers p -> candidate_load p skip w = None.
Proof.
  unfold select_worker_by_load, ok_or. pose proof (select_spec (candidates p skip)) as Hs.
  destruct (select_from _ _ _) as [[j b]|]; [done|]. intros _ [k Hk]%list_elem_of_lookup.
  destruct (candidate_load p skip w) as [l|] eqn:Hl; [|done]. destruct (Hs k l). unfold candidates. by rewrite list_lookup_fmap, Hk; cbn; rewrite Hl.
Qed.

(** A router goes to a worker that is alive and listening, and no
    eligible worker has fewer consumers, or as many consumers and fewer
    routers; a saturated worker is taken only when every eligible worker is
    saturated.  The reservation is counted at once.  Only when no worker is
    eligible, or the chosen one's count is at the limit of its type, is nothing
    reserved. *)
Theorem router_goes_to_least_loaded_worker p me :
  match reserve_worker me p with
  | (p', Ok (w, rid)) =>
      exists l, w ∈ workers p /\ candidate_load p false w = Some l
      /\ (w ∈ saturated p -> forall w' l', w' ∈ workers p -> candidate_load p false w' = Some l' -> w' ∈ saturated p)
      /\ (forall w' l', w' ∈ workers p -> candidate_load p false w' = Some l' ->
            load_ltb l' l = false \/ w' ∈ saturated p /\ w ∉ saturated p)
      /\ load p' !! w = Some (router_count l + 1)%N /\ reservations p' !! rid = Some (w, Some me)
  | (p', Err _) =>
      p' = p /\ ((forall w, w ∈ workers p -> candidate_load p false w = None)
                 \/ exists w l, w ∈ workers p /\ candidate_load p false w = Some l /\ router_count l = USIZE_MAX)
  end.
Proof.
  unfold reserve_worker. destruct (select_worker_by_load (candidates p true)) as [[i l]|e1] eqn:Ht.
  - destruct (selected _ _ _ _ Ht) as (w & Hw & Hl & Hmin). rewrite Hw. apply candidate_unsaturated in Hl as [Hl Hns].
    pose proof (list_elem_of_lookup_2 _ _ _ Hw) as Hin. destruct (N.eqb_spec (router_count l) USIZE_MAX) as [Hx|Hx]; [by eauto 10|].
    exists l. cbn. rewrite !lookup_insert_eq. split_and!; [done|done|by intros ?%Hns| |done|done]. intros w' l' Hin' Hl'.
    destruct (decide (w' ∈ saturated p)) as [Hs|Hs]; [by right|]. left. eapply Hmin; [done|]. by apply candidate_unsaturated.
  - destruct (select_worker_by_load (candidates p false)) as [[i l]|e2] eqn:Hf; [|split; [done|left; intros w; by eapply none_selected]].
    destruct (selected _ _ _ _ Hf) as (w & Hw & Hl & Hmin). rewrite Hw. pose proof (list_elem_of_lookup_2 _ _ _ Hw) as Hin.
    destruct (N.eqb_spec (router_count l) USIZE_MAX) as [Hx|Hx]; [by eauto 10|].
    exists l. cbn. rewrite !lookup_insert_eq. split_and!; [done|done| |eauto|done|done]. intros _ w' l' Hin' Hl'.
    apply dec_stable. intros Hs. pose proof (none_selected _ _ _ _ Ht Hin') as Hnone.
    assert (candidate_load p true w' = Some l') by by apply candidate_unsaturated. congruence.
Qed.

(** ** Accounting *)

(** Live reservations on a worker. *)
Definition on_worker (w : N) (x : N * (N * option N)) : Prop := x.2.1 = w.
#[export] Instance on_worker_dec w x : Decision (on_worker w x) := decide (_ = _).
Definition reserved (w : N) (rs : gmap N (N * option N)) : N := N.of_nat (size (filter (on_worker w) rs)).

Definition owned_by (owner : option N) (rs : gmap N (N * option N)) : gset N := dom (filter (fun x => x.2.2 = owner) rs).
Lemma elem_of_owned owner rs rid : rid ∈ owned_by owner rs <-> exists w, rs !! rid = Some (w, owner).
Proof.
  unfold owned_by. rewrite elem_of_dom. split.
  - intros [[w o] [Hr Ho]%map_lookup_filter_Some]. cbn in Ho. subst. eauto.
  - intros [w Hr]. exists (w, owner). by apply map_lookup_filter_Some.
Qed.

Lemma reserved_insert w rs rid w' o :
  rs !! rid = None -> reserved w (<[rid := (w', o)]> rs) = (reserved w rs + if decide (w' = w) then 1 else 0)%N.
Proof.
  intros Hn. unfold reserved. rewrite map_filter_insert. unfold on_worker at 1. cbn. destruct (decide (w' = w)) as [->|Hne].
  - rewrite map_size_insert_None; [lia|]. apply map_lookup_filter_None. by left.
  - rewrite map_filter_delete, delete_id; [lia|]. apply map_lookup_filter_None. by left.
Qed.

Lemma reserved_delete w rs rid w' o :
  rs !! rid = Some (w', o) -> reserved w rs = (reserved w (delete rid rs) + if decide (w' = w) then 1 else 0)%N.
Proof.
  intros Hr. rewrite <-(insert_delete_id rs rid (w', o) Hr) at 1. rewrite reserved_insert; [done|]. by rewrite lookup_delete_eq.
Qed.

Lemma reserved_alter w rs rid owner : reserved w (alter (fun r => (r.1, owner)) rid rs) = reserved w rs.
Proof.
  destruct (rs !! rid) as [[w' o]|] eqn:Hr; [|by rewrite alter_id by congruence].
  rewrite (reserved_delete w rs rid w' o Hr), (reserved_delete w _ rid w' owner).
  - by rewrite delete_alter_eq.
  - by rewrite lookup_alter_eq, Hr.
Qed.

(** Every count is the number of reservations on its worker. *)
Definition load_exact (p : pool_state) : Prop := forall w n, load p !! w = Some n -> n = reserved w (reservations p).

(** The workers of the pool are the counted ones, and identifiers are issued
    before they are used. *)
Record pool_ok (p : pool_state) : Prop := {
  pool_exact : load_exact p;
  pool_workers : list_to_set (workers p) = dom (load p);
  pool_nodup : NoDup (workers p);
  pool_fresh : forall rid w o, reservations p !! rid = Some (w, o) -> (rid < next_id p /\ w < next_id p)%N;
  pool_issued : forall w, w ∈ workers p -> (w < next_id p)%N
}.

Lemma candidate_count p skip w l : candidate_load p skip w = Some l -> load p !! w = Some (router_count l).
Proof.
  unfold candidate_load. destruct (_ || _); [done|]. intros Hl. apply bind_Some in Hl as (n & _ & Hl).
  apply bind_Some in Hl as (m & Hm & [= <-]). done.
Qed.

Lemma reserve_cases me p :
  (exists w n, reserve_worker me p =
     (p <| load ::= <[w := (n + 1)%N]> |> <| reservations ::= <[next_id p := (w, Some me)]> |> <| next_id ::= N.succ |>,
      Ok (w, next_id p)) /\ w ∈ workers p /\ load p !! w = Some n)
  \/ exists e, reserve_worker me p = (p, Err e).
Proof.
  unfold reserve_worker.
  destruct (match select_worker_by_load (candidates p true) with Ok best => Ok best | Err _ => _ end) as [[i l]|e] eqn:Hs; [|by eauto].
  assert (exists w skip, workers p !! i = Some w /\ candidate_load p skip w = Some l) as (w & skip & Hw & Hl).
  { destruct (select_worker_by_load (candidates p true)) as [best|e1] eqn:Ht.
    - injection Hs as ->. destruct (selected _ _ _ _ Ht) as (w & ? & ? & _). eauto.
    - destruct (selected _ _ _ _ Hs) as (w & ? & ? & _). eauto. }
  rewrite Hw. destruct (_ =? _)%N; [by eauto|]. left. exists w, (router_count l).
  split_and!; [done|by eapply list_elem_of_lookup_2|by eapply candidate_count].
Qed.

Lemma pool_unused p : pool_ok p -> reservations p !! next_id p = None.
Proof.
  intros Hok. destruct (reservations p !! next_id p) as [[w o]|] eqn:Hr; [|done]. apply (pool_fresh _ Hok) in Hr. lia.
Qed.

Lemma reserve_ok me p : pool_ok p -> pool_ok (reserve_worker me p).1.
Proof.
  intros Hok. destruct (reserve_cases me p) as [(w & n & -> & Hw & Hn)|[e ->]]; [|done]. cbn.
  pose proof (pool_unused p Hok) as Hnew. destruct Hok as [He Hd Hnd Hf Hi]. split; cbn.
  - intros w' m. cbn. rewrite reserved_insert by done. destruct (decide (w = w')) as [<-|Hne].
    + rewrite lookup_insert_eq. intros [= <-]. by rewrite <-(He w n Hn).
    + rewrite lookup_insert_ne by done. intros Hm. rewrite N.add_0_r. by apply He.
  - rewrite dom_insert_L, Hd. apply set_eq. intros x. rewrite elem_of_union, elem_of_singleton.
    split; [auto|]. intros [->|?]; [|done]. by apply elem_of_dom_2 in Hn.
  - done.
  - intros rid x o [[<- [= <- <-]]|[_ Hr]]%lookup_insert_Some; [split; [lia|]; specialize (Hi _ Hw); lia|].
    specialize (Hf _ _ _ Hr). lia.
  - intros x Hx. specialize (Hi x Hx). lia.
Qed.

Lemma give_ok owner p rid : pool_ok p -> pool_ok (give owner p rid).
Proof.
  intros [He Hd Hnd Hf Hi]. split; cbn; [|done|done| |done].
  - intros w n Hn. cbn. rewrite reserved_alter. by apply He.
  - intros r w o Hr. destruct (decide (r = rid)) as [->|Hne]; [|rewrite lookup_alter_ne in Hr by done; eauto].
    rewrite lookup_alter_eq in Hr. apply fmap_Some in Hr as ([w' o'] & Hr & [= -> ->]). eauto.
Qed.

Lemma drop_ok p rid : pool_ok p -> pool_ok (drop_reservation p rid).
Proof.
  intros [He Hd Hnd Hf Hi]. unfold drop_reservation. destruct (reservations p !! rid) as [[w o]|] eqn:Hr; [|done]. split; cbn.
  - intros w' n Hn. cbn in *. pose proof (reserved_delete w' _ _ _ _ Hr) as Hc. destruct (decide (w = w')) as [<-|Hne].
    + rewrite lookup_alter_eq in Hn. apply fmap_Some in Hn as (m & Hm & ->). rewrite (He w m Hm) in *. unfold saturating_sub. lia.
    + rewrite lookup_alter_ne in Hn by done. rewrite (He w' n Hn), Hc. lia.
  - by rewrite dom_alter_L.
  - done.
  - intros r x o' [_ Hr']%lookup_delete_Some. eauto.
  - done.
Qed.

Lemma drops_ok rids p : pool_ok p -> pool_ok (foldl drop_reservation p rids).
Proof. revert p. induction rids as [|rid rids IH]; intros p Hp; [done|]. by apply IH, drop_ok. Qed.

(** Dropping touches nothing but reservations and counts. *)
Lemma drops_lookup rids p r :
  reservations (foldl drop_reservation p rids) !! r = if decide (r ∈ rids) then None else reservations p !! r.
Proof.
  revert p. induction rids as [|rid rids IH]; intros p; cbn [foldl]; [by rewrite decide_False by apply not_elem_of_nil|].
  rewrite IH. assert (reservations (drop_reservation p rid) !! r = if decide (r = rid) then None else reservations p !! r) as ->.
  { unfold drop_reservation. destruct (reservations p !! rid) as [[w o]|] eqn:Hr; cbn; destruct (decide (r = rid)) as [->|Hne];
      rewrite ?lookup_delete_eq, ?lookup_delete_ne by done; done. }
  destruct (decide (r ∈ rids)), (decide (r = rid)), (decide (r ∈ rid :: rids)); rewrite ?elem_of_cons in *; tauto || done.
Qed.

Lemma elem_of_owned_list me p r : r ∈ owned me p <-> exists w, reservations p !! r = Some (w, Some me).
Proof.
  unfold owned. rewrite list_elem_of_fmap. split.
  - intros ([r' [w o]] & -> & Hin). apply elem_of_map_to_list, map_lookup_filter_Some in Hin as [Hr Ho]. cbn in *. subst. eauto.
  - intros [w Hr]. exists (r, (w, Some me)). split; [done|]. by apply elem_of_map_to_list, map_lookup_filter_Some.
Qed.

Lemma drop_owned_lookup me p r :
  reservations (drop_owned me p) !! r
  = match reservations p !! r with Some (w, o) => if decide (o = Some me) then None else Some (w, o) | None => None end.
Proof.
  unfold drop_owned. rewrite drops_lookup. destruct (reservations p !! r) as [[w o]|] eqn:Hr.
  - destruct (decide (r ∈ owned me p)) as [[w' Hw]%elem_of_owned_list|Hn]; destruct (decide (o = Some me)) as [->|Hne]; try done; [congruence|].
    destruct Hn. apply elem_of_owned_list. eauto.
  - by destruct (decide _).
Qed.

Lemma replaced_workers (l : list N) i d x :
  NoDup l -> l !! i = Some d -> x ∉ l ->
  NoDup (<[i := x]> l) /\ (list_to_set (<[i := x]> l) : gset N) = {[x]} ∪ (list_to_set l ∖ {[d]}).
Proof.
  intros Hnd Hi Hx. pose proof (lookup_lt_Some _ _ _ Hi) as Hlt. rewrite NoDup_alt in Hnd.
  assert (forall j y, <[i := x]> l !! j = Some y <-> (j = i /\ y = x) \/ (j <> i /\ l !! j = Some y)) as Hl.
  { intros j y. rewrite list_lookup_insert_Some. naive_solver. }
  split.
  - apply NoDup_alt. intros j k y [[-> ->]|[Hj Hy]]%Hl [[-> Hxy]|[Hk Hy']]%Hl; [done| | |by eapply Hnd].
    + by destruct Hx; eapply list_elem_of_lookup_2.
    + subst y. by destruct Hx; eapply list_elem_of_lookup_2.
  - apply set_eq. intros y. rewrite elem_of_union, elem_of_difference, !elem_of_list_to_set, !elem_of_singleton, !list_elem_of_lookup.
    split.
    + intros [j [[-> ->]|[Hj Hy]]%Hl]; [by left|]. right. split; [by eauto|]. intros ->. destruct Hj. by eapply Hnd.
    + intros [->|[[j Hy] Hne]]; [exists i; apply Hl; by left|]. exists j. apply Hl. right. split; [|done]. intros ->. congruence.
Qed.

Lemma install_ok i dead p : workers p !! i = Some dead -> pool_ok p -> pool_ok (install_replacement i dead p).
Proof.
  intros Hi [He Hd Hnd Hf Hiss]. assert (next_id p ∉ workers p) as Hnew by (intros Hin; specialize (Hiss _ Hin); lia).
  destruct (replaced_workers _ _ _ _ Hnd Hi Hnew) as [Hnd' Hset]. split; cbn.
  - intros w n. cbn. intros [[<- <-]|[Hne [_ Hn]%lookup_delete_Some]]%lookup_insert_Some; [|by apply He].
    unfold reserved. rewrite (proj2 (map_empty (filter (on_worker (next_id p)) (reservations p)))); [done|]. intros rid.
    apply map_lookup_filter_None. right. intros [w o] Hr Hw. unfold on_worker in Hw. cbn in Hw. subst. specialize (Hf _ _ _ Hr). lia.
  - rewrite Hset, dom_insert_L, dom_delete_L. by rewrite Hd.
  - done.
  - intros rid w o Hr. specialize (Hf _ _ _ Hr). lia.
  - intros w Hw. apply (elem_of_list_to_set (C := gset N)) in Hw. rewrite Hset in Hw. apply elem_of_union in Hw as [->%elem_of_singleton|Hw]; [lia|].
    apply elem_of_difference in Hw as [Hw%elem_of_list_to_set _]. specialize (Hiss _ Hw). lia.
Qed.

Lemma clear_pool_ok p : pool_ok p -> pool_ok (clear_pool p).
Proof. intros [He Hd Hnd Hf Hi]. split; cbn; [by intros w n|done|constructor|done|by intros w ?%not_elem_of_nil]. Qed.

Lemma start_ok i p : pool_ok p -> pool_ok (start_worker p i).
Proof.
  intros [He Hd Hnd Hf Hiss]. assert (next_id p ∉ workers p) as Hnew by (intros Hin; specialize (Hiss _ Hin); lia).
  split; cbn.
  - intros w n. cbn. intros [[<- <-]|[Hne Hn]]%lookup_insert_Some; [|by apply He].
    unfold reserved. rewrite (proj2 (map_empty (filter (on_worker (next_id p)) (reservations p)))); [done|]. intros rid.
    apply map_lookup_filter_None. right. intros [w o] Hr Hw. unfold on_worker in Hw. cbn in Hw. subst. specialize (Hf _ _ _ Hr). lia.
  - rewrite dom_insert_L, list_to_set_app_L, <-Hd. cbn. set_solver.
  - apply NoDup_app. split_and!; [done| |apply NoDup_singleton]. by intros x Hx ->%list_elem_of_singleton.
  - intros rid w o Hr. specialize (Hf _ _ _ Hr). lia.
  - intros w [Hw| ->%list_elem_of_singleton]%elem_of_app; [specialize (Hiss _ Hw)|]; lia.
Qed.

Lemma pool_new_ok num_workers : pool_ok (pool_new num_workers).
Proof.
  unfold pool_new. generalize (seq 0 num_workers) as l. intros l.
  assert (pool_ok (Pool [] ∅ ∅ ∅ ∅ ∅ ∅ ∅ 0)) as H0
    by (split; cbn; [by intros w n|done|constructor|by intros ?|by intros ? ?%not_elem_of_nil]).
  revert H0. generalize (Pool [] ∅ ∅ ∅ ∅ ∅ ∅ ∅ 0) as p. induction l as [|i l IH]; intros p Hp; [done|]. by apply IH, start_ok.
Qed.

Lemma pool_new_reservations num_workers : reservations (pool_new num_workers) = ∅.
Proof.
  assert (forall l p, reservations (foldl start_worker p l) = reservations p) as Hl; [|by unfold pool_new; rewrite Hl].
  induction l as [|i l IH]; intros p; [done|]. cbn. by rewrite IH.
Qed.
