(* ===== verification/Routers.v ===== *)
(** * Routers of rooms and of their viewers ([src/src/media/router_manager.rs],
      the pool changes of [src/src/media/worker_manager.rs])

    A room has one primary router.  A busy room's viewers are spread over
    routers on other workers, fed by pipes, and a lease remembers where a
    participant's receiver is.  The operations interleave at every native call
    and at the lock of the viewer routers, which is held across those calls.

    An operation is a future with an identity of its own: what it owns when it
    ends, on any path, is dropped. *)

From S2P Require Import Prelude Process Workers.

Open Scope process_scope.

Definition VIEWER_SPREAD_MIN_CONSUMERS : N := 64.

Record router_info := RouterInfo { router : N; info_worker : N; info_reservation : N }.

(** Pipes are keyed by the original producer and the viewer worker. *)
Record viewer_routers := ViewerRouters { by_worker : gmap N router_info; pipes : gmap (N * N) N }.
#[export] Instance eta_viewer_routers : Eta viewer_routers := fun v => ViewerRouters (by_worker v) (pipes v).
Definition no_viewers : viewer_routers := ViewerRouters ∅ ∅.

Record media_world := Media {
  the_pool : pool_state;
  routers : gmap string router_info;
  viewers : gmap string viewer_routers;
  placements : gmap string (N * N);
  next_lease_ticket : N
}.
#[export] Instance eta_media_world : Eta media_world := fun w =>
  Media (the_pool w) (routers w) (viewers w) (placements w) (next_lease_ticket w).

Inductive media_lock := Future (me : N) | ViewerLock | Reconfiguration.
#[export] Instance media_lock_eq_dec : EqDecision media_lock.
Proof. solve_decision. Defined.
#[export] Instance media_lock_countable : Countable media_lock.
Proof.
  refine (inj_countable' (fun l => match l with Future me => inl me | ViewerLock => inr true | Reconfiguration => inr false end)
            (fun s => match s with inl me => Future me | inr true => ViewerLock | inr false => Reconfiguration end) _).
  by intros [].
Defined.

(** Native calls; the answer is whether they succeeded. *)
Inductive native_call :=
| CreateWorker
| CreateListener (port : N)
| CreateRouter (worker : N)
| PipeProducer (producer router : N).

Abbreviation operation A := (process media_world media_lock native_call (fun _ => bool) A).
Abbreviation fallible A := (operation (result media_error A)).

Definition in_pool (f : pool_state -> pool_state) (w : media_world) : media_world * unit := (w <| the_pool ::= f |>, tt).
Definition new_identity : operation N :=
  atomically (fun w => (w <| the_pool ::= fun p => p <| next_id ::= N.succ |> |>, next_id (the_pool w))).

Definition as_future {A} (body : N -> operation A) : operation A :=
  let* me := new_identity in
  holding (Future me) (let* r := body me in let* _ := atomically (in_pool (drop_owned me)) in Return r).

Definition reserve_slot (me : N) : fallible (N * N) :=
  atomically (fun w => let '(p, r) := reserve_worker me (the_pool w) in (w <| the_pool := p |>, r)).

(** ** Primary routers *)

Definition router_exists : media_error := RouterError "Router already exists for room".
Definition router_missing : media_error := RouterError "Router not found for room".

(** Whoever registers first wins; the loser's entry is dropped. *)
Definition register_router (room : string) (worker rid : N) (w : media_world) : media_world * result media_error N :=
  match routers w !! room with
  | Some _ => (w, Err router_exists)
  | None =>
      let id := next_id (the_pool w) in
      (w <| routers ::= <[room := RouterInfo id worker rid]> |>
         <| the_pool ::= fun p => (give None p rid) <| next_id ::= N.succ |> |>, Ok id)
  end.

Definition create_router (room : string) : fallible N := as_future (fun me =>
  let* taken := atomically (fun w => (w, bool_decide (is_Some (routers w !! room)))) in
  if taken : bool then Return (Err router_exists)
  else
    let? '(worker, rid) := reserve_slot me in
    let* created := ask (CreateRouter worker) in
    if negb created then Return (Err (RouterError "Failed to create router"))
    else atomically (register_router room worker rid)).

Definition get_router (room : string) : fallible N :=
  atomically (fun w => (w, match routers w !! room with Some info => Ok (router info) | None => Err router_missing end)).

Definition get_worker_id (room : string) : fallible N :=
  atomically (fun w => (w, match routers w !! room with Some info => Ok (info_worker info) | None => Err router_missing end)).

Definition rooms_on_worker (worker : N) (w : media_world) : list string :=
  fst <$> map_to_list (filter (fun x : string * router_info => info_worker x.2 = worker) (routers w)).

(** ** Viewer routers *)

Definition worker_for_participant (participant : string) (w : media_world) : option N := fst <$> placements w !! participant.

Definition record_placement (participant : string) (worker : N) (w : media_world) : media_world * N :=
  (w <| placements ::= <[participant := (worker, next_lease_ticket w)]> |>
     <| next_lease_ticket ::= fun t => u64_wrapping_add t 1 |>, next_lease_ticket w).

(** [Drop for ViewerLease]. *)
Definition drop_lease (participant : string) (ticket : N) : operation unit :=
  atomically (fun w =>
    (if bool_decide (snd <$> placements w !! participant = Some ticket) then w <| placements ::= delete participant |> else w, tt)).

(** The viewer router of a room on a worker, when it is open. *)
Definition open_viewer (room : string) (worker : N) (w : media_world) : option N :=
  v ← viewers w !! room; info ← by_worker v !! worker;
  if is_closed (the_pool w) (router info) then None else Some (router info).

(** [entry(room).or_default()], and the placement when there is a router
    already. *)
Definition enter_viewers (me : N) (room participant : string) (worker : N) (w : media_world)
  : media_world * option (N * N) :=
  let w := w <| viewers ::= <[room := default no_viewers (viewers w !! room)]> |> in
  match open_viewer room worker w with
  | Some id => let '(w, ticket) := record_placement participant worker (w <| the_pool ::= drop_owned me |>) in (w, Some (id, ticket))
  | None => (w, None)
  end.

(** An entry that is replaced is dropped. *)
Definition install_viewer (me : N) (room participant : string) (worker rid : N) (w : media_world) : media_world * (N * N) :=
  let v := default no_viewers (viewers w !! room) in
  let id := next_id (the_pool w) in
  let p := match by_worker v !! worker with Some old => give (Some me) (the_pool w) (info_reservation old) | None => the_pool w end in
  let w := w <| viewers ::= <[room := v <| by_worker ::= <[worker := RouterInfo id worker rid]> |>]> |>
             <| the_pool := (drop_owned me (give None p rid)) <| next_id ::= N.succ |> |> in
  let '(w, ticket) := record_placement participant worker w in (w, (id, ticket)).

(** Under the lock of the viewer routers: the open router of the room on the
    worker, or a new one. *)
Definition viewer_on (me : N) (room participant : string) (worker rid : N) : fallible (N * N * option N) :=
  let* found := atomically (enter_viewers me room participant worker) in
  match found with
  | Some (id, ticket) => Return (Ok (id, worker, Some ticket))
  | None =>
      let* created := ask (CreateRouter worker) in
      if negb created then Return (Err (RouterError "Failed to create viewer router"))
      else
        let* installed := atomically (install_viewer me room participant worker rid) in
        Return (Ok (installed.1, worker, Some installed.2))
  end.

(** A viewer that has no open router yet. *)
Definition place_anew (me : N) (room participant : string) (primary : router_info) : fallible (N * N * option N) :=
  let* busy := atomically (fun w => (w, default 0%N (counts (the_pool w) !! info_worker primary))) in
  if (busy <? VIEWER_SPREAD_MIN_CONSUMERS)%N then Return (Ok (router primary, info_worker primary, None))
  else
    let? '(worker, rid) := reserve_slot me in
    if (worker =? info_worker primary)%N then
      let* _ := atomically (in_pool (drop_owned me)) in
      Return (Ok (router primary, info_worker primary, None))
    else holding ViewerLock (viewer_on me room participant worker rid).

(** The router, its worker and the ticket of a new lease. *)
Definition place_viewer (room participant : string) : fallible (N * N * option N) := as_future (fun me =>
  let* primary := atomically (fun w => (w, routers w !! room)) in
  match primary with
  | None => Return (Err router_missing)
  | Some primary =>
      let* placed := atomically (fun w => (w, worker_for_participant participant w)) in
      match placed with
      | Some worker =>
          let* known := holding ViewerLock (atomically (fun w => (w, open_viewer room worker w))) in
          match known with
          | Some id => Return (Ok (id, worker, None))
          | None =>
              let* _ := atomically (fun w => (w <| placements ::= delete participant |>, tt)) in
              place_anew me room participant primary
          end
      | None => place_anew me room participant primary
      end
  end).

Definition viewer_router_count (room : string) (w : media_world) : nat :=
  match viewers w !! room with Some v => size (by_worker v) | None => 0 end.

(** Where a participant's consumers are counted. *)
Definition consumer_worker (room participant : string) : fallible N :=
  let* placed := atomically (fun w => (w, worker_for_participant participant w)) in
  match placed with
  | Some worker => Return (Ok worker)
  | None => get_worker_id room
  end.

(** *** Pipes *)

Inductive pipe_check := Piped | NoTarget (e : media_error) | PipeTo (target : N).

Definition check_pipe (room : string) (producer worker : N) (w : media_world) : media_world * pipe_check :=
  match viewers w !! room with
  | None => (w, NoTarget (RouterError "No viewer routers for room"))
  | Some v =>
      let known := pipes v !! (producer, worker) in
      if match known with Some pipe => negb (is_closed (the_pool w) pipe) | None => false end then (w, Piped)
      else
        (w <| viewers ::= <[room := v <| pipes ::= delete (producer, worker) |>]> |>,
         match open_viewer room worker w with
         | Some target => PipeTo target
         | None => NoTarget (RouterError "Viewer router is gone for room")
         end)
  end.

(** Closed pipes are forgotten as the next one is made. *)
Definition add_pipe (room : string) (producer worker : N) (w : media_world) : media_world * unit :=
  let v := default no_viewers (viewers w !! room) in
  let pipe := next_id (the_pool w) in
  (w <| viewers ::= <[room := v <| pipes ::= fun ps =>
          <[(producer, worker) := pipe]> (filter (fun x : N * N * N => is_closed (the_pool w) x.2 = false) ps) |>]> |>
     <| the_pool ::= fun p => p <| next_id ::= N.succ |> |>, tt).

Definition pipe_count (room : string) (w : media_world) : nat :=
  match viewers w !! room with
  | Some v => size (filter (fun x : N * N * N => is_closed (the_pool w) x.2 = false) (pipes v))
  | None => 0
  end.

Definition ensure_piped (room participant : string) (producer : N) : fallible unit :=
  let* placed := atomically (fun w => (w, worker_for_participant participant w)) in
  match placed with
  | None => Return (Ok tt)
  | Some worker =>
      let? _ := get_router room in
      holding ViewerLock
        (let* check := atomically (check_pipe room producer worker) in
         match check with
         | Piped => Return (Ok tt)
         | NoTarget e => Return (Err e)
         | PipeTo target =>
             let* piped := ask (PipeProducer producer target) in
             if negb piped then Return (Err (RouterError "Failed to pipe producer"))
             else let* _ := atomically (add_pipe room producer worker) in Return (Ok tt)
         end)
  end.

(** ** Removal *)

Definition info_rids (v : viewer_routers) : list N := (fun x => info_reservation x.2) <$> map_to_list (by_worker v).

(** The entry moves from the map into the operation. *)
Definition take_router (me : N) (room : string) (w : media_world) : media_world * bool :=
  match routers w !! room with
  | Some info => (w <| routers ::= delete room |> <| the_pool ::= fun p => give (Some me) p (info_reservation info) |>, true)
  | None => (w, false)
  end.

Definition take_viewers (me : N) (room : string) (w : media_world) : media_world * unit :=
  match viewers w !! room with
  | Some v => (w <| viewers ::= delete room |> <| the_pool ::= fun p => foldl (give (Some me)) p (info_rids v) |>, tt)
  | None => (w, tt)
  end.

Definition remove_router (room : string) : fallible unit := as_future (fun me =>
  let* removed := atomically (take_router me room) in
  let* _ := holding ViewerLock (atomically (take_viewers me room)) in
  Return (if removed : bool then Ok tt else Err router_missing)).

(** Of one room, what a dead worker hosted. *)
Definition without_worker (worker : N) (v : viewer_routers) : viewer_routers :=
  v <| by_worker ::= delete worker |> <| pipes ::= filter (fun x : N * N * N => x.1.2 <> worker) |>.
Definition hosted_rids (worker : N) (w : media_world) : list N :=
  omap (fun x : string * viewer_routers => info_reservation <$> by_worker x.2 !! worker) (map_to_list (viewers w)).

Definition drop_viewer_routers_on_worker (worker : N) : operation nat := as_future (fun me =>
  holding ViewerLock (atomically (fun w =>
    let rids := hosted_rids worker w in
    (w <| viewers ::= fmap (without_worker worker) |>
       <| the_pool ::= fun p => drop_owned me (foldl (give (Some me)) p rids) |>, length rids)))).

Definition all_viewer_rids (w : media_world) : list N := concat (info_rids <$> (snd <$> map_to_list (viewers w))).
Definition all_router_rids (w : media_world) : list N := (fun x => info_reservation x.2) <$> map_to_list (routers w).

Definition close_all : operation unit := as_future (fun me =>
  let* _ := holding ViewerLock (atomically (fun w =>
    (w <| viewers := ∅ |> <| the_pool ::= fun p => drop_owned me (foldl (give (Some me)) p (all_viewer_rids w)) |>, tt))) in
  atomically (fun w =>
    (w <| routers := ∅ |> <| the_pool ::= fun p => drop_owned me (foldl (give (Some me)) p (all_router_rids w)) |>, tt))).

(** ** Changes of the pool *)

Definition position_of (dead : N) (w : media_world) : option nat :=
  fst <$> list_find (fun x => x = dead) (workers (the_pool w)).

Section pool_changes.
(** The configuration: first port, size of the pool, number of listeners. *)
Context (port_base : N) (worker_count listeners : nat).

Definition recreate_worker (dead : N) : fallible unit :=
  holding Reconfiguration
    (let* position := atomically (fun w => (w, position_of dead w)) in
     match position with
     | None => Return (Ok tt)
     | Some i =>
         let* created := ask CreateWorker in
         if negb created then Return (Err (WorkerError "Failed to recreate worker"))
         else match worker_port port_base worker_count i with
         | None => Return (Err (ConfigurationError "Invalid worker port configuration"))
         | Some port =>
             if (listeners =? 0)%nat then Return (Err (ConfigurationError "Invalid media listener configuration")) else
             let* listening := ask (CreateListener port) in
             if negb listening then Return (Err (WorkerError "Failed to create WebRtcServer for replacement worker"))
             else let* _ := atomically (in_pool (install_replacement i dead)) in Return (Ok tt)
         end
     end).
End pool_changes.

Definition shutdown_workers : operation unit := holding Reconfiguration (atomically (in_pool clear_pool)).
Definition mark_saturated (worker : N) (b : bool) : operation unit := atomically (in_pool (set_worker_saturated worker b)).
