(* ===== verification/RouterInv.v ===== *)
(** * What the router operations keep

    The invariant of the media registries: every reservation that no operation
    owns belongs to exactly one registered router, pipes lead to registered
    viewer routers, and a worker's count is the number of its reservations.
    An operation's reservations are its own, the viewer routers change only
    under their lock, and the pool only under reconfiguration. *)

From S2P Require Import Prelude Process Triples Workers Routers.

Open Scope process_scope.

(** ** Changes of the pool by one operation *)

Definition same_owned (me : N) (p p' : pool_state) : Prop :=
  forall rid wk, reservations p !! rid = Some (wk, Some me) <-> reservations p' !! rid = Some (wk, Some me).

#[export] Instance same_owned_equivalence me : Equivalence (same_owned me).
Proof.
  unfold same_owned. split; [done|by intros p p' H rid wk; rewrite (H rid wk)|].
  intros p1 p2 p3 H1 H2 rid wk. by rewrite (H1 rid wk).
Qed.

Record pool_step (me : N) (p p' : pool_state) : Prop := {
  ps_ok : pool_ok p';
  ps_workers : workers p' = workers p;
  ps_closed : closed p ⊆ closed p';
  ps_next : (next_id p <= next_id p')%N;
  ps_others : forall other, other <> me -> same_owned other p p'
}.

Lemma pool_step_trans me p1 p2 p3 : pool_step me p1 p2 -> pool_step me p2 p3 -> pool_step me p1 p3.
Proof.
  intros [A1 A2 A3 A4 A5] [B1 B2 B3 B4 B5]. split; [done|congruence|by etrans|lia|].
  intros other Ho. etrans; eauto.
Qed.

(** The reservations of registered routers. *)
Definition unowned (p : pool_state) (rid wk : N) : Prop := reservations p !! rid = Some (wk, None).

Lemma reserve_step me p : pool_ok p ->
  pool_step me p (reserve_worker me p).1 /\ forall rid wk, unowned (reserve_worker me p).1 rid wk <-> unowned p rid wk.
Proof.
  intros Hok. pose proof (reserve_ok me p Hok) as Hok'. pose proof (pool_unused p Hok) as Hnew. unfold unowned, same_owned.
  destruct (reserve_cases me p) as [(w & n & Hr & Hw & Hn)|[e Hr]]; rewrite Hr in *; cbn in *; [|by split].
  assert (forall rid wk o, o <> Some me -> reservations p !! rid = Some (wk, o) <-> <[next_id p := (w, Some me)]> (reservations p) !! rid = Some (wk, o)) as Hl.
  { intros rid wk o Ho. rewrite lookup_insert_Some. split; [|naive_solver]. intros Hrid. right. split; [congruence|done]. }
  split; [|intros rid wk; symmetry; by apply Hl]. split; cbn; [done..|lia|]. intros other Ho rid wk. apply Hl. congruence.
Qed.

Lemma drops_pool rids p :
  workers (foldl drop_reservation p rids) = workers p /\ closed (foldl drop_reservation p rids) = closed p
  /\ next_id (foldl drop_reservation p rids) = next_id p.
Proof.
  revert p. induction rids as [|rid rids IH]; intros p; [done|]. cbn. destruct (IH (drop_reservation p rid)) as (-> & -> & ->).
  unfold drop_reservation. by destruct (reservations p !! rid) as [[]|].
Qed.

Lemma drop_owned_step me p : pool_ok p ->
  pool_step me p (drop_owned me p) /\ (forall rid wk, unowned (drop_owned me p) rid wk <-> unowned p rid wk)
  /\ forall rid wk, reservations (drop_owned me p) !! rid <> Some (wk, Some me).
Proof.
  intros Hok. destruct (drops_pool (owned me p) p) as (Hw & Hc & Hn). fold (drop_owned me p) in Hw, Hc, Hn. unfold unowned.
  assert (forall rid wk o, o <> Some me -> reservations p !! rid = Some (wk, o) <-> reservations (drop_owned me p) !! rid = Some (wk, o)) as Hl.
  { intros rid wk o Ho. rewrite drop_owned_lookup. destruct (reservations p !! rid) as [[wk' o']|]; [|done].
    destruct (decide (o' = Some me)); [|done]. split; [congruence|done]. }
  split_and!.
  - split; [by apply drops_ok|done|by rewrite Hc|by rewrite Hn|]. intros other Ho rid wk. apply Hl. congruence.
  - intros rid wk. symmetry. by apply Hl.
  - intros rid wk. rewrite drop_owned_lookup. destruct (reservations p !! rid) as [[wk' o']|]; [|done].
    destruct (decide (o' = Some me)); congruence.
Qed.

Lemma gives_lookup owner rids p r :
  reservations (foldl (give owner) p rids) !! r
  = if decide (r ∈ rids) then (fun x => (x.1, owner)) <$> reservations p !! r else reservations p !! r.
Proof.
  revert p. induction rids as [|rid rids IH]; intros p; cbn [foldl]; [by rewrite decide_False by apply not_elem_of_nil|].
  rewrite IH. unfold give. cbn. destruct (decide (r = rid)) as [->|Hne].
  - rewrite lookup_alter_eq, (decide_True (P := rid ∈ rid :: rids)) by by left.
    destruct (decide (rid ∈ rids)); [|done]. by destruct (reservations p !! rid).
  - rewrite lookup_alter_ne by done. destruct (decide (r ∈ rids)) as [Hi|Hi]; [by rewrite decide_True by by right|].
    by rewrite decide_False by (by intros [|]%elem_of_cons).
Qed.

Lemma gives_pool owner rids p : pool_ok p ->
  pool_ok (foldl (give owner) p rids) /\ workers (foldl (give owner) p rids) = workers p
  /\ closed (foldl (give owner) p rids) = closed p /\ next_id (foldl (give owner) p rids) = next_id p.
Proof.
  revert p. induction rids as [|rid rids IH]; intros p Hp; [done|]. cbn. by destruct (IH (give owner p rid) (give_ok _ _ _ Hp)) as (? & -> & -> & ->).
Qed.

(** Reservations that are registered or one's own change hands. *)
Lemma gives_step me owner rids p : pool_ok p -> (owner = None \/ owner = Some me) ->
  (forall rid wk o, rid ∈ rids -> reservations p !! rid = Some (wk, o) -> o = None \/ o = Some me) ->
  pool_step me p (foldl (give owner) p rids).
Proof.
  intros Hok Howner Hrids. destruct (gives_pool owner rids p Hok) as (? & ? & Hc & Hn).
  split; [done|done|by rewrite Hc|by rewrite Hn|]. intros other Ho rid wk. rewrite gives_lookup.
  destruct (decide (rid ∈ rids)) as [Hin|]; [|done]. rewrite fmap_Some. split.
  - intros Hr. destruct (Hrids _ _ _ Hin Hr); congruence.
  - intros ([wk' o] & Hr & [= -> <-]). destruct Howner; congruence.
Qed.

Lemma bump_step me p : pool_ok p -> pool_step me p (p <| next_id ::= N.succ |>).
Proof.
  intros [He Hd Hnd Hf Hi]. split; [|done|done|cbn; lia|done]. split; cbn; try done.
  - intros rid w o Hr. specialize (Hf _ _ _ Hr). lia.
  - intros w Hw. specialize (Hi _ Hw). lia.
Qed.

(** ** The invariant *)

(** Where a router is registered: as a room's primary, or as its viewer router
    on a worker. *)
Definition slot := (string + string * N)%type.
Definition slot_info (w : media_world) (s : slot) : option router_info :=
  match s with
  | inl room => routers w !! room
  | inr (room, wk) => v ← viewers w !! room; by_worker v !! wk
  end.
Definition pipe_of (w : media_world) (room : string) (key : N * N) : option N := v ← viewers w !! room; pipes v !! key.

(** Registered reservations and slots correspond one to one. *)
Record registered (p : pool_state) (sl : slot -> option router_info) : Prop := {
  reg_slots : forall rid wk, unowned p rid wk <-> exists s i, sl s = Some i /\ info_reservation i = rid /\ info_worker i = wk;
  reg_once : forall s s' i i', sl s = Some i -> sl s' = Some i' -> info_reservation i = info_reservation i' -> s = s'
}.

Record media_ok (w : media_world) : Prop := {
  ok_pool : pool_ok (the_pool w);
  ok_registered : registered (the_pool w) (slot_info w);
  ok_viewer_worker : forall room wk i, slot_info w (inr (room, wk)) = Some i -> info_worker i = wk;
  ok_pipes : forall room key x, pipe_of w room key = Some x -> is_Some (slot_info w (inr (room, key.2)))
}.

(** An operation's reservations are its own. *)
Definition protects (l : media_lock) (w w' : media_world) : Prop :=
  match l with
  | Future me => same_owned me (the_pool w) (the_pool w')
  | ViewerLock => viewers w' = viewers w
  | Reconfiguration => workers (the_pool w') = workers (the_pool w)
  end.

(** Once an operation has ended it owns nothing. *)
Definition idle (l : media_lock) (w : media_world) : Prop :=
  match l with
  | Future me => forall rid wk, reservations (the_pool w) !! rid <> Some (wk, Some me)
  | _ => True
  end.

(** What is closed stays closed, and identifiers are not issued twice. *)
Record evolves (w w' : media_world) : Prop := {
  ev_closed : closed (the_pool w) ⊆ closed (the_pool w');
  ev_next : (next_id (the_pool w) <= next_id (the_pool w'))%N
}.

(** No section replaces a room's router, an open viewer router or an open
    pipe. *)
Record local (w w' : media_world) : Prop := {
  loc_router : forall room i, routers w !! room = Some i -> routers w' !! room = Some i \/ routers w' !! room = None;
  loc_viewer : forall room wk i, slot_info w (inr (room, wk)) = Some i -> is_closed (the_pool w) (router i) = false ->
    slot_info w' (inr (room, wk)) = Some i \/ slot_info w' (inr (room, wk)) = None;
  loc_pipe : forall room key x, pipe_of w room key = Some x -> is_closed (the_pool w) x = false ->
    pipe_of w' room key = Some x \/ slot_info w' (inr (room, key.2)) = None
}.

#[export] Instance protects_preorder l : PreOrder (protects l).
Proof.
  destruct l; split; cbn; try done; intros w1 w2 w3 H1 H2; cbn in *; [by trans (the_pool w2)|cbn in *; congruence..].
Qed.
#[export] Instance evolves_preorder : PreOrder evolves.
Proof. split; [split; [done|lia]|]. intros w1 w2 w3 [A1 A2] [B1 B2]. split; [by etrans|lia]. Qed.
#[export] Instance local_refl : Reflexive local.
Proof. split; auto. Qed.

Lemma idle_stable l w w' : protects l w w' -> idle l w -> idle l w'.
Proof. destruct l; cbn; [|done..]. intros Hp Hi rid wk Hr. apply (Hi rid wk). by apply Hp. Qed.

(** Native objects close, and consumers come and go. *)
Definition outside (w w' : media_world) : Prop :=
  exists cl cs, closed (the_pool w) ⊆ cl /\ (forall x, x ∈ cl -> x ∈ closed (the_pool w) \/ (x < next_id (the_pool w))%N)
    /\ w' = w <| the_pool ::= fun p => p <| closed := cl |> <| counts := cs |> |>.

Abbreviation frame := (Triples.frame protects evolves).
Abbreviation section_ok := (Triples.section_ok media_ok protects evolves local).
Abbreviation triple := (Triples.triple (query := native_call) (reply := (fun _ => bool)) media_ok protects evolves local idle unexcused).
Abbreviation calm := (Triples.calm (query := native_call) (reply := (fun _ => bool)) media_ok protects evolves local idle unexcused).

(** ** Sections *)

(** Nothing registered, owned or in the pool changes. *)
Definition registries (w : media_world) :=
  (routers w, viewers w, reservations (the_pool w), load (the_pool w), workers (the_pool w)).

Lemma registries_view w w' : registries w' = registries w ->
  routers w' = routers w /\ viewers w' = viewers w /\ reservations (the_pool w') = reservations (the_pool w)
  /\ load (the_pool w') = load (the_pool w) /\ workers (the_pool w') = workers (the_pool w)
  /\ (forall s, slot_info w' s = slot_info w s) /\ (forall room key, pipe_of w' room key = pipe_of w room key).
Proof.
  unfold registries. intros [= E1 E2 E3 E4 E5]. split_and!; [done..| |].
  - intros [room|[room wk]]; cbn; congruence.
  - intros room key. unfold pipe_of. by rewrite E2.
Qed.

Lemma media_quiet_section w w' : media_ok w -> registries w' = registries w -> evolves w w' -> section_ok ∅ w w'.
Proof.
  intros [[He Hd Hnd Hf Hi] [Hs Ho] Hv Hp] Hr Hev.
  destruct (registries_view _ _ Hr) as (E1 & E2 & E3 & E4 & E5 & E6 & E7). destruct (Hev) as [_ Hn]. split; [|done|..].
  - split.
    + split; unfold load_exact in *; rewrite ?E3, ?E4, ?E5; [done..| |].
      * intros rid w0 o Hr0. specialize (Hf _ _ _ Hr0). lia.
      * intros w0 Hw0. specialize (Hi _ Hw0). lia.
    + split.
      * intros rid wk. unfold unowned. rewrite E3. rewrite (Hs rid wk). by setoid_rewrite E6.
      * intros s s' i i'. rewrite !E6. apply Ho.
    + intros room wk i. rewrite E6. apply Hv.
    + intros room key x. rewrite E6, E7. apply Hp.
  - split; [rewrite E1; by auto|..]; intros room key x; [rewrite !E6|rewrite !E7]; by auto.
  - intros [me| |] _; cbn; [|done..]. unfold same_owned. by rewrite E3.
Qed.

Lemma media_quiet {A} w (m : media_world -> media_world * A) (Q : A -> media_world -> Prop) :
  (forall w0, registries (m w0).1 = registries w0 /\ evolves w0 (m w0).1) ->
  (forall w0, evolves w w0 -> media_ok w0 -> Q (m w0).2 (m w0).1) -> calm w (atomically m) Q.
Proof. intros Hs HQ. apply calm_atomic. intros w0 He Hi. split; [|by apply HQ]. apply media_quiet_section; [done|apply Hs..]. Qed.

Lemma media_read {A} w (f : media_world -> A) (Q : A -> media_world -> Prop) :
  (forall w0, evolves w w0 -> media_ok w0 -> Q (f w0) w0) -> calm w (atomically (fun w => (w, f w))) Q.
Proof. intros HQ. by apply media_quiet. Qed.

Lemma section_refl L w : media_ok w -> section_ok L w w.
Proof. by split. Qed.

(** A section of the operation [me]. *)
Lemma own_section L me w w' :
  Future me ∈ L -> pool_step me (the_pool w) (the_pool w') -> registered (the_pool w') (slot_info w') ->
  (forall room wk i, slot_info w' (inr (room, wk)) = Some i -> info_worker i = wk) ->
  (forall room key x, pipe_of w' room key = Some x -> is_Some (slot_info w' (inr (room, key.2)))) ->
  local w w' -> (ViewerLock ∉ L -> viewers w' = viewers w) -> section_ok L w w'.
Proof.
  intros HL [P1 P2 P3 P4 P5] Hr Hv Hp Hl Hvl. split; [done|done|done|].
  intros [other| |] Hn; cbn; [|by auto|done]. apply P5. intros ->. done.
Qed.

(** ... that changes who owns what only. *)
Lemma pool_section L me w p' :
  Future me ∈ L -> media_ok w -> pool_step me (the_pool w) p' -> (forall rid wk, unowned p' rid wk <-> unowned (the_pool w) rid wk) ->
  section_ok L w (w <| the_pool := p' |>).
Proof.
  intros HL [Hok [Hs Ho] Hv Hp] Hstep Hun. apply (own_section _ me); [done|done| |done|done|split; auto|done].
  split; [|done]. intros rid wk. cbn. rewrite Hun. apply Hs.
Qed.
