(* ===== verification/RouterSafety.v ===== *)
(** * Routers under every interleaving

    The router and pool operations keep the invariant of [RouterInv.v] whatever
    runs between their sections; so the load of a worker is always what is
    registered on it and what running operations have reserved. *)

From stdpp Require Import relations.
From S2P Require Import Prelude Process Triples Schedule Workers Routers RouterInv.

Open Scope process_scope.

(** ** Registering and removing *)

Lemma registered_add p p' sl sl' s i :
  registered p sl -> sl s = None -> (forall wk, ~ unowned p (info_reservation i) wk) ->
  (forall rid wk, unowned p' rid wk <-> unowned p rid wk \/ rid = info_reservation i /\ wk = info_worker i) ->
  (forall s', sl' s' = if decide (s' = s) then Some i else sl s') -> registered p' sl'.
Proof.
  intros [Hs Ho] Hnone Hnew Hun Hsl.
  assert (forall s' i', sl' s' = Some i' <-> (s' = s /\ i' = i) \/ (s' <> s /\ sl s' = Some i')) as Hsl'.
  { intros s' i'. rewrite Hsl. destruct (decide (s' = s)); naive_solver. }
  assert (forall s' i', sl s' = Some i' -> info_reservation i' <> info_reservation i) as Hfresh.
  { intros s' i' Hi' Heq. apply (Hnew (info_worker i')). apply Hs. eauto. }
  split.
  - intros rid wk. rewrite Hun, Hs. setoid_rewrite Hsl'. split.
    + intros [(s' & i' & Hi' & Hrid)|[-> ->]]; [|by eauto 10]. exists s', i'. split; [|done]. right. split; [congruence|done].
    + intros (s' & i' & [[-> ->]|[Hne Hi']] & <- & <-); [by right|]. left. eauto.
  - intros s1 s2 i1 i2 [[-> ->]|[N1 H1]]%Hsl' [[-> ->]|[N2 H2]]%Hsl' Heq; [done|..|by eapply Ho].
    + by destruct (Hfresh _ _ H2).
    + by destruct (Hfresh _ _ H1).
Qed.

Lemma registered_take p p' sl sl' (rids : list N) :
  registered p sl ->
  (forall rid wk, unowned p' rid wk <-> unowned p rid wk /\ rid ∉ rids) ->
  (forall s i, sl' s = Some i <-> sl s = Some i /\ info_reservation i ∉ rids) -> registered p' sl'.
Proof.
  intros [Hs Ho] Hun Hsl. split.
  - intros rid wk. rewrite Hun, Hs. setoid_rewrite Hsl. naive_solver.
  - intros s1 s2 i1 i2 [H1 _]%Hsl [H2 _]%Hsl. by apply Ho.
Qed.

(** The reservations of slots are taken out of the registry. *)
Definition slots_of (w : media_world) (rids : list N) : Prop :=
  forall rid, rid ∈ rids -> exists s i, slot_info w s = Some i /\ info_reservation i = rid.

Lemma slots_unowned w rids rid wk o :
  media_ok w -> slots_of w rids -> rid ∈ rids -> reservations (the_pool w) !! rid = Some (wk, o) -> o = None.
Proof.
  intros [_ [Hs _] _ _] Hrids Hin Hr. destruct (Hrids rid Hin) as (s & i & Hi & <-).
  assert (unowned (the_pool w) (info_reservation i) (info_worker i)) as Hun by (apply Hs; eauto). unfold unowned in Hun. congruence.
Qed.

Lemma take_step me w rids : media_ok w -> slots_of w rids ->
  pool_step me (the_pool w) (foldl (give (Some me)) (the_pool w) rids)
  /\ forall rid wk, unowned (foldl (give (Some me)) (the_pool w) rids) rid wk <-> unowned (the_pool w) rid wk /\ rid ∉ rids.
Proof.
  intros Hok Hrids. split.
  - apply gives_step; [apply Hok|by right|]. intros rid wk o Hin Hr. left. by eapply slots_unowned.
  - intros rid wk. unfold unowned. rewrite gives_lookup. destruct (decide (rid ∈ rids)) as [Hin|Hin]; [|naive_solver].
    rewrite fmap_Some. split; [by intros ([] & _ & [=])|]. by intros [_ []].
Qed.

Lemma take_drop_step me w rids : media_ok w -> slots_of w rids ->
  let p' := drop_owned me (foldl (give (Some me)) (the_pool w) rids) in
  pool_step me (the_pool w) p' /\ forall rid wk, unowned p' rid wk <-> unowned (the_pool w) rid wk /\ rid ∉ rids.
Proof.
  intros Hok Hrids p'. destruct (take_step me w rids Hok Hrids) as [Hs Hu].
  destruct (drop_owned_step me _ (ps_ok _ _ _ Hs)) as (Hd & Hun & _). split; [by eapply pool_step_trans|].
  intros rid wk. unfold p'. by rewrite (Hun rid wk), Hu.
Qed.

(** The entries of the slots that are [gone] leave the registry with their
    reservations, and their pipes with them. *)
Lemma removal_section L me w w' (gone : slot -> bool) rids :
  Future me ∈ L -> media_ok w ->
  the_pool w' = foldl (give (Some me)) (the_pool w) rids \/ the_pool w' = drop_owned me (foldl (give (Some me)) (the_pool w) rids) ->
  (forall rid, rid ∈ rids <-> exists s i, gone s = true /\ slot_info w s = Some i /\ info_reservation i = rid) ->
  (forall s, slot_info w' s = if gone s then None else slot_info w s) ->
  (forall room key, pipe_of w' room key = if gone (inr (room, key.2)) then None else pipe_of w room key) ->
  (ViewerLock ∉ L -> viewers w' = viewers w) -> section_ok L w w'.
Proof.
  intros HL Hok Hpool Hrids Hsl Hpi Hvl.
  assert (slots_of w rids) as Hslots by (intros rid (s & i & _ & Hi & Hr)%Hrids; eauto).
  assert (pool_step me (the_pool w) (the_pool w')
          /\ forall rid wk, unowned (the_pool w') rid wk <-> unowned (the_pool w) rid wk /\ rid ∉ rids) as [Hs Hu].
  { destruct Hpool as [-> | ->]; [by apply take_step|by apply take_drop_step]. }
  destruct Hok as [_ Hreg Hv Hp]. apply (own_section _ me); [done|done| | | | |done].
  - eapply registered_take; [done|done|]. intros s i. rewrite Hsl. destruct (gone s) eqn:Hg.
    + split; [done|]. intros [Hi Hn]. destruct Hn. apply Hrids. eauto.
    + split; [|by intros [? _]]. intros Hi. split; [done|]. intros (s' & i' & Hg' & Hi' & Heq)%Hrids.
      rewrite (reg_once _ _ Hreg s' s i' i Hi' Hi Heq) in Hg'. congruence.
  - intros room wk i. rewrite Hsl. destruct (gone _); [done|]. apply Hv.
  - intros room key x. rewrite Hpi, Hsl. destruct (gone _); [done|]. apply Hp.
  - split; [intros room i Hi; specialize (Hsl (inl room)); cbn in Hsl; rewrite Hsl; destruct (gone _); by auto|..].
    + intros room wk i Hi _. rewrite Hsl. destruct (gone _); by auto.
    + intros room key x Hx _. rewrite Hpi, Hsl. destruct (gone _); by auto.
Qed.

Lemma elem_of_info_rids rid v : rid ∈ info_rids v <-> exists wk i, by_worker v !! wk = Some i /\ info_reservation i = rid.
Proof.
  unfold info_rids. rewrite list_elem_of_fmap. split.
  - intros ([wk i] & -> & Hin%elem_of_map_to_list). eauto.
  - intros (wk & i & Hi & <-). exists (wk, i). split; [done|]. by apply elem_of_map_to_list.
Qed.

Lemma take_router_section L me room w : Future me ∈ L -> media_ok w -> section_ok L w (take_router me room w).1.
Proof.
  intros HL Hok. unfold take_router. destruct (routers w !! room) as [info|] eqn:Hi; [|by apply section_refl]. cbn.
  apply (removal_section L me _ _ (fun s => bool_decide (s = inl room)) [info_reservation info]); [done|done|by left| | |done|done].
  - intros rid. rewrite list_elem_of_singleton. split; [intros ->; exists (inl room), info; by rewrite bool_decide_eq_true|].
    intros (s & i & ->%bool_decide_eq_true & Hi' & <-). cbn in Hi'. congruence.
  - intros [room'|[room' wk]]; cbn; [|done]. case_bool_decide as Hr; [injection Hr as ->; by rewrite lookup_delete_eq|].
    rewrite lookup_delete_ne; [done|congruence].
Qed.

Lemma take_viewers_section L me room w :
  Future me ∈ L -> ViewerLock ∈ L -> media_ok w -> section_ok L w (take_viewers me room w).1.
Proof.
  intros HL HV Hok. unfold take_viewers. destruct (viewers w !! room) as [v|] eqn:Hv; [|by apply section_refl]. cbn.
  assert (forall room', delete room (viewers w) !! room' = if bool_decide (room' = room) then None else viewers w !! room') as Hd.
  { intros room'. case_bool_decide as Hr; [subst; apply lookup_delete_eq|by apply lookup_delete_ne]. }
  apply (removal_section L me _ _ (fun s => match s with inl _ => false | inr (room', _) => bool_decide (room' = room) end) (info_rids v));
    [done|done|by left| | | |done].
  - intros rid. rewrite elem_of_info_rids. split.
    + intros (wk & i & Hi & <-). exists (inr (room, wk)), i. rewrite bool_decide_eq_true. cbn. by rewrite Hv.
    + intros ([room'|[room' wk]] & i & Hr & Hi & <-); [done|]. apply bool_decide_eq_true in Hr as ->. cbn in Hi. rewrite Hv in Hi. eauto.
  - intros [room'|[room' wk]]; cbn; [done|]. rewrite Hd. by case_bool_decide.
  - intros room' key. unfold pipe_of. cbn. rewrite Hd. by case_bool_decide.
Qed.

Lemma hosted_section L me worker w : Future me ∈ L -> ViewerLock ∈ L -> media_ok w ->
  section_ok L w (w <| viewers ::= fmap (without_worker worker) |>
                    <| the_pool ::= fun p => drop_owned me (foldl (give (Some me)) p (hosted_rids worker w)) |>).
Proof.
  intros HL HV Hok.
  apply (removal_section L me _ _ (fun s => match s with inl _ => false | inr (_, wk) => bool_decide (wk = worker) end) (hosted_rids worker w));
    [done|done|by right| | | |done].
  - intros rid. unfold hosted_rids. rewrite list_elem_of_omap. split.
    + intros ([room v] & Hin%elem_of_map_to_list & Hi). cbn in Hi. apply fmap_Some in Hi as (i & Hi & ->).
      exists (inr (room, worker)), i. rewrite bool_decide_eq_true. cbn. by rewrite Hin.
    + intros ([room|[room wk]] & i & Hr & Hi & <-); [done|]. apply bool_decide_eq_true in Hr as ->. cbn in Hi.
      destruct (viewers w !! room) as [v|] eqn:Hv; [|done]. exists (room, v). split; [by apply elem_of_map_to_list|]. cbn in *. by rewrite Hi.
  - intros [room|[room wk]]; cbn; [done|]. rewrite lookup_fmap. destruct (viewers w !! room) as [v|]; cbn; [|by case_bool_decide].
    case_bool_decide as Hk; [subst; by rewrite lookup_delete_eq|]. by rewrite lookup_delete_ne.
  - intros room [pr wk]. unfold pipe_of. cbn. rewrite lookup_fmap. destruct (viewers w !! room) as [v|]; cbn; [|by case_bool_decide].
    rewrite map_lookup_filter. destruct (pipes v !! (pr, wk)) as [x|]; cbn; [|by case_bool_decide].
    case_bool_decide as Hk; [subst; by rewrite option_guard_False by naive_solver|]. by rewrite option_guard_True.
Qed.

Lemma close_viewers_section L me w : Future me ∈ L -> ViewerLock ∈ L -> media_ok w ->
  section_ok L w (w <| viewers := ∅ |> <| the_pool ::= fun p => drop_owned me (foldl (give (Some me)) p (all_viewer_rids w)) |>).
Proof.
  intros HL HV Hok.
  apply (removal_section L me _ _ (fun s => match s with inl _ => false | inr _ => true end) (all_viewer_rids w)); [done|done|by right| | |done|done].
  - intros rid. unfold all_viewer_rids. rewrite list_elem_of_In, in_concat. setoid_rewrite <-list_elem_of_In. split.
    + intros (rids & (v & -> & ([room v'] & -> & Hin%elem_of_map_to_list)%list_elem_of_fmap)%list_elem_of_fmap & Hr).
      apply elem_of_info_rids in Hr as (wk & i & Hi & <-). exists (inr (room, wk)), i. cbn. by rewrite Hin.
    + intros ([room|[room wk]] & i & Hg & Hi & <-); [done|]. cbn in Hi. destruct (viewers w !! room) as [v|] eqn:Hv; [|done].
      exists (info_rids v). split; [|by apply elem_of_info_rids; eauto]. apply list_elem_of_fmap. exists v. split; [done|].
      apply list_elem_of_fmap. exists (room, v). split; [done|]. by apply elem_of_map_to_list.
  - by intros [room|[room wk]].
Qed.

Lemma close_routers_section L me w : Future me ∈ L -> media_ok w ->
  section_ok L w (w <| routers := ∅ |> <| the_pool ::= fun p => drop_owned me (foldl (give (Some me)) p (all_router_rids w)) |>).
Proof.
  intros HL Hok.
  apply (removal_section L me _ _ (fun s => match s with inl _ => true | inr _ => false end) (all_router_rids w)); [done|done|by right| | |done|done].
  - intros rid. unfold all_router_rids. rewrite list_elem_of_fmap. split.
    + intros ([room i] & -> & Hin%elem_of_map_to_list). by exists (inl room), i.
    + intros ([room|?] & i & Hg & Hi & <-); [|done]. exists (room, i). split; [done|]. by apply elem_of_map_to_list.
  - by intros [room|[room wk]].
Qed.

(** ** Adding an entry *)

(** The operation [me] owns the reservation [rid] on [worker]. *)
Definition holds (me rid worker : N) (w : media_world) : Prop := reservations (the_pool w) !! rid = Some (worker, Some me).

Lemma holds_frame L me rid worker w w' : Future me ∈ L -> frame L w w' -> holds me rid worker w -> holds me rid worker w'.
Proof. intros HL Hf Hh. by apply (fr_protects _ _ _ Hf _ HL). Qed.

Lemma give_none_step me p rid worker : pool_ok p -> reservations p !! rid = Some (worker, Some me) ->
  pool_step me p (give None p rid) /\ forall r wk, unowned (give None p rid) r wk <-> unowned p r wk \/ r = rid /\ wk = worker.
Proof.
  intros Hok Hr. split.
  - apply (gives_step me None [rid]); [done|by left|].
    intros r wk o ->%list_elem_of_singleton Ho. right. congruence.
  - intros r wk. unfold unowned. cbn. destruct (decide (r = rid)) as [->|Hne].
    + rewrite lookup_alter_eq, Hr. cbn. naive_solver.
    + rewrite lookup_alter_ne by done. naive_solver.
Qed.

Lemma register_section L me room worker rid w :
  Future me ∈ L -> media_ok w -> holds me rid worker w -> section_ok L w (register_router room worker rid w).1.
Proof.
  intros HL Hok Hh. unfold register_router. destruct (routers w !! room) as [?|] eqn:Hr; [by apply section_refl|]. cbn.
  destruct Hok as [Hpo Hreg Hv Hp]. destruct (give_none_step me (the_pool w) rid worker Hpo Hh) as [Hs Hu].
  apply (own_section _ me); [done|eapply pool_step_trans; [exact Hs|apply bump_step, Hs]| |done|done| |done].
  - apply (registered_add (the_pool w) _ (slot_info w) _ (inl room) (RouterInfo (next_id (the_pool w)) worker rid)); [done|done| |exact Hu|].
    + intros wk Hun. unfold unowned, holds in *. cbn in Hun. congruence.
    + intros [room'|[room' wk]]; cbn; [|done]. destruct (decide _) as [[= ->]|Hne]; [by rewrite lookup_insert_eq|].
      rewrite lookup_insert_ne; [done|congruence].
  - split; [|auto|auto]. intros room' i Hi. left. cbn. rewrite lookup_insert_ne; [done|congruence].
Qed.

(** *** Viewer routers *)

(** [or_default] changes no entry. *)
Lemma enter_default w room w' :
  viewers w' = <[room := default no_viewers (viewers w !! room)]> (viewers w) -> routers w' = routers w ->
  (forall s, slot_info w' s = slot_info w s) /\ (forall room' key, pipe_of w' room' key = pipe_of w room' key).
Proof.
  intros Hv Hr. split.
  - intros [room'|[room' wk]]; cbn; [by rewrite Hr|]. rewrite Hv. destruct (decide (room' = room)) as [->|Hne];
      [rewrite lookup_insert_eq|by rewrite lookup_insert_ne]. by destruct (viewers w !! room).
  - intros room' key. unfold pipe_of. rewrite Hv. destruct (decide (room' = room)) as [->|Hne];
      [rewrite lookup_insert_eq|by rewrite lookup_insert_ne]. by destruct (viewers w !! room).
Qed.

Lemma enter_section L me room participant worker w :
  Future me ∈ L -> ViewerLock ∈ L -> media_ok w -> section_ok L w (enter_viewers me room participant worker w).1.
Proof.
  intros HL HV Hok. unfold enter_viewers. set (w1 := w <| viewers ::= _ |>).
  destruct (enter_default w room w1 eq_refl eq_refl) as [Hsl Hpi].
  assert (forall p' pl t, pool_step me (the_pool w) p' -> (forall rid wk, unowned p' rid wk <-> unowned (the_pool w) rid wk) ->
            section_ok L w (w1 <| the_pool := p' |> <| placements := pl |> <| next_lease_ticket := t |>)) as Hsec.
  { intros p' pl t Hs Hu. set (w2 := w1 <| the_pool := p' |> <| placements := pl |> <| next_lease_ticket := t |>).
    assert (forall s, slot_info w2 s = slot_info w s) as Hsl2 by (intros s; by rewrite <-Hsl; destruct s as [|[]]).
    assert (forall room' key, pipe_of w2 room' key = pipe_of w room' key) as Hpi2 by (intros; by rewrite <-Hpi).
    destruct Hok as [Hpo [Hreg1 Hreg2] Hv Hp]. apply (own_section _ me); [done|done| | | | |done].
    - split; [|intros s s' i i'; rewrite !Hsl2; apply Hreg2]. intros rid wk. cbn. rewrite (Hu rid wk), (Hreg1 rid wk). by setoid_rewrite Hsl2.
    - intros room' wk i. rewrite Hsl2. apply Hv.
    - intros room' key x. rewrite Hsl2, Hpi2. apply Hp.
    - split; [by auto|..]; intros room' key x; [rewrite !Hsl2|rewrite Hpi2]; by auto. }
  destruct (open_viewer room worker w1) as [id|].
  - destruct (drop_owned_step me (the_pool w) (ok_pool _ Hok)) as (Hd & Hun & _). apply (Hsec _ _ _ Hd Hun).
  - apply (Hsec (the_pool w) (placements w) (next_lease_ticket w)); [|done]. by split; [apply Hok|..].
Qed.

(** No open router of the room on the worker. *)
Definition vacant (room : string) (worker : N) (w : media_world) : Prop :=
  forall i, slot_info w (inr (room, worker)) = Some i -> is_closed (the_pool w) (router i) = true.

Lemma open_viewer_vacant room worker w : open_viewer room worker w = None -> vacant room worker w.
Proof.
  intros Ho i Hi. unfold open_viewer in Ho. cbn in Hi. destruct (viewers w !! room) as [v|]; [|done]. cbn in *. rewrite Hi in Ho.
  cbn in Ho. by destruct (is_closed _ _).
Qed.

Lemma closed_evolves w w' id : evolves w w' -> is_closed (the_pool w) id = true -> is_closed (the_pool w') id = true.
Proof. intros [Hc _]. unfold is_closed. rewrite !bool_decide_eq_true. set_solver. Qed.

Lemma vacant_frame L room worker w w' : ViewerLock ∈ L -> frame L w w' -> vacant room worker w -> vacant room worker w'.
Proof.
  intros HL Hf Hv i Hi. eapply closed_evolves; [apply Hf|]. apply Hv. cbn in *.
  by rewrite (fr_protects _ _ _ Hf _ HL : viewers w' = viewers w) in Hi.
Qed.

(** The pool after the replaced entry, if any, has been dropped. *)
Lemma install_pool me w s worker rid :
  media_ok w -> holds me rid worker w ->
  let rids := match slot_info w s with Some old => [info_reservation old] | None => [] end in
  let p' := (drop_owned me (give None (foldl (give (Some me)) (the_pool w) rids) rid)) <| next_id ::= N.succ |> in
  pool_step me (the_pool w) p'
  /\ forall r wk, unowned p' r wk <-> (unowned (the_pool w) r wk /\ r ∉ rids) \/ r = rid /\ wk = worker.
Proof.
  intros Hok Hh rids p'.
  assert (slots_of w rids) as Hslots.
  { intros r Hr. unfold rids in Hr. destruct (slot_info w s) as [old|] eqn:Ho; [|by apply not_elem_of_nil in Hr].
    apply list_elem_of_singleton in Hr as ->. eauto. }
  destruct (take_step me w rids Hok Hslots) as [H1 U1]. set (p1 := foldl (give (Some me)) (the_pool w) rids) in *.
  assert (reservations p1 !! rid = Some (worker, Some me)) as Hr.
  { unfold p1. rewrite gives_lookup, Hh. by destruct (decide _). }
  destruct (give_none_step me p1 rid worker (ps_ok _ _ _ H1) Hr) as [H2 U2].
  destruct (drop_owned_step me _ (ps_ok _ _ _ H2)) as (H3 & U3 & _). split.
  - eapply pool_step_trans; [exact H1|]. eapply pool_step_trans; [exact H2|]. eapply pool_step_trans; [exact H3|]. apply bump_step, H3.
  - intros r wk. change (unowned p' r wk) with (unowned (drop_owned me (give None p1 rid)) r wk). by rewrite (U3 r wk), U2, U1.
Qed.

(** A new entry takes a vacant slot. *)
Lemma occupy_section L me room i w w' :
  let s := inr (room, info_worker i) in
  let rids := match slot_info w s with Some old => [info_reservation old] | None => [] end in
  Future me ∈ L -> ViewerLock ∈ L -> media_ok w -> holds me (info_reservation i) (info_worker i) w -> vacant room (info_worker i) w ->
  pool_step me (the_pool w) (the_pool w') ->
  (forall r wk, unowned (the_pool w') r wk <-> (unowned (the_pool w) r wk /\ r ∉ rids) \/ r = info_reservation i /\ wk = info_worker i) ->
  routers w' = routers w -> (forall s', slot_info w' s' = if decide (s' = s) then Some i else slot_info w s') ->
  (forall room' key, pipe_of w' room' key = pipe_of w room' key) -> section_ok L w w'.
Proof.
  intros s rids HL HV [Hpo Hreg Hv Hp] Hh Hvac Hs Hu Hrt Hsl Hpi. apply (own_section _ me); [done|done| | | | |done].
  - set (sl1 := fun s' => if decide (s' = s) then None else slot_info w s').
    set (p1 := foldl (give (Some me)) (the_pool w) rids).
    assert (forall r wk, unowned p1 r wk <-> unowned (the_pool w) r wk /\ r ∉ rids) as Hu1.
    { apply take_step; [done|]. intros r Hr. unfold rids in Hr. destruct (slot_info w s) as [old|] eqn:Ho; [|by apply not_elem_of_nil in Hr].
      apply list_elem_of_singleton in Hr as ->. eauto. }
    apply (registered_add p1 _ sl1 _ s i); [eapply (registered_take _ _ _ _ rids); [done|done|]| | | |].
    + intros s' j. unfold sl1, rids. destruct (decide _) as [->|Hne].
      * split; [by split|]. destruct (slot_info w s) as [old|]; [|by intros [? _]]. intros [[= ->] Hn]. destruct Hn. by left.
      * split; [|by intros [? _]]. destruct (slot_info w s) as [old|] eqn:Ho; [|intros Hj; split; [done|apply not_elem_of_nil]].
        rewrite list_elem_of_singleton. intros Hj. split; [done|]. intros Heq. by apply Hne, (reg_once _ _ Hreg _ _ j old).
    + unfold sl1. by rewrite decide_True.
    + intros wk [Hun _]%Hu1. unfold unowned, holds in *. congruence.
    + intros r wk. by rewrite Hu, Hu1.
    + intros s'. rewrite Hsl. unfold sl1. by destruct (decide _).
  - intros room' wk j. rewrite Hsl. destruct (decide _) as [[= -> ->]|Hne]; [by intros [= <-]|apply Hv].
  - intros room' key x. rewrite Hpi, Hsl. intros Hx%Hp. by destruct (decide _).
  - split; [rewrite Hrt; by auto|..].
    + intros room' wk j Hj Hopen. left. rewrite Hsl, decide_False; [done|]. intros [= -> ->]. specialize (Hvac _ Hj). congruence.
    + intros room' key x Hx _. left. by rewrite Hpi.
Qed.

Lemma install_section L me room participant worker rid w :
  Future me ∈ L -> ViewerLock ∈ L -> media_ok w -> holds me rid worker w -> vacant room worker w ->
  section_ok L w (install_viewer me room participant worker rid w).1.
Proof.
  intros HL HV Hok Hh Hvac. destruct (install_pool me w (inr (room, worker)) worker rid Hok Hh) as [Hs Hu].
  unfold install_viewer. set (v := default no_viewers (viewers w !! room)). set (i := RouterInfo _ worker rid).
  assert (forall wk, slot_info w (inr (room, wk)) = by_worker v !! wk) as Hby by (intros wk; cbn; unfold v; by destruct (viewers w !! room)).
  assert (forall key, pipe_of w room key = pipes v !! key) as Hpv by (intros key; unfold pipe_of, v; by destruct (viewers w !! room)).
  replace (match by_worker v !! worker with Some old => give (Some me) (the_pool w) (info_reservation old) | None => the_pool w end)
    with (foldl (give (Some me)) (the_pool w) match slot_info w (inr (room, worker)) with Some old => [info_reservation old] | None => [] end)
    by (rewrite Hby; by destruct (by_worker v !! worker)).
  apply (occupy_section L me room i); [done|done|done|done|done|exact Hs|exact Hu|done|..].
  - intros [room'|[room' wk]]; cbn; [done|]. destruct (decide _) as [[= -> ->]|Hne].
    + rewrite lookup_insert_eq. cbn. by rewrite lookup_insert_eq.
    + destruct (decide (room' = room)) as [->|Hr]; [|by rewrite lookup_insert_ne]. rewrite lookup_insert_eq. cbn.
      rewrite lookup_insert_ne by congruence. by rewrite <-Hby.
  - intros room' key. destruct (decide (room' = room)) as [->|Hr]; [|unfold pipe_of; cbn; by rewrite lookup_insert_ne].
    rewrite Hpv. unfold pipe_of. cbn. by rewrite lookup_insert_eq.
Qed.

(** *** Pipes *)

(** Only pipes of a room change, and only to routers that are there. *)
Lemma pipes_section L room v ps w w' :
  ViewerLock ∈ L -> media_ok w -> viewers w !! room = Some v ->
  w' = w <| viewers ::= <[room := v <| pipes := ps |>]> |> <| the_pool := the_pool w' |> ->
  registries (w <| the_pool := the_pool w' |>) = registries w -> evolves w w' ->
  (forall key x, ps !! key = Some x -> is_Some (by_worker v !! key.2)) ->
  (forall key x, pipes v !! key = Some x -> is_closed (the_pool w) x = false -> ps !! key = Some x) ->
  section_ok L w w'.
Proof.
  intros HV Hok Hv Hw' Hreg Hev Hps Hkeep.
  set (w1 := w <| the_pool := the_pool w' |>) in *. destruct (media_quiet_section w w1 Hok Hreg) as [[Hpo Hrg Hvw Hpp] _ _ Hpr]; [by split; apply Hev|].
  assert (forall s, slot_info w' s = slot_info w1 s) as Hsl.
  { rewrite Hw'. intros [room'|[room' wk]]; cbn; [done|]. destruct (decide (room' = room)) as [->|Hr]; [|by rewrite lookup_insert_ne].
    by rewrite lookup_insert_eq, Hv. }
  assert (forall room' key, pipe_of w' room' key = if decide (room' = room) then ps !! key else pipe_of w room' key) as Hpi.
  { rewrite Hw'. intros room' key. unfold pipe_of. cbn. destruct (decide (room' = room)) as [->|Hr]; [by rewrite lookup_insert_eq|by rewrite lookup_insert_ne]. }
  assert (the_pool w' = the_pool w1) as Hpool by done.
  assert (forall s, slot_info w1 s = slot_info w s) as Hsl1 by (intros [|[]]; done).
  split; [split|done| |].
  - by rewrite Hpool.
  - rewrite Hpool. destruct Hrg as [R1 R2]. split; [intros rid wk; rewrite R1; by setoid_rewrite Hsl|]. intros s s' i i'. rewrite !Hsl. apply R2.
  - intros room' wk i. rewrite Hsl. apply Hvw.
  - intros room' key x. rewrite Hpi, Hsl. destruct (decide (room' = room)) as [->|Hr]; [|apply Hpp]. intros Hx%Hps. cbn. by rewrite Hv.
  - split; [rewrite Hw'; by auto|intros room' wk i; rewrite Hsl, Hsl1; by auto|]. intros room' key x Hx Hopen. left. rewrite Hpi.
    destruct (decide (room' = room)) as [->|Hr]; [|done]. apply Hkeep; [|done]. unfold pipe_of in Hx. by rewrite Hv in Hx.
  - intros [me| |] Hl; [apply (Hpr (Future me))|done|apply (Hpr Reconfiguration)]; set_solver.
Qed.

(** The viewer router of the room on the worker is registered and the producer
    has no pipe to it. *)
Definition pipeable (room : string) (producer worker : N) (w : media_world) : Prop :=
  is_Some (slot_info w (inr (room, worker))) /\ pipe_of w room (producer, worker) = None.

Lemma check_pipe_section L room producer worker w :
  ViewerLock ∈ L -> media_ok w ->
  section_ok L w (check_pipe room producer worker w).1
  /\ match (check_pipe room producer worker w).2 with
     | PipeTo _ => pipeable room producer worker (check_pipe room producer worker w).1
     | _ => True
     end.
Proof.
  intros HV Hok. unfold check_pipe. destruct (viewers w !! room) as [v|] eqn:Hv; [|by split; [apply section_refl|]].
  destruct (match pipes v !! (producer, worker) with Some pipe => _ | None => _ end) eqn:Hk; cbn [fst snd]; [by split; [apply section_refl|]|].
  split.
  - apply (pipes_section L room v (delete (producer, worker) (pipes v))); [done|done|done|done|done|done|..].
    + intros key x [_ Hx]%lookup_delete_Some. destruct (ok_pipes _ Hok room key x) as [i Hi]; [unfold pipe_of; by rewrite Hv|].
      cbn in Hi. rewrite Hv in Hi. eauto.
    + intros key x Hx Ho. apply lookup_delete_Some. split; [|done]. intros <-. rewrite Hx, Ho in Hk. done.
  - unfold open_viewer. rewrite Hv. cbn [mbind option_bind]. destruct (by_worker v !! worker) as [i|] eqn:Hi; [|done].
    cbn [mbind option_bind]. destruct (is_closed _ _); [done|]. unfold pipeable, pipe_of. cbn. rewrite lookup_insert_eq. cbn.
    rewrite Hi, lookup_delete_eq. eauto.
Qed.

Lemma pipeable_frame L room producer worker w w' :
  ViewerLock ∈ L -> frame L w w' -> pipeable room producer worker w -> pipeable room producer worker w'.
Proof. intros HL Hf. unfold pipeable, pipe_of. cbn. by rewrite (fr_protects _ _ _ Hf _ HL : viewers w' = viewers w). Qed.

Lemma add_pipe_section L room producer worker w :
  ViewerLock ∈ L -> media_ok w -> pipeable room producer worker w -> section_ok L w (add_pipe room producer worker w).1.
Proof.
  intros HV Hok [[i Hi] Hn]. unfold pipe_of in Hn. cbn in Hi. destruct (viewers w !! room) as [v|] eqn:Hv; [|done]. cbn in Hi, Hn.
  unfold add_pipe. rewrite Hv. cbn [fst default].
  apply (pipes_section L room v (<[(producer, worker) := next_id (the_pool w)]> (filter (fun x : N * N * N => is_closed (the_pool w) x.2 = false) (pipes v))));
    [done|done|done|done|done|by split; [|cbn; lia]|..].
  - intros key x [[<- _]|[_ [Hx _]%map_lookup_filter_Some]]%lookup_insert_Some; [by eauto|].
    destruct (ok_pipes _ Hok room key x) as [j Hj]; [unfold pipe_of; by rewrite Hv|]. cbn in Hj. rewrite Hv in Hj. eauto.
  - intros key x Hx Ho. apply lookup_insert_Some. right. split; [by intros <-; congruence|]. by apply map_lookup_filter_Some.
Qed.

(** *** The pool *)

Lemma reconfigure_section L w p' :
  Reconfiguration ∈ L -> media_ok w -> pool_ok p' -> reservations p' = reservations (the_pool w) ->
  closed (the_pool w) ⊆ closed p' -> (next_id (the_pool w) <= next_id p')%N -> section_ok L w (w <| the_pool := p' |>).
Proof.
  intros HR [Hpo [R1 R2] Hv Hp] Hok Hr Hc Hn. assert (forall s, slot_info (w <| the_pool := p' |>) s = slot_info w s) as Hsl by (intros [|[]]; done).
  split; [split; [done| |done|done]|done|split; by auto|].
  - split; [|done]. intros rid wk. unfold unowned. cbn. rewrite Hr. apply R1.
  - intros [me| |] Hl; cbn; [|done|done]. unfold same_owned. by rewrite Hr.
Qed.

(** ** Operations *)

Definition keeps {A} (L : gset media_lock) (w : media_world) (p : operation A) : Prop := triple L w p (fun _ _ L' => L' = L).

Lemma media_keeps_return {A} L w (x : A) : keeps L w (Return x).
Proof. by apply triple_return. Qed.

Lemma media_keeps_bind {A B} L w (p : operation A) (f : A -> operation B) :
  keeps L w p -> (forall x w', evolves w w' -> keeps L w' (f x)) -> keeps L w (pbind p f).
Proof. intros Hp Hf. eapply triple_bind; [exact Hp|]. intros x w' L' He ->. by apply Hf. Qed.

Lemma media_keeps_section {A} L w (m : media_world -> media_world * A) :
  (forall w0, media_ok w0 -> section_ok L w0 (m w0).1) -> keeps L w (atomically m).
Proof. intros Hm. apply triple_atomic. intros w0 _ Hi. split; [by apply Hm|done]. Qed.

Lemma media_keeps_read {A} L w (f : media_world -> A) : keeps L w (atomically (fun w => (w, f w))).
Proof. apply media_keeps_section. intros. by apply section_refl. Qed.

Lemma media_keeps_quiet {A} L w (m : media_world -> media_world * A) :
  (forall w0, registries (m w0).1 = registries w0 /\ evolves w0 (m w0).1) -> keeps L w (atomically m).
Proof.
  intros Hm. apply media_keeps_section. intros w0 Hi. destruct (Hm w0) as [Hr He].
  destruct (media_quiet_section w0 _ Hi Hr He) as [S1 S2 S3 S4]. split; [done..|]. intros l _. apply S4. set_solver.
Qed.

(** A guard on a lock other than an identity. *)
Lemma media_keeps_holding {A} L l w (p : operation A) :
  match l with Future _ => False | _ => True end ->
  (forall w0, frame L w w0 -> l ∉ L -> keeps ({[l]} ∪ L) w0 p) -> keeps L w (holding l p).
Proof.
  intros Hl Hp. apply triple_guard. intros w0 Hn Hf Hi _. eapply triple_mono; [|by apply Hp].
  cbn. intros x w' L' _ -> w2 _ _. split; [by destruct l|]. by apply unlocked.
Qed.

(** An operation that keeps the invariant under its identity. *)
Lemma media_keeps_future {A} w (body : N -> operation A) :
  (forall me w, keeps {[Future me]} w (body me)) -> keeps ∅ w (as_future body).
Proof.
  intros Hb. unfold as_future. apply media_keeps_bind; [apply media_keeps_quiet; intros w0; split; [done|split; [done|cbn; lia]]|].
  intros me w1 _. apply triple_guard. intros w2 _ _ _ _. rewrite union_empty_r_L.
  eapply triple_bind; [apply Hb|]. intros r w3 L' _ ->.
  eapply (triple_bind _ _ _ _ (fun _ w' L' => L' = {[Future me]} /\ idle (Future me) w')).
  - apply triple_atomic. intros w4 _ Hi. destruct (drop_owned_step me (the_pool w4) (ok_pool _ Hi)) as (Hs & Hu & Hn).
    split; [|done]. apply (pool_section _ me); [set_solver|done|done|done].
  - intros _ w4 L' _ [-> Hn]. apply triple_return. intros w5 Hf5 _. split; [|by rewrite difference_diag_L].
    intros _. eapply idle_stable; [|exact Hn]. apply Hf5. set_solver.
Qed.

(** A reservation is its operation's. *)
Lemma triple_reserve L me w : Future me ∈ L ->
  triple L w (reserve_slot me) (fun r w' L' => L' = L /\ match r with Ok (worker, rid) => holds me rid worker w' | Err _ => True end).
Proof.
  intros HL. apply triple_atomic. intros w0 _ Hi. destruct (reserve_step me (the_pool w0) (ok_pool _ Hi)) as [Hs Hu].
  destruct (reserve_worker me (the_pool w0)) as [p' r] eqn:Hr. cbn in *. split; [by apply (pool_section _ me)|]. split; [done|].
  destruct (reserve_cases me (the_pool w0)) as [(wk & n & Hc & _)|[e Hc]]; rewrite Hr in Hc; injection Hc as -> ->; [|done].
  unfold holds. cbn. by rewrite lookup_insert_eq.
Qed.

Lemma media_keeps_try_reserve {A} L me w (f : N * N -> fallible A) : Future me ∈ L ->
  (forall worker rid w', holds me rid worker w' -> keeps L w' (f (worker, rid))) -> keeps L w (try_bind (reserve_slot me) f).
Proof.
  intros HL Hf. eapply triple_try; [by apply triple_reserve|..]; cbn.
  - intros [worker rid] w' L' _ [-> Hh]. by apply Hf.
  - by intros e w' L' _ [-> _].
Qed.

Lemma media_keeps_ask {A} L w q (f : bool -> operation A) : (forall b, keeps L w (f b)) -> keeps L w (pbind (ask q) f).
Proof. intros Hf. by apply triple_ask_bind. Qed.

Section operations.
Context (port_base : N) (worker_count listeners : nat).

Lemma keeps_create_router w room : keeps ∅ w (create_router room).
Proof.
  apply media_keeps_future. intros me w0. apply media_keeps_bind; [apply media_keeps_read|]. intros [] w1 _; [apply media_keeps_return|].
  apply media_keeps_try_reserve; [set_solver|]. intros worker rid w2 Hh. apply media_keeps_ask. intros []; [|apply media_keeps_return].
  apply triple_atomic. intros w3 Hf Hi. split; [|done]. apply (register_section _ me); [set_solver|done|].
  eapply holds_frame; [|exact Hf|done]. set_solver.
Qed.

Lemma keeps_remove_router w room : keeps ∅ w (remove_router room).
Proof.
  apply media_keeps_future. intros me w0. apply media_keeps_bind; [apply media_keeps_section; intros; apply take_router_section; [set_solver|done]|].
  intros removed w1 _. apply media_keeps_bind; [|intros; apply media_keeps_return]. apply media_keeps_holding; [done|].
  intros w2 _ _. apply media_keeps_section. intros. apply take_viewers_section; [set_solver..|done].
Qed.

Lemma keeps_drop_on_worker w worker : keeps ∅ w (drop_viewer_routers_on_worker worker).
Proof.
  apply media_keeps_future. intros me w0. apply media_keeps_holding; [done|]. intros w1 _ _. apply media_keeps_section.
  intros. apply hosted_section; [set_solver..|done].
Qed.

Lemma keeps_close_all w : keeps ∅ w close_all.
Proof.
  apply media_keeps_future. intros me w0. apply media_keeps_bind.
  - apply media_keeps_holding; [done|]. intros w1 _ _. apply media_keeps_section. intros. apply close_viewers_section; [set_solver..|done].
  - intros _ w1 _. apply media_keeps_section. intros. apply close_routers_section; [set_solver|done].
Qed.

(** The creation of a viewer router under the lock. *)
Lemma keeps_viewer_on L me w room participant worker rid :
  Future me ∈ L -> ViewerLock ∈ L -> holds me rid worker w ->
  keeps L w (viewer_on me room participant worker rid).
Proof.
  intros HL HV Hh.
  eapply (triple_bind _ _ _ _ (fun found w' L' => L' = L /\ (found = None -> holds me rid worker w' /\ vacant room worker w'))).
  - apply triple_atomic. intros w0 Hf Hi. split; [by apply enter_section|]. split; [done|]. unfold enter_viewers.
    destruct (open_viewer room worker _) eqn:Ho; cbn [fst snd record_placement]; [done|]. intros _. split; [exact (holds_frame L me rid worker w w0 HL Hf Hh)|by apply open_viewer_vacant].
  - intros [[id ticket]|] w' L' _ [-> Hn]; [apply media_keeps_return|]. destruct (Hn eq_refl) as [Hh' Hvac].
    apply media_keeps_ask. intros []; [|apply media_keeps_return]. apply media_keeps_bind; [|intros; apply media_keeps_return].
    apply triple_atomic. intros w0 Hf Hi. split; [|done]. apply install_section; [done..|by eapply holds_frame|by eapply vacant_frame].
Qed.

Lemma keeps_place_anew me w room participant primary : keeps {[Future me]} w (place_anew me room participant primary).
Proof.
  apply media_keeps_bind; [apply media_keeps_read|]. intros busy w1 _. destruct (busy <? _)%N; [apply media_keeps_return|].
  apply media_keeps_try_reserve; [set_solver|]. intros worker rid w2 Hh. cbv beta iota. destruct (worker =? info_worker primary)%N.
  - apply media_keeps_bind; [|intros; apply media_keeps_return]. apply media_keeps_section. intros w3 Hi.
    destruct (drop_owned_step me (the_pool w3) (ok_pool _ Hi)) as (Hs & Hu & _). apply (pool_section _ me); [set_solver|done|done|done].
  - apply media_keeps_holding; [done|]. intros w3 Hf _. apply keeps_viewer_on; [set_solver..|]. eapply holds_frame; [|exact Hf|done]. set_solver.
Qed.

Lemma keeps_place_viewer w room participant : keeps ∅ w (place_viewer room participant).
Proof.
  apply media_keeps_future. intros me w0. apply media_keeps_bind; [apply media_keeps_read|]. intros [primary|] w1 _; [|apply media_keeps_return].
  apply media_keeps_bind; [apply media_keeps_read|]. intros [worker|] w2 _; [|apply keeps_place_anew].
  apply media_keeps_bind; [apply media_keeps_holding; [done|]; intros; apply media_keeps_read|]. intros [id|] w3 _; [apply media_keeps_return|].
  apply media_keeps_bind; [by apply media_keeps_quiet|]. intros. apply keeps_place_anew.
Qed.

Lemma keeps_ensure_piped w room participant producer : keeps ∅ w (ensure_piped room participant producer).
Proof.
  apply media_keeps_bind; [apply media_keeps_read|]. intros [worker|] w1 _; [|apply media_keeps_return].
  eapply triple_try; [apply media_keeps_read| |by intros e w' L' _ ->]. intros id w2 L' _ ->.
  apply media_keeps_holding; [done|]. intros w3 _ _. set (L := {[ViewerLock]} ∪ ∅). assert (ViewerLock ∈ L) as HV by set_solver.
  eapply (triple_bind _ _ _ _ (fun check w' L' => L' = L /\ match check with PipeTo _ => pipeable room producer worker w' | _ => True end)).
  - apply triple_atomic. intros w4 _ Hi. destruct (check_pipe_section L room producer worker w4 HV Hi). done.
  - intros [|e|target] w4 L' _ [-> Hp]; [apply media_keeps_return..|]. apply media_keeps_ask. intros []; [|apply media_keeps_return].
    apply media_keeps_bind; [|intros; apply media_keeps_return]. apply triple_atomic. intros w5 Hf Hi. split; [|done].
    apply add_pipe_section; [done|done|]. by eapply pipeable_frame.
Qed.

Lemma position_spec dead w i : position_of dead w = Some i -> workers (the_pool w) !! i = Some dead.
Proof. unfold position_of. rewrite fmap_Some. by intros ([j x] & [Hj [-> _]]%list_find_Some & ->). Qed.

Lemma keeps_recreate w dead : keeps ∅ w (recreate_worker port_base worker_count listeners dead).
Proof.
  apply media_keeps_holding; [done|]. intros w1 _ _. set (L := {[Reconfiguration]} ∪ ∅). assert (Reconfiguration ∈ L) as HR by set_solver.
  eapply (triple_bind _ _ _ _ (fun pos w' L' => L' = L /\ forall i, pos = Some i -> workers (the_pool w') !! i = Some dead)).
  - apply triple_atomic. intros w2 _ Hi. split; [by apply section_refl|]. split; [done|]. apply position_spec.
  - intros [i|] w2 L' _ [-> Hpos]; [|apply media_keeps_return]. apply media_keeps_ask. intros []; [|apply media_keeps_return].
    cbn [negb]. destruct (worker_port _ _ _) as [port|]; [|apply media_keeps_return]. destruct (listeners =? 0)%nat; [apply media_keeps_return|].
    apply media_keeps_ask. intros []; [|apply media_keeps_return]. apply media_keeps_bind; [|intros; apply media_keeps_return].
    apply triple_atomic. intros w3 Hf Hi. split; [|done]. apply reconfigure_section; [done|done| |done|set_solver|cbn; lia].
    apply install_ok; [|apply Hi]. rewrite (fr_protects _ _ _ Hf _ HR : workers _ = workers _). by apply Hpos.
Qed.

Lemma keeps_shutdown_workers w : keeps ∅ w shutdown_workers.
Proof.
  apply media_keeps_holding; [done|]. intros w1 _ _. apply media_keeps_section. intros w2 Hi.
  apply reconfigure_section; [set_solver|done|apply clear_pool_ok, Hi|done|set_solver|done].
Qed.
End operations.
