(* ===== verification/MediaSafety.v ===== *)
(** * The media registries as a system

    All router and pool operations, in any number and order, with native calls
    that succeed or fail and native objects that close at any time: what the
    counts of the workers mean, what is never replaced, and the one way in
    which a room's viewer routers outlive its router. *)

From stdpp Require Import relations.
From S2P Require Import Prelude Process Triples Schedule Workers Routers RouterInv RouterSafety.

Open Scope process_scope.

(** ** The system *)

Definition answered {A} (p : operation A) : operation unit := let* _ := p in Return tt.

Inductive media_request (port_base : N) (worker_count listeners : nat) : operation unit -> Prop :=
| MediaCreate room : media_request port_base worker_count listeners (answered (create_router room))
| MediaRemove room : media_request port_base worker_count listeners (answered (remove_router room))
| MediaPlace room participant : media_request port_base worker_count listeners (answered (place_viewer room participant))
| MediaPipe room participant producer : media_request port_base worker_count listeners (answered (ensure_piped room participant producer))
| MediaDropLease participant ticket : media_request port_base worker_count listeners (answered (drop_lease participant ticket))
| MediaConsumer room participant : media_request port_base worker_count listeners (answered (consumer_worker room participant))
| MediaDropWorker worker : media_request port_base worker_count listeners (answered (drop_viewer_routers_on_worker worker))
| MediaRecreate dead : media_request port_base worker_count listeners (answered (recreate_worker port_base worker_count listeners dead))
| MediaSaturated worker b : media_request port_base worker_count listeners (answered (mark_saturated worker b))
| MediaCloseAll : media_request port_base worker_count listeners (answered close_all)
| MediaShutdown : media_request port_base worker_count listeners (answered shutdown_workers).

Abbreviation media_config := (config media_world media_lock native_call (fun _ => bool)).

Definition media_started (num_workers : nat) : media_world := Media (pool_new num_workers) ∅ ∅ ∅ 1.
Definition media_boot (num_workers : nat) : media_config := Config (media_started num_workers) ∅ ∅.
Definition media_system (port_base : N) (worker_count listeners : nat) : media_config -> media_config -> Prop :=
  some_step outside (media_request port_base worker_count listeners).

(** ** Counting *)

(** Rooms whose router, and rooms one of whose viewer routers, is on a worker;
    reservations of running operations on it. *)
Definition primaries_on (wk : N) (w : media_world) : nat := length (rooms_on_worker wk w).
Definition viewers_on (wk : N) (w : media_world) : nat :=
  length (filter (fun x : string * viewer_routers => is_Some (by_worker x.2 !! wk)) (map_to_list (viewers w))).
Definition in_flight (wk : N) (w : media_world) : nat :=
  size (filter (fun x : N * (N * option N) => x.2.2 <> None) (filter (on_worker wk) (reservations (the_pool w)))).

Lemma length_omap {A B} (f : A -> option B) l : length (omap f l) = length (filter (fun x => is_Some (f x)) l).
Proof.
  induction l as [|x l IH]; [done|]. cbn [omap list_omap]. rewrite filter_cons.
  destruct (f x) as [b|] eqn:Hx; [rewrite decide_True by (by eexists)|rewrite decide_False by (by intros [? ?])]; cbn; [f_equal|]; exact IH.
Qed.

Lemma NoDup_omap_inj {A B} (f : A -> option B) l :
  NoDup l -> (forall x y b, x ∈ l -> y ∈ l -> f x = Some b -> f y = Some b -> x = y) -> NoDup (omap f l).
Proof.
  induction 1 as [|x l Hx Hl IH]; intros Hinj; [constructor|]. cbn.
  assert (NoDup (omap f l)) as Hnd by (apply IH; intros y z b Hy Hz; apply Hinj; by right).
  destruct (f x) as [b|] eqn:Hf; [|done]. constructor; [|done]. intros (y & Hy & Hb)%list_elem_of_omap.
  destruct Hx. rewrite (Hinj x y b); [done|by left|by right|done|done].
Qed.

Lemma elem_of_hosted wk w rid :
  rid ∈ hosted_rids wk w <-> exists room i, slot_info w (inr (room, wk)) = Some i /\ info_reservation i = rid.
Proof.
  unfold hosted_rids. rewrite list_elem_of_omap. split.
  - intros ([room v] & Hin%elem_of_map_to_list & Hi). cbn in Hi. apply fmap_Some in Hi as (i & Hi & ->). exists room, i. cbn. by rewrite Hin.
  - intros (room & i & Hi & <-). cbn in Hi. destruct (viewers w !! room) as [v|] eqn:Hv; [|done]. exists (room, v).
    split; [by apply elem_of_map_to_list|]. cbn in *. by rewrite Hi.
Qed.

(** The reservations of the primary routers on a worker. *)
Definition primary_rids (wk : N) (w : media_world) : list N :=
  (fun x => info_reservation x.2) <$> map_to_list (filter (fun x : string * router_info => info_worker x.2 = wk) (routers w)).

Lemma elem_of_primary wk w rid :
  rid ∈ primary_rids wk w <-> exists room i, slot_info w (inl room) = Some i /\ info_worker i = wk /\ info_reservation i = rid.
Proof.
  unfold primary_rids. rewrite list_elem_of_fmap. split.
  - intros ([room i] & -> & Hin%elem_of_map_to_list). apply map_lookup_filter_Some in Hin as [Hi Hw]. eauto.
  - intros (room & i & Hi & Hw & <-). exists (room, i). split; [done|]. by apply elem_of_map_to_list, map_lookup_filter_Some.
Qed.

Lemma rids_nodup wk w : media_ok w -> NoDup (primary_rids wk w ++ hosted_rids wk w).
Proof.
  intros [_ [_ Ho] _ _]. apply NoDup_app. split_and!.
  - apply NoDup_fmap_2_strong; [|apply NoDup_map_to_list]. intros [r1 i1] [r2 i2] H1%elem_of_map_to_list H2%elem_of_map_to_list Heq.
    apply map_lookup_filter_Some in H1 as [H1 _], H2 as [H2 _]. assert (inl r1 = inl r2) as [= ->] by by eapply (Ho (inl r1) (inl r2)). congruence.
  - intros rid (r1 & i1 & H1 & _ & E1)%elem_of_primary (r2 & i2 & H2 & E2)%elem_of_hosted.
    assert (inl r1 = inr (r2, wk)) by (eapply Ho; [done|done|congruence]). done.
  - apply NoDup_omap_inj; [apply NoDup_map_to_list|]. intros [r1 v1] [r2 v2] rid H1%elem_of_map_to_list H2%elem_of_map_to_list.
    cbn. rewrite !fmap_Some. intros (i1 & E1 & ->) (i2 & E2 & Heq).
    assert (inr (A := string) (r1, wk) = inr (r2, wk)) as [= ->]; [|congruence]. eapply Ho; [..|done]; cbn; by rewrite ?H1, ?H2.
Qed.

Lemma registered_count wk w : media_ok w ->
  size (filter (fun x : N * (N * option N) => x.2.2 = None) (filter (on_worker wk) (reservations (the_pool w))))
  = (primaries_on wk w + viewers_on wk w)%nat.
Proof.
  intros Hok. rewrite <-size_dom. set (U := dom _). assert (U = list_to_set (primary_rids wk w ++ hosted_rids wk w)) as ->.
  { apply set_eq. intros rid. unfold U. rewrite elem_of_list_to_set, elem_of_app, elem_of_primary, elem_of_hosted, elem_of_dom.
    destruct Hok as [_ [Hs _] Hv _]. split.
    - intros [[wk' o] [[Hr Hw]%map_lookup_filter_Some Ho]%map_lookup_filter_Some]. unfold on_worker in Hw. cbn in *. subst.
      apply Hs in Hr as ([room|[room wk']] & i & Hi & <- & Hw); [left; eauto|]. specialize (Hv _ _ _ Hi). right. exists room, i. split; [|done]. by rewrite <-Hw, Hv.
    - intros Hr. exists (wk, None). apply map_lookup_filter_Some. split; [|done]. apply map_lookup_filter_Some. split; [|done].
      apply (Hs rid wk). destruct Hr as [(room & i & Hi & Hw & <-)|(room & i & Hi & <-)]; [by eauto|]. pose proof (Hv _ _ _ Hi). eauto. }
  rewrite size_list_to_set by by apply rids_nodup. rewrite length_app. unfold primaries_on, viewers_on, rooms_on_worker, primary_rids, hosted_rids.
  rewrite !length_fmap, length_omap. f_equal. f_equal. apply list_filter_iff. intros [room v]. cbn. by rewrite fmap_is_Some.
Qed.

Lemma reserved_split wk w : media_ok w ->
  reserved wk (reservations (the_pool w)) = N.of_nat (primaries_on wk w + viewers_on wk w + in_flight wk w).
Proof.
  intros Hok. unfold reserved, in_flight. rewrite <-registered_count by done. f_equal.
  rewrite <-map_size_disj_union by apply map_disjoint_filter_complement. by rewrite map_filter_union_complement.
Qed.

Section system.
Context (port_base : N) (worker_count listeners : nat).
Abbreviation request := (media_request port_base worker_count listeners).
Abbreviation system := (media_system port_base worker_count listeners).
Abbreviation media_config_ok := (Process.config_ok (query := native_call) (reply := (fun _ => bool)) media_ok protects evolves local idle unexcused).

Lemma media_request_keeps p w : request p -> keeps ∅ w p.
Proof.
  intros Hr. destruct Hr; (apply media_keeps_bind; [|intros; apply media_keeps_return]).
  - apply keeps_create_router.
  - apply keeps_remove_router.
  - apply keeps_place_viewer.
  - apply keeps_ensure_piped.
  - apply media_keeps_quiet. intros w0. cbn. by case_bool_decide.
  - apply media_keeps_bind; [apply media_keeps_read|]. intros [] w1 _; [apply media_keeps_return|apply media_keeps_read].
  - apply keeps_drop_on_worker.
  - apply keeps_recreate.
  - by apply media_keeps_quiet.
  - apply keeps_close_all.
  - apply keeps_shutdown_workers.
Qed.

Lemma media_request_ok p : request p -> forall t w h, (forall l, h !! l <> Some t) -> media_ok w ->
  wp media_ok protects evolves local idle unexcused t p (fun _ _ _ => True) w h.
Proof.
  intros Hr t w h Hno Hi. eapply wp_mono; [|apply (media_request_keeps p w Hr)]; [done|].
  intros l. split; [intros Hl; by destruct (Hno l)|set_solver].
Qed.

Lemma media_outside_ok w w' : media_ok w -> outside w w' ->
  media_ok w' /\ evolves w w' /\ local w w' /\ forall l, protects l w w'.
Proof.
  intros Hi (cl & cs & Hc & _ & ->).
  match goal with |- media_ok ?w' /\ _ => destruct (media_quiet_section w w' Hi eq_refl) as [S1 S2 S3 S4]; [by split|] end.
  split_and!; [done..|]. intros l. apply S4. set_solver.
Qed.

Lemma media_started_ok num_workers : media_ok (media_started num_workers).
Proof.
  split; [apply pool_new_ok| |done|done]. split; [|by intros [|[]]]. intros rid wk. unfold unowned. cbn. rewrite pool_new_reservations.
  split; [by rewrite lookup_empty|]. by intros ([room|[room wk']] & i & Hi & _).
Qed.

Lemma media_reachable_ok num_workers c : rtc system (media_boot num_workers) c -> media_config_ok c.
Proof.
  intros Hsteps.
  destruct (steps_keep media_ok protects evolves local idle idle_stable _ _ unexcused outside request media_outside_ok media_request_ok
           (media_boot num_workers) c Hsteps) as [?|([] & ? & ? & _ & _ & [] & _)]; [|done].
  split; [apply media_started_ok|done|done|]. intros [me| |] _; [|done..]. cbn. by rewrite pool_new_reservations.
Qed.

(** C25: under every interleaving of router creation, removal, viewer
    placement, piping, worker recovery and shutdown, with native calls failing
    and native objects closing at any time, the count by which a worker is
    chosen is exact: it is the number of rooms whose router is on the worker,
    plus the rooms with a viewer router on it, plus the reservations of
    operations that are still running.  A reservation in flight always has a
    running owner, so nothing is counted that nobody will refund. *)
Theorem router_load_is_accounted num_workers c wk n :
  rtc system (media_boot num_workers) c -> load (the_pool (the_world c)) !! wk = Some n ->
  n = N.of_nat (primaries_on wk (the_world c) + viewers_on wk (the_world c) + in_flight wk (the_world c))
  /\ (forall rid wk' me, reservations (the_pool (the_world c)) !! rid = Some (wk', Some me) -> is_Some (held c !! Future me))
  /\ (held c = ∅ -> n = N.of_nat (primaries_on wk (the_world c) + viewers_on wk (the_world c))).
Proof.
  intros [Hinv _ _ Hidle]%media_reachable_ok Hn.
  assert (forall rid wk' me, reservations (the_pool (the_world c)) !! rid = Some (wk', Some me) -> is_Some (held c !! Future me)) as Hown.
  { intros rid wk' me Hr. destruct (held c !! Future me) eqn:Hh; [by eauto|]. by destruct (Hidle _ Hh rid wk'). }
  rewrite (pool_exact _ (ok_pool _ Hinv) _ _ Hn), reserved_split by done. split_and!; [done|done|]. intros Hheld. f_equal.
  assert (in_flight wk (the_world c) = 0%nat) as ->; [|lia]. unfold in_flight. apply map_size_empty_iff, map_empty. intros rid.
  apply map_lookup_filter_None. right. intros [wk' [me|]] [Hr _]%map_lookup_filter_Some Ho; [|done].
  apply Hown in Hr. rewrite Hheld, lookup_empty in Hr. by destruct Hr.
Qed.

(** No step replaces what is in use.  A room's router stays until it is
    removed, an open viewer router and an open pipe stay until the room or the
    worker goes: concurrent creations register one winner, and a producer is
    piped to a worker once. *)
Theorem registered_media_is_not_replaced num_workers c c' :
  rtc system (media_boot num_workers) c -> system c c' ->
  (forall room i, routers (the_world c) !! room = Some i -> routers (the_world c') !! room = Some i \/ routers (the_world c') !! room = None)
  /\ (forall room wk i, slot_info (the_world c) (inr (room, wk)) = Some i -> is_closed (the_pool (the_world c)) (router i) = false ->
        slot_info (the_world c') (inr (room, wk)) = Some i \/ slot_info (the_world c') (inr (room, wk)) = None)
  /\ (forall room key x, pipe_of (the_world c) room key = Some x -> is_closed (the_pool (the_world c)) x = false ->
        pipe_of (the_world c') room key = Some x \/ slot_info (the_world c') (inr (room, key.2)) = None).
Proof.
  intros Hc%media_reachable_ok [who Hs].
  destruct (step_relations media_ok protects evolves local idle _ _ _ unexcused outside request media_outside_ok who c c' Hs Hc) as [?|[_ [L1 L2 L3]]]; [by destruct who|].
  done.
Qed.
End system.

(** ** Executions *)

Definition willing (t : N) (q : native_call) : bool := true.

(** A room whose worker has more consumers than keep its viewers there. *)
Definition created : media_config := run willing (replicate 12 1%N) (arrive 1 (answered (create_router "lounge")) (media_boot 2)).
Definition crowded : media_config :=
  let '(Config w h ts) := created in
  Config (w <| the_pool ::= fun p => p <| closed := closed (the_pool w) |>
                                       <| counts := <[0%N := VIEWER_SPREAD_MIN_CONSUMERS]> (counts (the_pool w)) |> |>) h ts.

(** A viewer has found the room's router when the room is removed. *)
Definition overtaken : media_config :=
  run willing (replicate 3 2%N ++ replicate 12 3%N ++ replicate 20 2%N)
    (arrive 3 (answered (remove_router "lounge")) (arrive 2 (answered (place_viewer "lounge" "ann")) crowded)).

Lemma crowded_reachable : rtc (media_system 40000 2 1) (media_boot 2) crowded.
Proof.
  assert (rtc (media_system 40000 2 1) (media_boot 2) created) as Hc.
  { eapply rtc_trans; [|apply run_steps]. apply arrive_steps; [apply MediaCreate|done]. }
  eapply rtc_r; [exact Hc|]. exists None. unfold crowded. destruct created as [w h ts]. apply step_env.
  exists (closed (the_pool w)), (<[0%N := VIEWER_SPREAD_MIN_CONSUMERS]> (counts (the_pool w))). split_and!; [done|by left|done].
Qed.

Lemma router_load_is_accounted_witness :
  load (the_pool (the_world crowded)) !! 0%N = Some 1%N
  /\ 1%N = N.of_nat (primaries_on 0 (the_world crowded) + viewers_on 0 (the_world crowded) + in_flight 0 (the_world crowded)).
Proof.
  split; [by vm_compute|].
  refine (proj1 (router_load_is_accounted 40000 2 1 2 crowded 0 1 crowded_reachable _)). by vm_compute.
Defined.

(** The next step after [crowded]: the room's removal arrives. *)
Lemma registered_media_is_not_replaced_witness :
  let c' := arrive 3 (answered (remove_router "lounge")) crowded in
  is_Some (routers (the_world crowded) !! "lounge")
  /\ forall i, routers (the_world crowded) !! "lounge" = Some i ->
      routers (the_world c') !! "lounge" = Some i \/ routers (the_world c') !! "lounge" = None.
Proof.
  intros c'. split; [eexists; by vm_compute|]. refine (proj1 (registered_media_is_not_replaced 40000 2 1 2 crowded c' crowded_reachable _) "lounge").
  exists None. unfold c'. destruct crowded as [w h ts] eqn:Hc. apply step_request; [apply MediaRemove|].
  change ts with (pool (Config w h ts)). rewrite <-Hc. by vm_compute.
Defined.

(** C39: removing a room's router does not always take its viewer routers
    along.  A viewer that has looked up the router before the removal registers
    a viewer router after it, under a room that is gone; every operation has
    ended, and the router and its share of the load stay. *)
Theorem viewer_router_outlives_room :
  exists c, rtc (media_system 40000 2 1) (media_boot 2) c
  /\ (forall t p, pool c !! t = Some p -> p = Return tt) /\ held c = ∅
  /\ routers (the_world c) = ∅ /\ viewer_router_count "lounge" (the_world c) = 1%nat
  /\ load (the_pool (the_world c)) !! 2%N = Some 1%N.
Proof.
  exists overtaken. split_and!; [| |by vm_compute..]; cycle 1.
  { assert (pool overtaken = <[3%N := Return tt]> (<[2%N := Return tt]> {[1%N := Return tt]})) as -> by by vm_compute.
    intros t p [[_ <-]|[_ [[_ <-]|[_ [_ <-]%lookup_singleton_Some]]%lookup_insert_Some]]%lookup_insert_Some; done. }
  unfold overtaken. eapply rtc_trans; [|apply run_steps]. eapply rtc_trans; [|apply arrive_steps; [apply MediaRemove|by vm_compute]].
  eapply rtc_trans; [apply crowded_reachable|]. apply arrive_steps; [apply MediaPlace|by vm_compute].
Qed.
