(* ===== verification/Transports.v ===== *)
(** * Media sessions ([src/src/media/transport_manager.rs], [ParticipantMedia]
      of [src/src/media/types.rs])

    Each media session has a send and a receive transport, producers and
    consumers, kept in a cell with a lock of its own that is held across native
    calls.  A map leads from session names to cells; a removal takes the cell out
    of the map first and closes it under its lock afterwards.

    Transports, producers and consumers are native objects with identifiers; what
    they report ([closed()], [paused()], the DTLS state) changes at any time.
    Dropping the last handle of an object closes it, which the outside does.
    Error texts leave out the identifiers and causes the code appends. *)

From S2P Require Import Prelude Process Protocol Workers.

Open Scope process_scope.

(** ** Layers *)

Record layers := Layers { spatial_layer : N; temporal_layer : option N }.
#[export] Instance layers_eq_dec : EqDecision layers.
Proof. solve_decision. Defined.
Record layer_state := LayerState { top : layers; client : option layers }.
#[export] Instance eta_layer_state : Eta layer_state := fun s => LayerState (top s) (client s).

Definition effective_layers (top : layers) (client : option layers) (bandwidth_spatial : option N) : layers :=
  let spatial := spatial_layer top in
  let temporal := temporal_layer top in
  let '(spatial, temporal) :=
    match client with
    | Some c =>
        (N.min spatial (spatial_layer c),
         match temporal_layer c, temporal_layer top with
         | Some requested, Some limit => Some (N.min requested limit)
         | _, _ => temporal
         end)
    | None => (spatial, temporal)
    end in
  let spatial := match bandwidth_spatial with Some tier => N.min spatial tier | None => spatial end in
  Layers spatial temporal.

Definition consumer_layers_transition_needed (current : option layers) (requested : layers) : bool :=
  bool_decide (current <> Some requested).
Definition pause_transition_needed (currently requested : bool) : bool := negb (Bool.eqb currently requested).

(** What the worker answers about a consumer it made: its kind, whether it is
    of the simple type, the scalability mode of its first encoding, and the
    layers it prefers. *)
Record consumer_answer := ConsumerAnswer {
  answer_kind : media_kind; simple : bool; scalability : option (N * N); answer_layers : option layers }.

Definition layered_top (c : consumer_answer) : option layers :=
  if simple c then None
  else '(spatial, temporal) ← scalability c; Some (Layers (N.pred spatial) (Some (N.pred temporal))).

Inductive consumer_source := ScreenVideo | OtherSource.
Definition from_room_source (kind : media_kind) (source : option string) : consumer_source :=
  match kind with
  | Video => if bool_decide (source = Some "screen") then ScreenVideo else OtherSource
  | Audio => OtherSource
  end.
Definition consumer_video_priority (kind : media_kind) (source : consumer_source) : N :=
  match kind, source with Video, ScreenVideo => 4 | _, _ => 1 end.

(** ** One session *)

Record participant_media := ParticipantMedia {
  generation : N;
  send_transport : option N;
  recv_transport : option N;
  send_connect_applied : option N;
  recv_connect_applied : option N;
  recv_replacement : option (N * N);
  producers : gset N;
  consumers : gset N;
  bandwidth_spatial_ceiling : option N;
  consumer_layers : gmap N layer_state;
  (** The ticket of the lease. *)
  viewer_lease : option N
}.
#[export] Instance eta_participant_media : Eta participant_media := fun m =>
  ParticipantMedia (generation m) (send_transport m) (recv_transport m) (send_connect_applied m) (recv_connect_applied m)
    (recv_replacement m) (producers m) (consumers m) (bandwidth_spatial_ceiling m) (consumer_layers m) (viewer_lease m).

Definition media_new (generation : N) : participant_media :=
  ParticipantMedia generation None None None None None ∅ ∅ None ∅ None.
(** [ParticipantMedia::close_all]. *)
Definition close_media (m : participant_media) : participant_media :=
  ParticipantMedia (generation m) None None None None None ∅ ∅ None ∅ None.

(** ** All of them *)

Inductive dtls_state := DtlsNew | DtlsConnecting | DtlsConnected | DtlsFailed | DtlsClosed.

Record native_consumer := NativeConsumer { c_paused : bool; preferred_layers : option layers; counter : option N }.
#[export] Instance eta_native_consumer : Eta native_consumer := fun c => NativeConsumer (c_paused c) (preferred_layers c) (counter c).

Record session_world := Sessions {
  participants : gmap string N;
  cells : gmap N participant_media;
  (** By generation: the receive transport whose estimates are forwarded. *)
  bwe_trace_handlers : gmap N N;
  (** Cells out of the map, and the operation that is about to close each. *)
  closing : gmap N N;
  native_closed : gset N;
  dtls : gmap N dtls_state;
  producer_paused : gmap N bool;
  native_consumers : gmap N native_consumer;
  (** The consumer counters of the workers. *)
  counters : gmap N N;
  next : N
}.
#[export] Instance eta_session_world : Eta session_world := fun w =>
  Sessions (participants w) (cells w) (bwe_trace_handlers w) (closing w) (native_closed w) (dtls w) (producer_paused w)
    (native_consumers w) (counters w) (next w).

Inductive session_lock := Session (a : N) | Closer (me : N).
#[export] Instance session_lock_eq_dec : EqDecision session_lock.
Proof. solve_decision. Defined.
#[export] Instance session_lock_countable : Countable session_lock.
Proof.
  refine (inj_countable' (fun l => match l with Session a => inl a | Closer me => inr me end)
            (fun s => match s with inl a => Session a | inr me => Closer me end) _). by intros [].
Defined.

Inductive worker_call :=
| CreateTransport (router server : N)
| SetMaxIncoming (transport bitrate : N)
| SetMaxOutgoing (transport bitrate : N)
| SetMinOutgoing (transport bitrate : N)
| Connect (transport : N)
| EnableTrace (transport : N)
| Produce (transport : N) (kind : media_kind) (key_frame_delay : option N)
| Consume (transport producer : N) (preferred : option layers)
| SetPriority (priority : N)
| PauseConsumer (consumer : N)
| ResumeConsumer (consumer : N)
| PauseProducer (producer : N)
| ResumeProducer (producer : N)
| SetLayers (consumer : N) (target : layers)
| RestartIce (transport : N).

(** Whether the call succeeded; a layer change answers with the layers the
    worker now prefers, an ICE restart with credentials. *)
Definition worker_reply (q : worker_call) : Type :=
  match q with
  | Consume _ _ _ => option consumer_answer
  | SetLayers _ _ => option (option layers)
  | RestartIce _ => option N
  | _ => bool
  end.

Abbreviation operation A := (process session_world session_lock worker_call worker_reply A).
Abbreviation fallible A := (operation (result media_error A)).

Definition is_closed (w : session_world) (x : N) : bool := bool_decide (x ∈ native_closed w).
(** Present and not closed. *)
Definition open (w : session_world) (x : option N) : bool := match x with Some x => negb (is_closed w x) | None => false end.
Definition dtls_of (w : session_world) (t : N) : dtls_state := default DtlsNew (dtls w !! t).
Definition consumer_of (w : session_world) (c : N) : native_consumer := default (NativeConsumer true None None) (native_consumers w !! c).
Definition counter_value (w : session_world) (k : N) : N := default 0%N (counters w !! k).

Definition new_native : operation N := atomically (fun w => (w <| next ::= N.succ |>, next w)).

(** The caller is in the session's lock. *)
Definition media_at (w : session_world) (a : N) : participant_media := default (media_new a) (cells w !! a).
Definition read_media {A} (a : N) (f : participant_media -> session_world -> A) : operation A :=
  atomically (fun w => (w, f (media_at w a) w)).
Definition write_media (a : N) (f : participant_media -> participant_media) (w : session_world) : session_world :=
  w <| cells ::= <[a := f (media_at w a)]> |>.

(** *** The map *)

(** A cell's generation, a fresh identifier, is also its address. *)
Definition get_or_create_participant (id : string) : operation N :=
  atomically (fun w =>
    match participants w !! id with
    | Some a => (w, a)
    | None => let a := next w in
              (w <| participants ::= <[id := a]> |> <| cells ::= <[a := media_new a]> |> <| next ::= N.succ |>, a)
    end).

Definition participant_is_current (id : string) (a : N) (w : session_world) : bool := bool_decide (participants w !! id = Some a).

(** The text of the error names the participant by the public part of [id]. *)
Definition get_participant_lock (id : string) : fallible N :=
  atomically (fun w => (w, ok_or (participants w !! id) (ParticipantNotFound id))).

(** [get_participant_lock] and the session's mutex. *)
Definition with_session {A} (id : string) (body : N -> fallible A) : fallible A :=
  let? a := get_participant_lock id in holding (Session a) (body a).

(** A first section ends the operation or hands on what it found. *)
Inductive verdict (A B : Type) := Done (r : result media_error A) | Proceed (x : B).
Arguments Done {A B} r.
Arguments Proceed {A B} x.
Definition proceed {A B} (p : operation (verdict A B)) (k : B -> fallible A) : fallible A :=
  let* v := p in match v with Done r => Return r | Proceed x => k x end.
Notation "'let+' x ':=' p 'in' k" := (proceed p (fun x => k))
  (at level 10, x name, p at level 100, k at level 200) : process_scope.
Notation "'let+' ' p ':=' m 'in' k" := (proceed m (fun x => match x with p => k end))
  (at level 10, p pattern, m at level 100, k at level 200) : process_scope.

(** ** Transports *)

(** A listener: whether its address is IPv4, and the address it announces with
    the family that address parses to. *)
Record listener := Listener { listens_ipv4 : bool; announced : option (string * option bool) }.

(** [WebRtcTransportConfig], without what is only handed to the worker. *)
Record transport_config := TransportConfig {
  listen_ips : list listener;
  min_outgoing_bitrate : N;
  max_outgoing_bitrate : N;
  max_incoming_bitrate : option N;
  enable_udp : bool;
  enable_tcp : bool
}.

Definition unless (b : bool) (e : string) (rest : result string unit) : result string unit := if b then rest else Err e.
Definition usable_bitrate (bitrate : N) : bool := (bitrate =? 0)%N || (30000 <=? bitrate)%N.
Fixpoint announcements (ls : list listener) : result string unit :=
  match ls with
  | [] => Ok tt
  | l :: ls =>
      match announced l with
      | Some (text, None) => Err ("announced address " ++ text ++ " is not an IP")%string
      | Some (text, Some ipv4) =>
          unless (Bool.eqb ipv4 (listens_ipv4 l)) ("announced address " ++ text ++ " does not match its listener's family")%string (announcements ls)
      | None => announcements ls
      end
  end.
Definition validate (c : transport_config) : result string unit :=
  unless (usable_bitrate (min_outgoing_bitrate c)) "minimum outgoing bitrate must be zero or at least 30000 bit/s"
  (unless (usable_bitrate (max_outgoing_bitrate c)) "maximum outgoing bitrate must be zero or at least 30000 bit/s"
  (unless ((max_outgoing_bitrate c =? 0)%N || (min_outgoing_bitrate c <=? max_outgoing_bitrate c)%N)
     "minimum outgoing bitrate must not exceed maximum outgoing bitrate"
  (unless (negb (bool_decide (listen_ips c = []))) "at least one media listener is needed"
  (unless ((length (filter (fun l => listens_ipv4 l = true) (listen_ips c)) <=? 1)%nat
           && (length (filter (fun l => listens_ipv4 l = false) (listen_ips c)) <=? 1)%nat)
     "one media listener per address family: announce one IPv4 and at most one IPv6 address"
  (match announcements (listen_ips c) with
   | Ok _ => unless (enable_udp c || enable_tcp c) "at least one WebRTC transport protocol must be enabled" (Ok tt)
   | Err e => Err e
   end))))).

(** A 64-bit estimate as a 32-bit bitrate. *)
Definition application_bitrate (bitrate : N) : N := if (bitrate <=? U32_MAX)%N then bitrate else U32_MAX.

Section manager.
Context (config : transport_config) (key_frame_request_delay : N) (producer_cap consumer_cap : nat).

Definition with_config {A} (p : fallible A) : fallible A :=
  match validate config with Err e => Return (Err (ConfigurationError e)) | Ok _ => p end.

Definition build_send_transport (router server : N) : fallible N :=
  let* created := ask (CreateTransport router server) in
  if negb created then Return (Err (TransportError "Failed to create send transport"))
  else
    let* t := new_native in
    match max_incoming_bitrate config with
    | Some maximum =>
        let* applied := ask (SetMaxIncoming t maximum) in
        Return (if applied : bool then Ok t else Err (TransportError "Failed to apply incoming bitrate limit"))
    | None => Return (Ok t)
    end.

Definition build_recv_transport (router server : N) : fallible N :=
  let* created := ask (CreateTransport router server) in
  if negb created then Return (Err (TransportError "Failed to create receive transport"))
  else
    let* t := new_native in
    let* applied := ask (SetMaxOutgoing t (max_outgoing_bitrate config)) in
    if negb applied then Return (Err (TransportError "Failed to apply outgoing bitrate limit"))
    else
      let* applied := ask (SetMinOutgoing t (min_outgoing_bitrate config)) in
      Return (if applied : bool then Ok t else Err (TransportError "Failed to apply minimum outgoing bitrate")).

Definition session_over : media_error := InvalidState "Participant media session is no longer active".

Definition install_send (id : string) (a t : N) (w : session_world) : session_world * result media_error N :=
  if participant_is_current id a w
  then (write_media a (fun m => m <| send_transport := Some t |> <| send_connect_applied := None |>) w, Ok t)
  else (w, Err (InvalidState "Participant media session closed while creating send transport")).

Definition create_send_transport (id : string) (router server : N) : fallible N :=
  with_config
    (let* a := get_or_create_participant id in
     holding (Session a)
       (let+ _ := read_media a (fun m w =>
          if negb (participant_is_current id a w) then Done (Err session_over)
          else if open w (send_transport m) then Done (Err (TransportError "Send transport already exists"))
          else Proceed tt) in
        let? t := build_send_transport router server in
        atomically (install_send id a t))).

Definition clear_bwe_trace_handler (generation : N) (w : session_world) : session_world :=
  w <| bwe_trace_handlers ::= delete generation |>.

Definition install_recv (id : string) (a t : N) (w : session_world) : session_world * result media_error N :=
  if participant_is_current id a w
  then (write_media a (fun m =>
          m <| recv_transport := Some t |> <| recv_connect_applied := None |> <| recv_replacement := None |>
            <| bandwidth_spatial_ceiling := None |>) (clear_bwe_trace_handler (generation (media_at w a)) w), Ok t)
  else (w, Err (InvalidState "Participant media session closed while creating receive transport")).

Definition create_recv_transport (id : string) (router server : N) : fallible N :=
  with_config
    (let* a := get_or_create_participant id in
     holding (Session a)
       (let+ _ := read_media a (fun m w =>
          if negb (participant_is_current id a w) then Done (Err session_over)
          else if open w (recv_transport m) then Done (Err (TransportError "Receive transport already exists"))
          else Proceed tt) in
        let? t := build_recv_transport router server in
        atomically (install_recv id a t))).

(** *** Replacement of the receiver *)

Definition replay_recv_replacement (m : participant_media) (expected : N) (w : session_world)
  : result media_error (option N) :=
  match recv_transport m with
  | None => Err (TransportError "Receive transport not found")
  | Some current =>
      if (current =? expected)%N then Ok None
      else if negb (is_closed w current) && bool_decide (recv_replacement m = Some (expected, current)) then Ok (Some current)
      else Err (InvalidState "Receive transport changed; replacement request is stale")
  end.

Definition media_session_changed : media_error := InvalidState "Media session changed".

Definition recv_replacement_replay (id : string) (expected : N) : fallible (option N) :=
  with_session id (fun a => read_media a (fun m w =>
    if negb (participant_is_current id a w) then Err media_session_changed else replay_recv_replacement m expected w)).

(** The lease of the new placement, and whether the old one stays without. *)
Definition install_receiver (id : string) (a expected t : N) (lease : option N) (retain_existing_lease traced : bool)
  (w : session_world) : session_world * result media_error N :=
  if negb (participant_is_current id a w) || is_closed w t then (w, Err media_session_changed)
  else
    let g := generation (media_at w a) in
    let w := clear_bwe_trace_handler g w in
    let w := write_media a (fun m =>
      m <| consumers := ∅ |> <| consumer_layers := ∅ |> <| bandwidth_spatial_ceiling := None |> <| recv_connect_applied := None |>
        <| recv_replacement := Some (expected, t) |> <| recv_transport := Some t |>
        <| viewer_lease ::= fun old => match lease with Some l => Some l | None => if retain_existing_lease then old else None end |>) w in
    (if traced then w <| bwe_trace_handlers ::= <[g := t]> |> else w, Ok t).

Definition replace_recv_transport (id : string) (expected router server : N) (lease : option N) (retain_existing_lease bwe : bool)
  : fallible N :=
  with_config
    (with_session id (fun a =>
       let+ _ := read_media a (fun m w =>
         if negb (participant_is_current id a w) then Done (Err media_session_changed)
         else match replay_recv_replacement m expected w with
              | Err e => Done (Err e)
              | Ok (Some current) => Done (Ok current)
              | Ok None => Proceed tt
              end) in
       let? t := build_recv_transport router server in
       let* traced := (if bwe then (ask (EnableTrace t) : operation bool) else Return true) in
       if negb traced then Return (Err (TransportError "Failed to enable trace events"))
       else atomically (install_receiver id a expected t lease retain_existing_lease bwe))).

Definition is_current_recv_transport (id : string) (expected : N) : operation bool :=
  let* found := get_participant_lock id in
  match found with
  | Err _ => Return false
  | Ok a => holding (Session a) (read_media a (fun m w =>
      participant_is_current id a w && bool_decide (recv_transport m = Some expected) && negb (is_closed w expected)))
  end.

(** *** Connection *)

(** The transport of that name: [true] for the send transport. *)
Definition find_transport (m : participant_media) (t : N) : option bool :=
  if bool_decide (send_transport m = Some t) then Some true
  else if bool_decide (recv_transport m = Some t) then Some false else None.

Definition transport_missing : media_error := TransportError "Transport not found".

Definition connect_applied (is_send : bool) (m : participant_media) : option N :=
  if is_send then send_connect_applied m else recv_connect_applied m.

Definition connect_transport (id : string) (t : N) : fallible bool :=
  with_session id (fun a =>
    let+ is_send := read_media a (fun m w =>
      match find_transport m t with
      | None => Done (Err transport_missing)
      | Some is_send =>
          if is_closed w t || match dtls_of w t with DtlsFailed | DtlsClosed => true | _ => false end
          then Done (Err (InvalidState "Transport is closed or cannot connect"))
          else if bool_decide (connect_applied is_send m = Some t) then Done (Ok false)
          else Proceed is_send
      end) in
    let* connected := ask (Connect t) in
    if negb connected then Return (Err (TransportError "Failed to connect transport"))
    else
      atomically (fun w =>
        (write_media a (fun m => if is_send : bool then m <| send_connect_applied := Some t |> else m <| recv_connect_applied := Some t |>) w,
         Ok true))).

Definition restart_ice (id : string) (t : N) : fallible N :=
  with_session id (fun a =>
    let+ _ := read_media a (fun m w => match find_transport m t with Some _ => Proceed tt | None => Done (Err transport_missing) end) in
    let* credentials := ask (RestartIce t) in
    Return (ok_or credentials (TransportError "Failed to restart ICE"))).

Definition subscribe_bwe_events (id : string) : fallible unit :=
  with_session id (fun a =>
    let+ t := read_media a (fun m w => match recv_transport m with
                                       | Some t => Proceed t
                                       | None => Done (Err (TransportError "Recv transport not found"))
                                       end) in
    let* traced := ask (EnableTrace t) in
    if negb traced then Return (Err (TransportError "Failed to enable trace events"))
    else atomically (fun w => (w <| bwe_trace_handlers ::= <[generation (media_at w a) := t]> |>, Ok tt))).

(** ** Producers and consumers *)

(** Closed producers leave the session before they are counted. *)
Definition prepare_producer (a t : N) (w : session_world) : session_world * verdict N unit :=
  let w := write_media a (fun m => m <| producers ::= filter (fun x => is_closed w x = false) |>) w in
  let m := media_at w a in
  (w, if (producer_cap <=? size (producers m))%nat then Done (Err (ProducerError "Producer limit reached"))
      else if negb (bool_decide (send_transport m = Some t)) then Done (Err transport_missing)
      else Proceed tt).

Definition add_producer (a : N) (w : session_world) : session_world * result media_error N :=
  let x := next w in
  (write_media a (fun m => m <| producers ::= union {[x]} |>) w <| producer_paused ::= <[x := false]> |> <| next ::= N.succ |>, Ok x).

Definition create_producer (id : string) (t : N) (kind : media_kind) : fallible N :=
  with_session id (fun a =>
    let+ _ := atomically (prepare_producer a t) in
    let* produced := ask (Produce t kind (match kind with Video => Some key_frame_request_delay | Audio => None end)) in
    if negb produced then Return (Err (ProducerError "Failed to create producer"))
    else atomically (add_producer a)).

(** The receive transport and the tier new consumers start under. *)
Definition prepare_consumer (a : N) (w : session_world) : session_world * verdict N (N * option N) :=
  let w := write_media a (fun m =>
    let live := filter (fun x => is_closed w x = false) (consumers m) in
    m <| consumers := live |> <| consumer_layers ::= filter (fun x : N * layer_state => x.1 ∈ live) |>) w in
  let m := media_at w a in
  (w, if (consumer_cap <=? size (consumers m))%nat then Done (Err (ConsumerError "Consumer limit reached"))
      else match recv_transport m with
           | None => Done (Err (TransportError "Receive transport not found"))
           | Some t => Proceed (t, bandwidth_spatial_ceiling m)
           end).

(** [fetch_add] and [fetch_sub] wrap around. *)
Definition USIZE_SIZE : N := N.succ USIZE_MAX.
Definition count_consumer (k : option N) (w : session_world) : session_world :=
  match k with
  | Some k => w <| counters ::= <[k := ((counter_value w k + 1) mod USIZE_SIZE)%N]> |>
  | None => w
  end.

Definition uncount_consumer (k : option N) (w : session_world) : session_world :=
  match k with
  | Some k => w <| counters ::= <[k := ((counter_value w k + USIZE_MAX) mod USIZE_SIZE)%N]> |>
  | None => w
  end.

(** A consumer that is closed already when its handler is attached is counted
    and uncounted, as one that closes right afterwards. *)
Definition add_consumer (a : N) (k : option N) (answer : consumer_answer) (w : session_world) : session_world * result media_error N :=
  let c := next w in
  let w := count_consumer k w in
  (write_media a (fun m =>
     (match layered_top answer with
      | Some top => m <| consumer_layers ::= <[c := LayerState top None]> |>
      | None => m
      end) <| consumers ::= union {[c]} |>) w
   <| native_consumers ::= <[c := NativeConsumer true (answer_layers answer) k]> |> <| next ::= N.succ |>, Ok c).

(** An object closes; the handler of a consumer uncounts it. *)
Definition native_close (x : N) (w : session_world) : session_world :=
  if is_closed w x then w
  else (match native_consumers w !! x with Some c => uncount_consumer (counter c) w | None => w end)
         <| native_closed ::= union {[x]} |>.

Definition create_consumer (id : string) (producer : N) (source : consumer_source) (counter : option N) : fallible N :=
  with_session id (fun a =>
    let+ '(t, tier) := atomically (prepare_consumer a) in
    let* answer := ask (Consume t producer ((fun tier => Layers tier None) <$> tier)) in
    match answer with
    | None => Return (Err (ConsumerError "Failed to create consumer"))
    | Some answer =>
        let priority := consumer_video_priority (answer_kind answer) source in
        let* prioritized := (if (priority =? 1)%N then Return true else (ask (SetPriority priority) : operation bool)) in
        if negb prioritized then Return (Err (ConsumerError "Failed to prioritize presentation"))
        else atomically (add_consumer a counter answer)
    end).

Definition consumer_missing : media_error := ConsumerError "Consumer not found".
Definition producer_missing : media_error := ProducerError "Producer not found".

Definition set_consumer_paused (paused : bool) (id : string) (c : N) : fallible bool :=
  with_session id (fun a =>
    let+ _ := read_media a (fun m w =>
      if negb (bool_decide (c ∈ consumers m)) then Done (Err consumer_missing)
      else if pause_transition_needed (c_paused (consumer_of w c)) paused then Proceed tt else Done (Ok false)) in
    let* changed := (if paused then (ask (PauseConsumer c) : operation bool) else ask (ResumeConsumer c)) in
    if negb changed then Return (Err (ConsumerError (if paused then "Failed to pause consumer" else "Failed to resume consumer")))
    else atomically (fun w => (w <| native_consumers ::= alter (fun n => n <| c_paused := paused |>) c |>, Ok true))).
Definition pause_consumer : string -> N -> fallible bool := set_consumer_paused true.
Definition resume_consumer : string -> N -> fallible bool := set_consumer_paused false.

Definition set_producer_paused (paused : bool) (id : string) (x : N) : fallible bool :=
  with_session id (fun a =>
    let+ _ := read_media a (fun m w =>
      if negb (bool_decide (x ∈ producers m)) then Done (Err producer_missing)
      else if pause_transition_needed (default false (producer_paused w !! x)) paused then Proceed tt else Done (Ok false)) in
    let* changed := (if paused then (ask (PauseProducer x) : operation bool) else ask (ResumeProducer x)) in
    if negb changed then Return (Err (ProducerError (if paused then "Failed to pause producer" else "Failed to resume producer")))
    else atomically (fun w => (w <| producer_paused ::= <[x := paused]> |>, Ok true))).
Definition pause_producer : string -> N -> fallible bool := set_producer_paused true.
Definition resume_producer : string -> N -> fallible bool := set_producer_paused false.

Definition get_participant (id : string) : fallible participant_media :=
  with_session id (fun a => read_media a (fun m _ => Ok m)).

(** *** Layers of a consumer *)

(** The layers the worker should have, when it has others. *)
Definition layer_change (m : participant_media) (c : N) (s : layer_state) (w : session_world) : option layers :=
  let target := effective_layers (top s) (client s) (bandwidth_spatial_ceiling m) in
  if consumer_layers_transition_needed (preferred_layers (consumer_of w c)) target then Some target else None.

Definition write_effective_layers (c : N) (target : layers) : fallible bool :=
  let* answer := ask (SetLayers c target) in
  match answer with
  | None => Return (Err (ConsumerError "Failed to set preferred layers"))
  | Some l => atomically (fun w => (w <| native_consumers ::= alter (fun n => n <| preferred_layers := l |>) c |>, Ok true))
  end.

Definition record_preference (a c : N) (preferred : layers) (w : session_world) : session_world * verdict bool layers :=
  let m := media_at w a in
  if negb (bool_decide (c ∈ consumers m)) then (w, Done (Err consumer_missing))
  else match consumer_layers m !! c with
  | None => (w, Done (Ok false))
  | Some s =>
      let s := s <| client := Some preferred |> in
      (write_media a (fun m => m <| consumer_layers ::= <[c := s]> |>) w,
       match layer_change m c s w with Some target => Proceed target | None => Done (Ok false) end)
  end.

Definition set_preferred_layers (id : string) (c : N) (preferred : layers) : fallible bool :=
  with_session id (fun a =>
    let+ target := atomically (record_preference a c preferred) in
    write_effective_layers c target).

Definition apply_layer_ceilings (id : string) (c : N) : fallible bool :=
  with_session id (fun a =>
    let+ target := read_media a (fun m w =>
      if negb (bool_decide (c ∈ consumers m)) then Done (Err consumer_missing)
      else match consumer_layers m !! c with
           | None => Done (Ok false)
           | Some s => match layer_change m c s w with Some target => Proceed target | None => Done (Ok false) end
           end) in
    write_effective_layers c target).

(** Open consumers whose layers are not the ones they should have, in order. *)
Definition pending_layers (m : participant_media) (w : session_world) : list N :=
  merge_sort N.le (fst <$> map_to_list (filter (fun x : N * layer_state =>
    x.1 ∈ consumers m /\ is_closed w x.1 = false /\ layer_change m x.1 x.2 w <> None) (consumer_layers m))).

Definition set_bandwidth_ceiling_for_transport (id : string) (expected : option N) (spatial : N) : fallible (list N) :=
  with_session id (fun a => atomically (fun w =>
    let m := media_at w a in
    if match expected with
       | Some t => negb (bool_decide (recv_transport m = Some t) && negb (is_closed w t))
       | None => false
       end
    then (w, Err (InvalidState "Receive transport changed"))
    else
      let m := m <| bandwidth_spatial_ceiling := Some spatial |> in
      (write_media a (fun _ => m) w, Ok (pending_layers m w)))).

Definition set_bandwidth_ceiling (id : string) (spatial : N) : fallible (list N) :=
  set_bandwidth_ceiling_for_transport id None spatial.

(** ** Removal *)

Definition close_consumer (id : string) (c : N) : fallible bool :=
  with_session id (fun a => atomically (fun w =>
    (write_media a (fun m => m <| consumer_layers ::= delete c |> <| consumers ::= fun s => s ∖ {[c]} |>) w,
     Ok (bool_decide (c ∈ consumers (media_at w a)))))).

Definition close_producer (id : string) (x : N) : fallible unit :=
  with_session id (fun a => atomically (fun w =>
    if bool_decide (x ∈ producers (media_at w a))
    then (write_media a (fun m => m <| producers ::= fun s => s ∖ {[x]} |>) w, Ok tt)
    else (w, Err producer_missing))).

Definition attach_viewer_lease (id : string) (lease : N) : fallible unit :=
  with_session id (fun a => atomically (fun w => (write_media a (fun m => m <| viewer_lease := Some lease |>) w, Ok tt))).

(** The cell leaves the map with the operation that will close it. *)
Definition take_session (me : N) (id : string) (w : session_world) : session_world * option N :=
  match participants w !! id with
  | Some a => (w <| participants ::= delete id |> <| closing ::= <[a := me]> |>, Some a)
  | None => (w, None)
  end.
Definition close_cell (a : N) (w : session_world) : session_world * unit :=
  (clear_bwe_trace_handler (generation (media_at w a)) (write_media a close_media w) <| closing ::= delete a |>, tt).

Definition remove_participant (id : string) : fallible unit :=
  let* me := new_native in
  holding (Closer me)
    (let* taken := atomically (take_session me id) in
     match taken with
     | None => Return (Err (ParticipantNotFound id))
     | Some a => let* _ := holding (Session a) (atomically (close_cell a)) in Return (Ok tt)
     end).

Definition drain_sessions (me : N) (w : session_world) : session_world * list N :=
  let all := snd <$> map_to_list (participants w) in
  (w <| participants := ∅ |> <| closing ::= fun cl => foldr (fun a => <[a := me]>) cl all |>, all).
Fixpoint close_each (all : list N) : operation unit :=
  match all with
  | [] => Return tt
  | a :: all => let* _ := holding (Session a) (atomically (close_cell a)) in close_each all
  end.
Definition close_all_sessions : operation unit :=
  let* me := new_native in
  holding (Closer me) (let* all := atomically (drain_sessions me) in close_each all).
End manager.
