(* ===== verification/SessionInv.v ===== *)
(** * What the media session operations keep

    A session's cell changes only under its lock; a cell that is in no map and
    that nobody is about to close holds no media; forwarded estimates are those
    of the current receive transport; and each worker's counter is the number of
    open consumers that were counted on it. *)

From S2P Require Import Prelude Process Triples Workers Transports.

Open Scope process_scope.

(** ** The invariant *)

(** A cell of a session: within its limits, and its receipts are for the
    transports it has. *)
Record media_fine (producer_cap consumer_cap : nat) (bound : N) (a : N) (m : participant_media) : Prop := {
  fine_generation : generation m = a;
  fine_issued : (a < bound)%N;
  fine_producers : (size (producers m) <= producer_cap)%nat;
  fine_consumers : (size (consumers m) <= consumer_cap)%nat;
  fine_layers : dom (consumer_layers m) ⊆ consumers m;
  fine_send : forall t, send_connect_applied m = Some t -> send_transport m = Some t;
  fine_recv : forall t, recv_connect_applied m = Some t -> recv_transport m = Some t;
  fine_replaced : forall old new, recv_replacement m = Some (old, new) -> recv_transport m = Some new /\ old <> new;
  fine_transports : forall t, send_transport m = Some t \/ recv_transport m = Some t -> (t < bound)%N
}.

(** Open consumers counted on [k]. *)
Definition counted_on (k : N) (gone : gset N) (x : N * native_consumer) : Prop := counter x.2 = Some k /\ x.1 ∉ gone.
#[export] Instance counted_on_dec k gone x : Decision (counted_on k gone x).
Proof. unfold counted_on. apply _. Defined.
Definition counted (k : N) (w : session_world) : N :=
  N.of_nat (size (filter (counted_on k (native_closed w)) (native_consumers w))).

Record natives_ok (w : session_world) : Prop := {
  nat_counts : forall k, counter_value w k = (counted k w mod USIZE_SIZE)%N;
  nat_closed : forall x, x ∈ native_closed w -> (x < next w)%N;
  nat_consumers : forall c n, native_consumers w !! c = Some n -> (c < next w)%N
}.

Definition registered_cell (w : session_world) (a : N) : Prop := exists id, participants w !! id = Some a.
(** In the map, or about to be closed. *)
Definition attended (w : session_world) (a : N) : Prop := registered_cell w a \/ is_Some (closing w !! a).

(** No media. *)
Definition vacant_media (m : participant_media) : Prop :=
  send_transport m = None /\ recv_transport m = None /\ producers m = ∅ /\ consumers m = ∅.

Record sessions_ok (producer_cap consumer_cap : nat) (w : session_world) : Prop := {
  so_participants : forall id a, participants w !! id = Some a -> is_Some (cells w !! a);
  so_once : forall id id' a, participants w !! id = Some a -> participants w !! id' = Some a -> id = id';
  so_cells : forall a m, cells w !! a = Some m -> media_fine producer_cap consumer_cap (next w) a m;
  so_handlers : forall g t, bwe_trace_handlers w !! g = Some t -> exists m, cells w !! g = Some m /\ recv_transport m = Some t;
  so_closing : forall a me, closing w !! a = Some me -> is_Some (cells w !! a) /\ ~ registered_cell w a;
  so_natives : natives_ok w
}.

(** ** Interference *)

Record protects_session (a : N) (w w' : session_world) : Prop := {
  prot_cell : forall m, cells w !! a = Some m -> cells w' !! a = Some m;
  prot_handler : bwe_trace_handlers w' !! a = bwe_trace_handlers w !! a;
  prot_attended : attended w a -> attended w' a;
  prot_new : cells w !! a = None -> forall m, cells w' !! a = Some m -> attended w' a
}.
Definition protects (l : session_lock) (w w' : session_world) : Prop :=
  match l with
  | Session a => protects_session a w w'
  | Closer me => forall a, closing w !! a = Some me <-> closing w' !! a = Some me
  end.

Definition idle (l : session_lock) (w : session_world) : Prop :=
  match l with
  | Session a => forall m, cells w !! a = Some m -> attended w a \/ vacant_media m
  | Closer me => forall a, closing w !! a <> Some me
  end.

Record evolves (w w' : session_world) : Prop := {
  ev_closed : native_closed w ⊆ native_closed w';
  ev_cells : forall a, is_Some (cells w !! a) -> is_Some (cells w' !! a);
  ev_next : (next w <= next w')%N
}.

(** What one section does to the transports of a cell: an open one stays, or it
    is the receiver and is replaced with a receipt, or its session is being
    removed. *)
Definition recv_kept (w : session_world) (a t : N) (m' : participant_media) : Prop :=
  recv_transport m' = Some t \/ is_closed w t = true
  \/ (exists t', recv_transport m' = Some t' /\ recv_replacement m' = Some (t, t'))
  \/ (recv_transport m' = None /\ ~ registered_cell w a).
Definition send_kept (w : session_world) (a t : N) (m' : participant_media) : Prop :=
  send_transport m' = Some t \/ is_closed w t = true \/ (send_transport m' = None /\ ~ registered_cell w a).

Definition local (w w' : session_world) : Prop :=
  forall a m, cells w !! a = Some m -> exists m', cells w' !! a = Some m'
    /\ (forall t, recv_transport m = Some t -> recv_kept w a t m')
    /\ (forall t, send_transport m = Some t -> send_kept w a t m').

#[export] Instance session_protects_preorder l : PreOrder (protects l).
Proof.
  destruct l as [a|me]; split; cbn; [intros w; split; [done..|congruence]| |done|].
  - intros w1 w2 w3 [A1 A2 A3 A4] [B1 B2 B3 B4]. split; [auto|congruence|auto|].
    intros Hn m Hm. destruct (cells w2 !! a) as [m2|] eqn:H2; [by eauto|by eapply B4].
  - intros w1 w2 w3 H1 H2 a. etransitivity; [apply (H1 a)|apply (H2 a)].
Qed.
#[export] Instance session_evolves_preorder : PreOrder evolves.
Proof. split; [split; [done|done|lia]|]. intros w1 w2 w3 [A1 A2 A3] [B1 B2 B3]. split; [by etrans|by auto|lia]. Qed.
#[export] Instance session_local_refl : Reflexive local.
Proof. intros w a m Hm. exists m. split; [done|]. split; intros t Ht; by left. Qed.

Lemma session_idle_stable l w w' : protects l w w' -> idle l w -> idle l w'.
Proof.
  destruct l as [a|me]; cbn.
  - intros [P1 P2 P3 P4] Hi m Hm. destruct (cells w !! a) as [m0|] eqn:H0; [|left; by eapply P4].
    rewrite (P1 m0 eq_refl) in Hm. injection Hm as <-. destruct (Hi m0 eq_refl); [left; auto|by right].
  - intros Hp Hi a Ha. apply (Hi a). by apply Hp.
Qed.

(** Objects close, and DTLS proceeds. *)
Definition outside (w w' : session_world) : Prop :=
  (exists x, (x < next w)%N /\ w' = native_close x w) \/ (exists d, w' = w <| dtls := d |>).

(** ** Counting *)

Lemma mod_succ c M : (M <> 0 -> ((c mod M) + 1) mod M = (c + 1) mod M)%N.
Proof. intros HM. by rewrite N.Div0.add_mod_idemp_l. Qed.
Lemma mod_pred c M : (0 < c -> 0 < M -> ((c mod M) + (M - 1)) mod M = (c - 1) mod M)%N.
Proof.
  intros Hc HM. rewrite N.Div0.add_mod_idemp_l. replace (c + (M - 1))%N with ((c - 1) + 1 * M)%N by lia. by rewrite N.Div0.mod_add.
Qed.

Lemma counter_value_count k k' w :
  counter_value (count_consumer k w) k' = if decide (k = Some k') then ((counter_value w k' + 1) mod USIZE_SIZE)%N else counter_value w k'.
Proof.
  unfold count_consumer, counter_value. destruct k as [k|]; [|by rewrite decide_False]. cbn. destruct (decide (Some k = Some k')) as [[= ->]|Hne].
  - by rewrite lookup_insert_eq.
  - rewrite lookup_insert_ne; [done|congruence].
Qed.
Lemma counter_value_uncount k k' w :
  counter_value (uncount_consumer k w) k' = if decide (k = Some k') then ((counter_value w k' + USIZE_MAX) mod USIZE_SIZE)%N else counter_value w k'.
Proof.
  unfold uncount_consumer, counter_value. destruct k as [k|]; [|by rewrite decide_False]. cbn. destruct (decide (Some k = Some k')) as [[= ->]|Hne].
  - by rewrite lookup_insert_eq.
  - rewrite lookup_insert_ne; [done|congruence].
Qed.

(** A new consumer is counted. *)
Lemma natives_add a k answer w : natives_ok w -> natives_ok (add_consumer a k answer w).1.
Proof.
  intros [Hc Hg Hn]. assert (native_consumers w !! next w = None) as Hnew.
  { destruct (native_consumers w !! next w) as [n|] eqn:E; [|done]. apply Hn in E. lia. }
  assert (next w ∉ native_closed w) as Hopen by (intros H%Hg; lia).
  set (w1 := count_consumer k w).
  assert (native_consumers w1 = native_consumers w /\ native_closed w1 = native_closed w /\ next w1 = next w) as (E1 & E2 & E3) by (unfold w1, count_consumer; by destruct k).
  split.
  - intros k'. transitivity (counter_value w1 k'); [done|]. unfold w1. rewrite counter_value_count, Hc. unfold counted. cbn. fold w1. rewrite E1, E2.
    rewrite map_filter_insert, (delete_id (native_consumers w)) by done. destruct (decide (k = Some k')) as [->|Hne].
    + rewrite decide_True by done. rewrite map_size_insert_None; [|apply map_lookup_filter_None; by left].
      rewrite mod_succ by done. f_equal. lia.
    + rewrite decide_False; [done|]. by intros [Hk _].
  - intros x. cbn. fold w1. rewrite E2, E3. intros Hx%Hg. lia.
  - intros c n. cbn. fold w1. rewrite E1, E3. intros [[<- _]|[_ Hx%Hn]]%lookup_insert_Some; lia.
Qed.

(** A closed one is uncounted. *)
Lemma natives_close x w : (x < next w)%N -> natives_ok w -> natives_ok (native_close x w).
Proof.
  intros Hx [Hc Hg Hn]. unfold native_close, is_closed. case_bool_decide as Hin; [done|].
  remember (match native_consumers w !! x with Some c => uncount_consumer (counter c) w | None => w end) as w1 eqn:Hw1.
  assert (native_consumers w1 = native_consumers w /\ native_closed w1 = native_closed w /\ next w1 = next w) as (E1 & E2 & E3).
  { subst w1. unfold uncount_consumer. destruct (native_consumers w !! x) as [[? ? []]|]; done. }
  split; cbn; rewrite ?E1, ?E2, ?E3; [|set_solver|done].
  intros k. transitivity (counter_value w1 k); [done|]. unfold counted. cbn.
  assert (filter (counted_on k ({[x]} ∪ native_closed w)) (native_consumers w)
          = delete x (filter (counted_on k (native_closed w)) (native_consumers w))) as ->.
  { apply map_eq. intros c. apply option_eq. intros n. rewrite lookup_delete_Some, !map_lookup_filter_Some. unfold counted_on. cbn. set_solver. }
  destruct (native_consumers w !! x) as [n|] eqn:Hxn; subst w1.
  - rewrite counter_value_uncount, Hc. unfold counted. destruct (decide (counter n = Some k)) as [Hk|Hk].
    + assert (filter (counted_on k (native_closed w)) (native_consumers w) !! x = Some n) as Hf by by apply map_lookup_filter_Some.
      change USIZE_MAX with (USIZE_SIZE - 1)%N. 
      assert (0 < size (filter (counted_on k (native_closed w)) (native_consumers w)))%nat as Hpos by (apply Nat.neq_0_lt_0, (map_size_ne_0_lookup_2 _ x); eauto).
      rewrite mod_pred, (map_size_delete_Some x) by (eauto || done || lia). f_equal. lia.
    + rewrite delete_id; [done|]. apply map_lookup_filter_None. right. intros n' Hn' [Hk' _]. cbn in Hk'. congruence.
  - rewrite Hc. rewrite delete_id; [done|]. apply map_lookup_filter_None. by left.
Qed.

(** Changes that touch neither handles nor counters. *)
Lemma natives_same w w' :
  native_closed w' = native_closed w -> native_consumers w' = native_consumers w -> counters w' = counters w ->
  (next w <= next w')%N -> natives_ok w -> natives_ok w'.
Proof.
  intros E1 E2 E3 E4 [Hc Hg Hn]. split; unfold counter_value, counted; rewrite ?E1, ?E2, ?E3; [apply Hc|..].
  - intros x Hx%Hg. lia.
  - intros c n Hx%Hn. lia.
Qed.

Lemma natives_alter f c w : (forall n, counter (f n) = counter n) -> natives_ok w -> natives_ok (w <| native_consumers ::= alter f c |>).
Proof.
  intros Hf [Hc Hg Hn]. split; [|done|].
  - intros k. transitivity (counter_value w k); [done|]. rewrite Hc. unfold counted. cbn. do 2 f_equal. rewrite <-!size_dom. f_equal.
    apply set_eq. intros x. rewrite !elem_of_dom. unfold is_Some. setoid_rewrite map_lookup_filter_Some. unfold counted_on. cbn.
    destruct (decide (x = c)) as [->|Hne]; [rewrite lookup_alter_eq|by rewrite lookup_alter_ne].
    destruct (native_consumers w !! c) as [n|]; cbn; [|by split; intros (? & ? & _)].
    split; intros (? & [= <-] & Hk); (eexists; split; [done|]); by rewrite Hf in *.
  - cbn. intros x n [[_ (n0 & Hx%Hn & _)]|[_ Hx%Hn]]%lookup_alter_Some; done.
Qed.

(** ** Sections *)

Section caps.
Context (producer_cap consumer_cap : nat).
Abbreviation sessions_ok := (sessions_ok producer_cap consumer_cap).
Abbreviation fine := (media_fine producer_cap consumer_cap).
Abbreviation frame := (Triples.frame protects evolves).
Abbreviation section_ok := (Triples.section_ok sessions_ok protects evolves local).
Abbreviation triple := (Triples.triple (query := worker_call) (reply := worker_reply) sessions_ok protects evolves local idle unexcused).
Abbreviation calm := (Triples.calm (query := worker_call) (reply := worker_reply) sessions_ok protects evolves local idle unexcused).

Lemma fine_later bound bound' a m : (bound <= bound')%N -> fine bound a m -> fine bound' a m.
Proof.
  intros Hb [F1 F2 F3 F4 F5 F6 F7 F8 F9]. split; [done|lia|done..|]. intros t Ht%F9. lia.
Qed.

(** A section that leaves the map and the cells as they are. *)
Record quiet (w w' : session_world) : Prop := {
  quiet_participants : participants w' = participants w;
  quiet_cells : cells w' = cells w;
  quiet_handlers : bwe_trace_handlers w' = bwe_trace_handlers w;
  quiet_closing : closing w' = closing w;
  quiet_closed : native_closed w ⊆ native_closed w';
  quiet_next : (next w <= next w')%N
}.

Lemma session_quiet_section w w' : sessions_ok w -> quiet w w' -> natives_ok w' -> section_ok ∅ w w'.
Proof.
  intros [O1 O2 O3 O4 O5 O6] [E1 E2 E3 E4 E5 E6] Hn.
  assert (forall a, registered_cell w' a <-> registered_cell w a) as Er by (intros a; unfold registered_cell; by rewrite E1).
  assert (forall a, attended w' a <-> attended w a) as Ea by (intros a; unfold attended; by rewrite Er, E4).
  split.
  - split; [..|done].
    + intros id a. rewrite E1, E2. apply O1.
    + intros id id' a. rewrite E1. apply O2.
    + intros a m. rewrite E2. intros Hm. by eapply fine_later, O3.
    + intros g t. rewrite E2, E3. apply O4.
    + intros a me. rewrite E2, E4, Er. apply O5.
  - split; [done|by rewrite E2|done].
  - intros a m Hm. exists m. rewrite E2. split; [done|]. split; intros t Ht; by left.
  - intros [a|me] _; cbn; [split; rewrite ?E2, ?E3, ?Ea; [done..|congruence]|by rewrite E4].
Qed.

Lemma session_quiet {A} w (m : session_world -> session_world * A) (Q : A -> session_world -> Prop) :
  (forall w0, sessions_ok w0 -> quiet w0 (m w0).1 /\ natives_ok (m w0).1) ->
  (forall w0, evolves w w0 -> sessions_ok w0 -> Q (m w0).2 (m w0).1) -> calm w (atomically m) Q.
Proof.
  intros Hs HQ. apply calm_atomic. intros w0 He Hi. split; [|by apply HQ]. apply session_quiet_section; [done|apply Hs..]; done.
Qed.

(** A section of the holder of a session's lock. *)
Record rewritten (a : N) (m m' : participant_media) (w w' : session_world) : Prop := {
  rw_participants : participants w' = participants w;
  rw_cells : cells w' = <[a := m']> (cells w);
  rw_handlers : forall g, g <> a -> bwe_trace_handlers w' !! g = bwe_trace_handlers w !! g;
  rw_current : forall t, bwe_trace_handlers w' !! a = Some t -> recv_transport m' = Some t;
  rw_closing : closing w' = closing w;
  rw_closed : native_closed w' = native_closed w;
  rw_next : (next w <= next w')%N;
  rw_natives : natives_ok w';
  rw_fine : fine (next w') a m';
  rw_recv : forall t, recv_transport m = Some t -> recv_kept w a t m';
  rw_send : forall t, send_transport m = Some t -> send_kept w a t m'
}.

Lemma cell_section L a m m' w w' :
  Session a ∈ L -> sessions_ok w -> cells w !! a = Some m -> rewritten a m m' w w' -> section_ok L w w'.
Proof.
  intros HL [O1 O2 O3 O4 O5 O6] Hm [E1 E2 E3 E4 E5 E6 E7 E8 E9 E10 E11].
  assert (forall b, registered_cell w' b <-> registered_cell w b) as Er by (intros b; unfold registered_cell; by rewrite E1).
  assert (forall b, attended w' b <-> attended w b) as Ea by (intros b; unfold attended; by rewrite Er, E5).
  assert (forall b, is_Some (cells w !! b) -> is_Some (cells w' !! b)) as Hs.
  { intros b. rewrite E2. destruct (decide (b = a)) as [->|Hb]; [by rewrite lookup_insert_eq|by rewrite lookup_insert_ne]. }
  split.
  - split; [..|done].
    + intros id b. rewrite E1. intros Hb%O1. auto.
    + intros id id' b. rewrite E1. apply O2.
    + intros b n. rewrite E2. intros [[<- <-]|[_ Hn]]%lookup_insert_Some; [done|]. by eapply fine_later, O3.
    + intros g t Hg. rewrite E2. destruct (decide (g = a)) as [->|Hne]; [rewrite lookup_insert_eq; by eauto|].
      rewrite E3 in Hg by done. rewrite lookup_insert_ne by done. by apply O4.
    + intros b me. rewrite E5, Er. intros [? ?]%O5. auto.
  - split; [by rewrite E6|done|done].
  - intros b n Hn. rewrite E2. destruct (decide (b = a)) as [->|Hb].
    + rewrite lookup_insert_eq. replace n with m by congruence. eauto.
    + rewrite lookup_insert_ne by done. exists n. split; [done|]. split; intros t Ht; by left.
  - intros [b|me] Hb; cbn; [|by rewrite E5]. assert (b <> a) by congruence.
    split; rewrite ?E2, ?E3, ?Ea by done; rewrite ?lookup_insert_ne by done; [done..|congruence].
Qed.
End caps.
