(* ===== verification/SessionSafety.v ===== *)
(** * Media sessions under every interleaving

    The operations of [Transports.v] keep the invariant of [SessionInv.v],
    whatever other operations, native objects and DTLS do between their
    sections. *)

From stdpp Require Import relations.
From S2P Require Import Prelude Process Triples Schedule Protocol Workers Transports SessionInv.

Open Scope process_scope.

Section operations.
Context (config : transport_config) (key_frame_request_delay : N) (producer_cap consumer_cap : nat).
Abbreviation sessions_ok := (sessions_ok producer_cap consumer_cap).
Abbreviation fine := (media_fine producer_cap consumer_cap).
Abbreviation frame := (Triples.frame protects evolves).
Abbreviation section_ok := (Triples.section_ok sessions_ok protects evolves local).
Abbreviation triple := (Triples.triple (query := worker_call) (reply := worker_reply) sessions_ok protects evolves local idle unexcused).
Abbreviation calm := (Triples.calm (query := worker_call) (reply := worker_reply) sessions_ok protects evolves local idle unexcused).
Abbreviation rewritten := (SessionInv.rewritten producer_cap consumer_cap).

(** ** Inside a session's lock *)

(** The session has [m], and nobody has forgotten it. *)
Definition seated (a : N) (m : participant_media) (w : session_world) : Prop :=
  cells w !! a = Some m /\ (attended w a \/ vacant_media m).

Lemma seated_frame a m w w' : frame {[Session a]} w w' -> seated a m w -> seated a m w'.
Proof.
  intros [_ Hp] [Hm Ha]. destruct (Hp (Session a)) as [P1 P2 P3 P4]; [set_solver|]. split; [auto|]. destruct Ha; [left|right]; auto.
Qed.
Lemma seated_idle a m w : seated a m w -> idle (Session a) w.
Proof. intros [Hm Ha] m' Hm'. by replace m' with m by congruence. Qed.
Lemma seated_media a m w : seated a m w -> media_at w a = m.
Proof. intros [Hm _]. unfold media_at. by rewrite Hm. Qed.
Lemma seated_fine a m w : sessions_ok w -> seated a m w -> fine (next w) a m.
Proof. intros Hok [Hm _]. by apply (so_cells _ _ _ Hok). Qed.
Lemma seated_registered a m id w : participant_is_current id a w = true -> cells w !! a = Some m -> seated a m w.
Proof. intros Hc%bool_decide_eq_true Hm. split; [done|]. left. left. by exists id. Qed.

Definition inside {A} (a : N) (w : session_world) (p : operation A) : Prop :=
  triple {[Session a]} w p (fun _ w' L' => L' = {[Session a]} /\ exists m, seated a m w').

Lemma inside_return {A} a m w (x : A) : seated a m w -> inside a w (Return x).
Proof. intros Hs. apply triple_return. eauto. Qed.

Lemma inside_ask {A} a w q (k : worker_reply q -> operation A) : (forall r, inside a w (k r)) -> inside a w (pbind (ask q) k).
Proof. intros Hk. apply triple_ask_bind, Hk. Qed.

Lemma inside_section {A} a m w (f : session_world -> session_world * A) :
  seated a m w ->
  (forall w0, frame {[Session a]} w w0 -> sessions_ok w0 -> seated a m w0 ->
     section_ok {[Session a]} w0 (f w0).1 /\ exists m', seated a m' (f w0).1) ->
  inside a w (atomically f).
Proof.
  intros Hs Hf. apply triple_atomic. intros w0 Hfr Hok. destruct (Hf w0 Hfr Hok) as [Hsec Hs']; [by eapply seated_frame|]. auto.
Qed.

Lemma inside_read {A B} a m w (f : participant_media -> session_world -> B) (k : B -> operation A) :
  seated a m w ->
  (forall w0, frame {[Session a]} w w0 -> sessions_ok w0 -> seated a m w0 -> inside a w0 (k (f m w0))) ->
  inside a w (pbind (read_media a f) k).
Proof.
  intros Hs Hk.
  eapply (triple_bind _ _ _ _ (fun x w' L' => L' = {[Session a]} /\ seated a m w' /\ frame {[Session a]} w w' /\ sessions_ok w' /\ x = f m w')).
  - apply triple_atomic. intros w0 Hfr Hok. cbn. split; [by split|]. assert (seated a m w0) as Hs0 by by eapply seated_frame.
    split_and!; [done..|]. by rewrite (seated_media _ _ _ Hs0).
  - cbn. intros x w' L' _ (-> & Hs' & Hf & Hok & ->). by apply Hk.
Qed.

Lemma inside_proceed {A B} a m w (f : participant_media -> session_world -> verdict A B) (k : B -> fallible A) :
  seated a m w ->
  (forall w0 x, frame {[Session a]} w w0 -> sessions_ok w0 -> seated a m w0 -> f m w0 = Proceed x -> inside a w0 (k x)) ->
  inside a w (proceed (read_media a f) k).
Proof.
  intros Hs Hk. apply (inside_read a m); [done|]. intros w0 Hfr Hok Hs0. destruct (f m w0) eqn:Hf; [by eapply inside_return|by apply Hk].
Qed.

Lemma inside_calm {A B} a m w (p : operation B) (Q : B -> session_world -> Prop) (k : B -> operation A) :
  seated a m w -> calm w p Q -> (forall x w', frame {[Session a]} w w' -> seated a m w' -> Q x w' -> inside a w' (k x)) ->
  inside a w (pbind p k).
Proof.
  intros Hs Hp Hk. eapply triple_bind; [apply Hp|]. cbn. intros x w' L' _ (-> & Hf & Hq). apply Hk; [done| |done]. by eapply seated_frame.
Qed.

Lemma inside_calm_last {A} a m w (p : operation A) (Q : A -> session_world -> Prop) : seated a m w -> calm w p Q -> inside a w p.
Proof.
  intros Hs Hp. eapply triple_mono; [|apply Hp]. cbn. intros x w' L' _ (-> & Hf & _). split; [done|]. exists m. by eapply seated_frame.
Qed.

Definition keeps {A} (w : session_world) (p : operation A) : Prop := triple ∅ w p (fun _ _ L' => L' = ∅).

Lemma session_keeps_return {A} w (x : A) : keeps w (Return x).
Proof. by apply triple_return. Qed.

Lemma keeps_locked {A} a w (p : operation A) :
  is_Some (cells w !! a) -> (forall w0 m, evolves w w0 -> seated a m w0 -> inside a w0 p) -> keeps w (holding (Session a) p).
Proof.
  intros Hsome Hp. apply triple_guard. intros w0 _ [Hf _] Hok Hidle. destruct (ev_cells _ _ Hf a Hsome) as [m Hm].
  replace ({[Session a]} ∪ ∅ : gset session_lock) with ({[Session a]} : gset session_lock) by set_solver.
  eapply triple_mono; [|apply (Hp w0 m)]; [|done|by split; [|apply Hidle]]. cbn. intros x w' L' _ [-> [m' Hs]] w2 Hf2 Hok2. split; [|set_solver].
  intros _. eapply seated_idle, seated_frame; done.
Qed.

Lemma keeps_with_session {A} w id (body : N -> fallible A) :
  (forall a m w0, seated a m w0 -> inside a w0 (body a)) -> keeps w (with_session id body).
Proof.
  intros Hb. eapply triple_try.
  - apply triple_atomic. intros w0 _ Hok. split; [by split|]. instantiate (1 := fun r w' L' => L' = ∅ /\ forall a, r = Ok a -> is_Some (cells w' !! a)).
    split; [done|]. cbn. intros a Ha. destruct (participants w0 !! id) as [b|] eqn:Hid; [|done]. injection Ha as <-. by apply (so_participants _ _ _ Hok id).
  - cbn. intros a w' L' _ [-> Ha]. apply keeps_locked; [by apply Ha|]. intros. by eapply Hb.
  - by intros e w' L' _ [-> _].
Qed.

(** ** Native calls *)

Lemma calm_new_native w : calm w new_native (fun t w' => (next w <= t < next w')%N).
Proof.
  apply session_quiet.
  - intros w0 Hok. split; [split; cbn; done || lia|]. eapply natives_same; [..|apply Hok]; cbn; done || lia.
  - intros w0 He _. cbn. pose proof (ev_next _ _ He). lia.
Qed.

Definition built (w : session_world) (r : result media_error N) (w' : session_world) : Prop :=
  forall t, r = Ok t -> (next w <= t < next w')%N.

Lemma calm_build_send router server w : calm w (build_send_transport config router server) (built w).
Proof.
  apply calm_ask. intros []; cbn [negb]; [|by apply calm_return]. eapply calm_bind; [apply calm_new_native|]. intros t w' _ Ht.
  destruct (max_incoming_bitrate config); [|by apply calm_return; intros ? [= <-]]. apply calm_ask.
  intros []; apply calm_return; [by intros ? [= <-]|done].
Qed.

Lemma calm_build_recv router server w : calm w (build_recv_transport config router server) (built w).
Proof.
  apply calm_ask. intros []; cbn [negb]; [|by apply calm_return]. eapply calm_bind; [apply calm_new_native|]. intros t w' _ Ht.
  apply calm_ask. intros []; cbn [negb]; [|by apply calm_return]. apply calm_ask.
  intros []; apply calm_return; [by intros ? [= <-]|done].
Qed.

(** What was closed stays closed. *)
Lemma not_open_kept w w' x t : evolves w w' -> open w x = false -> x = Some t -> is_closed w' t = true.
Proof.
  intros [He _ _] Ho ->. cbn in Ho. unfold is_closed in *. rewrite bool_decide_eq_true. apply He.
  by destruct (bool_decide_reflect (t ∈ native_closed w)).
Qed.

(** ** Writing the session's media *)

(** A write that neither adds nor replaces a transport. *)
Lemma cell_write_section a m f w :
  sessions_ok w -> seated a m w -> fine (next w) a (f m) ->
  recv_transport (f m) = recv_transport m -> send_transport (f m) = send_transport m ->
  (attended w a \/ (vacant_media m -> vacant_media (f m))) ->
  section_ok {[Session a]} w (write_media a f w) /\ exists m', seated a m' (write_media a f w).
Proof.
  intros Hok Hs Hf Hr Hse Hv. destruct (Hs) as [Hm Ha]. split.
  - apply (cell_section _ _ _ a m (f m)); [set_solver|done|done|]. split; try done.
    + cbn. by rewrite (seated_media _ _ _ Hs).
    + intros t Ht. destruct (so_handlers _ _ _ Hok a t Ht) as (m' & Hm' & Ht'). rewrite Hr. congruence.
    + eapply natives_same; [..|apply Hok]; cbn; done || lia.
    + intros t Ht. left. congruence.
    + intros t Ht. left. congruence.
  - exists (f m). split; cbn; [by rewrite (seated_media _ _ _ Hs), lookup_insert_eq|]. destruct Ha; [by left|]. destruct Hv; [by left|right; auto].
Qed.

Lemma inside_write {A} a m f w (g : session_world -> A) :
  seated a m w -> (forall w0, sessions_ok w0 -> fine (next w0) a m -> fine (next w0) a (f m)) ->
  recv_transport (f m) = recv_transport m -> send_transport (f m) = send_transport m -> (vacant_media m -> vacant_media (f m)) ->
  inside a w (atomically (fun w => (write_media a f w, g w))).
Proof.
  intros Hs Hf Hr Hse Hv. apply (inside_section a m); [done|]. intros w0 _ Hok Hs0. apply (cell_write_section a m); [done..| | |done|by right]; [|done].
  apply Hf; [done|]. by apply seated_fine.
Qed.

(** ** Transports *)

Lemma current_registered id a w : participant_is_current id a w = true -> registered_cell w a.
Proof. intros Hc%bool_decide_eq_true. by exists id. Qed.

(** Installing what belongs to a session that is still in the map. *)
Lemma installed id a m m' w w' :
  sessions_ok w -> seated a m w -> participant_is_current id a w = true -> rewritten a m m' w w' ->
  section_ok {[Session a]} w w' /\ exists m', seated a m' w'.
Proof.
  intros Hok [Hm _] Hc Hw. split; [apply (cell_section _ _ _ a m m'); [set_solver|done..]|]. destruct Hw as [E1 E2 _ _ _ _ _ _ _ _ _].
  exists m'. split; [by rewrite E2, lookup_insert_eq|]. left. left. unfold registered_cell. rewrite E1. by eapply current_registered.
Qed.

Lemma install_send_section id a t m w :
  sessions_ok w -> seated a m w -> (t < next w)%N -> (forall t0, send_transport m = Some t0 -> is_closed w t0 = true) ->
  section_ok {[Session a]} w (install_send id a t w).1 /\ exists m', seated a m' (install_send id a t w).1.
Proof.
  intros Hok Hs Ht Hold. unfold install_send. destruct (participant_is_current id a w) eqn:Hc; cbn [fst]; [|split; [by split|by eauto]].
  destruct (Hs) as [Hm _]. pose proof (seated_fine _ _ _ Hok Hs) as [F1 F2 F3 F4 F5 F6 F7 F8 F9].
  apply (installed id a m (m <| send_transport := Some t |> <| send_connect_applied := None |>)); [done..|]. split; cbn; try done.
  - by rewrite (seated_media _ _ _ Hs).
  - intros t0 Ht0. destruct (so_handlers _ _ _ Hok a t0 Ht0) as (m' & Hm' & Ht'). congruence.
  - eapply natives_same; [..|apply Hok]; cbn; done || lia.
  - split; cbn; try done. intros t0 [[= <-]|Ht0]; [done|]. apply F9. by right.
  - intros t0 Ht0. by left.
  - intros t0 Ht0. right. left. by apply Hold.
Qed.

Lemma install_recv_section id a t m w :
  sessions_ok w -> seated a m w -> (t < next w)%N -> (forall t0, recv_transport m = Some t0 -> is_closed w t0 = true) ->
  section_ok {[Session a]} w (install_recv id a t w).1 /\ exists m', seated a m' (install_recv id a t w).1.
Proof.
  intros Hok Hs Ht Hold. unfold install_recv. destruct (participant_is_current id a w) eqn:Hc; cbn [fst]; [|split; [by split|by eauto]].
  destruct (Hs) as [Hm _]. pose proof (seated_fine _ _ _ Hok Hs) as [F1 F2 F3 F4 F5 F6 F7 F8 F9].
  rewrite (seated_media _ _ _ Hs), F1.
  apply (installed id a m (m <| recv_transport := Some t |> <| recv_connect_applied := None |> <| recv_replacement := None |>
                             <| bandwidth_spatial_ceiling := None |>)); [done..|]. split; cbn; try done.
  - unfold media_at. cbn. by rewrite Hm.
  - intros g Hg. by rewrite lookup_delete_ne.
  - by rewrite lookup_delete_eq.
  - eapply natives_same; [..|apply Hok]; cbn; done || lia.
  - split; cbn; try done. intros t0 [Ht0|[= <-]]; [|done]. apply F9. by left.
  - intros t0 Ht0. right. left. by apply Hold.
  - intros t0 Ht0. by left.
Qed.

Lemma install_receiver_section id a expected t lease retain traced m w :
  sessions_ok w -> seated a m w -> (t < next w)%N -> expected <> t -> recv_transport m = Some expected ->
  section_ok {[Session a]} w (install_receiver id a expected t lease retain traced w).1
  /\ exists m', seated a m' (install_receiver id a expected t lease retain traced w).1.
Proof.
  intros Hok Hs Ht Hne Hold. unfold install_receiver.
  destruct (participant_is_current id a w) eqn:Hc; cbn; [|split; [by split|by eauto]]. destruct (is_closed w t); cbn; [split; [by split|by eauto]|].
  destruct (Hs) as [Hm _]. pose proof (seated_fine _ _ _ Hok Hs) as [F1 F2 F3 F4 F5 F6 F7 F8 F9].
  set (m' := m <| consumers := ∅ |> <| consumer_layers := ∅ |> <| bandwidth_spatial_ceiling := None |> <| recv_connect_applied := None |>
        <| recv_replacement := Some (expected, t) |> <| recv_transport := Some t |>
        <| viewer_lease ::= fun old => match lease with Some l => Some l | None => if retain then old else None end |>).
  match goal with |- section_ok _ _ ?x /\ _ => assert (participants x = participants w /\ cells x = <[a := m']> (cells w)
      /\ bwe_trace_handlers x = (if traced then <[a := t]> else fun h => h) (delete a (bwe_trace_handlers w)) /\ closing x = closing w
      /\ native_closed x = native_closed w /\ native_consumers x = native_consumers w /\ counters x = counters w /\ next x = next w)
      as (X1 & X2 & X3 & X4 & X5 & X6 & X7 & X8) end.
  { unfold write_media, clear_bwe_trace_handler, media_at. cbn. rewrite !Hm. cbn. unfold m'; cbn. rewrite F1. by destruct traced. }
  apply (installed id a m m'); [done..|]. split; try done; rewrite ?X3, ?X8.
  - intros g Hg. destruct traced; cbn; rewrite ?lookup_insert_ne, ?lookup_delete_ne by done; done.
  - intros t0. destruct traced; cbn; rewrite ?lookup_insert_eq, ?lookup_delete_eq; [|done]. by intros [= <-].
  - done.
  - eapply natives_same; [..|apply Hok]; rewrite ?X8; done.
  - split; cbn; try done; [rewrite size_empty; lia|by intros ? ? [= <- <-]|].
    intros t0 [Ht0|[= <-]]; [|done]. apply F9. by left.
  - intros t0 Ht0. right. right. left. exists t. split; [done|]. cbn. congruence.
  - intros t0 Ht0. by left.
Qed.

Lemma get_or_create_section id w : sessions_ok w ->
  section_ok ∅ w (match participants w !! id with
    | Some a => (w, a)
    | None => let a := next w in
              (w <| participants ::= <[id := a]> |> <| cells ::= <[a := media_new a]> |> <| next ::= N.succ |>, a)
    end).1.
Proof.
  intros Hok. destruct (participants w !! id) as [b|] eqn:Hid; cbn; [by split|]. destruct (Hok) as [O1 O2 O3 O4 O5 O6].
  assert (cells w !! next w = None) as Hnone.
  { destruct (cells w !! next w) as [m|] eqn:Hm; [|done]. pose proof (fine_issued _ _ _ _ _ (O3 _ _ Hm)). lia. }
  assert (forall b, is_Some (cells w !! b) -> b <> next w) as Hne by (intros b [m Hm] ->; congruence).
  assert (forall b, registered_cell w b -> exists id', <[id := next w]> (participants w) !! id' = Some b) as Hreg.
  { intros b [id' Hb]. exists id'. rewrite lookup_insert_ne; [done|]. intros ->. congruence. }
  split.
  - split; cbn.
    + intros id' b [[_ <-]|[_ Hb]]%lookup_insert_Some; [by rewrite lookup_insert_eq|]. pose proof (O1 _ _ Hb) as Hs.
      rewrite lookup_insert_ne; [done|]. intros <-. by destruct (Hne _ Hs).
    + intros id1 id2 b [[<- <-]|[N1 H1]]%lookup_insert_Some [[<- H2]|[N2 H2]]%lookup_insert_Some; [done|..|by eapply O2].
      * by destruct (Hne _ (O1 _ _ H2)).
      * subst. by destruct (Hne _ (O1 _ _ H1)).
    + intros b m [[<- <-]|[_ Hm]]%lookup_insert_Some; [|eapply fine_later, O3; [lia|done]].
      split; cbn; rewrite ?size_empty; done || lia || (by intros ? []).
    + intros g t (m & Hm & Ht)%O4. exists m. rewrite lookup_insert_ne; [done|]. intros <-. congruence.
    + intros b me [Hs Hn]%O5. pose proof (Hne _ Hs). split; [by rewrite lookup_insert_ne by done|].
      unfold registered_cell; cbn; intros [id' [[_ E]|[_ E]]%lookup_insert_Some]; [done|]. apply Hn. by exists id'.
    + eapply natives_same; [..|done]; cbn; done || lia.
  - split; cbn; [done| |lia]. intros b Hs. rewrite lookup_insert_ne; [done|]. intros <-. by destruct (Hne _ Hs).
  - intros b m Hm. cbn. exists m. rewrite lookup_insert_ne; [|intros <-; congruence]. split; [done|]. split; intros t Ht; by left.
  - intros [b|me] _; [|done]. split; cbn.
    + intros m Hm. rewrite lookup_insert_ne; [done|]. intros <-. congruence.
    + done.
    + intros [Hb|Hb]; [left; by apply Hreg|by right].
    + intros Hb m [[<- _]|[_ Hm]]%lookup_insert_Some; [|congruence]. left. exists id. cbn. by rewrite lookup_insert_eq.
Qed.

Lemma keeps_get_or_create {A} w id (k : N -> operation A) :
  (forall a w', is_Some (cells w' !! a) -> keeps w' (k a)) -> keeps w (pbind (get_or_create_participant id) k).
Proof.
  intros Hk. eapply (triple_bind _ _ _ _ (fun a w' L' => L' = ∅ /\ is_Some (cells w' !! a))).
  - apply triple_atomic. intros w0 _ Hok. split; [by apply get_or_create_section|]. split; [done|].
    destruct (participants w0 !! id) as [b|] eqn:Hid; cbn; [by apply (so_participants _ _ _ Hok id)|]. by rewrite lookup_insert_eq.
  - intros a w' L' _ [-> Ha]. by apply Hk.
Qed.

Lemma inside_build {A} a m w p (k : N -> fallible A) :
  seated a m w -> calm w p (built w) ->
  (forall t w', frame {[Session a]} w w' -> seated a m w' -> (next w <= t < next w')%N -> inside a w' (k t)) ->
  inside a w (try_bind p k).
Proof.
  intros Hs Hp Hk. eapply inside_calm; [done|done|]. intros [t|e] w' Hf Hs' Hb; [apply Hk; by auto|by eapply inside_return].
Qed.

Lemma keeps_create_send_transport id router server w : keeps w (create_send_transport config id router server).
Proof.
  unfold create_send_transport, with_config. destruct (validate config) as [u|e]; [|apply session_keeps_return].
  apply keeps_get_or_create. intros a w1 Ha. apply keeps_locked; [done|]. intros w2 m _ Hs. apply (inside_proceed a m); [done|].
  intros w3 [] _ _ Hs3 Hf. destruct (negb _); [done|]. destruct (open w3 (send_transport m)) eqn:Ho; [done|].
  apply (inside_build a m); [done|apply calm_build_send|]. intros t w4 F4 Hs4 [_ Ht]. apply (inside_section a m); [done|].
  intros w5 F5 Hok5 Hs5. apply (install_send_section _ _ _ m); [done|done| |].
  - pose proof (ev_next _ _ (fr_evolves _ _ _ F5)). lia.
  - intros t0. eapply not_open_kept; [|done]. etrans; [apply F4|apply F5].
Qed.

Lemma keeps_create_recv_transport id router server w : keeps w (create_recv_transport config id router server).
Proof.
  unfold create_recv_transport, with_config. destruct (validate config) as [u|e]; [|apply session_keeps_return].
  apply keeps_get_or_create. intros a w1 Ha. apply keeps_locked; [done|]. intros w2 m _ Hs. apply (inside_proceed a m); [done|].
  intros w3 [] _ _ Hs3 Hf. destruct (negb _); [done|]. destruct (open w3 (recv_transport m)) eqn:Ho; [done|].
  apply (inside_build a m); [done|apply calm_build_recv|]. intros t w4 F4 Hs4 [_ Ht]. apply (inside_section a m); [done|].
  intros w5 F5 Hok5 Hs5. apply (install_recv_section _ _ _ m); [done|done| |].
  - pose proof (ev_next _ _ (fr_evolves _ _ _ F5)). lia.
  - intros t0. eapply not_open_kept; [|done]. etrans; [apply F4|apply F5].
Qed.

Lemma replay_none m expected w : replay_recv_replacement m expected w = Ok None -> recv_transport m = Some expected.
Proof.
  unfold replay_recv_replacement. destruct (recv_transport m) as [current|]; [|done].
  destruct (N.eqb_spec current expected) as [->|]; [done|]. by destruct (_ && _).
Qed.

Lemma keeps_replace_recv_transport id expected router server lease retain bwe w :
  keeps w (replace_recv_transport config id expected router server lease retain bwe).
Proof.
  unfold replace_recv_transport, with_config. destruct (validate config) as [u|e]; [|apply session_keeps_return].
  apply keeps_with_session. intros a m w2 Hs. apply (inside_proceed a m); [done|].
  intros w3 [] _ Hok3 Hs3 Hf. destruct (negb _); [done|]. destruct (replay_recv_replacement m expected w3) as [[]|] eqn:Hr; [done| |done].
  apply replay_none in Hr. assert (expected < next w3)%N as He by (eapply fine_transports; [by apply (seated_fine a)|by right]).
  apply (inside_build a m); [done|apply calm_build_recv|]. intros t w4 F4 Hs4 [Ht0 Ht].
  assert (forall traced, inside a w4 (if negb traced then Return (Err (TransportError "Failed to enable trace events"))
      else atomically (install_receiver id a expected t lease retain bwe))) as Htail.
  { intros []; cbn [negb]; [|by eapply inside_return]. apply (inside_section a m); [done|]. intros w5 F5 Hok5 Hs5.
    apply (install_receiver_section _ _ _ _ _ _ _ m); [done|done| | |done]; [|lia]. pose proof (ev_next _ _ (fr_evolves _ _ _ F5)). lia. }
  destruct bwe; [apply inside_ask; intros r; apply Htail|apply (Htail true)].
Qed.

Lemma session_read {A} w (f : session_world -> A) : calm w (atomically (fun w => (w, f w))) (fun _ _ => True).
Proof. apply session_quiet; [|done]. intros w0 Hok. split; [by split|apply Hok]. Qed.

Lemma inside_look {A} a m w (f : participant_media -> session_world -> A) : seated a m w -> inside a w (read_media a f).
Proof. intros Hs. eapply inside_calm_last; [done|apply session_read]. Qed.

Lemma keeps_recv_replacement_replay id expected w : keeps w (recv_replacement_replay id expected).
Proof. apply keeps_with_session. intros a m w0 Hs. by eapply inside_look. Qed.

Lemma keeps_is_current_recv_transport id expected w : keeps w (is_current_recv_transport id expected).
Proof.
  eapply (triple_bind _ _ _ _ (fun r w' L' => L' = ∅ /\ forall a, r = Ok a -> is_Some (cells w' !! a))).
  - apply triple_atomic. intros w0 _ Hok. split; [by split|]. split; [done|]. cbn. intros a Ha.
    destruct (participants w0 !! id) as [b|] eqn:Hid; [|done]. injection Ha as <-. by apply (so_participants _ _ _ Hok id).
  - cbn. intros [a|e] w' L' _ [-> Ha]; [|apply session_keeps_return]. apply keeps_locked; [by apply Ha|]. intros w0 m _ Hs. by eapply inside_look.
Qed.

(** A transport of the session keeps it attended. *)
Lemma seated_attended a m w t : seated a m w -> send_transport m = Some t \/ recv_transport m = Some t -> attended w a.
Proof. intros [_ [Ha|(E1 & E2 & _)]] [Ht|Ht]; congruence. Qed.

Lemma find_transport_some m t is_send : find_transport m t = Some is_send ->
  (if is_send then send_transport m else recv_transport m) = Some t.
Proof. unfold find_transport. case_bool_decide; [by intros [= <-]|]. case_bool_decide; [by intros [= <-]|done]. Qed.

Lemma keeps_connect_transport id t w : keeps w (connect_transport id t).
Proof.
  apply keeps_with_session. intros a m w0 Hs. apply (inside_proceed a m); [done|]. intros w1 is_send _ Hok1 Hs1 Hf.
  destruct (find_transport m t) as [s|] eqn:Hfind; [|done]. destruct (_ || _); [done|]. case_bool_decide; [done|]. injection Hf as ->.
  apply find_transport_some in Hfind. apply inside_ask. intros []; cbn [negb]; [|by eapply inside_return].
  apply (inside_write a m); [done|..|by destruct is_send|by destruct is_send|by destruct is_send].
  intros w2 _ [F1 F2 F3 F4 F5 F6 F7 F8 F9]. destruct is_send; split; cbn; try done; congruence.
Qed.

Lemma keeps_restart_ice id t w : keeps w (restart_ice id t).
Proof.
  apply keeps_with_session. intros a m w0 Hs. apply (inside_proceed a m); [done|]. intros w1 x _ _ Hs1 _.
  apply inside_ask. intros r. by eapply inside_return.
Qed.

Lemma keeps_subscribe_bwe_events id w : keeps w (subscribe_bwe_events id).
Proof.
  apply keeps_with_session. intros a m w0 Hs. apply (inside_proceed a m); [done|]. intros w1 t _ _ Hs1 Hf.
  destruct (recv_transport m) as [t'|] eqn:Ht; [|done]. injection Hf as ->. apply inside_ask. intros []; cbn [negb]; [|by eapply inside_return].
  apply (inside_section a m); [done|]. intros w2 _ Hok2 Hs2. destruct (Hs2) as [Hm2 Ha2]. pose proof (seated_fine _ _ _ Hok2 Hs2) as Hfine.
  rewrite (seated_media _ _ _ Hs2), (fine_generation _ _ _ _ _ Hfine). split; [|by exists m].
  apply (cell_section _ _ _ a m m); [set_solver|done|done|]. split; cbn; try done.
  - by rewrite insert_id.
  - intros g Hg. by rewrite lookup_insert_ne.
  - rewrite lookup_insert_eq. by intros t0 [= <-].
  - eapply natives_same; [..|apply Hok2]; cbn; done || lia.
  - intros t0 Ht0. by left.
  - intros t0 Ht0. by left.
Qed.

(** ** Producers and consumers *)

Lemma inside_prepare {A B} a m w (f : session_world -> session_world * verdict A B) (k : B -> fallible A) (g : session_world -> participant_media) :
  seated a m w ->
  (forall w0, sessions_ok w0 -> seated a m w0 -> section_ok {[Session a]} w0 (f w0).1 /\ seated a (g w0) (f w0).1) ->
  (forall w0 x, sessions_ok w0 -> seated a m w0 -> (f w0).2 = Proceed x -> seated a (g w0) (f w0).1 -> inside a (f w0).1 (k x)) ->
  inside a w (proceed (atomically f) k).
Proof.
  intros Hs Hf Hk.
  eapply (triple_bind _ _ _ _ (fun v w' L' => L' = {[Session a]} /\ exists w0, sessions_ok w0 /\ seated a m w0 /\ w' = (f w0).1 /\ v = (f w0).2)).
  - apply triple_atomic. intros w0 Hfr Hok. assert (seated a m w0) as Hs0 by by eapply seated_frame.
    destruct (Hf w0 Hok Hs0). split; [done|]. split; [done|]. by exists w0.
  - intros v w' L' _ (-> & w0 & Hok & Hs0 & -> & ->). destruct (Hf w0 Hok Hs0) as [_ Hs']. destruct (f w0).2 as [r|x] eqn:Hv.
    + by eapply inside_return.
    + by apply Hk.
Qed.

Definition live_producers (w : session_world) (m : participant_media) : participant_media :=
  m <| producers ::= filter (fun x => is_closed w x = false) |>.
Definition live_consumers (w : session_world) (m : participant_media) : participant_media :=
  let live := filter (fun x => is_closed w x = false) (consumers m) in
  m <| consumers := live |> <| consumer_layers ::= filter (fun x : N * layer_state => x.1 ∈ live) |>.

Lemma write_seated a m f w :
  sessions_ok w -> seated a m w -> fine (next w) a (f m) ->
  recv_transport (f m) = recv_transport m -> send_transport (f m) = send_transport m -> (vacant_media m -> vacant_media (f m)) ->
  section_ok {[Session a]} w (write_media a f w) /\ seated a (f m) (write_media a f w).
Proof.
  intros Hok Hs Hf Hr Hse Hv. destruct (cell_write_section a m f w) as [Hsec [m' Hs']]; [done..|by right|]. split; [done|].
  destruct Hs' as [Hm' Ha]. assert (m' = f m) as ->; [|done]. cbn in Hm'. rewrite (seated_media _ _ _ Hs), lookup_insert_eq in Hm'. congruence.
Qed.

Lemma live_producers_section a m w : sessions_ok w -> seated a m w ->
  section_ok {[Session a]} w (write_media a (live_producers w) w) /\ seated a (live_producers w m) (write_media a (live_producers w) w).
Proof.
  intros Hok Hs. apply write_seated; [done|done| |done|done|].
  - destruct (seated_fine _ _ _ Hok Hs) as [F1 F2 F3 F4 F5 F6 F7 F8 F9]. split; cbn; try done.
    etrans; [|exact F3]. apply subseteq_size. set_solver.
  - intros (E1 & E2 & E3 & E4). split_and!; try done. cbn. rewrite E3. set_solver.
Qed.
Lemma live_consumers_section a m w : sessions_ok w -> seated a m w ->
  section_ok {[Session a]} w (write_media a (live_consumers w) w) /\ seated a (live_consumers w m) (write_media a (live_consumers w) w).
Proof.
  intros Hok Hs. apply write_seated; [done|done| |done|done|].
  - destruct (seated_fine _ _ _ Hok Hs) as [F1 F2 F3 F4 F5 F6 F7 F8 F9]. split; cbn; try done.
    + etrans; [|exact F4]. apply subseteq_size. set_solver.
    + intros c [x [_ Hx]%map_lookup_filter_Some]%elem_of_dom. done.
  - intros (E1 & E2 & E3 & E4). split_and!; try done. cbn. rewrite E4. set_solver.
Qed.

Lemma size_add (x : N) (s : gset N) n : (size s < n -> size ({[x]} ∪ s) <= n)%nat.
Proof.
  intros Hs. destruct (decide (x ∈ s)); [replace ({[x]} ∪ s) with s by set_solver; lia|].
  rewrite size_union by set_solver. rewrite size_singleton. lia.
Qed.

Lemma add_producer_section a m w t :
  sessions_ok w -> seated a m w -> send_transport m = Some t -> (size (producers m) < producer_cap)%nat ->
  section_ok {[Session a]} w (add_producer a w).1 /\ exists m', seated a m' (add_producer a w).1.
Proof.
  intros Hok Hs Ht Hcap. pose proof (seated_attended a m w t Hs (or_introl Ht)) as Hatt. destruct (Hs) as [Hm _]. 
  pose proof (seated_fine _ _ _ Hok Hs) as [F1 F2 F3 F4 F5 F6 F7 F8 F9]. split.
  - apply (cell_section _ _ _ a m (m <| producers ::= union {[next w]} |>)); [set_solver|done|done|]. split; cbn; try done || lia.
    + unfold media_at. cbn. by rewrite Hm.
    + intros t0 Ht0. destruct (so_handlers _ _ _ Hok a t0 Ht0) as (m' & Hm' & Ht'). congruence.
    + eapply natives_same; [..|apply Hok]; cbn; done || lia.
    + split; cbn; try done || lia; [by apply size_add|]. intros t0 Ht0%F9. lia.
    + intros t0 Ht0. by left.
    + intros t0 Ht0. by left.
  - eexists. split; [cbn; by rewrite lookup_insert_eq|]. by left.
Qed.

Lemma prepared_producer a t m w : seated a m w -> (prepare_producer producer_cap a t w).2 = Proceed tt ->
  (size (producers (live_producers w m)) < producer_cap)%nat /\ send_transport m = Some t.
Proof.
  intros [Hm _]. unfold prepare_producer, write_media, media_at. cbn. rewrite Hm, lookup_insert_eq. cbn.
  destruct (_ <=? _)%nat eqn:Hcap; [done|]. apply Nat.leb_gt in Hcap. case_bool_decide; done.
Qed.

Lemma keeps_create_producer id t kind w : keeps w (create_producer key_frame_request_delay producer_cap id t kind).
Proof.
  apply keeps_with_session. intros a m w0 Hs. apply (inside_prepare a m _ _ _ (fun w => live_producers w m)); [done|apply live_producers_section|].
  intros w1 [] Hok1 Hs1 [Hcap Ht]%(prepared_producer _ _ m) Hs2; [|done].
  apply inside_ask. intros []; cbn [negb]; [|by eapply inside_return]. eapply inside_section; [done|]. intros w3 _ Hok3 Hs3.
  by eapply add_producer_section.
Qed.

Lemma prepared_consumer a m w t tier : seated a m w -> (prepare_consumer consumer_cap a w).2 = Proceed (t, tier) ->
  (size (consumers (live_consumers w m)) < consumer_cap)%nat /\ recv_transport m = Some t.
Proof.
  intros [Hm _]. unfold prepare_consumer, write_media, media_at. cbn. rewrite Hm, lookup_insert_eq. cbn.
  destruct (_ <=? _)%nat eqn:Hcap; [done|]. apply Nat.leb_gt in Hcap. destruct (recv_transport m); [|done]. by intros [= ->].
Qed.

Lemma count_same k w : let w' := count_consumer k w in
  participants w' = participants w /\ cells w' = cells w /\ bwe_trace_handlers w' = bwe_trace_handlers w /\ closing w' = closing w
  /\ native_closed w' = native_closed w /\ next w' = next w.
Proof. by destruct k. Qed.

Lemma add_consumer_section a m w t k answer :
  sessions_ok w -> seated a m w -> recv_transport m = Some t -> (size (consumers m) < consumer_cap)%nat ->
  section_ok {[Session a]} w (add_consumer a k answer w).1 /\ exists m', seated a m' (add_consumer a k answer w).1.
Proof.
  intros Hok Hs Ht Hcap. pose proof (seated_attended a m w t Hs (or_intror Ht)) as Hatt. destruct (Hs) as [Hm _].
  pose proof (seated_fine _ _ _ Hok Hs) as [F1 F2 F3 F4 F5 F6 F7 F8 F9]. destruct (count_same k w) as (E1 & E2 & E3 & E4 & E5 & E6).
  set (m' := (match layered_top answer with
      | Some top => m <| consumer_layers ::= <[next w := LayerState top None]> |> | None => m end) <| consumers ::= union {[next w]} |>).
  assert (natives_ok (add_consumer a k answer w).1) as Hnat by apply natives_add, Hok.
  remember (add_consumer a k answer w).1 as w' eqn:Hw'.
  assert (cells w' = <[a := m']> (cells w)) as X2 by (subst w'; cbn; unfold media_at; cbn; by rewrite E2, Hm).
  assert (participants w' = participants w /\ bwe_trace_handlers w' = bwe_trace_handlers w /\ closing w' = closing w
          /\ native_closed w' = native_closed w /\ next w' = N.succ (next w)) as (X1 & X3 & X4 & X5 & X6).
  { subst w'. cbn. by rewrite E6. }
  assert (recv_transport m' = recv_transport m /\ send_transport m' = send_transport m) as [R1 R2] by (unfold m'; by destruct (layered_top _)).
  assert (fine (N.succ (next w)) a m') as Hfine.
  { unfold m'. destruct (layered_top answer); split; cbn; try done || lia; try (by apply size_add); try (by intros t0 Ht0%F9; lia); set_solver. }
  clearbody m'. split.
  - apply (cell_section _ _ _ a m m'); [set_solver|done|done|]. split; rewrite ?X3, ?X6; try done || lia.
    + intros t0 Ht0. destruct (so_handlers _ _ _ Hok a t0 Ht0) as (m0 & Hm0 & Ht'). congruence.
    + intros t0 Ht0. left. congruence.
    + intros t0 Ht0. left. congruence.
  - exists m'. split; [by rewrite X2, lookup_insert_eq|]. left. unfold attended, registered_cell. by rewrite X1, X4.
Qed.

Lemma keeps_create_consumer id producer source k w : keeps w (create_consumer consumer_cap id producer source k).
Proof.
  apply keeps_with_session. intros a m w0 Hs. apply (inside_prepare a m _ _ _ (fun w => live_consumers w m)); [done|apply live_consumers_section|].
  intros w1 [t tier] Hok1 Hs1 [Hcap Ht]%(prepared_consumer _ m) Hs2; [|done].
  apply inside_ask. intros [answer|]; [|by eapply inside_return].
  assert (forall b, inside a (prepare_consumer consumer_cap a w1).1 (if negb b then Return (Err (ConsumerError "Failed to prioritize presentation"))
     else atomically (add_consumer a k answer))) as Htail.
  { intros []; cbn [negb]; [|by eapply inside_return]. eapply inside_section; [done|]. intros w3 _ Hok3 Hs3. by eapply add_consumer_section. }
  cbv zeta. destruct (_ =? 1)%N; [apply (Htail true)|apply inside_ask; intros r; apply Htail].
Qed.

Lemma calm_alter {A} w c f (x : A) : (forall n, counter (f n) = counter n) ->
  calm w (atomically (fun w => (w <| native_consumers ::= alter f c |>, x))) (fun _ _ => True).
Proof.
  intros Hf. apply session_quiet; [|done]. intros w0 Hok. split; [by split|]. apply natives_alter; [done|apply Hok].
Qed.

Lemma keeps_set_consumer_paused paused id c w : keeps w (set_consumer_paused paused id c).
Proof.
  apply keeps_with_session. intros a m w0 Hs. apply (inside_proceed a m); [done|]. intros w1 [] _ _ Hs1 _.
  destruct paused; apply inside_ask; intros []; cbn [negb]; try (by eapply inside_return); (eapply inside_calm_last; [done|]; by apply calm_alter).
Qed.

Lemma keeps_set_producer_paused paused id x w : keeps w (set_producer_paused paused id x).
Proof.
  apply keeps_with_session. intros a m w0 Hs. apply (inside_proceed a m); [done|]. intros w1 [] _ _ Hs1 _.
  assert (inside a w1 (atomically (fun w => (w <| producer_paused ::= <[x := paused]> |>, Ok (E := media_error) true)))) as Hset.
  { eapply inside_calm_last; [done|]. apply (session_quiet _ _ _ _ (fun _ _ => True)); [|done]. intros w2 Hok. split; [by split|].
    eapply natives_same; [..|apply Hok]; done. }
  destruct paused; apply inside_ask; intros []; cbn [negb]; [done|by eapply inside_return|done|by eapply inside_return].
Qed.

Lemma keeps_get_participant id w : keeps w (get_participant id).
Proof. apply keeps_with_session. intros a m w0 Hs. by eapply inside_look. Qed.

(** ** Layers *)

Lemma inside_write_effective_layers a m c target w : seated a m w -> inside a w (write_effective_layers c target).
Proof.
  intros Hs. apply inside_ask. intros [l|]; [|by eapply inside_return]. eapply inside_calm_last; [done|]. by apply calm_alter.
Qed.

Definition preferring (m : participant_media) (c : N) (preferred : layers) : participant_media :=
  match consumer_layers m !! c with
  | Some s => if bool_decide (c ∈ consumers m) then m <| consumer_layers ::= <[c := s <| client := Some preferred |>]> |> else m
  | None => m
  end.

Lemma record_preference_section a m c preferred w : sessions_ok w -> seated a m w ->
  section_ok {[Session a]} w (record_preference a c preferred w).1 /\ seated a (preferring m c preferred) (record_preference a c preferred w).1.
Proof.
  intros Hok Hs. unfold record_preference, preferring. rewrite (seated_media _ _ _ Hs).
  case_bool_decide as Hc; cbn [negb]; [|destruct (consumer_layers m !! c); (split; [by split|done])].
  destruct (consumer_layers m !! c) as [s|] eqn:Hl; cbn [fst]; [|split; [by split|done]].
  apply (write_seated a m (fun m => m <| consumer_layers ::= <[c := s <| client := Some preferred |>]> |>)); [done|done| |done|done|done].
  destruct (seated_fine _ _ _ Hok Hs) as [F1 F2 F3 F4 F5 F6 F7 F8 F9]. split; cbn; try done. rewrite dom_insert_L.
  apply union_least; [|done]. by apply singleton_subseteq_l.
Qed.

Lemma keeps_set_preferred_layers id c preferred w : keeps w (set_preferred_layers id c preferred).
Proof.
  apply keeps_with_session. intros a m w0 Hs.
  apply (inside_prepare a m _ _ _ (fun _ => preferring m c preferred)); [done|intros; by apply record_preference_section|].
  intros w1 target _ _ _ Hs2. by eapply inside_write_effective_layers.
Qed.

Lemma keeps_apply_layer_ceilings id c w : keeps w (apply_layer_ceilings id c).
Proof.
  apply keeps_with_session. intros a m w0 Hs. apply (inside_proceed a m); [done|]. intros w1 target _ _ Hs1 _.
  by eapply inside_write_effective_layers.
Qed.

Lemma keeps_set_bandwidth_ceiling id expected spatial w : keeps w (set_bandwidth_ceiling_for_transport id expected spatial).
Proof.
  apply keeps_with_session. intros a m w0 Hs. apply (inside_section a m); [done|]. intros w1 _ Hok Hs1. cbv zeta.
  destruct (match expected with Some _ => _ | None => _ end); cbn [fst]; [split; [by split|by exists m]|].
  apply (cell_write_section a m); [done|done|..]; rewrite (seated_media _ _ _ Hs1); [|done|done|by right].
  destruct (seated_fine _ _ _ Hok Hs1) as [F1 F2 F3 F4 F5 F6 F7 F8 F9]. by split.
Qed.

(** ** Removal *)

Lemma keeps_close_consumer id c w : keeps w (close_consumer id c).
Proof.
  apply keeps_with_session. intros a m w0 Hs. apply (inside_write a m); [done| |done|done|].
  - intros w1 _ [F1 F2 F3 F4 F5 F6 F7 F8 F9]. split; cbn; try done; [|rewrite dom_delete_L; set_solver].
    etrans; [|exact F4]. apply subseteq_size. set_solver.
  - intros (E1 & E2 & E3 & E4). split_and!; try done. cbn. set_solver.
Qed.

Lemma keeps_close_producer id x w : keeps w (close_producer id x).
Proof.
  apply keeps_with_session. intros a m w0 Hs. apply (inside_section a m); [done|]. intros w1 _ Hok Hs1.
  case_bool_decide; cbn [fst]; [|split; [by split|by exists m]]. apply (cell_write_section a m); [done|done| |done|done|right].
  - destruct (seated_fine _ _ _ Hok Hs1) as [F1 F2 F3 F4 F5 F6 F7 F8 F9]. split; cbn; try done.
    etrans; [|exact F3]. apply subseteq_size. set_solver.
  - intros (E1 & E2 & E3 & E4). split_and!; try done. cbn. set_solver.
Qed.

Lemma keeps_attach_viewer_lease id lease w : keeps w (attach_viewer_lease id lease).
Proof.
  apply keeps_with_session. intros a m w0 Hs. apply (inside_write a m); [done| |done|done|done].
  intros w1 _ [F1 F2 F3 F4 F5 F6 F7 F8 F9]. by split.
Qed.

(** Cells leave the map for the operation [me]. *)
Lemma taken_section L me w w' :
  Closer me ∈ L -> sessions_ok w ->
  cells w' = cells w /\ bwe_trace_handlers w' = bwe_trace_handlers w /\ native_closed w' = native_closed w
    /\ native_consumers w' = native_consumers w /\ counters w' = counters w /\ next w' = next w ->
  (forall id b, participants w' !! id = Some b -> participants w !! id = Some b) ->
  (forall b, registered_cell w b -> registered_cell w' b \/ closing w' !! b = Some me) ->
  (forall b other, closing w' !! b = Some other -> closing w !! b = Some other \/ (other = me /\ registered_cell w b /\ ~ registered_cell w' b)) ->
  (forall b other, closing w !! b = Some other -> closing w' !! b = Some other) ->
  section_ok L w w'.
Proof.
  intros HL [O1 O2 O3 O4 O5 O6] (E1 & E2 & E3 & E4 & E5 & E6) Hsub Hcases Hnew Hold.
  assert (forall b, attended w b -> attended w' b) as Hatt.
  { intros b [[Hr|Hc]%Hcases|[o Ho]]; [by left|right; by eauto|]. right. exists o. by apply Hold. }
  split.
  - split.
    + intros id b Hb%Hsub. rewrite E1. by eapply O1.
    + intros id id' b H1%Hsub H2%Hsub. by eapply O2.
    + intros b m. rewrite E1, E6. apply O3.
    + intros g t. rewrite E1, E2. apply O4.
    + intros b other Hb. rewrite E1. destruct (Hnew _ _ Hb) as [[Hs Hn]%O5|(-> & [id Hr] & Hn)]; [|split; [by eapply O1|done]].
      split; [done|]. intros [id Hid%Hsub]. apply Hn. by exists id.
    + eapply natives_same; [..|done]; [done..|lia].
  - split; [by rewrite E3|by rewrite E1|lia].
  - intros b m Hm. exists m. rewrite E1. split; [done|]. split; intros t Ht; by left.
  - intros [b|other] Hl; cbn; [split; rewrite ?E1, ?E2; [done|done|by auto|congruence]|].
    intros b. split; [apply Hold|]. intros [Hb|(-> & _)]%Hnew; [done|]. by destruct Hl.
Qed.

Lemma take_session_section L me id w : Closer me ∈ L -> sessions_ok w -> (forall b, closing w !! b <> Some me) ->
  section_ok L w (take_session me id w).1
  /\ forall b, closing (take_session me id w).1 !! b = Some me <-> (take_session me id w).2 = Some b.
Proof.
  intros HL Hok Hidle. unfold take_session. destruct (participants w !! id) as [a|] eqn:Hid; cbn; [|split; [by split|by intros b; split; [intros Hb; destruct (Hidle b)|]]].
  assert (forall other, closing w !! a <> Some other) as Hfree.
  { intros other [_ Hn]%(so_closing _ _ _ Hok). apply Hn. by exists id. }
  split.
  - apply (taken_section L me); [done|done|done|..]; cbn.
    + by intros id' b [_ Hb]%lookup_delete_Some.
    + intros b [id' Hb]. destruct (decide (id' = id)) as [->|Hne].
      * right. replace b with a by congruence. by rewrite lookup_insert_eq.
      * left. exists id'. cbn. by rewrite lookup_delete_ne.
    + intros b other [[<- <-]|[_ Hb]]%lookup_insert_Some; [right|by left]. split; [done|]. split; [by exists id|].
      unfold registered_cell; cbn; intros [id' [Hne Hb]%lookup_delete_Some]. by rewrite (so_once _ _ _ Hok id id' a) in Hne.
    + intros b other Hb. rewrite lookup_insert_ne; [done|]. intros <-. by destruct (Hfree other).
  - intros b. rewrite lookup_insert_Some. split; [intros [[<- _]|[_ Hb]]; [done|by destruct (Hidle b)]|]. intros [= ->]. by left.
Qed.

Lemma close_cell_section L me a m w :
  Session a ∈ L -> Closer me ∈ L -> sessions_ok w -> cells w !! a = Some m -> closing w !! a = Some me ->
  section_ok L w (close_cell a w).1.
Proof.
  intros HS HC Hok Hm Hcl. destruct (so_closing _ _ _ Hok _ _ Hcl) as [_ Hnr]. destruct (Hok) as [O1 O2 O3 O4 O5 O6].
  pose proof (O3 _ _ Hm) as [F1 F2 F3 F4 F5 F6 F7 F8 F9].
  assert ((close_cell a w).1 = w <| cells := <[a := close_media m]> (cells w) |> <| bwe_trace_handlers := delete a (bwe_trace_handlers w) |>
            <| closing := delete a (closing w) |>) as ->.
  { unfold close_cell, write_media, clear_bwe_trace_handler, media_at. cbn. rewrite Hm. cbn. by rewrite F1. }
  assert (forall b, is_Some (cells w !! b) -> is_Some (<[a := close_media m]> (cells w) !! b)) as Hs.
  { intros b. destruct (decide (b = a)) as [->|Hb]; [by rewrite lookup_insert_eq|by rewrite lookup_insert_ne]. }
  split.
  - split; cbn.
    + intros id b Hb%O1. auto.
    + done.
    + intros b n [[<- <-]|[_ Hn]]%lookup_insert_Some; [|by apply O3]. split; cbn; rewrite ?size_empty; done || lia || by intros ? [].
    + intros g t [Hg (n & Hn & Ht)%O4]%lookup_delete_Some. exists n. by rewrite lookup_insert_ne.
    + intros b other [_ [Hb Hn]%O5]%lookup_delete_Some. auto.
    + eapply natives_same; [..|done]; done || (cbn; lia).
  - by split.
  - intros b n Hn. cbn. destruct (decide (b = a)) as [->|Hb].
    + rewrite lookup_insert_eq. exists (close_media m). split; [done|]. split; intros t Ht; right; right; [right|]; done.
    + rewrite lookup_insert_ne by done. exists n. split; [done|]. split; intros t Ht; by left.
  - intros [b|other] Hl; cbn.
    + assert (b <> a) as Hb by congruence. split; cbn; rewrite ?lookup_insert_ne, ?lookup_delete_ne by done; [done|done| |congruence].
      unfold attended. cbn. by rewrite lookup_delete_ne.
    + assert (other <> me) as Ho by congruence. intros b. rewrite lookup_delete_Some. split; [|tauto]. intros Hb. split; [|done]. congruence.
Qed.

(** [me] still has to close exactly [all]. *)
Definition to_close (me : N) (all : list N) (w : session_world) : Prop := forall b, closing w !! b = Some me <-> b ∈ all.

Lemma to_close_frame L me all w w' : frame L w w' -> Closer me ∈ L -> to_close me all w -> to_close me all w'.
Proof. intros [_ Hp] HL Ht b. rewrite <-(Ht b). symmetry. apply (Hp _ HL). Qed.

Lemma triple_close_cell {A} me a all w (k : operation A) Q :
  to_close me (a :: all) w -> a ∉ all ->
  (forall w', to_close me all w' -> triple {[Closer me]} w' k Q) ->
  triple {[Closer me]} w (pbind (holding (Session a) (atomically (close_cell a))) (fun _ => k)) Q.
Proof.
  intros Ht Hna Hk. eapply (triple_bind _ _ _ _ (fun _ w' L' => L' = {[Closer me]} /\ to_close me all w')); [|intros x w' L' _ [-> Ht']; by apply Hk].
  apply triple_guard. intros w0 _ Hf Hok _. eapply (to_close_frame _ _ _ _ w0) in Ht; [|exact Hf|set_solver].
  assert (closing w0 !! a = Some me) as Hcl by (apply Ht; left). destruct (so_closing _ _ _ Hok _ _ Hcl) as [[m Hm] _].
  apply triple_atomic. intros w1 Hf1 Hok1. assert (to_close me (a :: all) w1) as Ht1 by (eapply to_close_frame; [done|set_solver|done]).
  assert (cells w1 !! a = Some m) as Hm1 by (apply (fr_protects _ _ _ Hf1 (Session a)); [set_solver|done]).
  assert (closing w1 !! a = Some me) as Hcl1 by (apply Ht1; left).
  split; [apply (close_cell_section _ me a m); [set_solver|set_solver|done..]|]. intros w2 Hf2 _. split.
  - intros _. assert (cells w2 !! a = Some (close_media m)) as Hm2.
    { apply (fr_protects _ _ _ Hf2 (Session a)); [set_solver|]. cbn. unfold media_at. by rewrite Hm1, lookup_insert_eq. }
    intros m' Hm'. right. by replace m' with (close_media m) by congruence.
  - split; [set_solver|]. eapply to_close_frame; [exact Hf2|set_solver|]. intros b. cbn. rewrite lookup_delete_Some, (Ht1 b), elem_of_cons.
    split; [intros [Hne [->|Hb]]; done|]. intros Hb. split; [|by right]. intros <-. done.
Qed.

Lemma triple_closing {A} w (body : N -> operation A) :
  (forall me w0, sessions_ok w0 -> to_close me [] w0 ->
     triple {[Closer me]} w0 (body me) (fun _ w' L' => L' = {[Closer me]} /\ to_close me [] w')) ->
  keeps w (let* me := new_native in holding (Closer me) (body me)).
Proof.
  intros Hb. eapply triple_bind; [apply calm_new_native|]. cbn. intros me w1 L' _ (-> & _ & _). apply triple_guard. intros w0 _ _ Hok Hidle.
  replace ({[Closer me]} ∪ ∅ : gset session_lock) with ({[Closer me]} : gset session_lock) by set_solver.
  eapply triple_mono; [|apply Hb; [done|]].
  - cbn. intros x w' L' _ [-> Ht] w2 Hf _. split; [|set_solver]. intros _ b Hcl. eapply to_close_frame in Ht; [|exact Hf|set_solver]. apply Ht in Hcl. set_solver.
  - intros b. split; [intros Hcl; by destruct (Hidle b)|set_solver].
Qed.

Lemma keeps_remove_participant id w : keeps w (remove_participant id).
Proof.
  apply triple_closing. intros me w0 Hok Ht.
  eapply (triple_bind _ _ _ _ (fun taken w' L' => L' = {[Closer me]} /\ to_close me (option_list taken) w')).
  - apply triple_atomic. intros w1 Hf1 Hok1. eapply to_close_frame in Ht; [|exact Hf1|set_solver].
    destruct (take_session_section {[Closer me]} me id w1) as [Hs Hc]; [set_solver|done|intros b Hb%Ht; set_solver|].
    split; [done|]. split; [done|]. intros b. rewrite Hc. destruct (take_session me id w1).2; cbn; rewrite ?list_elem_of_singleton; [|set_solver]. split; congruence.
  - intros [a|] w1 L' _ [-> Ht1]; [|by apply triple_return]. apply (triple_close_cell _ _ []); [done|set_solver|]. intros w2 Ht2. by apply triple_return.
Qed.

Lemma triple_close_each me all w : NoDup all -> to_close me all w ->
  triple {[Closer me]} w (close_each all) (fun _ w' L' => L' = {[Closer me]} /\ to_close me [] w').
Proof.
  intros Hnd. revert w. induction Hnd as [|a all Ha Hnd IH]; intros w Ht; [by apply triple_return|]. by apply (triple_close_cell _ _ all).
Qed.

Lemma drained_closing me (all : list N) (cl : gmap N N) b :
  foldr (fun a => <[a := me]>) cl all !! b = if decide (b ∈ all) then Some me else cl !! b.
Proof.
  induction all as [|a all IH]; cbn; [by rewrite decide_False by set_solver|]. destruct (decide (b = a)) as [->|Hne].
  - rewrite lookup_insert_eq, decide_True by set_solver. done.
  - rewrite lookup_insert_ne, IH by done. destruct (decide (b ∈ all)), (decide (b ∈ a :: all)); set_solver.
Qed.

Lemma elem_of_drained w b : b ∈ snd <$> map_to_list (participants w) <-> registered_cell w b.
Proof.
  rewrite list_elem_of_fmap. split.
  - intros ([id a] & -> & Hin%elem_of_map_to_list). by exists id.
  - intros [id Hid]. exists (id, b). split; [done|]. by apply elem_of_map_to_list.
Qed.

Lemma drained_nodup w : sessions_ok w -> NoDup (snd <$> map_to_list (participants w)).
Proof.
  intros Hok. apply NoDup_fmap_2_strong; [|apply NoDup_map_to_list]. intros [i1 a1] [i2 a2] H1%elem_of_map_to_list H2%elem_of_map_to_list. cbn.
  intros <-. by rewrite (so_once _ _ _ Hok i1 i2 a1).
Qed.

Lemma drain_section L me w : Closer me ∈ L -> sessions_ok w -> to_close me [] w ->
  section_ok L w (drain_sessions me w).1 /\ to_close me (drain_sessions me w).2 (drain_sessions me w).1.
Proof.
  intros HL Hok Ht. split.
  - apply (taken_section L me); [done|done|done|..]; cbn.
    + intros id b. by rewrite lookup_empty.
    + intros b Hb. right. rewrite drained_closing, decide_True; [done|]. by apply elem_of_drained.
    + intros b other. rewrite drained_closing. destruct (decide _) as [Hin|]; [|by left]. intros [= <-]. right.
      split; [done|]. split; [by apply elem_of_drained|]. intros [id Hid]. cbn in Hid. by rewrite lookup_empty in Hid.
    + intros b other Hb. rewrite drained_closing, decide_False; [done|]. intros Hin%elem_of_drained. by apply (so_closing _ _ _ Hok _ _ Hb).
  - intros b. cbn. rewrite drained_closing. destruct (decide _) as [Hin|Hin]; [done|]. split; [|done]. intros Hb%Ht. set_solver.
Qed.

Lemma keeps_close_all_sessions w : keeps w close_all_sessions.
Proof.
  apply triple_closing. intros me w0 Hok Ht.
  eapply (triple_bind _ _ _ _ (fun all w' L' => L' = {[Closer me]} /\ NoDup all /\ to_close me all w')).
  - apply triple_atomic. intros w1 Hf1 Hok1. eapply to_close_frame in Ht; [|exact Hf1|set_solver].
    destruct (drain_section {[Closer me]} me w1) as [Hs Hc]; [set_solver|done|done|]. split; [done|]. split_and!; [done|by apply drained_nodup|done].
  - intros all w1 L' _ (-> & Hnd & Ht1). by apply triple_close_each.
Qed.
End operations.
