(* ===== verification/MediaSessions.v ===== *)
(** * The media sessions as a system

    All session operations of the transport manager, in any number and order,
    with native calls that succeed or fail, and native objects that close and
    DTLS handshakes that proceed at any time: removal leaves no media behind, the
    limits hold, open transports are kept, and the consumer counts are exact. *)

From stdpp Require Import relations.
From S2P Require Import Prelude Process Triples Schedule Protocol Workers Transports SessionInv SessionSafety.

Open Scope process_scope.

(** ** The system *)

Definition answered {A} (p : operation A) : operation unit := let* _ := p in Return tt.

Section system.
Context (config : transport_config) (delay : N) (producer_cap consumer_cap : nat).

Inductive session_request : operation unit -> Prop :=
| AskSend id router server : session_request (answered (create_send_transport config id router server))
| AskRecv id router server : session_request (answered (create_recv_transport config id router server))
| AskReplay id expected : session_request (answered (recv_replacement_replay id expected))
| AskReplace id expected router server lease retain bwe :
    session_request (answered (replace_recv_transport config id expected router server lease retain bwe))
| AskCurrent id expected : session_request (answered (is_current_recv_transport id expected))
| AskConnect id t : session_request (answered (connect_transport id t))
| AskRestart id t : session_request (answered (restart_ice id t))
| AskSubscribe id : session_request (answered (subscribe_bwe_events id))
| AskProduce id t kind : session_request (answered (create_producer delay producer_cap id t kind))
| AskConsume id producer source k : session_request (answered (create_consumer consumer_cap id producer source k))
| AskPauseConsumer paused id c : session_request (answered (set_consumer_paused paused id c))
| AskPauseProducer paused id x : session_request (answered (set_producer_paused paused id x))
| AskParticipant id : session_request (answered (get_participant id))
| AskLayers id c preferred : session_request (answered (set_preferred_layers id c preferred))
| AskApply id c : session_request (answered (apply_layer_ceilings id c))
| AskCeiling id expected spatial : session_request (answered (set_bandwidth_ceiling_for_transport id expected spatial))
| AskCloseConsumer id c : session_request (answered (close_consumer id c))
| AskCloseProducer id x : session_request (answered (close_producer id x))
| AskLease id lease : session_request (answered (attach_viewer_lease id lease))
| AskRemove id : session_request (answered (remove_participant id))
| AskCloseAll : session_request (answered close_all_sessions).

Abbreviation session_config := (Process.config session_world session_lock worker_call worker_reply).

Definition sessions_started : session_world := Sessions ∅ ∅ ∅ ∅ ∅ ∅ ∅ ∅ ∅ 0.
Definition session_boot : session_config := Config sessions_started ∅ ∅.
Definition session_system : session_config -> session_config -> Prop := some_step outside session_request.

Abbreviation sessions_ok := (sessions_ok producer_cap consumer_cap).
Abbreviation keeps := (keeps producer_cap consumer_cap).
Abbreviation session_config_ok := (Process.config_ok (query := worker_call) (reply := worker_reply) sessions_ok protects evolves local idle unexcused).

Lemma keeps_answered {A} w (p : operation A) : keeps w p -> keeps w (answered p).
Proof. intros Hp. eapply triple_bind; [apply Hp|]. cbn. intros x w' L' _ ->. apply session_keeps_return. Qed.

Lemma session_request_keeps p w : session_request p -> keeps w p.
Proof.
  intros Hr. destruct Hr; apply keeps_answered.
  - apply keeps_create_send_transport.
  - apply keeps_create_recv_transport.
  - apply keeps_recv_replacement_replay.
  - apply keeps_replace_recv_transport.
  - apply keeps_is_current_recv_transport.
  - apply keeps_connect_transport.
  - apply keeps_restart_ice.
  - apply keeps_subscribe_bwe_events.
  - apply keeps_create_producer.
  - apply keeps_create_consumer.
  - apply keeps_set_consumer_paused.
  - apply keeps_set_producer_paused.
  - apply keeps_get_participant.
  - apply keeps_set_preferred_layers.
  - apply keeps_apply_layer_ceilings.
  - apply keeps_set_bandwidth_ceiling.
  - apply keeps_close_consumer.
  - apply keeps_close_producer.
  - apply keeps_attach_viewer_lease.
  - apply keeps_remove_participant.
  - apply keeps_close_all_sessions.
Qed.

Lemma session_request_ok p : session_request p -> forall t w h, (forall l, h !! l <> Some t) -> sessions_ok w ->
  wp sessions_ok protects evolves local idle unexcused t p (fun _ _ _ => True) w h.
Proof.
  intros Hr t w h Hno Hi. eapply wp_mono; [|apply (session_request_keeps p w Hr)]; [done|].
  intros l. split; [intros Hl; by destruct (Hno l)|set_solver].
Qed.

Lemma native_close_quiet x w : quiet w (native_close x w).
Proof.
  unfold native_close. destruct (is_closed w x); [by split|]. destruct (native_consumers w !! x) as [[? ? []]|]; split; cbn; done || set_solver.
Qed.

Lemma session_outside_ok w w' : sessions_ok w -> outside w w' ->
  sessions_ok w' /\ evolves w w' /\ local w w' /\ forall l, protects l w w'.
Proof.
  intros Hok Ho. assert (quiet w w' /\ natives_ok w') as [Hq Hn].
  { destruct Ho as [(x & Hx & ->)|(d & ->)].
    - split; [apply native_close_quiet|]. apply natives_close; [done|apply Hok].
    - split; [by split|]. eapply natives_same; [..|apply Hok]; done. }
  destruct (session_quiet_section producer_cap consumer_cap w w' Hok Hq Hn) as [S1 S2 S3 S4]. split_and!; [done..|]. intros l. apply S4. set_solver.
Qed.

Lemma sessions_started_ok : sessions_ok sessions_started.
Proof. by split. Qed.

Lemma session_reachable_ok c : rtc session_system session_boot c -> session_config_ok c.
Proof.
  intros Hsteps.
  destruct (steps_keep sessions_ok protects evolves local idle session_idle_stable _ _ unexcused outside session_request session_outside_ok
           session_request_ok session_boot c Hsteps) as [?|([] & ? & ? & _ & _ & [] & _)]; [|done].
  split; [apply sessions_started_ok|done|done|]. by intros [a|me] _.
Qed.

(** C26: a removed session leaves no media behind.  Whatever creations, replacements
    and removals overlap, a session's cell that is out of the map, and whose lock
    is free, has no transport, producer or consumer and forwards no estimates --
    unless the removal that took it out still runs and is about to close it. *)
Theorem removed_session_holds_no_media c a m :
  rtc session_system session_boot c ->
  cells (the_world c) !! a = Some m -> ~ registered_cell (the_world c) a -> held c !! Session a = None ->
  (vacant_media m /\ bwe_trace_handlers (the_world c) !! a = None)
  \/ exists me, closing (the_world c) !! a = Some me /\ is_Some (held c !! Closer me).
Proof.
  intros [Hinv _ _ Hidle]%session_reachable_ok Hm Hnr Hfree. destruct (Hidle _ Hfree m Hm) as [[Hr|[me Hme]]|Hv]; [done| |].
  - right. exists me. split; [done|]. destruct (held c !! Closer me) eqn:Hh; [by eauto|]. by destruct (Hidle _ Hh a).
  - left. split; [done|]. destruct (bwe_trace_handlers (the_world c) !! a) as [t|] eqn:Ht; [|done].
    destruct (so_handlers _ _ _ Hinv _ _ Ht) as (m' & Hm' & Hr). destruct Hv as (_ & Hv & _). congruence.
Qed.

(** C27: every session is within its limits and its receipts are true: at most the
    configured producers and consumers, layer state for its own consumers only,
    a transport recorded as connected or as a replacement is the current one, and
    the estimates forwarded for a session are those of its current receiver. *)
Theorem session_limits_and_receipts_hold c a m :
  rtc session_system session_boot c -> cells (the_world c) !! a = Some m ->
  (size (producers m) <= producer_cap)%nat /\ (size (consumers m) <= consumer_cap)%nat /\ dom (consumer_layers m) ⊆ consumers m
  /\ (forall t, send_connect_applied m = Some t -> send_transport m = Some t)
  /\ (forall t, recv_connect_applied m = Some t -> recv_transport m = Some t)
  /\ (forall old new, recv_replacement m = Some (old, new) -> recv_transport m = Some new /\ old <> new)
  /\ (forall t, bwe_trace_handlers (the_world c) !! a = Some t -> recv_transport m = Some t).
Proof.
  intros [Hinv _ _ _]%session_reachable_ok Hm. destruct (so_cells _ _ _ Hinv _ _ Hm) as [F1 F2 F3 F4 F5 F6 F7 F8 F9].
  split_and!; [done..|]. intros t (m' & Hm' & Ht)%(so_handlers _ _ _ Hinv). congruence.
Qed.

(** The consumer count of a worker is, modulo the width of the counter, the
    number of consumers counted on it that are still open: a consumer is counted
    once and uncounted once, whichever way it ends. *)
Theorem consumer_counter_is_exact c k :
  rtc session_system session_boot c ->
  counter_value (the_world c) k = (counted k (the_world c) mod USIZE_SIZE)%N
  /\ ((counted k (the_world c) < USIZE_SIZE)%N -> counter_value (the_world c) k = counted k (the_world c)).
Proof.
  intros [Hinv _ _ _]%session_reachable_ok. pose proof (nat_counts _ (so_natives _ _ _ Hinv) k) as Hc. split; [done|].
  intros Hlt. by rewrite Hc, N.mod_small.
Qed.

(** No step of a live session drops or swaps an open transport: the send
    transport stays, and the receive transport stays or is replaced by one whose
    receipt names it as the one replaced.  Only a removal empties a cell. *)
Theorem open_transports_are_kept c c' a m :
  rtc session_system session_boot c -> session_system c c' ->
  registered_cell (the_world c) a -> cells (the_world c) !! a = Some m ->
  exists m', cells (the_world c') !! a = Some m'
  /\ (forall t, send_transport m = Some t -> is_closed (the_world c) t = false -> send_transport m' = Some t)
  /\ (forall t, recv_transport m = Some t -> is_closed (the_world c) t = false ->
        recv_transport m' = Some t \/ exists t', recv_transport m' = Some t' /\ recv_replacement m' = Some (t, t')).
Proof.
  intros Hc%session_reachable_ok [who Hs] Hr Hm.
  destruct (step_relations sessions_ok protects evolves local idle _ _ _ unexcused outside session_request session_outside_ok who c c' Hs Hc) as [?|[_ Hl]]; [by destruct who|].
  destruct (Hl a m Hm) as (m' & Hm' & Hrecv & Hsend). exists m'. split; [done|]. split.
  - intros t Ht Ho. destruct (Hsend t Ht) as [?|[?|[_ ?]]]; [done|congruence|done].
  - intros t Ht Ho. destruct (Hrecv t Ht) as [?|[?|[?|[_ ?]]]]; [by left|congruence|by right|done].
Qed.
End system.

(** ** Layers and replacement *)

(** The smallest of a consumer's own top layer, the client's wish and the tier
    of the connection. *)
Definition spatial_ceilings (top : layers) (client : option layers) (tier : option N) : list N :=
  spatial_layer top :: option_list (spatial_layer <$> client) ++ option_list tier.

Lemma min_of_list (x : N) l : let y := foldr N.min x l in y ∈ x :: l /\ forall s, s ∈ x :: l -> (y <= s)%N.
Proof.
  induction l as [|z l [IH1 IH2]]; cbn; [split; [set_solver|]; intros s ->%list_elem_of_singleton; lia|]. split.
  - destruct (N.min_spec z (foldr N.min x l)) as [[_ ->]|[_ ->]]; set_solver.
  - intros s [->|[->|Hs]%elem_of_cons]%elem_of_cons; [specialize (IH2 x (list_elem_of_here _ _)); lia|lia|].
    specialize (IH2 s (list_elem_of_further _ _ _ Hs)). lia.
Qed.

(** A consumer's layers are the largest ones under every ceiling: the spatial
    layer is one of the ceilings and above none of them, and the temporal layer
    is the smaller of the top and the client's wish, or the top without a wish.
    Lifting the connection's tier thus restores the client's wish, and a wish
    never lifts the tier. *)
Theorem effective_layers_are_largest_allowed top client tier :
  let l := effective_layers top client tier in
  spatial_layer l ∈ spatial_ceilings top client tier
  /\ (forall s, s ∈ spatial_ceilings top client tier -> (spatial_layer l <= s)%N)
  /\ temporal_layer l = match temporal_layer top, client ≫= temporal_layer with
                        | Some limit, Some requested => Some (N.min limit requested)
                        | own, _ => own
                        end.
Proof.
  intros l. assert (spatial_layer l = foldr N.min (spatial_layer top) (option_list (spatial_layer <$> client) ++ option_list tier)) as ->.
  { unfold l. destruct client as [c|], tier as [b|]; cbn; lia. }
  destruct (min_of_list (spatial_layer top) (option_list (spatial_layer <$> client) ++ option_list tier)) as [M1 M2].
  split; [exact M1|]. split; [exact M2|]. unfold l, effective_layers.
  destruct client as [c|]; cbn; [|by destruct (temporal_layer top)]. destruct (temporal_layer c), (temporal_layer top); cbn; try done. f_equal. lia.
Qed.

(** A replacement is answered once and for all.  After the receiver [expected]
    was replaced by [t], the session has no consumers and no tier of the old
    receiver; a repeated request for [expected] is answered with [t] as long as
    [t] is open, a request that names [t] starts another replacement, and a
    request that names any other transport is refused. *)
Theorem receiver_replacement_is_replayed id a expected t lease retain traced w w' r :
  generation (media_at w a) = a -> expected <> t ->
  install_receiver id a expected t lease retain traced w = (w', Ok r) ->
  let m := media_at w' a in
  r = t /\ consumers m = ∅ /\ consumer_layers m = ∅ /\ bandwidth_spatial_ceiling m = None /\ recv_connect_applied m = None
  /\ bwe_trace_handlers w' !! a = (if traced then Some t else None)
  /\ (forall w2, is_closed w2 t = false -> replay_recv_replacement m expected w2 = Ok (Some t))
  /\ (forall w2, replay_recv_replacement m t w2 = Ok None)
  /\ (forall w2 other, other <> t -> other <> expected \/ is_closed w2 t = true ->
        replay_recv_replacement m other w2 = Err (InvalidState "Receive transport changed; replacement request is stale")).
Proof.
  intros Hg Hne Hi m. unfold install_receiver in Hi. destruct (_ || _); [done|]. injection Hi as Hw <-.
  assert (exists m0, m = m0 <| consumers := ∅ |> <| consumer_layers := ∅ |> <| bandwidth_spatial_ceiling := None |> <| recv_connect_applied := None |>
        <| recv_replacement := Some (expected, t) |> <| recv_transport := Some t |>) as [m0 ->].
  { unfold m. rewrite <-Hw. clear. unfold write_media. destruct traced; unfold media_at; cbn; rewrite lookup_insert_eq; cbn;
      match goal with |- exists _, ?x = _ => by exists x end. }
  split_and!; [done..| | | |].
  - rewrite <-Hw. destruct traced; cbn; rewrite Hg; [by rewrite lookup_insert_eq|by rewrite lookup_delete_eq].
  - intros w2 Ho. unfold replay_recv_replacement. cbn. destruct (N.eqb_spec t expected); [congruence|]. by rewrite Ho, bool_decide_true.
  - intros w2. unfold replay_recv_replacement. cbn. by rewrite N.eqb_refl.
  - intros w2 other Ho1 Ho2. unfold replay_recv_replacement. cbn. destruct (N.eqb_spec t other); [congruence|].
    destruct Ho2 as [Ho2|Ho2]; [|by rewrite Ho2]. rewrite (bool_decide_false (Some (expected, t) = Some (other, t))) by congruence. by rewrite andb_false_r.
Qed.

(** ** Executions *)

Definition ample : transport_config := TransportConfig [Listener true None] 100000 3000000 (Some 3000000%N) true false.
Definition obliging (t : N) (q : worker_call) : worker_reply q :=
  match q with
  | Consume _ _ _ => Some (ConsumerAnswer Video false (Some (3%N, 3%N)) None)
  | SetLayers _ l => Some (Some l)
  | RestartIce _ => Some 0%N
  | _ => true
  end.

Abbreviation sessions := (session_system ample 1000 10 100).
Definition receiving := run obliging (replicate 20 1%N) (arrive 1 (answered (create_recv_transport ample "ann" 1 1)) session_boot).
Definition watching := run obliging (replicate 20 2%N) (arrive 2 (answered (create_consumer 100 "ann" 5 OtherSource (Some 7%N))) receiving).
Definition replacing := run obliging (replicate 7 3%N) (arrive 3 (answered (replace_recv_transport ample "ann" 1 1 1 None true false)) watching).
(** A send transport is being created when the session is removed. *)
Definition overtaken :=
  run obliging (replicate 4 1%N ++ replicate 20 2%N ++ replicate 20 1%N ++ replicate 20 2%N)
    (arrive 2 (answered (remove_participant "bob")) (arrive 1 (answered (create_send_transport ample "bob" 1 1)) session_boot)).

Lemma watching_reachable : rtc sessions session_boot watching.
Proof.
  unfold watching, receiving. eapply rtc_trans; [|apply run_steps]. eapply rtc_trans; [|apply arrive_steps; [apply AskConsume|by vm_compute]].
  eapply rtc_trans; [|apply run_steps]. apply arrive_steps; [apply AskRecv|done].
Qed.
Lemma replacing_reachable : rtc sessions session_boot replacing.
Proof.
  unfold replacing. eapply rtc_trans; [|apply run_steps]. eapply rtc_trans; [apply watching_reachable|].
  apply arrive_steps; [apply AskReplace|by vm_compute].
Qed.
Lemma overtaken_reachable : rtc sessions session_boot overtaken.
Proof.
  unfold overtaken. eapply rtc_trans; [|apply run_steps]. eapply rtc_trans; [|apply arrive_steps; [apply AskRemove|by vm_compute]].
  apply arrive_steps; [apply AskSend|done].
Qed.

Lemma nobody_registered w a : participants w = ∅ -> ~ registered_cell w a.
Proof. intros He [id Hid]. by rewrite He in Hid. Qed.

Lemma removed_session_holds_no_media_witness :
  participants (the_world overtaken) = ∅ /\
  exists m, cells (the_world overtaken) !! 0%N = Some m
  /\ ((vacant_media m /\ bwe_trace_handlers (the_world overtaken) !! 0%N = None)
      \/ exists me, closing (the_world overtaken) !! 0%N = Some me /\ is_Some (held overtaken !! Closer me)).
Proof.
  split; [by vm_compute|]. exists (media_new 0). split; [by vm_compute|].
  apply (removed_session_holds_no_media ample 1000 10 100 overtaken 0 (media_new 0) overtaken_reachable); [by vm_compute| |by vm_compute].
  apply nobody_registered. by vm_compute.
Defined.

Lemma session_limits_and_receipts_hold_witness :
  is_Some (cells (the_world watching) !! 0%N) /\
  forall m, cells (the_world watching) !! 0%N = Some m -> (size (producers m) <= 10)%nat.
Proof.
  split; [eexists; by vm_compute|]. intros m Hm.
  exact (proj1 (session_limits_and_receipts_hold ample 1000 10 100 watching 0 m watching_reachable Hm)).
Defined.

Lemma consumer_counter_is_exact_witness :
  counted 7 (the_world watching) = 1%N /\ counter_value (the_world watching) 7 = counted 7 (the_world watching).
Proof.
  split; [by vm_compute|]. refine (proj2 (consumer_counter_is_exact ample 1000 10 100 watching 7 watching_reachable) _). by vm_compute.
Defined.

(** The step in which the receiver is replaced. *)
Lemma open_transports_are_kept_witness :
  exists m m', cells (the_world replacing) !! 0%N = Some m /\ cells (the_world (advance obliging replacing 3)) !! 0%N = Some m'
  /\ recv_transport m = Some 1%N
  /\ (recv_transport m' = Some 1%N \/ exists t', recv_transport m' = Some t' /\ recv_replacement m' = Some (1%N, t')).
Proof.
  destruct (cells (the_world replacing) !! 0%N) as [m|] eqn:Hm; [|by vm_compute in Hm].
  destruct (open_transports_are_kept ample 1000 10 100 replacing (advance obliging replacing 3) 0 m replacing_reachable) as (m' & Hm' & _ & Hr).
  - exists (Some 3%N). apply advance_step; by vm_compute.
  - exists "ann". by vm_compute.
  - exact Hm.
  - assert (recv_transport m = Some 1%N) as H1 by by vm_compute in Hm; injection Hm as <-.
    exists m, m'. split_and!; [done|done|done|]. apply Hr; [done|by vm_compute].
Defined.

Lemma receiver_replacement_is_replayed_witness :
  let w := the_world replacing in
  let w' := (install_receiver "ann" 0 1 3 None true false w).1 in
  install_receiver "ann" 0 1 3 None true false w = (w', Ok 3%N) /\ consumers (media_at w 0) = {[2%N]} /\ consumers (media_at w' 0) = ∅.
Proof.
  cbv zeta. split; [by vm_compute|]. split; [by vm_compute|].
  refine (proj1 (proj2 (receiver_replacement_is_replayed "ann" 0 1 3 None true false (the_world replacing) _ 3 _ _ _))); by vm_compute.
Defined.
