(* ===== verification/SavedModeration.v ===== *)
(** * Saved moderation ([src/src/room/moderation.rs], the SQL)

    The rows of sanctions, reports and moderation history as finite maps, with
    the statements of the code executed on them.  A transaction that fails
    leaves the rows as they were.  Rows are typed: column widths and rows this
    server could not have written are not modelled. *)

From S2P Require Import Prelude Refusal Net Roles Protocol Moderation Social ModerationOps RoomRequests.

Local Open Scope handler_scope.

(** ** Tables *)

Inductive saved_state := StateBanned | StateCamBanned | StateMuted.
#[export] Instance saved_state_eq_dec : EqDecision saved_state.
Proof. solve_decision. Defined.
(** [PunitiveKind::as_db_str]. *)
Definition as_db_str (kind : punitive_kind) : saved_state :=
  match kind with CamBanned => StateCamBanned | Muted => StateMuted end.

Record state_row := StateRow {
  state_room : string;
  state_user : option participant_id;
  state_of : saved_state;
  state_address : option ip_addr;
  state_reason : option text;
  state_expires : option timestamp;
  state_applied_by : participant_id;
  state_created : timestamp
}.
#[export] Instance eta_state_row : Eta state_row := fun r =>
  StateRow (state_room r) (state_user r) (state_of r) (state_address r) (state_reason r) (state_expires r)
    (state_applied_by r) (state_created r).

Record report_row := ReportRow {
  row_room : string;
  row_reporter : participant_id;
  row_reporter_name : text;
  row_target : participant_id;
  row_target_name : text;
  row_reason : text;
  row_status : report_status;
  row_created : timestamp;
  row_resolved_at : option timestamp;
  row_resolved_by : option participant_id
}.
#[export] Instance eta_report_row : Eta report_row := fun r =>
  ReportRow (row_room r) (row_reporter r) (row_reporter_name r) (row_target r) (row_target_name r) (row_reason r)
    (row_status r) (row_created r) (row_resolved_at r) (row_resolved_by r).

#[export] Instance eta_moderation_event : Eta moderation_event := fun e =>
  ModerationEvent (event_id e) (event_action e) (event_actor_id e) (event_actor_name e) (event_target_id e) (event_target_name e)
    (event_target_authenticated e) (event_reason e) (event_expires_at e) (event_report_id e) (event_created_at e) (event_target_ip e).
(** A row of [moderation_events], keyed by the event's identifier. *)
Record event_row := EventRow { event_room : string; event_of : moderation_event }.

Record database := Rows {
  saved_rooms : gset string;
  users : gmap participant_id text;
  room_states : gmap N state_row;
  room_reports : gmap N report_row;
  moderation_events : gmap N event_row;
  (** When an invitation, by its hash, expires. *)
  invites : gmap N timestamp;
  (** [gen_random_uuid]. *)
  next_row : N
}.
#[export] Instance eta_database : Eta database := fun d =>
  Rows (saved_rooms d) (users d) (room_states d) (room_reports d) (moderation_events d) (invites d) (next_row d).

Abbreviation statement A := (handler room_error database A).

Definition UNIQUE_VIOLATION : room_error := Database (SqlDatabase (Some "23505")).
Definition FOREIGN_KEY_VIOLATION : room_error := Database (SqlDatabase (Some "23503")).

(** [ORDER BY key, id], the key and the identifier each ascending or not. *)
Definition before (key_down id_down : bool) (x y : N * N) : Prop :=
  (if key_down then y.1 < x.1 else x.1 < y.1)%N \/ (x.1 = y.1 /\ (if id_down then y.2 <= x.2 else x.2 <= y.2)%N).
#[export] Instance before_dec a b x y : Decision (before a b x y).
Proof. unfold before. destruct a, b; apply _. Defined.
Definition ordered {R} (key_down id_down : bool) (key : R -> N) (rows : gmap N R) : list (N * R) :=
  merge_sort (fun x y => before key_down id_down (key x.2, x.1) (key y.2, y.1)) (map_to_list rows).
(** [LIMIT limit OFFSET offset]. *)
Definition page {R} (offset limit : nat) (rows : list R) : list R := take limit (drop offset rows).

(** ** History *)

Definition MAX_MODERATION_EVENTS : nat := 1000.

Definition event_at (r : event_row) : timestamp := event_created_at (event_of r).

(** The entries of the room past its newest [cap]. *)
Definition overdue (room_id : string) (cap : nat) (d : database) : list N :=
  (drop cap (ordered true true event_at (filter (fun x : N * event_row => event_room x.2 = room_id) (moderation_events d)))).*1.

(** The report the event answers, checked and closed. *)
Definition answer_report (room_id : string) (event : moderation_event) (report_id : N) (now : timestamp) : statement unit :=
  let! d := hget in
  match room_reports d !! report_id with
  | Some r =>
      if bool_decide (row_room r = room_id)
      then
        match event_target_id event with
        | TargetParticipant target =>
            if bool_decide (target = row_target r)
            then hmodify (fun d =>
                   if bool_decide (row_status r = ReportOpen)
                   then d <| room_reports ::= <[report_id := r <| row_status := ReportResolved |> <| row_resolved_at := Some now |>
                                                              <| row_resolved_by := Some (event_actor_id event) |>]> |>
                   else d)
            else bail (Refused (Invalid "Open report does not match this participant"))
        | TargetBan _ => bail (Refused (Invalid "Open report does not match this participant"))
        end
      else bail (Database RowNotFound)
  | None => bail (Database RowNotFound)
  end.

Definition insert_event (room_id : string) (event : moderation_event) : statement unit :=
  let! d := hget in
  ensure (bool_decide (moderation_events d !! event_id event = None)) UNIQUE_VIOLATION ;;
  ensure (bool_decide (room_id ∈ saved_rooms d)) FOREIGN_KEY_VIOLATION ;;
  hmodify (fun d => d <| moderation_events ::= <[event_id event := EventRow room_id event]> |>).

Definition trim_events (room_id : string) (cap : nat) (d : database) : database :=
  d <| moderation_events ::= fun rows => foldr delete rows (overdue room_id cap d) |>.

Definition record_event (room_id : string) (event : moderation_event) (cap : nat) (now : timestamp) : statement unit :=
  match event_report_id event with
  | Some report_id => answer_report room_id event report_id now
  | None => hret tt
  end ;;
  insert_event room_id event ;;
  hmodify (trim_events room_id cap).

Definition persist_event (room_id : string) (event : moderation_event) (now : timestamp) : statement unit :=
  transaction (record_event room_id event MAX_MODERATION_EVENTS now).

(** ** Sanctions *)

Record sanction := Sanction { sanction_of : sanction_identity; sanction_reason : option text; sanction_by : participant_id }.

(** [SanctionIdentity::user_id] and [address]. *)
Definition identity_user (i : sanction_identity) : option participant_id :=
  match i with SanctionUser id _ => Some id | SanctionGuest _ => None end.
Definition identity_address (i : sanction_identity) : option ip_addr :=
  match i with SanctionUser _ ip => ip | SanctionGuest ip => Some ip end.

(** The row a unique index finds. *)
Definition find_row (P : state_row -> bool) (d : database) : option N :=
  fst <$> head (map_to_list (filter (fun x : N * state_row => P x.2 = true) (room_states d))).

Definition user_row (room_id : string) (user : participant_id) (state : saved_state) (r : state_row) : bool :=
  bool_decide (state_room r = room_id) && bool_decide (state_user r = Some user) && bool_decide (state_of r = state).
Definition guest_row (room_id : string) (address : ip_addr) (state : saved_state) (r : state_row) : bool :=
  bool_decide (state_room r = room_id) && bool_decide (state_user r = None) && bool_decide (state_address r = Some address)
  && bool_decide (state_of r = state).

(** The rows a row refers to exist. *)
Definition references (d : database) (r : state_row) : bool :=
  bool_decide (state_room r ∈ saved_rooms d) && bool_decide (is_Some (users d !! state_applied_by r))
  && match state_user r with Some user => bool_decide (is_Some (users d !! user)) | None => true end.

(** [INSERT .. ON CONFLICT (..) DO UPDATE]. *)
Definition upsert (conflict : state_row -> bool) (row : state_row) (change : state_row -> state_row) : statement unit :=
  let! d := hget in
  ensure (references d row) FOREIGN_KEY_VIOLATION ;;
  match find_row conflict d with
  | Some id => hmodify (fun d => d <| room_states ::= alter change id |>)
  | None => hmodify (fun d => d <| room_states ::= <[next_row d := row]> |> <| next_row ::= N.succ |>)
  end.

Definition delete_rows (P : state_row -> bool) (d : database) : database :=
  d <| room_states ::= filter (fun x : N * state_row => P x.2 = false) |>.

Definition save_state (room_id : string) (s : sanction) (state : saved_state) (expires : option timestamp) (now : timestamp)
  : statement unit :=
  let i := sanction_of s in
  let row := StateRow room_id (identity_user i) state (identity_address i) (sanction_reason s) expires (sanction_by s) now in
  let renew r := r <| state_reason := sanction_reason s |> <| state_expires := expires |> <| state_applied_by := sanction_by s |> in
  match i with
  | SanctionUser user ip => upsert (user_row room_id user state) row (fun r => renew r <| state_address := ip |>)
  | SanctionGuest ip => upsert (guest_row room_id ip state) row renew
  end.

Definition write_punitive_state (room_id : string) (s : sanction) (kind : punitive_kind) (enabled : bool) (now : timestamp)
  : statement unit :=
  if enabled then save_state room_id s (as_db_str kind) None now
  else hmodify (delete_rows match sanction_of s with
                            | SanctionUser user _ => user_row room_id user (as_db_str kind)
                            | SanctionGuest ip => guest_row room_id ip (as_db_str kind)
                            end).

Definition set_punitive_state (room_id : string) (s : sanction) (kind : punitive_kind) (enabled : bool) (event : moderation_event)
  (now : timestamp) : statement unit :=
  transaction (write_punitive_state room_id s kind enabled now ;; record_event room_id event MAX_MODERATION_EVENTS now).

Definition write_ban (room_id : string) (s : sanction) (expires : option timestamp) (now : timestamp) : statement unit :=
  save_state room_id s StateBanned expires now.

Definition persist_ban (room_id : string) (s : sanction) (expires : option timestamp) (event : moderation_event) (now : timestamp)
  : statement unit :=
  transaction (write_ban room_id s expires now ;; record_event room_id event MAX_MODERATION_EVENTS now).

(** *** Reading *)

Definition live_row (now : timestamp) (r : state_row) : bool :=
  match state_expires r with None => true | Some e => (now <? e)%N end.

(** The address as the lookups compare it. *)
Definition lookup_address (ip : option ip_addr) (authenticated : bool) : option ip_addr :=
  if authenticated then ip else cohort <$> ip.

Definition binds (room_id : string) (state : saved_state) (now : timestamp) (user : option participant_id) (ip : option ip_addr)
  (authenticated : bool) (r : state_row) : bool :=
  bool_decide (state_room r = room_id) && bool_decide (state_of r = state) && live_row now r
  && (match state_user r, user with Some u, Some user => bool_decide (u = user) | _, _ => false end
      || match ip with
         | Some ip => negb authenticated && bool_decide (state_user r = None) && bool_decide (state_address r = Some ip)
         | None => false
         end).

(** [EXISTS (SELECT 1 FROM room_states ..)]. *)
Definition exists_state (room_id : string) (state : saved_state) (now : timestamp) (user : option participant_id) (ip : option ip_addr)
  (authenticated : bool) (d : database) : bool :=
  let ip := lookup_address ip authenticated in
  bool_decide (map_Exists (fun _ r => binds room_id state now user ip authenticated r = true) (room_states d)).

Definition is_banned (room_id : string) (user : option participant_id) (ip : option ip_addr) (authenticated : bool)
  (now : timestamp) (d : database) : bool :=
  exists_state room_id StateBanned now user ip authenticated d.

Definition load_punitive_state (room_id : string) (user : option participant_id) (ip : option ip_addr) (authenticated : bool)
  (now : timestamp) (d : database) : punitive_state :=
  PunitiveState (exists_state room_id StateCamBanned now user ip authenticated d)
                (exists_state room_id StateMuted now user ip authenticated d).

(** *** Lifting *)

Definition REMOVED_ACCOUNT : text := text_of "Removed account".
Definition GUEST : text := text_of "Guest".

Definition lift_user_ban (room_id : string) (user actor : participant_id) (actor_name : text) (event_id : N) (now : timestamp)
  : statement bool :=
  let! d := hget in
  match find_row (user_row room_id user StateBanned) d with
  | None => hret false
  | Some _ =>
      hmodify (delete_rows (user_row room_id user StateBanned)) ;;
      let event := event_new event_id now ActUnban actor actor_name (TargetParticipant user)
                     (default REMOVED_ACCOUNT (users d !! user)) true None None None None in
      record_event room_id event MAX_MODERATION_EVENTS now ;;
      hret true
  end.
Definition remove_user_ban (room_id : string) (user actor : participant_id) (actor_name : text) (event_id : N) (now : timestamp)
  : statement bool :=
  transaction (lift_user_ban room_id user actor actor_name event_id now).

Record removed_ban := RemovedBan { removed_user : option participant_id; removed_address : option ip_addr }.

(** [uuid_text]: an identifier as text. *)
Definition remove_ban (uuid_text : N -> string) (room_id : string) (ban_id : N) (actor : participant_id) (actor_name : text)
  (event_id : N) (now : timestamp) : statement (option removed_ban) :=
  let! d := hget in
  match room_states d !! ban_id with
  | Some r =>
      if bool_decide (state_room r = room_id) && bool_decide (state_of r = StateBanned)
      then
        hmodify (fun d => d <| room_states ::= delete ban_id |>) ;;
        let target := match state_user r with Some user => TargetParticipant user | None => TargetBan (uuid_text ban_id) end in
        let name := match state_user r with
                    | Some user => default REMOVED_ACCOUNT (users d !! user)
                    | None => GUEST
                    end in
        let event := event_new event_id now ActUnban actor actor_name target name (bool_decide (is_Some (state_user r))) (state_address r)
                       None None None in
        record_event room_id event MAX_MODERATION_EVENTS now ;;
        hret (Some (RemovedBan (state_user r) (state_address r)))
      else hret None
  | None => hret None
  end.

(** ** Reports *)

(** Deleted reports; [ON DELETE SET NULL] in the history. *)
Definition delete_reports (ids : list N) (d : database) : database :=
  d <| room_reports ::= fun rows => foldr delete rows ids |>
    <| moderation_events ::= fmap (fun r : event_row =>
         match event_report_id (event_of r) with
         | Some id => if bool_decide (id ∈ ids) then EventRow (event_room r) ((event_of r) <| event_report_id := None |>) else r
         | None => r
         end) |>.

Definition resolve_report (room_id : string) (report_id : N) (resolution : report_resolution) (actor : participant_id) (actor_name : text)
  (event_id : N) (now : timestamp) : statement bool :=
  let! d := hget in
  match room_reports d !! report_id with
  | Some r =>
      if bool_decide (row_room r = room_id) && bool_decide (row_status r = ReportOpen)
      then
        hmodify (fun d => d <| room_reports ::= <[report_id := r <| row_status := resolution_status resolution |>
                                                                <| row_resolved_at := Some now |> <| row_resolved_by := Some actor |>]> |>) ;;
        let event := event_new event_id now (resolution_action resolution) actor actor_name (TargetParticipant (row_target r))
                       (row_target_name r) (bool_decide (is_Some (users d !! row_target r))) None None None (Some report_id) in
        record_event room_id event MAX_MODERATION_EVENTS now ;;
        hret true
      else hret false
  | None => hret false
  end.

Definition reports_in (room_id : string) (d : database) : gmap N report_row :=
  filter (fun x : N * report_row => row_room x.2 = room_id) (room_reports d).
(** The oldest closed report of the room. *)
Definition oldest_closed (room_id : string) (d : database) : list N :=
  (take 1 (ordered false false row_created (filter (fun x : N * report_row => row_status x.2 <> ReportOpen) (reports_in room_id d)))).*1.

Definition insert_report (room_id : string) (report_id : N) (r : report_entry) (now : timestamp) : statement unit :=
  let! d := hget in
  ensure (bool_decide (room_reports d !! report_id = None)) UNIQUE_VIOLATION ;;
  ensure (bool_decide (room_id ∈ saved_rooms d)) FOREIGN_KEY_VIOLATION ;;
  hmodify (fun d => d <| room_reports ::= <[report_id := ReportRow room_id (reporter_id r) (reporter_name r) (report_target_id r)
                                                           (report_target_name r) (report_reason r) ReportOpen now None None]> |>).

(** [report_id] is the entry's identifier, parsed. *)
Definition file_report (room_id : string) (report_id : N) (r : report_entry) (cap : nat) (now : timestamp) : statement bool :=
  let! d := hget in
  if (cap <=? size (reports_in room_id d))%nat
  then
    match oldest_closed room_id d with
    | [] => hret false
    | ids => hmodify (delete_reports ids) ;; insert_report room_id report_id r now ;; hret true
    end
  else insert_report room_id report_id r now ;; hret true.

(** ** Listing *)

Definition list_bans (uuid_text : N -> string) (room_id : string) (offset limit : nat) (now : timestamp) (d : database) : list ban_entry :=
  (fun x => BanEntry (uuid_text x.1) (default GUEST (state_user x.2 ≫= fun user => users d !! user))
              (bool_decide (is_Some (state_user x.2))) (state_reason x.2) (state_expires x.2))
    <$> page offset limit (ordered true false state_created
          (filter (fun x : N * state_row => state_room x.2 = room_id /\ state_of x.2 = StateBanned /\ live_row now x.2 = true) (room_states d))).

(** The latest entry that answered a report. *)
Definition outcome_of (report_id : N) (d : database) : option report_outcome :=
  (fun x => ReportOutcome (action_name (event_action (event_of x.2))) (event_at x.2))
    <$> head (ordered true false event_at
          (filter (fun x : N * event_row => event_report_id (event_of x.2) = Some report_id) (moderation_events d))).

Definition list_reports (uuid_text : N -> string) (room_id : string) (offset limit : nat) (d : database) : list report_entry :=
  (fun x => ReportEntry (uuid_text x.1) (row_reporter x.2) (row_reporter_name x.2) (row_target x.2) (row_target_name x.2)
              (row_reason x.2) (row_status x.2) (row_created x.2) (row_resolved_at x.2) (outcome_of x.1 d))
    <$> page offset limit (ordered true false row_created (reports_in room_id d)).

Definition list_events (room_id : string) (offset limit : nat) (d : database) : list moderation_event :=
  (fun x => event_of x.2)
    <$> page offset limit (ordered true false event_at
          (filter (fun x : N * event_row => event_room x.2 = room_id) (moderation_events d))).

(** ** Retention *)

Record retention_config := RetentionConfig { address_days : N; history_days : N }.
Definition DEFAULT_ADDRESS_RETENTION_DAYS : N := 30.
Definition DEFAULT_HISTORY_RETENTION_DAYS : N := 365.
Definition MAX_RETENTION_DAYS : N := 3650.
Definition RETENTION_BATCH_SIZE : nat := 1000.
Definition RETENTION_MAX_BATCHES : nat := 16.
Definition INVITE_RECEIPT_RETENTION_DAYS : N := 7.

(** Values as the environment gives them: absent, or a number that parses. *)
Definition parse_days (name : string) (value : option (option N)) (default : N) : result string N :=
  match value with
  | None => Ok default
  | Some (Some days) =>
      if (1 <=? days)%N && (days <=? MAX_RETENTION_DAYS)%N then Ok days
      else Err (name ++ " must be a whole number of days from 1 to 3650")%string
  | Some None => Err (name ++ " must be a whole number of days from 1 to 3650")%string
  end.
Definition retention_parse (address history : option (option N)) : result string retention_config :=
  result_bind (parse_days "MODERATION_ADDRESS_RETENTION_DAYS" address DEFAULT_ADDRESS_RETENTION_DAYS) (fun address_days =>
  result_bind (parse_days "MODERATION_HISTORY_RETENTION_DAYS" history DEFAULT_HISTORY_RETENTION_DAYS) (fun history_days =>
  if (address_days <=? history_days)%N then Ok (RetentionConfig address_days history_days)
  else Err "MODERATION_ADDRESS_RETENTION_DAYS must not exceed MODERATION_HISTORY_RETENTION_DAYS")).

Record retention_report := RetentionReport {
  addresses_cleared : nat; sanctions_removed : nat; entries_removed : nat; reports_removed : nat; invites_removed : nat }.
Definition report_counts (r : retention_report) : list nat :=
  [addresses_cleared r; sanctions_removed r; entries_removed r; reports_removed r; invites_removed r].

(** [at < now() - make_interval(days => days)], in seconds. *)
Definition older (days : N) (now at_ : timestamp) : bool := (at_ + days * 86400 <? now)%N.

(** The first [batch] rows that are due, oldest first, without those another
    session has locked. *)
Definition due {R} (locked : gset N) (batch : nat) (key : R -> option timestamp) (is_due : R -> timestamp -> bool) (rows : gmap N R) : list N :=
  (take batch (ordered false false (fun r => default 0%N (key r)) (filter (fun x : N * R =>
     x.1 ∉ locked /\ match key x.2 with Some at_ => is_due x.2 at_ | None => false end = true) rows))).*1.

Definition clear_address (r : event_row) : event_row := EventRow (event_room r) ((event_of r) <| event_target_ip := None |>).

Definition due_addresses (locked : gset N) (batch : nat) (c : retention_config) (now : timestamp) (d : database) : list N :=
  due locked batch (fun r => Some (event_at r))
    (fun r at_ => bool_decide (is_Some (event_target_ip (event_of r))) && older (address_days c) now at_) (moderation_events d).
Definition due_sanctions (locked : gset N) (batch : nat) (c : retention_config) (now : timestamp) (d : database) : list N :=
  due locked batch state_expires (fun _ at_ => older (history_days c) now at_) (room_states d).
Definition due_entries (locked : gset N) (batch : nat) (c : retention_config) (now : timestamp) (d : database) : list N :=
  due locked batch (fun r => Some (event_at r)) (fun _ at_ => older (history_days c) now at_) (moderation_events d).
Definition due_reports (locked : gset N) (batch : nat) (c : retention_config) (now : timestamp) (d : database) : list N :=
  due locked batch row_resolved_at
    (fun r at_ => bool_decide (row_status r <> ReportOpen) && older (history_days c) now at_) (room_reports d).
Definition due_invites (locked : gset N) (batch : nat) (now : timestamp) (d : database) : list N :=
  due locked batch Some (fun _ at_ => older INVITE_RECEIPT_RETENTION_DAYS now at_) (invites d).

(** The statements of a batch, each with the rows it counts. *)
Definition clear_addresses (locked : gset N) (batch : nat) (c : retention_config) (now : timestamp) (d : database) : database * nat :=
  let addresses := due_addresses locked batch c now d in
  (d <| moderation_events ::= fun rows => foldr (alter clear_address) rows addresses |>, length addresses).
Definition remove_sanctions (locked : gset N) (batch : nat) (c : retention_config) (now : timestamp) (d : database) : database * nat :=
  let sanctions := due_sanctions locked batch c now d in
  (d <| room_states ::= fun rows => foldr delete rows sanctions |>, length sanctions).
Definition remove_entries (locked : gset N) (batch : nat) (c : retention_config) (now : timestamp) (d : database) : database * nat :=
  let entries := due_entries locked batch c now d in
  (d <| moderation_events ::= fun rows => foldr delete rows entries |>, length entries).
Definition remove_reports (locked : gset N) (batch : nat) (c : retention_config) (now : timestamp) (d : database) : database * nat :=
  let reports := due_reports locked batch c now d in (delete_reports reports d, length reports).
Definition remove_invites (locked : gset N) (batch : nat) (now : timestamp) (d : database) : database * nat :=
  let codes := due_invites locked batch now d in
  (d <| invites ::= fun rows => foldr delete rows codes |>, length codes).

(** The outside of a batch: for each statement the rows other sessions have
    locked and the time, and the statement that fails, if one does. *)
Record batch_run := BatchRun { locked : nat -> gset N; clock : nat -> timestamp; failing : option (nat * sqlx_error) }.

Definition run_statement (b : batch_run) (k : nat) (f : gset N -> timestamp -> database -> database * nat) : statement nat := fun d =>
  match failing b with
  | Some (k', e) => if (k' =? k)%nat then (d, Err (Database e)) else let '(d', n) := f (locked b k) (clock b k) d in (d', Ok n)
  | None => let '(d', n) := f (locked b k) (clock b k) d in (d', Ok n)
  end.

Definition retire_old_batch (b : batch_run) (batch : nat) (c : retention_config) : statement retention_report :=
  let! addresses := run_statement b 0 (fun locked now => clear_addresses locked batch c now) in
  let! sanctions := run_statement b 1 (fun locked now => remove_sanctions locked batch c now) in
  let! entries := run_statement b 2 (fun locked now => remove_entries locked batch c now) in
  let! reports := run_statement b 3 (fun locked now => remove_reports locked batch c now) in
  let! codes := run_statement b 4 (fun locked now => remove_invites locked batch now) in
  hret (RetentionReport addresses sanctions entries reports codes).

Definition add_report (t b : retention_report) : retention_report :=
  RetentionReport (addresses_cleared t + addresses_cleared b) (sanctions_removed t + sanctions_removed b)
    (entries_removed t + entries_removed b) (reports_removed t + reports_removed b) (invites_removed t + invites_removed b).

Fixpoint sweep_from (batch : nat) (c : retention_config) (batches : list batch_run) (total : retention_report) : statement retention_report :=
  match batches with
  | [] => hret total
  | b :: batches =>
      let! report := retire_old_batch b batch c in
      let total := add_report total report in
      if forallb (fun rows => rows <? batch)%nat (report_counts report) then hret total
      else sweep_from batch c batches total
  end.
Definition retention_sweep (c : retention_config) (batches : nat -> batch_run) : statement retention_report :=
  sweep_from RETENTION_BATCH_SIZE c (batches <$> seq 0 RETENTION_MAX_BATCHES) (RetentionReport 0 0 0 0 0).
