(* ===== verification/SavedSanctions.v ===== *)
(** * What saved moderation promises

    The sanction rows implement a table from rooms, kinds and identities to an
    expiry; the lookups read it for the identity of whoever joins; history and
    reports stay within their limits; retention removes only what is over. *)

From S2P Require Import Prelude Refusal Net Roles Protocol Moderation Social ModerationOps RoomRequests SavedModeration.

Local Open Scope handler_scope.

#[export] Instance saved_state_countable : Countable saved_state.
Proof.
  refine (inj_countable' (fun s => match s with StateBanned => 0 | StateCamBanned => 1 | StateMuted => 2 end)
            (fun n => match n with 0 => StateBanned | 1 => StateCamBanned | _ => StateMuted end) _). by intros [].
Defined.

(** ** The table *)

(** An account, or a guest's address cohort. *)
Abbreviation identity := (participant_id + ip_addr)%type.
Abbreviation sanction_table := (gmap (string * saved_state * identity) (option timestamp)).

Definition identity_key (i : sanction_identity) : identity :=
  match i with SanctionUser user _ => inl user | SanctionGuest ip => inr ip end.
Definition row_key (r : state_row) : option identity :=
  match state_user r with Some user => Some (inl user) | None => inr <$> state_address r end.
Definition names (k : string * saved_state * identity) (r : state_row) : Prop :=
  state_room r = k.1.1 /\ state_of r = k.1.2 /\ row_key r = Some k.2.
#[export] Instance names_dec k r : Decision (names k r).
Proof. unfold names. apply _. Defined.

Record states_ok (d : database) : Prop := {
  st_keyed : forall id r, room_states d !! id = Some r -> is_Some (row_key r);
  st_once : forall id id' r r' k, room_states d !! id = Some r -> room_states d !! id' = Some r' -> names k r -> names k r' -> id = id';
  st_issued : forall id r, room_states d !! id = Some r -> (id < next_row d)%N
}.

Record implements (d : database) (s : sanction_table) : Prop := {
  im_ok : states_ok d;
  im_rows : forall k e, s !! k = Some e <-> exists id r, room_states d !! id = Some r /\ names k r /\ state_expires r = e
}.

(** ** Finding rows *)

Lemma find_row_some P d id : find_row P d = Some id -> exists r, room_states d !! id = Some r /\ P r = true.
Proof.
  unfold find_row. intros ([id' r] & Hh & ->)%fmap_Some. apply head_Some_elem_of in Hh. apply elem_of_map_to_list in Hh.
  apply map_lookup_filter_Some in Hh as [Hr HP]. eauto.
Qed.
Lemma find_row_none P d : find_row P d = None -> forall id r, room_states d !! id = Some r -> P r = false.
Proof.
  unfold find_row. intros Hn%fmap_None id r Hr. apply head_None in Hn. apply map_to_list_empty_iff in Hn.
  destruct (P r) eqn:HP; [|done].
  assert (filter (fun x : N * state_row => P x.2 = true) (room_states d) !! id = Some r) as Hf by by apply map_lookup_filter_Some.
  by rewrite Hn in Hf.
Qed.

Lemma user_row_names room_id user state r : user_row room_id user state r = true <-> names (room_id, state, inl user) r.
Proof.
  unfold user_row, names, row_key. cbn. rewrite !andb_true_iff, !bool_decide_eq_true. split.
  - intros [[-> ->] ->]. done.
  - intros (-> & -> & Hk). destruct (state_user r); [by injection Hk as ->|]. by destruct (state_address r).
Qed.
Lemma guest_row_names room_id ip state r : guest_row room_id ip state r = true <-> names (room_id, state, inr ip) r.
Proof.
  unfold guest_row, names, row_key. cbn. rewrite !andb_true_iff, !bool_decide_eq_true. split.
  - intros [[[-> ->] ->] ->]. done.
  - intros (-> & -> & Hk). destruct (state_user r); [done|]. destruct (state_address r); [|done]. cbn in Hk. by injection Hk as ->.
Qed.

Lemma names_functional k k' r : names k r -> names k' r -> k = k'.
Proof. destruct k as [[a b] c], k' as [[a' b'] c']. unfold names. cbn. intros (<- & <- & H1) (<- & <- & H2). congruence. Qed.

(** ** Writing *)

Lemma implements_insert d s k row :
  implements d s -> (forall id r, room_states d !! id = Some r -> ~ names k r) -> names k row ->
  implements (d <| room_states ::= <[next_row d := row]> |> <| next_row ::= N.succ |>) (<[k := state_expires row]> s).
Proof.
  intros [[K1 K2 K3] Hr] Hnew Hrow.
  assert (room_states d !! next_row d = None) as Hnone.
  { destruct (room_states d !! next_row d) as [r|] eqn:E; [|done]. apply K3 in E. lia. }
  split; [split|]; cbn.
  - intros id r [[_ <-]|[_ Hid]]%lookup_insert_Some; [by destruct Hrow as (_ & _ & ->)|by eapply K1].
  - intros id id' r r' k' [[<- <-]|[_ H1]]%lookup_insert_Some [[<- <-]|[_ H2]]%lookup_insert_Some N1 N2; [done|..|by eapply K2].
    + rewrite (names_functional _ _ _ N1 Hrow) in N2. by destruct (Hnew _ _ H2).
    + rewrite (names_functional _ _ _ N2 Hrow) in N1. by destruct (Hnew _ _ H1).
  - intros id r [[<- _]|[_ Hid%K3]]%lookup_insert_Some; lia.
  - intros k' e. rewrite lookup_insert_Some, Hr. split.
    + intros [[<- <-]|[Hne (id & r & Hid & Hk)]]; [exists (next_row d), row; by rewrite lookup_insert_eq|].
      exists id, r. rewrite lookup_insert_ne by congruence. done.
    + intros (id & r & [[_ <-]|[_ Hid]]%lookup_insert_Some & Hk & He).
      * left. rewrite (names_functional _ _ _ Hk Hrow). done.
      * right. split; [|by eauto]. intros <-. by destruct (Hnew _ _ Hid).
Qed.

Lemma implements_alter d s k id r f :
  implements d s -> room_states d !! id = Some r -> names k r -> names k (f r) ->
  implements (d <| room_states ::= alter f id |>) (<[k := state_expires (f r)]> s).
Proof.
  intros [[K1 K2 K3] Hr] Hid Hk Hf.
  assert (forall id' r', alter f id (room_states d) !! id' = Some r' ->
            exists r0, room_states d !! id' = Some r0 /\ (forall k', names k' r' <-> names k' r0)
                       /\ (id' = id /\ r' = f r \/ id' <> id /\ r' = r0)) as Halt.
  { intros id' r' [[<- (r0 & H0 & ->)]|[Hne H0]]%lookup_alter_Some.
    - assert (r0 = r) as -> by congruence. exists r. split; [done|]. split; [|by left]. intros k'. split; intros Hk'.
      + by rewrite (names_functional _ _ _ Hk' Hf).
      + by rewrite (names_functional _ _ _ Hk' Hk).
    - exists r'. split; [done|]. split; [done|by right]. }
  split; [split|]; cbn.
  - intros id' r' (r0 & H0 & _ & [[-> ->]|[_ ->]])%Halt; [by destruct Hf as (_ & _ & ->)|by eapply K1].
  - intros id1 id2 r1 r2 k' (q1 & H1 & E1 & _)%Halt (q2 & H2 & E2 & _)%Halt N1%E1 N2%E2. by eapply K2.
  - intros id' r' (r0 & H0 & _)%Halt. by eapply K3.
  - intros k' e. rewrite lookup_insert_Some, Hr. split.
    + intros [[<- <-]|[Hne (id' & r' & Hid' & Hk' & He)]].
      * exists id, (f r). by rewrite lookup_alter_eq, Hid.
      * exists id', r'. rewrite lookup_alter_ne; [done|]. intros <-. assert (r' = r) as -> by congruence. by destruct Hne, (names_functional _ _ _ Hk Hk').
    + intros (id' & r' & (r0 & H0 & E0 & [[-> ->]|[Hne ->]])%Halt & Hk' & He).
      * left. by rewrite (names_functional _ _ _ Hk' Hf).
      * right. split; [|by eauto]. intros <-. destruct Hne. by eapply K2.
Qed.

(** Deleting rows, whatever the keys. *)
Lemma implements_delete d s (keep : N -> state_row -> Prop) rows' s' :
  implements d s ->
  (forall id r, rows' !! id = Some r <-> room_states d !! id = Some r /\ keep id r) ->
  (forall k e, s' !! k = Some e <-> s !! k = Some e /\ forall id r, room_states d !! id = Some r -> names k r -> keep id r) ->
  implements (d <| room_states := rows' |>) s'.
Proof.
  intros [[K1 K2 K3] Hr] Hrows Hs. split; [split|]; cbn.
  - intros id r [Hid _]%Hrows. by eapply K1.
  - intros id id' r r' k [H1 _]%Hrows [H2 _]%Hrows. by eapply K2.
  - intros id r [Hid _]%Hrows. by eapply K3.
  - intros k e. rewrite Hs, Hr. setoid_rewrite Hrows. split.
    + intros [(id & r & Hid & Hk & He) Hkeep]. exists id, r. eauto.
    + intros (id & r & [Hid Hkeep] & Hk & He). split; [by eauto|]. intros id' r' Hid' Hk'.
      assert (id' = id) as -> by by eapply K2. congruence.
Qed.

(** ** The operations *)

Lemma implements_same d d' s : room_states d' = room_states d -> next_row d' = next_row d -> implements d s -> implements d' s.
Proof. intros E1 E2 [[K1 K2 K3] Hr]. split; [split|]; rewrite ?E1, ?E2; done. Qed.

Lemma upsert_implements d s conflict row change k d' :
  implements d s -> (forall r, conflict r = true <-> names k r) -> names k row ->
  (forall r, names k r -> names k (change r) /\ state_expires (change r) = state_expires row) ->
  upsert conflict row change d = (d', Ok tt) ->
  implements d' (<[k := state_expires row]> s).
Proof.
  intros Him Hc Hrow Hch. unfold upsert, hbind, hget, ensure, hmodify. destruct (references d row); [cbn|done].
  destruct (find_row conflict d) as [id|] eqn:Hf; intros [= <-].
  - destruct (find_row_some _ _ _ Hf) as (r & Hid & Hcr%Hc). destruct (Hch r Hcr) as [Hn <-]. by apply implements_alter.
  - apply implements_insert; [done| |done]. intros id r Hid Hk%Hc. rewrite (find_row_none _ _ Hf id r Hid) in Hk. done.
Qed.

Lemma save_state_implements d s room_id sn state e now d' :
  implements d s -> save_state room_id sn state e now d = (d', Ok tt) ->
  implements d' (<[(room_id, state, identity_key (sanction_of sn)) := e]> s).
Proof.
  intros Him. unfold save_state. destruct (sanction_of sn) as [user ip|ip]; cbn [identity_key identity_user identity_address]; intros Hu.
  - eapply upsert_implements in Hu; [exact Hu|done|intros; apply user_row_names|done|].
    intros r (H1 & H2 & H3). split; [|done]. unfold names, row_key in *. cbn in *. split_and!; [done|done|]. destruct (state_user r); [done|]. by destruct (state_address r).
  - eapply upsert_implements in Hu; [exact Hu|done|intros; apply guest_row_names|done|]. intros r Hk. done.
Qed.

Lemma delete_rows_implements d s k P :
  implements d s -> (forall r, P r = true <-> names k r) -> implements (delete_rows P d) (delete k s).
Proof.
  intros Him HP. apply (implements_delete d s (fun _ r => P r = false)); [done|..].
  - intros id r. apply map_lookup_filter_Some.
  - intros k' e. rewrite lookup_delete_Some. split.
    + intros [Hne Hs]. split; [done|]. intros id r _ Hk. destruct (P r) eqn:E; [|done]. apply HP in E. by destruct Hne, (names_functional _ _ _ E Hk).
    + intros [Hs Hkeep]. split; [|done]. intros <-. apply Him in Hs as (id & r & Hid & Hk & _).
      pose proof (Hkeep id r Hid Hk) as Hp. apply HP in Hk. congruence.
Qed.

(** Statements on the history and the reports leave the sanctions alone. *)
Definition apart {A} (m : statement A) : Prop :=
  forall d, room_states (m d).1 = room_states d /\ next_row (m d).1 = next_row d /\ users (m d).1 = users d.

Lemma apart_bind {A B} (m : statement A) (k : A -> statement B) : apart m -> (forall x, apart (k x)) -> apart (hbind m k).
Proof.
  intros Hm Hk d. unfold hbind. destruct (Hm d) as (E1 & E2 & E3). destruct (m d) as [d1 [x|e]]; cbn in *; [|done].
  destruct (Hk x d1) as (F1 & F2 & F3). by rewrite F1, F2, F3.
Qed.
Lemma apart_modify f : (forall d, room_states (f d) = room_states d /\ next_row (f d) = next_row d /\ users (f d) = users d) -> apart (hmodify f).
Proof. intros Hf d. apply Hf. Qed.
Lemma apart_same {A} (r : database -> result room_error A) : apart (fun d => (d, r d)).
Proof. by intros d. Qed.
Lemma apart_ensure b e : apart (ensure b e).
Proof. by intros d; destruct b. Qed.

Lemma apart_record_event room_id event cap now : apart (record_event room_id event cap now).
Proof.
  apply apart_bind.
  - destruct (event_report_id event) as [id|]; [|apply apart_same]. apply apart_bind; [apply apart_same|]. intros d0.
    destruct (room_reports d0 !! id) as [r|]; [|apply apart_same]. case_bool_decide; [|apply apart_same].
    destruct (event_target_id event); [|apply apart_same]. case_bool_decide; [|apply apart_same].
    apply apart_modify. intros d. by case_bool_decide.
  - intros _. apply apart_bind; [|by intros _; apply apart_modify]. apply apart_bind; [apply apart_same|]. intros d0.
    apply apart_bind; [apply apart_ensure|]. intros _. apply apart_bind; [apply apart_ensure|]. intros _. by apply apart_modify.
Qed.

Lemma record_event_implements room_id event cap now d d' r s :
  implements d s -> record_event room_id event cap now d = (d', r) -> implements d' s.
Proof.
  intros Him Hr. destruct (apart_record_event room_id event cap now d) as (E1 & E2 & _). rewrite Hr in *. by eapply implements_same.
Qed.

Lemma write_punitive_implements d s room_id sn kind enabled now d' :
  implements d s -> write_punitive_state room_id sn kind enabled now d = (d', Ok tt) ->
  implements d' (let k := (room_id, as_db_str kind, identity_key (sanction_of sn)) in if enabled then <[k := None]> s else delete k s).
Proof.
  intros Him. unfold write_punitive_state. destruct enabled; [by apply save_state_implements|]. unfold hmodify. intros [= <-].
  apply delete_rows_implements; [done|]. intros r. destruct (sanction_of sn); [apply user_row_names|apply guest_row_names].
Qed.

(** ** Reading *)

Definition live_entry (now : timestamp) (o : option (option timestamp)) : bool :=
  match o with Some None => true | Some (Some e) => (now <? e)%N | None => false end.
Definition holds (s : sanction_table) (room_id : string) (state : saved_state) (now : timestamp) (user : option participant_id)
  (ip : option ip_addr) (authenticated : bool) : bool :=
  match user with Some user => live_entry now (s !! (room_id, state, inl user)) | None => false end
  || (negb authenticated && match cohort <$> ip with Some ip => live_entry now (s !! (room_id, state, inr ip)) | None => false end).

Lemma live_entry_true now o : live_entry now o = true <-> exists e, o = Some e /\ match e with None => True | Some t => (now < t)%N end.
Proof.
  destruct o as [[t|]|]; cbn; [rewrite N.ltb_lt|..]; (split; [intros H; try done; by eexists|by intros (? & [= <-] & ?)]).
Qed.
Lemma live_row_true now r : live_row now r = true <-> match state_expires r with None => True | Some t => (now < t)%N end.
Proof. unfold live_row. destruct (state_expires r); [apply N.ltb_lt|done]. Qed.

Lemma entry_row d s now k : implements d s ->
  (live_entry now (s !! k) = true <-> exists id r, room_states d !! id = Some r /\ names k r /\ live_row now r = true).
Proof.
  intros Him. rewrite live_entry_true. split.
  - intros (e & (id & r & Hid & Hk & <-)%Him & He). exists id, r. by rewrite live_row_true.
  - intros (id & r & Hid & Hk & He%live_row_true). exists (state_expires r). split; [|done]. apply Him. eauto.
Qed.

Lemma exists_state_holds d s room_id state now user ip authenticated : implements d s ->
  exists_state room_id state now user ip authenticated d = holds s room_id state now user ip authenticated.
Proof.
  intros Him. apply eq_bool_prop_intro. rewrite !Is_true_true. unfold exists_state. rewrite bool_decide_eq_true. unfold holds.
  rewrite orb_true_iff, andb_true_iff, negb_true_iff. split.
  - intros (id & r & Hid & Hb). unfold binds in Hb. rewrite !andb_true_iff, !bool_decide_eq_true, orb_true_iff in Hb.
    destruct Hb as [[[Hroom Hst] Hlive] [Hu|Hg]].
    + left. destruct (state_user r) as [u|] eqn:Eu, user as [user|]; try done. apply bool_decide_eq_true in Hu as ->.
      apply (entry_row d s now _ Him). exists id, r. split; [done|]. split; [|done]. unfold names, row_key. by rewrite Eu.
    + right. destruct authenticated; cbn in Hg; [by destruct ip|]. split; [done|]. destruct (cohort <$> ip) as [a|]; [|done].
      rewrite andb_true_iff, !bool_decide_eq_true in Hg. destruct Hg as [Eu Ea].
      apply (entry_row d s now _ Him). exists id, r. split; [done|]. split; [|done]. unfold names, row_key. by rewrite Eu, Ea.
  - intros [Hu|[-> Hg]].
    + destruct user as [user|]; [|done]. apply (entry_row d s now _ Him) in Hu as (id & r & Hid & (H1 & H2 & H3) & Hlive).
      exists id, r. split; [done|]. unfold binds. rewrite !andb_true_iff, !bool_decide_eq_true, orb_true_iff. split; [done|]. left.
      unfold row_key in H3. destruct (state_user r) as [u|]; [injection H3 as ->; by apply bool_decide_eq_true|by destruct (state_address r)].
    + cbn. destruct (cohort <$> ip) as [a|]; [|done]. apply (entry_row d s now _ Him) in Hg as (id & r & Hid & (H1 & H2 & H3) & Hlive).
      exists id, r. split; [done|]. unfold binds. rewrite !andb_true_iff, !bool_decide_eq_true, orb_true_iff. split; [done|]. right.
      unfold row_key in H3. destruct (state_user r); [done|]. destruct (state_address r) as [b|]; [|done]. cbn in H3. injection H3 as ->. cbn.
      by rewrite bool_decide_eq_true.
Qed.

(** ** Commands *)

Inductive saved_command :=
| SavePunitive (room_id : string) (s : sanction) (kind : punitive_kind) (enabled : bool) (event : moderation_event)
| SaveBan (room_id : string) (s : sanction) (expires : option timestamp) (event : moderation_event)
| UnbanUser (room_id : string) (user actor : participant_id) (actor_name : text) (event_id : N)
| Unban (room_id : string) (ban_id : N) (actor : participant_id) (actor_name : text) (event_id : N)
| SaveEvent (room_id : string) (event : moderation_event)
| CloseReport (room_id : string) (report_id : N) (resolution : report_resolution) (actor : participant_id) (actor_name : text) (event_id : N)
| FileReport (room_id : string) (report_id : N) (entry : report_entry)
| Retire (b : batch_run) (batch : nat) (c : retention_config).

Inductive saved_outcome := Saved | Flag (b : bool) | Removed (ban : option removed_ban).

Definition execute (uuid_text : N -> string) (now : timestamp) (cmd : saved_command) : statement saved_outcome :=
  match cmd with
  | SavePunitive room_id s kind enabled event => set_punitive_state room_id s kind enabled event now ;; hret Saved
  | SaveBan room_id s expires event => persist_ban room_id s expires event now ;; hret Saved
  | UnbanUser room_id user actor name event_id => let! b := remove_user_ban room_id user actor name event_id now in hret (Flag b)
  | Unban room_id ban_id actor name event_id =>
      let! r := transaction (remove_ban uuid_text room_id ban_id actor name event_id now) in hret (Removed r)
  | SaveEvent room_id event => persist_event room_id event now ;; hret Saved
  | CloseReport room_id report_id resolution actor name event_id =>
      let! b := transaction (resolve_report room_id report_id resolution actor name event_id now) in hret (Flag b)
  | FileReport room_id report_id entry => let! b := transaction (file_report room_id report_id entry MAX_REPORTS now) in hret (Flag b)
  | Retire b batch c => retire_old_batch b batch c ;; hret Saved
  end.

(** What a command may do to the table. *)
Definition allows (now : timestamp) (cmd : saved_command) (r : result room_error saved_outcome) (s s' : sanction_table) : Prop :=
  match cmd, r with
  | SavePunitive room_id sn kind enabled _, Ok _ =>
      let k := (room_id, as_db_str kind, identity_key (sanction_of sn)) in s' = if enabled then <[k := None]> s else delete k s
  | SaveBan room_id sn expires _, Ok _ => s' = <[(room_id, StateBanned, identity_key (sanction_of sn)) := expires]> s
  | UnbanUser room_id user _ _ _, Ok (Flag b) =>
      let k := (room_id, StateBanned, inl user) in s' = delete k s /\ b = bool_decide (is_Some (s !! k))
  | Unban room_id _ _ _ _, Ok (Removed (Some ban)) =>
      exists key, match removed_user ban with Some user => Some (inl user) | None => inr <$> removed_address ban end = Some key
        /\ is_Some (s !! (room_id, StateBanned, key)) /\ s' = delete (room_id, StateBanned, key) s
  | Retire b _ c, _ => s' ⊆ s /\ forall k e, s !! k = Some e -> s' !! k = None -> exists t, e = Some t /\ older (history_days c) (clock b 1) t = true
  | _, _ => s' = s
  end.

(** ** Retention *)

Lemma lookup_foldr_delete_list {R} (rows : gmap N R) ids id : foldr delete rows ids !! id = if decide (id ∈ ids) then None else rows !! id.
Proof.
  induction ids as [|x ids IH]; cbn; [by rewrite decide_False by set_solver|]. destruct (decide (id = x)) as [->|Hne].
  - by rewrite lookup_delete_eq, decide_True by set_solver.
  - rewrite lookup_delete_ne, IH by done. destruct (decide (id ∈ ids)), (decide (id ∈ x :: ids)); set_solver.
Qed.

Lemma elem_of_ordered {R} a b (key : R -> N) rows id r : (id, r) ∈ ordered a b key rows <-> rows !! id = Some r.
Proof. unfold ordered. rewrite merge_sort_Permutation. apply elem_of_map_to_list. Qed.

Lemma elem_of_due {R} locked batch (key : R -> option timestamp) is_due rows id : id ∈ due locked batch key is_due rows ->
  exists r at_, rows !! id = Some r /\ id ∉ locked /\ key r = Some at_ /\ is_due r at_ = true.
Proof.
  unfold due. intros ([id' r] & -> & Hin%subseteq_take)%list_elem_of_fmap. apply elem_of_ordered, map_lookup_filter_Some in Hin as [Hr [Hl Hd]].
  cbn in *. destruct (key r) as [at_|] eqn:Hk; [|done]. eauto 10.
Qed.

Lemma retire_states b batch c d : let d' := (retire_old_batch b batch c d).1 in
  (room_states d' = room_states d \/ room_states d' = foldr delete (room_states d) (due_sanctions (locked b 1) batch c (clock b 1) d))
  /\ next_row d' = next_row d.
Proof.
  unfold retire_old_batch, hbind, run_statement, hret.
  destruct (failing b) as [[[|[|[|[|[|k]]]]] e]|]; cbn; auto.
Qed.

Lemma retire_implements b batch c d s : implements d s ->
  exists s', implements (retire_old_batch b batch c d).1 s'
  /\ s' ⊆ s /\ forall k e, s !! k = Some e -> s' !! k = None -> exists t, e = Some t /\ older (history_days c) (clock b 1) t = true.
Proof.
  intros Him. destruct (retire_states b batch c d) as [[E1|E1] E2].
  { exists s. split; [by eapply implements_same|]. split; [done|congruence]. }
  set (ids := due_sanctions (locked b 1) batch c (clock b 1) d) in *.
  set (gone := fun k => exists id r, room_states d !! id = Some r /\ names k r /\ id ∈ ids).
  assert (forall k, Decision (gone k)) as Hdec.
  { intros k. destruct (decide (Exists (fun id => match room_states d !! id with Some r => bool_decide (names k r) | None => false end = true) ids)) as [e|n]; [left|right].
    - apply Exists_exists in e as (id & Hin & Hid). destruct (room_states d !! id) as [r|] eqn:E; [|done].
      apply bool_decide_eq_true in Hid. by exists id, r.
    - intros (id & r & Hid & Hk & Hin). apply n, Exists_exists. exists id. by rewrite Hid, bool_decide_eq_true. }
  exists (filter (fun x => ~ gone x.1) s). split_and!.
  - apply (implements_same (d <| room_states := foldr delete (room_states d) ids |>)); [done|done|].
    apply (implements_delete d s (fun id _ => id ∉ ids)); [done|..].
    + intros id r. rewrite lookup_foldr_delete_list. destruct (decide (id ∈ ids)); naive_solver.
    + intros k e. rewrite map_lookup_filter_Some. cbn. split; intros [Hs Hg]; (split; [done|]).
      * intros id r Hid Hk Hin. apply Hg. by exists id, r.
      * intros (id & r & Hid & Hk & Hin). by apply (Hg id r).
  - apply map_filter_subseteq.
  - intros k e Hs Hn. apply map_lookup_filter_None in Hn as [Hn|Hn]; [congruence|]. specialize (Hn e Hs). cbn in Hn.
    apply dec_stable in Hn as (id & r & Hid & Hk & (r' & at_ & Hr' & _ & He & Hold)%elem_of_due). assert (r' = r) as -> by congruence.
    apply Him in Hs as (id2 & r2 & Hid2 & Hk2 & <-). assert (id2 = id) as -> by by eapply (st_once _ (im_ok _ _ Him)).
    assert (r2 = r) as -> by congruence. eauto.
Qed.

(** ** Simulation *)

Lemma committed {A} (m : statement A) (f : A -> saved_outcome) d d' r :
  hbind (transaction m) (fun x => hret (f x)) d = (d', r) ->
  (exists x, m d = (d', Ok x) /\ r = Ok (f x)) \/ (d' = d /\ exists e, r = Err e).
Proof.
  unfold hbind, transaction, hret. destruct (m d) as [d1 [x|e]]; intros [= <- <-]; [left|right]; eauto.
Qed.

Lemma lift_user_ban_implements d s room_id user actor name event_id now d' b :
  implements d s -> lift_user_ban room_id user actor name event_id now d = (d', Ok b) ->
  implements d' (delete (room_id, StateBanned, inl user) s) /\ b = bool_decide (is_Some (s !! (room_id, StateBanned, inl user))).
Proof.
  intros Him Hr. apply hbind_ok in Hr as (d1 & x & [= <- <-] & Hr).
  destruct (find_row (user_row room_id user StateBanned) d) as [id|] eqn:Hf.
  - apply hbind_ok in Hr as (d1 & [] & [= <-] & Hr). apply hbind_ok in Hr as (d2 & [] & Hrec & [= <- <-]).
    destruct (find_row_some _ _ _ Hf) as (r & Hid & Hk%user_row_names). split.
    + eapply record_event_implements; [|exact Hrec]. apply delete_rows_implements; [done|]. intros. apply user_row_names.
    + symmetry. apply bool_decide_eq_true. exists (state_expires r). apply Him. eauto.
  - injection Hr as <- <-. assert (s !! (room_id, StateBanned, inl user) = None) as Hn.
    { destruct (s !! (room_id, StateBanned, inl user)) as [e|] eqn:E; [|done]. apply Him in E as (id & r & Hid & Hk%user_row_names & _).
      rewrite (find_row_none _ _ Hf id r Hid) in Hk. done. }
    rewrite delete_id, Hn by done. done.
Qed.

Lemma remove_ban_implements uuid_text d s room_id ban_id actor name event_id now d' res :
  implements d s -> remove_ban uuid_text room_id ban_id actor name event_id now d = (d', Ok res) ->
  match res with
  | Some ban => exists key, match removed_user ban with Some user => Some (inl user) | None => inr <$> removed_address ban end = Some key
                  /\ is_Some (s !! (room_id, StateBanned, key)) /\ implements d' (delete (room_id, StateBanned, key) s)
  | None => implements d' s
  end.
Proof.
  intros Him Hr. apply hbind_ok in Hr as (d1 & x & [= <- <-] & Hr).
  destruct (room_states d !! ban_id) as [r|] eqn:Hid; [|by injection Hr as <- <-].
  destruct (_ && _) eqn:Hb; [|by injection Hr as <- <-]. apply andb_true_iff in Hb as [Hroom%bool_decide_eq_true Hst%bool_decide_eq_true].
  apply hbind_ok in Hr as (d1 & [] & [= <-] & Hr). apply hbind_ok in Hr as (d2 & [] & Hrec & [= <- <-]). cbn [removed_user removed_address].
  destruct (st_keyed _ (im_ok _ _ Him) _ _ Hid) as [key Hkey]. exists key. split; [exact Hkey|].
  assert (names (room_id, StateBanned, key) r) as Hk by done. split; [exists (state_expires r); apply Him; eauto|].
  eapply record_event_implements; [|exact Hrec].
  apply (implements_delete d s (fun id _ => id <> ban_id)); [done|..].
  - intros id r'. rewrite lookup_delete_Some. naive_solver.
  - intros k e. rewrite lookup_delete_Some. split.
    + intros [Hne Hs]. split; [done|]. intros id r' Hid' Hk' ->. assert (r' = r) as -> by congruence. by destruct Hne, (names_functional _ _ _ Hk Hk').
    + intros [Hs Hkeep]. split; [|done]. intros <-. by destruct (Hkeep _ _ Hid Hk).
Qed.

Lemma apart_resolve_report room_id report_id resolution actor name event_id now :
  apart (resolve_report room_id report_id resolution actor name event_id now).
Proof.
  apply apart_bind; [apply apart_same|]. intros d0. destruct (room_reports d0 !! report_id) as [r|]; [|apply apart_same].
  destruct (_ && _); [|apply apart_same]. apply apart_bind; [by apply apart_modify|]. intros _.
  apply apart_bind; [apply apart_record_event|]. intros _. apply apart_same.
Qed.
Lemma apart_file_report room_id report_id entry cap now : apart (file_report room_id report_id entry cap now).
Proof.
  assert (apart (insert_report room_id report_id entry now ;; hret true)) as Hins.
  { apply apart_bind; [|intros; apply apart_same]. apply apart_bind; [apply apart_same|]. intros d0.
    apply apart_bind; [apply apart_ensure|]. intros _. apply apart_bind; [apply apart_ensure|]. intros _. by apply apart_modify. }
  apply apart_bind; [apply apart_same|]. intros d0. destruct (_ <=? _)%nat; [|done].
  destruct (oldest_closed room_id d0); [apply apart_same|]. apply apart_bind; [by apply apart_modify|]. done.
Qed.
Lemma apart_implements {A} (m : statement A) d d' r s : apart m -> implements d s -> m d = (d', r) -> implements d' s.
Proof. intros Hm Him Hr. destruct (Hm d) as (E1 & E2 & _). rewrite Hr in *. by eapply implements_same. Qed.

(** ** A database to start from *)

(** Rooms and accounts, and nothing about moderation. *)
Definition new_database (rooms : gset string) (accounts : gmap participant_id text) : database := Rows rooms accounts ∅ ∅ ∅ ∅ 0.

Lemma implements_new rooms accounts : implements (new_database rooms accounts) ∅.
Proof.
  split; [split|]; cbn.
  - by intros id r.
  - by intros id id' r r' k.
  - by intros id r.
  - intros k e. split; [done|]. by intros (id & r & ? & _).
Qed.

Definition lounge : database := new_database {["lounge"%string]} {[7%N := text_of "Ada"; 8%N := text_of "Ben"]}.
Definition ban_event (id : N) : moderation_event :=
  event_new id 100 ActBan 7 (text_of "Ada") (TargetParticipant 8) (text_of "Ben") true None None None None.
Definition ban_ben : saved_command := SaveBan "lounge" (Sanction (SanctionUser 8 None) None 7) (Some 500%N) (ban_event 1).

(** C28: the sanction rows implement the table.  From the empty database on, every
    command that succeeds changes the table as it says -- a ban or a restriction
    is entered or lifted for exactly its room, kind and identity -- and every
    command that fails, and every command about reports and history, leaves it
    as it was; retention takes out entries that expired longer ago than history
    is kept, and no others.  The lookups read the table. *)
Theorem saved_sanctions_implement_table uuid_text now cmd d d' s r :
  implements d s -> execute uuid_text now cmd d = (d', r) ->
  (exists s', implements d' s' /\ allows now cmd r s s')
  /\ forall room_id state at_ user ip authenticated,
       exists_state room_id state at_ user ip authenticated d = holds s room_id state at_ user ip authenticated.
Proof.
  intros Him Hx. split; [|intros; by apply exists_state_holds]. destruct cmd; cbn [execute] in Hx.
  - apply committed in Hx as [(x & Hm & ->)|[-> [e ->]]]; [|by exists s].
    apply hbind_ok in Hm as (d1 & [] & Hw & Hrec). eexists. split; [|done]. eapply record_event_implements; [|exact Hrec].
    by eapply write_punitive_implements.
  - apply committed in Hx as [(x & Hm & ->)|[-> [e ->]]]; [|by exists s].
    apply hbind_ok in Hm as (d1 & [] & Hw & Hrec). eexists. split; [|done]. eapply record_event_implements; [|exact Hrec].
    by eapply save_state_implements.
  - apply committed in Hx as [(b & Hm & ->)|[-> [e ->]]]; [|by exists s].
    destruct (lift_user_ban_implements _ _ _ _ _ _ _ _ _ _ Him Hm) as [Him' ->]. eexists. split; [exact Him'|done].
  - apply committed in Hx as [([ban|] & Hm & ->)|[-> [e ->]]]; [..|by exists s].
    + destruct (remove_ban_implements _ _ _ _ _ _ _ _ _ _ _ Him Hm) as (key & Hkey & Hs & Him'). eexists. split; [exact Him'|]. cbn. eauto.
    + exists s. split; [exact (remove_ban_implements _ _ _ _ _ _ _ _ _ _ _ Him Hm)|done].
  - apply committed in Hx as [(x & Hm & ->)|[-> [e ->]]]; [|by exists s]. exists s. split; [by eapply record_event_implements|done].
  - apply committed in Hx as [(x & Hm & ->)|[-> [e ->]]]; [|by exists s]. exists s. split; [|done].
    by eapply apart_implements; [apply apart_resolve_report| |].
  - apply committed in Hx as [(x & Hm & ->)|[-> [e ->]]]; [|by exists s]. exists s. split; [|done].
    by eapply apart_implements; [apply apart_file_report| |].
  - destruct (retire_implements b batch c d s Him) as (s' & Him' & Hr). exists s'.
    unfold hbind, hret in Hx. destruct (retire_old_batch b batch c d) as [d1 [x|e]]; injection Hx as <- <-; done.
Qed.

Lemma saved_sanctions_implement_table_witness :
  implements lounge ∅ /\ exists d' r s', execute (fun _ => "") 100 ban_ben lounge = (d', r) /\ r = Ok Saved
    /\ implements d' s' /\ s' = <[("lounge"%string, StateBanned, inl 8%N) := Some 500%N]> ∅.
Proof.
  split; [apply implements_new|]. destruct (execute (fun _ => "") 100 ban_ben lounge) as [d' r] eqn:Hx.
  destruct (saved_sanctions_implement_table (fun _ => "") 100 ban_ben lounge d' ∅ r (implements_new _ _) Hx) as [(s' & Him & Ha) _].
  assert (r = Ok Saved) as -> by (apply (f_equal snd) in Hx; vm_compute in Hx; congruence).
  exists d', (Ok Saved), s'. split; [done|]. split; [done|]. split; [exact Him|exact Ha].
Defined.

(** ** Whom a ban binds *)

Lemma holds_identity s room_id state now id ip (authenticated : bool) :
  holds s room_id state now (if authenticated then Some id else None) ip authenticated
  = match for_identity id authenticated ip with
    | KeyUser user => live_entry now (s !! (room_id, state, inl user))
    | KeyGuestIp ip => live_entry now (s !! (room_id, state, inr ip))
    | KeyConnection _ => false
    end.
Proof. unfold holds, for_identity. destruct authenticated; cbn; [by rewrite orb_false_r|]. by destruct ip. Qed.

(** C29: a saved ban binds exactly the identity it names.  After the ban of a member
    was saved, whoever joins the room is found banned if they have the same
    account, or as guests an address of the same cohort, until the ban expires;
    for everybody else, and for every other room, the answer is what it was. *)
Theorem saved_ban_binds_its_identity uuid_text now d s d' id authenticated ip i reason by_ expires event :
  implements d s -> sanction_identity_of id authenticated ip = Ok i ->
  forall room_id, execute uuid_text now (SaveBan room_id (Sanction i reason by_) expires event) d = (d', Ok Saved) ->
  forall room_id' id' (authenticated' : bool) ip' at_,
  let banned := is_banned room_id' (if authenticated' then Some id' else None) ip' authenticated' at_ in
  banned d' = if decide (room_id' = room_id /\ for_identity id' authenticated' ip' = for_identity id authenticated ip)
              then match expires with Some e => (at_ <? e)%N | None => true end
              else banned d.
Proof.
  intros Him Hi room_id Hx room_id' id' authenticated' ip' at_ banned.
  assert (implements d' (<[(room_id, StateBanned, identity_key i) := expires]> s)) as Him'.
  { apply committed in Hx as [(x & Hm & _)|[_ [e Hx]]]; [|done]. apply hbind_ok in Hm as (d1 & [] & Hw & Hrec).
    eapply record_event_implements; [|exact Hrec]. by eapply save_state_implements in Hw. }
  unfold banned, is_banned. rewrite (exists_state_holds _ _ _ _ _ _ _ _ Him), (exists_state_holds _ _ _ _ _ _ _ _ Him'), !holds_identity.
  assert (match identity_key i with inl user => KeyUser user | inr ip => KeyGuestIp ip end = for_identity id authenticated ip) as Hkey.
  { unfold sanction_identity_of in Hi. unfold for_identity. destruct authenticated; [by injection Hi as <-|]. destruct ip; [|done]. by injection Hi as <-. }
  rewrite <-Hkey. destruct (decide _) as [[-> Hsame]|Hdiff].
  - destruct (identity_key i), (for_identity id' authenticated' ip'); try done; injection Hsame as ->; by rewrite lookup_insert_eq.
  - destruct (for_identity id' authenticated' ip') as [u|a|c]; [..|done]; (rewrite lookup_insert_ne; [done|]); intros [= -> Heq]; apply Hdiff; by rewrite Heq.
Qed.

Lemma saved_ban_binds_its_identity_witness :
  exists d', execute (fun _ => "") 100 ban_ben lounge = (d', Ok Saved)
    /\ is_banned "lounge" (Some 8%N) None true 499 d' = true /\ is_banned "lounge" (Some 8%N) None true 500 d' = false.
Proof.
  destruct (execute (fun _ => "") 100 ban_ben lounge) as [d' r] eqn:Hx.
  assert (r = Ok Saved) as -> by (apply (f_equal snd) in Hx; vm_compute in Hx; congruence).
  pose proof (saved_ban_binds_its_identity (fun _ => "") 100 lounge ∅ d' 8 true None (SanctionUser 8 None) None 7 (Some 500%N) (ban_event 1)
    (implements_new _ _) eq_refl "lounge" Hx) as Hb.
  exists d'. split; [done|]. split; [exact (Hb "lounge"%string 8%N true None 499%N)|exact (Hb "lounge"%string 8%N true None 500%N)].
Defined.
