(* ===== verification/SavedRetention.v ===== *)
(** * Retention

    What a batch of the retention sweep removes has been over for as long as
    the configuration says, and everything else stays as it was; a batch that
    finds fewer rows than it asked for leaves nothing that is due. *)

From S2P Require Import Prelude Refusal Net Roles Protocol Moderation Social ModerationOps RoomRequests SavedModeration SavedSanctions.

(** ** Rows *)

(** Some of the rows that [P] holds of are gone. *)
Definition thinned {R} (P : R -> Prop) (m m' : gmap N R) : Prop :=
  forall id, m' !! id = m !! id \/ m' !! id = None /\ exists r, m !! id = Some r /\ P r.

Lemma thinned_trans {R} (P : R -> Prop) m1 m2 m3 : thinned P m1 m2 -> thinned P m2 m3 -> thinned P m1 m3.
Proof.
  intros H1 H2 id. destruct (H2 id) as [->|[E2 (r & Hr & HP)]]; [done|]. right. split; [done|].
  destruct (H1 id) as [E1|[E1 _]]; [|congruence]. exists r. by rewrite <-E1.
Qed.
Lemma thinned_mono {R} (P Q : R -> Prop) m m' : (forall r, P r -> Q r) -> thinned P m m' -> thinned Q m m'.
Proof. intros HPQ Ht id. destruct (Ht id) as [|[? (r & ? & ?)]]; eauto 10. Qed.
Lemma thinned_gone {R} (P : R -> Prop) m m' id : thinned P m m' -> m !! id = None -> m' !! id = None.
Proof. intros Ht Hn. destruct (Ht id) as [->|[? _]]; done. Qed.

Section Due.
Context {R : Type} (locked : gset N) (batch : nat) (key : R -> option timestamp) (is_due : R -> timestamp -> bool).

Lemma thinned_due rows : thinned (fun r => exists at_, key r = Some at_ /\ is_due r at_ = true) rows (foldr delete rows (due locked batch key is_due rows)).
Proof.
  intros id. rewrite lookup_foldr_delete_list. destruct (decide _) as [Hin|]; [|by left].
  apply elem_of_due in Hin as (r & at_ & Hr & _ & Hk & Hd). eauto 10.
Qed.

Lemma due_complete rows id r at_ : (length (due locked batch key is_due rows) < batch)%nat ->
  rows !! id = Some r -> id ∉ locked -> key r = Some at_ -> is_due r at_ = true -> id ∈ due locked batch key is_due rows.
Proof.
  unfold due. set (l := ordered _ _ _ _). rewrite length_fmap, length_take. intros Hlen Hr Hl Hk Hd.
  rewrite take_ge by lia. apply list_elem_of_fmap. exists (id, r). split; [done|]. apply elem_of_ordered, map_lookup_filter_Some.
  cbn. by rewrite Hk.
Qed.

Lemma due_none rows : (forall id r at_, rows !! id = Some r -> id ∉ locked -> key r = Some at_ -> is_due r at_ = false) ->
  forall n, due locked n key is_due rows = [].
Proof.
  intros Hn n. apply elem_of_nil_inv. intros id (r & at_ & Hr & Hl & Hk & Hd)%elem_of_due. by rewrite (Hn id r at_) in Hd.
Qed.

(** What a batch that was not full leaves. *)
Lemma due_emptied rows : (length (due locked batch key is_due rows) < batch)%nat ->
  forall n, due locked n key is_due (foldr delete rows (due locked batch key is_due rows)) = [].
Proof.
  intros Hlen. apply due_none. intros id r at_ Hr Hl Hk. rewrite lookup_foldr_delete_list in Hr. destruct (decide _) as [|Hn]; [done|].
  apply not_true_iff_false. intros Hd. by apply Hn, (due_complete rows id r at_).
Qed.

Lemma due_length rows : (length (due locked batch key is_due rows) <= batch)%nat.
Proof. unfold due. rewrite length_fmap, length_take. lia. Qed.

Lemma due_nodup rows : NoDup (due locked batch key is_due rows).
Proof.
  unfold due. rewrite fmap_take. eapply sublist_NoDup; [|apply sublist_take]. unfold ordered.
  rewrite merge_sort_Permutation. apply NoDup_fst_map_to_list.
Qed.

(** The rows reported are the rows removed. *)
Lemma due_size rows : size rows = (size (foldr delete rows (due locked batch key is_due rows)) + length (due locked batch key is_due rows))%nat.
Proof.
  assert (forall id, id ∈ due locked batch key is_due rows -> is_Some (rows !! id)) as Hin by (intros id (r & ? & ? & _)%elem_of_due; eauto).
  generalize (due_nodup rows) Hin. generalize (due locked batch key is_due rows) as ids. clear Hin.
  induction ids as [|id ids IH]; intros Hnd Hin; cbn; [lia|]. apply NoDup_cons in Hnd as [Hid Hnd].
  rewrite IH by (done || intros; apply Hin; set_solver).
  assert (is_Some (foldr delete rows ids !! id)) as Hs by (rewrite lookup_foldr_delete_list, decide_False by done; apply Hin; set_solver).
  rewrite map_size_delete_Some by done. assert (size (foldr delete rows ids) <> 0)%nat; [|lia].
  intros H0%map_size_empty_inv. rewrite H0 in Hs. by destruct Hs.
Qed.
End Due.

(** ** History *)

(** A history entry that stays: its address goes after [address_days], its
    reference goes with the report. *)
Record worn (c : retention_config) (now : timestamp) (gone : N -> Prop) (r r' : event_row) : Prop := {
  worn_room : event_room r' = event_room r;
  worn_ip : event_target_ip (event_of r') = event_target_ip (event_of r)
            \/ event_target_ip (event_of r') = None /\ older (address_days c) now (event_at r) = true;
  worn_report : event_report_id (event_of r') = event_report_id (event_of r)
            \/ event_report_id (event_of r') = None /\ exists id, event_report_id (event_of r) = Some id /\ gone id;
  worn_rest : (event_of r') <| event_target_ip := None |> <| event_report_id := None |>
              = (event_of r) <| event_target_ip := None |> <| event_report_id := None |>
}.

Definition weathered (c : retention_config) (now : timestamp) (gone : N -> Prop) (m m' : gmap N event_row) : Prop :=
  forall id, match m !! id with
             | None => m' !! id = None
             | Some r => m' !! id = None /\ older (history_days c) now (event_at r) = true
                         \/ exists r', m' !! id = Some r' /\ worn c now gone r r'
             end.

Lemma older_mono days now now' at_ : (now <= now')%N -> older days now at_ = true -> older days now' at_ = true.
Proof. unfold older. rewrite !N.ltb_lt. lia. Qed.

Section Worn.
Context (c : retention_config) (now : timestamp) (gone : N -> Prop).

Lemma worn_at r r' : worn c now gone r r' -> event_at r' = event_at r.
Proof. intros [_ _ _ Hr]. unfold event_at. apply (f_equal event_created_at) in Hr. done. Qed.

#[export] Instance worn_preorder : PreOrder (worn c now gone).
Proof.
  split; [by split; auto|]. intros r1 r2 r3 H1 H2. pose proof (worn_at _ _ H1) as Hat. destruct H1 as [A1 A2 A3 A4], H2 as [B1 B2 B3 B4].
  rewrite Hat in B2. split; [congruence| | |congruence].
  - destruct B2 as [->|B2]; [done|]. by right.
  - destruct B3 as [->|(E3 & id & Hid & Hg)]; [done|]. right. split; [done|]. destruct A3 as [A3|[A3 _]]; [|congruence].
    exists id. by rewrite <-A3.
Qed.

#[export] Instance weathered_preorder : PreOrder (weathered c now gone).
Proof.
  split; [intros m id; destruct (m !! id) as [r|]; [right; by exists r|done]|]. intros m1 m2 m3 H1 H2 id. specialize (H1 id). specialize (H2 id).
  destruct (m1 !! id) as [r|]; [|by rewrite H1 in H2]. destruct H1 as [[E1 Ho]|(r1 & E1 & Hw)]; rewrite E1 in H2; [by left|].
  destruct H2 as [[E2 Ho]|(r2 & E2 & Hw2)]; [left; by rewrite <-(worn_at _ _ Hw)|right; exists r2; split; [done|by etrans]].
Qed.

Lemma weathered_delete m m' : thinned (fun r => older (history_days c) now (event_at r) = true) m m' -> weathered c now gone m m'.
Proof.
  intros Ht id. destruct (Ht id) as [->|[-> (r & -> & Ho)]]; [|by left]. destruct (m !! id) as [r|]; [right; by exists r|done].
Qed.
Lemma weathered_each (m m' : gmap N event_row) :
  (forall id, option_relation (worn c now gone) (fun _ => False) (fun _ => False) (m !! id) (m' !! id)) -> weathered c now gone m m'.
Proof.
  intros Hm id. specialize (Hm id). destruct (m !! id), (m' !! id); cbn in Hm; try done. right. by eexists.
Qed.
End Worn.

Lemma worn_mono c now now' (gone gone' : N -> Prop) r r' : (now <= now')%N -> (forall id, gone id -> gone' id) ->
  worn c now gone r r' -> worn c now' gone' r r'.
Proof.
  intros Hn Hg [A1 A2 A3 A4]. split; [done| | |done].
  - destruct A2 as [|[? ?]]; [by left|right]. split; [done|by eapply older_mono].
  - destruct A3 as [|(? & id & ? & ?)]; eauto 10.
Qed.
Lemma weathered_mono c now now' (gone gone' : N -> Prop) m m' : (now <= now')%N -> (forall id, gone id -> gone' id) ->
  weathered c now gone m m' -> weathered c now' gone' m m'.
Proof.
  intros Hn Hg Hm id. specialize (Hm id). destruct (m !! id) as [r|]; [|done].
  destruct Hm as [[? ?]|(r' & ? & ?)]; [left; split; [done|by eapply older_mono]|right; exists r'; split; [done|by eapply worn_mono]].
Qed.

(** ** One batch *)

Record retired (c : retention_config) (now : timestamp) (d d' : database) : Prop := {
  ret_states : thinned (fun r => exists t, state_expires r = Some t /\ older (history_days c) now t = true) (room_states d) (room_states d');
  ret_reports : thinned (fun r => row_status r <> ReportOpen /\ exists t, row_resolved_at r = Some t /\ older (history_days c) now t = true)
                  (room_reports d) (room_reports d');
  ret_events : weathered c now (fun id => room_reports d' !! id = None) (moderation_events d) (moderation_events d');
  ret_invites : thinned (fun t => older INVITE_RECEIPT_RETENTION_DAYS now t = true) (invites d) (invites d');
  ret_rest : saved_rooms d' = saved_rooms d /\ users d' = users d /\ next_row d' = next_row d
}.

Lemma lookup_clear (rows : gmap N event_row) (ids : list N) id :
  foldr (alter clear_address) rows ids !! id = if decide (id ∈ ids) then clear_address <$> rows !! id else rows !! id.
Proof.
  induction ids as [|x ids IH]; cbn; [by rewrite decide_False by set_solver|]. destruct (decide (x = id)) as [->|Hne].
  - rewrite lookup_alter_eq, IH, (decide_True (P := id ∈ id :: ids)) by set_solver. destruct (decide _); [|done]. by destruct (rows !! id).
  - rewrite lookup_alter_ne, IH by done. destruct (decide (id ∈ ids)), (decide (id ∈ x :: ids)); set_solver.
Qed.

Definition forget (ids : list N) (r : event_row) : event_row :=
  match event_report_id (event_of r) with
  | Some id => if bool_decide (id ∈ ids) then EventRow (event_room r) ((event_of r) <| event_report_id := None |>) else r
  | None => r
  end.
Lemma forget_at ids r : event_at (forget ids r) = event_at r /\ event_target_ip (event_of (forget ids r)) = event_target_ip (event_of r).
Proof. unfold forget. destruct (event_report_id _); [|done]. by case_bool_decide. Qed.

#[local] Opaque older due.

(** *** What the statements remove *)

Lemma retired_refl c now d : retired c now d d.
Proof. split; [by left| by left|reflexivity|by left|done]. Qed.

Lemma retired_trans c now d1 d2 d3 : retired c now d1 d2 -> retired c now d2 d3 -> retired c now d1 d3.
Proof.
  intros [A1 A2 A3 A4 (A5 & A6 & A7)] [B1 B2 B3 B4 (B5 & B6 & B7)]. split; [by eapply thinned_trans..| |by eapply thinned_trans|].
  - etrans; [|exact B3]. eapply weathered_mono, A3; [lia|]. intros id. by apply (thinned_gone _ _ _ _ B2).
  - split_and!; congruence.
Qed.
Lemma retired_mono c now now' d d' : (now <= now')%N -> retired c now d d' -> retired c now' d d'.
Proof.
  intros Hn [A1 A2 A3 A4 A5]. split; [..|done].
  - eapply thinned_mono, A1. intros r (t & ? & ?). eauto using older_mono.
  - eapply thinned_mono, A2. intros r (? & t & ? & ?). eauto using older_mono.
  - by eapply weathered_mono, A3.
  - eapply thinned_mono, A4. intros t. by apply older_mono.
Qed.

Section Statements.
Context (locked : gset N) (batch : nat) (c : retention_config) (now : timestamp) (d : database).

Lemma clear_addresses_retired : retired c now d (clear_addresses locked batch c now d).1.
Proof.
  split; [by left|by left| |by left|done]. apply weathered_each. intros id. cbn. rewrite lookup_clear.
  destruct (decide _) as [Hin|]; [|destruct (_ !! id); cbn; done].
  apply elem_of_due in Hin as (r & at_ & Hr & _ & [= <-] & [_ Ho]%andb_true_iff). rewrite Hr. cbn. by split; auto.
Qed.
Lemma remove_sanctions_retired : retired c now d (remove_sanctions locked batch c now d).1.
Proof. split; [apply thinned_due|by left|reflexivity|by left|done]. Qed.
Lemma remove_entries_retired : retired c now d (remove_entries locked batch c now d).1.
Proof.
  split; [by left|by left| |by left|done]. apply weathered_delete. eapply thinned_mono, thinned_due. by intros r (t & [= <-] & Ho).
Qed.
Lemma remove_reports_retired : retired c now d (remove_reports locked batch c now d).1.
Proof.
  split; [by left| | |by left|done].
  - eapply thinned_mono, thinned_due. intros r (t & Hk & [Hc%bool_decide_eq_true Ho]%andb_true_iff). eauto.
  - change (weathered c now (fun id => foldr delete (room_reports d) (due_reports locked batch c now d) !! id = None)
      (moderation_events d) (forget (due_reports locked batch c now d) <$> moderation_events d)).
    apply weathered_each. intros id. rewrite lookup_fmap. destruct (_ !! id) as [r|]; [|done]. cbn. unfold forget.
    destruct (event_report_id (event_of r)) as [report_id|] eqn:Hid; [|done]. case_bool_decide as Hin; [|done].
    split; cbn; auto. right. split; [done|]. exists report_id. by rewrite lookup_foldr_delete_list, decide_True.
Qed.
Lemma remove_invites_retired : retired c now d (remove_invites locked batch now d).1.
Proof. split; [by left|by left|reflexivity| |done]. eapply thinned_mono, thinned_due. by intros r (t & [= <-] & Ho). Qed.
End Statements.

#[export] Hint Resolve clear_addresses_retired remove_sanctions_retired remove_entries_retired remove_reports_retired remove_invites_retired : chat.

(** Whichever statement of a batch fails, what was done before it stays. *)
Lemma run_retired b k f c now d : (clock b k <= now)%N -> (forall l t d, retired c t d (f l t d).1) -> retired c now d (run_statement b k f d).1.
Proof.
  intros Hle Hf. unfold run_statement. specialize (Hf (locked b k) (clock b k) d). apply (retired_mono _ _ now) in Hf; [|done].
  destruct (f _ _ d) as [d1 n]. destruct (failing b) as [[k' e]|]; [|done]. destruct (_ =? _)%nat; [apply retired_refl|done].
Qed.
Lemma bind_retired {A B} c now (m : statement A) (k : A -> statement B) d :
  retired c now d (m d).1 -> (forall x d, retired c now d (k x d).1) -> retired c now d (hbind m k d).1.
Proof. intros Hm Hk. unfold hbind. destruct (m d) as [d1 [x|e]]; [|done]. eapply retired_trans; [exact Hm|apply Hk]. Qed.

Lemma batch_retired b batch c now d : (forall k, (k < 5)%nat -> (clock b k <= now)%N) -> retired c now d (retire_old_batch b batch c d).1.
Proof.
  intros Hle. unfold retire_old_batch. repeat (apply bind_retired; [apply run_retired; [apply Hle; lia|auto with chat]|intros; cbv beta]). apply retired_refl.
Qed.

(** *** A batch that completes *)

(** Nothing is due that another session has not locked. *)
Definition settled (b : batch_run) (c : retention_config) (d : database) : Prop := forall n,
  due_addresses (locked b 0) n c (clock b 0) d = [] /\ due_sanctions (locked b 1) n c (clock b 1) d = []
  /\ due_entries (locked b 2) n c (clock b 2) d = [] /\ due_reports (locked b 3) n c (clock b 3) d = []
  /\ due_invites (locked b 4) n (clock b 4) d = [].

Section Batch.
Context (b : batch_run) (batch : nat) (c : retention_config) (d d' : database) (report : retention_report).
Hypothesis Hrun : retire_old_batch b batch c d = (d', Ok report).

(** The history after the statements that change it. *)
Let cleared := foldr (alter clear_address) (moderation_events d) (due_addresses (locked b 0) batch c (clock b 0) d).
Let entries := due (locked b 2) batch (fun r => Some (event_at r)) (fun _ at_ => older (history_days c) (clock b 2) at_) cleared.
Let reports := due_reports (locked b 3) batch c (clock b 3) d.

Lemma batch_result :
  room_states d' = foldr delete (room_states d) (due_sanctions (locked b 1) batch c (clock b 1) d)
  /\ room_reports d' = foldr delete (room_reports d) reports
  /\ invites d' = foldr delete (invites d) (due_invites (locked b 4) batch (clock b 4) d)
  /\ moderation_events d' = forget reports <$> foldr delete cleared entries
  /\ report = RetentionReport (length (due_addresses (locked b 0) batch c (clock b 0) d))
                (length (due_sanctions (locked b 1) batch c (clock b 1) d)) (length entries) (length reports)
                (length (due_invites (locked b 4) batch (clock b 4) d)).
Proof.
  revert Hrun. unfold retire_old_batch, hbind, run_statement, hret.
  destruct (failing b) as [[[|[|[|[|[|k]]]]] e]|]; cbn; try done; intros [= <- <-]; done.
Qed.

Lemma batch_settled : Forall (fun n => n < batch)%nat (report_counts report) -> settled b c d'.
Proof.
  destruct batch_result as (Es & Er & Ei & Ee & ->). unfold report_counts.
  cbn [addresses_cleared sanctions_removed entries_removed reports_removed invites_removed]. rewrite !Forall_cons.
  intros (Ha & Hs & He & Hr & Hi & _) n. unfold due_addresses, due_sanctions, due_entries, due_reports, due_invites. rewrite Es, Er, Ei, Ee.
  split; [|split; [by apply due_emptied|split; [|split; by apply due_emptied]]]; apply due_none; intros id r at_ Hid Hl [= <-];
    rewrite lookup_fmap in Hid; apply fmap_Some in Hid as (r1 & Hid & ->); destruct (forget_at reports r1) as [-> Eip];
    rewrite lookup_foldr_delete_list in Hid; destruct (decide _) as [|Hn]; try done.
  - rewrite Eip. unfold cleared in Hid. rewrite lookup_clear in Hid. destruct (decide _) as [|Hn'];
      [apply fmap_Some in Hid as (r0 & _ & ->); done|].
    apply not_true_iff_false. intros Hd. apply Hn'. by eapply due_complete.
  - apply not_true_iff_false. intros Hd. apply Hn. by eapply due_complete.
Qed.

Lemma batch_counts :
  size (room_states d) = (size (room_states d') + sanctions_removed report)%nat
  /\ size (moderation_events d) = (size (moderation_events d') + entries_removed report)%nat
  /\ size (room_reports d) = (size (room_reports d') + reports_removed report)%nat
  /\ size (invites d) = (size (invites d') + invites_removed report)%nat.
Proof.
  destruct batch_result as (-> & -> & -> & -> & ->). cbn [sanctions_removed entries_removed reports_removed invites_removed].
  split_and!; [apply due_size| |apply due_size..]. rewrite map_size_fmap. unfold entries. rewrite <-due_size. unfold cleared.
  generalize (due_addresses (locked b 0) batch c (clock b 0) d) (moderation_events d). clear.
  intros ids rows. induction ids as [|id ids IH]; [done|]. cbn. rewrite IH.
  by rewrite <-(size_dom (alter _ _ _)), dom_alter_L, size_dom.
Qed.
End Batch.

(** ** The sweep *)

(** Rows in the tables with the rows that a total counts as removed. *)
Definition ledger (d : database) (total : retention_report) : list nat :=
  [size (room_states d) + sanctions_removed total; size (moderation_events d) + entries_removed total;
   size (room_reports d) + reports_removed total; size (invites d) + invites_removed total]%nat.

Lemma sweep_retired batch c now batches total d : Forall (fun b => forall k, (k < 5)%nat -> (clock b k <= now)%N) batches ->
  retired c now d (sweep_from batch c batches total d).1.
Proof.
  intros Ht. revert total d. induction Ht as [|b batches Hle Ht IH]; intros total d; [apply retired_refl|]. cbn [sweep_from].
  apply bind_retired; [by apply batch_retired|]. intros report d1. cbv zeta. destruct (forallb _ _); [apply retired_refl|apply IH].
Qed.

(** A sweep that completes. *)
Lemma sweep_complete batch c batches total d d' total' : sweep_from batch c batches total d = (d', Ok total') ->
  ledger d' total' = ledger d total
  /\ ((exists b, b ∈ batches /\ settled b c d')
      \/ (batch * length batches + sum_list (report_counts total) <= sum_list (report_counts total'))%nat).
Proof.
  revert total d. induction batches as [|b batches IH]; intros total d; cbn [sweep_from].
  { intros [= <- <-]. split; [done|]. right. cbn [length]. lia. }
  intros (d1 & report & Hb & Hx)%hbind_ok. pose proof (batch_settled _ _ _ _ _ _ Hb) as Hs.
  destruct (batch_counts _ _ _ _ _ _ Hb) as (C1 & C2 & C3 & C4).
  assert (ledger d1 (add_report total report) = ledger d total) as Hl.
  { unfold ledger, add_report. cbn [addresses_cleared sanctions_removed entries_removed reports_removed invites_removed].
    repeat (apply (f_equal2 cons); [lia|]). done. }
  destruct (forallb _ _) eqn:Hall.
  - injection Hx as <- <-. split; [done|]. left. exists b. split; [set_solver|].
    apply Hs, Forall_forall. intros n Hn. apply forallb_forall with (x := n) in Hall; [by apply Nat.ltb_lt|by apply list_elem_of_In].
  - apply IH in Hx as [Hl' Hend]. split; [congruence|].
    destruct Hend as [(b' & Hin & Hset)|Hge]; [left; exists b'; split; [set_solver|done]|right].
    apply not_true_iff_false in Hall. rewrite forallb_forall in Hall.
    assert (exists n, n ∈ report_counts report /\ (batch <= n)%nat) as (n & Hn & Hfull).
    { destruct (decide (Exists (fun n => batch <= n)%nat (report_counts report))) as [He|Hno]; [by apply Exists_exists in He|].
      destruct Hall. intros n Hn%list_elem_of_In. apply Nat.ltb_lt, not_ge. intros Hge'. apply Hno, Exists_exists. eauto. }
    assert (n <= sum_list (report_counts report))%nat by (unfold report_counts in *; cbn in *; set_unfold; lia).
    unfold report_counts, add_report in *. cbn in *. lia.
Qed.

(** A retention sweep removes only what is over and reports what it
    removed.  Whatever other sessions have locked, however the clock advances and
    whichever statement fails, a sanction goes only after it expired
    [history_days] ago, a report only when it was closed that long ago, a history
    entry when it is that old, an invitation a week after it expired; an entry
    that stays loses its address only after [address_days] and its reference only
    with the report, and nothing else changes.  When the sweep completes, the
    counts are the rows removed, and either nothing that was free to go is left
    or the sweep did all of its batches. *)
Theorem retention_removes_only_what_is_over c batches now d d' r :
  (forall j k, (k < 5)%nat -> (clock (batches j) k <= now)%N) -> retention_sweep c batches d = (d', r) ->
  retired c now d d'
  /\ match r with
     | Err _ => True
     | Ok total =>
         ledger d' total = ledger d (RetentionReport 0 0 0 0 0)
         /\ ((exists j, (j < RETENTION_MAX_BATCHES)%nat /\ settled (batches j) c d')
             \/ (RETENTION_BATCH_SIZE * RETENTION_MAX_BATCHES <= sum_list (report_counts total))%nat)
     end.
Proof.
  intros Ht Hs. split.
  - apply (f_equal fst) in Hs. cbn [fst] in Hs. subst d'. apply sweep_retired, Forall_fmap, Forall_forall. intros j _ k. apply Ht.
  - destruct r as [total|e]; [|done]. apply sweep_complete in Hs as [Hl Hend]. split; [done|].
    destruct Hend as [(b & Hb & Hset)|Hge]; [left|right].
    + apply list_elem_of_fmap in Hb as (j & -> & Hj%elem_of_seq). exists j. split; [lia|done].
    + rewrite length_fmap, length_seq in Hge. etrans; [|exact Hge]. apply Nat.le_add_r.
Qed.

(** A lounge where, long ago, a ban expired and a report was closed; another
    report is open. *)
Definition old_lounge : database :=
  let event := event_new 3 1000 ActBan 7 (text_of "Ada") (TargetParticipant 8) (text_of "Ben") true (Some (V4 9)) None None (Some 5%N) in
  let report status at_ by_ := ReportRow "lounge" 7 (text_of "Ada") 8 (text_of "Ben") (text_of "spam") status 900 at_ by_ in
  lounge <| room_states := {[0%N := StateRow "lounge" (Some 8%N) StateBanned None None (Some 2000%N) 7 1000]} |>
         <| moderation_events := {[3%N := EventRow "lounge" event]} |>
         <| room_reports := {[5%N := report ReportResolved (Some 1000%N) (Some 7%N); 6%N := report ReportOpen None None]} |>
         <| invites := {[4%N := 1500%N]} |> <| next_row := 1%N |>.

Definition idle_batch : batch_run := BatchRun (fun _ => ∅) (fun _ => 40000000%N) None.

Lemma retention_removes_only_what_is_over_witness :
  exists d' r, retention_sweep (RetentionConfig 30 365) (fun _ => idle_batch) old_lounge = (d', r)
    /\ r = Ok (RetentionReport 1 1 1 1 1) /\ retired (RetentionConfig 30 365) 40000000 old_lounge d'.
Proof.
  destruct (retention_sweep (RetentionConfig 30 365) (fun _ => idle_batch) old_lounge) as [d' r] eqn:Hx.
  destruct (retention_removes_only_what_is_over (RetentionConfig 30 365) (fun _ => idle_batch) 40000000 old_lounge d' r)
    as [Hr _]; [done|exact Hx|].
  exists d', r. split; [done|]. split; [|exact Hr]. apply (f_equal snd) in Hx. vm_compute in Hx. congruence.
Defined.

(** A setting that is accepted keeps addresses at least a day, and no longer
    than the history they belong to. *)
Lemma retention_parse_ok address history c : retention_parse address history = Ok c ->
  (1 <= address_days c)%N /\ (address_days c <= history_days c)%N /\ (history_days c <= MAX_RETENTION_DAYS)%N.
Proof.
  assert (forall name v dflt days, (1 <= dflt <= MAX_RETENTION_DAYS)%N -> parse_days name v dflt = Ok days -> (1 <= days <= MAX_RETENTION_DAYS)%N) as Hp.
  { intros name [[n|]|] dflt days Hd; cbn; [|done|by intros [= <-]]. destruct (_ && _) eqn:Hb; [|done]. intros [= <-].
    apply andb_true_iff in Hb as [?%N.leb_le ?%N.leb_le]. done. }
  unfold retention_parse, result_bind. destruct (parse_days _ address _) as [a|] eqn:Ha; [|done]. apply Hp in Ha; [|done].
  destruct (parse_days _ history _) as [h|] eqn:Hh; [|done]. apply Hp in Hh; [|done].
  destruct (a <=? h)%N eqn:Hle; [|done]. intros [= <-]. apply N.leb_le in Hle. cbn [address_days history_days]. lia.
Qed.
