(* ===== verification/SavedRecords.v ===== *)
(** * Saved reports and history

    The history and the reports of a room stay within their limits whatever is
    written; an open report is closed by a decision and never lost; retention
    removes what is over, and a sweep that ends early has removed all of it. *)

From S2P Require Import Prelude Refusal Net Roles Protocol Moderation Social ModerationOps RoomRequests SavedModeration SavedSanctions SavedRetention.

Local Open Scope handler_scope.

(** ** Limits *)

Definition events_in (room_id : string) (d : database) : gmap N event_row :=
  filter (fun x : N * event_row => event_room x.2 = room_id) (moderation_events d).

(** [room_reports_resolution]. *)
Definition resolution_ok (r : report_row) : Prop :=
  (row_status r = ReportOpen <-> row_resolved_at r = None) /\ (row_status r = ReportOpen <-> row_resolved_by r = None).

Record records_ok (d : database) : Prop := {
  rec_events : forall room_id, (size (events_in room_id d) <= MAX_MODERATION_EVENTS)%nat;
  rec_reports : forall room_id, (size (reports_in room_id d) <= MAX_REPORTS)%nat;
  rec_resolution : forall id r, room_reports d !! id = Some r -> resolution_ok r
}.

Lemma size_filter_room {R} (m m' : gmap N R) (P : N * R -> Prop) `{!forall x, Decision (P x)} :
  (forall id r, m' !! id = Some r -> P (id, r) -> exists r0, m !! id = Some r0 /\ P (id, r0)) -> (size (filter P m') <= size (filter P m))%nat.
Proof.
  intros Hs. rewrite <-!size_dom. apply subseteq_size. intros id [r [Hr HP]%map_lookup_filter_Some]%elem_of_dom.
  destruct (Hs id r Hr HP) as (r0 & H0 & HP0). apply elem_of_dom. exists r0. by apply map_lookup_filter_Some.
Qed.

Lemma size_of_list (l : list N) : (size (list_to_set l : gset N) <= length l)%nat.
Proof.
  induction l as [|x l IH]; cbn; [done|]. rewrite size_union_alt, size_singleton.
  enough (size (list_to_set l ∖ {[x]} : gset N) <= size (list_to_set l : gset N))%nat by lia.
  apply subseteq_size. set_solver.
Qed.

Lemma trim_bounded room_id cap d : (size (events_in room_id (trim_events room_id cap d)) <= cap)%nat.
Proof.
  set (l := ordered true true event_at (events_in room_id d)).
  rewrite <-size_dom. trans (size (list_to_set (take cap l).*1 : gset N)).
  - apply subseteq_size. intros id [r [Hr HP]%map_lookup_filter_Some]%elem_of_dom. cbn in Hr, HP.
    rewrite lookup_foldr_delete_list in Hr. destruct (decide _) as [|Hn]; [done|]. apply elem_of_list_to_set.
    assert ((id, r) ∈ l) as Hl by by apply elem_of_ordered, map_lookup_filter_Some.
    rewrite <-(take_drop cap l) in Hl. apply elem_of_app in Hl as [Hl|Hl]; [apply list_elem_of_fmap; by exists (id, r)|].
    destruct Hn. apply list_elem_of_fmap. by exists (id, r).
  - etrans; [apply size_of_list|]. rewrite length_fmap, length_take. lia.
Qed.

(** ** Decisions *)

(** What a report says, without how it ended. *)
Definition report_about (r : report_row) : string * participant_id * text * participant_id * text * text * timestamp :=
  (row_room r, row_reporter r, row_reporter_name r, row_target r, row_target_name r, row_reason r, row_created r).
Definition closed_now (now : timestamp) (r r' : report_row) : Prop :=
  row_status r = ReportOpen /\ row_status r' <> ReportOpen /\ row_resolved_at r' = Some now /\ is_Some (row_resolved_by r')
  /\ report_about r' = report_about r.

(** Nothing is filed or lost, and what is closed is closed now. *)
Record decided (now : timestamp) (d d' : database) : Prop := {
  dec_kept : forall id r, room_reports d !! id = Some r -> exists r', room_reports d' !! id = Some r' /\ (r' = r \/ closed_now now r r');
  dec_new : forall id, room_reports d !! id = None -> room_reports d' !! id = None
}.

#[export] Instance decided_preorder now : PreOrder (decided now).
Proof.
  split; [split; [|done]; intros id r Hr; exists r; auto|]. intros d1 d2 d3 [K1 N1] [K2 N2]. split; [|by auto].
  intros id r Hr. destruct (K1 id r Hr) as (r1 & H1 & E1). destruct (K2 id r1 H1) as (r2 & H2 & E2). exists r2. split; [done|].
  destruct E1 as [->|E1]; [done|]. destruct E2 as [->|E2]; [by right|]. destruct E1 as (_ & Hc & _), E2 as (Ho & _). done.
Qed.

Lemma decided_back now d d' id r' : decided now d d' -> room_reports d' !! id = Some r' ->
  exists r, room_reports d !! id = Some r /\ (r' = r \/ closed_now now r r').
Proof.
  intros [K N] H'. destruct (room_reports d !! id) as [r|] eqn:Hr; [|by rewrite (N id Hr) in H'].
  destruct (K id r Hr) as (r1 & H1 & E). exists r. split; [done|]. by replace r' with r1 by congruence.
Qed.

Lemma closed_room now r r' : closed_now now r r' -> row_room r' = row_room r.
Proof. intros (_ & _ & _ & _ & Ha). unfold report_about in Ha. congruence. Qed.

Lemma decided_records now d d' :
  decided now d d' -> (forall room_id, (size (events_in room_id d') <= MAX_MODERATION_EVENTS)%nat) -> records_ok d -> records_ok d'.
Proof.
  intros Hd He [R1 R2 R3]. split; [done|..].
  - intros room_id. etrans; [|apply (R2 room_id)]. apply size_filter_room. cbn. intros id r' H' Hroom.
    destruct (decided_back _ _ _ _ _ Hd H') as (r & Hr & [->|Hc]); [by eauto|]. exists r. split; [done|]. by rewrite <-(closed_room _ _ _ Hc).
  - intros id r' H'. destruct (decided_back _ _ _ _ _ Hd H') as (r & Hr & [->|(_ & Hn & Ha & [x Hx] & _)]); [by eapply R3|].
    unfold resolution_ok. rewrite Ha, Hx. done.
Qed.

Lemma close_decides report_id r status actor now d : room_reports d !! report_id = Some r -> row_status r = ReportOpen -> status <> ReportOpen ->
  decided now d (d <| room_reports ::= <[report_id := r <| row_status := status |> <| row_resolved_at := Some now |> <| row_resolved_by := Some actor |>]> |>).
Proof.
  intros Hr Ho Hs. split; cbn.
  - intros id r' H'. destruct (decide (id = report_id)) as [->|Hne]; [|rewrite lookup_insert_ne by done; by eauto].
    rewrite lookup_insert_eq. assert (r' = r) as -> by congruence. eexists. split; [done|]. right. done.
  - intros id H'. rewrite lookup_insert_ne; [done|]. intros <-. congruence.
Qed.

Lemma answer_decides room_id event id now d : let d' := (answer_report room_id event id now d).1 in
  decided now d d' /\ moderation_events d' = moderation_events d.
Proof.
  unfold answer_report, hbind, hget, bail, hmodify. cbn. destruct (room_reports d !! id) as [r|] eqn:Hr; [|done].
  case_bool_decide; [|done]. destruct (event_target_id event); [|done]. case_bool_decide; [|done]. cbn. case_bool_decide as Ho; [|done].
  split; [by apply close_decides|done].
Qed.

Lemma record_event_records room_id event now d d' :
  records_ok d -> record_event room_id event MAX_MODERATION_EVENTS now d = (d', Ok tt) -> decided now d d' /\ records_ok d'.
Proof.
  intros Hok Hr. apply hbind_ok in Hr as (d1 & [] & Ha & Hr). apply hbind_ok in Hr as (d2 & [] & Hi & [= <-]).
  assert (decided now d d1 /\ moderation_events d1 = moderation_events d) as [Hd1 He1].
  { destruct (event_report_id event) as [id|]; [|by injection Ha as <-].
    pose proof (answer_decides room_id event id now d) as Hd. by rewrite Ha in Hd. }
  apply hbind_ok in Hi as (d3 & ? & [= <- <-] & Hi). apply hbind_ok in Hi as (d3 & [] & Hu & Hi). apply hbind_ok in Hi as (d4 & [] & Hf & [= <-]).
  apply ensure_ok in Hu as [_ ->], Hf as [_ ->].
  assert (decided now d (trim_events room_id MAX_MODERATION_EVENTS
    (d1 <| moderation_events ::= <[event_id event := EventRow room_id event]> |>))) as Hd by (etrans; [exact Hd1|]; by split; [eauto|]).
  split; [exact Hd|]. eapply decided_records; [exact Hd| |done]. intros room_id'.
  destruct (decide (room_id' = room_id)) as [->|Hne]; [apply trim_bounded|]. etrans; [|apply (rec_events _ Hok room_id')].
  apply size_filter_room. cbn. intros id r Hid Hroom. rewrite lookup_foldr_delete_list in Hid. destruct (decide _); [done|].
  apply lookup_insert_Some in Hid as [[_ <-]|[_ Hid]]; [done|]. rewrite He1 in Hid. eauto.
Qed.

Lemma state_records d d' : moderation_events d' = moderation_events d -> room_reports d' = room_reports d ->
  records_ok d -> records_ok d'.
Proof.
  intros E1 E2 [R1 R2 R3]. split; [intros room_id; unfold events_in|intros room_id; unfold reports_in|]; rewrite ?E1, ?E2; [apply R1|apply R2|done].
Qed.
Lemma state_decided now d d' : room_reports d' = room_reports d -> decided now d d'.
Proof. intros E. split; rewrite E; [|done]. intros id r Hr. exists r. auto. Qed.

(** Open reports stay as they are. *)
Definition open_kept (now : timestamp) (d d' : database) : Prop :=
  forall id r, room_reports d !! id = Some r -> row_status r = ReportOpen ->
    exists r', room_reports d' !! id = Some r' /\ (r' = r \/ closed_now now r r').

Lemma decided_open now d d' : decided now d d' -> open_kept now d d'.
Proof. intros [K _] id r Hr _. by apply K. Qed.

(** A statement about sanctions, then its history entry. *)
Lemma sanctioned_records {A} room_id event now (m : statement A) d d' :
  (forall d, moderation_events (m d).1 = moderation_events d /\ room_reports (m d).1 = room_reports d) ->
  records_ok d -> (m ;; record_event room_id event MAX_MODERATION_EVENTS now) d = (d', Ok tt) -> decided now d d' /\ records_ok d'.
Proof.
  intros Hm Hok Hr. apply hbind_ok in Hr as (d1 & x & H1 & Hr). destruct (Hm d) as [E1 E2]. rewrite H1 in *. cbn in *.
  destruct (record_event_records room_id event now d1 d') as [Hd Hok']; [by apply (state_records d)|done|]. split; [|done].
  etrans; [by apply state_decided|done].
Qed.

Lemma upsert_apart conflict row change d : let d' := (upsert conflict row change d).1 in
  moderation_events d' = moderation_events d /\ room_reports d' = room_reports d.
Proof. unfold upsert, hbind, hget, ensure, bail, hret, hmodify. destruct (references d row); [|done]. cbn. by destruct (find_row conflict d). Qed.
Lemma save_state_apart room_id sn state e now d : let d' := (save_state room_id sn state e now d).1 in
  moderation_events d' = moderation_events d /\ room_reports d' = room_reports d.
Proof. unfold save_state. destruct (sanction_of sn); apply upsert_apart. Qed.
Lemma write_punitive_apart room_id sn kind enabled now d : let d' := (write_punitive_state room_id sn kind enabled now d).1 in
  moderation_events d' = moderation_events d /\ room_reports d' = room_reports d.
Proof. unfold write_punitive_state. destruct enabled; [apply save_state_apart|done]. Qed.

Lemma lift_user_ban_records room_id user actor name event_id now d d' b :
  records_ok d -> lift_user_ban room_id user actor name event_id now d = (d', Ok b) -> decided now d d' /\ records_ok d'.
Proof.
  intros Hok Hr. apply hbind_ok in Hr as (d1 & x & [= <- <-] & Hr). destruct (find_row _ d); [|injection Hr as <- <-; by split].
  apply hbind_ok in Hr as (d1 & [] & [= <-] & Hr). apply hbind_ok in Hr as (d2 & [] & Hrec & [= <- <-]).
  apply record_event_records in Hrec as [Hd Hok']; [split; [etrans; [|exact Hd]; by apply state_decided|done]|by apply (state_records d)].
Qed.

Lemma remove_ban_records uuid_text room_id ban_id actor name event_id now d d' b :
  records_ok d -> remove_ban uuid_text room_id ban_id actor name event_id now d = (d', Ok b) -> decided now d d' /\ records_ok d'.
Proof.
  intros Hok Hr. apply hbind_ok in Hr as (d1 & x & [= <- <-] & Hr). destruct (room_states d !! ban_id); [|injection Hr as <- <-; by split].
  destruct (_ && _); [|injection Hr as <- <-; by split].
  apply hbind_ok in Hr as (d1 & [] & [= <-] & Hr). apply hbind_ok in Hr as (d2 & [] & Hrec & [= <- <-]).
  apply record_event_records in Hrec as [Hd Hok']; [split; [etrans; [|exact Hd]; by apply state_decided|done]|by apply (state_records d)].
Qed.

Lemma resolve_report_records room_id report_id resolution actor name event_id now d d' b :
  records_ok d -> resolve_report room_id report_id resolution actor name event_id now d = (d', Ok b) -> decided now d d' /\ records_ok d'.
Proof.
  intros Hok Hr. apply hbind_ok in Hr as (d1 & x & [= <- <-] & Hr).
  destruct (room_reports d !! report_id) as [r|] eqn:Hid; [|injection Hr as <- <-; by split].
  destruct (_ && _) eqn:Hb; [|injection Hr as <- <-; by split]. apply andb_true_iff in Hb as [_ Ho%bool_decide_eq_true].
  apply hbind_ok in Hr as (d1 & [] & [= <-] & Hr). apply hbind_ok in Hr as (d2 & [] & Hrec & [= <- <-]).
  pose proof (close_decides report_id r (resolution_status resolution) actor now d Hid Ho ltac:(by destruct resolution)) as Hc.
  apply record_event_records in Hrec as [Hd Hok']; [split; [by etrans|done]|]. eapply decided_records; [exact Hc|apply (rec_events _ Hok)|done].
Qed.

(** ** Filing *)

Lemma delete_reports_events ids d room_id : (size (events_in room_id (delete_reports ids d)) <= size (events_in room_id d))%nat.
Proof.
  apply size_filter_room. cbn. intros id r Hr Hroom. rewrite lookup_fmap in Hr. destruct (moderation_events d !! id) as [r0|] eqn:H0; [|done].
  exists r0. split; [done|]. injection Hr as <-. destruct (event_report_id (event_of r0)); [|done]. by case_bool_decide.
Qed.

Lemma delete_reports_in ids d room_id : reports_in room_id (delete_reports ids d) = foldr delete (reports_in room_id d) ids.
Proof.
  apply map_eq. intros id. unfold reports_in. rewrite map_lookup_filter, !lookup_foldr_delete_list, map_lookup_filter. cbn.
  rewrite lookup_foldr_delete_list. by destruct (decide _).
Qed.

Lemma delete_reports_records ids d : records_ok d -> records_ok (delete_reports ids d).
Proof.
  intros Hok. split.
  - intros room_id. etrans; [apply delete_reports_events|apply Hok].
  - intros room_id. etrans; [|apply (rec_reports _ Hok room_id)]. apply size_filter_room. cbn. intros id r Hr Hroom.
    rewrite lookup_foldr_delete_list in Hr. destruct (decide _); [done|]. eauto.
  - cbn. intros id r Hr. rewrite lookup_foldr_delete_list in Hr. destruct (decide _); [done|]. by eapply (rec_resolution _ Hok).
Qed.

(** Only closed reports go. *)
Definition spares_open (d d' : database) : Prop :=
  forall id r, room_reports d !! id = Some r -> row_status r = ReportOpen -> room_reports d' !! id = Some r.

Lemma oldest_closed_cases room_id d id : id ∈ oldest_closed room_id d ->
  exists r, room_reports d !! id = Some r /\ row_room r = room_id /\ row_status r <> ReportOpen.
Proof.
  intros ([id' r] & -> & Hin%subseteq_take)%list_elem_of_fmap.
  apply elem_of_ordered, map_lookup_filter_Some in Hin as [[Hr Hroom]%map_lookup_filter_Some Hc]. by exists r.
Qed.

(** The report as filed. *)
Definition filed_row (room_id : string) (r : report_entry) (now : timestamp) : report_row :=
  ReportRow room_id (reporter_id r) (reporter_name r) (report_target_id r) (report_target_name r) (report_reason r) ReportOpen now None None.

Lemma insert_report_records room_id report_id r now d d' :
  insert_report room_id report_id r now d = (d', Ok tt) -> records_ok d -> (size (reports_in room_id d) < MAX_REPORTS)%nat ->
  records_ok d' /\ spares_open d d' /\ room_reports d' !! report_id = Some (filed_row room_id r now).
Proof.
  intros Hr Hok Hsize. apply hbind_ok in Hr as (d1 & x & [= <- <-] & Hr). apply hbind_ok in Hr as (d1 & [] & Hu & Hr).
  apply ensure_ok in Hu as [Hnew%bool_decide_eq_true ->]. apply hbind_ok in Hr as (d1 & [] & Hf & Hr). apply ensure_ok in Hf as [_ ->].
  injection Hr as <-. split; [split|split]; cbn.
  - apply Hok.
  - intros room_id'. destruct (decide (room_id' = room_id)) as [->|Hne].
    + unfold reports_in at 1. cbn. rewrite map_filter_insert_True by done. rewrite map_size_insert_None; [unfold reports_in in Hsize; lia|].
      apply map_lookup_filter_None. by left.
    + etrans; [|apply (rec_reports _ Hok room_id')]. apply size_filter_room. cbn. intros id r0 [[_ <-]|[_ H0]]%lookup_insert_Some Hroom; [done|eauto].
  - intros id r0 [[_ <-]|[_ H0]]%lookup_insert_Some; [done|]. by eapply (rec_resolution _ Hok).
  - intros id r0 H0 _. cbn. rewrite lookup_insert_ne; [done|]. congruence.
  - apply lookup_insert_eq.
Qed.

Lemma delete_reports_spares ids d : (forall id, id ∈ ids -> exists r, room_reports d !! id = Some r /\ row_status r <> ReportOpen) ->
  spares_open d (delete_reports ids d).
Proof.
  intros Hids id r Hr Ho. cbn. rewrite lookup_foldr_delete_list. destruct (decide (id ∈ ids)) as [Hin|]; [|done].
  destruct (Hids id Hin) as (r' & H' & Hc). congruence.
Qed.

Lemma delete_oldest_size room_id d : records_ok d -> oldest_closed room_id d <> [] ->
  (size (reports_in room_id (delete_reports (oldest_closed room_id d) d)) < MAX_REPORTS)%nat.
Proof.
  intros Hok Hne. rewrite delete_reports_in. destruct (oldest_closed room_id d) as [|id ids] eqn:Hold; [done|].
  assert (ids = []) as -> by (unfold oldest_closed in Hold; destruct (ordered _ _ _ _) as [|? [|? ?]]; cbn in Hold; congruence).
  destruct (oldest_closed_cases room_id d id) as (r & Hr & Hroom & _); [rewrite Hold; set_solver|].
  cbn [foldr]. assert (reports_in room_id d !! id = Some r) as Hin by by apply map_lookup_filter_Some.
  rewrite map_size_delete_Some by eauto. pose proof (rec_reports _ Hok room_id). assert (size (reports_in room_id d) <> 0)%nat by (intros H0%map_size_empty_inv; by rewrite H0 in Hin). lia.
Qed.

Lemma file_report_records room_id report_id r now d d' b :
  records_ok d -> file_report room_id report_id r MAX_REPORTS now d = (d', Ok b) ->
  records_ok d' /\ spares_open d d'
  /\ if b then room_reports d' !! report_id = Some (filed_row room_id r now)
     else d' = d /\ size (reports_in room_id d) = MAX_REPORTS /\ forall id r, reports_in room_id d !! id = Some r -> row_status r = ReportOpen.
Proof.
  intros Hok Hr. apply hbind_ok in Hr as (d1 & x & [= <- <-] & Hr). destruct (MAX_REPORTS <=? _)%nat eqn:Hfull.
  - apply Nat.leb_le in Hfull. destruct (oldest_closed room_id d) as [|id ids] eqn:Hold.
    + injection Hr as <- <-. split; [done|split; [by intros id r0|]]. split; [done|split; [pose proof (rec_reports _ Hok room_id); lia|]]. intros id r0 H0.
      destruct (decide (row_status r0 = ReportOpen)) as [|Hc]; [done|]. exfalso. unfold oldest_closed in Hold.
      destruct (ordered _ _ _ _) as [|? ?] eqn:Hnil in Hold; [|done].
      enough ((id, r0) ∈ ([] : list (N * report_row))) by set_solver. rewrite <-Hnil. by apply elem_of_ordered, map_lookup_filter_Some.
    + apply hbind_ok in Hr as (d1 & [] & Hdel & Hr). rewrite <-Hold in Hdel. injection Hdel as <-.
      apply hbind_ok in Hr as (d2 & [] & Hins & [= <- <-]).
      apply insert_report_records in Hins as (Hok' & Hs & Hid);
        [|by apply delete_reports_records|apply delete_oldest_size; [done|congruence]]. split; [done|split; [|done]].
      intros id' r' Hr' Ho. apply Hs; [|done]. apply delete_reports_spares; [|done..].
      intros id0 (r0 & ? & _ & ?)%oldest_closed_cases. eauto.
  - apply Nat.leb_gt in Hfull. apply hbind_ok in Hr as (d2 & [] & Hins & [= <- <-]). by apply insert_report_records in Hins.
Qed.

(** ** Every command *)

Lemma retired_records c now d d' : retired c now d d' -> records_ok d -> records_ok d' /\ spares_open d d'.
Proof.
  intros [_ Hr He _ _] [R1 R2 R3]. split; [split|].
  - intros room_id. etrans; [|apply (R1 room_id)]. apply size_filter_room. cbn. intros id r' H' Hroom. specialize (He id).
    destruct (moderation_events d !! id) as [r|]; [|congruence]. destruct He as [[? _]|(r2 & ? & Hw)]; [congruence|].
    exists r. split; [done|]. rewrite <-Hroom. assert (r2 = r') as -> by congruence. by rewrite (worn_room _ _ _ _ _ Hw).
  - intros room_id. etrans; [|apply (R2 room_id)]. apply size_filter_room. cbn. intros id r' H' Hroom.
    destruct (Hr id) as [E|[E _]]; [exists r'; by rewrite <-E|congruence].
  - intros id r' H'. destruct (Hr id) as [E|[E _]]; [eapply R3; by rewrite <-E|congruence].
  - intros id r Hid Ho. destruct (Hr id) as [->|[_ (r' & ? & Hc & _)]]; congruence.
Qed.

Lemma batch_clocks b : exists t, forall k, (k < 5)%nat -> (clock b k <= t)%N.
Proof.
  exists (clock b 0 + clock b 1 + clock b 2 + clock b 3 + clock b 4)%N. intros k Hk.
  destruct k as [|[|[|[|[|k]]]]]; lia.
Qed.

Lemma spares_open_kept now d d' : spares_open d d' -> open_kept now d d'.
Proof. intros Hs id r Hr Ho. exists r. auto. Qed.

Lemma resolve_report_closes room_id report_id resolution actor name event_id now d d' b :
  resolve_report room_id report_id resolution actor name event_id now d = (d', Ok b) -> records_ok d ->
  if b then exists r r', room_reports d !! report_id = Some r /\ room_reports d' !! report_id = Some r'
                         /\ row_room r = room_id /\ closed_now now r r'
  else d' = d /\ forall r, room_reports d !! report_id = Some r -> row_room r = room_id -> row_status r <> ReportOpen.
Proof.
  intros Hr Hok. apply hbind_ok in Hr as (d1 & x & [= <- <-] & Hr).
  destruct (room_reports d !! report_id) as [r|] eqn:Hid; [|injection Hr as <- <-; by split].
  destruct (_ && _) eqn:Hb.
  - apply andb_true_iff in Hb as [Hroom%bool_decide_eq_true Ho%bool_decide_eq_true].
    apply hbind_ok in Hr as (d1 & [] & [= <-] & Hr). apply hbind_ok in Hr as (d2 & [] & Hrec & [= <- <-]).
    pose proof (close_decides report_id r (resolution_status resolution) actor now d Hid Ho ltac:(by destruct resolution)) as Hc.
    apply record_event_records in Hrec as [Hd _]; [|eapply decided_records; [exact Hc|apply (rec_events _ Hok)|done]].
    destruct (dec_kept _ _ _ Hd report_id _ (lookup_insert_eq _ _ _)) as (r' & H' & [->|[Ho' _]]); [|by destruct resolution].
    eexists r, _. split_and!; [done|exact H'|done|]. split_and!; [done|by destruct resolution|done..].
  - injection Hr as <- <-. split; [done|]. intros r' [= <-] Hroom Ho. by rewrite !bool_decide_eq_true_2 in Hb.
Qed.

(** What a command that files or closes a report answers; a command that fails
    leaves no trace. *)
Definition answered (now : timestamp) (cmd : saved_command) (r : result room_error saved_outcome) (d d' : database) : Prop :=
  match cmd, r with
  | Retire _ _ _, _ => True
  | _, Err _ => d' = d
  | FileReport room_id report_id entry, Ok (Flag b) =>
      if b then room_reports d' !! report_id = Some (filed_row room_id entry now)
      else d' = d /\ size (reports_in room_id d) = MAX_REPORTS /\ forall id r, reports_in room_id d !! id = Some r -> row_status r = ReportOpen
  | CloseReport room_id report_id _ _ _ _, Ok (Flag b) =>
      if b then exists r r', room_reports d !! report_id = Some r /\ room_reports d' !! report_id = Some r'
                             /\ row_room r = room_id /\ closed_now now r r'
      else d' = d /\ forall r, room_reports d !! report_id = Some r -> row_room r = room_id -> row_status r <> ReportOpen
  | _, _ => True
  end.

(** The saved history and reports of every room stay within their
    limits and no open report is lost.  Whatever command is executed, a room
    keeps at most [MAX_MODERATION_EVENTS] entries and [MAX_REPORTS] reports,
    every report is closed with who closed it and when or not at all, and an
    open report stays as it is or is closed now with all it says.  A report is
    refused only when the room's reports are all open; a report is closed only
    when it is open in that room; a command that fails, other than retention,
    changes nothing. *)
Theorem saved_records_stay_bounded uuid_text now cmd d d' r :
  records_ok d -> execute uuid_text now cmd d = (d', r) -> records_ok d' /\ open_kept now d d' /\ answered now cmd r d d'.
Proof.
  assert (open_kept now d d) as Hrefl by (apply spares_open_kept; by intros id r0).
  intros Hok Hx. destruct cmd; cbn [execute] in Hx;
    [apply committed in Hx as [(x & Hm & ->)|[-> [e ->]]]; [|done]..|].
  - destruct x. apply sanctioned_records in Hm as [Hd Hok']; [by split; [|split; [apply decided_open|]]|intros; apply write_punitive_apart|done].
  - destruct x. apply sanctioned_records in Hm as [Hd Hok']; [by split; [|split; [apply decided_open|]]|intros; apply save_state_apart|done].
  - apply lift_user_ban_records in Hm as [Hd Hok']; [|done]. by split; [|split; [apply decided_open|]].
  - apply remove_ban_records in Hm as [Hd Hok']; [|done]. by split; [|split; [apply decided_open|]].
  - destruct x. apply record_event_records in Hm as [Hd Hok']; [|done]. by split; [|split; [apply decided_open|]].
  - pose proof (resolve_report_closes _ _ _ _ _ _ _ _ _ _ Hm Hok) as Ha. apply resolve_report_records in Hm as [Hd Hok']; [|done].
    by split; [|split; [apply decided_open|]].
  - apply file_report_records in Hm as (Hok' & Hs & Ha); [|done]. by split; [|split; [apply spares_open_kept|]].
  - destruct (batch_clocks b) as [t Ht]. destruct (retired_records _ _ _ _ (batch_retired b batch c t d Ht) Hok) as [Hok' Hs].
    unfold hbind, hret in Hx. destruct (retire_old_batch b batch c d) as [d1 [x|e]]; injection Hx as <- <-;
      by split; [|split; [apply spares_open_kept|]].
Qed.

Lemma new_records rooms accounts : records_ok (new_database rooms accounts).
Proof.
  split; [intros room_id; unfold events_in|intros room_id; unfold reports_in|by intros id r]; cbn; rewrite map_filter_empty, map_size_empty; lia.
Qed.

Lemma saved_records_stay_bounded_witness :
  records_ok lounge /\ exists d', execute (fun _ => "") 100 (SaveEvent "lounge" (ban_event 1)) lounge = (d', Ok Saved) /\ records_ok d'.
Proof.
  split; [apply new_records|]. destruct (execute (fun _ => "") 100 (SaveEvent "lounge" (ban_event 1)) lounge) as [d' r] eqn:Hx.
  destruct (saved_records_stay_bounded (fun _ => "") 100 (SaveEvent "lounge" (ban_event 1)) lounge d' r (new_records _ _) Hx) as [Hok _].
  exists d'. split; [|exact Hok]. apply (f_equal snd) in Hx. vm_compute in Hx. congruence.
Defined.
