(* ===== verification/Paging.v ===== *)
(** * Keyset pages

    Rows in a strict order, read page by page: a page starts after the key of
    the last row of the page before it.  Following the cursors reads every row
    once, in order. *)

From stdpp Require Import sorting.
From S2P Require Import Prelude.

Section keyset.
Context {R K : Type} (key : R -> K) (lt : K -> K -> Prop) `{!RelDecision lt} `{!StrictOrder lt} `{!Trichotomy lt}.

(** The rows after a cursor. *)
Definition seek (after : option K) (rows : list R) : list R :=
  match after with Some k => filter (fun r => lt k (key r)) rows | None => rows end.

Abbreviation ordered_rows := (StronglySorted (fun x y => lt (key x) (key y))).

Lemma seek_sorted after rows : ordered_rows rows -> ordered_rows (seek after rows).
Proof.
  destruct after as [k|]; [|done]. cbn. induction 1 as [|r rows Hs IH Hr]; [constructor|]. rewrite filter_cons.
  case_decide; [|done]. constructor; [done|]. apply Forall_forall. intros x [_ Hx]%list_elem_of_filter.
  rewrite Forall_forall in Hr. by apply Hr.
Qed.

Lemma sorted_app (l1 l2 : list R) : ordered_rows (l1 ++ l2) -> forall x y, x ∈ l1 -> y ∈ l2 -> lt (key x) (key y).
Proof.
  induction l1 as [|z l1 IH]; [by set_solver|]. cbn. intros Hs x y Hx Hy. apply StronglySorted_inv in Hs as [Hs Hz].
  apply elem_of_cons in Hx as [->|Hx]; [|by apply IH]. rewrite Forall_forall in Hz. apply Hz. set_solver.
Qed.

Lemma filter_all (P : R -> Prop) `{!forall x, Decision (P x)} rows : Forall P rows -> filter P rows = rows.
Proof. induction 1; [done|]. rewrite filter_cons_True by done. by f_equal. Qed.
Lemma filter_none (P : R -> Prop) `{!forall x, Decision (P x)} rows : Forall (fun r => ~ P r) rows -> filter P rows = [].
Proof. induction 1; [done|]. by rewrite filter_cons_False. Qed.

(** After the last row of a page come the rows the page left out. *)
Lemma seek_after_page after rows n r : ordered_rows rows -> last (take n (seek after rows)) = Some r ->
  seek (Some (key r)) rows = drop n (seek after rows).
Proof.
  intros Hs Hlast. pose proof (seek_sorted after rows Hs) as Hs'.
  assert (r ∈ take n (seek after rows)) as Hr by by apply last_Some_elem_of.
  assert (seek (Some (key r)) rows = filter (fun x => lt (key r) (key x)) (seek after rows)) as ->.
  { destruct after as [k|]; [|done]. cbn. rewrite list_filter_filter. apply list_filter_iff. intros x. split; [|by intros [? ?]].
    intros Hx. split; [done|]. etrans; [|exact Hx]. cbn in Hr. apply elem_of_take in Hr as (i & Hi & _).
    apply list_elem_of_lookup_2 in Hi. by apply list_elem_of_filter in Hi as [? _]. }
  set (s := seek after rows) in *. clearbody s. clear Hs rows after. rewrite <-(take_drop n s) at 1. rewrite filter_app.
  apply last_Some in Hlast as [front Hfront].
  assert (ordered_rows (front ++ [r] ++ drop n s)) as Hs2 by (rewrite app_assoc, <-Hfront, take_drop; done).
  rewrite Hfront, filter_app, (filter_none _ front), (filter_none _ [r]), (filter_all _ (drop n s)); [done|..].
  - apply Forall_forall. intros x Hx. rewrite app_assoc in Hs2. eapply (sorted_app _ _ Hs2); set_solver.
  - apply Forall_singleton. apply irreflexivity. apply _.
  - apply Forall_forall. intros x Hx Hlt. assert (lt (key x) (key r)) as Hgt by (eapply (sorted_app _ _ Hs2); set_solver).
    apply (irreflexivity lt (key r)). by etrans.
Qed.

(** A page with the cursor of the next, when there is one. *)
Definition page_after (n : nat) (after : option K) (rows : list R) : list R * option K :=
  let found := take (S n) (seek after rows) in
  let shown := take n found in
  (shown, if (n <? length found)%nat then key <$> last shown else None).

Fixpoint follow (fuel : nat) (n : nat) (after : option K) (rows : list R) : list R :=
  match fuel with
  | O => []
  | S fuel => let '(shown, next) := page_after n after rows in
              shown ++ match next with Some k => follow fuel n (Some k) rows | None => [] end
  end.

Lemma follow_reads_all fuel n after rows : ordered_rows rows -> (0 < n)%nat -> (length (seek after rows) < fuel)%nat ->
  follow fuel n after rows = seek after rows.
Proof.
  intros Hs Hn. revert after. induction fuel as [|fuel IH]; intros after Hfuel; [lia|]. cbn [follow]. unfold page_after.
  rewrite take_take, Nat.min_l by lia. rewrite length_take. destruct (n <? _)%nat eqn:Hmore.
  - apply Nat.ltb_lt in Hmore. destruct (last (take n (seek after rows))) as [r|] eqn:Hlast; cbn [fmap option_fmap option_map].
    + pose proof (seek_after_page _ _ _ _ Hs Hlast) as Hnext. rewrite IH; rewrite Hnext; [apply take_drop|]. rewrite length_drop. lia.
    + apply last_None in Hlast. apply (f_equal length) in Hlast. rewrite length_take in Hlast. cbn in Hlast. lia.
  - apply Nat.ltb_ge in Hmore. rewrite app_nil_r. apply take_ge. lia.
Qed.

(** [ORDER BY key]. *)
Definition sort_rows (rows : list R) : list R := merge_sort (fun x y => ~ lt (key y) (key x)) rows.

#[local] Instance not_after_trans : Transitive (fun x y => ~ lt (key y) (key x)).
Proof.
  intros x y z Hxy Hyz Hzx. destruct (trichotomy lt (key x) (key y)) as [Hl|[He|Hg]]; [|congruence|done]. apply Hyz. by etrans.
Qed.
#[local] Instance not_after_total : Total (fun x y => ~ lt (key y) (key x)).
Proof.
  intros x y. destruct (trichotomy lt (key x) (key y)) as [Hl|[He|Hg]]; [left|left|right]; intros Hb.
  - apply (irreflexivity lt (key x)). by etrans.
  - rewrite He in Hb. by apply (irreflexivity lt (key y)).
  - apply (irreflexivity lt (key x)). by etrans.
Qed.

Lemma sort_rows_permutation rows : sort_rows rows ≡ₚ rows.
Proof. apply merge_sort_Permutation. Qed.

Lemma sort_rows_ordered rows : NoDup (key <$> rows) -> ordered_rows (sort_rows rows).
Proof.
  intros Hnd. assert (NoDup (key <$> sort_rows rows)) as Hnd' by by rewrite sort_rows_permutation.
  assert (StronglySorted (fun x y => ~ lt (key y) (key x)) (sort_rows rows)) as Hs.
  { apply (StronglySorted_merge_sort _). }
  revert Hnd'. generalize (sort_rows rows) Hs. clear Hnd Hs rows. induction 1 as [|r rows Hs IH Hr]; intros Hnd; [constructor|]. cbn in Hnd.
  apply NoDup_cons in Hnd as [Hnew Hnd]. constructor; [by apply IH|]. rewrite Forall_forall in Hr |- *. intros x Hx.
  destruct (trichotomy lt (key r) (key x)) as [Hl|[He|Hg]]; [done| |by destruct (Hr x Hx)].
  destruct Hnew. rewrite He. apply list_elem_of_fmap. eauto.
Qed.

(** There is one way to order rows with distinct keys. *)
Lemma ordered_keys rows : ordered_rows rows -> NoDup (key <$> rows).
Proof.
  induction 1 as [|r rows Hs IH Hr]; [by constructor|]. cbn. constructor; [|done]. intros (x & Hx & Hin)%list_elem_of_fmap.
  rewrite Forall_forall in Hr. specialize (Hr x Hin). rewrite Hx in Hr. by apply (irreflexivity lt (key x)).
Qed.
Lemma ordered_unique l l' : ordered_rows l -> ordered_rows l' -> l ≡ₚ l' -> l = l'.
Proof.
  intros Hl Hl'. apply StronglySorted_unique_strong with (fun x y => lt (key x) (key y)); [|done..].
  intros x y _ _ Hxy Hyx. exfalso. apply (irreflexivity lt (key x)). by etrans.
Qed.
Lemma sort_rows_unique l rows : ordered_rows l -> rows ≡ₚ l -> sort_rows rows = l.
Proof.
  intros Hl Hp. apply ordered_unique; [|done|by rewrite sort_rows_permutation]. apply sort_rows_ordered. rewrite Hp. by apply ordered_keys.
Qed.

Lemma ordered_app l1 l2 : ordered_rows (l1 ++ l2) -> ordered_rows l1 /\ ordered_rows l2.
Proof.
  induction l1 as [|x l1 IH]; cbn; [split; [constructor|done]|]. intros [Hs Hx]%StronglySorted_inv. destruct (IH Hs) as [H1 H2]. split; [|done].
  constructor; [done|]. apply Forall_app in Hx as [? _]. done.
Qed.

(** A condition that holds up to some row splits the rows there. *)
Lemma ordered_split (P : R -> Prop) `{!forall x, Decision (P x)} rows : ordered_rows rows ->
  (forall x y, lt (key x) (key y) -> P y -> P x) -> rows = filter P rows ++ filter (fun x => ~ P x) rows.
Proof.
  intros Hs HP. induction Hs as [|r rows Hs IH Hr]; [done|]. rewrite !filter_cons. destruct (decide (P r)) as [Hp|Hn].
  - rewrite (decide_False (P := ~ P r)) by (by intros ?). cbn. by f_equal.
  - rewrite (decide_True (P := ~ P r)) by done. rewrite Forall_forall in Hr.
    assert (Forall (fun x => ~ P x) rows) as Hno by (apply Forall_forall; intros x Hx Hpx; apply Hn; by eapply HP, Hpx; apply Hr).
    by rewrite (filter_none P rows), (filter_all _ rows).
Qed.
End keyset.

(** The same rows in the opposite order. *)
Section opposite.
Context {R K : Type} (key : R -> K) (lt : K -> K -> Prop) `{!RelDecision lt} `{!StrictOrder lt} `{!Trichotomy lt}.

#[local] Instance flip_trichotomy : Trichotomy (flip lt).
Proof. intros x y. unfold flip. destruct (trichotomy lt x y) as [?|[?|?]]; auto. Qed.

Lemma ordered_reverse rows : StronglySorted (fun x y => lt (key x) (key y)) rows ->
  StronglySorted (fun x y => flip lt (key x) (key y)) (reverse rows).
Proof.
  induction 1 as [|r rows Hs IH Hr]; [constructor|]. rewrite reverse_cons. revert IH. rewrite <-(Forall_reverse _ rows) in Hr.
  induction (reverse rows) as [|x l IHl]; intros Hl; [by repeat constructor|]. apply StronglySorted_inv in Hl as [Hl Hx].
  inversion_clear Hr as [|?? Hrx Hrl]. constructor; [by apply IHl|]. apply Forall_app. split; [done|]. by constructor.
Qed.

Lemma sort_rows_flip rows : NoDup (key <$> rows) -> sort_rows key (flip lt) rows = reverse (sort_rows key lt rows).
Proof.
  intros Hnd. apply (sort_rows_unique key (flip lt)); [by apply ordered_reverse, sort_rows_ordered|].
  by rewrite reverse_Permutation, sort_rows_permutation.
Qed.
End opposite.
