(* ===== verification/Invites.v ===== *)
(** * Invitations ([src/src/invite_codes.rs], [room/invites.rs], [auth/invites.rs])

    A code that grants a role in a room, or that opens registration once.  The
    statements of the code are executed on the tables: invitations by the
    digest of their code, receipts of redemptions, saved rooms and roles.  A
    transaction holds the locks it needs from its first statement on, so it is
    one step here. *)

From S2P Require Import Prelude Paging Refusal Roles Tickets.

Local Open Scope handler_scope.

(** ** Codes *)

Definition CODE_LEN : nat := 32.
Definition ALPHABET : text := text_of "abcdefghjkmnpqrstuvwxyz023456789".

(** [bytes] are those of the system's generator. *)
Definition generate (bytes : list N) : text := (fun byte => nth (N.to_nat (N.land byte 31)) ALPHABET 0%N) <$> bytes.

Definition is_valid (code : text) : bool :=
  (text_len code =? N.of_nat CODE_LEN)%N && forallb (fun c => bool_decide (c ∈ ALPHABET)) code.

Definition to_ascii_lowercase (t : text) : text := (fun c => if in_range 65 90 c then (c + 32)%N else c) <$> t.
Definition normalize (code : text) : option text :=
  let code := to_ascii_lowercase (trim code) in if is_valid code then Some code else None.

(** ** Tables *)

(** [invites_kind_fields]: a room code has a room and a role, a registration
    code neither. *)
Inductive invite_kind := RegistrationCode | RoomCode (room_id : string) (granting : role).
#[export] Instance invite_kind_eq_dec : EqDecision invite_kind.
Proof. solve_decision. Defined.

Record invite_row := InviteRow {
  invite_id : N; invite_kind_of : invite_kind; created_by : N; uses_left : Z; expires_at : N; created_at : N }.
#[export] Instance eta_invite_row : Eta invite_row := fun i =>
  InviteRow (invite_id i) (invite_kind_of i) (created_by i) (uses_left i) (expires_at i) (created_at i).

Record saved_room := SavedRoom { owner_id : N; saved_name : text }.

Record invite_db := InviteDb {
  db_rooms : gmap string saved_room;
  (** Accounts with their email. *)
  db_accounts : gmap N text;
  db_roles : gmap (string * N) role_row;
  (** By the digest of the code. *)
  db_invites : gmap string invite_row;
  (** By the digest and the account. *)
  db_receipts : gmap (string * N) role;
  (** [gen_random_uuid]. *)
  db_next : N
}.
#[export] Instance eta_invite_db : Eta invite_db := fun d =>
  InviteDb (db_rooms d) (db_accounts d) (db_roles d) (db_invites d) (db_receipts d) (db_next d).

Abbreviation query A := (handler sqlx_error invite_db A).

(** [make_interval(days => d)], in seconds. *)
Definition days (n : N) : N := (n * 86400)%N.

Definition MAX_LIVE_ROOM_INVITES : nat := 20.
Definition MAX_INVITE_USES : Z := 100.
Definition MAX_INVITE_DAYS : Z := 30.
Definition DEFAULT_INVITE_DAYS : Z := 7.
Definition MEMBERSHIP_PAGE_SIZE : nat := 100.
Definition INVITE_RECEIPT_RETENTION : N := 7.
Definition MAX_LIVE_REGISTRATION_INVITES : nat := 5.
Definition REGISTRATION_INVITE_DAYS : N := 7.

(** [issuer_still_authorized!]. *)
Definition issuer_still_authorized (d : invite_db) (i : invite_row) : bool :=
  match invite_kind_of i with
  | RegistrationCode => false
  | RoomCode room_id granting =>
      bool_decide (owner_id <$> db_rooms d !! room_id = Some (created_by i))
      || match db_roles d !! (room_id, created_by i) with
         | Some row => (4 <=? role_number (row_role row))%N && role_gt (row_role row) granting
         | None => false
         end
  end.

Definition usable (now : N) (i : invite_row) : bool := (0 <? uses_left i)%Z && (now <? expires_at i)%N.

Definition of_room (room_id : string) (i : invite_row) : bool :=
  match invite_kind_of i with RoomCode room_id' _ => bool_decide (room_id' = room_id) | RegistrationCode => false end.

(** The columns of the table are checked, its key is unique, what a row refers to exists. *)
Definition insert_invite (hash : string) (kind : invite_kind) (by_ : N) (uses : Z) (expires now : N) : query invite_row :=
  let! d := hget in
  ensure ((0 <=? uses)%Z && match kind with RoomCode _ granting => is_stored granting | RegistrationCode => true end)
    (SqlDatabase (Some "23514")) ;;
  ensure (bool_decide (db_invites d !! hash = None)) (SqlDatabase (Some "23505")) ;;
  ensure (bool_decide (is_Some (db_accounts d !! by_))
          && match kind with RoomCode room_id _ => bool_decide (is_Some (db_rooms d !! room_id)) | RegistrationCode => true end)
    (SqlDatabase (Some "23503")) ;;
  let row := InviteRow (db_next d) kind by_ uses expires now in
  hmodify (fun d => d <| db_invites ::= <[hash := row]> |> <| db_next ::= N.succ |>) ;;
  hret row.

(** Invitations go with their receipts; the number of invitations removed. *)
Definition delete_invites (P : invite_row -> bool) : query nat := fun d =>
  let kept := filter (fun x : string * invite_row => P x.2 = false) (db_invites d) in
  (d <| db_invites := kept |>
     <| db_receipts ::= filter (fun x : (string * N) * role => is_Some (kept !! x.1.1)) |>,
   Ok (size (db_invites d) - size kept)%nat).

(** ** Room invitations *)

Definition live_room_invites (room_id : string) (now : N) (d : invite_db) : gmap string invite_row :=
  filter (fun x : string * invite_row => of_room room_id x.2 && usable now x.2 && issuer_still_authorized d x.2 = true) (db_invites d).

Definition create_room_invite (hash : string) (room_id : string) (granting : role) (uses : Z) (valid_days : N) (by_ now : N)
  : query (option invite_row) :=
  let! d := hget in
  if (MAX_LIVE_ROOM_INVITES <=? size (live_room_invites room_id now d))%nat then hret None
  else let! row := insert_invite hash (RoomCode room_id granting) by_ uses (now + days valid_days) now in hret (Some row).

Definition newest_first (x y : invite_row) : Prop :=
  (created_at y < created_at x)%N \/ (created_at x = created_at y /\ (invite_id x <= invite_id y)%N).
#[export] Instance newest_first_dec x y : Decision (newest_first x y).
Proof. unfold newest_first. apply _. Defined.

Definition list_room_invites (room_id : string) (now : N) (d : invite_db) : list invite_row :=
  merge_sort newest_first (map_to_list (live_room_invites room_id now d)).*2.

Definition revoke_issued_invites (by_ : N) : query nat := delete_invites (fun i => (created_by i =? by_)%N).

Definition revoke_room_invite (room_id : string) (id : N) : query bool :=
  let! n := delete_invites (fun i => of_room room_id i && (invite_id i =? id)%N) in hret (0 <? n)%nat.

(** [GREATEST]: the higher role, with who granted it. *)
Definition raise_role (granting : role) (by_ : N) (row : role_row) : role_row :=
  if role_gt granting (row_role row) then RoleRow granting by_ else row.

Definition grant_membership (room_id : string) (user : N) (granting : role) (by_ : N) : query role :=
  let! d := hget in
  ensure (bool_decide (is_Some (db_accounts d !! user))) (SqlDatabase (Some "23503")) ;;
  let row := match db_roles d !! (room_id, user) with Some row => raise_role granting by_ row | None => RoleRow granting by_ end in
  hmodify (fun d => d <| db_roles ::= <[(room_id, user) := row]> |>) ;;
  hret (row_role row).

Definition spend_use (hash : string) (i : invite_row) : query unit :=
  ensure (0 <=? uses_left i - 1)%Z (SqlDatabase (Some "23514")) ;;
  hmodify (fun d => d <| db_invites ::= <[hash := i <| uses_left := (uses_left i - 1)%Z |>]> |>).

Definition insert_receipt (hash : string) (user : N) (granted : role) : query unit :=
  let! d := hget in
  ensure (bool_decide (db_receipts d !! (hash, user) = None)) (SqlDatabase (Some "23505")) ;;
  ensure (bool_decide (is_Some (db_accounts d !! user))) (SqlDatabase (Some "23503")) ;;
  hmodify (fun d => d <| db_receipts ::= <[(hash, user) := granted]> |>).

(** The issuer's current role, as [redeem_room_invite] reads it. *)
Definition issuer_role (d : invite_db) (room_id : string) (owner by_ : N) : role :=
  if (by_ =? owner)%N then Owner else default User (row_role <$> db_roles d !! (room_id, by_)).

Definition spend_invite (hash : string) (i : invite_row) (room_id : string) (room : saved_room) (granting : role) (user : N)
  : query (option (string * text * role)) :=
  let! granted := (if (owner_id room =? user)%N then hret Owner else grant_membership room_id user granting (created_by i)) in
  spend_use hash i ;;
  insert_receipt hash user granted ;;
  hret (Some (room_id, saved_name room, granted)).

Definition redeem_locked (hash : string) (user now : N) : query (option (string * text * role)) :=
  let! d := hget in
  match db_invites d !! hash with
  | None => hret None
  | Some i =>
      match invite_kind_of i with
      | RegistrationCode => hret None
      | RoomCode room_id granting =>
          if (expires_at i + days INVITE_RECEIPT_RETENTION <=? now)%N then hret None
          else match db_rooms d !! room_id with
               | None => hret None
               | Some room =>
                   match db_receipts d !! (hash, user) with
                   | Some granted => hret (Some (room_id, saved_name room, granted))
                   | None =>
                       let issuer := issuer_role d room_id (owner_id room) (created_by i) in
                       if (expires_at i <=? now)%N || (uses_left i =? 0)%Z then hret None
                       else if negb (role_ge issuer Admin) || role_ge granting issuer then hret None
                       else spend_invite hash i room_id room granting user
                   end
               end
      end
  end.

Definition redeem_room_invite (hash : string) (user now : N) : query (option (string * text * role)) :=
  transaction (redeem_locked hash user now).

Definition preview_room_invite (hash : string) (user now : N) (d : invite_db) : option (string * text * role) :=
  match db_invites d !! hash with
  | Some i =>
      match invite_kind_of i with
      | RoomCode room_id granting =>
          match db_rooms d !! room_id with
          | Some room =>
              if (usable now i && issuer_still_authorized d i)
                 || (bool_decide (is_Some (db_receipts d !! (hash, user))) && (now <? expires_at i + days INVITE_RECEIPT_RETENTION)%N)
              then Some (room_id, saved_name room, granting) else None
          | None => None
          end
      | RegistrationCode => None
      end
  | None => None
  end.

(** ** Memberships *)

(** The order of room identifiers in the database. *)
Class Collation := {
  collate : string -> string -> Prop;
  collate_dec :: RelDecision collate;
  collate_strict :: StrictOrder collate;
  collate_total :: Trichotomy collate
}.

Record membership := Membership { member_room : string; member_room_name : text; member_role : role }.

(** The rooms where the account has a role and which it does not own. *)
Definition memberships_of (user : N) (d : invite_db) : list membership :=
  omap (fun x : (string * N) * role_row =>
          if bool_decide (x.1.2 = user)
          then match db_rooms d !! x.1.1 with
               | Some room => if bool_decide (owner_id room = user) then None
                              else Some (Membership x.1.1 (saved_name room) (row_role x.2))
               | None => None
               end
          else None)
       (map_to_list (db_roles d)).

Definition memberships `{Collation} (user : N) (after : option string) (d : invite_db) : list membership * option string :=
  page_after member_room collate MEMBERSHIP_PAGE_SIZE after (sort_rows member_room collate (memberships_of user d)).

(** ** Registration codes *)

Definition of_account (by_ : N) (i : invite_row) : bool :=
  bool_decide (invite_kind_of i = RegistrationCode) && (created_by i =? by_)%N.

Definition live_registration_invites (by_ now : N) (d : invite_db) : gmap string invite_row :=
  filter (fun x : string * invite_row => of_account by_ x.2 && usable now x.2 = true) (db_invites d).
Definition live_invites (by_ now : N) (d : invite_db) : list invite_row :=
  merge_sort newest_first (map_to_list (live_registration_invites by_ now d)).*2.

Definition consume_registration_invite (hash : string) (now : N) : query (option N) :=
  let! d := hget in
  match db_invites d !! hash with
  | Some i =>
      if bool_decide (invite_kind_of i = RegistrationCode) && usable now i
      then spend_use hash i ;; hret (Some (created_by i))
      else hret None
  | None => hret None
  end.

(** A query inside a handler with errors of its own. *)
Definition ask {A} (m : query A) : handler auth_error invite_db A := map_error database_error m.

Definition mint_registration (hash : string) (user now : N) : handler auth_error invite_db invite_row :=
  let! d := hget in
  ensure (negb (MAX_LIVE_REGISTRATION_INVITES <=? size (live_registration_invites user now d))%nat)
    (InvalidInput "You already hold five unused invite codes") ;;
  ask (insert_invite hash RegistrationCode user 1 (now + days REGISTRATION_INVITE_DAYS) now).
Definition revoke_registration (user id : N) : handler auth_error invite_db unit :=
  let! n := ask (delete_invites (fun i => of_account user i && (invite_id i =? id)%N)) in
  ensure (0 <? n)%nat InviteNotFound.

(** [register] from the transaction to the row of the account; the email was
    canonicalised before.  [code] is the digest of the code that was offered. *)
Definition enforce_user_capacity (max_users : nat) : handler auth_error invite_db unit :=
  let! d := hget in ensure (negb (max_users <=? Nat.min max_users (size (db_accounts d)))%nat) RegistrationDisabled.

Definition insert_user (email : text) : handler auth_error invite_db N :=
  let! d := hget in
  ensure (negb (bool_decide (map_Exists (fun _ e => e = email) (db_accounts d)))) EmailAlreadyExists ;;
  hmodify (fun d => d <| db_accounts ::= <[db_next d := email]> |> <| db_next ::= N.succ |>) ;;
  hret (db_next d).

Definition register_account (max_users : nat) (email : text) (code : option string) (now : N)
  : handler auth_error invite_db (N * option N) :=
  transaction
    (enforce_user_capacity max_users ;;
     let! invited_by := match code with
                        | Some hash =>
                            let! inviter := ask (consume_registration_invite hash now) in
                            match inviter with
                            | Some inviter => hret (Some inviter)
                            | None => bail (InvalidInput "This invite code is invalid, used up or expired")
                            end
                        | None => hret None
                        end in
     let! user := insert_user email in
     hret (user, invited_by)).

(** ** Requests *)

(** The responses other than success: a status with its text, or that of an
    account error or a database error. *)
Inductive api_error := Status (code : N) (message : string) | AccountFailure (e : auth_error) | DatabaseFailure (e : sqlx_error).

(** What the server found out before the handler: a request permit, the
    account of the caller. *)
Record api_request := ApiRequest { permit : bool; caller_of : result auth_error N }.

Definition acquire_room_api_request (q : api_request) : handler api_error invite_db unit := ensure (permit q) (Status 503 "Service busy").
Definition caller (q : api_request) : handler api_error invite_db N :=
  match caller_of q with Ok user => hret user | Err e => bail (AccountFailure e) end.
Definition ask_room {A} (m : query A) : handler api_error invite_db A := map_error DatabaseFailure m.

Definition room_role (room_id : string) (user : N) : handler api_error invite_db role :=
  let! d := hget in
  match db_rooms d !! room_id with
  | None => bail (Status 404 "Room not found")
  | Some room => hret (resolve_role (db_roles d) room_id (Some user) (owner_id room) true)
  end.

Record create_invite_request := CreateInviteRequest { request_role : role; request_uses : option Z; request_days : option Z }.

Definition between (lo hi x : Z) : bool := (lo <=? x)%Z && (x <=? hi)%Z.

Section requests.
(** SHA-256 of a code, and the shape of a room identifier. *)
Context (digest : text -> string) (valid_room_id : string -> bool).

Definition list_invites (q : api_request) (room_id : string) (now : N) : handler api_error invite_db (list invite_row) :=
  acquire_room_api_request q ;;
  let! user := caller q in
  ensure (valid_room_id room_id) (Status 404 "Room not found") ;;
  let! standing := room_role room_id user in
  ensure (role_ge standing Admin) (Status 403 "Only room admins manage invitations") ;;
  let! d := hget in
  hret (list_room_invites room_id now d).

(** [bytes] as the generator gives them; the code is returned once. *)
Definition create_invite (q : api_request) (room_id : string) (request : create_invite_request) (bytes : list N) (now : N)
  : handler api_error invite_db (invite_row * text) :=
  acquire_room_api_request q ;;
  let! user := caller q in
  let granting := request_role request in
  ensure (is_stored granting) (Status 400 "An invitation grants member, moderator or admin") ;;
  let uses := default 1%Z (request_uses request) in
  let valid := default DEFAULT_INVITE_DAYS (request_days request) in
  ensure (between 1 MAX_INVITE_USES uses && between 1 MAX_INVITE_DAYS valid) (Status 400 "Uses must be 1–100 and validity 1–30 days") ;;
  ensure (valid_room_id room_id) (Status 404 "Room not found") ;;
  let! standing := room_role room_id user in
  ensure (role_ge standing Admin && can_set_role standing User granting)
    (Status 403 "Only room admins invite, and only to roles below their own") ;;
  let code := generate bytes in
  let! invite := ask_room (create_room_invite (digest code) room_id granting uses (Z.to_N valid) user now) in
  match invite with
  | Some row => hret (row, code)
  | None => bail (Status 409 "This room already has 20 unused invitations")
  end.

Definition revoke_invite (q : api_request) (room_id : string) (id : N) : handler api_error invite_db unit :=
  acquire_room_api_request q ;;
  let! user := caller q in
  ensure (valid_room_id room_id) (Status 404 "Room not found") ;;
  let! standing := room_role room_id user in
  ensure (role_ge standing Admin) (Status 403 "Only room admins manage invitations") ;;
  let! removed := ask_room (revoke_room_invite room_id id) in
  ensure removed (Status 404 "Invite not found").

Definition redeem_invite (q : api_request) (code : text) (now : N) : handler api_error invite_db (string * text * role) :=
  acquire_room_api_request q ;;
  let! user := caller q in
  match normalize code with
  | None => bail (Status 400 "Invalid invite code")
  | Some code =>
      let! redeemed := ask_room (redeem_room_invite (digest code) user now) in
      match redeemed with
      | Some result => hret result
      | None => bail (Status 404 "This invitation is invalid, used up or expired")
      end
  end.

Definition list_memberships `{Collation} (q : api_request) (after : option string) : handler api_error invite_db (list membership * option string) :=
  acquire_room_api_request q ;;
  let! user := caller q in
  ensure (match after with Some cursor => valid_room_id cursor | None => true end) (Status 400 "Invalid membership cursor") ;;
  let! d := hget in
  hret (memberships user after d).

Definition preview_invite (q : api_request) (code : text) (now : N) : handler api_error invite_db (string * text * role) :=
  acquire_room_api_request q ;;
  let! user := caller q in
  match normalize code with
  | None => bail (Status 400 "Invalid invite code")
  | Some code =>
      let! d := hget in
      match preview_room_invite (digest code) user now d with
      | Some result => hret result
      | None => bail (Status 404 "This invitation is invalid, used up or expired")
      end
  end.
End requests.
