(* ===== verification/InviteSafety.v ===== *)
(** * What invitations promise

    Codes are read back as they were issued; an invitation lets in as many
    accounts as it has uses, each once; redeeming it grants what its issuer may
    still grant and takes nothing away; a preview shows what can be redeemed. *)

From stdpp Require Import sorting pretty.
From S2P Require Import Prelude Paging Refusal Roles Tickets Invites.

Local Open Scope handler_scope.

(** ** Codes *)

Lemma alphabet_valid : forallb (fun c => (len_utf8 c =? 1)%N && negb (is_whitespace c) && negb (in_range 65 90 c)) ALPHABET = true.
Proof. reflexivity. Qed.

Lemma generate_alphabet bytes : Forall (fun c => c ∈ ALPHABET) (generate bytes).
Proof.
  apply Forall_fmap, Forall_forall. intros byte _. change (nth (N.to_nat (N.land byte 31)) ALPHABET 0%N ∈ ALPHABET). apply list_elem_of_In, nth_In.
  enough (N.land byte 31 < 32)%N by (change (length ALPHABET) with 32%nat; lia).
  change 31%N with (N.ones 5). rewrite N.land_ones. apply N.mod_lt. done.
Qed.

Lemma trim_start_none t : Forall (fun c => is_whitespace c = false) t -> trim_start t = t.
Proof. intros Ht. destruct Ht as [|c t Hc _]; [done|]. cbn. by rewrite Hc. Qed.
Lemma trim_start_spaces l t : Forall (fun c => is_whitespace c = true) l -> trim_start (l ++ t) = trim_start t.
Proof. induction 1 as [|c l Hc _ IH]; [done|]. cbn. by rewrite Hc. Qed.

Lemma trim_between l t r : Forall (fun c => is_whitespace c = true) l -> Forall (fun c => is_whitespace c = true) r ->
  Forall (fun c => is_whitespace c = false) t -> trim (l ++ t ++ r) = t.
Proof.
  intros Hl Hr Ht. unfold trim. rewrite trim_start_spaces by done. unfold trim_end.
  destruct t as [|c t]; cbn [app].
  - rewrite <-(app_nil_r r) at 1. rewrite trim_start_spaces by done. done.
  - cbn [trim_start]. rewrite (Forall_inv Ht), app_comm_cons, reverse_app, trim_start_spaces by by apply Forall_reverse.
    rewrite trim_start_none by by apply Forall_reverse. apply reverse_involutive.
Qed.

(** A code as someone types it: some letters in upper case, blanks around. *)
Definition typed_as (code typed : text) : Prop :=
  exists l t r, typed = l ++ t ++ r /\ Forall (fun c => is_whitespace c = true) l /\ Forall (fun c => is_whitespace c = true) r
    /\ Forall2 (fun c c' => c' = c \/ (in_range 97 122 c = true /\ c' = c - 32)%N) code t.

Lemma lower_typed c c' : c ∈ ALPHABET -> c' = c \/ (in_range 97 122 c = true /\ c' = c - 32)%N ->
  (if in_range 65 90 c' then (c' + 32)%N else c') = c /\ is_whitespace c' = false.
Proof.
  intros Hc. assert (forallb (fun c => forallb (fun c' => bool_decide ((if in_range 65 90 c' then (c' + 32)%N else c') = c) && negb (is_whitespace c'))
    (c :: if in_range 97 122 c then [(c - 32)%N] else [])) ALPHABET = true) as Hall by reflexivity.
  rewrite forallb_forall in Hall. apply list_elem_of_In, Hall in Hc. rewrite forallb_forall in Hc. intros Hc'.
  assert (In c' (c :: if in_range 97 122 c then [(c - 32)%N] else [])) as Hin by (destruct Hc' as [->|[-> ->]]; cbn; auto).
  apply Hc, andb_true_iff in Hin as [H1%bool_decide_eq_true H2%negb_true_iff]. done.
Qed.

Lemma valid_code code : length code = CODE_LEN -> Forall (fun c => c ∈ ALPHABET) code -> is_valid code = true.
Proof.
  intros Hlen Hc. unfold is_valid. apply andb_true_iff. split.
  - apply N.eqb_eq. rewrite <-Hlen. clear Hlen. induction Hc as [|c code Hc _ IH]; [done|].
    pose proof alphabet_valid as Ha. rewrite forallb_forall in Ha. apply list_elem_of_In, Ha in Hc. bool_hyps.
    cbn [text_len foldr length] in *. unfold text_len in IH. rewrite IH. lia.
  - apply forallb_forall. intros c Hin%list_elem_of_In. rewrite Forall_forall in Hc. by apply bool_decide_eq_true, Hc.
Qed.

(** Every code the server issues is read back from what someone types for it,
    whatever the case of its letters and the blanks around it. *)
Theorem issued_codes_are_read_back bytes typed :
  length bytes = CODE_LEN -> typed_as (generate bytes) typed -> normalize typed = Some (generate bytes).
Proof.
  intros Hlen (l & t & r & -> & Hl & Hr & Ht). pose proof (generate_alphabet bytes) as Ha. unfold normalize.
  assert (to_ascii_lowercase t = generate bytes /\ Forall (fun c => is_whitespace c = false) t) as [Hlow Hblank].
  { clear Hlen. revert Ha. induction Ht as [|c c' code t Hc _ IH]; intros Ha; [done|]. inversion_clear Ha as [|?? Hin Ha'].
    destruct (IH Ha') as [<- Hb]. destruct (lower_typed _ _ Hin Hc) as [Hc1 Hc2]. unfold to_ascii_lowercase. cbn. rewrite Hc1.
    split; [done|by constructor]. }
  rewrite trim_between, Hlow, valid_code; [done|unfold generate; by rewrite length_fmap|done..].
Qed.

(** ** The tables *)

Record db_ok (d : invite_db) : Prop := {
  ok_uses : forall hash i, db_invites d !! hash = Some i -> (0 <= uses_left i)%Z;
  ok_issued : forall hash i, db_invites d !! hash = Some i -> (invite_id i < db_next d)%N;
  ok_kinds : forall hash i room_id granting, db_invites d !! hash = Some i -> invite_kind_of i = RoomCode room_id granting ->
    is_stored granting = true /\ is_Some (db_rooms d !! room_id);
  ok_receipts : forall hash user r, db_receipts d !! (hash, user) = Some r ->
    is_Some (db_invites d !! hash) /\ is_Some (db_accounts d !! user);
  ok_roles : forall room_id user row, db_roles d !! (room_id, user) = Some row ->
    is_stored (row_role row) = true /\ is_Some (db_rooms d !! room_id) /\ is_Some (db_accounts d !! user);
  ok_accounts : forall user email, db_accounts d !! user = Some email -> (user < db_next d)%N
}.

Lemma insert_invite_ok hash kind by_ uses expires now d d' row :
  insert_invite hash kind by_ uses expires now d = (d', Ok row) -> db_ok d ->
  db_ok d' /\ db_invites d !! hash = None /\ row = InviteRow (db_next d) kind by_ uses expires now
  /\ d' = d <| db_invites ::= <[hash := row]> |> <| db_next ::= N.succ |>.
Proof.
  intros Hx [U I K R O A]. unfold insert_invite, hbind, hget, hmodify, hret, ensure, bail in Hx.
  destruct (_ && _) eqn:Hcheck in Hx; [|done]. case_bool_decide as Hnew; [|done]. destruct (_ && _) eqn:Hfk in Hx; [|done].
  apply andb_true_iff in Hcheck as [Hu%Z.leb_le Hst], Hfk as [_ Hroom]. injection Hx as <- <-.
  split; [split; cbn|done].
  - intros h i [[_ <-]|[_ ?]]%lookup_insert_Some; eauto.
  - intros h i [[_ <-]|[_ Hi%I]]%lookup_insert_Some; cbn; lia.
  - intros h i room_id granting [[_ <-]|[_ ?]]%lookup_insert_Some; cbn; [|eauto]. intros ->. by apply bool_decide_eq_true in Hroom.
  - intros h u r Hr. destruct (R h u r Hr) as [Hi Hu']. split; [|done]. apply lookup_insert_is_Some. destruct (decide (hash = h)); auto.
  - eauto.
  - intros u e Hu'%A. lia.
Qed.

Lemma delete_invites_ok P d d' n : delete_invites P d = (d', Ok n) -> db_ok d ->
  db_ok d' /\ db_rooms d' = db_rooms d /\ db_roles d' = db_roles d /\ db_accounts d' = db_accounts d /\ db_next d' = db_next d
  /\ (forall hash, db_invites d' !! hash = match db_invites d !! hash with Some i => if P i then None else Some i | None => None end)
  /\ (forall hash user, is_Some (db_invites d' !! hash) -> db_receipts d' !! (hash, user) = db_receipts d !! (hash, user)).
Proof.
  intros [= <- <-] [U I K R O A]. split; [split; cbn|split_and!; try done; cbn].
  - intros hash i [Hi _]%map_lookup_filter_Some. eauto.
  - intros hash i [Hi _]%map_lookup_filter_Some. eauto.
  - intros hash i room_id granting [Hi _]%map_lookup_filter_Some. eauto.
  - intros hash user r [Hr Hs]%map_lookup_filter_Some. split; [done|]. by eapply R.
  - eauto.
  - eauto.
  - intros hash. rewrite map_lookup_filter. destruct (db_invites d !! hash) as [i|]; [|done]. cbn. destruct (P i) eqn:HP; [by rewrite option_guard_False|by rewrite option_guard_True].
  - intros hash user Hs. rewrite map_lookup_filter. destruct (db_receipts d !! (hash, user)) as [r|]; [|done]. cbn. by rewrite option_guard_True.
Qed.

(** ** Redemption *)

Definition role_max (a b : role) : role := if role_gt b a then b else a.

(** An account's role in a saved room. *)
Definition standing (d : invite_db) (room_id : string) (user : N) : option role :=
  (fun room => resolve_role (db_roles d) room_id (Some user) (owner_id room) true) <$> db_rooms d !! room_id.

(** [user] is let in for the first time: a use is spent, a receipt kept, and
    the account stands at least as high as before; nobody else is touched. *)
Record let_in (hash : string) (user now : N) (d d' : invite_db) (i : invite_row) (room_id : string) (granting granted : role) : Prop := {
  let_usable : usable now i = true;
  let_issuer : issuer_still_authorized d i = true;
  let_new : db_receipts d !! (hash, user) = None;
  let_role : exists before, standing d room_id user = Some before /\ granted = role_max before granting;
  let_standing : forall room' user', standing d' room' user'
    = if decide ((room', user') = (room_id, user)) then Some granted else standing d room' user';
  let_uses : db_invites d' = <[hash := i <| uses_left := (uses_left i - 1)%Z |>]> (db_invites d);
  let_receipt : db_receipts d' = <[(hash, user) := granted]> (db_receipts d);
  let_rest : db_rooms d' = db_rooms d /\ db_accounts d' = db_accounts d /\ db_next d' = db_next d
}.

(** What the issuer may grant, as redemption tests it and as listings do. *)
Lemma issuer_tests_agree d i room_id granting room :
  invite_kind_of i = RoomCode room_id granting -> is_stored granting = true -> db_rooms d !! room_id = Some room ->
  issuer_still_authorized d i
  = let issuer := issuer_role d room_id (owner_id room) (created_by i) in role_ge issuer Admin && negb (role_ge granting issuer).
Proof.
  intros Hk Hst Hroom. unfold issuer_still_authorized, issuer_role. rewrite Hk, Hroom. cbn.
  destruct (created_by i =? owner_id room)%N eqn:Ho.
  - apply N.eqb_eq in Ho. rewrite bool_decide_eq_true_2 by congruence. by destruct granting.
  - apply N.eqb_neq in Ho. rewrite bool_decide_eq_false_2 by congruence. cbn.
    destruct (db_roles d !! _) as [row|]; [|done]. cbn. by rewrite role_gt_not_ge.
Qed.

Lemma grant_membership_ok room_id user granting by_ d d' granted room :
  grant_membership room_id user granting by_ d = (d', Ok granted) -> db_ok d -> db_rooms d !! room_id = Some room ->
  is_stored granting = true -> (owner_id room =? user)%N = false ->
  granted = role_max (resolve_role (db_roles d) room_id (Some user) (owner_id room) true) granting
  /\ is_stored granted = true /\ is_Some (db_accounts d !! user)
  /\ exists g, d' = d <| db_roles ::= <[(room_id, user) := RoleRow granted g]> |>.
Proof.
  intros Hx Hok Hroom Hst Ho. unfold grant_membership, hbind, hget, hmodify, hret, ensure, bail in Hx. case_bool_decide as Hacc; [|done].
  injection Hx as <- <-. unfold resolve_role. rewrite N.eqb_sym, Ho.
  destruct (db_roles d !! (room_id, user)) as [row|] eqn:Hrow; cbn.
  - destruct (ok_roles _ Hok _ _ _ Hrow) as (Hs & _). unfold raise_role, role_max.
    destruct (role_gt granting (row_role row)); cbn; split_and!; try done; [by exists by_|exists (row_granted_by row); by destruct row].
  - split_and!; [|done..|by exists by_]. unfold role_max. by destruct granting.
Qed.

Lemma member_granted i room_id room granting user d d1 granted :
  (if (owner_id room =? user)%N then hret Owner else grant_membership room_id user granting (created_by i)) d = (d1, Ok granted) ->
  db_ok d -> db_rooms d !! room_id = Some room -> is_stored granting = true ->
  granted = role_max (resolve_role (db_roles d) room_id (Some user) (owner_id room) true) granting
  /\ (forall room' user', standing d1 room' user' = if decide ((room', user') = (room_id, user)) then Some granted else standing d room' user')
  /\ db_ok d1 /\ exists roles, d1 = d <| db_roles := roles |>.
Proof.
  intros Hg Hok Hroom Hst. destruct (owner_id room =? user)%N eqn:Ho.
  - injection Hg as <- <-. apply N.eqb_eq in Ho. subst user. unfold resolve_role. rewrite N.eqb_refl. split; [by destruct granting|]. split.
    + intros room' user'. destruct (decide _) as [[= -> ->]|]; [|done]. unfold standing, resolve_role. rewrite Hroom. cbn. by rewrite N.eqb_refl.
    + split; [done|]. exists (db_roles d). by destruct d.
  - apply (grant_membership_ok _ _ _ _ _ _ _ room) in Hg as (Hgr & Hs & Hacc & g & ->); [|done..]. split; [done|]. split.
    + intros room' user'. unfold standing. cbn. destruct (decide _) as [[= -> ->]|Hne].
      * rewrite Hroom. cbn. by rewrite N.eqb_sym, Ho, lookup_insert_eq.
      * destruct (db_rooms d !! room') as [room2|]; [|done]. cbn. unfold resolve_role. by rewrite lookup_insert_ne by congruence.
    + split; [|by eexists]. destruct Hok as [U I K R O A]. split; cbn; try done.
      intros room' user' row [[[= <- <-] <-]|[_ Hr]]%lookup_insert_Some; [by rewrite Hroom|by apply O].
Qed.

Lemma spend_invite_ok hash i room_id room granting user now d d' r :
  spend_invite hash i room_id room granting user d = (d', Ok r) -> db_ok d ->
  db_invites d !! hash = Some i -> invite_kind_of i = RoomCode room_id granting -> db_rooms d !! room_id = Some room ->
  db_receipts d !! (hash, user) = None -> usable now i = true -> issuer_still_authorized d i = true ->
  exists granted, r = Some (room_id, saved_name room, granted) /\ let_in hash user now d d' i room_id granting granted /\ db_ok d'.
Proof.
  intros Hx Hok Hi Hk Hroom Hrec Hus Hiss. destruct (ok_kinds _ Hok _ _ _ _ Hi Hk) as [Hst _].
  apply hbind_ok in Hx as (d1 & granted & Hg & Hx).
  destruct (member_granted _ _ _ _ _ _ _ _ Hg Hok Hroom Hst) as (Hgr & Hstand & Hok1 & roles & ->).
  apply hbind_ok in Hx as (d2 & [] & Hs & Hx). apply hbind_ok in Hs as (d3 & [] & [_ ->]%ensure_ok & [= <-]).
  apply hbind_ok in Hx as (d3 & [] & Hs & [= <- <-]). apply hbind_ok in Hs as (d4 & x & [= <- <-] & Hs).
  apply hbind_ok in Hs as (d4 & [] & [_ ->]%ensure_ok & Hs). apply hbind_ok in Hs as (d5 & [] & [Hacc%bool_decide_eq_true ->]%ensure_ok & [= <-]).
  exists granted. split; [done|]. split.
  - split; try done. exists (resolve_role (db_roles d) room_id (Some user) (owner_id room) true). unfold standing. by rewrite Hroom.
  - unfold usable in Hus. apply andb_true_iff in Hus as [Hpos%Z.ltb_lt _]. destruct Hok1 as [U I K R O A]. cbn in *. split; cbn; try done.
    + intros h j [[_ <-]|[_ Hj]]%lookup_insert_Some; cbn; [lia|eauto].
    + intros h j [[_ <-]|[_ Hj]]%lookup_insert_Some; cbn; eauto.
    + intros h j room' g [[_ <-]|[_ Hj]]%lookup_insert_Some; cbn; eauto.
    + intros h u r [[[= <- <-] _]|[_ Hr]]%lookup_insert_Some; (split; [apply lookup_insert_is_Some|done || by eapply R]).
      * by left.
      * destruct (decide (hash = h)); [by left|right]. split; [done|]. by eapply R.
Qed.

Lemma redeem_locked_ok hash user now d d' r : redeem_locked hash user now d = (d', Ok r) -> db_ok d ->
  db_ok d' /\ match r with
  | None => d' = d /\ preview_room_invite hash user now d = None
  | Some (room_id, name, granted) =>
      exists i granting, db_invites d !! hash = Some i /\ invite_kind_of i = RoomCode room_id granting
        /\ preview_room_invite hash user now d = Some (room_id, name, granting)
        /\ (d' = d /\ db_receipts d !! (hash, user) = Some granted \/ let_in hash user now d d' i room_id granting granted)
  end.
Proof.
  intros Hx Hok. apply hbind_ok in Hx as (d1 & x & [= <- <-] & Hx). unfold preview_room_invite.
  destruct (db_invites d !! hash) as [i|] eqn:Hi; [|by injection Hx as <- <-].
  destruct (invite_kind_of i) as [|room_id granting] eqn:Hk; [by injection Hx as <- <-|].
  destruct (ok_kinds _ Hok _ _ _ _ Hi Hk) as [Hst [room Hroom]]. rewrite Hroom in Hx |- *.
  rewrite (issuer_tests_agree d i room_id granting room Hk Hst Hroom). pose proof (issuer_tests_agree d i room_id granting room Hk Hst Hroom) as Hiss.
  set (issuer := issuer_role d room_id (owner_id room) (created_by i)) in *. cbv zeta in Hx, Hiss |- *. unfold usable.
  destruct (_ <=? now)%N eqn:Hret in Hx.
  { apply N.leb_le in Hret. injection Hx as <- <-. split; [done|]. split; [done|].
    replace (now <? expires_at i)%N with false by (symmetry; apply N.ltb_ge; lia).
    replace (now <? expires_at i + days INVITE_RECEIPT_RETENTION)%N with false by (symmetry; apply N.ltb_ge; lia).
    by rewrite !andb_false_r. }
  apply N.leb_gt in Hret. apply N.ltb_lt in Hret. rewrite Hret.
  destruct (db_receipts d !! (hash, user)) as [granted|] eqn:Hrec.
  { injection Hx as <- <-. split; [done|]. exists i, granting. rewrite bool_decide_eq_true_2 by eauto. rewrite orb_true_r. split_and!; [done..|by left]. }
  rewrite bool_decide_eq_false_2 by (intros [? ?]; done). rewrite orb_false_r. pose proof (ok_uses _ Hok _ _ Hi).
  destruct (_ || _) eqn:Hlive in Hx.
  { injection Hx as <- <-. split; [done|]. split; [done|]. apply orb_true_iff in Hlive as [Hl%N.leb_le|Hu%Z.eqb_eq].
    - replace (now <? expires_at i)%N with false by (symmetry; apply N.ltb_ge; lia). by rewrite andb_false_r.
    - by rewrite Hu. }
  apply orb_false_iff in Hlive as [Hl%N.leb_gt Hu%Z.eqb_neq].
  assert (usable now i = true) as Hus by (unfold usable; apply andb_true_iff; split; [apply Z.ltb_lt|apply N.ltb_lt]; lia).
  unfold usable in Hus. rewrite Hus. cbn [andb]. destruct (_ || _) eqn:Ha in Hx.
  { injection Hx as <- <-. split; [done|]. split; [done|].
    apply orb_true_iff in Ha as [->%negb_true_iff|Hge]; [done|]. by rewrite Hge, andb_false_r. }
  apply orb_false_iff in Ha as [Ha%negb_false_iff Hge]. rewrite Ha, Hge in *. cbn [andb negb] in *.
  apply (spend_invite_ok _ _ _ _ _ _ now) in Hx as (granted & -> & Hin & Hok'); [|done..]. split; [done|]. exists i, granting. auto.
Qed.

Lemma redeem_locked_total hash user now d : db_ok d -> is_Some (db_accounts d !! user) -> exists d' r, redeem_locked hash user now d = (d', Ok r).
Proof.
  intros Hok Hacc. unfold redeem_locked, hbind at 1, hget. destruct (db_invites d !! hash) as [i|] eqn:Hi; [|by do 2 eexists].
  destruct (invite_kind_of i) as [|room_id granting]; [by do 2 eexists|]. destruct (_ <=? now)%N; [by do 2 eexists|].
  destruct (db_rooms d !! room_id) as [room|]; [|by do 2 eexists]. destruct (db_receipts d !! (hash, user)) eqn:Hrec; [by do 2 eexists|].
  destruct ((expires_at i <=? now)%N || (uses_left i =? 0)%Z) eqn:Hlive; [by do 2 eexists|]. cbv zeta. case_match; [by do 2 eexists|].
  apply orb_false_iff in Hlive as [_ Hu%Z.eqb_neq]. pose proof (ok_uses _ Hok _ _ Hi).
  assert ((0 <=? uses_left i - 1)%Z = true) as Hpos by (apply Z.leb_le; lia).
  unfold spend_invite, grant_membership, spend_use, insert_receipt, hbind, hget, hmodify, hret, ensure. rewrite Hpos.
  destruct (owner_id room =? user)%N; cbn; rewrite ?(bool_decide_eq_true_2 _ Hacc); cbn; rewrite Hrec, ?(bool_decide_eq_true_2 _ Hacc); cbn; by do 2 eexists.
Qed.

(** C30: redeeming a code is exact.  It succeeds just when a preview shows
    the invitation, and never fails otherwise: an account that redeemed it gets
    its receipt back and nothing changes; anyone else spends one use of a code
    that is neither used up nor expired and whose issuer may still grant what it
    offers, and stands in the room as high as offered or as before, whichever is
    higher, while everybody else keeps their role everywhere.  A refusal changes
    nothing. *)
Theorem redemption_is_exact hash user now d d' r :
  db_ok d -> is_Some (db_accounts d !! user) -> redeem_room_invite hash user now d = (d', r) ->
  db_ok d' /\ match r with
  | Err _ => False
  | Ok None => d' = d /\ preview_room_invite hash user now d = None
  | Ok (Some (room_id, name, granted)) =>
      exists i granting, db_invites d !! hash = Some i /\ invite_kind_of i = RoomCode room_id granting
        /\ preview_room_invite hash user now d = Some (room_id, name, granting)
        /\ (d' = d /\ db_receipts d !! (hash, user) = Some granted \/ let_in hash user now d d' i room_id granting granted)
  end.
Proof.
  intros Hok Hacc Hx. destruct (redeem_locked_total hash user now d Hok Hacc) as (d1 & r1 & H1).
  unfold redeem_room_invite, transaction in Hx. rewrite H1 in Hx. injection Hx as <- <-.
  apply redeem_locked_ok in H1 as [Hok' Hr]; [|done]. split; [done|]. by destruct r1 as [[[room_id name] granted]|].
Qed.

(** ** Every command *)

Inductive invite_command :=
| Mint (hash : string) (room_id : string) (granting : role) (uses : Z) (valid_days : N) (by_ : N)
| Redeem (hash : string) (user : N)
| Revoke (room_id : string) (id : N)
| RevokeIssued (by_ : N)
| MintRegistration (hash : string) (user : N)
| RevokeRegistration (user id : N)
| Register (max_users : nat) (email : text) (code : option string)
| SetRole (room_id : string) (user : N) (r : role) (by_ : N)
| OpenRoom (room_id : string) (room : saved_room)
| DropRoom (room_id : string)
| RetireInvites (batch : list N).

(** What comes with a room that is deleted ([ON DELETE CASCADE]). *)
Definition drop_room (room_id : string) (d : invite_db) : invite_db :=
  (delete_invites (of_room room_id)
     (d <| db_rooms ::= delete room_id |> <| db_roles ::= filter (fun x : (string * N) * role_row => x.1.1 <> room_id) |>)).1.

(** A batch of the retention sweep. *)
Definition retirable (now : N) (batch : list N) (i : invite_row) : bool :=
  (expires_at i + days INVITE_RECEIPT_RETENTION <? now)%N && bool_decide (invite_id i ∈ batch).

(** The account a command lets in, if it does. *)
Definition perform (now : N) (cmd : invite_command) (d : invite_db) : invite_db * option N :=
  match cmd with
  | Mint hash room_id granting uses valid_days by_ => ((transaction (create_room_invite hash room_id granting uses valid_days by_ now) d).1, None)
  | Redeem hash user =>
      match redeem_room_invite hash user now d with
      | (d', Ok (Some _)) => (d', if bool_decide (db_receipts d !! (hash, user) = None) then Some user else None)
      | (d', _) => (d', None)
      end
  | Revoke room_id id => ((revoke_room_invite room_id id d).1, None)
  | RevokeIssued by_ => ((revoke_issued_invites by_ d).1, None)
  | MintRegistration hash user => ((mint_registration hash user now d).1, None)
  | RevokeRegistration user id => ((revoke_registration user id d).1, None)
  | Register max_users email code =>
      match register_account max_users email code now d with
      | (d', Ok (user, _)) => (d', Some user)
      | (d', _) => (d', None)
      end
  | SetRole room_id user r by_ =>
      (if bool_decide (is_Some (db_rooms d !! room_id)) && bool_decide (is_Some (db_accounts d !! user))
       then d <| db_roles := set_role (db_roles d) room_id user r by_ |> else d, None)
  | OpenRoom room_id room => (if bool_decide (db_rooms d !! room_id = None) then d <| db_rooms ::= <[room_id := room]> |> else d, None)
  | DropRoom room_id => (drop_room room_id d, None)
  | RetireInvites batch =>
      ((delete_invites (retirable now batch) d).1, None)
  end.

(** ** Uses *)

(** The code a command presents. *)
Definition presents (cmd : invite_command) : option string :=
  match cmd with Redeem hash _ => Some hash | Register _ _ code => code | _ => None end.

(** The account was not yet let in by the invitation. *)
Definition outside (d : invite_db) (hash : string) (i : invite_row) (user : N) : Prop :=
  match invite_kind_of i with RegistrationCode => db_accounts d !! user = None | RoomCode _ _ => db_receipts d !! (hash, user) = None end.

(** What a step does to an invitation that stays. *)
Record stays (used : option N) (d d' : invite_db) (hash : string) (i i' : invite_row) : Prop := {
  stays_id : invite_id i' = invite_id i;
  stays_kind : invite_kind_of i' = invite_kind_of i;
  stays_inside : forall user, outside d' hash i' user -> outside d hash i user;
  stays_uses : match used with
               | Some user => uses_left i' = (uses_left i - 1)%Z /\ outside d hash i user /\ ~ outside d' hash i' user
               | None => uses_left i' = uses_left i
               end
}.

Record advances (cmd : invite_command) (who : option N) (d d' : invite_db) : Prop := {
  adv_ok : db_ok d';
  adv_next : (db_next d <= db_next d')%N;
  adv_rows : forall hash i', db_invites d' !! hash = Some i' ->
    (exists i, db_invites d !! hash = Some i /\ stays (if decide (presents cmd = Some hash) then who else None) d d' hash i i')
    \/ db_invites d !! hash = None /\ invite_id i' = db_next d;
  adv_used : forall hash, presents cmd = Some hash -> is_Some who -> is_Some (db_invites d !! hash) -> is_Some (db_invites d' !! hash)
}.

Lemma stays_same d d' hash i : (forall user, db_accounts d' !! user = None -> db_accounts d !! user = None) ->
  (forall user, db_receipts d' !! (hash, user) = None -> db_receipts d !! (hash, user) = None) -> stays None d d' hash i i.
Proof. intros Ha Hr. split; try done. intros user. unfold outside. destruct (invite_kind_of i); auto. Qed.

Lemma used_none cmd hash : (if decide (presents cmd = Some hash) then None else None) = (None : option N).
Proof. by destruct (decide _). Qed.

(** Commands that use no code: invitations stay, go or are new. *)
Lemma advances_idle cmd d d' : db_ok d' -> (db_next d <= db_next d')%N ->
  (forall user, db_accounts d' !! user = None -> db_accounts d !! user = None) ->
  (forall hash i', db_invites d' !! hash = Some i' ->
     (db_invites d !! hash = Some i' /\ forall user, db_receipts d' !! (hash, user) = None -> db_receipts d !! (hash, user) = None)
     \/ db_invites d !! hash = None /\ invite_id i' = db_next d) ->
  advances cmd None d d'.
Proof.
  intros Hok Hn Ha Hr. split; [done..| |by intros hash _ [? ?]]. intros hash i' Hi. rewrite used_none.
  destruct (Hr hash i' Hi) as [[Hi0 Hrec]|]; [left|by right]. exists i'. split; [done|by apply stays_same].
Qed.
Lemma advances_refl cmd d : db_ok d -> advances cmd None d d.
Proof. intros Hok. apply advances_idle; [done|lia|done|by left]. Qed.

Lemma advances_insert cmd hash kind by_ uses expires now d d' row :
  insert_invite hash kind by_ uses expires now d = (d', Ok row) -> db_ok d -> advances cmd None d d'.
Proof.
  intros Hx Hok. apply insert_invite_ok in Hx as (Hok' & Hnew & -> & ->); [|done].
  apply advances_idle; [done|cbn; lia|done|]. cbn. intros h i' [[<- <-]|[_ Hi]]%lookup_insert_Some; [by right|by left].
Qed.
Lemma advances_delete cmd P d : db_ok d -> advances cmd None d (delete_invites P d).1.
Proof.
  intros Hok. destruct (delete_invites P d) as [d' [n|e]] eqn:Hx; [|done]. cbn [fst]. apply delete_invites_ok in Hx as (Hok' & _ & _ & Ea & En & Ei & Er); [|done].
  apply advances_idle; [done|rewrite En; lia|by rewrite Ea|]. intros hash i' Hi. left. split.
  - rewrite Ei in Hi. destruct (db_invites d !! hash) as [i|]; [|done]. by destruct (P i).
  - intros user. rewrite Er by eauto. done.
Qed.

(** A query that fails midway is not followed: inserting checks first. *)
Lemma insert_invite_err hash kind by_ uses expires now d d' e : insert_invite hash kind by_ uses expires now d = (d', Err e) -> d' = d.
Proof.
  unfold insert_invite, hbind, hget, hmodify, hret, ensure, bail. destruct (_ && _); [|by intros [= <- _]].
  case_bool_decide; [|by intros [= <- _]]. by destruct (_ && _); intros [= <- _].
Qed.

Lemma advances_let_in hash user now d d' i room_id granting granted : db_invites d !! hash = Some i -> invite_kind_of i = RoomCode room_id granting ->
  let_in hash user now d d' i room_id granting granted -> db_ok d' -> advances (Redeem hash user) (Some user) d d'.
Proof.
  intros Hi Hk [_ _ Hnew _ _ Hinv Hrec (_ & Ea & En)] Hok'. split; [done|rewrite En; lia| |intros h [= <-] _ _; rewrite Hinv, lookup_insert_eq; eauto]. rewrite Hinv. intros h i' [[<- <-]|[Hne Hi']]%lookup_insert_Some; left.
  - exists i. split; [done|]. rewrite decide_True by done. split; try done; cbn.
    + unfold outside. cbn. rewrite Hk, Hrec. intros u. rewrite lookup_insert_None. by intros [? _].
    + unfold outside. cbn. rewrite Hk, Hrec, lookup_insert_eq. done.
  - exists i'. split; [done|]. rewrite decide_False by (cbn; congruence). apply stays_same; [by rewrite Ea|].
    intros u. rewrite Hrec, lookup_insert_None. by intros [? _].
Qed.

Lemma perform_redeem now hash user d d' who : db_ok d -> perform now (Redeem hash user) d = (d', who) -> advances (Redeem hash user) who d d'.
Proof.
  intros Hok Hx. cbn [perform] in Hx. unfold redeem_room_invite, transaction in Hx.
  destruct (redeem_locked hash user now d) as [d1 [r|e]] eqn:H1; [|injection Hx as <- <-; by apply advances_refl].
  apply redeem_locked_ok in H1 as [Hok' Hr]; [|done]. destruct r as [[[room_id name] granted]|].
  - destruct Hr as (i & granting & Hi & Hk & _ & [[-> Hrec]|Hin]); injection Hx as <- <-.
    + rewrite bool_decide_eq_false_2 by congruence. by apply advances_refl.
    + rewrite bool_decide_eq_true_2 by apply Hin. by eapply advances_let_in.
  - injection Hx as <- <-. destruct Hr as [-> _]. by apply advances_refl.
Qed.

(** A new account, and the use of the code that let it in. *)
Lemma consume_ok hash now d d' inviter : consume_registration_invite hash now d = (d', Ok (Some inviter)) -> db_ok d ->
  db_ok d' /\ exists i, db_invites d !! hash = Some i /\ invite_kind_of i = RegistrationCode /\ usable now i = true
    /\ d' = d <| db_invites ::= <[hash := i <| uses_left := (uses_left i - 1)%Z |>]> |>.
Proof.
  intros Hx Hok. apply hbind_ok in Hx as (d1 & x & [= <- <-] & Hx). destruct (db_invites d !! hash) as [i|] eqn:Hi; [|done].
  destruct (_ && _) eqn:Hu; [|done]. apply andb_true_iff in Hu as [Hk%bool_decide_eq_true Hu].
  apply hbind_ok in Hx as (d1 & [] & Hs & [= <- _]). apply hbind_ok in Hs as (d2 & [] & [Hpos%Z.leb_le ->]%ensure_ok & [= <-]).
  split; [|by exists i]. destruct Hok as [U I K R O A]. split; cbn; try done.
  - intros h j [[_ <-]|[_ Hj]]%lookup_insert_Some; cbn; [lia|eauto].
  - intros h j [[_ <-]|[_ Hj]]%lookup_insert_Some; cbn; eauto.
  - intros h j room' g [[_ <-]|[_ Hj]]%lookup_insert_Some; cbn; eauto.
  - intros h u r Hr. destruct (R h u r Hr) as [Hi' Hu']. split; [|done]. apply lookup_insert_is_Some. destruct (decide (hash = h)); auto.
Qed.

Lemma insert_user_ok email d d' user : insert_user email d = (d', Ok user) -> db_ok d ->
  db_ok d' /\ user = db_next d /\ d' = d <| db_accounts ::= <[user := email]> |> <| db_next ::= N.succ |>.
Proof.
  intros Hx Hok. apply hbind_ok in Hx as (d1 & x & [= <- <-] & Hx). apply hbind_ok in Hx as (d1 & [] & [_ ->]%ensure_ok & Hx).
  apply hbind_ok in Hx as (d1 & [] & [= <-] & [= <- <-]). split; [|done]. destruct Hok as [U I K R O A]. split; cbn; try done.
  - intros hash i Hi%I. lia.
  - intros hash u r Hr. destruct (R hash u r Hr) as [? ?]. split; [done|]. apply lookup_insert_is_Some. destruct (decide (db_next d = u)); auto.
  - intros room_id u row Hr. destruct (O _ _ _ Hr) as (? & ? & ?). split_and!; [done..|]. apply lookup_insert_is_Some. destruct (decide (db_next d = u)); auto.
  - intros u e [[<- _]|[_ Hu%A]]%lookup_insert_Some; lia.
Qed.

Lemma perform_register now max_users email code d d' who : db_ok d ->
  perform now (Register max_users email code) d = (d', who) -> advances (Register max_users email code) who d d'.
Proof.
  intros Hok Hx. cbn [perform] in Hx. unfold register_account, transaction in Hx.
  match type of Hx with context [match ?m d with _ => _ end] => destruct (m d) as [d1 [[user invited]|e]] eqn:Hm end;
    [|injection Hx as <- <-; by apply advances_refl]. injection Hx as <- <-.
  assert (db_accounts d !! db_next d = None) as Hfresh.
  { destruct (_ !! _) as [em|] eqn:E; [|done]. apply (ok_accounts _ Hok) in E. lia. }
  apply hbind_ok in Hm as (d2 & [] & Hcap & Hm). apply hbind_ok in Hcap as (d3 & x & [= <- <-] & [_ ->]%ensure_ok).
  apply hbind_ok in Hm as (d2 & invited_by & Hc & Hm). apply hbind_ok in Hm as (d3 & u & Hu & [= <- <- <-]).
  destruct code as [hash|].
  - apply hbind_ok in Hc as (d4 & inviter & Hc & Hinv). unfold ask, map_error in Hc. destruct (consume_registration_invite hash now d) as [d5 [y|]] eqn:Hcons; [|done].
    injection Hc as <- <-. destruct y as [inviter|]; [|done]. injection Hinv as <- <-.
    apply consume_ok in Hcons as (Hok2 & i & Hi & Hk & _ & ->); [|done]. apply insert_user_ok in Hu as (Hok' & -> & ->); [|done]. cbn.
    split; [done|cbn; lia| |intros h [= <-] _ _; cbn; rewrite lookup_insert_eq; eauto].
    cbn. intros h i' [[<- <-]|[Hne Hi']]%lookup_insert_Some; left.
    + exists i. split; [done|]. rewrite decide_True by done. split; try done; unfold outside; cbn; rewrite Hk.
      * intros u. rewrite lookup_insert_None. by intros [? _].
      * rewrite lookup_insert_eq. done.
    + exists i'. split; [done|]. rewrite decide_False by congruence. apply stays_same; cbn; [|done]. intros u. rewrite lookup_insert_None. by intros [? _].
  - injection Hc as <- <-. apply insert_user_ok in Hu as (Hok' & -> & ->); [|done]. split; [done|cbn; lia| |done]. cbn. intros h i' Hi'. left. exists i'.
    split; [done|]. rewrite decide_False by done. apply stays_same; cbn; [|done]. intros u. rewrite lookup_insert_None. by intros [? _].
Qed.

Lemma set_role_advances cmd room_id user r by_ d : db_ok d -> is_Some (db_rooms d !! room_id) -> is_Some (db_accounts d !! user) ->
  advances cmd None d (d <| db_roles := set_role (db_roles d) room_id user r by_ |>).
Proof.
  intros [U I K R O A] Hroom Hacc. apply advances_idle; [|cbn; lia|done|by left]. split; cbn; try done.
  intros room' user' row Hrow. unfold set_role in Hrow. destruct (is_stored r) eqn:Hst; cbn in Hrow.
  - apply lookup_insert_Some in Hrow as [[[= <- <-] <-]|[_ Hrow]]; [done|by apply O].
  - apply lookup_delete_Some in Hrow as [_ Hrow]. by apply O.
Qed.

Lemma drop_room_advances cmd room_id d : db_ok d -> advances cmd None d (drop_room room_id d).
Proof.
  intros [U I K R O A]. unfold drop_room.
  set (d1 := d <| db_rooms ::= delete room_id |> <| db_roles ::= filter (fun x : (string * N) * role_row => x.1.1 <> room_id) |>).
  set (kept := filter (fun x : string * invite_row => of_room room_id x.2 = false) (db_invites d)).
  apply advances_idle; [|cbn; lia|done|]; cbn.
  - split; cbn.
    + intros hash i [Hi _]%map_lookup_filter_Some. eauto.
    + intros hash i [Hi _]%map_lookup_filter_Some. eauto.
    + intros hash i room' granting [Hi Hno]%map_lookup_filter_Some Hk. destruct (K _ _ _ _ Hi Hk) as [Hst Hroom]. split; [done|].
      cbn in Hno. unfold of_room in Hno. rewrite Hk in Hno. apply bool_decide_eq_false in Hno. by rewrite lookup_delete_ne by congruence.
    + intros hash user r [Hr Hs]%map_lookup_filter_Some. split; [done|]. by eapply R.
    + intros room' user row [Hr Hne]%map_lookup_filter_Some. cbn in Hne. destruct (O _ _ _ Hr) as (? & ? & ?).
      split_and!; [done| |done]. by rewrite lookup_delete_ne by congruence.
    + eauto.
  - intros hash i' Hi'. pose proof Hi' as [Hi _]%map_lookup_filter_Some. left. split; [done|]. intros user Hn.
    apply map_lookup_filter_None in Hn as [Hn|Hn]; [done|]. destruct (db_receipts d !! (hash, user)) as [r|] eqn:E; [|done].
    exfalso. apply (Hn r eq_refl). cbn. eauto.
Qed.

Lemma perform_advances now cmd d d' who : db_ok d -> perform now cmd d = (d', who) -> advances cmd who d d'.
Proof.
  intros Hok Hx. destruct cmd; [|by eapply perform_redeem| | | | |by eapply perform_register|..]; injection Hx as <- <-.
  - unfold transaction, create_room_invite, hbind, hget. destruct (_ <=? _)%nat; [by apply advances_refl|].
    destruct (insert_invite _ _ _ _ _ _ d) as [d1 [row|e]] eqn:Hi; [by eapply advances_insert|by apply advances_refl].
  - by apply (advances_delete _ (fun i => of_room room_id i && (invite_id i =? id)%N)).
  - by apply (advances_delete _ (fun i => (created_by i =? by_)%N)).
  - unfold mint_registration, hbind, hget, ensure, ask, map_error, hret, bail. destruct (negb _); [|by apply advances_refl].
    destruct (insert_invite _ _ _ _ _ _ d) as [d1 [row|e]] eqn:Hi; [by eapply advances_insert|].
    apply insert_invite_err in Hi as ->. by apply advances_refl.
  - pose proof (advances_delete (RevokeRegistration user id) (fun i => of_account user i && (invite_id i =? id)%N) d Hok) as Ha.
    unfold revoke_registration, hbind, ask, map_error, ensure, hret, bail. destruct (delete_invites _ d) as [d1 [n|e]]; [|done]. by destruct (0 <? n)%nat.
  - destruct (_ && _) eqn:Hb; [|by apply advances_refl]. apply andb_true_iff in Hb as [?%bool_decide_eq_true ?%bool_decide_eq_true].
    by apply set_role_advances.
  - case_bool_decide as Hn; [|by apply advances_refl]. destruct Hok as [U I K R O A]. apply advances_idle; [|cbn; lia|done|by left].
    assert (forall r, is_Some (db_rooms d !! r) -> is_Some (<[room_id := room]> (db_rooms d) !! r)) as Hr.
    { intros r Hr. apply lookup_insert_is_Some. destruct (decide (room_id = r)); auto. }
    split; cbn; try done.
    + intros hash i r g Hi Hk. destruct (K _ _ _ _ Hi Hk). auto.
    + intros r user row Hrow. destruct (O _ _ _ Hrow) as (? & ? & ?). auto.
  - by apply drop_room_advances.
  - by apply (advances_delete _ (retirable now batch)).
Qed.

(** The accounts that the invitation [id], with its code [hash], lets in. *)
Definition stands (d : invite_db) (hash : string) (id : N) : bool :=
  match db_invites d !! hash with Some i => (invite_id i =? id)%N | None => false end.
Fixpoint admissions (hash : string) (id : N) (cmds : list (N * invite_command)) (d : invite_db) : list N :=
  match cmds with
  | [] => []
  | (now, cmd) :: cmds =>
      let '(d', who) := perform now cmd d in
      (if bool_decide (presents cmd = Some hash) && stands d hash id then option_list who else []) ++ admissions hash id cmds d'
  end.

Lemma gone_stays_gone hash id cmds d : db_ok d -> (id < db_next d)%N -> stands d hash id = false -> admissions hash id cmds d = [].
Proof.
  revert d. induction cmds as [|[now cmd] cmds IH]; intros d Hok Hid Hg; [done|]. cbn. destruct (perform now cmd d) as [d' who] eqn:Hx.
  apply perform_advances in Hx as [Hok' Hn Hrows _]; [|done]. rewrite Hg, andb_false_r. cbn. apply IH; [done|lia|].
  unfold stands in *. destruct (db_invites d' !! hash) as [i'|] eqn:Hi; [|done]. apply N.eqb_neq.
  destruct (Hrows _ _ Hi) as [(i & Hi0 & Hs)|[_ Hnew]]; [|lia]. rewrite Hi0 in Hg. apply N.eqb_neq in Hg. by rewrite (stays_id _ _ _ _ _ _ Hs).
Qed.

(** C31: an invitation lets in as many accounts as it has uses, each of them
    once.  Whatever is minted, redeemed, repeated, revoked, retired, promoted
    or demoted, in any order and at any times, the accounts that a room code
    makes members, or that a registration code registers, are distinct, were
    not let in by it before, and are no more than the uses it has left. *)
Theorem invitation_lets_in_within_its_uses hash i cmds d :
  db_ok d -> db_invites d !! hash = Some i ->
  let accounts := admissions hash (invite_id i) cmds d in
  NoDup accounts /\ Forall (outside d hash i) accounts /\ (Z.of_nat (length accounts) <= uses_left i)%Z.
Proof.
  revert d i. induction cmds as [|[now cmd] cmds IH]; intros d i Hok Hi; cbn.
  { split_and!; [constructor|constructor|]. by apply (ok_uses _ Hok hash). }
  destruct (perform now cmd d) as [d' who] eqn:Hx. apply perform_advances in Hx as [Hok' Hn Hrows Hused]; [|done].
  assert (stands d hash (invite_id i) = true) as -> by (unfold stands; rewrite Hi; apply N.eqb_refl). rewrite andb_true_r.
  pose proof (ok_issued _ Hok _ _ Hi) as Hid. pose proof (ok_uses _ Hok _ _ Hi) as Hpos.
  destruct (db_invites d' !! hash) as [i'|] eqn:Hi'.
  - destruct (Hrows _ _ Hi') as [(i0 & Hi0 & Hs)|[? _]]; [|congruence].
    assert (i0 = i) as -> by congruence. destruct (IH _ _ Hok' Hi') as (Hnd & Hout & Hlen). rewrite (stays_id _ _ _ _ _ _ Hs) in *.
    destruct Hs as [_ _ Hin Hus]. rewrite bool_decide_decide. destruct (decide (presents cmd = Some hash)) as [_|_]; cbn.
    + destruct who as [user|]; cbn; [|rewrite Hus in Hlen; split_and!; [done|by eapply Forall_impl|done]].
      destruct Hus as (Hus & Ho & Hno). split_and!; [|constructor; [done|by eapply Forall_impl]|lia].
      constructor; [|done]. intros Hbad. by rewrite Forall_forall in Hout; apply Hout in Hbad.
    + rewrite Hus in Hlen. split_and!; [done|by eapply Forall_impl|done].
  - rewrite gone_stays_gone, app_nil_r; [|done|lia|unfold stands; by rewrite Hi'].
    case_bool_decide as Hp; [|split_and!; [constructor|constructor|done]]. destruct who as [user|]; [|split_and!; [constructor|constructor|done]].
    destruct (Hused hash Hp) as [? ?]; [eauto..|congruence].
Qed.

(** ** Memberships *)

Section memberships.
Context `{Collation}.

(** Every page, from a cursor on. *)
Fixpoint read_memberships (fuel : nat) (user : N) (after : option string) (d : invite_db) : list membership :=
  match fuel with
  | O => []
  | S fuel => let '(shown, next) := memberships user after d in
              shown ++ match next with Some k => read_memberships fuel user (Some k) d | None => [] end
  end.

Lemma elem_of_memberships user d m : m ∈ memberships_of user d <->
  exists row room, db_roles d !! (member_room m, user) = Some row /\ db_rooms d !! member_room m = Some room
    /\ owner_id room <> user /\ m = Membership (member_room m) (saved_name room) (row_role row).
Proof.
  unfold memberships_of. rewrite list_elem_of_omap. split.
  - intros ([[room_id user'] row] & Hin%elem_of_map_to_list & Hm). cbn in Hm. case_bool_decide as Hu; [|done]. subst user'.
    destruct (db_rooms d !! room_id) as [room|] eqn:Hroom; [|done]. case_bool_decide; [done|]. injection Hm as <-. cbn. eauto 10.
  - intros (row & room & Hrow & Hroom & Hne & Hm). exists ((member_room m, user), row). split; [by apply elem_of_map_to_list|].
    cbn. rewrite bool_decide_eq_true_2 by done. rewrite Hroom, bool_decide_eq_false_2 by done. congruence.
Qed.

Lemma memberships_distinct user d : NoDup (member_room <$> memberships_of user d).
Proof.
  unfold memberships_of. pose proof (NoDup_fst_map_to_list (db_roles d)) as Hnd. induction (map_to_list (db_roles d)) as [|[[room_id user'] row] l IH]; [constructor|].
  cbn in Hnd. apply NoDup_cons in Hnd as [Hnew Hnd]. cbn. case_bool_decide as Hu; [|by apply IH]. subst user'.
  destruct (db_rooms d !! room_id) as [room|]; [|by apply IH]. case_bool_decide; [by apply IH|]. cbn. constructor; [|by apply IH].
  intros (m & Hroom & Hm)%list_elem_of_fmap. apply list_elem_of_omap in Hm as ([[room_id' user'] row'] & Hin & Hm). cbn in Hm.
  case_bool_decide as Hu'; [|done]. subst user'. destruct (db_rooms d !! room_id') as [room'|]; [|done]. case_bool_decide; [done|].
  injection Hm as <-. cbn in Hroom. subst room_id'. apply Hnew, list_elem_of_fmap. by exists ((room_id, user), row').
Qed.

Lemma read_memberships_follow fuel user after d :
  read_memberships fuel user after d = follow member_room collate fuel MEMBERSHIP_PAGE_SIZE after (sort_rows member_room collate (memberships_of user d)).
Proof.
  revert after. induction fuel as [|fuel IH]; intros after; [done|]. cbn [read_memberships follow]. unfold memberships.
  destruct (page_after _ _ _ _ _) as [shown [k|]]; [|done]. by rewrite IH.
Qed.

(** Following the cursors lists every membership once.  Page by
    page, an account reads the rooms where it has a role and which it does not
    own, in the order of their identifiers, none twice and none left out. *)
Theorem membership_pages_are_complete fuel user d :
  (length (memberships_of user d) < fuel)%nat ->
  let read := read_memberships fuel user None d in
  StronglySorted (fun x y => collate (member_room x) (member_room y)) read
  /\ forall m, m ∈ read <-> exists row room, db_roles d !! (member_room m, user) = Some row /\ db_rooms d !! member_room m = Some room
       /\ owner_id room <> user /\ m = Membership (member_room m) (saved_name room) (row_role row).
Proof.
  intros Hfuel read. pose proof (sort_rows_ordered member_room collate (memberships_of user d) (memberships_distinct user d)) as Hs.
  assert (read = sort_rows member_room collate (memberships_of user d)) as Hread.
  { unfold read. rewrite read_memberships_follow. apply (follow_reads_all _ _ _ _ None); [exact Hs|unfold MEMBERSHIP_PAGE_SIZE; lia|].
    cbn [seek]. by rewrite sort_rows_permutation. }
  rewrite Hread. split; [done|]. intros m. rewrite sort_rows_permutation. apply elem_of_memberships.
Qed.
End memberships.

(** ** A club *)

Fixpoint perform_all (cmds : list (N * invite_command)) (d : invite_db) : invite_db :=
  match cmds with [] => d | (now, cmd) :: cmds => perform_all cmds (perform now cmd d).1 end.

Lemma perform_all_ok cmds d : db_ok d -> db_ok (perform_all cmds d).
Proof.
  revert d. induction cmds as [|[now cmd] cmds IH]; intros d Hok; [done|]. cbn. apply IH.
  destruct (perform now cmd d) as [d' who] eqn:Hx. by apply perform_advances in Hx as [? _ _ _].
Qed.

Definition nothing : invite_db := InviteDb ∅ ∅ ∅ ∅ ∅ 0.
Lemma nothing_ok : db_ok nothing.
Proof. split; cbn; intros; set_solver. Qed.

(** Account 0 owns the club and made a code for two new members; 1 and 2 are
    accounts. *)
Definition founding : list (N * invite_command) :=
  [(0%N, Register 10 (text_of "ada@club") None); (0%N, Register 10 (text_of "ben@club") None); (0%N, Register 10 (text_of "cy@club") None);
   (0%N, OpenRoom "club" (SavedRoom 0 (text_of "Club"))); (0%N, Mint "c0de" "club" Member 2 7 0)].
Definition club : invite_db := perform_all founding nothing.
Lemma club_ok : db_ok club.
Proof. apply perform_all_ok, nothing_ok. Qed.

Lemma redemption_is_exact_witness :
  exists d' granted, redeem_room_invite "c0de" 1 100 club = (d', Ok (Some ("club"%string, text_of "Club", granted))) /\ granted = Member /\ db_ok d'.
Proof.
  destruct (redeem_room_invite "c0de" 1 100 club) as [d' r] eqn:Hx.
  assert (is_Some (db_accounts club !! 1%N)) as Hacc by (vm_compute; eauto).
  destruct (redemption_is_exact "c0de" 1 100 club d' r club_ok Hacc Hx) as [Hok' _].
  assert (r = Ok (Some ("club"%string, text_of "Club", Member))) as -> by (apply (f_equal snd) in Hx; vm_compute in Hx; by rewrite <-Hx).
  exists d', Member. auto.
Defined.

Lemma invitation_lets_in_within_its_uses_witness :
  exists i, db_invites club !! "c0de"%string = Some i /\ uses_left i = 2%Z
    /\ NoDup (admissions "c0de" (invite_id i) [(1%N, Redeem "c0de" 1); (2%N, Redeem "c0de" 1); (3%N, Redeem "c0de" 2); (4%N, Redeem "c0de" 0)] club)
    /\ admissions "c0de" (invite_id i) [(1%N, Redeem "c0de" 1); (2%N, Redeem "c0de" 1); (3%N, Redeem "c0de" 2); (4%N, Redeem "c0de" 0)] club = [1%N; 2%N].
Proof.
  destruct (db_invites club !! "c0de"%string) as [i|] eqn:Hi; [|by vm_compute in Hi]. exists i. split; [done|].
  destruct (invitation_lets_in_within_its_uses "c0de" i [(1%N, Redeem "c0de" 1); (2%N, Redeem "c0de" 1); (3%N, Redeem "c0de" 2); (4%N, Redeem "c0de" 0)]
    club club_ok Hi) as (Hnd & _ & _).
  vm_compute in Hi. injection Hi as <-. split; [done|]. split; [exact Hnd|reflexivity].
Defined.

(** Some order of identifiers. *)
Definition by_code (x y : string) : Prop := (encode x < encode y)%positive.
#[export] Instance by_code_dec : RelDecision by_code.
Proof. intros x y. unfold by_code. apply _. Defined.
#[export] Instance by_code_strict : StrictOrder by_code.
Proof. split; [intros x Hx; unfold by_code in Hx; lia|intros x y z; unfold by_code; lia]. Qed.
#[export] Instance by_code_total : Trichotomy by_code.
Proof.
  intros x y. unfold by_code. destruct (Pos.lt_total (encode x) (encode y)) as [?|[He|?]]; [by left| |by right; right].
  right; left. by apply (inj encode).
Qed.
Definition code_collation : Collation := {| collate := by_code |}.

Lemma membership_pages_are_complete_witness :
  let d := (redeem_room_invite "c0de" 1 100 club).1 in
  (length (memberships_of 1 d) < 2)%nat
  /\ (forall m, m ∈ @read_memberships code_collation 2 1 None d <-> exists row room, db_roles d !! (member_room m, 1%N) = Some row
        /\ db_rooms d !! member_room m = Some room /\ owner_id room <> 1%N /\ m = Membership (member_room m) (saved_name room) (row_role row))
  /\ @read_memberships code_collation 2 1 None d = [Membership "club" (text_of "Club") Member].
Proof.
  intros d. assert (length (memberships_of 1 d) < 2)%nat as Hlen by (vm_compute; lia).
  destruct (@membership_pages_are_complete code_collation 2 1 d Hlen) as [_ Hm]. split; [exact Hlen|]. split; [exact Hm|vm_compute; reflexivity].
Defined.

(** The limit on live codes is tested when one is made: codes of an admin who
    was demoted do not count then, and count again after the next promotion. *)
Definition twenty (prefix : string) (by_ : N) : list (N * invite_command) :=
  (fun k => (0%N, Mint (prefix +:+ pretty k) "club" Member 1 7 by_)) <$> seq 0 20.
Lemma promotion_exceeds_invite_limit :
  size (live_room_invites "club" 0 (perform_all
    ([(0%N, SetRole "club" 1 Admin 0)] ++ twenty "a" 1 ++ [(0%N, SetRole "club" 1 Guest 0)] ++ twenty "b" 0 ++ [(0%N, SetRole "club" 1 Admin 0)]) club)) = 39%nat.
Proof. vm_compute. reflexivity. Qed.
