(* ===== verification/SavedHistory.v ===== *)
(** * Saved chat history ([src/src/room/history.rs], part of [attachments.rs])

    Public history of rooms and private conversations of accounts, as rows of
    the database.  The statements of the code are executed on the tables; a
    transaction holds the locks it needs (accounts, conversation, sender) until
    it commits, so it is one step here.  Times are in microseconds, as the
    database keeps them. *)

From S2P Require Import Prelude Paging Labels Settings Refusal Protocol Social Room Wire Process World Chat ChatRequests SocialRequests Tickets.

Local Open Scope handler_scope.

Definition MINUTE : N := 60 * 1000000.
Definition DAY : N := 86400 * 1000000.
(** The first day of the year 10000, which RFC 3339 cannot write. *)
Definition YEAR_10000 : timestamp := 253402300800 * 1000000.
Definition is_uuid (id : N) : Prop := (id < 2 ^ 128)%N.

(** Cursors are written with base64 and RFC 3339, identifiers by the uuid
    crate; [lower] is the database's. *)
Class HistoryText `{Codec} := {
  write_cursor : timestamp -> N -> string;
  uuid_text : N -> string;
  lower : text -> text;
  cursor_reads_back at_ id : (at_ < YEAR_10000)%N -> is_uuid id ->
    read_cursor (write_cursor at_ id) = Some (at_, id) /\ (String.length (write_cursor at_ id) <= 160)%nat;
  uuid_text_inj a b : is_uuid a -> is_uuid b -> uuid_text a = uuid_text b -> a = b;
  uuid_text_length a : String.length (uuid_text a) = 36%nat;
  parse_uuid_range s id : parse_uuid s = Some id -> is_uuid id
}.

Definition PRIVATE_MESSAGES_PER_MINUTE : nat := 30.
Definition PAGE_LIMIT : nat := 50.
Definition SEARCH_WINDOW : nat := N.to_nat 10000.
Definition CLEANUP_BATCH : nat := N.to_nat 1000.

(** ** Tables *)

Record message_row := MessageRow {
  msg_conversation : string;
  msg_room : option string;
  (** [sender_account], [recipient_account]. *)
  msg_sender : option N;
  msg_recipient : option N;
  msg_session : N;
  msg_client : string;
  msg_sent : timestamp;
  msg_expires : timestamp;
  msg_body : chat_entry
}.
#[export] Instance eta_message_row : Eta message_row := fun m =>
  MessageRow (msg_conversation m) (msg_room m) (msg_sender m) (msg_recipient m) (msg_session m) (msg_client m)
    (msg_sent m) (msg_expires m) (msg_body m).

Record inbox_row := InboxRow { inbox_conversation : string; last_message : N; last_sent : timestamp; inbox_expires : timestamp }.
Record cursor_row := CursorRow { read_message : N; read_sent : timestamp; read_expires : timestamp }.
#[export] Instance eta_cursor_row : Eta cursor_row := fun c => CursorRow (read_message c) (read_sent c) (read_expires c).
Record pin_row := PinRow { slot : N; pinned_at : timestamp }.

Record file_row := FileRow {
  file_owner : N; file_name : text; file_type : string; file_size : Z;
  file_message : option N; file_ephemeral : option N; file_room : option string; file_expires : timestamp }.
#[export] Instance eta_file_row : Eta file_row := fun f =>
  FileRow (file_owner f) (file_name f) (file_type f) (file_size f) (file_message f) (file_ephemeral f) (file_room f) (file_expires f).

(** [preferences] as they decode, or [None] when they do not. *)
Record chat_account := ChatAccount {
  account_name : text; account_preferences : option chat_preferences; account_color : option string;
  account_style : string; account_version : Z }.

Record history_db := HistoryDb {
  db_messages : gmap N message_row;
  (** By the account and its peer. *)
  db_inbox : gmap (N * N) inbox_row;
  (** By the account and the conversation. *)
  db_cursors : gmap (N * string) cursor_row;
  (** By the room and the message. *)
  db_pins : gmap (string * N) pin_row;
  db_files : gmap N file_row;
  (** [history_retention_days] of saved rooms. *)
  db_periods : gmap string Z;
  db_people : gmap N chat_account;
  (** Accepted contacts, the lower identifier first. *)
  db_contacts : gset (N * N);
  (** The account and the expiry of a session. *)
  db_sessions : gmap N (N * timestamp)
}.
#[export] Instance eta_history_db : Eta history_db := fun d =>
  HistoryDb (db_messages d) (db_inbox d) (db_cursors d) (db_pins d) (db_files d) (db_periods d) (db_people d) (db_contacts d)
    (db_sessions d).

Abbreviation saving A := (handler room_error history_db A).
Abbreviation requesting A := (handler auth_error history_db A).

Definition violation (code : string) : room_error := Database (SqlDatabase (Some code)).

Definition select {K A} `{Countable K} (P : K -> A -> bool) (m : gmap K A) : gmap K A := filter (fun x : K * A => P x.1 x.2 = true) m.
(** [fetch_optional] of a statement whose condition is unique. *)
Definition select_one {K A} `{Countable K} (P : K -> A -> bool) (m : gmap K A) : option (K * A) := head (map_to_list (select P m)).
(** [UPDATE ... SET ... WHERE]. *)
Definition update_where {K A} `{Countable K} (P : A -> bool) (f : A -> A) (m : gmap K A) : gmap K A :=
  (fun x => if P x then f x else x) <$> m.

(** ** Conversations *)

Definition live (now : timestamp) (m : message_row) : bool := (now <? msg_expires m)%N.
Definition removed (m : message_row) : bool := bool_decide (is_Some (ChatEntry.removed_at (msg_body m))).
Definition in_conversation (conversation : string) (m : message_row) : bool := bool_decide (msg_conversation m = conversation).
Definition in_room (room_id : string) (m : message_row) : bool := bool_decide (msg_room m = Some room_id).

Definition public_conversation (room_id : string) : string := String.append "room:" room_id.
Definition is_private (conversation : string) : bool := String.prefix "pm:" conversation.

Definition conversation_message (message : chat_entry) (account : bool) : chat_entry :=
  message <| ChatEntry.account_conversation := if account then Some true else None |>.

(** [at + Duration::days(days)]. *)
Definition days_later (days : Z) (at_ : timestamp) : timestamp := Z.to_N (Z.of_N at_ + days * Z.of_N DAY).

(** The order of messages: by time, then by identifier. *)
Definition earlier (x y : timestamp * N) : Prop := (x.1 < y.1)%N \/ (x.1 = y.1 /\ (x.2 < y.2)%N).
#[export] Instance earlier_dec : RelDecision earlier.
Proof. intros x y. unfold earlier. apply _. Defined.
#[export] Instance earlier_strict : StrictOrder earlier.
Proof. split; [intros x|intros x y z]; unfold earlier, complement; lia. Qed.
#[export] Instance earlier_total : TrichotomyT earlier.
Proof.
  intros [a b] [a' b']. destruct (decide (earlier (a, b) (a', b'))) as [?|Hn]; [by left; left|].
  destruct (decide ((a, b) = (a', b'))) as [?|Hne]; [by left; right|right]. unfold earlier in *. cbn in *.
  destruct (decide (a = a')) as [->|]; [|lia]. assert (b <> b') by congruence. lia.
Qed.
#[export] Instance later_total : Trichotomy (flip earlier) := flip_trichotomy earlier.

Section history.
Context `{Unicode, HistoryText}.

Definition private_conversation (a b : N) : string :=
  let '(a, b) := if (a <? b)%N then (a, b) else (b, a) in
  String.append "pm:" (String.append (uuid_text a) (String.append ":" (uuid_text b))).

Definition allows_private_messages_from (person : chat_account) (peer : N) : bool :=
  match account_preferences person with
  | None => false
  | Some preferences => pref_allow_private_messages preferences && negb (bool_decide (Some peer ∈ pref_ignored preferences))
  end.

Definition unavailable : room_error := Refused (Unavailable "Private message unavailable").

Definition lock_private_accounts (sender recipient : N) : saving (chat_account * chat_account) :=
  ensure (negb (sender =? recipient)%N) unavailable ;;
  let! d := hget in
  match db_people d !! sender, db_people d !! recipient with
  | Some from, Some to => hret (from, to)
  | _, _ => bail unavailable
  end.

(** Each account with its identifier. *)
Definition private_accounts_allow (sender recipient : N) (from to : chat_account) : bool :=
  allows_private_messages_from from recipient && allows_private_messages_from to sender.

(** Private messages of the account in the last minute. *)
Definition recent_private (sender : N) (now : timestamp) (d : history_db) : gmap N message_row :=
  select (fun _ m => bool_decide (msg_sender m = Some sender) && bool_decide (is_Some (msg_recipient m)) && (now <? msg_sent m + MINUTE)%N)
    (db_messages d).
Definition reserve_private_message (sender : N) (now : timestamp) : saving unit :=
  let! d := hget in
  ensure (negb (PRIVATE_MESSAGES_PER_MINUTE <=? Nat.min PRIVATE_MESSAGES_PER_MINUTE (size (recent_private sender now d)))%nat)
    (Refused (Refusal.RateLimited "Private messages are rate limited; wait a moment")).

(** ** Attachments *)

Definition attachment_invalid : room_error := Refused (NotFound "Attachment unavailable").
Definition unbound (f : file_row) : bool := bool_decide (file_message f = None) && bool_decide (file_ephemeral f = None).

Definition pending_metadata (owner : N) (ids : list N) (now : timestamp) : saving (list chat_attachment) :=
  ensure (valid_ids ids) attachment_invalid ;;
  let! d := hget in
  let found := select (fun id f => bool_decide (id ∈ ids) && (file_owner f =? owner)%N && unbound f && (now <? file_expires f)%N) (db_files d) in
  ensure (bool_decide (size found = length ids)) attachment_invalid ;;
  hret (omap (fun id => (fun f => ChatAttachment id (file_name f) (file_type f) (file_size f)) <$> found !! id) ids).

Definition bind_durable (ids : list N) (message : N) (room_id : option string) (expires : timestamp) : saving unit :=
  let! d := hget in
  let found := select (fun id f => bool_decide (id ∈ ids) && unbound f) (db_files d) in
  ensure (bool_decide (size found = length ids)) attachment_invalid ;;
  hmodify (fun d => d <| db_files := map_imap (fun id f => Some
    (if bool_decide (id ∈ ids) && unbound f
     then f <| file_message := Some message |> <| file_room := room_id |> <| file_expires := expires |> else f)) (db_files d) |>).

Definition bind_ephemeral (owner : N) (ids : list N) (message : N) (room_id : string) (now : timestamp) : saving (list chat_attachment) :=
  transaction
    (let! metadata := pending_metadata owner ids now in
     hmodify (fun d => d <| db_files := map_imap (fun id f => Some
       (if bool_decide (id ∈ ids)
        then f <| file_ephemeral := Some message |> <| file_room := Some room_id |> <| file_expires := (now + DAY)%N |> else f)) (db_files d) |>) ;;
     hret metadata).

(** ** Saving a message *)

Definition of_attempt (conversation : string) (session : N) (client : string) (m : message_row) : bool :=
  in_conversation conversation m && (msg_session m =? session)%N && bool_decide (msg_client m = client).
Definition find_attempt (conversation : string) (session : N) (client : string) (d : history_db) : option message_row :=
  snd <$> select_one (fun _ => of_attempt conversation session client) (db_messages d).

Definition reply_id (message : chat_entry) : option N := reply_message_id <$> ChatEntry.reply_to message.
Definition file_ids (message : chat_entry) : list N := attachment_id <$> ChatEntry.attachments message.

(** A repeated attempt is one for the message that was saved. *)
Definition same_attempt (saved message : chat_entry) (attachment_ids : list N) : bool :=
  bool_decide (is_Some (ChatEntry.removed_at saved))
  || (bool_decide (file_ids saved = attachment_ids)
      && (bool_decide (is_Some (ChatEntry.edited_at saved))
          || (bool_decide (ChatEntry.content saved = ChatEntry.content message) && bool_decide (reply_id saved = reply_id message)))).

Definition already_used : room_error := Refused (Conflict "Message ID was already used").

(** The quote of an original that is still there is made from it. *)
Definition current_quote (conversation : string) (now : timestamp) (d : history_db) (reply : chat_reply_ref) : chat_reply_ref :=
  match db_messages d !! reply_message_id reply with
  | Some original =>
      if in_conversation conversation original && live now original
      then ChatReplyRef (reply_message_id reply) (reply_participant_id reply) (reply_participant_name reply)
             (if removed original then text_of "Message removed" else quote_excerpt (ChatEntry.content (msg_body original)))
      else reply
  | None => reply
  end.

(** The constraints of [chat_messages]. *)
Definition check_row (m : message_row) : saving unit :=
  let! d := hget in
  ensure (match msg_room m, msg_sender m, msg_recipient m with
          | Some room_id, _, None => (String.length room_id <=? 128)%nat
          | None, Some _, Some _ => true
          | _, _, _ => false
          end && (String.length (msg_client m) <=? 128)%nat) (violation "23514") ;;
  ensure (match msg_room m with Some room_id => bool_decide (is_Some (db_periods d !! room_id)) | None => true end
          && match msg_sender m with Some a => bool_decide (is_Some (db_people d !! a)) | None => true end
          && match msg_recipient m with Some a => bool_decide (is_Some (db_people d !! a)) | None => true end) (violation "23503").

(** [INSERT ... ON CONFLICT (conversation, sender_session, client_message_id)
    DO NOTHING]: whether the row was inserted. *)
Definition insert_row (id : N) (m : message_row) : saving bool :=
  let! d := hget in
  match find_attempt (msg_conversation m) (msg_session m) (msg_client m) d with
  | Some _ => hret false
  | None =>
      check_row m ;;
      ensure (bool_decide (db_messages d !! id = None)) (violation "23505") ;;
      hmodify (fun d => d <| db_messages ::= <[id := m]> |>) ;;
      hret true
  end.

Definition upsert_inbox (user peer : N) (row : inbox_row) : saving unit :=
  let! d := hget in
  ensure (negb (user =? peer)%N) (violation "23514") ;;
  ensure (bool_decide (is_Some (db_people d !! user)) && bool_decide (is_Some (db_people d !! peer))) (violation "23503") ;;
  hmodify (fun d => d <| db_inbox ::= partial_alter (fun old => Some
    match old with
    | None => row
    | Some old => if bool_decide (earlier (last_sent old, last_message old) (last_sent row, last_message row))
                  then InboxRow (inbox_conversation old) (last_message row) (last_sent row) (inbox_expires row) else old
    end) (user, peer) |>).

Definition conversation_of (room_id : option string) (sender : N) (recipient : option N) (authenticated : bool) : result room_error string :=
  match room_id, recipient with
  | Some room_id, None => Ok (public_conversation room_id)
  | None, Some recipient => if authenticated then Ok (private_conversation sender recipient)
                            else Err (Refused (Invalid "Invalid saved conversation"))
  | _, _ => Err (Refused (Invalid "Invalid saved conversation"))
  end.

Definition insert_message (room_id : option string) (session : N) (authenticated : bool) (days : Z) (message : chat_entry)
  (attachment_ids : list N) (now : timestamp) : saving chat_entry :=
  let sender := ChatEntry.participant_id message in
  let recipient := ChatEntry.recipient_id message in
  let client := ChatEntry.client_message_id message in
  let account := bool_decide (is_Some recipient) in
  let! conversation := hlift (conversation_of room_id sender recipient authenticated) in
  let message := conversation_message message account in
  let! d := hget in
  match find_attempt conversation session client d with
  | Some existing =>
      ensure (same_attempt (msg_body existing) message attachment_ids) already_used ;;
      hret (conversation_message (msg_body existing) account)
  | None =>
      (if account then reserve_private_message sender now else hret tt) ;;
      ensure (bool_decide (attachment_ids = []) || authenticated) (Refused (Forbidden "Sign in to attach files")) ;;
      let! attachments := pending_metadata sender attachment_ids now in
      let message := message <| ChatEntry.attachments := attachments |>
                             <| ChatEntry.reply_to ::= fmap (current_quote conversation now d) |> in
      let id := ChatEntry.message_id message in
      let at_ := ChatEntry.sent_at message in
      let expires := days_later days at_ in
      let! inserted := insert_row id
        (MessageRow conversation room_id (if authenticated then Some sender else None) recipient session client at_ expires message) in
      if negb inserted then
        let! d := hget in
        match find_attempt conversation session client d with
        | Some saved =>
            let saved := msg_body saved in
            ensure (bool_decide (is_Some (ChatEntry.removed_at saved)) || bool_decide (is_Some (ChatEntry.edited_at saved))
                    || (bool_decide (ChatEntry.content saved = ChatEntry.content message) && bool_decide (reply_id saved = reply_id message)))
              already_used ;;
            hret (conversation_message saved account)
        | None => bail (Database RowNotFound)
        end
      else
        bind_durable attachment_ids id room_id expires ;;
        match recipient with
        | None => hret message
        | Some recipient =>
            let row := InboxRow conversation id at_ expires in
            let low := N.min sender recipient in
            let high := N.max sender recipient in
            upsert_inbox low high row ;;
            upsert_inbox high low row ;;
            hret message
        end
  end.

Definition persist_message (room_id : option string) (session : N) (authenticated : bool) (days : Z) (message : chat_entry)
  (attachment_ids : list N) (now : timestamp) : saving chat_entry :=
  transaction
    (match ChatEntry.recipient_id message with
     | Some recipient =>
         let sender := ChatEntry.participant_id message in
         let! people := lock_private_accounts sender recipient in
         ensure (authenticated && private_accounts_allow sender recipient people.1 people.2) unavailable
     | None => hret tt
     end ;;
     insert_message room_id session authenticated days message attachment_ids now).

(** ** Reading *)

Definition row_key (x : N * message_row) : timestamp * N := (msg_sent x.2, x.1).
Definition rows_of (conversation : string) (now : timestamp) (d : history_db) : list (N * message_row) :=
  map_to_list (select (fun _ m => in_conversation conversation m && live now m) (db_messages d)).

(** Is [part] found in [whole]? *)
Fixpoint occurs (part whole : text) : bool :=
  bool_decide (part `prefix_of` whole) || match whole with [] => false | _ :: whole => occurs part whole end.

Definition read_marker (account : option N) (conversation : string) (now : timestamp) (d : history_db) : option (timestamp * N) :=
  match account with
  | Some account => match db_cursors d !! (account, conversation) with
                    | Some c => if (now <? read_expires c)%N then Some (read_sent c, read_message c) else None
                    | None => None
                    end
  | None => None
  end.

Definition after_marker (marker : option (timestamp * N)) (key : timestamp * N) : bool :=
  match marker with Some marker => bool_decide (earlier marker key) | None => true end.

(** The rows of a page before it is cut, and the first message the account has not read. *)
Definition first_unread (account : option N) (conversation : string) (now : timestamp) (d : history_db) : option N :=
  match account with
  | Some a =>
      let marker := read_marker account conversation now d in
      fst <$> head (filter (fun x => negb (bool_decide (msg_sender x.2 = Some a)) && negb (removed x.2) && after_marker marker (row_key x) = true)
                      (sort_rows row_key earlier (rows_of conversation now d)))
  | None => None
  end.

Definition anchor_of (query : history_query) (unread : option N) : option N :=
  match query_around query with Some id => Some id | None => if resumes query then unread else None end.

Definition query_cursor (query : history_query) : option (timestamp * N) :=
  match query_before query with Some c => read_cursor c | None => query_after query ≫= read_cursor end.

Definition matches (search : text) (m : message_row) : bool :=
  negb (removed m) && occurs (lower (trim search)) (lower (ChatEntry.content (msg_body m))).

Definition page_rows (conversation : string) (query : history_query) (unread : option N) (limit : nat) (now : timestamp) (d : history_db)
  : result room_error (list (N * message_row)) :=
  let rows := rows_of conversation now d in
  let oldest_first := sort_rows row_key earlier rows in
  let newest_first := sort_rows row_key (flip earlier) rows in
  let cursor := query_cursor query in
  match anchor_of query unread with
  | Some anchor =>
      match db_messages d !! anchor with
      | Some m =>
          if in_conversation conversation m && live now m then
            let at_ := (msg_sent m, anchor) in
            Ok (take (limit / 2) (filter (fun x => earlier (row_key x) at_) newest_first)
                ++ take (limit - limit / 2) (filter (fun x => ~ earlier (row_key x) at_) oldest_first))
          else Err (Database RowNotFound)
      | None => Err (Database RowNotFound)
      end
  | None =>
      match query_q query with
      | Some search =>
          Ok (take (limit + 1) (filter (fun x => matches search x.2 = true)
                                  (seek row_key (flip earlier) cursor (take SEARCH_WINDOW newest_first))))
      | None =>
          if bool_decide (is_Some (query_after query)) then Ok (take (limit + 1) (seek row_key earlier cursor oldest_first))
          else Ok (take (limit + 1) (seek row_key (flip earlier) cursor newest_first))
      end
  end.

Definition cursor_at (x : N * message_row) : string := write_cursor (msg_sent x.2) x.1.

(** The cursors of the pages before and after the rows shown. *)
Definition page_cursors (conversation : string) (searching more : bool) (shown : list (N * message_row)) (now : timestamp) (d : history_db)
  : option string * option string :=
  if searching then (if more then cursor_at <$> head shown else None, None)
  else match head shown, last shown with
       | Some first, Some final =>
           let exists_row P := existsb P (rows_of conversation now d) in
           (if exists_row (fun x => bool_decide (earlier (row_key x) (row_key first))) then Some (cursor_at first) else None,
            if exists_row (fun x => bool_decide (earlier (row_key final) (row_key x))) then Some (cursor_at final) else None)
       | _, _ => (None, None)
       end.

(** The text of a refused query. *)
Definition failure_text (f : failure) : string :=
  match f with Message m | SocialFailure _ m => m | PasswordRequired | OfRoomError _ => "" end.

Definition page (conversation : string) (account : option N) (days : Z) (query : history_query) (now : timestamp) (d : history_db)
  : result room_error history_page :=
  match validate_query query with
  | Err f => Err (Refused (Invalid (failure_text f)))
  | Ok _ =>
      let limit := from_option N.to_nat PAGE_LIMIT (query_limit query) in
      let unread := first_unread account conversation now d in
      match page_rows conversation query unread limit now d with
      | Err e => Err e
      | Ok rows =>
          let shown := sort_rows row_key earlier (take limit rows) in
          let '(next, newer) := page_cursors conversation (bool_decide (is_Some (query_q query))) (limit <? length rows)%nat shown now d in
          Ok (HistoryPage ((fun x => conversation_message (msg_body x.2) (is_private conversation)) <$> shown) next newer unread
                (snd <$> read_marker account conversation now d) days)
      end
  end.

(** Whether the marker moved, with the message it is at. *)
Definition mark_read (conversation : string) (account message : N) (now : timestamp) : saving (N * bool) :=
  transaction
    (let! d := hget in
     match db_messages d !! message with
     | Some m =>
         ensure (in_conversation conversation m && live now m) (Database RowNotFound) ;;
         match db_cursors d !! (account, conversation) with
         | None =>
             ensure (bool_decide (is_Some (db_people d !! account))) (violation "23503") ;;
             hmodify (fun d => d <| db_cursors ::= <[(account, conversation) := CursorRow message (msg_sent m) (msg_expires m)]> |>) ;;
             hret (message, true)
         | Some c =>
             if bool_decide (earlier (read_sent c, read_message c) (msg_sent m, message)) then
               hmodify (fun d => d <| db_cursors ::= <[(account, conversation) :=
                 CursorRow message (msg_sent m) (N.max (read_expires c) (msg_expires m))]> |>) ;;
               hret (message, true)
             else
               (if (read_expires c <? msg_expires m)%N
                then hmodify (fun d => d <| db_cursors ::= <[(account, conversation) := c <| read_expires := msg_expires m |>]> |>)
                else hret tt) ;;
               hret (read_message c, false)
         end
     | None => bail (Database RowNotFound)
     end).

(** ** Reactions, removal and edits *)

Definition set_reactions (reactions : list chat_reaction) (m : message_row) : message_row :=
  m <| msg_body ::= fun b => b <| ChatEntry.reactions := reactions |> |>.

Definition save_reactions (id : N) (reactions : list chat_reaction) (now : timestamp) : saving unit :=
  hmodify (fun d => d <| db_messages ::=
    alter (fun m => if live now m && negb (removed m) then set_reactions reactions m else m) id |>).

Definition react_public (room_id : string) (id participant : N) (ignored : list N) (e : text) (now : timestamp) : saving (option chat_entry) :=
  transaction
    (let! d := hget in
     match db_messages d !! id with
     | Some m =>
         if in_room room_id m && live now m && negb (removed m) && negb (bool_decide (ChatEntry.participant_id (msg_body m) ∈ ignored)) then
           match toggle_reactions (ChatEntry.reactions (msg_body m)) participant e with
           | Ok reactions =>
               hmodify (fun d => d <| db_messages ::= alter (set_reactions reactions) id |>) ;;
               hret (Some ((msg_body m) <| ChatEntry.reactions := reactions |>))
           | Err message => bail (Refused (Invalid message))
           end
         else hret None
     | None => hret None
     end).

Definition lookup_public (room_id : string) (id : N) (now : timestamp) (d : history_db) : option (chat_entry * bool) :=
  match db_messages d !! id with
  | Some m => if in_room room_id m && live now m then Some (msg_body m, bool_decide (is_Some (msg_sender m))) else None
  | None => None
  end.

Definition erase_body (removed_at : timestamp) (b : chat_entry) : chat_entry :=
  b <| ChatEntry.content := [] |> <| ChatEntry.attachments := [] |> <| ChatEntry.reply_to := None |> <| ChatEntry.reactions := [] |>
    <| ChatEntry.removed_at := Some (default removed_at (ChatEntry.removed_at b)) |>.

Definition set_quote (quote : text) (m : message_row) : message_row :=
  m <| msg_body ::= fun b => b <| ChatEntry.reply_to ::= fmap (fun reply =>
    ChatReplyRef (reply_message_id reply) (reply_participant_id reply) (reply_participant_name reply) quote) |> |>.
Definition quotes (id : N) (m : message_row) : bool := bool_decide (reply_id (msg_body m) = Some id).

Definition erase_row (removed_at : timestamp) (m : message_row) : message_row := m <| msg_body ::= erase_body removed_at |>.

(** Part of the transaction that records the decision. *)
Definition remove_public (room_id : string) (id : N) (removed_at now : timestamp) : saving (option (chat_entry * bool)) :=
  hmodify (fun d => d <| db_messages ::= alter (fun m => if in_room room_id m && live now m then erase_row removed_at m else m) id |>) ;;
  let! d := hget in
  let row := lookup_public room_id id now d in
  hmodify (fun d => d <| db_files ::= select (fun _ f => negb (bool_decide (file_message f = Some id) && bool_decide (file_room f = Some room_id))) |>) ;;
  hmodify (fun d => d <| db_messages ::= update_where (fun m => in_room room_id m && quotes id m) (set_quote (text_of "Message removed")) |>) ;;
  hmodify (fun d => d <| db_pins ::= delete (room_id, id) |>) ;;
  hret row.

Definition may_edit (actor : N) (guest_session : option N) (m : message_row) : bool :=
  match msg_sender m with
  | Some a => (a =? actor)%N
  | None => bool_decide (guest_session = Some (msg_session m))
  end.

Definition edit_in_transaction (conversation : string) (actor : N) (guest_session : option N) (message : N) (request : edit_request)
  (now : timestamp) : saving chat_entry :=
  let! d := hget in
  match db_messages d !! message with
  | Some m =>
      ensure (in_conversation conversation m && live now m && may_edit actor guest_session m) (Database RowNotFound) ;;
      let saved := conversation_message (msg_body m) (is_private conversation) in
      match apply_edit now saved request with
      | Err message => bail (Refused (Invalid message))
      | Ok edited =>
          (if (ChatEntry.revision saved =? ChatEntry.revision edited)%N then hret tt
           else
             hmodify (fun d => d <| db_messages ::= alter (fun m => m <| msg_body := edited |>) message |>) ;;
             hmodify (fun d => d <| db_messages ::=
               update_where (fun m => in_conversation conversation m && quotes message m && live now m)
                 (set_quote (quote_excerpt (ChatEntry.content edited))) |>)) ;;
          hret edited
      end
  | None => bail (Database RowNotFound)
  end.

Definition edit_saved (room_id : option string) (actor : N) (guest_session : option N) (original : chat_entry) (request : edit_request)
  (now : timestamp) : saving chat_entry :=
  transaction
    (let! conversation :=
       match ChatEntry.recipient_id original with
       | Some peer =>
           let! people := lock_private_accounts actor peer in
           ensure (bool_decide (guest_session = None) && private_accounts_allow actor peer people.1 people.2) unavailable ;;
           hret (private_conversation actor peer)
       | None =>
           match room_id with
           | Some room_id => hret (public_conversation room_id)
           | None => bail (Refused (Unavailable "Room unavailable"))
           end
       end in
     edit_in_transaction conversation actor guest_session (ChatEntry.message_id original) request now).

Definition private_message (own peer message : N) (now : timestamp) (d : history_db) : option chat_entry :=
  match db_messages d !! message with
  | Some m => if in_conversation (private_conversation own peer) m && live now m && negb (removed m)
              then Some (conversation_message (msg_body m) true) else None
  | None => None
  end.

Definition set_private_reaction_in_transaction (conversation : string) (message actor : N) (e : text) (present : bool) (now : timestamp)
  : saving chat_entry :=
  let! d := hget in
  match db_messages d !! message with
  | Some m =>
      ensure (in_conversation conversation m && live now m && negb (removed m)) (Database RowNotFound) ;;
      let saved := conversation_message (msg_body m) true in
      match set_reaction (ChatEntry.reactions saved) actor e present with
      | Err message => bail (Refused (Invalid message))
      | Ok reactions =>
          hmodify (fun d => d <| db_messages ::= alter (set_reactions reactions) (ChatEntry.message_id saved) |>) ;;
          hret (saved <| ChatEntry.reactions := reactions |>)
      end
  | None => bail (Database RowNotFound)
  end.

(** ** Pins and retention *)

Definition pins_of (room_id : string) (d : history_db) : list (N * pin_row) :=
  omap (fun x : (string * N) * pin_row => if bool_decide (x.1.1 = room_id) then Some (x.1.2, x.2) else None) (map_to_list (db_pins d)).

Definition pinned_messages (room_id : string) (now : timestamp) (d : history_db) : list chat_entry :=
  take 3 (omap (fun x : N * pin_row => match db_messages d !! x.1 with
                  | Some m => if in_room room_id m && live now m && negb (removed m) then Some (msg_body m) else None
                  | None => None
                  end) (sort_rows (fun x : N * pin_row => (pinned_at x.2, x.1)) (flip earlier) (pins_of room_id d))).

Definition free_slot (room_id : string) (d : history_db) : option N :=
  head (filter (fun s => ~ s ∈ slot <$> (pins_of room_id d).*2) [1; 2; 3]%N).

Definition set_pin (room_id : string) (message : N) (pinned : bool) (now : timestamp) : saving unit :=
  transaction
    (hmodify (fun d => d <| db_pins ::= select (fun k _ =>
       negb (bool_decide (k.1 = room_id) && match db_messages d !! k.2 with Some m => negb (live now m) || removed m | None => false end)) |>) ;;
     let! d := hget in
     if pinned then
       ensure (match db_messages d !! message with Some m => in_room room_id m && live now m && negb (removed m) | None => false end)
         (Database RowNotFound) ;;
       if bool_decide (is_Some (db_pins d !! (room_id, message))) then hret tt
       else match free_slot room_id d with
            | Some s => hmodify (fun d => d <| db_pins ::= <[(room_id, message) := PinRow s now]> |>)
            | None => bail (Refused (Conflict "Unpin a message before pinning another; rooms keep up to three"))
            end
     else hmodify (fun d => d <| db_pins ::= delete (room_id, message) |>)).

(** Messages go with their pins and attachments. *)
Definition delete_messages (P : N -> message_row -> bool) (d : history_db) : history_db :=
  let kept := select (fun id m => negb (P id m)) (db_messages d) in
  d <| db_messages := kept |>
    <| db_pins ::= select (fun k _ => bool_decide (is_Some (kept !! k.2))) |>
    <| db_files ::= select (fun _ f => match file_message f with Some id => bool_decide (is_Some (kept !! id)) | None => true end) |>.

Definition set_retention (room_id : string) (days : Z) (now : timestamp) : saving unit :=
  ensure (bool_decide (days ∈ ROOM_HISTORY_RETENTION_DAYS)) (Refused (Invalid "Invalid history retention")) ;;
  transaction
    (let! d := hget in
     ensure (bool_decide (is_Some (db_periods d !! room_id))) (Database RowNotFound) ;;
     hmodify (fun d => d <| db_periods ::= <[room_id := days]> |>) ;;
     hmodify (delete_messages (fun _ m => in_room room_id m && ((days =? 0)%Z || (days_later days (msg_sent m) <=? now)%N))) ;;
     hmodify (fun d => d <| db_messages ::= update_where (in_room room_id) (fun m => m <| msg_expires ::= N.min (days_later days (msg_sent m)) |>) |>) ;;
     hmodify (fun d => d <| db_files ::= fmap (fun f =>
       match file_message f ≫= fun id => db_messages d !! id with
       | Some m => if in_room room_id m then f <| file_expires ::= N.min (msg_expires m) |> else f
       | None => f
       end) |>) ;;
     if (days =? 0)%Z then hmodify (fun d => d <| db_cursors ::= select (fun k _ => negb (bool_decide (k.2 = public_conversation room_id))) |>)
     else hret tt).

(** ** Cleanup *)

(** The rows that are over, the first to expire first; at most one batch. *)
Definition expired_batch {K A} `{Countable K} (expires : A -> timestamp) (now : timestamp) (m : gmap K A) : list K :=
  (take CLEANUP_BATCH (sort_rows (fun x : K * A => expires x.2) N.lt (map_to_list (select (fun _ x => (expires x <=? now)%N) m)))).*1.
Definition drop_batch {K A} `{Countable K} (batch : list K) (m : gmap K A) : gmap K A := select (fun k _ => negb (bool_decide (k ∈ batch))) m.

(** [attachments::cleanup] and the three deletions of one turn; how many rows each removed. *)
Definition cleanup (now : timestamp) : saving nat := fun d =>
  let batch := expired_batch file_expires now (db_files d) in (d <| db_files ::= drop_batch batch |>, Ok (length batch)).
Definition cleanup_turn (now : timestamp) : saving bool :=
  let! files := cleanup now in
  let! d := hget in
  let messages := expired_batch msg_expires now (db_messages d) in
  hmodify (delete_messages (fun id _ => bool_decide (id ∈ messages))) ;;
  let inbox := expired_batch inbox_expires now (db_inbox d) in
  hmodify (fun d => d <| db_inbox ::= drop_batch inbox |>) ;;
  let cursors := expired_batch read_expires now (db_cursors d) in
  hmodify (fun d => d <| db_cursors ::= drop_batch cursors |>) ;;
  hret ((files <? CLEANUP_BATCH)%nat && (length messages <? CLEANUP_BATCH)%nat && (length inbox <? CLEANUP_BATCH)%nat
        && (length cursors <? CLEANUP_BATCH)%nat).

(** One sweep of [spawn_retention]; it ends early when nothing was full. *)
Fixpoint cleanup_turns (n : nat) (now : timestamp) : saving unit :=
  match n with
  | O => hret tt
  | S n => let! done := cleanup_turn now in if done then hret tt else cleanup_turns n now
  end.
Definition cleanup_sweep : timestamp -> saving unit := cleanup_turns 16.

(** ** Requests of accounts *)

(** What the server found out before the handler: a request permit and the
    claims of the caller. *)
Record account_request := AccountRequest { account_permit : bool; claims_of : result auth_error claims }.

Definition account_of (c : claims) : requesting N :=
  match parse_uuid (sub c) with Some own => hret own | None => bail InvalidToken end.
Definition account_claims (q : account_request) : requesting claims :=
  ensure (account_permit q) ServiceBusy ;;
  hlift (claims_of q).

Definition route_error (e : room_error) : auth_error :=
  match e with Refused r => RefusedByRoom r | Database e => database_error e end.
Definition edit_error (e : room_error) : auth_error :=
  match e with
  | Database RowNotFound => InvalidInput "Message unavailable"
  | Refused _ => InvalidInput "Message unavailable or changed; refresh before editing"
  | Database e => database_error e
  end.
Definition refused_unavailable (e : room_error) : auth_error :=
  match e with Refused _ => InvalidInput "Private message unavailable" | Database e => database_error e end.
Definition read_error (e : room_error) : auth_error :=
  match e with
  | Database RowNotFound | Refused _ => InvalidInput "Message unavailable"
  | Database e => database_error e
  end.

Definition ensure_unexpired_claim (c : claims) (now : timestamp) : requesting unit :=
  ensure (exp c <? 2 ^ 63)%N InvalidToken ;;
  ensure (now / 1000000 <? exp c)%N TokenExpired.

Definition validate_private_session (c : claims) (own : N) (now : timestamp) : requesting unit :=
  ensure_unexpired_claim c now ;;
  let! d := hget in
  ensure (match db_sessions d !! sid c with Some (user, expires) => (user =? own)%N && (now <? expires)%N | None => false end) InvalidToken ;;
  ensure_unexpired_claim c now.

(** [PrivateWrite::begin]: both accounts, locked until the commit. *)
Definition begin_private_write (c : claims) (own peer : N) (lock_error : room_error -> auth_error) (now : timestamp)
  : requesting (chat_account * chat_account) :=
  let! people := map_error lock_error (lock_private_accounts own peer) in
  ensure (bool_decide (account_version people.1 = auth_version c)) InvalidToken ;;
  validate_private_session c own now ;;
  hret people.

Definition save_private_edit (c : claims) (peer message : N) (request : edit_request) (now : timestamp) : requesting chat_entry :=
  ensure_unexpired_claim c now ;;
  let! own := account_of c in
  transaction
    (let! people := begin_private_write c own peer edit_error now in
     ensure (private_accounts_allow own peer people.1 people.2) (InvalidInput "Private message unavailable") ;;
     let! edited := map_error edit_error (edit_in_transaction (private_conversation own peer) own None message request now) in
     ensure_unexpired_claim c now ;;
     hret edited).

Definition save_private_reaction (c : claims) (peer message : N) (e : text) (present : bool) (now : timestamp) : requesting chat_entry :=
  ensure_unexpired_claim c now ;;
  let! own := account_of c in
  ensure (negb (own =? peer)%N && bool_decide (e ∈ REACTIONS)) (InvalidInput "Private reaction unavailable") ;;
  transaction
    (let! people := begin_private_write c own peer edit_error now in
     ensure (private_accounts_allow own peer people.1 people.2) (InvalidInput "Private reaction unavailable") ;;
     let! saved := map_error edit_error (set_private_reaction_in_transaction (private_conversation own peer) message own e present now) in
     ensure_unexpired_claim c now ;;
     hret saved).

(** *** The inbox *)

Record conversation_item := Conversation { peer_id : N; peer_name : text; last_entry : chat_entry; unread_count : nat }.

(** A row of the inbox joined with its peer and its last message. *)
Record inbox_item := InboxItem { item_peer : N; item_name : text; item_row : inbox_row; item_body : chat_entry }.
Definition item_key (x : inbox_item) : timestamp * N := (last_sent (item_row x), last_message (item_row x)).

Definition inbox_items (own : N) (now : timestamp) (d : history_db) : list inbox_item :=
  omap (fun x : (N * N) * inbox_row =>
          if bool_decide (x.1.1 = own) && (now <? inbox_expires x.2)%N
          then match db_people d !! x.1.2, db_messages d !! last_message x.2 with
               | Some peer, Some m => if live now m then Some (InboxItem x.1.2 (account_name peer) x.2 (msg_body m)) else None
               | _, _ => None
               end
          else None) (map_to_list (db_inbox d)).

(** A message to the account after what it has read of the conversation. *)
Definition incoming (own : N) (now : timestamp) (d : history_db) (id : N) (m : message_row) : bool :=
  bool_decide (msg_recipient m = Some own) && live now m
  && after_marker (read_marker (Some own) (msg_conversation m) now d) (msg_sent m, id).
Definition unread_in (conversation : string) (own : N) (now : timestamp) (d : history_db) : nat :=
  Nat.min (N.to_nat 1000) (size (select (fun id m => in_conversation conversation m && incoming own now d id m) (db_messages d))).

Definition inbox (q : account_request) (query : history_query) (now : timestamp) : requesting (list conversation_item * option string) :=
  let! c := account_claims q in
  let! own := account_of c in
  map_error (fun f => InvalidInput (failure_text f)) (hlift (validate_query query)) ;;
  let! d := hget in
  let '(shown, next) := page_after item_key (flip earlier) PAGE_LIMIT (query_before query ≫= read_cursor)
                          (sort_rows item_key (flip earlier) (inbox_items own now d)) in
  hret ((fun x => Conversation (item_peer x) (item_name x) (conversation_message (item_body x) true)
                    (unread_in (inbox_conversation (item_row x)) own now d)) <$> shown,
        (fun k : timestamp * N => write_cursor k.1 k.2) <$> next).

Definition unread_summary (q : account_request) (now : timestamp) : requesting nat :=
  let! c := account_claims q in
  let! own := account_of c in
  let! d := hget in
  hret (Nat.min (N.to_nat 1000) (size (select (fun id m => negb (removed m) && incoming own now d id m) (db_messages d)))).

Definition messages (q : account_request) (peer : N) (query : history_query) (now : timestamp) : requesting history_page :=
  let! c := account_claims q in
  let! own := account_of c in
  map_error (fun f => InvalidInput (failure_text f)) (hlift (validate_query query)) ;;
  let! d := hget in
  map_error route_error (hlift (page (private_conversation own peer) (Some own) PM_RETENTION_DAYS query now d)).

Definition read (q : account_request) (peer message : N) (now : timestamp) : requesting (N * bool) :=
  let! c := account_claims q in
  let! own := account_of c in
  map_error read_error (mark_read (private_conversation own peer) own message now).

(** *** Sending from the inbox *)

(** What a handler of the room manager sees of the room a first message names. *)
Record room_context := RoomContext {
  context_room : option room; context_wire : wire; control_admitted : bool; context_draining : bool; still_mapped : bool }.

Definition can_start_account_conversation (w : wire) (r : room) (sender recipient : participant_id) : bool :=
  match Room.participants r !! sender, Room.participants r !! recipient with
  | Some from, Some to =>
      Participant.authenticated from && Participant.authenticated to
      && ParticipantSocial.connected (Participant.social from) && ParticipantSocial.connected (Participant.social to)
      && negb (is_closed w (Participant.sender from)) && negb (is_closed w (Participant.sender to))
      && may_chat r from && can_private_message from to
  | _, _ => false
  end.

Definition private_creation_context (c : room_context) (own peer : N) : result auth_error unit :=
  let unavailable := Err (InvalidInput "Private message unavailable") in
  match context_room c with
  | None => unavailable
  | Some r =>
      if negb (control_admitted c) then Err ServiceBusy
      else if Room.deleting r || context_draining c || negb (still_mapped c) then unavailable
      else if can_start_account_conversation (context_wire c) r own peer then Ok tt else unavailable
  end.

Definition accepted_contact (own peer : N) (d : history_db) : bool :=
  bool_decide ((if (own <? peer)%N then (own, peer) else (peer, own)) ∈ db_contacts d).
Definition private_relationship (own peer : N) (now : timestamp) (d : history_db) : bool :=
  match db_inbox d !! (own, peer) with Some row => (now <? inbox_expires row)%N | None => false end || accepted_contact own peer d.

Record send_request := SendRequest {
  send_client : string; send_content : text; send_reply_to : option N; send_room : option string; send_attachments : list N }.

Definition valid_send (own peer : N) (request : send_request) : bool :=
  negb (own =? peer)%N && valid_correlation_id (send_client request)
  && negb (bool_decide (trim (send_content request) = []) && bool_decide (send_attachments request = []))
  && valid_ids (send_attachments request) && (text_len (send_content request) <=? 4096)%N && is_plain_text (send_content request).

(** A repeated request is one for the message that was saved. *)
Definition same_send (saved : chat_entry) (request : send_request) : bool :=
  (bool_decide (is_Some (ChatEntry.edited_at saved)) || bool_decide (ChatEntry.content saved = send_content request))
  && bool_decide (reply_id saved = send_reply_to request) && bool_decide (file_ids saved = send_attachments request).

Definition find_original (conversation : string) (id : N) (now : timestamp) : requesting chat_reply_ref :=
  let! d := hget in
  match db_messages d !! id with
  | Some m =>
      ensure (in_conversation conversation m && live now m && negb (removed m)) (edit_error (Database RowNotFound)) ;;
      hret (ChatReplyRef id (ChatEntry.participant_id (msg_body m)) (ChatEntry.participant_name (msg_body m))
              (quote_excerpt (ChatEntry.content (msg_body m))))
  | None => bail (edit_error (Database RowNotFound))
  end.

(** The room a first message is started from, when the two are not related yet. *)
Definition creation_context (own peer : N) (request : send_request) (context : room_context) (now : timestamp) : requesting bool :=
  let! d := hget in
  match send_room request with
  | Some room_id =>
      if private_relationship own peer now d then hret false
      else
        ensure (is_ok (room_id_new room_id)) (InvalidInput "Invalid room") ;;
        hlift (private_creation_context context own peer) ;;
        hret true
  | None => hret false
  end.

Definition send_error (e : room_error) : auth_error :=
  match e with Refused (Refusal.RateLimited _) => RateLimited | e => route_error e end.

(** The saved message and whether it is new; [id] is a random identifier. *)
Definition save_private_message (c : claims) (peer : N) (request : send_request) (context : room_context) (id : N) (now : timestamp)
  : requesting (chat_entry * bool) :=
  ensure_unexpired_claim c now ;;
  let! own := account_of c in
  ensure (valid_send own peer request) (InvalidInput "Invalid private message") ;;
  let! in_context := creation_context own peer request context now in
  let conversation := private_conversation own peer in
  transaction
    (let! people := begin_private_write c own peer refused_unavailable now in
     let! d := hget in
     ensure (in_context || private_relationship own peer now d)
       (InvalidInput "Add this person as a contact or start the conversation in a room") ;;
     match select_one (fun _ m => of_attempt conversation own (send_client request) m && live now m) (db_messages d) with
     | Some (_, existing) =>
         ensure (same_send (msg_body existing) request) (InvalidInput "Message ID was already used") ;;
         hret (conversation_message (msg_body existing) true, false)
     | None =>
         ensure (private_accounts_allow own peer people.1 people.2) (InvalidInput "Private message unavailable") ;;
         let! reply := match send_reply_to request with
                       | Some original => let! reply := find_original conversation original now in hret (Some reply)
                       | None => hret None
                       end in
         let style := ChatStyle (account_color people.1) (default Accent (style_named (account_style people.1))) in
         let message := ChatEntry.mk id (send_client request) own (account_name people.1) (Some peer) (Some (account_name people.2))
                          (Some true) (send_content request) [] now None 0 None style reply [] in
         let! saved := map_error send_error (insert_message None own true PM_RETENTION_DAYS message (send_attachments request) now) in
         ensure_unexpired_claim c now ;;
         hret (saved, true)
     end).
End history.
