(* ===== verification/HistoryInv.v ===== *)
(** * What the history tables keep

    The invariant of the tables of [SavedHistory.v], what may happen to a saved
    message, and that every operation keeps both. *)

From S2P Require Import Prelude Paging Labels Settings Refusal Protocol Social Room Wire Process World Chat ChatRequests SocialRequests Tickets SavedHistory.

(** ** Selections *)

Section selections.
Context {K A : Type} `{Countable K}.
Implicit Types (m : gmap K A) (P : K -> A -> bool).

Lemma lookup_select P m k x : select P m !! k = Some x <-> m !! k = Some x /\ P k x = true.
Proof. unfold select. by rewrite map_lookup_filter_Some. Qed.
Lemma lookup_select_None P m k x : select P m !! k = None -> m !! k = Some x -> P k x = false.
Proof. unfold select. rewrite map_lookup_filter_None. intros [Hn|Hn] Hk; [congruence|]. specialize (Hn _ Hk). cbn in Hn. by destruct (P k x). Qed.

Lemma select_one_Some P m k x : select_one P m = Some (k, x) -> m !! k = Some x /\ P k x = true.
Proof.
  unfold select_one. intros Hh. apply lookup_select. apply elem_of_map_to_list.
  destruct (map_to_list (select P m)) as [|y l]; [done|]. injection Hh as ->. by constructor.
Qed.
Lemma select_one_None P m k x : select_one P m = None -> m !! k = Some x -> P k x = false.
Proof.
  unfold select_one. intros Hh Hk. destruct (P k x) eqn:HP; [|done]. exfalso.
  assert ((k, x) ∈ map_to_list (select P m)) as Hin by (apply elem_of_map_to_list, lookup_select; done).
  destruct (map_to_list (select P m)); [by apply elem_of_nil in Hin|done].
Qed.

(** What is selected of a smaller table is less. *)
Lemma size_select_le P P' m m' :
  (forall k x, m' !! k = Some x -> P' k x = true -> exists y, m !! k = Some y /\ P k y = true) ->
  (size (select P' m') <= size (select P m))%nat.
Proof.
  intros Hin. rewrite <-!size_dom. apply subseteq_size. intros k [x Hx]%elem_of_dom. apply lookup_select in Hx as [Hx HP].
  destruct (Hin _ _ Hx HP) as (y & Hy & HP'). apply elem_of_dom. exists y. by apply lookup_select.
Qed.

Lemma lookup_update_where (P : A -> bool) (f : A -> A) m k :
  update_where P f m !! k = (fun x => if P x then f x else x) <$> m !! k.
Proof. apply lookup_fmap. Qed.

Lemma lookup_drop_batch (batch : list K) m k x : drop_batch batch m !! k = Some x <-> m !! k = Some x /\ k ∉ batch.
Proof. unfold drop_batch. rewrite lookup_select, negb_true_iff, bool_decide_eq_false. done. Qed.

Lemma expired_batch_over (expires : A -> timestamp) now m k x :
  k ∈ expired_batch expires now m -> m !! k = Some x -> (expires x <= now)%N.
Proof.
  unfold expired_batch. intros ((k' & y) & -> & Hy)%list_elem_of_fmap Hk. cbn in *.
  apply elem_of_take in Hy as (i & Hi & _). apply list_elem_of_lookup_2 in Hi.
  assert ((k', y) ∈ map_to_list (select (fun _ x0 => (expires x0 <=? now)%N) m)) as Hin
    by (by rewrite <-(sort_rows_permutation (fun z : K * A => expires z.2) N.lt)).
  apply elem_of_map_to_list, lookup_select in Hin as [Hy' Hle]. apply N.leb_le in Hle. congruence.
Qed.
End selections.

(** ** Conversations *)

Lemma append_inj (a b c d : string) : String.length a = String.length c ->
  String.append a b = String.append c d -> a = c /\ b = d.
Proof.
  revert c. induction a as [|x a IH]; intros [|y c] Hlen Heq; try done. cbn in *.
  injection Heq as -> Heq. injection Hlen as Hlen. by destruct (IH c Hlen Heq) as [-> ->].
Qed.

Section history.
Context `{Unicode, HistoryText}.

Lemma private_conversation_sym a b : private_conversation a b = private_conversation b a.
Proof.
  unfold private_conversation. destruct (N.ltb_spec a b), (N.ltb_spec b a); try lia; [done|done|]. assert (a = b) as -> by lia. done.
Qed.

(** A private conversation belongs to two accounts and no others. *)
Lemma private_conversation_inj a b c d : is_uuid a -> is_uuid b -> is_uuid c -> is_uuid d ->
  private_conversation a b = private_conversation c d -> (a = c /\ b = d) \/ (a = d /\ b = c).
Proof.
  intros Ha Hb Hc Hd. unfold private_conversation.
  assert (forall x y z w, String.append "pm:" (String.append (uuid_text x) (String.append ":" (uuid_text y)))
    = String.append "pm:" (String.append (uuid_text z) (String.append ":" (uuid_text w))) -> uuid_text x = uuid_text z /\ uuid_text y = uuid_text w) as Hparts.
  { intros x y z w [_ Heq]%append_inj; [|done]. apply append_inj in Heq as [Hx Heq]; [|by rewrite !uuid_text_length].
    by apply append_inj in Heq as [_ Hy]. }
  destruct (a <? b)%N, (c <? d)%N; intros [Hx Hy]%Hparts; apply uuid_text_inj in Hx, Hy; auto.
Qed.

Lemma private_is_private a b : is_private (private_conversation a b) = true.
Proof.
  unfold private_conversation, is_private. destruct (a <? b)%N; generalize (String.append ":" (uuid_text a)), (String.append ":" (uuid_text b));
    intros s s'; [generalize (String.append (uuid_text a) s')|generalize (String.append (uuid_text b) s)]; intros t; by destruct t.
Qed.
Lemma public_is_public r : is_private (public_conversation r) = false.
Proof. reflexivity. Qed.
Lemma public_private r a b : public_conversation r <> private_conversation a b.
Proof. intros Heq. pose proof (private_is_private a b). rewrite <-Heq, public_is_public in *. done. Qed.
Lemma public_conversation_inj r r' : public_conversation r = public_conversation r' -> r = r'.
Proof. unfold public_conversation. by intros [_ ->]%append_inj. Qed.

(** ** What may happen to a saved message *)

(** Over any number of commands identity, author, audience and time stay.  A
    message with another text is marked as edited, one with other files or
    another quoted message is marked as removed, and neither mark is taken
    back. *)
Record body_kept (b b' : chat_entry) : Prop := {
  same_id : ChatEntry.message_id b' = ChatEntry.message_id b;
  same_author : ChatEntry.participant_id b' = ChatEntry.participant_id b;
  same_audience : ChatEntry.recipient_id b' = ChatEntry.recipient_id b;
  stays_removed : is_Some (ChatEntry.removed_at b) -> is_Some (ChatEntry.removed_at b');
  stays_edited : is_Some (ChatEntry.edited_at b) -> is_Some (ChatEntry.edited_at b');
  same_text : is_Some (ChatEntry.removed_at b')
    \/ (file_ids b' = file_ids b /\ reply_id b' = reply_id b
        /\ (ChatEntry.content b' = ChatEntry.content b \/ is_Some (ChatEntry.edited_at b')))
}.

(** Text, marks, files and the quoted message are as they were. *)
Record same_words (b b' : chat_entry) : Prop := {
  words_content : ChatEntry.content b' = ChatEntry.content b;
  words_edited : ChatEntry.edited_at b' = ChatEntry.edited_at b;
  words_removed : ChatEntry.removed_at b' = ChatEntry.removed_at b;
  words_files : file_ids b' = file_ids b;
  words_reply : reply_id b' = reply_id b
}.
#[export] Instance same_words_preorder : PreOrder same_words.
Proof. split; [by split|]. intros b1 b2 b3 [] []. split; congruence. Qed.

(** The expiry of a public message may only come closer. *)
Record kept (m m' : message_row) : Prop := {
  kept_columns : m' = m <| msg_expires := msg_expires m' |> <| msg_body := msg_body m' |>;
  kept_expires : (msg_expires m' <= msg_expires m)%N;
  kept_private : msg_room m = None -> msg_expires m' = msg_expires m;
  kept_body : body_kept (msg_body m) (msg_body m')
}.

#[export] Instance body_kept_preorder : PreOrder body_kept.
Proof.
  split; [intros b; by split; auto|]. intros b1 b2 b3 [] []. split; try congruence; auto.
  destruct same_text1 as [?|(Hf & Hr & Hc)]; [by left|]. destruct same_text0 as [?|(Hf' & Hr' & Hc')]; [left; auto|].
  right. split_and!; [congruence|congruence|]. destruct Hc as [Hc|]; [|by right]. destruct Hc' as [Hc'|]; [left; congruence|right; auto].
Qed.

Lemma kept_room m m' : kept m m' -> msg_room m' = msg_room m.
Proof. intros [-> _ _ _]. done. Qed.
Lemma kept_conversation m m' : kept m m' -> msg_conversation m' = msg_conversation m.
Proof. intros [-> _ _ _]. done. Qed.
Lemma kept_sender m m' : kept m m' -> msg_sender m' = msg_sender m.
Proof. intros [-> _ _ _]. done. Qed.
Lemma kept_recipient m m' : kept m m' -> msg_recipient m' = msg_recipient m.
Proof. intros [-> _ _ _]. done. Qed.
Lemma kept_sent m m' : kept m m' -> msg_sent m' = msg_sent m.
Proof. intros [-> _ _ _]. done. Qed.
Lemma kept_session m m' : kept m m' -> msg_session m' = msg_session m.
Proof. intros [-> _ _ _]. done. Qed.
Lemma kept_client m m' : kept m m' -> msg_client m' = msg_client m.
Proof. intros [-> _ _ _]. done. Qed.
Lemma kept_live now m m' : kept m m' -> live now m' = true -> live now m = true.
Proof. intros [_ He _ _]. unfold live. rewrite !N.ltb_lt. lia. Qed.

#[export] Instance kept_preorder : PreOrder kept.
Proof.
  split; [intros m; split; [by destruct m|lia|done|done]|]. intros m1 m2 m3 H1' H2'. pose proof (kept_room _ _ H1') as Hr.
  destruct H1' as [Hc1 He1 Hp1 Hb1], H2' as [Hc2 He2 Hp2 Hb2]. split; [|lia|intros; rewrite Hp2, Hp1; [done|done|congruence]|by etrans].
  rewrite Hc2, Hc1. by destruct m1.
Qed.

(** ** The invariant *)

Record row_ok (d : history_db) (id : N) (m : message_row) : Prop := {
  row_uuid : is_uuid id;
  row_id : ChatEntry.message_id (msg_body m) = id;
  row_sent : (msg_sent m < YEAR_10000)%N;
  row_place :
    match msg_room m with
    | Some room_id => msg_conversation m = public_conversation room_id /\ msg_recipient m = None
                      /\ ChatEntry.recipient_id (msg_body m) = None /\ is_Some (db_periods d !! room_id)
    | None => exists a b, msg_sender m = Some a /\ msg_recipient m = Some b /\ a <> b /\ msg_conversation m = private_conversation a b
                /\ ChatEntry.participant_id (msg_body m) = a /\ ChatEntry.recipient_id (msg_body m) = Some b
                /\ is_Some (db_people d !! a) /\ is_Some (db_people d !! b)
                /\ msg_expires m = days_later PM_RETENTION_DAYS (msg_sent m)
    end
}.

Record inbox_ok (now : timestamp) (d : history_db) (k : N * N) (row : inbox_row) : Prop := {
  inbox_place : inbox_conversation row = private_conversation k.1 k.2;
  inbox_pair : k.1 <> k.2;
  inbox_people : is_Some (db_people d !! k.1) /\ is_Some (db_people d !! k.2);
  inbox_expiry : inbox_expires row = days_later PM_RETENTION_DAYS (last_sent row);
  inbox_last : (now < inbox_expires row)%N ->
    exists m, db_messages d !! last_message row = Some m /\ msg_conversation m = inbox_conversation row /\ msg_sent m = last_sent row
}.

(** The inbox of [user] shows [peer] with this message or a later one. *)
Definition listed (d : history_db) (user peer : N) (key : timestamp * N) : Prop :=
  exists row, db_inbox d !! (user, peer) = Some row /\ ~ earlier (last_sent row, last_message row) key.

(** What a quote of a message says. *)
Definition quote_of (m : message_row) : text :=
  if removed m then text_of "Message removed" else quote_excerpt (ChatEntry.content (msg_body m)).
Definition quotes_ok (now : timestamp) (d : history_db) : Prop :=
  forall id m reply original, db_messages d !! id = Some m -> live now m = true -> ChatEntry.reply_to (msg_body m) = Some reply ->
    db_messages d !! reply_message_id reply = Some original -> live now original = true ->
    msg_conversation original = msg_conversation m -> excerpt reply = quote_of original.

Record pin_ok (d : history_db) (k : string * N) (p : pin_row) : Prop := {
  pin_slot : slot p ∈ [1; 2; 3]%N;
  pin_row_of : exists m, db_messages d !! k.2 = Some m /\ msg_room m = Some k.1
}.

Record pins_ok (d : history_db) : Prop := {
  pinned_rows : map_Forall (pin_ok d) (db_pins d);
  pinned_slots : forall room_id id id' p p', db_pins d !! (room_id, id) = Some p -> db_pins d !! (room_id, id') = Some p' -> slot p = slot p' -> id = id'
}.

Record history_ok (now : timestamp) (d : history_db) : Prop := {
  ok_rows : map_Forall (row_ok d) (db_messages d);
  ok_people : forall a, is_Some (db_people d !! a) -> is_uuid a;
  ok_attempts : forall id id' m m', db_messages d !! id = Some m -> db_messages d !! id' = Some m' ->
    of_attempt (msg_conversation m) (msg_session m) (msg_client m) m' = true -> id = id';
  ok_budget : forall a, (size (recent_private a now d) <= PRIVATE_MESSAGES_PER_MINUTE)%nat;
  ok_inbox : map_Forall (inbox_ok now d) (db_inbox d);
  ok_listed : forall id m a b, db_messages d !! id = Some m -> msg_sender m = Some a -> msg_recipient m = Some b -> live now m = true ->
    listed d a b (msg_sent m, id) /\ listed d b a (msg_sent m, id);
  ok_quotes : quotes_ok now d;
  ok_pins : pins_ok d
}.

Lemma days_later_mono days x y : (x <= y)%N -> (days_later days x <= days_later days y)%N.
Proof. unfold days_later. lia. Qed.

(** Time only takes messages away. *)
Lemma live_earlier now now' m : (now <= now')%N -> live now' m = true -> live now m = true.
Proof. unfold live. rewrite !N.ltb_lt. lia. Qed.
Lemma history_ok_later now now' d : (now <= now')%N -> history_ok now d -> history_ok now' d.
Proof.
  intros Hle [Hrows Hpeople Hatt Hb Hin Hl Hq Hpins]. split; try done.
  - intros a. etrans; [|apply (Hb a)]. apply size_select_le. intros k x Hx HP. exists x. split; [done|]. apply andb_true_iff in HP as [HP Hr]. rewrite HP. cbn. apply N.ltb_lt in Hr. apply N.ltb_lt. lia.
  - intros k row Hk. destruct (Hin k row Hk) as [? ? ? ? Hlast]. split; try done. intros. apply Hlast. lia.
  - intros id m a b Hm Ha Hb' Hlive. eapply Hl; eauto using live_earlier.
  - intros id m reply o Hm Hlm Hr Ho Hlo. eapply Hq; eauto using live_earlier.
Qed.

(** Rows change as they may and go only when they are over, or public and [gone]. *)
Record shrinks (gone : message_row -> Prop) (now : timestamp) (d d' : history_db) : Prop := {
  sh_rows : forall id m', db_messages d' !! id = Some m' -> exists m, db_messages d !! id = Some m /\ kept m m';
  sh_lost : forall id m, db_messages d !! id = Some m -> db_messages d' !! id = None ->
    live now m = false \/ (is_Some (msg_room m) /\ gone m);
  sh_inbox : forall k row, db_inbox d' !! k = Some row -> db_inbox d !! k = Some row;
  sh_inbox_lost : forall k row, db_inbox d !! k = Some row -> db_inbox d' !! k = None -> (inbox_expires row <= now)%N;
  sh_people : forall a, is_Some (db_people d !! a) -> is_Some (db_people d' !! a);
  sh_uuids : forall a, is_Some (db_people d' !! a) -> is_uuid a;
  sh_periods : forall room_id id m, db_messages d' !! id = Some m -> msg_room m = Some room_id ->
    is_Some (db_periods d !! room_id) -> is_Some (db_periods d' !! room_id)
}.

Lemma shrinks_row_ok gone now d d' id m m' : shrinks gone now d d' -> db_messages d' !! id = Some m' -> kept m m' -> row_ok d id m -> row_ok d' id m'.
Proof.
  intros Hsh Hm' Hk [Hid Hbody Hsent Hplace]. pose proof (kept_body _ _ Hk) as Hbk. split; [done|by rewrite (same_id _ _ Hbk)|by rewrite (kept_sent _ _ Hk)|].
  pose proof (sh_periods _ _ _ _ Hsh) as Hper. rewrite (kept_room _ _ Hk) in *. rewrite (kept_conversation _ _ Hk), (kept_recipient _ _ Hk), (kept_sender _ _ Hk), (kept_sent _ _ Hk),
    (same_author _ _ Hbk), (same_audience _ _ Hbk).
  destruct (msg_room m) as [room_id|] eqn:Hroom.
  - destruct Hplace as (? & ? & ? & ?). split_and!; try done. eapply Hper; [exact Hm'| |done]. by rewrite (kept_room _ _ Hk).
  - destruct Hplace as (a & b & ? & ? & ? & ? & ? & ? & ? & ? & He). exists a, b. split_and!; try done; try (by apply (sh_people _ _ _ _ Hsh)).
    by rewrite (kept_private _ _ Hk).
Qed.

Lemma of_attempt_spec conv session client m :
  of_attempt conv session client m = true <-> msg_conversation m = conv /\ msg_session m = session /\ msg_client m = client.
Proof. unfold of_attempt, in_conversation. rewrite !andb_true_iff, !bool_decide_eq_true, N.eqb_eq. tauto. Qed.

Lemma shrinks_of_attempt m m' conv session client : kept m m' -> of_attempt conv session client m' = of_attempt conv session client m.
Proof. intros Hk. unfold of_attempt, in_conversation. by rewrite (kept_conversation _ _ Hk), (kept_session _ _ Hk), (kept_client _ _ Hk). Qed.

(** A message of two accounts, seen from its conversation. *)
Lemma private_row now d id m a b : history_ok now d -> db_messages d !! id = Some m -> is_uuid a -> is_uuid b ->
  msg_conversation m = private_conversation a b -> msg_room m = None
  /\ ((msg_sender m = Some a /\ msg_recipient m = Some b) \/ (msg_sender m = Some b /\ msg_recipient m = Some a)).
Proof.
  intros Hok Hm Ha Hb Hconv. destruct (ok_rows _ _ Hok _ _ Hm) as [_ _ _ Hplace]. destruct (msg_room m) as [room_id|].
  { destruct Hplace as (Hc & _). rewrite Hc in Hconv. by apply public_private in Hconv. }
  split; [done|]. destruct Hplace as (x & y & Hs & Hr & _ & Hc & _ & _ & Hx & Hy & _). rewrite Hc in Hconv.
  apply private_conversation_inj in Hconv as [[-> ->]|[-> ->]]; auto; by apply (ok_people _ _ Hok).
Qed.

(** Who wrote a row of the conversation of two accounts, and to whom. *)
Lemma private_pair now d id m a b : history_ok now d -> db_messages d !! id = Some m -> is_uuid a -> is_uuid b ->
  msg_conversation m = private_conversation a b ->
  (ChatEntry.participant_id (msg_body m) = a /\ ChatEntry.recipient_id (msg_body m) = Some b)
  \/ (ChatEntry.participant_id (msg_body m) = b /\ ChatEntry.recipient_id (msg_body m) = Some a).
Proof.
  intros Hok Hm Ha Hb Hconv. destruct (private_row _ _ _ _ _ _ Hok Hm Ha Hb Hconv) as [Hroom Hpair]. destruct (ok_rows _ _ Hok _ _ Hm) as [_ _ _ Hplace].
  rewrite Hroom in Hplace. destruct Hplace as (from & to & Hfrom & Hto & _ & _ & -> & -> & _). destruct Hpair as [[? ?]|[? ?]]; [left|right]; split; congruence.
Qed.

Lemma shrinks_inbox_ok gone now d d' k row : history_ok now d -> shrinks gone now d d' -> inbox_ok now d k row -> inbox_ok now d' k row.
Proof.
  intros Hok Hsh [Hplace Hpair [Hp1 Hp2] Hexp Hlast]. split; try done; [split; by apply (sh_people _ _ _ _ Hsh)|]. intros Hnow.
  destruct (Hlast Hnow) as (m & Hm & Hc & Hs). destruct (db_messages d' !! last_message row) as [m'|] eqn:Hm'.
  - destruct (sh_rows _ _ _ _ Hsh _ _ Hm') as (m0 & Hm0 & Hk). simplify_eq. exists m'. split_and!; [done|..].
    + by rewrite (kept_conversation _ _ Hk).
    + by rewrite (kept_sent _ _ Hk).
  - rewrite Hplace in Hc. destruct (private_row _ _ _ _ _ _ Hok Hm (ok_people _ _ Hok _ Hp1) (ok_people _ _ Hok _ Hp2) Hc) as [Hroom _].
    destruct (sh_lost _ _ _ _ Hsh _ _ Hm Hm') as [Hdead|[[? ?] _]]; [|congruence]. destruct (ok_rows _ _ Hok _ _ Hm) as [_ _ _ Hrow].
    rewrite Hroom in Hrow. destruct Hrow as (? & ? & _ & _ & _ & _ & _ & _ & _ & _ & He). unfold live in Hdead.
    apply N.ltb_ge in Hdead. rewrite He, Hs, <-Hexp in Hdead. lia.
Qed.

Lemma shrinks_listed gone now d d' id m m' a b : history_ok now d -> shrinks gone now d d' -> db_messages d !! id = Some m ->
  db_messages d' !! id = Some m' -> kept m m' -> msg_room m = None -> live now m' = true ->
  listed d a b (msg_sent m, id) -> listed d' a b (msg_sent m, id).
Proof.
  intros Hok Hsh Hm Hm' Hk Hroom Hlive (row & Hrow & Hne). exists row. split; [|done].
  destruct (db_inbox d' !! (a, b)) as [row'|] eqn:Hrow'; [by rewrite (sh_inbox _ _ _ _ Hsh _ _ Hrow') in Hrow|].
  pose proof (sh_inbox_lost _ _ _ _ Hsh _ _ Hrow Hrow') as Hover. destruct (ok_inbox _ _ Hok _ _ Hrow) as [_ _ _ Hexp _].
  destruct (ok_rows _ _ Hok _ _ Hm) as [_ _ _ Hplace]. rewrite Hroom in Hplace. destruct Hplace as (? & ? & _ & _ & _ & _ & _ & _ & _ & _ & He).
  apply (kept_live now _ _ Hk) in Hlive. unfold live in Hlive. apply N.ltb_lt in Hlive.
  assert (days_later PM_RETENTION_DAYS (msg_sent m) <= days_later PM_RETENTION_DAYS (last_sent row))%N as Hle.
  { apply days_later_mono. unfold earlier in Hne. cbn in Hne. lia. }
  rewrite <-Hexp, <-He in Hle. lia.
Qed.

Lemma shrinks_keeps gone now d d' : history_ok now d -> shrinks gone now d d' -> quotes_ok now d' -> pins_ok d' -> history_ok now d'.
Proof.
  intros Hok Hsh Hq Hpins. split; [|by apply (sh_uuids _ _ _ _ Hsh)|..|done|done].
  - intros id m' Hm'. destruct (sh_rows _ _ _ _ Hsh _ _ Hm') as (m & Hm & Hk). eapply shrinks_row_ok; eauto. by apply (ok_rows _ _ Hok).
  - intros id id' m1' m2' H1' H2' Ha. destruct (sh_rows _ _ _ _ Hsh _ _ H1') as (m1 & Hm1 & Hk1), (sh_rows _ _ _ _ Hsh _ _ H2') as (m2 & Hm2 & Hk2).
    rewrite (shrinks_of_attempt _ _ _ _ _ Hk2), (kept_conversation _ _ Hk1), (kept_session _ _ Hk1), (kept_client _ _ Hk1) in Ha.
    by eapply (ok_attempts _ _ Hok).
  - intros a. etrans; [|apply (ok_budget _ _ Hok a)]. apply size_select_le. intros k x Hx HP.
    destruct (sh_rows _ _ _ _ Hsh _ _ Hx) as (m & Hm & Hk). exists m. split; [done|].
    by rewrite (kept_sender _ _ Hk), (kept_recipient _ _ Hk), (kept_sent _ _ Hk) in HP.
  - intros k row Hrow. eapply shrinks_inbox_ok; eauto. by apply (ok_inbox _ _ Hok), (sh_inbox _ _ _ _ Hsh).
  - intros id m' a b Hm' Hs Hr Hlive. destruct (sh_rows _ _ _ _ Hsh _ _ Hm') as (m & Hm & Hk).
    rewrite (kept_sender _ _ Hk) in Hs. rewrite (kept_recipient _ _ Hk) in Hr. rewrite (kept_sent _ _ Hk).
    destruct (ok_listed _ _ Hok _ _ _ _ Hm Hs Hr (kept_live _ _ _ Hk Hlive)) as [H1' H2'].
    assert (msg_room m = None) as Hroom.
    { destruct (ok_rows _ _ Hok _ _ Hm) as [_ _ _ Hplace]. destruct (msg_room m); [|done]. destruct Hplace as (_ & Hn & _). congruence. }
    split; by eapply shrinks_listed.
Qed.

(** Pins go with their messages. *)
Lemma shrinks_pins gone now d d' : history_ok now d -> shrinks gone now d d' ->
  (forall k p, db_pins d' !! k = Some p -> db_pins d !! k = Some p /\ is_Some (db_messages d' !! k.2)) -> pins_ok d'.
Proof.
  intros Hok Hsh Hsub. split.
  - intros [room_id id] p Hp. destruct (Hsub _ _ Hp) as [Hp' [m' Hm']]. destruct (pinned_rows _ (ok_pins _ _ Hok) _ _ Hp') as [Hslot (m & Hm & Hroom)].
    split; [done|]. destruct (sh_rows _ _ _ _ Hsh _ _ Hm') as (m0 & Hm0 & Hk). cbn in *. simplify_eq. exists m'. split; [done|].
    by rewrite (kept_room _ _ Hk).
  - intros room_id id id' p p' [Hp _]%Hsub [Hp' _]%Hsub. by eapply (pinned_slots _ (ok_pins _ _ Hok)).
Qed.

(** What a quote depends on. *)
Definition same_quotes (m m' : message_row) : Prop :=
  ChatEntry.reply_to (msg_body m') = ChatEntry.reply_to (msg_body m) /\ quote_of m' = quote_of m.

Lemma quotes_unchanged now d d' :
  (forall id m', db_messages d' !! id = Some m' -> exists m, db_messages d !! id = Some m /\ kept m m' /\ same_quotes m m') ->
  quotes_ok now d -> quotes_ok now d'.
Proof.
  intros Hrows Hq id m' reply o' Hm' Hl Hr Ho' Hlo Hconv. destruct (Hrows _ _ Hm') as (m & Hm & Hk & [Hre _]).
  destruct (Hrows _ _ Ho') as (o & Ho & Hko & [_ Hquote]). rewrite Hquote. apply (Hq id m reply o); eauto using kept_live.
  - congruence.
  - by rewrite <-(kept_conversation _ _ Hk), <-(kept_conversation _ _ Hko).
Qed.

(** The tables other than messages. *)
Definition same_tables (d d' : history_db) : Prop :=
  db_inbox d' = db_inbox d /\ db_people d' = db_people d /\ db_periods d' = db_periods d.

(** Rows change in place. *)
Lemma shrinks_in_place gone now d d' : history_ok now d -> same_tables d d' ->
  (forall id, match db_messages d !! id with
              | Some m => exists m', db_messages d' !! id = Some m' /\ kept m m'
              | None => db_messages d' !! id = None
              end) -> shrinks gone now d d'.
Proof.
  intros Hok (Hin & Hpe & Hper) Hrows. split; rewrite ?Hin, ?Hpe, ?Hper; eauto.
  - intros id m' Hm'. specialize (Hrows id). destruct (db_messages d !! id) as [m|]; [|congruence].
    destruct Hrows as (m0 & Hm0 & Hk). simplify_eq. eauto.
  - intros id m Hm Hn. specialize (Hrows id). rewrite Hm in Hrows. destruct Hrows as (m' & Hm' & _). congruence.
  - congruence.
  - by apply (ok_people _ _ Hok).
Qed.
Lemma in_place_pins now d d' : history_ok now d -> (forall id, is_Some (db_messages d !! id) -> is_Some (db_messages d' !! id)) ->
  (forall k p, db_pins d' !! k = Some p -> db_pins d !! k = Some p) ->
  forall k p, db_pins d' !! k = Some p -> db_pins d !! k = Some p /\ is_Some (db_messages d' !! k.2).
Proof.
  intros Hok Hrows Hsub k p Hp. split; [by apply Hsub|]. destruct (pinned_rows _ (ok_pins _ _ Hok) _ _ (Hsub _ _ Hp)) as [_ (m & Hm & _)].
  apply Hrows. eauto.
Qed.
End history.
