(* ===== verification/HistoryOps.v ===== *)
(** * Every operation keeps the history tables

    Each operation of [SavedHistory.v] keeps the invariant, and a saved message
    only changes as it may: operations that change rows in place, those that
    take rows away, and the one that adds a row. *)

From S2P Require Import Prelude Paging Labels Settings Refusal Protocol Social Room Wire Process World Chat ChatRequests SocialRequests Tickets SavedHistory HistoryInv.

Section history.
Context `{Unicode, HistoryText}.

(** What a command may do to messages: which public ones it takes away early,
    and which it gives other words. *)
Record licence := Licence {
  gone : message_row -> Prop;
  rewrites : N -> message_row -> message_row -> Prop
}.
Definition untouched : licence := Licence (fun _ => False) (fun _ _ _ => False).

(** The invariant still holds, and every message is there as it may be, unless
    it is over, or public and [gone]. *)
Record carries (lic : licence) (now : timestamp) (d d' : history_db) : Prop := {
  carried_ok : history_ok now d';
  carried_rows : forall id m, db_messages d !! id = Some m ->
    match db_messages d' !! id with
    | Some m' => kept m m' /\ (same_words (msg_body m) (msg_body m') \/ rewrites lic id m m')
    | None => live now m = false \/ (is_Some (msg_room m) /\ gone lic m)
    end
}.

Lemma carries_refl lic now d : history_ok now d -> carries lic now d d.
Proof. intros Hok. split; [done|]. intros id m Hm. rewrite Hm. split; [done|by left]. Qed.

Lemma shrinks_carries lic now d d' : history_ok now d -> shrinks (gone lic) now d d' -> quotes_ok now d' -> pins_ok d' ->
  (forall id m m', db_messages d !! id = Some m -> db_messages d' !! id = Some m' -> same_words (msg_body m) (msg_body m') \/ rewrites lic id m m') ->
  carries lic now d d'.
Proof.
  intros Hok Hsh Hq Hpins Hwords. split; [by eapply shrinks_keeps|]. intros id m Hm. destruct (db_messages d' !! id) as [m'|] eqn:Hm'.
  - destruct (sh_rows _ _ _ _ Hsh _ _ Hm') as (m0 & Hm0 & Hk). simplify_eq. eauto.
  - by eapply (sh_lost _ _ _ _ Hsh).
Qed.

(** Only other tables changed. *)
Lemma carries_pins lic now d d' : history_ok now d -> same_tables d d' -> db_messages d' = db_messages d -> pins_ok d' -> carries lic now d d'.
Proof.
  intros Hok Ht Hm Hpins. apply shrinks_carries; [done| | |done|rewrite Hm; intros; simplify_eq; by left].
  - apply shrinks_in_place; [done|done|]. intros id. rewrite Hm. destruct (db_messages d !! id) as [m|]; [|done]. by exists m.
  - apply (quotes_unchanged now d); [|apply (ok_quotes _ _ Hok)]. intros id m' Hm'. rewrite Hm in Hm'. exists m'. by split_and!.
Qed.
Lemma carries_same_rows lic now d d' : history_ok now d -> same_tables d d' -> db_messages d' = db_messages d ->
  (forall k p, db_pins d' !! k = Some p -> db_pins d !! k = Some p) -> carries lic now d d'.
Proof.
  intros Hok Ht Hm Hpins. apply carries_pins; [done..|]. apply (shrinks_pins (gone lic) now d); [done| |].
  - apply shrinks_in_place; [done|done|]. intros id. rewrite Hm. destruct (db_messages d !! id) as [m|]; [|done]. by exists m.
  - apply (in_place_pins now d); [done| |done]. by rewrite Hm.
Qed.

(** Rows change in place by their identifier. *)
Lemma carries_imap lic now d d' (f : N -> message_row -> message_row) : history_ok now d -> same_tables d d' ->
  (forall id, db_messages d' !! id = f id <$> db_messages d !! id) -> (forall k p, db_pins d' !! k = Some p -> db_pins d !! k = Some p) ->
  (forall id m, db_messages d !! id = Some m ->
     kept m (f id m) /\ (same_words (msg_body m) (msg_body (f id m)) \/ rewrites lic id m (f id m))) ->
  quotes_ok now d' -> carries lic now d d'.
Proof.
  intros Hok Ht Hm Hpins Hf Hq. assert (shrinks (gone lic) now d d') as Hsh.
  { apply shrinks_in_place; [done|done|]. intros id. rewrite Hm. destruct (db_messages d !! id) as [m|] eqn:Hid; [|done].
    destruct (Hf id m Hid). eexists. eauto. }
  apply shrinks_carries; [done..| |].
  - apply (shrinks_pins (gone lic) now d); [done..|]. apply (in_place_pins now d); [done| |done]. intros id [m Hid]. rewrite Hm, Hid. eauto.
  - intros id m m' Hid. rewrite Hm, Hid. intros [= <-]. by apply Hf.
Qed.

(** One row changes in place, and no quote of it. *)
Lemma carries_alter lic now d d' f id : history_ok now d -> same_tables d d' -> db_messages d' = alter f id (db_messages d) ->
  db_pins d' = db_pins d ->
  (forall m, db_messages d !! id = Some m -> kept m (f m) /\ same_quotes m (f m) /\ same_words (msg_body m) (msg_body (f m))) -> carries lic now d d'.
Proof.
  intros Hok Ht Hm Hpins Hf. apply (carries_imap lic now d d' (fun j m => if decide (id = j) then f m else m)); [done|done|..|by rewrite Hpins| |].
  - intros j. rewrite Hm. case_decide; [subst; by rewrite lookup_alter_eq|]. rewrite lookup_alter_ne by done. by destruct (_ !! j).
  - intros j m Hj. case_decide; [subst|split; [done|by left]]. destruct (Hf m Hj) as (? & _ & ?). auto.
  - apply (quotes_unchanged now d); [|apply (ok_quotes _ _ Hok)]. intros j m' Hm'. rewrite Hm in Hm'.
    apply lookup_alter_Some in Hm' as [(-> & m & Hm1 & ->)|[Hne Hm1]]; [|by exists m']. destruct (Hf _ Hm1) as (? & ? & _). by exists m.
Qed.

Lemma kept_body_update m b : body_kept (msg_body m) b -> kept m (m <| msg_body := b |>).
Proof. intros Hb. split; [by destruct m|cbn; lia|done|done]. Qed.

Lemma reactions_kept rs m :
  kept m (set_reactions rs m) /\ same_quotes m (set_reactions rs m) /\ same_words (msg_body m) (msg_body (set_reactions rs m)).
Proof. split; [|by split]. apply kept_body_update. split; auto. Qed.

(** ** Reactions, markers and pins *)

Lemma save_reactions_carries lic id rs now d d' r : history_ok now d -> save_reactions id rs now d = (d', r) -> carries lic now d d'.
Proof.
  intros Hok [= <- <-]. eapply carries_alter; [done|by split_and!|reflexivity|done|]. intros m _. cbv beta.
  destruct (live now m && negb (removed m)); [apply reactions_kept|by split].
Qed.

Lemma react_public_carries lic room_id id participant ignored e now d d' r : history_ok now d ->
  react_public room_id id participant ignored e now d = (d', r) -> carries lic now d d'.
Proof.
  intros Hok Hx. apply transaction_cases in Hx as [Hx|[-> _]]; [|by apply carries_refl]. unfold hbind, hget in Hx.
  destruct (db_messages d !! id) as [m|] eqn:Hm; [|injection Hx as <- <-; by apply carries_refl].
  destruct (_ && _ && _ && _); [|injection Hx as <- <-; by apply carries_refl].
  destruct (toggle_reactions _ _ _); [|injection Hx as <- <-; by apply carries_refl]. injection Hx as <- <-.
  eapply carries_alter; [done|by split_and!|reflexivity|done|]. intros; apply reactions_kept.
Qed.

Lemma private_reaction_carries lic conv id actor e present now d d' r : history_ok now d ->
  set_private_reaction_in_transaction conv id actor e present now d = (d', r) -> carries lic now d d'.
Proof.
  intros Hok. unfold set_private_reaction_in_transaction, hbind, hget, ensure, hret, bail, hmodify.
  destruct (db_messages d !! id) as [m|] eqn:Hm; [|intros [= <- <-]; by apply carries_refl].
  destruct (_ && _ && _); [|intros [= <- <-]; by apply carries_refl].
  destruct (set_reaction _ _ _ _); [|intros [= <- <-]; by apply carries_refl]. intros [= <- <-].
  eapply carries_alter; [done|by split_and!|reflexivity|done|]. intros; apply reactions_kept.
Qed.

Lemma mark_read_carries lic conv account id now d d' r : history_ok now d -> mark_read conv account id now d = (d', r) -> carries lic now d d'.
Proof.
  intros Hok Hx. apply transaction_cases in Hx as [Hx|[-> _]]; [|by apply carries_refl].
  unfold hbind, hget, ensure, hret, bail, hmodify in Hx. destruct (db_messages d !! id) as [m|]; [|injection Hx as <- <-; by apply carries_refl].
  destruct (_ && _); [|injection Hx as <- <-; by apply carries_refl].
  destruct (db_cursors d !! _) as [c|]; [destruct (bool_decide _); [|destruct (_ <? _)%N]|destruct (bool_decide _)]; injection Hx as <- <-;
    by apply carries_same_rows.
Qed.

Lemma elem_of_pins_of room_id d id p : (id, p) ∈ pins_of room_id d <-> db_pins d !! (room_id, id) = Some p.
Proof.
  unfold pins_of. rewrite list_elem_of_omap. split.
  - intros ([[room id'] p'] & Hin & Heq). apply elem_of_map_to_list in Hin. cbn in Heq. by case_bool_decide; simplify_eq.
  - intros Hp. exists ((room_id, id), p). split; [by apply elem_of_map_to_list|]. cbn. by rewrite bool_decide_true.
Qed.

Lemma free_slot_Some room_id d s : free_slot room_id d = Some s ->
  s ∈ [1; 2; 3]%N /\ forall id p, db_pins d !! (room_id, id) = Some p -> slot p <> s.
Proof.
  unfold free_slot. intros Hh%head_Some_elem_of. apply list_elem_of_filter in Hh as [Hfree Hin]. split; [done|].
  intros id p Hp <-. apply Hfree. apply list_elem_of_fmap. exists p. split; [done|]. apply list_elem_of_fmap. exists (id, p).
  split; [done|]. by apply elem_of_pins_of.
Qed.

Lemma set_pin_carries lic room_id id pinned now d d' r : history_ok now d -> set_pin room_id id pinned now d = (d', r) -> carries lic now d d'.
Proof.
  intros Hok Hx. apply transaction_cases in Hx as [Hx|[-> _]]; [|by apply carries_refl]. unfold hbind, hmodify, hget in Hx.
  set (d1 := d <| db_pins ::= _ |>) in Hx.
  assert (forall k p, db_pins d1 !! k = Some p -> db_pins d !! k = Some p) as Hsub by (intros k p Hk; by apply lookup_select in Hk as [? _]).
  assert (carries lic now d d1) as Hc by by apply carries_same_rows. destruct pinned; cbn in Hx.
  - unfold ensure, hret, bail in Hx. destruct (db_messages d !! id) as [m|] eqn:Hm; cbn in Hx; [|by injection Hx as <- <-].
    destruct (in_room room_id m && live now m && negb (removed m)) eqn:Hav; cbn in Hx; [|by injection Hx as <- <-].
    apply andb_true_iff in Hav as [[Hroom _]%andb_true_iff _].
    destruct (bool_decide _) eqn:Hnew; cbn in Hx; [by injection Hx as <- <-|].
    destruct (free_slot room_id d1) as [s|] eqn:Hs; [|by injection Hx as <- <-]. injection Hx as <- <-.
    apply free_slot_Some in Hs as [Hs Hfree]. apply bool_decide_eq_true in Hroom. destruct Hc as [Hok1 _].
    apply carries_pins; [done|done|done|]. split; cbn.
    + apply map_Forall_insert_2; [split; [done|by exists m]|]. intros k p Hk. destruct (pinned_rows _ (ok_pins _ _ Hok) _ _ (Hsub _ _ Hk)). by split.
    + intros room' i j p p' Hp Hp'. rewrite lookup_insert_Some in Hp, Hp'. cbn in Hp, Hp'.
      destruct Hp as [[[= <- <-] <-]|[_ Hp]], Hp' as [[Heq' <-]|[_ Hp']]; cbn; intros Heq.
      * congruence.
      * by destruct (Hfree j p').
      * injection Heq' as <- <-. by destruct (Hfree i p).
      * by eapply (pinned_slots _ (ok_pins _ _ Hok1)).
  - injection Hx as <- <-. apply carries_same_rows; [done|done|done|]. cbn. intros k p Hk. apply lookup_delete_Some in Hk as [_ Hk]. by apply Hsub.
Qed.

(** ** Removal and edits *)

Lemma quote_kept quote m : kept m (set_quote quote m).
Proof. apply kept_body_update. split; auto. right. split_and!; [done| |by left]. unfold reply_id. cbn. by destruct (ChatEntry.reply_to (msg_body m)). Qed.
Lemma quote_of_set_quote quote m : quote_of (set_quote quote m) = quote_of m.
Proof. done. Qed.
Lemma erase_kept removed_at m : kept m (erase_row removed_at m).
Proof. apply kept_body_update. split; auto; cbn; eauto. Qed.
Lemma quote_of_erased removed_at m : quote_of (erase_row removed_at m) = text_of "Message removed".
Proof. unfold quote_of, removed. by rewrite bool_decide_true by (cbn; eauto). Qed.

(** Replies to [id] get a new quote, other rows keep theirs. *)
Definition requoted (c : message_row -> bool) (id : N) (quote : text) (m : message_row) : message_row :=
  if c m && quotes id m then set_quote quote m else m.

Lemma requoted_kept c id quote m : kept m (requoted c id quote m).
Proof. unfold requoted. destruct (_ && _); [apply quote_kept|done]. Qed.
Lemma requoted_words c id quote m : same_words (msg_body m) (msg_body (requoted c id quote m)).
Proof.
  unfold requoted. destruct (_ && _); [|done]. split; try done. unfold reply_id. cbn. by destruct (ChatEntry.reply_to (msg_body m)).
Qed.
Lemma requoted_reply c id quote m reply : ChatEntry.reply_to (msg_body (requoted c id quote m)) = Some reply ->
  (c m = true /\ reply_message_id reply = id /\ excerpt reply = quote)
  \/ ((c m = false \/ reply_message_id reply <> id) /\ ChatEntry.reply_to (msg_body m) = Some reply).
Proof.
  unfold requoted, quotes, reply_id. destruct (c m && _) eqn:Hc.
  - apply andb_true_iff in Hc as [Hc Hq%bool_decide_eq_true]. cbn. destruct (ChatEntry.reply_to (msg_body m)) as [reply0|]; [|done].
    intros [= <-]. left. injection Hq as Hq. by split_and!.
  - intros Hr. right. split; [|done]. rewrite Hr in Hc. cbn in Hc. destruct (c m); [right|by left]. cbn in Hc.
    apply bool_decide_eq_false in Hc. congruence.
Qed.
Lemma quote_of_requoted c id quote m : quote_of (requoted c id quote m) = quote_of m.
Proof. unfold requoted. by destruct (_ && _). Qed.

(** A room's messages are those of its conversation. *)
Lemma room_row now d id m room_id : history_ok now d -> db_messages d !! id = Some m ->
  in_room room_id m = in_conversation (public_conversation room_id) m.
Proof.
  intros Hok Hm. destruct (ok_rows _ _ Hok _ _ Hm) as [_ _ _ Hplace]. unfold in_room, in_conversation. apply bool_decide_ext.
  destruct (msg_room m) as [room'|].
  - destruct Hplace as (-> & _). split; [by intros [= ->]|]. by intros ->%public_conversation_inj.
  - destruct Hplace as (a & b & _ & _ & _ & -> & _). split; [done|]. intros Heq. by destruct (public_private room_id a b).
Qed.

(** [id] is rewritten by [f], and the live replies in its conversation quote what it became. *)
Lemma quotes_rewritten now d d' f c id quote :
  history_ok now d ->
  (forall j, db_messages d' !! j = (fun m => requoted c id quote (if decide (j = id) then f m else m)) <$> db_messages d !! j) ->
  (forall m, db_messages d !! id = Some m -> kept m (f m)) ->
  (forall m reply, db_messages d !! id = Some m -> ChatEntry.reply_to (msg_body (f m)) = Some reply -> ChatEntry.reply_to (msg_body m) = Some reply) ->
  (forall o j m, db_messages d !! id = Some o -> live now o = true -> db_messages d !! j = Some m -> live now m = true ->
     msg_conversation o = msg_conversation m -> c (if decide (j = id) then f m else m) = true -> quote_of (f o) = quote) ->
  (forall o j m, db_messages d !! id = Some o -> live now o = true -> db_messages d !! j = Some m -> live now m = true ->
     msg_conversation o = msg_conversation m -> c (if decide (j = id) then f m else m) = false -> quote_of (f o) = quote_of o) ->
  quotes_ok now d'.
Proof.
  intros Hok Hd' Hkept Hsame Hin Hout j m' reply o' Hm' Hlm Hreply Ho' Hlo Hconv.
  rewrite Hd' in Hm', Ho'. destruct (db_messages d !! j) as [m|] eqn:Hm; [|done]. destruct (db_messages d !! reply_message_id reply) as [o|] eqn:Ho; [|done].
  cbn in Hm', Ho'. injection Hm' as <-. injection Ho' as <-. rewrite quote_of_requoted.
  assert (forall k x, db_messages d !! k = Some x -> kept x (requoted c id quote (if decide (k = id) then f x else x))) as Hk.
  { intros k x Hkx. etrans; [|apply requoted_kept]. destruct (decide (k = id)) as [->|]; [by apply Hkept|done]. }
  pose proof (Hk _ _ Hm) as Hkm. pose proof (Hk _ _ Ho) as Hko. clear Hk. apply (kept_live _ _ _ Hkm) in Hlm. apply (kept_live _ _ _ Hko) in Hlo.
  rewrite (kept_conversation _ _ Hkm), (kept_conversation _ _ Hko) in Hconv.
  apply requoted_reply in Hreply as [(Hc & Hid & ->)|[Hor Hreply]].
  - rewrite decide_True by done. rewrite Hid in Ho. symmetry. by eapply (Hin o j m).
  - assert (ChatEntry.reply_to (msg_body m) = Some reply) as Hreply0 by (destruct (decide (j = id)) as [->|]; [by eapply Hsame|done]).
    rewrite (ok_quotes _ _ Hok j m reply o) by done. destruct (decide (reply_message_id reply = id)) as [Hid|]; [|done]. destruct Hor as [Hc|]; [|done].
    rewrite Hid in Ho. symmetry. by eapply (Hout o j m).
Qed.

(** A removal takes text, files, quote and reactions; the first time stands. *)
Definition removes (room_id : string) (removed_at now : timestamp) (m m' : message_row) : Prop :=
  msg_room m = Some room_id /\ live now m = true /\ msg_body m' = erase_body removed_at (msg_body m).

Lemma remove_public_carries lic room_id id removed_at now d d' r : history_ok now d ->
  (forall m m', removes room_id removed_at now m m' -> rewrites lic id m m') ->
  remove_public room_id id removed_at now d = (d', r) -> carries lic now d d'.
Proof.
  intros Hok Hlic. unfold remove_public, hbind, hmodify, hget, hret. intros [= <- <-].
  set (f := fun m => if in_room room_id m && live now m then erase_row removed_at m else m).
  assert (forall m, kept m (f m)) as Hf by (intros m; unfold f; destruct (_ && _); [apply erase_kept|done]).
  match goal with |- carries lic now d ?x => set (d' := x) end.
  assert (forall j, db_messages d' !! j = (fun m => requoted (in_room room_id) id (text_of "Message removed") (if decide (j = id) then f m else m))
    <$> db_messages d !! j) as Hd'.
  { intros j. unfold d'. cbn. rewrite lookup_update_where. destruct (decide (j = id)) as [->|Hne].
    - rewrite lookup_alter_eq. by destruct (db_messages d !! id).
    - rewrite lookup_alter_ne by done. by destruct (db_messages d !! j). }
  assert (forall m, in_room room_id (f m) = in_room room_id m) as Hroom by (intros m; unfold in_room; by rewrite (kept_room _ _ (Hf m))).
  apply (carries_imap _ _ _ _ (fun j m => requoted (in_room room_id) id (text_of "Message removed") (if decide (j = id) then f m else m))); try done.
  - intros k p Hk. unfold d' in Hk. cbn in Hk. by apply lookup_delete_Some in Hk as [_ ?].
  - intros j m _. split; [etrans; [|apply requoted_kept]; by case_decide|].
    case_decide as Hj; [subst j|left; apply requoted_words]. unfold f. destruct (_ && _) eqn:Hin; [|left; apply requoted_words].
    right. apply andb_true_iff in Hin as [Hin%bool_decide_eq_true Hl]. apply Hlic. split_and!; [done..|]. unfold requoted. by destruct (_ && _).
  - eapply (quotes_rewritten now d d' f); [done|done|auto|..].
    + intros m reply _. unfold f. by destruct (_ && _).
    + intros o j m Ho Hlo Hm Hlm Hconv Hc. assert (in_room room_id m = true) as Hin by (destruct (decide (j = id)); [by rewrite Hroom in Hc|done]).
      unfold f. rewrite (room_row now d j m) in Hin by done. rewrite (room_row now d id o) by done. unfold in_conversation in *.
      rewrite Hconv, Hin, Hlo. apply quote_of_erased.
    + intros o j m Ho Hlo Hm Hlm Hconv Hc. assert (in_room room_id m = false) as Hin by (destruct (decide (j = id)); [by rewrite Hroom in Hc|done]).
      unfold f. rewrite (room_row now d j m) in Hin by done. rewrite (room_row now d id o) by done. unfold in_conversation in *.
      by rewrite Hconv, Hin.
Qed.

(** An edit that is not a repeated one marks the message as edited. *)
Lemma apply_edit_Ok now b request b' : apply_edit now b request = Ok b' ->
  b' = b \/ (ChatEntry.removed_at b = None /\ ChatEntry.revision b' <> ChatEntry.revision b
             /\ b' = b <| ChatEntry.revision := (ChatEntry.revision b + 1)%N |> <| ChatEntry.content := edit_content request |>
                       <| ChatEntry.edited_at := Some now |>).
Proof.
  unfold apply_edit. repeat case_match; intros [= <-]; auto. right. split_and!; [|cbn; lia|done].
  bool_hyps. by apply eq_None_not_Some.
Qed.

(** An edit by the author of a message that has not been removed gives it the
    new text and the mark, and leaves its files and the message it answers. *)
Definition edits (actor : N) (guest : option N) (request : edit_request) (now : timestamp) (m m' : message_row) : Prop :=
  live now m = true /\ may_edit actor guest m = true
  /\ ChatEntry.removed_at (msg_body m) = None /\ ChatEntry.removed_at (msg_body m') = None
  /\ ChatEntry.content (msg_body m') = edit_content request /\ ChatEntry.edited_at (msg_body m') = Some now
  /\ file_ids (msg_body m') = file_ids (msg_body m) /\ reply_id (msg_body m') = reply_id (msg_body m).

Lemma edit_carries lic conv actor guest id request now d d' r : history_ok now d ->
  (forall m m', edits actor guest request now m m' -> rewrites lic id m m') ->
  edit_in_transaction conv actor guest id request now d = (d', r) -> carries lic now d d'.
Proof.
  intros Hok Hlic. unfold edit_in_transaction, hbind, hget, ensure, hret, bail, hmodify.
  destruct (db_messages d !! id) as [m|] eqn:Hm; [|intros [= <- <-]; by apply carries_refl].
  destruct (_ && _ && _) eqn:Hmine; [|intros [= <- <-]; by apply carries_refl].
  apply andb_true_iff in Hmine as [[Hconv%bool_decide_eq_true Hlive]%andb_true_iff Hmay].
  set (saved := conversation_message (msg_body m) (is_private conv)).
  destruct (apply_edit now saved request) as [edited|] eqn:Hedit; [|intros [= <- <-]; by apply carries_refl].
  apply apply_edit_Ok in Hedit as [->|(Hnr & Hrev & Hed)]; [rewrite N.eqb_refl; intros [= <- <-]; by apply carries_refl|].
  destruct (N.eqb_spec (ChatEntry.revision saved) (ChatEntry.revision edited)); [congruence|]. intros [= <- <-].
  set (f := fun m : message_row => m <| msg_body := edited |>).
  set (c := fun m => in_conversation conv m && live now m).
  assert (forall m0, (if in_conversation conv m0 && quotes id m0 && live now m0 then set_quote (quote_excerpt (ChatEntry.content edited)) m0 else m0)
    = requoted c id (quote_excerpt (ChatEntry.content edited)) m0) as Hc.
  { intros m0. unfold requoted, c. by rewrite <-!andb_assoc, (andb_comm (quotes id m0)). }
  match goal with |- carries lic now d ?x => set (d' := x) end.
  assert (forall m0, db_messages d !! id = Some m0 -> kept m0 (f m0)) as Hf.
  { intros m0 Hm0. assert (m0 = m) as -> by congruence. apply kept_body_update. rewrite Hed. unfold saved. split; cbn; eauto 10. }
  assert (forall j, db_messages d' !! j = (fun m0 => requoted c id (quote_excerpt (ChatEntry.content edited)) (if decide (j = id) then f m0 else m0))
    <$> db_messages d !! j) as Hd'.
  { intros j. unfold d'. cbn. rewrite lookup_update_where.
    destruct (decide (j = id)) as [->|Hne]; [rewrite lookup_alter_eq, Hm; cbn; f_equal; apply Hc|rewrite lookup_alter_ne by done].
    destruct (db_messages d !! j); [cbn; f_equal; apply Hc|done]. }
  apply (carries_imap _ _ _ _ (fun j m0 => requoted c id (quote_excerpt (ChatEntry.content edited)) (if decide (j = id) then f m0 else m0))); try done.
  - intros j m0 Hj. split; [etrans; [|apply requoted_kept]; destruct (decide (j = id)) as [->|]; [by apply Hf|done]|].
    destruct (decide (j = id)) as [->|]; [|left; apply requoted_words]. assert (m0 = m) as -> by congruence. right. apply Hlic.
    destruct (requoted_words c id (quote_excerpt (ChatEntry.content edited)) (f m)) as [W1 W2 W3 W4 W5]. unfold edits. rewrite W1, W2, W3, W4, W5.
    unfold f. cbn. by rewrite Hed.
  - eapply (quotes_rewritten now d d' f); [done|done|done|..].
    + intros m0 reply Hm0. assert (m0 = m) as -> by congruence. cbn. by rewrite Hed.
    + intros o j m0 Ho Hlo Hj Hlj Hcj Hcm. unfold quote_of, removed. cbn. rewrite bool_decide_false; [done|]. rewrite Hed. cbn.
      unfold saved in Hnr. cbn in Hnr. rewrite Hnr. by intros [? ?].
    + intros o j m0 Ho Hlo Hj Hlj Hcj Hcm. exfalso. assert (o = m) as -> by congruence. assert (c m0 = true) as Hyes.
      { unfold c, in_conversation. by rewrite Hlj, bool_decide_true by congruence. }
      destruct (decide (j = id)) as [->|]; unfold c, in_conversation, live in *; cbn in Hcm; congruence.
Qed.

(** ** Retention and cleanup *)

(** Rows are taken away with their pins; the others keep their quotes. *)
Lemma carries_taken lic now d d' : history_ok now d ->
  (forall id m', db_messages d' !! id = Some m' -> exists m, db_messages d !! id = Some m /\ kept m m' /\ same_quotes m m'
     /\ same_words (msg_body m) (msg_body m')) ->
  (forall id m, db_messages d !! id = Some m -> db_messages d' !! id = None -> live now m = false \/ (is_Some (msg_room m) /\ gone lic m)) ->
  (forall k row, db_inbox d' !! k = Some row -> db_inbox d !! k = Some row) ->
  (forall k row, db_inbox d !! k = Some row -> db_inbox d' !! k = None -> (inbox_expires row <= now)%N) ->
  db_people d' = db_people d ->
  (forall room_id id m, db_messages d' !! id = Some m -> msg_room m = Some room_id ->
     is_Some (db_periods d !! room_id) -> is_Some (db_periods d' !! room_id)) ->
  (forall k p, db_pins d' !! k = Some p -> db_pins d !! k = Some p /\ is_Some (db_messages d' !! k.2)) -> carries lic now d d'.
Proof.
  intros Hok Hrows Hlost Hin Hinl Hpe Hper Hpins. assert (shrinks (gone lic) now d d') as Hsh.
  { split; try done; rewrite ?Hpe; [|done|by apply (ok_people _ _ Hok)]. intros id m' Hm'. destruct (Hrows _ _ Hm') as (m & ? & ? & _). eauto. }
  apply shrinks_carries; [done..| |by eapply shrinks_pins|].
  - apply (quotes_unchanged now d); [|apply (ok_quotes _ _ Hok)]. intros id m' Hm'. destruct (Hrows _ _ Hm') as (m & ? & ? & ? & _). eauto.
  - intros id m m' Hm Hm'. destruct (Hrows _ _ Hm') as (m0 & ? & _ & _ & ?). simplify_eq. by left.
Qed.

Lemma lookup_deleted P d id m : db_messages (delete_messages P d) !! id = Some m <-> db_messages d !! id = Some m /\ P id m = false.
Proof. unfold delete_messages. cbn. by rewrite lookup_select, negb_true_iff. Qed.
Lemma deleted_pins P d k p : db_pins (delete_messages P d) !! k = Some p ->
  db_pins d !! k = Some p /\ is_Some (db_messages (delete_messages P d) !! k.2).
Proof. unfold delete_messages. cbn. by intros [Hp Hk%bool_decide_eq_true]%lookup_select. Qed.

Definition shorten (room_id : string) (days : Z) (m : message_row) : message_row :=
  if in_room room_id m then m <| msg_expires ::= N.min (days_later days (msg_sent m)) |> else m.
Lemma shorten_kept room_id days m : kept m (shorten room_id days m) /\ same_quotes m (shorten room_id days m)
  /\ same_words (msg_body m) (msg_body (shorten room_id days m)).
Proof.
  unfold shorten. destruct (in_room room_id m) eqn:Hr; [|by split_and!]. apply bool_decide_eq_true in Hr. split; [|done].
  split; [by destruct m|cbn; lia|congruence|done].
Qed.

(** What a new period takes away. *)
Definition outlived (room_id : string) (days : Z) (now : timestamp) (m : message_row) : Prop :=
  msg_room m = Some room_id /\ (days = 0%Z \/ (days_later days (msg_sent m) <= now)%N).

Lemma set_retention_carries room_id days now d d' r : history_ok now d -> set_retention room_id days now d = (d', r) ->
  carries (Licence (outlived room_id days now) (fun _ _ _ => False)) now d d'.
Proof.
  intros Hok Hx. unfold set_retention, hbind, ensure in Hx. destruct (bool_decide _); [|injection Hx as <- <-; by apply carries_refl].
  cbn [hret] in Hx. apply transaction_cases in Hx as [Hx|[-> _]]; [|by apply carries_refl].
  unfold hget, hret, bail, hmodify in Hx. destruct (bool_decide _); [|injection Hx as <- <-; by apply carries_refl]. cbn in Hx.
  set (P := fun (_ : N) m => in_room room_id m && ((days =? 0)%Z || (days_later days (msg_sent m) <=? now)%N)) in Hx.
  assert (db_messages d' = shorten room_id days <$> db_messages (delete_messages P d) /\ db_pins d' = db_pins (delete_messages P d)
    /\ db_inbox d' = db_inbox d /\ db_people d' = db_people d /\ db_periods d' = <[room_id := days]> (db_periods d)) as (Hm & Hp & Hi & Hpe & Hper).
  { destruct (days =? 0)%Z; injection Hx as <- <-; done. }
  clear Hx. apply carries_taken; rewrite ?Hi; try done.
  - intros id m' Hm'. rewrite Hm, lookup_fmap in Hm'. apply fmap_Some in Hm' as (m & [Hid _]%lookup_deleted & ->). exists m. split; [done|apply shorten_kept].
  - intros id m Hid Hn. rewrite Hm, lookup_fmap in Hn. apply fmap_None in Hn. right. destruct (P id m) eqn:HP.
    + apply andb_true_iff in HP as [HP%bool_decide_eq_true Hover]. split; [eauto|]. split; [done|]. apply orb_true_iff in Hover as [?%Z.eqb_eq|?%N.leb_le]; auto.
    + by rewrite (proj2 (lookup_deleted P d id m)) in Hn.
  - congruence.
  - intros room' id m _ _ [x Hx]. rewrite Hper. destruct (decide (room_id = room')) as [->|]; [rewrite lookup_insert_eq|rewrite lookup_insert_ne by done]; eauto.
  - intros k p Hk. rewrite Hp in Hk. destruct (deleted_pins _ _ _ _ Hk) as [? [m Hkm]]. split; [done|]. rewrite Hm, lookup_fmap, Hkm. eauto.
Qed.

Lemma cleanup_turn_carries lic now d d' r : history_ok now d -> cleanup_turn now d = (d', r) -> carries lic now d d'.
Proof.
  intros Hok. unfold cleanup_turn, cleanup, hbind, hget, hmodify, hret. cbn.
  set (batch := expired_batch msg_expires now (db_messages d)). intros [= <- <-].
  assert (forall id m, db_messages d !! id = Some m -> bool_decide (id ∈ batch) = true -> live now m = false) as Hover.
  { intros id m Hm Hin%bool_decide_eq_true. apply N.ltb_ge. by eapply expired_batch_over. }
  apply carries_taken; cbn; try done.
  - intros id m' [Hm _]%lookup_select. by exists m'.
  - intros id m Hm Hn. left. apply (Hover id); [done|]. apply (lookup_select_None _ _ _ _ Hn) in Hm. by apply negb_false_iff in Hm.
  - by intros k row [? _]%lookup_drop_batch.
  - intros k row Hk Hn. destruct (decide (k ∈ expired_batch inbox_expires now (db_inbox d))) as [Hin|Hout]; [by eapply expired_batch_over|].
    by rewrite (proj2 (lookup_drop_batch _ _ _ row)) in Hn.
  - intros k p [Hp Hk%bool_decide_eq_true]%lookup_select. done.
Qed.

(** ** Saving *)

(** The row a new message becomes. *)
Definition new_row (conversation : string) (room_id : option string) (session : N) (authenticated : bool) (days : Z) (message : chat_entry)
  (attachments : list chat_attachment) (now : timestamp) (d : history_db) : message_row :=
  let account := bool_decide (is_Some (ChatEntry.recipient_id message)) in
  let body := (conversation_message message account) <| ChatEntry.attachments := attachments |>
                <| ChatEntry.reply_to ::= fmap (current_quote conversation now d) |> in
  MessageRow conversation room_id (if authenticated then Some (ChatEntry.participant_id message) else None) (ChatEntry.recipient_id message)
    session (ChatEntry.client_message_id message) (ChatEntry.sent_at message) (days_later days (ChatEntry.sent_at message)) body.

(** What the inbox of [user] shows of [peer] after a message. *)
Definition inbox_after (old : option inbox_row) (row : inbox_row) : inbox_row :=
  match old with
  | None => row
  | Some old => if bool_decide (earlier (last_sent old, last_message old) (last_sent row, last_message row))
                then InboxRow (inbox_conversation old) (last_message row) (last_sent row) (inbox_expires row) else old
  end.

(** [row] was added for [message]. *)
Record inserted (message : chat_entry) (row : message_row) (now : timestamp) (d d' : history_db) : Prop := {
  ins_attempt : find_attempt (msg_conversation row) (msg_session row) (msg_client row) d = None;
  ins_budget : is_Some (ChatEntry.recipient_id message) ->
    (size (recent_private (ChatEntry.participant_id message) now d) < PRIVATE_MESSAGES_PER_MINUTE)%nat;
  ins_fresh : db_messages d !! ChatEntry.message_id message = None;
  ins_checks : check_row row d = (d, Ok tt);
  ins_messages : db_messages d' = <[ChatEntry.message_id message := row]> (db_messages d);
  ins_tables : db_people d' = db_people d /\ db_periods d' = db_periods d /\ db_pins d' = db_pins d;
  ins_inbox : match ChatEntry.recipient_id message with
    | None => db_inbox d' = db_inbox d
    | Some recipient =>
        let sender := ChatEntry.participant_id message in
        let entry := InboxRow (msg_conversation row) (ChatEntry.message_id message) (msg_sent row) (msg_expires row) in
        sender <> recipient
        /\ db_inbox d' !! (sender, recipient) = Some (inbox_after (db_inbox d !! (sender, recipient)) entry)
        /\ db_inbox d' !! (recipient, sender) = Some (inbox_after (db_inbox d !! (recipient, sender)) entry)
        /\ forall k, k <> (sender, recipient) -> k <> (recipient, sender) -> db_inbox d' !! k = db_inbox d !! k
    end
}.

Lemma upsert_inbox_Ok user peer row d d' u : upsert_inbox user peer row d = (d', Ok u) ->
  user <> peer /\ d' = d <| db_inbox ::= <[(user, peer) := inbox_after (db_inbox d !! (user, peer)) row]> |>.
Proof.
  unfold upsert_inbox. intros (d1 & d2 & [= <- <-] & Hx)%hbind_ok. apply hbind_ok in Hx as (? & ? & [Hne%negb_true_iff ->]%ensure_ok & Hx).
  apply hbind_ok in Hx as (? & ? & [_ ->]%ensure_ok & Hx). apply N.eqb_neq in Hne. split; [done|]. injection Hx as <- _.
  destruct d. unfold update_field. cbn. f_equal. apply map_eq. intros k. destruct (decide (k = (user, peer))) as [->|Hk].
  - rewrite lookup_partial_alter_eq, lookup_insert_eq. unfold inbox_after. by destruct (_ !! _).
  - by rewrite lookup_partial_alter_ne, lookup_insert_ne.
Qed.

Lemma insert_row_Ok id m d d' b : insert_row id m d = (d', Ok b) ->
  match find_attempt (msg_conversation m) (msg_session m) (msg_client m) d with
  | Some _ => b = false /\ d' = d
  | None => b = true /\ db_messages d !! id = None /\ check_row m d = (d, Ok tt) /\ d' = d <| db_messages ::= <[id := m]> |>
  end.
Proof.
  unfold insert_row. intros (d1 & d2 & [= <- <-] & Hx)%hbind_ok. destruct (find_attempt _ _ _ d); [by injection Hx as <- <-|].
  apply hbind_ok in Hx as (d2 & [] & Hc & Hx). assert (d2 = d) as ->.
  { unfold check_row in Hc. apply hbind_ok in Hc as (? & ? & [= <- <-] & Hc). apply hbind_ok in Hc as (? & ? & [_ ->]%ensure_ok & Hc).
    by apply ensure_ok in Hc as [_ ->]. }
  apply hbind_ok in Hx as (? & ? & [Hn%bool_decide_eq_true ->]%ensure_ok & Hx). apply hbind_ok in Hx as (? & ? & [= <- _] & Hx).
  by injection Hx as <- <-.
Qed.

Lemma bind_durable_Ok ids id room_id expires d d' u : bind_durable ids id room_id expires d = (d', Ok u) -> exists files, d' = d <| db_files := files |>.
Proof.
  unfold bind_durable. intros (d1 & d2 & [= <- <-] & Hx)%hbind_ok. apply hbind_ok in Hx as (? & ? & [_ ->]%ensure_ok & Hx). injection Hx as <- _. eauto.
Qed.

Lemma reserve_Ok sender now d d' u : reserve_private_message sender now d = (d', Ok u) ->
  d' = d /\ (size (recent_private sender now d) < PRIVATE_MESSAGES_PER_MINUTE)%nat.
Proof.
  unfold reserve_private_message. intros (? & ? & [= <- <-] & [Hlt ->]%ensure_ok)%hbind_ok. split; [done|].
  apply negb_true_iff, Nat.leb_gt in Hlt. lia.
Qed.

(** Every file that was asked for is found, in the order asked. *)
Lemma pending_metadata_Ok owner ids now d d' files : pending_metadata owner ids now d = (d', Ok files) ->
  d' = d /\ attachment_id <$> files = ids.
Proof.
  unfold pending_metadata. intros (? & ? & [Hv ->]%ensure_ok & Hx)%hbind_ok. apply hbind_ok in Hx as (? & ? & [= <- <-] & Hx).
  set (found := select _ _) in Hx. apply hbind_ok in Hx as (? & ? & [Hsize%bool_decide_eq_true ->]%ensure_ok & [= <- <-]). split; [done|].
  unfold valid_ids in Hv. apply andb_true_iff in Hv as [_ Hnd%bool_decide_eq_true].
  assert (dom found = list_to_set ids) as Hdom.
  { apply set_subseteq_size_eq.
    - intros k [f Hk]%elem_of_dom. apply lookup_select in Hk as [_ Hk]. apply elem_of_list_to_set. bool_hyps. done.
    - rewrite size_dom, Hsize, size_list_to_set by done. done. }
  assert (forall id, id ∈ ids -> is_Some (found !! id)) as Hall by (intros id Hid; apply elem_of_dom; rewrite Hdom; by apply elem_of_list_to_set).
  clearbody found. clear -Hall. induction ids as [|id ids IH]; [done|]. cbn. destruct (Hall id) as [f ->]; [by constructor|]. cbn. f_equal.
  apply IH. intros. apply Hall. by constructor.
Qed.

(** Both accounts of a message, the lower identifier first. *)
Lemma inbox_pair_after (d d' : history_db) sender recipient entry (upsert := fun k m => <[k := inbox_after (m !! k) entry]> m) :
  N.min sender recipient <> N.max sender recipient ->
  db_inbox d' = upsert (N.max sender recipient, N.min sender recipient) (upsert (N.min sender recipient, N.max sender recipient) (db_inbox d)) ->
  sender <> recipient
  /\ db_inbox d' !! (sender, recipient) = Some (inbox_after (db_inbox d !! (sender, recipient)) entry)
  /\ db_inbox d' !! (recipient, sender) = Some (inbox_after (db_inbox d !! (recipient, sender)) entry)
  /\ forall k, k <> (sender, recipient) -> k <> (recipient, sender) -> db_inbox d' !! k = db_inbox d !! k.
Proof.
  intros Hne ->. unfold upsert. destruct (N.lt_trichotomy sender recipient) as [Hlt|[->|Hlt]]; [|lia|].
  - rewrite N.min_l, N.max_r by lia. split_and!; [lia| | |].
    + rewrite lookup_insert_ne by congruence || (intros [=]; lia). by rewrite lookup_insert_eq.
    + rewrite lookup_insert_eq. by rewrite lookup_insert_ne by (intros [=]; lia).
    + intros k Hk1 Hk2. by rewrite !lookup_insert_ne.
  - rewrite N.min_r, N.max_l by lia. split_and!; [lia| | |].
    + rewrite lookup_insert_eq. by rewrite lookup_insert_ne by (intros [=]; lia).
    + rewrite lookup_insert_ne by (intros [=]; lia). by rewrite lookup_insert_eq.
    + intros k Hk1 Hk2. by rewrite !lookup_insert_ne.
Qed.

(** Saving answers with the row that is there, or adds one. *)
Lemma insert_message_Ok room_id session authenticated days message ids now d d' saved :
  insert_message room_id session authenticated days message ids now d = (d', Ok saved) ->
  exists conversation, conversation_of room_id (ChatEntry.participant_id message) (ChatEntry.recipient_id message) authenticated = Ok conversation /\
  match find_attempt conversation session (ChatEntry.client_message_id message) d with
  | Some existing => d' = d /\ saved = conversation_message (msg_body existing) (bool_decide (is_Some (ChatEntry.recipient_id message)))
      /\ same_attempt (msg_body existing) message ids = true
  | None => exists attachments, let row := new_row conversation room_id session authenticated days message attachments now d in
      inserted message row now d d' /\ saved = msg_body row /\ attachment_id <$> attachments = ids
  end.
Proof.
  destruct message as [mid client sender name recipient rname ac content atts sent rem rev ed style reply reacts].
  unfold insert_message. intros (d1 & conversation & [= <- Hconv] & Hx)%hbind_ok. exists conversation. split; [done|]. cbn -[hbind] in Hx. cbn.
  apply hbind_ok in Hx as (? & ? & [= <- <-] & Hx). destruct (find_attempt conversation session client d) as [existing|] eqn:Hfind.
  { apply hbind_ok in Hx as (? & ? & [Hs ->]%ensure_ok & Hx). by injection Hx as <- <-. }
  apply hbind_ok in Hx as (d2 & [] & Hres & Hx). apply hbind_ok in Hx as (? & ? & [_ ->]%ensure_ok & Hx).
  apply hbind_ok in Hx as (d3 & attachments & [-> Hids]%pending_metadata_Ok & Hx). apply hbind_ok in Hx as (d4 & b & Hins & Hx).
  assert (d2 = d /\ (is_Some recipient -> (size (recent_private sender now d) < PRIVATE_MESSAGES_PER_MINUTE)%nat)) as [-> Hbudget].
  { case_bool_decide; [|injection Hres as <-; done]. by apply reserve_Ok in Hres as [-> ?]. }
  apply insert_row_Ok in Hins. cbn in Hins. rewrite Hfind in Hins. destruct Hins as (-> & Hfresh & Hcheck & ->). cbn [negb] in Hx.
  apply hbind_ok in Hx as (d5 & [] & [files ->]%bind_durable_Ok & Hx). exists attachments. destruct recipient as [recipient|].
  - apply hbind_ok in Hx as (d6 & [] & [Hne ->]%upsert_inbox_Ok & Hx). apply hbind_ok in Hx as (d7 & [] & [_ ->]%upsert_inbox_Ok & Hx).
    injection Hx as <- <-. split_and!; [|done|done]. split; try done. by apply inbox_pair_after.
  - injection Hx as <- <-. split_and!; [|done|done]. by split.
Qed.

Lemma lock_accounts_Ok sender recipient d d' people : lock_private_accounts sender recipient d = (d', Ok people) ->
  d' = d /\ sender <> recipient /\ db_people d !! sender = Some people.1 /\ db_people d !! recipient = Some people.2.
Proof.
  unfold lock_private_accounts. intros (? & ? & [Hne%negb_true_iff%N.eqb_neq ->]%ensure_ok & Hx)%hbind_ok.
  apply hbind_ok in Hx as (? & ? & [= <- <-] & Hx). destruct (db_people d !! sender), (db_people d !! recipient); try done. by injection Hx as <- <-.
Qed.

(** A random identifier: nothing has or quotes it. *)
Definition fresh (id : N) (d : history_db) : Prop :=
  is_uuid id /\ db_messages d !! id = None /\ forall j m, db_messages d !! j = Some m -> reply_id (msg_body m) <> Some id.

Lemma find_attempt_None conv session client d id m : find_attempt conv session client d = None -> db_messages d !! id = Some m ->
  of_attempt conv session client m = false.
Proof.
  unfold find_attempt. intros Hn Hm. apply fmap_None in Hn. by eapply (select_one_None _ _ _ _ Hn).
Qed.
Lemma find_attempt_Some conv session client d m : find_attempt conv session client d = Some m ->
  exists id, db_messages d !! id = Some m /\ of_attempt conv session client m = true.
Proof. unfold find_attempt. intros ([id x] & Hs & ->)%fmap_Some. apply select_one_Some in Hs. eauto. Qed.

Lemma inbox_after_ok now d k old entry :
  (forall row, old = Some row -> inbox_ok now d k row) -> inbox_ok now d k entry -> inbox_ok now d k (inbox_after old entry).
Proof.
  intros Hold Hentry. destruct old as [row|]; [|done]. cbn. specialize (Hold row eq_refl). case_bool_decide; [|done].
  destruct Hold as [Hp ? ? ? ?], Hentry as [Hp' ? ? ? ?]. split; try done. cbn. by rewrite Hp, <-Hp'.
Qed.
Lemma inbox_after_last old entry key :
  match old with Some row => ~ earlier (last_sent row, last_message row) key | None => False end \/ key = (last_sent entry, last_message entry) ->
  ~ earlier (last_sent (inbox_after old entry), last_message (inbox_after old entry)) key.
Proof.
  intros [Hold| ->]; destruct old as [row|]; cbn; try done.
  - case_bool_decide as Hlt; [|done]. cbn. intros He. apply Hold. by etrans.
  - case_bool_decide as Hlt; cbn; [|done]. apply (irreflexivity earlier).
  - apply (irreflexivity earlier).
Qed.

Section insertion.
Context (conversation : string) (room_id : option string) (session : N) (authenticated : bool) (days : Z) (message : chat_entry).
Context (attachments : list chat_attachment) (now : timestamp) (d d' : history_db).
Let id := ChatEntry.message_id message.
Let row := new_row conversation room_id session authenticated days message attachments now d.
Hypothesis Hok : history_ok now d.
Hypothesis Hconv : conversation_of room_id (ChatEntry.participant_id message) (ChatEntry.recipient_id message) authenticated = Ok conversation.
Hypothesis Hins : inserted message row now d d'.
Hypothesis Hfresh : fresh id d.
Hypothesis Hself : reply_id message <> Some id.
Hypothesis Hsent : (ChatEntry.sent_at message < YEAR_10000)%N.
Hypothesis Hdays : is_Some (ChatEntry.recipient_id message) -> days = PM_RETENTION_DAYS.

Lemma inserted_lookup j m : db_messages d' !! j = Some m <-> (j = id /\ m = row) \/ (j <> id /\ db_messages d !! j = Some m).
Proof. rewrite (ins_messages _ _ _ _ _ Hins), lookup_insert_Some. fold id. naive_solver. Qed.
Lemma inserted_old j m : db_messages d !! j = Some m -> j <> id /\ db_messages d' !! j = Some m.
Proof.
  intros Hm. assert (j <> id) as Hne by (intros ->; pose proof (ins_fresh _ _ _ _ _ Hins); unfold id in *; congruence).
  split; [done|]. apply inserted_lookup. by right.
Qed.

Lemma inserted_row_ok : row_ok d' id row.
Proof.
  destruct (ins_tables _ _ _ _ _ Hins) as (Hpe & Hper & _). pose proof (ins_checks _ _ _ _ _ Hins) as Hc. unfold check_row in Hc.
  apply hbind_ok in Hc as (? & ? & [= <- <-] & Hc). apply hbind_ok in Hc as (? & ? & [_ ->]%ensure_ok & Hc). apply ensure_ok in Hc as [Hfk _].
  pose proof (ins_inbox _ _ _ _ _ Hins) as Hi. split; [by apply Hfresh|done|done|]. unfold row, new_row in *. cbn in *.
  destruct room_id as [room|], (ChatEntry.recipient_id message) as [recipient|] eqn:Hrec; cbn in Hconv; try done.
  - injection Hconv as <-. rewrite Hper. bool_hyps. by split_and!.
  - destruct authenticated; [|done]. injection Hconv as <-. rewrite Hpe. exists (ChatEntry.participant_id message), recipient. bool_hyps.
    rewrite Hdays by eauto. by split_and!.
Qed.

Lemma inserted_rows_ok : map_Forall (row_ok d') (db_messages d').
Proof.
  intros j m [[-> ->]|[_ Hm]]%inserted_lookup; [apply inserted_row_ok|]. destruct (ok_rows _ _ Hok _ _ Hm) as [? ? ? Hplace]. split; try done.
  destruct (ins_tables _ _ _ _ _ Hins) as (-> & -> & _). done.
Qed.

Lemma inserted_attempts j j' m m' : db_messages d' !! j = Some m -> db_messages d' !! j' = Some m' ->
  of_attempt (msg_conversation m) (msg_session m) (msg_client m) m' = true -> j = j'.
Proof.
  assert (forall k x, db_messages d !! k = Some x -> of_attempt (msg_conversation row) (msg_session row) (msg_client row) x = false) as Hnone
    by (intros k x Hx; exact (find_attempt_None _ _ _ _ _ _ (ins_attempt _ _ _ _ _ Hins) Hx)). intros [[-> ->]|[_ Hm]]%inserted_lookup [[-> ->]|[_ Hm']]%inserted_lookup Ha.
  - done.
  - by rewrite (Hnone _ _ Hm') in Ha.
  - assert (of_attempt (msg_conversation row) (msg_session row) (msg_client row) m = true) as Ha'.
    { apply of_attempt_spec. apply of_attempt_spec in Ha as (-> & -> & ->). done. }
    by rewrite (Hnone _ _ Hm) in Ha'.
  - by eapply (ok_attempts _ _ Hok).
Qed.

Lemma inserted_budget a : (size (recent_private a now d') <= PRIVATE_MESSAGES_PER_MINUTE)%nat.
Proof.
  unfold recent_private. set (P := fun (_ : N) m => _). rewrite (ins_messages _ _ _ _ _ Hins). fold id.
  assert (db_messages d !! id = None) as Hnew by apply (ins_fresh _ _ _ _ _ Hins). unfold select.
  destruct (P id row) eqn:HP.
  - rewrite map_filter_insert_True by done. rewrite map_size_insert_None by (apply map_lookup_filter_None; by left).
    assert (a = ChatEntry.participant_id message /\ is_Some (ChatEntry.recipient_id message)) as [-> Hrec].
    { unfold P, row, new_row in HP. cbn in HP. bool_hyps. destruct authenticated; [|done]. split; [congruence|done]. }
    exact (ins_budget _ _ _ _ _ Hins Hrec).
  - rewrite map_filter_insert_False by (intros Hc; change (P id row = true) in Hc; congruence). rewrite delete_id by done. apply (ok_budget _ _ Hok a).
Qed.

Lemma inserted_inbox_mono k entry : inbox_ok now d k entry -> inbox_ok now d' k entry.
Proof.
  intros [? ? Hp ? Hlast]. destruct (ins_tables _ _ _ _ _ Hins) as (Hpe & _). split; try done; [by rewrite Hpe|]. intros Hnow.
  destruct (Hlast Hnow) as (m & Hm & ?). apply inserted_old in Hm as [_ Hm]. eauto.
Qed.

Lemma inserted_entry recipient (sender := ChatEntry.participant_id message) :
  ChatEntry.recipient_id message = Some recipient ->
  let entry := InboxRow (msg_conversation row) id (msg_sent row) (msg_expires row) in
  inbox_ok now d' (sender, recipient) entry /\ inbox_ok now d' (recipient, sender) entry.
Proof.
  intros Hrec entry. pose proof inserted_row_ok as [_ _ _ Hplace]. pose proof (ins_inbox _ _ _ _ _ Hins) as Hi. rewrite Hrec in Hi. destruct Hi as (Hne & _).
  assert (exists m, db_messages d' !! id = Some m /\ msg_conversation m = msg_conversation row /\ msg_sent m = msg_sent row) as Hrow
    by (exists row; split_and!; [apply inserted_lookup; by left|done|done]).
  assert (msg_room row = None /\ msg_conversation row = private_conversation sender recipient
    /\ is_Some (db_people d' !! sender) /\ is_Some (db_people d' !! recipient) /\ msg_expires row = days_later PM_RETENTION_DAYS (msg_sent row))
    as (_ & Hc & Hs & Hr & He).
  { destruct (msg_room row) as [room|].
    - destruct Hplace as (_ & Hn & _). unfold row, new_row in Hn. cbn in Hn. congruence.
    - destruct Hplace as (a & b & _ & Hb & _ & Hc & Ha & _ & Hpa & Hpb & He). unfold row, new_row in Hb, Ha. cbn in Hb, Ha.
      rewrite Hrec in Hb. injection Hb as <-. subst a. done. }
  split; split; cbn; try done. by rewrite private_conversation_sym.
Qed.

Lemma inserted_inbox_ok : map_Forall (inbox_ok now d') (db_inbox d').
Proof.
  intros k entry Hk. pose proof (ins_inbox _ _ _ _ _ Hins) as Hi. destruct (ChatEntry.recipient_id message) as [recipient|] eqn:Hrec in Hi.
  - destruct Hi as (_ & H1' & H2' & Hother). destruct (inserted_entry recipient Hrec) as [He1 He2].
    destruct (decide (k = (ChatEntry.participant_id message, recipient))) as [->|Hk1]; [|destruct (decide (k = (recipient, ChatEntry.participant_id message))) as [->|Hk2]].
    + rewrite H1' in Hk. injection Hk as <-. apply inbox_after_ok; [|done]. intros old Ho. by apply inserted_inbox_mono, (ok_inbox _ _ Hok).
    + rewrite H2' in Hk. injection Hk as <-. apply inbox_after_ok; [|done]. intros old Ho. by apply inserted_inbox_mono, (ok_inbox _ _ Hok).
    + rewrite Hother in Hk by done. by apply inserted_inbox_mono, (ok_inbox _ _ Hok).
  - rewrite Hi in Hk. by apply inserted_inbox_mono, (ok_inbox _ _ Hok).
Qed.

Lemma inserted_listed_mono a b key : listed d a b key -> listed d' a b key.
Proof.
  intros (entry & He & Hn). pose proof (ins_inbox _ _ _ _ _ Hins) as Hi. unfold listed.
  destruct (ChatEntry.recipient_id message) as [recipient|] eqn:Hrec in Hi; [|rewrite Hi; eauto]. destruct Hi as (_ & H1' & H2' & Hother).
  destruct (decide ((a, b) = (ChatEntry.participant_id message, recipient))) as [Heq|Hk1];
    [|destruct (decide ((a, b) = (recipient, ChatEntry.participant_id message))) as [Heq|Hk2]].
  - rewrite Heq, H1' in *. rewrite He. eexists. split; [done|]. apply inbox_after_last. by left.
  - rewrite Heq, H2' in *. rewrite He. eexists. split; [done|]. apply inbox_after_last. by left.
  - rewrite Hother by done. eauto.
Qed.

Lemma inserted_listed j m a b : db_messages d' !! j = Some m -> msg_sender m = Some a -> msg_recipient m = Some b -> live now m = true ->
  listed d' a b (msg_sent m, j) /\ listed d' b a (msg_sent m, j).
Proof.
  intros [[-> ->]|[_ Hm]]%inserted_lookup Ha Hb Hl.
  - unfold row, new_row in Ha, Hb. cbn in Ha, Hb. destruct authenticated; [|done]. injection Ha as <-.
    pose proof (ins_inbox _ _ _ _ _ Hins) as Hi. rewrite Hb in Hi. destruct Hi as (_ & H1' & H2' & _).
    split; eexists; (split; [done|]); apply inbox_after_last; by right.
  - destruct (ok_listed _ _ Hok _ _ _ _ Hm Ha Hb Hl). split; by apply inserted_listed_mono.
Qed.

Lemma current_quote_id conv reply : reply_message_id (current_quote conv now d reply) = reply_message_id reply.
Proof. unfold current_quote. by repeat case_match. Qed.

Lemma inserted_quotes : quotes_ok now d'.
Proof.
  intros j m reply o [[-> ->]|[_ Hm]]%inserted_lookup Hl Hr [[Hid ->]|[Hid Ho]]%inserted_lookup Hlo Hc.
  - exfalso. cbn in Hr. apply fmap_Some in Hr as (r0 & Hr0 & ->). apply Hself. unfold reply_id. rewrite Hr0. cbn. by rewrite <-Hid, current_quote_id.
  - cbn in Hr. apply fmap_Some in Hr as (r0 & Hr0 & ->). rewrite current_quote_id in Ho. unfold current_quote. rewrite Ho.
    change (msg_conversation o = conversation) in Hc. unfold in_conversation. by rewrite bool_decide_true, Hlo.
  - exfalso. destruct Hfresh as (_ & _ & Hf). apply (Hf _ _ Hm). unfold reply_id. rewrite Hr. cbn. congruence.
  - exact (ok_quotes _ _ Hok j m reply o Hm Hl Hr Ho Hlo Hc).
Qed.

Lemma inserted_pins : pins_ok d'.
Proof.
  destruct (ins_tables _ _ _ _ _ Hins) as (_ & _ & Hp). split; rewrite Hp; [|apply (ok_pins _ _ Hok)].
  intros k p Hk. destruct (pinned_rows _ (ok_pins _ _ Hok) _ _ Hk) as [? (m & Hm & ?)]. split; [done|]. apply inserted_old in Hm as [_ Hm]. eauto.
Qed.

Lemma inserted_carries lic : carries lic now d d'.
Proof.
  split; [|intros j m Hm; rewrite (proj2 (inserted_old _ _ Hm)); split; [done|by left]]. split.
  - apply inserted_rows_ok.
  - destruct (ins_tables _ _ _ _ _ Hins) as (-> & _). apply (ok_people _ _ Hok).
  - apply inserted_attempts.
  - apply inserted_budget.
  - apply inserted_inbox_ok.
  - apply inserted_listed.
  - apply inserted_quotes.
  - apply inserted_pins.
Qed.
End insertion.

(** What the callers of the two saves guarantee of a new message. *)
Record sendable (message : chat_entry) (days : Z) (d : history_db) : Prop := {
  send_fresh : fresh (ChatEntry.message_id message) d;
  send_self : reply_id message <> Some (ChatEntry.message_id message);
  send_time : (ChatEntry.sent_at message < YEAR_10000)%N;
  send_days : is_Some (ChatEntry.recipient_id message) -> days = PM_RETENTION_DAYS
}.

Lemma insert_message_carries lic room_id session authenticated days message ids now d d' saved : history_ok now d -> sendable message days d ->
  insert_message room_id session authenticated days message ids now d = (d', Ok saved) -> carries lic now d d'.
Proof.
  intros Hok [] (conversation & Hconv & Hx)%insert_message_Ok. destruct (find_attempt _ _ _ d).
  - destruct Hx as [-> _]. by apply carries_refl.
  - destruct Hx as (attachments & Hins & _). by eapply inserted_carries.
Qed.

Lemma persist_message_carries lic room_id session authenticated days message ids now d d' r : history_ok now d -> sendable message days d ->
  persist_message room_id session authenticated days message ids now d = (d', r) -> carries lic now d d'.
Proof.
  intros Hok Hs Hx. destruct r as [saved|]; [|by apply transaction_Err in Hx as ->; apply carries_refl].
  apply transaction_Ok, hbind_ok in Hx as (d1 & [] & Hallow & Hx). assert (d1 = d) as ->; [|by eapply insert_message_carries].
  destruct (ChatEntry.recipient_id message); [|by injection Hallow].
  apply hbind_ok in Hallow as (d2 & people & Hlock & [_ ->]%ensure_ok). by apply lock_accounts_Ok in Hlock as [-> _].
Qed.
End history.
