(* ===== verification/HistorySteps.v ===== *)
(** * The saved history as a state machine

    Everything that happens to the history tables, one command after another at
    times that do not go back, and that the invariant holds all along. *)

From S2P Require Import Prelude Paging Labels Settings Refusal Protocol Social Room Wire Process World Chat ChatRequests SocialRequests Tickets SavedHistory HistoryInv HistoryOps.

(** [DELETE FROM rooms], with what refers to the room. *)
Definition drop_history (room_id : string) (d : history_db) : history_db :=
  (delete_messages (fun _ => in_room room_id) d) <| db_periods ::= delete room_id |>.

Section history.
Context `{Unicode, HistoryText}.

Inductive history_command :=
| Persist (room_id : option string) (session : N) (authenticated : bool) (days : Z) (message : chat_entry) (attachment_ids : list N)
| Send (c : claims) (peer : N) (request : send_request) (context : room_context) (id : N)
| Edit (room_id : option string) (actor : N) (guest_session : option N) (original : chat_entry) (request : edit_request)
| EditPrivate (c : claims) (peer message : N) (request : edit_request)
| React (room_id : string) (message participant : N) (ignored : list N) (e : text)
| ReactPrivate (c : claims) (peer message : N) (e : text) (present : bool)
| SaveReactions (message : N) (reactions : list chat_reaction)
| Remove (room_id : string) (message : N) (removed_at : timestamp)
| MarkRead (conversation : string) (account message : N)
| Pin (room_id : string) (message : N) (pinned : bool)
| Retain (room_id : string) (days : Z)
| Attach (owner : N) (ids : list N) (message : N) (room_id : string)
| Clean
| DropRoom (room_id : string)
(** What other parts of the server save: rooms, accounts, contacts, sessions and uploads. *)
| SaveRoom (room_id : string) (days : Z)
| SaveOthers (people : gmap N chat_account) (contacts : gset (N * N)) (sessions : gmap N (N * timestamp)) (files : gmap N file_row).

Definition perform (now : timestamp) (cmd : history_command) (d : history_db) : history_db :=
  match cmd with
  | Persist room_id session authenticated days message ids => (persist_message room_id session authenticated days message ids now d).1
  | Send c peer request context id => (save_private_message c peer request context id now d).1
  | Edit room_id actor guest original request => (edit_saved room_id actor guest original request now d).1
  | EditPrivate c peer message request => (save_private_edit c peer message request now d).1
  | React room_id message participant ignored e => (react_public room_id message participant ignored e now d).1
  | ReactPrivate c peer message e present => (save_private_reaction c peer message e present now d).1
  | SaveReactions message reactions => (save_reactions message reactions now d).1
  | Remove room_id message removed_at => (transaction (remove_public room_id message removed_at now) d).1
  | MarkRead conversation account message => (mark_read conversation account message now d).1
  | Pin room_id message pinned => (set_pin room_id message pinned now d).1
  | Retain room_id days => (set_retention room_id days now d).1
  | Attach owner ids message room_id => (bind_ephemeral owner ids message room_id now d).1
  | Clean => (cleanup_turn now d).1
  | DropRoom room_id => drop_history room_id d
  | SaveRoom room_id days => d <| db_periods ::= <[room_id := days]> |>
  | SaveOthers people contacts sessions files =>
      d <| db_people := people |> <| db_contacts := contacts |> <| db_sessions := sessions |> <| db_files := files |>
  end.

(** New messages have random identifiers, accounts have identifiers and stay. *)
Definition valid_command (now : timestamp) (cmd : history_command) (d : history_db) : Prop :=
  match cmd with
  | Persist _ _ _ days message _ => sendable message days d
  | Send _ _ _ _ id => fresh id d /\ (now < YEAR_10000)%N
  | SaveOthers people _ _ _ => (forall a, is_Some (people !! a) -> is_uuid a) /\ dom (db_people d) ⊆ dom people
  | _ => True
  end.

Inductive steps : timestamp -> history_db -> timestamp -> history_db -> Prop :=
| steps_none now now' d : (now <= now')%N -> steps now d now' d
| steps_one now d now1 d1 now2 cmd : steps now d now1 d1 -> (now1 <= now2)%N -> valid_command now2 cmd d1 ->
    steps now d now2 (perform now2 cmd d1).

(** Tables without history. *)
Definition new_history (d : history_db) : Prop :=
  db_messages d = ∅ /\ db_inbox d = ∅ /\ db_pins d = ∅ /\ forall a, is_Some (db_people d !! a) -> is_uuid a.
Definition reachable (now : timestamp) (d : history_db) : Prop := exists d0, new_history d0 /\ steps 0 d0 now d.

Lemma new_history_ok now d : new_history d -> history_ok now d.
Proof.
  intros (Hm & Hi & Hp & Hpe). split; rewrite ?Hm, ?Hi; [apply map_Forall_empty|done|done| |apply map_Forall_empty|done| |].
  - intros a. unfold recent_private, select. rewrite Hm, map_filter_empty, map_size_empty. lia.
  - intros id m reply o Hid. by rewrite Hm in Hid.
  - split; rewrite Hp; [apply map_Forall_empty|done].
Qed.

(** ** Every command keeps the invariant *)

Lemma map_error_fst {E F A} (f : E -> F) (m : handler E history_db A) d : (map_error f m d).1 = (m d).1.
Proof. unfold map_error. by destruct (m d) as [? [?|?]]. Qed.
Lemma map_error_Ok {E F A} (f : E -> F) (m : handler E history_db A) d d' x : map_error f m d = (d', Ok x) -> m d = (d', Ok x).
Proof. unfold map_error. destruct (m d) as [? [?|?]]; by intros [= -> ->]. Qed.

Lemma hlift_Ok {E S A} (r : result E A) (s s' : S) x : hlift r s = (s', Ok x) -> s' = s /\ r = Ok x.
Proof. by intros [= <- ->]. Qed.
Lemma unexpired_Ok c now d d' u : ensure_unexpired_claim c now d = (d', Ok u) -> d' = d.
Proof. unfold ensure_unexpired_claim. by intros (? & ? & [_ ->]%ensure_ok & [_ ->]%ensure_ok)%hbind_ok. Qed.
Lemma account_of_Ok c d d' own : account_of c d = (d', Ok own) -> d' = d /\ parse_uuid (sub c) = Some own.
Proof. unfold account_of. destruct (parse_uuid (sub c)); by intros [= <- <-]. Qed.

Lemma begin_Ok c own peer err now d d' people : begin_private_write c own peer err now d = (d', Ok people) ->
  d' = d /\ own <> peer /\ db_people d !! own = Some people.1 /\ db_people d !! peer = Some people.2.
Proof.
  unfold begin_private_write. intros (d1 & p & [-> Hp]%map_error_Ok%lock_accounts_Ok & Hx)%hbind_ok.
  apply hbind_ok in Hx as (? & ? & [_ ->]%ensure_ok & Hx). apply hbind_ok in Hx as (d2 & [] & Hval & [= <- <-]).
  split; [|done]. unfold validate_private_session in Hval. apply hbind_ok in Hval as (? & ? & ->%unexpired_Ok & Hval).
  apply hbind_ok in Hval as (? & ? & [= <- <-] & Hval). apply hbind_ok in Hval as (? & ? & [_ ->]%ensure_ok & Hval). by apply unexpired_Ok in Hval.
Qed.

(** A transaction that carries when it succeeds carries. *)
Lemma transaction_carries {E A} lic (m : handler E history_db A) now d :
  history_ok now d -> (forall d' x, m d = (d', Ok x) -> carries lic now d d') -> carries lic now d (transaction m d).1.
Proof.
  intros Hok Hm. unfold transaction. destruct (m d) as [d' [x|e]]; [by eapply Hm|by apply carries_refl].
Qed.
Lemma hbind_result {E A B} lic (m : handler E history_db A) (k : A -> handler E history_db B) now d :
  history_ok now d -> (m d).1 = d -> (forall x, m d = (d, Ok x) -> carries lic now d (k x d).1) -> carries lic now d (hbind m k d).1.
Proof.
  intros Hok Hm Hk. unfold hbind. destruct (m d) as [d1 [x|e]]; cbn in *; subst d1; [by apply Hk|by apply carries_refl].
Qed.
Lemma hbind_same {E A B} lic (m : handler E history_db A) (k : A -> handler E history_db B) now d :
  history_ok now d -> (m d).1 = d -> (forall x, carries lic now d (k x d).1) -> carries lic now d (hbind m k d).1.
Proof. intros. apply hbind_result; auto. Qed.
Lemma ensure_fst {E S} b (e : E) (s : S) : (ensure b e s).1 = s.
Proof. by destruct b. Qed.
Lemma unexpired_fst c now d : (ensure_unexpired_claim c now d).1 = d.
Proof. unfold ensure_unexpired_claim, hbind, ensure, hret, bail. by destruct (exp c <? 2 ^ 63)%N, (now / 1000000 <? exp c)%N. Qed.
Lemma account_of_fst c d : (account_of c d).1 = d.
Proof. unfold account_of. by destruct (parse_uuid _). Qed.

Lemma edit_saved_carries lic room_id actor guest original request now d : history_ok now d ->
  (forall m m', edits actor guest request now m m' -> rewrites lic (ChatEntry.message_id original) m m') ->
  carries lic now d (edit_saved room_id actor guest original request now d).1.
Proof.
  intros Hok Hlic. apply transaction_carries; [done|]. intros d' x (d1 & conv & Hc & Hx)%hbind_ok. assert (d1 = d) as ->; [|by eapply edit_carries].
  destruct (ChatEntry.recipient_id original) as [peer|].
  - apply hbind_ok in Hc as (d2 & people & [-> _]%lock_accounts_Ok & Hc). apply hbind_ok in Hc as (? & ? & [_ ->]%ensure_ok & [= -> _]). done.
  - destruct room_id; [|done]. by injection Hc.
Qed.

Lemma private_edit_carries lic c peer message request now d : history_ok now d ->
  (forall own m m', parse_uuid (sub c) = Some own -> edits own None request now m m' -> rewrites lic message m m') ->
  carries lic now d (save_private_edit c peer message request now d).1.
Proof.
  intros Hok Hlic. apply hbind_same; [done|apply unexpired_fst|]. intros [].
  apply hbind_result; [done|apply account_of_fst|]. intros own [_ Hown]%account_of_Ok.
  apply transaction_carries; [done|]. intros d' x (d1 & people & [-> _]%begin_Ok & Hx)%hbind_ok. apply hbind_ok in Hx as (? & ? & [_ ->]%ensure_ok & Hx).
  apply hbind_ok in Hx as (d2 & edited & Hedit%map_error_Ok & Hx). apply hbind_ok in Hx as (? & ? & ->%unexpired_Ok & [= <- _]).
  eapply edit_carries; [done| |exact Hedit]. eauto.
Qed.

Lemma private_react_carries lic c peer message e present now d : history_ok now d ->
  carries lic now d (save_private_reaction c peer message e present now d).1.
Proof.
  intros Hok. apply hbind_same; [done|apply unexpired_fst|]. intros []. apply hbind_same; [done|apply account_of_fst|]. intros own.
  apply hbind_same; [done|apply ensure_fst|]. intros [].
  apply transaction_carries; [done|]. intros d' x (d1 & people & [-> _]%begin_Ok & Hx)%hbind_ok. apply hbind_ok in Hx as (? & ? & [_ ->]%ensure_ok & Hx).
  apply hbind_ok in Hx as (d2 & saved & Hsaved%map_error_Ok & Hx). apply hbind_ok in Hx as (? & ? & ->%unexpired_Ok & [= <- _]).
  by eapply private_reaction_carries.
Qed.

Lemma find_original_Ok conv id now d d' reply : find_original conv id now d = (d', Ok reply) ->
  d' = d /\ reply_message_id reply = id /\ is_Some (db_messages d !! id).
Proof.
  unfold find_original. intros (? & ? & [= <- <-] & Hx)%hbind_ok. destruct (db_messages d !! id) eqn:Hm; [|done].
  apply hbind_ok in Hx as (? & ? & [_ ->]%ensure_ok & [= <- <-]). by split_and!.
Qed.
Lemma creation_context_fst own peer request context now d : (creation_context own peer request context now d).1 = d.
Proof.
  unfold creation_context, hbind, hget, hret, ensure, bail, hlift. destruct (send_room request); [|done]. destruct (private_relationship _ _ _ _); [done|].
  destruct (is_ok _); [|done]. by destruct (private_creation_context _ _ _).
Qed.

Lemma send_carries lic c peer request context id now d : history_ok now d -> fresh id d -> (now < YEAR_10000)%N ->
  carries lic now d (save_private_message c peer request context id now d).1.
Proof.
  intros Hok Hfresh Hnow. apply hbind_same; [done|apply unexpired_fst|]. intros []. apply hbind_same; [done|apply account_of_fst|]. intros own.
  apply hbind_same; [done|apply ensure_fst|]. intros []. apply hbind_same; [done|apply creation_context_fst|]. intros in_context.
  apply transaction_carries; [done|]. intros d' x (d1 & people & [-> _]%begin_Ok & Hx)%hbind_ok. apply hbind_ok in Hx as (? & ? & [= <- <-] & Hx).
  apply hbind_ok in Hx as (? & ? & [_ ->]%ensure_ok & Hx). destruct (select_one _ _) as [[id' existing]|].
  { apply hbind_ok in Hx as (? & ? & [_ ->]%ensure_ok & [= <- _]). by apply carries_refl. }
  apply hbind_ok in Hx as (? & ? & [_ ->]%ensure_ok & Hx). apply hbind_ok in Hx as (d2 & reply & Hreply & Hx).
  apply hbind_ok in Hx as (d3 & saved & Hins%map_error_Ok & Hx). apply hbind_ok in Hx as (? & ? & ->%unexpired_Ok & [= <- _]).
  assert (d2 = d /\ (reply_message_id <$> reply) <> Some id) as [-> Hself].
  { destruct (send_reply_to request) as [original|]; [|by injection Hreply as <- <-].
    apply hbind_ok in Hreply as (d4 & r & (-> & Hid & [m Hm])%find_original_Ok & [= <- <-]). split; [done|]. cbn. intros [= Hc].
    destruct Hfresh as (_ & Hn & _). congruence. }
  eapply insert_message_carries; [done| |exact Hins]. by split.
Qed.

Lemma drop_history_carries room_id now d : history_ok now d -> carries (Licence (fun m => msg_room m = Some room_id) (fun _ _ _ => False)) now d (drop_history room_id d).
Proof.
  intros Hok. set (kept_rows := delete_messages (fun _ => in_room room_id) d).
  assert (db_messages (drop_history room_id d) = db_messages kept_rows) as Hm by done.
  assert (db_pins (drop_history room_id d) = db_pins kept_rows) as Hp by done.
  apply carries_taken; rewrite ?Hm, ?Hp; try done.
  - intros id m' [Hid _]%lookup_deleted. by exists m'.
  - intros id m Hid Hn. right. destruct (in_room room_id m) eqn:Hr; [apply bool_decide_eq_true in Hr; by eauto|].
    unfold kept_rows in Hn. by rewrite (proj2 (lookup_deleted _ d id m)) in Hn.
  - intros k row Hk Hn. change (db_inbox d !! k = None) in Hn. congruence.
  - intros room' id m [_ Hout]%lookup_deleted Hroom [x Hx]. cbn. rewrite lookup_delete_ne; [eauto|]. intros ->. unfold in_room in Hout.
    by rewrite bool_decide_true in Hout.
  - intros k p. apply deleted_pins.
Qed.

Lemma save_others_carries lic people contacts sessions files now d : history_ok now d ->
  (forall a, is_Some (people !! a) -> is_uuid a) -> dom (db_people d) ⊆ dom people ->
  carries lic now d (d <| db_people := people |> <| db_contacts := contacts |> <| db_sessions := sessions |> <| db_files := files |>).
Proof.
  intros Hok Huuid Hdom. apply shrinks_carries; [done| | | |cbn; intros; simplify_eq; by left].
  - split; cbn; eauto; try congruence; [intros id m Hm; by exists m|]. intros a Ha. by apply elem_of_dom, Hdom, elem_of_dom.
  - apply (quotes_unchanged now d); [|apply (ok_quotes _ _ Hok)]. intros id m Hm. exists m. by split_and!.
  - destruct (ok_pins _ _ Hok) as [Hrows Hslots]. split; [|exact Hslots]. intros k p Hp. destruct (Hrows k p Hp). by split.
Qed.

Lemma save_room_carries lic room_id days now d : history_ok now d -> carries lic now d (d <| db_periods ::= <[room_id := days]> |>).
Proof.
  intros Hok. apply carries_taken; try done; cbn.
  - intros id m Hm. by exists m.
  - congruence.
  - congruence.
  - intros room' id m _ _ [x Hx]. destruct (decide (room_id = room')) as [->|]; [rewrite lookup_insert_eq|rewrite lookup_insert_ne by done]; eauto.
  - intros k p Hp. destruct (pinned_rows _ (ok_pins _ _ Hok) _ _ Hp) as [_ (m & Hm & _)]. eauto.
Qed.

Lemma attach_carries lic owner ids message room_id now d : history_ok now d -> carries lic now d (bind_ephemeral owner ids message room_id now d).1.
Proof.
  intros Hok. apply transaction_carries; [done|]. intros d' x (d1 & files & [-> _]%pending_metadata_Ok & Hx)%hbind_ok.
  apply hbind_ok in Hx as (? & ? & [= <- _] & [= <- _]). by apply carries_same_rows.
Qed.

(** The messages a command takes away before they are over, and those whose
    words it changes. *)
Definition licence_of (now : timestamp) (cmd : history_command) : licence :=
  match cmd with
  | Retain room_id days => Licence (outlived room_id days now) (fun _ _ _ => False)
  | DropRoom room_id => Licence (fun m => msg_room m = Some room_id) (fun _ _ _ => False)
  | Edit _ actor guest original request =>
      Licence (fun _ => False) (fun id m m' => id = ChatEntry.message_id original /\ edits actor guest request now m m')
  | EditPrivate c _ message request =>
      Licence (fun _ => False) (fun id m m' => id = message /\ exists own, parse_uuid (sub c) = Some own /\ edits own None request now m m')
  | Remove room_id message removed_at =>
      Licence (fun _ => False) (fun id m m' => id = message /\ removes room_id removed_at now m m')
  | _ => untouched
  end.

Lemma perform_carries now cmd d : history_ok now d -> valid_command now cmd d -> carries (licence_of now cmd) now d (perform now cmd d).
Proof.
  intros Hok Hv. destruct cmd; cbn [perform valid_command licence_of] in *.
  - destruct (persist_message _ _ _ _ _ _ _ _) as [d' r] eqn:Hx. by eapply persist_message_carries.
  - destruct Hv. by apply send_carries.
  - apply edit_saved_carries; [done|]. by intros.
  - apply private_edit_carries; [done|]. cbn. eauto.
  - destruct (react_public _ _ _ _ _ _ _) as [d' r] eqn:Hx. by eapply react_public_carries.
  - by apply private_react_carries.
  - destruct (save_reactions _ _ _ _) as [d' r] eqn:Hx. by eapply save_reactions_carries.
  - apply transaction_carries; [done|]. intros d' x. apply remove_public_carries; [done|]. by intros.
  - destruct (mark_read _ _ _ _ _) as [d' r] eqn:Hx. by eapply mark_read_carries.
  - destruct (set_pin _ _ _ _ _) as [d' r] eqn:Hx. by eapply set_pin_carries.
  - destruct (set_retention _ _ _ _) as [d' r] eqn:Hx. by eapply set_retention_carries.
  - by apply attach_carries.
  - destruct (cleanup_turn _ _) as [d' r] eqn:Hx. by eapply cleanup_turn_carries.
  - by apply drop_history_carries.
  - by apply save_room_carries.
  - destruct Hv. by apply save_others_carries.
Qed.

Lemma steps_ok now d now' d' : steps now d now' d' -> history_ok now d -> history_ok now' d'.
Proof.
  induction 1 as [now now' d Hle|now d now1 d1 now2 cmd Hs IH Hle Hv]; intros Hok; [by eapply history_ok_later|].
  apply (carried_ok _ _ _ _ (perform_carries _ _ _ (history_ok_later _ _ _ Hle (IH Hok)) Hv)).
Qed.
Lemma history_reachable_ok now d : reachable now d -> history_ok now d.
Proof. intros (d0 & Hnew & Hs). eapply steps_ok; [done|]. by apply new_history_ok. Qed.
Lemma steps_times now d now' d' : steps now d now' d' -> (now <= now')%N.
Proof. induction 1; lia. Qed.
End history.
