(* ===== verification/HistoryPages.v ===== *)
(** * Pages of history and of the inbox

    Following the cursors of pages reads a conversation whole, from wherever one
    starts, and the inbox shows every conversation with its newest message. *)

From S2P Require Import Prelude Paging Labels Settings Refusal Protocol Social Room Wire Process World Chat ChatRequests SocialRequests Tickets SavedHistory HistoryInv HistoryOps HistorySteps.

Section pages.
Context `{Unicode, HistoryText}.

Abbreviation in_order := (StronglySorted (fun x y : N * message_row => earlier (row_key x) (row_key y))).

(** ** The rows of a conversation *)

Lemma elem_of_rows conv now d id m :
  (id, m) ∈ rows_of conv now d <-> db_messages d !! id = Some m /\ msg_conversation m = conv /\ live now m = true.
Proof.
  unfold rows_of. rewrite elem_of_map_to_list, lookup_select, andb_true_iff. unfold in_conversation. by rewrite bool_decide_eq_true.
Qed.
Lemma row_keys_distinct conv now d : NoDup (row_key <$> rows_of conv now d).
Proof.
  apply (NoDup_fmap_1 snd). rewrite <-list_fmap_compose. unfold rows_of.
  apply (NoDup_fst_map_to_list (select (fun _ m => in_conversation conv m && live now m) (db_messages d))).
Qed.

Definition ordered_rows_of (conv : string) (now : timestamp) (d : history_db) : list (N * message_row) :=
  sort_rows row_key earlier (rows_of conv now d).
Lemma ordered_rows_sorted conv now d : in_order (ordered_rows_of conv now d).
Proof. apply (sort_rows_ordered row_key earlier), row_keys_distinct. Qed.
Lemma newest_first_rows conv now d : sort_rows row_key (flip earlier) (rows_of conv now d) = reverse (ordered_rows_of conv now d).
Proof. apply (sort_rows_flip row_key earlier), row_keys_distinct. Qed.
Lemma elem_of_ordered_rows conv now d x : x ∈ ordered_rows_of conv now d <-> x ∈ rows_of conv now d.
Proof. unfold ordered_rows_of. by rewrite sort_rows_permutation. Qed.

(** ** A page is a segment of the conversation *)

(** [shown] stands in the conversation between what is older and what is newer. *)
Definition segment (conv : string) (now : timestamp) (d : history_db) (older shown newer : list (N * message_row)) : Prop :=
  ordered_rows_of conv now d = older ++ shown ++ newer.

Lemma segment_sorted conv now d older shown newer : segment conv now d older shown newer -> in_order shown.
Proof.
  intros Hs. pose proof (ordered_rows_sorted conv now d) as Ho. rewrite Hs in Ho. apply ordered_app in Ho as [_ Ho]. by apply ordered_app in Ho as [? _].
Qed.

(** The rows before a key, and those from it on. *)
Lemma split_at conv now d (c : timestamp * N) :
  ordered_rows_of conv now d = filter (fun x => earlier (row_key x) c) (ordered_rows_of conv now d)
                               ++ filter (fun x => ~ earlier (row_key x) c) (ordered_rows_of conv now d).
Proof. apply (ordered_split row_key earlier); [apply ordered_rows_sorted|]. intros x y Hxy Hy. by etrans. Qed.
Lemma split_after conv now d (c : timestamp * N) :
  ordered_rows_of conv now d = filter (fun x => ~ earlier c (row_key x)) (ordered_rows_of conv now d)
                               ++ filter (fun x => earlier c (row_key x)) (ordered_rows_of conv now d).
Proof.
  rewrite (ordered_split row_key earlier (fun x => ~ earlier c (row_key x)) (ordered_rows_of conv now d)) at 1; [|apply ordered_rows_sorted|].
  - f_equal. apply list_filter_iff. intros x. split; [apply dec_stable|]. by intros ? ?.
  - intros x y Hxy Hy Hc. apply Hy. by etrans.
Qed.

(** The newest rows before a place. *)
Lemma newest_segment conv now d older newer n : ordered_rows_of conv now d = older ++ newer ->
  segment conv now d (take (length older - n) older) (sort_rows row_key earlier (take n (reverse older))) newer.
Proof.
  intros Heq. pose proof (ordered_rows_sorted conv now d) as Ho. rewrite Heq in Ho. apply ordered_app in Ho as [Ho _].
  rewrite (sort_rows_unique row_key earlier (drop (length older - n) older)).
  - unfold segment. by rewrite app_assoc, take_drop.
  - rewrite <-(take_drop (length older - n) older) in Ho. by apply ordered_app in Ho as [_ ?].
  - by rewrite take_reverse, reverse_Permutation.
Qed.

Lemma seek_newest conv now d c : seek row_key (flip earlier) c (reverse (ordered_rows_of conv now d))
  = reverse (match c with Some k => filter (fun x => earlier (row_key x) k) (ordered_rows_of conv now d) | None => ordered_rows_of conv now d end).
Proof. destruct c as [k|]; [|done]. cbn. by rewrite <-filter_reverse. Qed.

(** The oldest rows after a place. *)
Lemma oldest_segment conv now d older newer n : ordered_rows_of conv now d = older ++ newer ->
  segment conv now d older (sort_rows row_key earlier (take n newer)) (drop n newer).
Proof.
  intros Heq. pose proof (ordered_rows_sorted conv now d) as Ho. rewrite Heq in Ho. apply ordered_app in Ho as [_ Ho].
  rewrite (sort_rows_unique row_key earlier (take n newer)); [|rewrite <-(take_drop n newer) in Ho; by apply ordered_app in Ho as [? _]|done].
  unfold segment. by rewrite take_drop.
Qed.

(** Rows on both sides of a place. *)
Lemma around_segment conv now d older newer n k : ordered_rows_of conv now d = older ++ newer ->
  segment conv now d (take (length older - n) older) (sort_rows row_key earlier (take n (reverse older) ++ take k newer)) (drop k newer).
Proof.
  intros Heq. pose proof (ordered_rows_sorted conv now d) as Ho. rewrite Heq in Ho.
  rewrite (sort_rows_unique row_key earlier (drop (length older - n) older ++ take k newer)).
  - unfold segment. rewrite Heq. rewrite <-(take_drop (length older - n) older) at 1. rewrite <-(take_drop k newer) at 1. by rewrite !app_assoc.
  - rewrite <-(take_drop (length older - n) older), <-(take_drop k newer), <-!app_assoc in Ho. apply ordered_app in Ho as [_ Ho].
    rewrite app_assoc in Ho. by apply ordered_app in Ho as [? _].
  - by rewrite take_reverse, reverse_Permutation.
Qed.

(** ** Following the cursors *)

(** A page of messages with the rows it shows and those around it. *)
Record shows (conv : string) (now : timestamp) (d : history_db) (p : history_page) (older shown newer : list (N * message_row)) : Prop := {
  shown_segment : segment conv now d older shown newer;
  shown_messages : history_messages p = (fun x : N * message_row => conversation_message (msg_body x.2) (is_private conv)) <$> shown;
  shown_older : shown <> [] -> next_cursor p = match older, head shown with _ :: _, Some first => Some (cursor_at first) | _, _ => None end;
  shown_newer : shown <> [] -> newer_cursor p = match newer, last shown with _ :: _, Some final => Some (cursor_at final) | _, _ => None end;
  shown_nothing : shown = [] -> next_cursor p = None /\ newer_cursor p = None
}.

Lemma existsb_rows conv now d P : existsb P (rows_of conv now d) = existsb P (ordered_rows_of conv now d).
Proof.
  apply eq_bool_prop_intro. rewrite !Is_true_true, !existsb_exists. by setoid_rewrite <-list_elem_of_In; setoid_rewrite elem_of_ordered_rows.
Qed.

Lemma older_exists conv now d older first shown newer : segment conv now d older (first :: shown) newer ->
  existsb (fun x => bool_decide (earlier (row_key x) (row_key first))) (rows_of conv now d) = negb (bool_decide (older = [])).
Proof.
  intros Hs. rewrite existsb_rows, Hs. pose proof (ordered_rows_sorted conv now d) as Ho. rewrite Hs in Ho. destruct older as [|x older].
  - rewrite (bool_decide_true ([] = [])) by done. apply not_true_iff_false. rewrite existsb_exists. intros (y & Hy%list_elem_of_In & Hlt%bool_decide_eq_true).
    cbn in Ho, Hy. apply StronglySorted_inv in Ho as [_ Hall]. rewrite Forall_forall in Hall. apply elem_of_cons in Hy as [->|Hy].
    + by apply (irreflexivity earlier (row_key first)).
    + apply (irreflexivity earlier (row_key first)). etrans; [by apply Hall|done].
  - rewrite bool_decide_false by done. cbn. apply orb_true_iff. left. apply bool_decide_eq_true. cbn in Ho.
    apply StronglySorted_inv in Ho as [_ Hall]. rewrite Forall_forall in Hall. apply Hall. set_solver.
Qed.
Lemma newer_exists conv now d older shown final newer : segment conv now d older (shown ++ [final]) newer ->
  existsb (fun x => bool_decide (earlier (row_key final) (row_key x))) (rows_of conv now d) = negb (bool_decide (newer = [])).
Proof.
  intros Hs. rewrite existsb_rows, Hs. pose proof (ordered_rows_sorted conv now d) as Ho. rewrite Hs, <-app_assoc, (app_assoc older) in Ho.
  assert (forall y, y ∈ older ++ shown -> earlier (row_key y) (row_key final)) as Hbefore by (intros y Hy; eapply (sorted_app _ _ _ _ Ho); set_solver).
  assert (forall y, y ∈ newer -> earlier (row_key final) (row_key y)) as Hafter.
  { intros y Hy. rewrite (app_assoc (older ++ shown)) in Ho. eapply (sorted_app _ _ _ _ Ho); set_solver. }
  destruct newer as [|x newer].
  - rewrite (bool_decide_true ([] = [])) by done. apply not_true_iff_false. rewrite existsb_exists. intros (y & Hy%list_elem_of_In & Hlt%bool_decide_eq_true).
    assert (y ∈ older ++ shown \/ y = final) as [Hy'| ->] by set_solver.
    + apply (irreflexivity earlier (row_key y)). etrans; [by apply Hbefore|done].
    + by apply (irreflexivity earlier (row_key final)).
  - rewrite bool_decide_false by done. cbn. rewrite existsb_exists. exists x. split; [apply list_elem_of_In; set_solver|]. apply bool_decide_eq_true, Hafter. set_solver.
Qed.

Definition page_size (query : history_query) : nat := from_option N.to_nat PAGE_LIMIT (query_limit query).

(** The page of rows that are a segment. *)
Lemma page_of_segment conv account days query now d rows older newer (shown := sort_rows row_key earlier (take (page_size query) rows)) :
  query_q query = None -> validate_query query = Ok tt ->
  page_rows conv query (first_unread account conv now d) (page_size query) now d = Ok rows -> segment conv now d older shown newer ->
  exists p, page conv account days query now d = Ok p /\ shows conv now d p older shown newer.
Proof.
  intros Hq Hval Hrows Hseg. unfold page. fold (page_size query). rewrite Hval, Hrows, Hq. fold shown. cbn [page_cursors].
  rewrite bool_decide_false by (by intros [? ?]). unfold page_cursors. destruct shown as [|first rest] eqn:Hshown.
  { eexists. split; [done|]. by split. }
  destruct (last (first :: rest)) as [final|] eqn:Hlast; [|by apply last_None in Hlast]. cbn [head]. pose proof Hseg as Hseg'.
  apply last_Some in Hlast as [front Hfront]. rewrite Hfront in Hseg'.
  rewrite (older_exists _ _ _ _ _ _ _ Hseg), (newer_exists _ _ _ _ _ _ _ Hseg'). eexists. split; [done|]. split; cbn; try done.
  - intros _. by destruct older.
  - intros _. assert (last (first :: rest) = Some final) as Hl by (rewrite Hfront; apply last_snoc). cbn in Hl. rewrite Hl. by destruct newer.
Qed.

Lemma validated_limit query : validate_query query = Ok tt -> is_some_and (query_limit query) (fun limit => negb (in_range 1 50 limit)) = false.
Proof. unfold validate_query. intros Hv. by repeat case_match. Qed.
Lemma validated_size query : validate_query query = Ok tt -> (0 < page_size query)%nat.
Proof.
  intros Hv%validated_limit. unfold page_size. destruct (query_limit query) as [limit|]; [|cbn; unfold PAGE_LIMIT; lia].
  cbn in *. unfold in_range in *. bool_hyps. lia.
Qed.

(** The query of the next older, and of the next newer page. *)
Definition older_query (limit : option N) (c : string) : history_query := HistoryQuery (Some c) None None None None limit.
Definition newer_query (limit : option N) (c : string) : history_query := HistoryQuery None (Some c) None None None limit.

Lemma next_query_valid query c : validate_query query = Ok tt -> cursor_ok (Some c) = true ->
  validate_query (older_query (query_limit query) c) = Ok tt /\ validate_query (newer_query (query_limit query) c) = Ok tt.
Proof.
  intros Hl%validated_limit Hc.
  unfold validate_query, older_query, newer_query, resumes. cbn [query_before query_after query_around query_resume query_q query_limit].
  rewrite Hc, Hl, (bool_decide_false (None = Some true)) by done. by split.
Qed.

(** The cursor of a saved row is read back. *)
Lemma row_cursor now d conv x : history_ok now d -> x ∈ ordered_rows_of conv now d ->
  read_cursor (cursor_at x) = Some (row_key x) /\ cursor_ok (Some (cursor_at x)) = true.
Proof.
  intros Hok Hx. destruct x as [id m]. apply elem_of_ordered_rows, elem_of_rows in Hx as (Hm & _). destruct (ok_rows _ _ Hok _ _ Hm) as [Hid _ Hsent _].
  destruct (cursor_reads_back (msg_sent m) id Hsent Hid) as [Hr Hlen]. split; [done|]. unfold cursor_ok, cursor_at. cbn. rewrite Hr.
  apply andb_true_iff. split; [by apply Nat.leb_le|]. by apply bool_decide_eq_true.
Qed.

(** The page before some rows shows the newest of what is older. *)
Lemma older_page conv account days query now d older first rest : history_ok now d -> validate_query query = Ok tt ->
  ordered_rows_of conv now d = older ++ first :: rest ->
  exists p shown, page conv account days (older_query (query_limit query) (cursor_at first)) now d = Ok p
    /\ shows conv now d p (take (length older - page_size query) older) shown (first :: rest)
    /\ older = take (length older - page_size query) older ++ shown.
Proof.
  intros Hok Hv Heq. assert (first ∈ ordered_rows_of conv now d) as Hin by (rewrite Heq; set_solver).
  destruct (row_cursor _ _ _ _ Hok Hin) as [Hread Hcok]. destruct (next_query_valid _ _ Hv Hcok) as [Hv' _].
  set (q := older_query (query_limit query) (cursor_at first)) in *. change (page_size query) with (page_size q).
  assert (filter (fun x => earlier (row_key x) (row_key first)) (ordered_rows_of conv now d) = older) as Hfilter.
  { pose proof (ordered_rows_sorted conv now d) as Ho. rewrite Heq in Ho |- *. rewrite filter_app, (filter_all _ older), (filter_none _ (first :: rest)), app_nil_r; [done|..].
    - apply Forall_forall. intros y Hy Hlt. apply ordered_app in Ho as [_ Ho]. apply StronglySorted_inv in Ho as [_ Hall]. rewrite Forall_forall in Hall.
      apply elem_of_cons in Hy as [->|Hy]; apply (irreflexivity earlier (row_key first)); [done|]. etrans; [by apply Hall|done].
    - apply Forall_forall. intros y Hy. eapply (sorted_app _ _ _ _ Ho); set_solver. }
  assert (page_rows conv q (first_unread account conv now d) (page_size q) now d = Ok (take (page_size q + 1) (reverse older))) as Hrows.
  { unfold page_rows. cbn [q older_query anchor_of query_around query_resume resumes query_q query_after]. unfold resumes. cbn.
    rewrite !bool_decide_false by (done || by intros [? ?]). unfold query_cursor. cbn. by rewrite Hread, newest_first_rows, seek_newest, Hfilter. }
  pose proof (newest_segment conv now d older (first :: rest) (page_size q) Heq) as Hseg.
  pose proof (page_of_segment conv account days q now d _ (take (length older - page_size q) older) (first :: rest) eq_refl Hv' Hrows) as Hpage.
  rewrite take_take, Nat.min_l in Hpage by lia. destruct (Hpage Hseg) as (p & Hp & Hs). exists p. eexists. split_and!; [done|exact Hs|].
  unfold segment in Hseg. rewrite Heq, app_assoc in Hseg. by apply app_inv_tail in Hseg.
Qed.

(** The page after some rows shows the oldest of what is newer. *)
Lemma newer_page conv account days query now d front final newer : history_ok now d -> validate_query query = Ok tt ->
  ordered_rows_of conv now d = (front ++ [final]) ++ newer ->
  exists p shown, page conv account days (newer_query (query_limit query) (cursor_at final)) now d = Ok p
    /\ shows conv now d p (front ++ [final]) shown (drop (page_size query) newer)
    /\ newer = shown ++ drop (page_size query) newer.
Proof.
  intros Hok Hv Heq. assert (final ∈ ordered_rows_of conv now d) as Hin by (rewrite Heq; set_solver).
  destruct (row_cursor _ _ _ _ Hok Hin) as [Hread Hcok]. destruct (next_query_valid _ _ Hv Hcok) as [_ Hv'].
  set (q := newer_query (query_limit query) (cursor_at final)) in *. change (page_size query) with (page_size q).
  assert (filter (fun x => earlier (row_key final) (row_key x)) (ordered_rows_of conv now d) = newer) as Hfilter.
  { pose proof (ordered_rows_sorted conv now d) as Ho. rewrite Heq in Ho |- *. rewrite filter_app, (filter_none _ (front ++ [final])), (filter_all _ newer); [done|..].
    - apply Forall_forall. intros y Hy. eapply (sorted_app _ _ _ _ Ho); set_solver.
    - apply Forall_forall. intros y Hy Hlt. rewrite <-app_assoc in Ho. assert (y ∈ front \/ y = final) as [Hf| ->] by set_solver;
        apply (irreflexivity earlier (row_key final)); [|done]. etrans; [exact Hlt|]. eapply (sorted_app _ _ _ _ Ho); set_solver. }
  assert (page_rows conv q (first_unread account conv now d) (page_size q) now d = Ok (take (page_size q + 1) newer)) as Hrows.
  { unfold page_rows. cbn [q newer_query anchor_of query_around query_resume resumes query_q query_after]. unfold resumes. cbn.
    rewrite (bool_decide_false (None = Some true)) by done. unfold query_cursor. cbn. by rewrite Hread, <-Hfilter. }
  pose proof (oldest_segment conv now d (front ++ [final]) newer (page_size q) Heq) as Hseg.
  pose proof (page_of_segment conv account days q now d _ (front ++ [final]) (drop (page_size q) newer) eq_refl Hv' Hrows) as Hpage.
  rewrite take_take, Nat.min_l in Hpage by lia. destruct (Hpage Hseg) as (p & Hp & Hs). exists p. eexists. split_and!; [done|exact Hs|].
  unfold segment in Hseg. rewrite Heq in Hseg. by apply app_inv_head in Hseg.
Qed.

(** A client that reads on from a page, in one direction. *)
Section reading.
Context (conv : string) (account : option N) (days : Z) (limit : option N) (now : timestamp) (d : history_db).

Fixpoint read_older (fuel : nat) (cursor : option string) : list chat_entry :=
  match fuel, cursor with
  | S fuel, Some c =>
      match page conv account days (older_query limit c) now d with
      | Ok p => read_older fuel (next_cursor p) ++ history_messages p
      | Err _ => []
      end
  | _, _ => []
  end.
Fixpoint read_newer (fuel : nat) (cursor : option string) : list chat_entry :=
  match fuel, cursor with
  | S fuel, Some c =>
      match page conv account days (newer_query limit c) now d with
      | Ok p => history_messages p ++ read_newer fuel (newer_cursor p)
      | Err _ => []
      end
  | _, _ => []
  end.
End reading.

(** A saved row as a reader gets it. *)
Definition as_shown (conv : string) (x : N * message_row) : chat_entry := conversation_message (msg_body x.2) (is_private conv).

Section following.
Context (conv : string) (account : option N) (days : Z) (query : history_query) (now : timestamp) (d : history_db).
Hypothesis Hok : history_ok now d.
Hypothesis Hv : validate_query query = Ok tt.

Lemma read_older_all fuel older first rest : ordered_rows_of conv now d = older ++ first :: rest -> (length older <= fuel)%nat ->
  read_older conv account days (query_limit query) now d fuel (match older with [] => None | _ => Some (cursor_at first) end)
  = as_shown conv <$> older.
Proof.
  pose proof (validated_size _ Hv) as Hsize. revert older first rest. induction fuel as [|fuel IH]; intros older first rest Heq Hlen.
  { destruct older; [done|cbn in Hlen; lia]. }
  destruct (older_page conv account days query now d older first rest Hok Hv Heq) as (p & shown & Hp & [Hseg Hmsg Hnext _ _] & Hold).
  destruct older as [|x older']; [done|]. set (older := x :: older') in *. set (rest_older := take (length older - page_size query) older) in *.
  cbn [read_older]. rewrite Hp, Hmsg.
  assert (shown <> []) as Hne.
  { intros ->. rewrite app_nil_r in Hold. apply (f_equal length) in Hold. unfold rest_older in Hold. rewrite length_take in Hold. unfold older in Hold. cbn in Hold. lia. }
  rewrite Hnext by done. destruct shown as [|f shown]; [done|]. cbn [head].
  rewrite (IH rest_older f (shown ++ first :: rest)); [by rewrite Hold, fmap_app|by rewrite Heq, Hold, <-app_assoc|].
  unfold rest_older. rewrite length_take. unfold older in *. cbn [length] in *. lia.
Qed.

Lemma read_newer_all fuel front final newer : ordered_rows_of conv now d = (front ++ [final]) ++ newer -> (length newer <= fuel)%nat ->
  read_newer conv account days (query_limit query) now d fuel (match newer with [] => None | _ => Some (cursor_at final) end)
  = as_shown conv <$> newer.
Proof.
  pose proof (validated_size _ Hv) as Hsize. revert front final newer. induction fuel as [|fuel IH]; intros front final newer Heq Hlen.
  { destruct newer; [done|cbn in Hlen; lia]. }
  destruct (newer_page conv account days query now d front final newer Hok Hv Heq) as (p & shown & Hp & [Hseg Hmsg _ Hnext _] & Hnew).
  destruct newer as [|x newer']; [done|]. set (newer := x :: newer') in *. set (rest := drop (page_size query) newer) in *.
  cbn [read_newer]. rewrite Hp, Hmsg.
  assert (shown <> []) as Hne.
  { intros ->. cbn in Hnew. apply (f_equal length) in Hnew. unfold rest in Hnew. rewrite length_drop in Hnew. unfold newer in Hnew. cbn in Hnew. lia. }
  rewrite Hnext by done. destruct (last shown) as [l|] eqn:Hlast; [|by apply last_None in Hlast]. apply last_Some in Hlast as [shown' Hshown].
  rewrite (IH ((front ++ [final]) ++ shown') l rest).
  - by rewrite Hnew, fmap_app.
  - by rewrite Heq, Hnew, Hshown, !app_assoc.
  - unfold rest. rewrite length_drop. unfold newer in *. cbn [length] in *. lia.
Qed.

(** From any page, the older ones, the page and the newer ones are the whole conversation. *)
Lemma reading_on fuel p older shown newer : shows conv now d p older shown newer -> shown <> [] ->
  (length (rows_of conv now d) <= fuel)%nat ->
  read_older conv account days (query_limit query) now d fuel (next_cursor p) ++ history_messages p
    ++ read_newer conv account days (query_limit query) now d fuel (newer_cursor p)
  = as_shown conv <$> ordered_rows_of conv now d.
Proof.
  intros [Hseg Hmsg Hnext Hnewer _] Hne Hfuel. rewrite Hnext, Hnewer, Hmsg by done. unfold segment in Hseg.
  assert (length (older ++ shown ++ newer) <= fuel)%nat as Hlen.
  { rewrite <-Hseg. unfold ordered_rows_of. by rewrite sort_rows_permutation. }
  rewrite !length_app in Hlen. destruct (last shown) as [final|] eqn:Hlast; [|by apply last_None in Hlast].
  rewrite (read_newer_all fuel (older ++ removelast shown) final newer); [|apply last_Some in Hlast as [l ->]; by rewrite removelast_last, Hseg, <-!app_assoc|lia].
  destruct shown as [|first rest]; [done|]. cbn [head]. rewrite (read_older_all fuel older first (rest ++ newer)); [|done|lia].
  by rewrite Hseg, !fmap_app.
Qed.
End following.

(** ** Wherever one starts *)

(** A row is not on the side of its cursor that a query asks for. *)
Definition aside (query : history_query) (x : N * message_row) : Prop :=
  exists k, query_cursor query = Some k
    /\ if bool_decide (is_Some (query_after query)) then ~ earlier k (row_key x) else ~ earlier (row_key x) k.

Lemma filter_empty_none {A} (P : A -> Prop) `{!forall x, Decision (P x)} l : filter P l = [] -> Forall (fun x => ~ P x) l.
Proof.
  intros Hn. apply Forall_forall. intros x Hx HP. assert (x ∈ filter P l) as Hin by by apply list_elem_of_filter.
  rewrite Hn in Hin. by apply elem_of_nil in Hin.
Qed.
Lemma taken_none {A} n (l : list A) : (0 < n)%nat -> length (take n l) = 0%nat -> l = [].
Proof. rewrite length_take. intros Hn Hl. apply length_zero_iff_nil. lia. Qed.

Lemma sorted_none (l : list (N * message_row)) : sort_rows row_key earlier l = [] -> length l = 0%nat.
Proof. intros Hn%(f_equal length). by rewrite sort_rows_permutation in Hn. Qed.

(** The rows of a page, whichever way it was asked for. *)
Lemma page_rows_segment conv query unread limit now d rows : query_q query = None -> (0 < limit)%nat ->
  page_rows conv query unread limit now d = Ok rows ->
  exists older newer, segment conv now d older (sort_rows row_key earlier (take limit rows)) newer
    /\ (sort_rows row_key earlier (take limit rows) = [] -> Forall (aside query) (rows_of conv now d)).
Proof.
  intros Hq Hlimit. unfold page_rows. rewrite Hq, newest_first_rows. fold (ordered_rows_of conv now d).
  destruct (anchor_of query unread) as [anchor|].
  - destruct (db_messages d !! anchor) as [m|] eqn:Hm; [|done]. destruct (_ && _) eqn:Hin; [|done]. apply andb_true_iff in Hin as [Hc%bool_decide_eq_true Hl].
    set (at_ := (msg_sent m, anchor)). pose proof (split_at conv now d at_) as Hsplit. set (older := filter (fun x => earlier (row_key x) at_) (ordered_rows_of conv now d)) in *.
    set (newer := filter (fun x => ~ earlier (row_key x) at_) (ordered_rows_of conv now d)) in *. rewrite filter_reverse. fold older.
    pose proof (Nat.div_lt limit 2 Hlimit ltac:(lia)) as Hhalf. generalize dependent (limit / 2)%nat. intros half Hhalf [= <-]. rewrite (take_ge _ limit) by (rewrite length_app, !length_take; lia).
    eexists _, _. split; [by apply around_segment|]. intros Hnone. exfalso. apply (f_equal length) in Hnone. rewrite sort_rows_permutation, length_app, !length_take in Hnone.
    assert ((anchor, m) ∈ newer) as Ha.
    { apply list_elem_of_filter. split; [apply (irreflexivity earlier at_)|]. by apply elem_of_ordered_rows, elem_of_rows. }
    destruct newer; [by apply elem_of_nil in Ha|]. cbn in Hnone. lia.
  - assert (forall P, Forall P (ordered_rows_of conv now d) -> Forall P (rows_of conv now d)) as Hall.
    { intros P. unfold ordered_rows_of. by rewrite sort_rows_permutation. }
    unfold aside. destruct (bool_decide (is_Some (query_after query))) eqn:Hafter; intros [= <-]; rewrite take_take, Nat.min_l by lia.
    + fold (ordered_rows_of conv now d). destruct (query_cursor query) as [k|].
      * eexists _, _. split; [apply oldest_segment, split_after|]. intros Hnone%sorted_none%taken_none; [|done].
        apply Hall. eapply Forall_impl; [exact (filter_empty_none _ _ Hnone)|]. intros x Hx. by exists k.
      * exists [], (drop limit (ordered_rows_of conv now d)). split; [by apply oldest_segment|]. intros Hnone%sorted_none%taken_none; [|done].
        apply Hall. cbn in Hnone. by rewrite Hnone.
    + rewrite seek_newest. set (older := match query_cursor query with Some k => _ | None => _ end).
      assert (exists newer, ordered_rows_of conv now d = older ++ newer) as [newer Hsplit].
      { unfold older. destruct (query_cursor query) as [k|]; [eexists; apply split_at|exists []; by rewrite app_nil_r]. }
      eexists _, newer. split; [by apply newest_segment|]. intros Hnone%sorted_none%taken_none; [|done].
      apply (f_equal reverse) in Hnone. rewrite reverse_involutive in Hnone. unfold older in Hnone. apply Hall.
      destruct (query_cursor query) as [k|]; [|by rewrite Hnone]. eapply Forall_impl; [exact (filter_empty_none _ _ Hnone)|]. intros x Hx. by exists k.
Qed.

Lemma page_shows conv account days query now d p : query_q query = None -> page conv account days query now d = Ok p ->
  validate_query query = Ok tt /\ exists older shown newer, shows conv now d p older shown newer
    /\ (shown = [] -> Forall (aside query) (rows_of conv now d)).
Proof.
  intros Hq Hp. pose proof Hp as Hp'. unfold page in Hp'. destruct (validate_query query) as [[]|] eqn:Hv; [|done]. split; [done|]. fold (page_size query) in Hp'.
  destruct (page_rows _ _ _ _ _ _) as [rows|] eqn:Hrows; [|done]. clear Hp'.
  destruct (page_rows_segment _ _ _ _ _ _ _ Hq (validated_size _ Hv) Hrows) as (older & newer & Hseg & Hnone).
  destruct (page_of_segment conv account days query now d rows older newer Hq Hv Hrows Hseg) as (p' & Hp' & Hs). rewrite Hp in Hp'. injection Hp' as <-.
  eexists _, _, _. split; [exact Hs|done].
Qed.

(** ** The inbox *)

(** The newest live message of two accounts. *)
Record newest (own peer : N) (now : timestamp) (d : history_db) (id : N) (m : message_row) : Prop := {
  newest_row : db_messages d !! id = Some m;
  newest_pair : msg_conversation m = private_conversation own peer;
  newest_live : live now m = true;
  newest_last : forall id' m', db_messages d !! id' = Some m' -> msg_conversation m' = private_conversation own peer -> live now m' = true ->
    ~ earlier (row_key (id, m)) (row_key (id', m'))
}.

Lemma listed_message own peer now d id m : history_ok now d -> is_uuid own -> is_uuid peer -> db_messages d !! id = Some m ->
  msg_conversation m = private_conversation own peer -> live now m = true -> listed d own peer (row_key (id, m)).
Proof.
  intros Hok Ho Hp Hm Hc Hl. destruct (private_row _ _ _ _ _ _ Hok Hm Ho Hp Hc) as [_ [[Hs Hr]|[Hs Hr]]];
    by destruct (ok_listed _ _ Hok _ _ _ _ Hm Hs Hr Hl).
Qed.

(** A live message of a conversation lives as long as its time says. *)
Lemma private_expires own peer now d id m : history_ok now d -> is_uuid own -> is_uuid peer -> db_messages d !! id = Some m ->
  msg_conversation m = private_conversation own peer -> msg_expires m = days_later PM_RETENTION_DAYS (msg_sent m).
Proof.
  intros Hok Ho Hp Hm Hc. destruct (private_row _ _ _ _ _ _ Hok Hm Ho Hp Hc) as [Hroom _]. destruct (ok_rows _ _ Hok _ _ Hm) as [_ _ _ Hplace].
  rewrite Hroom in Hplace. by destruct Hplace as (? & ? & _ & _ & _ & _ & _ & _ & _ & _ & He).
Qed.

Lemma elem_of_inbox_items own now d x : history_ok now d ->
  x ∈ inbox_items own now d <->
  exists id m person, newest own (item_peer x) now d id m /\ db_inbox d !! (own, item_peer x) = Some (item_row x)
    /\ last_message (item_row x) = id /\ last_sent (item_row x) = msg_sent m /\ db_people d !! item_peer x = Some person
    /\ x = InboxItem (item_peer x) (account_name person) (item_row x) (msg_body m).
Proof.
  intros Hok. unfold inbox_items. rewrite list_elem_of_omap. split.
  - intros ([[user peer] row] & Hin & Hx). apply elem_of_map_to_list in Hin. cbn in Hx. destruct (bool_decide _ && _) eqn:Hown; [|done].
    apply andb_true_iff in Hown as [->%bool_decide_eq_true Hnow%N.ltb_lt]. destruct (db_people d !! peer) as [person|] eqn:Hperson; [|done].
    destruct (db_messages d !! last_message row) as [m|] eqn:Hm; [|done]. destruct (live now m) eqn:Hlive; [|done]. injection Hx as <-. cbn.
    destruct (ok_inbox _ _ Hok _ _ Hin) as [Hplace Hpair [Hpo Hpp] Hexp Hlast]. destruct (Hlast Hnow) as (m0 & Hm0 & Hc & Hs). cbn in *. simplify_eq.
    exists (last_message row), m, person. split_and!; [|done|done|congruence|done|done]. split; [done|congruence|done|]. intros id' m' Hm' Hc' Hl'.
    destruct (listed_message own peer now d id' m' Hok) as (row' & Hrow' & Hne); [by apply (ok_people _ _ Hok)..|done|done|done|]. assert (row' = row) as -> by congruence. unfold row_key in *. cbn [fst snd] in *. by rewrite Hs.
  - intros (id & m & person & [Hm Hc Hl _] & Hrow & Hid & Hsent & Hperson & ->). exists ((own, item_peer x), item_row x).
    split; [by apply elem_of_map_to_list|]. cbn. rewrite bool_decide_true by done. rewrite Hperson, Hid, Hm, Hl.
    destruct (ok_inbox _ _ Hok _ _ Hrow) as [_ _ [Hpo Hpp] Hexp _]. cbn in *.
    assert (now <? inbox_expires (item_row x) = true)%N as ->; [|done]. rewrite Hexp, Hsent, <-(private_expires own (item_peer x) now d id m); try done;
      by apply (ok_people _ _ Hok).
Qed.

(** Who has a conversation is in the inbox. *)
Lemma inbox_shows own peer now d id m : history_ok now d -> is_uuid own -> is_uuid peer -> db_messages d !! id = Some m ->
  msg_conversation m = private_conversation own peer -> live now m = true -> exists x, x ∈ inbox_items own now d /\ item_peer x = peer.
Proof.
  intros Hok Ho Hp Hm Hc Hl. destruct (listed_message own peer now d id m Hok Ho Hp Hm Hc Hl) as (row & Hrow & Hne).
  pose proof (ok_inbox _ _ Hok _ _ Hrow) as [Hplace _ [_ [person Hperson]] Hexp Hlast]. cbn in *.
  assert (now < inbox_expires row)%N as Hnow.
  { rewrite Hexp. apply N.lt_le_trans with (msg_expires m); [by apply N.ltb_lt|]. rewrite (private_expires own peer now d id m) by done.
    apply days_later_mono. unfold earlier in Hne. cbn in Hne. lia. }
  destruct (Hlast Hnow) as (m0 & Hm0 & Hc0 & Hs0). rewrite Hplace in Hc0.
  exists (InboxItem peer (account_name person) row (msg_body m0)). split; [|done]. apply list_elem_of_omap. exists ((own, peer), row).
  split; [by apply elem_of_map_to_list|]. cbn. rewrite bool_decide_true by done. rewrite Hperson, Hm0.
  assert (now <? inbox_expires row = true)%N as -> by by apply N.ltb_lt. cbn.
  assert (live now m0 = true) as ->; [|done]. apply N.ltb_lt. rewrite (private_expires own peer now d (last_message row) m0), Hs0, <-Hexp by done. done.
Qed.

Lemma inbox_peers_distinct own now d : NoDup (item_peer <$> inbox_items own now d).
Proof.
  unfold inbox_items. match goal with |- context [omap ?g _] => set (f := g) end.
  assert (forall x y, f x = Some y -> x.1 = (own, item_peer y)) as Hf.
  { intros [[user peer] row] y. unfold f. cbn. intros Hy. destruct (bool_decide _ && _) eqn:Ho; [|done].
    apply andb_true_iff in Ho as [->%bool_decide_eq_true _]. repeat case_match; try done. by injection Hy as <-. }
  pose proof (NoDup_fst_map_to_list (db_inbox d)) as Hnd. induction (map_to_list (db_inbox d)) as [|x l IH]; [constructor|].
  cbn in Hnd |- *. apply NoDup_cons in Hnd as [Hnew Hnd]. specialize (IH Hnd). destruct (f x) as [y|] eqn:Hx; [|done]. cbn. constructor; [|done].
  intros (z & Hz & (x' & Hx' & Hfx')%list_elem_of_omap)%list_elem_of_fmap. apply Hnew. rewrite (Hf _ _ Hx), Hz, <-(Hf _ _ Hfx'). by apply list_elem_of_fmap_2.
Qed.

Lemma inbox_keys_distinct own now d : history_ok now d -> NoDup (item_key <$> inbox_items own now d).
Proof.
  intros Hok. pose proof (inbox_peers_distinct own now d) as Hnd. apply NoDup_fmap_2_strong; [|by apply NoDup_fmap_1 in Hnd].
  intros x y Hx Hy Hkey. assert (item_peer x = item_peer y) as Hpeer.
  { apply elem_of_inbox_items in Hx as (i & m & p & [Hm Hc _ _] & Hrow & Hi & _ & Hp & _), Hy as (j & m' & p' & [Hm' Hc' _ _] & _ & Hj & _ & Hp' & _); [|done..].
    unfold item_key in Hkey. assert (i = j) as -> by congruence. assert (m = m') as -> by congruence. rewrite Hc in Hc'.
    pose proof (ok_inbox _ _ Hok _ _ Hrow) as [_ Hpair [Hpo _] _ _].
    apply private_conversation_inj in Hc' as [[_ ?]|[-> ->]]; [done|done|..]; by apply (ok_people _ _ Hok). }
  apply list_elem_of_lookup in Hx as [i Hi], Hy as [j Hj]. assert (i = j) as ->; [|congruence].
  apply (NoDup_lookup _ i j (item_peer x) Hnd); rewrite list_lookup_fmap; [by rewrite Hi|rewrite Hj; cbn; congruence].
Qed.

Definition item_of (own : N) (now : timestamp) (d : history_db) (x : inbox_item) : conversation_item :=
  Conversation (item_peer x) (item_name x) (conversation_message (item_body x) true) (unread_in (inbox_conversation (item_row x)) own now d).

(** A client that reads its inbox, page by page. *)
Fixpoint read_inbox (fuel : nat) (q : account_request) (cursor : option string) (now : timestamp) (d : history_db) : list conversation_item :=
  match fuel with
  | O => []
  | S fuel =>
      match inbox q (HistoryQuery cursor None None None None None) now d with
      | (_, Ok (items, next)) => items ++ match next with Some c => read_inbox fuel q (Some c) now d | None => [] end
      | (_, Err _) => []
      end
  end.

Lemma read_inbox_follow q c own now d fuel after : history_ok now d -> account_permit q = true -> claims_of q = Ok c -> parse_uuid (sub c) = Some own ->
  (forall k, after = Some k -> (k.1 < YEAR_10000)%N /\ is_uuid k.2) ->
  read_inbox fuel q ((fun k => write_cursor k.1 k.2) <$> after) now d
  = item_of own now d <$> follow item_key (flip earlier) fuel PAGE_LIMIT after (sort_rows item_key (flip earlier) (inbox_items own now d)).
Proof.
  intros Hok Hp Hc Hown. revert after. induction fuel as [|fuel IH]; intros after Hafter; [done|]. cbn [read_inbox follow].
  set (rows := sort_rows item_key (flip earlier) (inbox_items own now d)) in *. set (cursor := (fun k => write_cursor k.1 k.2) <$> after).
  assert (cursor ≫= read_cursor = after /\ cursor_ok cursor = true) as [Hread Hcok].
  { unfold cursor. destruct after as [k|]; [|done]. destruct (Hafter k eq_refl) as [Hy Hu]. destruct (cursor_reads_back _ _ Hy Hu) as [Hr Hlen]. cbn.
    rewrite Hr. split; [by destruct k|]. apply andb_true_iff. split; [by apply Nat.leb_le|]. by apply bool_decide_eq_true. }
  assert (validate_query (HistoryQuery cursor None None None None None) = Ok tt) as Hv.
  { unfold validate_query, resumes. cbn [query_before query_after query_around query_resume query_q query_limit]. rewrite Hcok. by destruct cursor. }
  unfold inbox, account_claims, account_of, hbind, hlift, hget, hret, ensure, map_error. rewrite Hp, Hc. cbn [hret]. rewrite Hown, Hv. cbn [query_before].
  rewrite Hread. fold rows. destruct (page_after item_key (flip earlier) PAGE_LIMIT after rows) as [shown next] eqn:Hpage. rewrite fmap_app. f_equal.
  destruct next as [k|]; [|done]. cbn [fmap option_fmap option_map]. apply (IH (Some k)). intros k' [= <-].
  unfold page_after in Hpage. injection Hpage as <- Hk. destruct (_ <? _)%nat; [|done]. apply fmap_Some in Hk as (x & Hx & ->).
  assert (x ∈ inbox_items own now d) as Hin.
  { apply last_Some_elem_of, elem_of_take in Hx as (i & Hx%list_elem_of_lookup_2 & _). apply elem_of_take in Hx as (j & Hx%list_elem_of_lookup_2 & _).
    rewrite <-(sort_rows_permutation item_key (flip earlier)). fold rows. unfold seek in Hx. destruct after; [by apply list_elem_of_filter in Hx as [_ ?]|done]. }
  apply elem_of_inbox_items in Hin as (id & m & p & [Hm _ _ _] & _ & Hid & Hsent & _ & _); [|done]. destruct (ok_rows _ _ Hok _ _ Hm) as [Hu _ Hy _].
  unfold item_key. cbn. by rewrite Hid, Hsent.
Qed.
End pages.
