(* ===== verification/HistorySafety.v ===== *)
(** * What saved history promises

    Theorems about every state the tables of saved chat can get into: who is
    shown what, that nothing is saved twice or lost early, that quotes stay
    current, and that pages are complete. *)

From S2P Require Import Prelude Paging Labels Settings Refusal Protocol Social Room Wire Process World Chat ChatRequests SocialRequests Tickets SavedHistory HistoryInv HistoryOps HistorySteps HistoryPages.

Section safety.
Context `{Unicode, HistoryText}.

(** ** Reading *)

Lemma rows_of_size conv now d : (length (rows_of conv now d) <= size (db_messages d))%nat.
Proof.
  unfold rows_of. rewrite length_map_to_list. etrans; [apply (size_select_le (fun _ _ => true) _ (db_messages d))|].
  - intros k x Hx _. eauto.
  - unfold select. rewrite map_filter_id by done. done.
Qed.

(** C22: history reads whole from wherever one starts.  Take any page that is
    not a search, of the newest messages, before or after a cursor, around a
    message or where one stopped reading.  If it shows anything, or was asked for
    without a cursor, then the older pages its cursors lead to, the page, and the
    newer ones together are the messages of the conversation that have not
    expired, in order, each once.  If it shows nothing it gives no cursors, and no
    unexpired message of the conversation is on the side of its cursor that was
    asked for (without a cursor there is none at all). *)
Theorem history_reads_whole conv account days query now d p fuel :
  reachable now d -> query_q query = None -> page conv account days query now d = Ok p -> (size (db_messages d) <= fuel)%nat ->
  exists rows, StronglySorted (fun x y => earlier (row_key x) (row_key y)) rows
    /\ (forall id m, (id, m) ∈ rows <-> db_messages d !! id = Some m /\ msg_conversation m = conv /\ live now m = true)
    /\ (history_messages p <> [] \/ (query_before query = None /\ query_after query = None) ->
         read_older conv account days (query_limit query) now d fuel (next_cursor p) ++ history_messages p
           ++ read_newer conv account days (query_limit query) now d fuel (newer_cursor p)
         = as_shown conv <$> rows)
    /\ (history_messages p = [] -> next_cursor p = None /\ newer_cursor p = None /\ Forall (aside query) rows).
Proof.
  intros Hok%history_reachable_ok Hq Hp Hfuel. exists (ordered_rows_of conv now d). split; [apply ordered_rows_sorted|].
  split; [intros id m; rewrite elem_of_ordered_rows; apply elem_of_rows|].
  destruct (page_shows _ _ _ _ _ _ _ Hq Hp) as (Hv & older & shown & newer & Hs & Hnone). pose proof (rows_of_size conv now d) as Hsize.
  assert (history_messages p = [] <-> shown = []) as Hempty by (rewrite (shown_messages _ _ _ _ _ _ _ Hs); by destruct shown).
  assert (shown = [] -> Forall (aside query) (ordered_rows_of conv now d)) as Haside
    by (unfold ordered_rows_of; rewrite sort_rows_permutation; done).
  split; [intros Hstart|intros Hno%Hempty; destruct (shown_nothing _ _ _ _ _ _ _ Hs Hno); auto].
  destruct (decide (shown = [])) as [Hno|Hne]; [|eapply reading_on; [done|done|exact Hs|done|lia]].
  destruct Hstart as [Hsome|[Hb Ha]]; [tauto|]. destruct (shown_nothing _ _ _ _ _ _ _ Hs Hno) as [-> ->]. rewrite (proj2 Hempty Hno).
  specialize (Haside Hno). destruct Haside as [|x l (k & Hk & _)]; [by destruct fuel|]. unfold query_cursor in Hk. by rewrite Hb, Ha in Hk.
Qed.

(** The caller of a request. *)
Definition calls (q : account_request) (own : N) : Prop :=
  account_permit q = true /\ exists c, claims_of q = Ok c /\ parse_uuid (sub c) = Some own.

Lemma inbox_items_size own now d : (length (inbox_items own now d) <= size (db_inbox d))%nat.
Proof.
  unfold inbox_items. rewrite <-length_map_to_list. induction (map_to_list (db_inbox d)) as [|x l IH]; [done|]. cbn [omap list_omap length].
  case_match; cbn [length]; lia.
Qed.

(** The newest messages of inbox rows, in their order. *)
Lemma newest_rows own now d l : history_ok now d -> Forall (.∈ inbox_items own now d) l ->
  StronglySorted (fun x y => flip earlier (item_key x) (item_key y)) l ->
  exists rows, StronglySorted (fun x y => earlier (row_key y) (row_key x)) rows
    /\ Forall2 (fun x r => newest own (item_peer x) now d r.1 r.2 /\ item_key x = row_key r /\ item_body x = msg_body r.2) l rows.
Proof.
  intros Hok Hall Hs. induction Hs as [|x l Hs IH Hx]; [exists []; by split; constructor|]. inversion_clear Hall as [|?? Hin Hl].
  destruct (IH Hl) as (rows & Hsorted & Hrows). apply elem_of_inbox_items in Hin as (id & m & p & Hnew & _ & Hid & Hsent & _ & Hitem); [|done].
  assert (item_key x = row_key (id, m)) as Hkey by (unfold item_key, row_key; cbn; congruence).
  exists ((id, m) :: rows). split; [|constructor; [|done]; split_and!; [done|done|by rewrite Hitem]].
  constructor; [done|]. apply Forall_forall. intros r Hr. apply list_elem_of_lookup in Hr as [i Hi].
  destruct (Forall2_lookup_r _ _ _ _ _ Hrows Hi) as (y & Hy & _ & Hky & _). rewrite Forall_forall in Hx. rewrite <-Hky, <-Hkey.
  by apply (Hx y), list_elem_of_lookup_2 with i.
Qed.

(** C23: the inbox shows every conversation once, with its newest message.
    Page by page, an account reads exactly the peers it has an unexpired message
    with, each once and the latest first, and for each the newest unexpired
    message between the two. *)
Theorem inbox_shows_every_conversation q own now d fuel :
  reachable now d -> calls q own -> (size (db_inbox d) < fuel)%nat ->
  let items := read_inbox fuel q None now d in
  NoDup (peer_id <$> items)
  /\ (forall peer, peer ∈ peer_id <$> items <-> is_uuid peer /\ exists id m, db_messages d !! id = Some m
        /\ msg_conversation m = private_conversation own peer /\ live now m = true)
  /\ exists rows, StronglySorted (fun x y => earlier (row_key y) (row_key x)) rows
       /\ Forall2 (fun item r => newest own (peer_id item) now d r.1 r.2 /\ last_entry item = conversation_message (msg_body r.2) true) items rows.
Proof.
  intros Hok%history_reachable_ok (Hpermit & c & Hc & Hown) Hfuel items. pose proof (inbox_keys_distinct own now d Hok) as Hnd.
  set (l := sort_rows item_key (flip earlier) (inbox_items own now d)).
  assert (l ≡ₚ inbox_items own now d) as Hperm by apply sort_rows_permutation.
  assert (StronglySorted (fun x y => flip earlier (item_key x) (item_key y)) l) as Hsorted by by apply (sort_rows_ordered item_key (flip earlier)).
  assert (items = item_of own now d <$> l) as ->.
  { unfold items. rewrite (read_inbox_follow q c own now d fuel None) by done. f_equal. apply (follow_reads_all _ _ _ _ None); [done|unfold PAGE_LIMIT; lia|].
    cbn. fold l. rewrite Hperm. pose proof (inbox_items_size own now d). lia. }
  rewrite <-list_fmap_compose. change (peer_id ∘ item_of own now d) with item_peer. split; [rewrite Hperm; apply inbox_peers_distinct|]. split.
  - intros peer. rewrite Hperm, list_elem_of_fmap. split.
    + intros (x & -> & Hx). apply elem_of_inbox_items in Hx as (id & m & p & [? ? ? _] & _ & _ & _ & Hp & _); [|done].
      split; [apply (ok_people _ _ Hok); eauto|]. by exists id, m.
    + intros (Hu & id & m & Hm & Hcm & Hl). destruct (inbox_shows own peer now d id m) as (x & Hx & <-); eauto using parse_uuid_range.
  - destruct (newest_rows own now d l Hok) as (rows & Hrs & Hrows); [|done|].
    + apply Forall_forall. intros x. by rewrite Hperm.
    + exists rows. split; [done|]. apply Forall2_fmap_l. eapply Forall2_impl; [exact Hrows|]. intros x r (? & _ & Hbody). cbn. by rewrite Hbody.
Qed.

(** What any page shows are unexpired rows of its conversation. *)
Lemma page_rows_sub conv query unread limit now d rows : page_rows conv query unread limit now d = Ok rows -> Forall (.∈ rows_of conv now d) rows.
Proof.
  unfold page_rows. rewrite newest_first_rows. fold (ordered_rows_of conv now d).
  assert (forall x, x ∈ ordered_rows_of conv now d -> x ∈ rows_of conv now d) as Hord by (intros; by apply elem_of_ordered_rows).
  assert (forall (l : list (N * message_row)) n x, x ∈ take n l -> x ∈ l) as Htake by (intros l n x (i & Hi & _)%elem_of_take; by apply list_elem_of_lookup_2 in Hi).
  assert (forall (R : timestamp * N -> timestamp * N -> Prop) `{!RelDecision R} c l x, x ∈ seek row_key R c l -> x ∈ l) as Hseek
    by (intros R HR c l x; destruct c; [by intros [_ ?]%list_elem_of_filter|done]).
  assert (forall x, x ∈ reverse (ordered_rows_of conv now d) -> x ∈ rows_of conv now d) as Hrev by (intros x Hx; rewrite reverse_Permutation in Hx; by apply Hord).
  intros Hrows. apply Forall_forall. intros x Hx. destruct (anchor_of query unread).
  - destruct (db_messages d !! _); [|done]. destruct (_ && _); [|done]. injection Hrows as <-.
    apply elem_of_app in Hx as [Hx%Htake|Hx%Htake]; apply list_elem_of_filter in Hx as [_ Hx]; [by apply Hrev|by apply Hord].
  - destruct (query_q query); [|destruct (bool_decide _)]; injection Hrows as <-; apply Htake in Hx.
    + apply list_elem_of_filter in Hx as [_ Hx]. by apply Hrev, (Htake _ SEARCH_WINDOW), (Hseek (flip earlier) _ (query_cursor query)).
    + by apply Hord, (Hseek earlier _ (query_cursor query)).
    + by apply Hrev, (Hseek (flip earlier) _ (query_cursor query)).
Qed.

Lemma page_messages conv account days query now d p e : page conv account days query now d = Ok p -> e ∈ history_messages p ->
  exists id m, db_messages d !! id = Some m /\ msg_conversation m = conv /\ live now m = true /\ e = as_shown conv (id, m).
Proof.
  unfold page. destruct (validate_query query) as [[]|]; [|done]. destruct (page_rows _ _ _ _ _ _) as [rows|] eqn:Hrows; [|done].
  destruct (page_cursors _ _ _ _ _ _) as [next newer]. intros [= <-]. cbn. intros ([id m] & -> & Hx)%list_elem_of_fmap. exists id, m.
  rewrite sort_rows_permutation in Hx. apply elem_of_take in Hx as (i & Hx%list_elem_of_lookup_2 & _).
  apply page_rows_sub in Hrows. rewrite Forall_forall in Hrows. apply Hrows, elem_of_rows in Hx as (? & ? & ?). done.
Qed.

(** C17: what is private stays between two accounts.  Whatever was saved,
    edited, quoted or cleaned before, an account that reads its conversation with
    a peer is shown only unexpired messages that one of the two sent to the
    other, and changes nothing; and the history of a room, searched or not, shows
    only public messages of that room. *)
Theorem private_history_stays_private now d : reachable now d ->
  (forall q own peer query d' p, calls q own -> is_uuid peer -> messages q peer query now d = (d', Ok p) ->
     d' = d /\ forall e, e ∈ history_messages p -> exists id m, db_messages d !! id = Some m /\ live now m = true
       /\ e = conversation_message (msg_body m) true
       /\ ((ChatEntry.participant_id e = own /\ ChatEntry.recipient_id e = Some peer)
           \/ (ChatEntry.participant_id e = peer /\ ChatEntry.recipient_id e = Some own)))
  /\ (forall room_id account days query p, page (public_conversation room_id) account days query now d = Ok p ->
     forall e, e ∈ history_messages p -> exists id m, db_messages d !! id = Some m /\ live now m = true
       /\ e = conversation_message (msg_body m) false /\ msg_room m = Some room_id /\ ChatEntry.recipient_id e = None).
Proof.
  intros Hok%history_reachable_ok. split.
  - intros q own peer query d' p (Hpermit & c & Hc & Hown) Hpeer Hx. unfold messages, account_claims, account_of, hbind, hlift, hget, hret, ensure, map_error in Hx.
    rewrite Hpermit, Hc in Hx. cbn [hret] in Hx. rewrite Hown in Hx. destruct (validate_query query); [|done].
    destruct (page _ _ _ _ _ _) as [p'|] eqn:Hp; [|done]. injection Hx as <- <-. split; [done|]. intros e He.
    destruct (page_messages _ _ _ _ _ _ _ _ Hp He) as (id & m & Hm & Hconv & Hl & ->). exists id, m.
    unfold as_shown. rewrite private_is_private. split_and!; [done|done|done|].
    exact (private_pair _ _ _ _ _ _ Hok Hm (parse_uuid_range _ _ Hown) Hpeer Hconv).
  - intros room_id account days query p Hp e He. destruct (page_messages _ _ _ _ _ _ _ _ Hp He) as (id & m & Hm & Hconv & Hl & ->). exists id, m.
    unfold as_shown. rewrite public_is_public. assert (msg_room m = Some room_id) as Hroom.
    { apply (bool_decide_eq_true _). change (in_room room_id m = true). rewrite (room_row now d id) by done. by apply bool_decide_eq_true. }
    destruct (ok_rows _ _ Hok _ _ Hm) as [_ _ _ Hplace]. rewrite Hroom in Hplace. destruct Hplace as (_ & _ & Hr & _). by split_and!.
Qed.

(** ** Saving *)

(** C21: a quote says what its message says now.  In every state, a reply
    that has not expired quotes the current text of a message of the same
    conversation that has not expired either, or says that it was removed;
    however sends, edits and removals follow each other. *)
Theorem quotes_stay_current now d id m reply original :
  reachable now d -> db_messages d !! id = Some m -> live now m = true -> ChatEntry.reply_to (msg_body m) = Some reply ->
  db_messages d !! reply_message_id reply = Some original -> live now original = true -> msg_conversation original = msg_conversation m ->
  excerpt reply = match ChatEntry.removed_at (msg_body original) with
                  | Some _ => text_of "Message removed"
                  | None => quote_excerpt (ChatEntry.content (msg_body original))
                  end.
Proof.
  intros Hok%history_reachable_ok Hm Hl Hr Ho Hlo Hc. rewrite (ok_quotes _ _ Hok _ _ _ _ Hm Hl Hr Ho Hlo Hc). unfold quote_of, removed.
  by destruct (ChatEntry.removed_at (msg_body original)); cbn.
Qed.

(** C24: an account sends at most thirty private messages a minute.  From
    rooms and the inbox together, and whatever else happens to the tables, no
    more than thirty of its saved private messages are younger than a minute. *)
Theorem private_messages_within_budget now d sender ids :
  reachable now d -> NoDup ids ->
  Forall (fun id => exists m, db_messages d !! id = Some m /\ msg_sender m = Some sender /\ msg_room m = None /\ (now < msg_sent m + MINUTE)%N) ids ->
  (length ids <= PRIVATE_MESSAGES_PER_MINUTE)%nat.
Proof.
  intros Hok%history_reachable_ok Hnd Hall. etrans; [|apply (ok_budget _ _ Hok sender)]. rewrite <-(size_list_to_set (C := gset N) ids Hnd), <-size_dom.
  apply subseteq_size. intros id Hid%elem_of_list_to_set. rewrite Forall_forall in Hall. destruct (Hall id Hid) as (m & Hm & Hs & Hroom & Hnow).
  apply elem_of_dom. exists m. apply lookup_select. split; [done|]. destruct (ok_rows _ _ Hok _ _ Hm) as [_ _ _ Hplace]. rewrite Hroom in Hplace.
  destruct Hplace as (? & b & _ & Hb & _). rewrite !andb_true_iff, N.ltb_lt. split_and!; [by apply bool_decide_eq_true| |done].
  apply bool_decide_eq_true. rewrite Hb. eauto.
Qed.

(** C20: a saved message changes and goes only as it may.  Its identity,
    author, audience, time and conversation stay, and its expiry only comes
    closer, not at all if it is private.  Its text, its marks, its files and the
    message it answers stay under every command but two.  An edit of this very
    message, by its author and before its removal, gives it the new text and the
    mark and leaves the rest; its removal from its room erases it, and the first
    time of removal stands.  It goes only once it has expired, with its room, or
    when a new retention period of its room is already over for it. *)
Theorem saved_message_is_kept now d now' cmd id m :
  reachable now d -> (now <= now')%N -> valid_command now' cmd d -> db_messages d !! id = Some m ->
  match db_messages (perform now' cmd d) !! id with
  | Some m' => kept m m'
      /\ (same_words (msg_body m) (msg_body m')
          \/ match cmd with
             | Edit _ actor guest original request =>
                 id = ChatEntry.message_id original /\ edits actor guest request now' m m'
             | EditPrivate c _ message request =>
                 id = message /\ exists own, parse_uuid (sub c) = Some own /\ edits own None request now' m m'
             | Remove room_id message removed_at => id = message /\ removes room_id removed_at now' m m'
             | _ => False
             end)
  | None => (msg_expires m <= now')%N
      \/ exists room_id, msg_room m = Some room_id
         /\ (cmd = DropRoom room_id \/ exists days, cmd = Retain room_id days /\ (days = 0%Z \/ (days_later days (msg_sent m) <= now')%N))
  end.
Proof.
  intros Hok%history_reachable_ok Hle Hv Hm. pose proof (history_ok_later _ _ _ Hle Hok) as Hok'.
  pose proof (carried_rows _ _ _ _ (perform_carries _ _ _ Hok' Hv) _ _ Hm) as Hrow.
  destruct (db_messages (perform now' cmd d) !! id) as [m'|].
  { destruct Hrow as [Hk Hw]. split; [done|]. by destruct cmd. }
  destruct Hrow as [Hdead|[_ Hgone]]; [left; by apply N.ltb_ge|right]. destruct cmd; try done; cbn in Hgone.
  - destruct Hgone as [Hroom Hover]. exists room_id. split; [done|]. right. eauto.
  - exists room_id. split; [done|]. by left.
Qed.

(** A message stands while commands are performed. *)
Inductive stands (id : N) : timestamp -> history_db -> message_row -> timestamp -> history_db -> message_row -> Prop :=
| stands_none now now' d m : (now <= now')%N -> db_messages d !! id = Some m -> stands id now d m now' d m
| stands_one now d m now1 d1 m1 now2 cmd m2 : stands id now d m now1 d1 m1 -> (now1 <= now2)%N -> valid_command now2 cmd d1 ->
    db_messages (perform now2 cmd d1) !! id = Some m2 -> stands id now d m now2 (perform now2 cmd d1) m2.

Lemma stands_kept id now d m now' d' m' : stands id now d m now' d' m' -> history_ok now d ->
  history_ok now' d' /\ db_messages d' !! id = Some m' /\ kept m m'.
Proof.
  induction 1 as [now now' d m Hle Hm|now d m now1 d1 m1 now2 cmd m2 Hs IH Hle Hv Hm2]; intros Hok.
  - split_and!; [by eapply history_ok_later|done|done].
  - destruct (IH Hok) as (Hok1 & Hm1 & Hk). destruct (perform_carries _ _ _ (history_ok_later _ _ _ Hle Hok1) Hv) as [Hok2 Hrows].
    split_and!; [done|done|]. specialize (Hrows _ _ Hm1). rewrite Hm2 in Hrows. destruct Hrows. by etrans.
Qed.

Lemma stands_from id now d m now' d' m' : stands id now d m now' d' m' -> db_messages d !! id = Some m.
Proof. by induction 1. Qed.

(** The same attempt again, perhaps with another identifier and time. *)
Record repeats (message message' : chat_entry) : Prop := {
  rep_author : ChatEntry.participant_id message' = ChatEntry.participant_id message;
  rep_audience : ChatEntry.recipient_id message' = ChatEntry.recipient_id message;
  rep_client : ChatEntry.client_message_id message' = ChatEntry.client_message_id message;
  rep_content : ChatEntry.content message' = ChatEntry.content message;
  rep_reply : reply_id message' = reply_id message
}.

Lemma same_attempt_kept b b' message message' ids : body_kept b b' -> repeats message message' ->
  same_attempt b message ids = true -> same_attempt b' message' ids = true.
Proof.
  intros [_ _ _ Hrem Hed Htext] [_ _ _ Hc Hr]. unfold same_attempt. rewrite !orb_true_iff, !andb_true_iff, !orb_true_iff, !andb_true_iff, !bool_decide_eq_true, Hc, Hr.
  intros [?|[Hf Hbody]]; [left; auto|]. destruct Htext as [?|(Hf' & Hr' & Hc')]; [by left|]. right. split; [congruence|].
  destruct Hbody as [?|[Hcb Hrb]]; [left; auto|]. destruct Hc' as [Hc'|]; [right; split; congruence|by left].
Qed.

(** Where the message of a successful save is. *)
Lemma saved_row room_id session authenticated days message ids now d d1 saved : history_ok now d ->
  insert_message room_id session authenticated days message ids now d = (d1, Ok saved) ->
  exists conversation m1, conversation_of room_id (ChatEntry.participant_id message) (ChatEntry.recipient_id message) authenticated = Ok conversation
    /\ db_messages d1 !! ChatEntry.message_id saved = Some m1
    /\ saved = conversation_message (msg_body m1) (bool_decide (is_Some (ChatEntry.recipient_id message)))
    /\ of_attempt conversation session (ChatEntry.client_message_id message) m1 = true /\ same_attempt (msg_body m1) message ids = true.
Proof.
  intros Hok (conversation & Hconv & Hx)%insert_message_Ok. exists conversation.
  destruct (find_attempt conversation session _ d) as [existing|] eqn:Hfind.
  - destruct Hx as (-> & -> & Hsame). apply find_attempt_Some in Hfind as (id & Hm & Hof). exists existing.
    cbn. destruct (ok_rows _ _ Hok _ _ Hm) as [_ Hid _ _]. by rewrite Hid.
  - destruct Hx as (attachments & Hins & -> & Hids). eexists. split; [done|]. split; [rewrite (ins_messages _ _ _ _ _ Hins); apply lookup_insert_eq|].
    split; [done|]. split.
    + by apply of_attempt_spec.
    + unfold same_attempt, file_ids, reply_id. cbn. rewrite !orb_true_iff, !andb_true_iff, !orb_true_iff, !andb_true_iff, !bool_decide_eq_true. right.
      split; [done|]. right. split; [done|]. destruct (ChatEntry.reply_to message); [|done]. cbn. by rewrite current_quote_id.
Qed.

Lemma insert_message_again room_id session authenticated days message ids now d conversation m :
  conversation_of room_id (ChatEntry.participant_id message) (ChatEntry.recipient_id message) authenticated = Ok conversation ->
  find_attempt conversation session (ChatEntry.client_message_id message) d = Some m -> same_attempt (msg_body m) message ids = true ->
  insert_message room_id session authenticated days message ids now d
  = (d, Ok (conversation_message (msg_body m) (bool_decide (is_Some (ChatEntry.recipient_id message))))).
Proof.
  intros Hconv Hfind Hsame. unfold insert_message, hbind, hlift, hget. rewrite Hconv. cbn [fst snd]. rewrite Hfind. unfold ensure.
  change (same_attempt (msg_body m) (conversation_message message _) ids) with (same_attempt (msg_body m) message ids). by rewrite Hsame.
Qed.

(** C19: a message is saved once.  When a save is repeated, with the same
    author, session, client identifier, text, quote and files, while the message
    stands, whatever edits, reactions or removal it has seen and however long
    after, nothing is saved again and no budget spent: the answer is the message
    as it is now.  (Only a private one is refused when the two accounts no longer
    accept messages from each other.) *)
Theorem message_is_saved_once room_id session authenticated days message message' ids now d d1 saved m1 now' d2 m2 :
  reachable now d -> sendable message days d -> persist_message room_id session authenticated days message ids now d = (d1, Ok saved) ->
  stands (ChatEntry.message_id saved) now d1 m1 now' d2 m2 -> repeats message message' ->
  let answer := persist_message room_id session authenticated days message' ids now' d2 in
  answer = (d2, Ok (conversation_message (msg_body m2) (bool_decide (is_Some (ChatEntry.recipient_id message)))))
  \/ (is_Some (ChatEntry.recipient_id message) /\ answer = (d2, Err unavailable)).
Proof.
  intros Hok%history_reachable_ok Hsend Hx Hst Hrep answer. pose proof (carried_ok untouched _ _ _ (persist_message_carries _ _ _ _ _ _ _ _ _ _ _ Hok Hsend Hx)) as Hok1.
  apply transaction_Ok, hbind_ok in Hx as (d0 & [] & Hallow & Hins). assert (d0 = d) as ->.
  { destruct (ChatEntry.recipient_id message); [|by injection Hallow]. apply hbind_ok in Hallow as (d3 & people & [-> _]%lock_accounts_Ok & [_ ->]%ensure_ok). done. }
  destruct (saved_row _ _ _ _ _ _ _ _ _ _ Hok Hins) as (conversation & m0 & Hconv & Hm0 & _ & Hof & Hsame). pose proof (stands_from _ _ _ _ _ _ _ Hst) as Hm1.
  assert (m0 = m1) as -> by congruence. destruct (stands_kept _ _ _ _ _ _ _ Hst Hok1) as (Hok2 & Hm2 & Hk).
  rewrite <-(shrinks_of_attempt _ _ _ _ _ Hk) in Hof. apply (same_attempt_kept _ _ _ _ _ (kept_body _ _ Hk) Hrep) in Hsame.
  assert (find_attempt conversation session (ChatEntry.client_message_id message) d2 = Some m2) as Hfind.
  { destruct (find_attempt conversation session _ d2) as [x|] eqn:Hf; [|by rewrite (find_attempt_None _ _ _ _ _ _ Hf Hm2) in Hof].
    apply find_attempt_Some in Hf as (j & Hj & Hofj). assert (j = ChatEntry.message_id saved) as ->; [|congruence].
    eapply (ok_attempts _ _ Hok2); [exact Hj|exact Hm2|]. apply of_attempt_spec.
    apply of_attempt_spec in Hof as (-> & -> & ->). by apply of_attempt_spec in Hofj as (-> & -> & ->). }
  destruct Hrep as [Ha Hr Hc _ _]. rewrite <-Ha, <-Hr in Hconv. rewrite <-Hc in Hfind. rewrite <-Hr.
  pose proof (insert_message_again room_id session authenticated days message' ids now' d2 conversation m2 Hconv Hfind Hsame) as Hagain.
  unfold answer, persist_message, transaction, hbind. destruct (ChatEntry.recipient_id message') as [recipient|] eqn:Hrec; cbn [hret]; [|left; by rewrite Hagain].
  unfold lock_private_accounts, hbind, ensure, hget, hret, bail.
  destruct (negb _); [|right; by eauto]. destruct (db_people d2 !! ChatEntry.participant_id message'), (db_people d2 !! recipient); try (right; by eauto).
  destruct (_ && _); [|right; by eauto]. left. by rewrite Hagain.
Qed.
End safety.

(** ** A small history *)

(** Numbers in sixteen digits, the lowest first. *)
Fixpoint digits (k : nat) (n : N) : string :=
  match k with O => EmptyString | S k => String (Ascii.ascii_of_N (48 + n mod 16)) (digits k (n / 16)) end.
Fixpoint value (s : string) : N :=
  match s with EmptyString => 0 | String c s => (Ascii.N_of_ascii c - 48) + 16 * value s end%N.

Lemma value_digits k n : (n < 16 ^ N.of_nat k)%N -> value (digits k n) = n.
Proof.
  revert n. induction k as [|k IH]; intros n Hn; [cbn in *; lia|]. cbn [digits value]. rewrite Nat2N.inj_succ, N.pow_succ_r' in Hn.
  rewrite IH by (apply N.Div0.div_lt_upper_bound; lia). pose proof (N.mod_lt n 16 ltac:(lia)) as Hr. rewrite Ascii.N_ascii_embedding by lia.
  pose proof (N.div_mod n 16 ltac:(lia)) as Hd. rewrite Hd at 3. clear -Hr. revert Hr. generalize (n mod 16)%N (n / 16)%N. lia.
Qed.
Lemma digits_length k n : String.length (digits k n) = k.
Proof. revert n. induction k as [|k IH]; intros n; cbn; [done|by rewrite IH]. Qed.

Definition digit_codec : Codec.
Proof.
  refine {| entry_bytes := fun m => Some (1 + text_len (ChatEntry.content m))%N;
            parse_uuid := fun s => if (value s <? 2 ^ 128)%N then Some (value s) else None;
            read_cursor := fun s => Some (value s / 2 ^ 128, value s mod 2 ^ 128)%N |}.
  intros m n [= <-]. lia.
Defined.
Definition digit_text : HistoryText (H := digit_codec).
Proof.
  refine (Build_HistoryText digit_codec (fun at_ id => digits 72 (at_ * 2 ^ 128 + id)) (digits 36) id _ _ (digits_length 36) _).
  - intros at_ n Hat Hid. cbn [read_cursor digit_codec]. unfold is_uuid, YEAR_10000 in *. rewrite digits_length.
    rewrite value_digits by (change (16 ^ N.of_nat 72)%N with (2 ^ 64 * 2 ^ 128 * 2 ^ 96)%N; lia). split; [|lia].
    rewrite N.div_add_l, N.div_small, N.add_0_r by lia. rewrite N.add_comm, N.Div0.mod_add, N.mod_small by lia. done.
  - unfold is_uuid. intros a b Ha Hb Heq. apply (f_equal value) in Heq.
    by rewrite !value_digits in Heq by (change (16 ^ N.of_nat 36)%N with (2 ^ 128 * 2 ^ 16)%N; lia).
  - intros s n. cbn. unfold is_uuid. destruct (N.ltb_spec (value s) (2 ^ 128)); [|done]. by intros [= <-].
Defined.

(** Ann (1), Bob (2) and the room lounge; Bob answers Ann's message, Ann edits
    it, and they write to each other. *)
Definition noon : timestamp := 1700000000000000.
Definition person (name : string) : chat_account := ChatAccount (text_of name) (Some (ChatPreferences true [])) None "accent" 1.
Definition empty_history : history_db :=
  HistoryDb ∅ ∅ ∅ ∅ ∅ {["lounge" := 7%Z]} {[1%N := person "Ann"; 2%N := person "Bob"]} {[(1, 2)%N]} {[7%N := (1%N, noon + 100 * DAY)%N]}.
Definition words (id author : N) (to : option N) (client said : string) (reply : option chat_reply_ref) (at_ : timestamp) : chat_entry :=
  ChatEntry.mk id client author (text_of "Someone") to None None (text_of said) [] at_ None 0 None default_style reply [].
Definition hello : chat_entry := words 100 1 None "c1" "hello" None noon.
Definition answer : chat_entry := words 101 2 None "c2" "same to you" (Some (ChatReplyRef 100 1 (text_of "Ann") (text_of "anything"))) (noon + 1).
Definition secret : chat_entry := words 102 1 (Some 2%N) "c3" "a secret" None (noon + 3).

Abbreviation play now cmd d := (perform (H := ascii_unicode) (H0 := digit_codec) (H1 := digit_text) now cmd d).
Abbreviation sample_reachable now d := (reachable (H := ascii_unicode) (H0 := digit_codec) (H1 := digit_text) now d).

Definition greeted : history_db := play noon (Persist (Some "lounge") 11 true 7 hello []) empty_history.
Definition answered : history_db := play (noon + 1)%N (Persist (Some "lounge") 12 true 7 answer []) greeted.
Definition corrected : history_db :=
  play (noon + 2)%N (Edit (Some "lounge") 1 None hello (EditRequest (text_of "hello all") 0)) answered.
Definition confided : history_db := play (noon + 3)%N (Persist None 11 true 90 secret []) corrected.

Lemma sendable_check message days d :
  bool_decide (ChatEntry.message_id message < 2 ^ 128)%N && bool_decide (db_messages d !! ChatEntry.message_id message = None)
  && bool_decide (map_Forall (fun _ m => reply_id (msg_body m) <> Some (ChatEntry.message_id message)) (db_messages d))
  && bool_decide (reply_id message <> Some (ChatEntry.message_id message)) && bool_decide (ChatEntry.sent_at message < YEAR_10000)%N
  && (bool_decide (ChatEntry.recipient_id message = None) || bool_decide (days = PM_RETENTION_DAYS)) = true ->
  sendable message days d.
Proof.
  rewrite !andb_true_iff, orb_true_iff, !bool_decide_eq_true. intros (((((Hid & Hnone) & Hq) & Hself) & Ht) & Hd). split; [done..|].
  intros [x Hx]. destruct Hd; [congruence|done].
Qed.
Ltac sendable_now := apply sendable_check; vm_compute; reflexivity.

Lemma empty_reachable : sample_reachable noon empty_history.
Proof.
  exists empty_history. split; [|by constructor]. split_and!; [done..|]. intros a. unfold empty_history. cbn [db_people].
  rewrite !lookup_insert_is_Some, lookup_singleton_is_Some. unfold is_uuid. lia.
Qed.
Lemma reachable_step now now' cmd d : sample_reachable now d -> (now <= now')%N ->
  valid_command now' cmd d -> sample_reachable now' (play now' cmd d).
Proof. intros (d0 & Hd & Hs) Hle Hv. exists d0. split; [done|]. by eapply steps_one. Qed.
Lemma greeted_reachable : sample_reachable noon greeted.
Proof. apply (reachable_step noon); [apply empty_reachable|done|]. sendable_now. Qed.
Lemma corrected_reachable : sample_reachable (noon + 2) corrected.
Proof.
  apply (reachable_step (noon + 1)); [|done|done]. apply (reachable_step noon); [apply greeted_reachable|done|]. sendable_now.
Qed.
Lemma confided_reachable : sample_reachable (noon + 3) confided.
Proof. apply (reachable_step (noon + 2)); [apply corrected_reachable|done|]. sendable_now. Qed.

Abbreviation sample_page query now d :=
  (page (H0 := digit_codec) (H1 := digit_text) (public_conversation "lounge") None 7 query now d).

(** One message a page, from the oldest on. *)
Definition from_first : history_query := HistoryQuery None None (Some 100%N) None None (Some 1%N).

Lemma history_reads_whole_witness : exists p rows, sample_page from_first (noon + 2)%N corrected = Ok p
  /\ length (history_messages p) = 1%nat /\ (forall id m, (id, m) ∈ rows <-> db_messages corrected !! id = Some m
       /\ msg_conversation m = public_conversation "lounge" /\ live (noon + 2) m = true)
  /\ read_older (H0 := digit_codec) (H1 := digit_text) (public_conversation "lounge") None 7 (Some 1%N) (noon + 2) corrected 2 (next_cursor p)
       ++ history_messages p
       ++ read_newer (H0 := digit_codec) (H1 := digit_text) (public_conversation "lounge") None 7 (Some 1%N) (noon + 2) corrected 2 (newer_cursor p)
     = as_shown (public_conversation "lounge") <$> rows.
Proof.
  destruct (sample_page from_first (noon + 2)%N corrected) as [p|] eqn:Hp; [|by vm_compute in Hp].
  assert (length (history_messages p) = 1%nat) as Hlen by (vm_compute in Hp; by injection Hp as <-).
  destruct (history_reads_whole (H := ascii_unicode) (H0 := digit_codec) (H1 := digit_text) (public_conversation "lounge") None 7 from_first (noon + 2)
    corrected p 2 corrected_reachable eq_refl Hp) as (rows & _ & Hrows & Hread & _); [by vm_compute|].
  exists p, rows. split; [reflexivity|]. split; [exact Hlen|]. split; [exact Hrows|]. apply Hread. left. by destruct (history_messages p).
Defined.

(** A request of Ann's. *)
Definition ann_claims : claims := Claims (digits 36 1) "Ann" "" "" (2 ^ 40) 1 7.
Definition anns : account_request := AccountRequest true (Ok ann_claims).
Lemma anns_calls : calls (H0 := digit_codec) anns 1.
Proof. split; [done|]. eexists. split; [done|]. by vm_compute. Qed.

Lemma inbox_shows_every_conversation_witness :
  let items := read_inbox (H0 := digit_codec) (H1 := digit_text) 3 anns None (noon + 3) confided in
  peer_id <$> items = [2%N]
  /\ exists id m, db_messages confided !! id = Some m
       /\ msg_conversation m = private_conversation (H0 := digit_codec) (H1 := digit_text) 1 2 /\ live (noon + 3) m = true.
Proof.
  intros items. assert (peer_id <$> items = [2%N]) as Hpeers by by vm_compute. split; [exact Hpeers|].
  destruct (inbox_shows_every_conversation (H := ascii_unicode) (H0 := digit_codec) (H1 := digit_text) anns 1 (noon + 3) confided 3
    confided_reachable anns_calls) as (_ & Hall & _); [by vm_compute|].
  apply (Hall 2%N). fold items. rewrite Hpeers. constructor.
Defined.

Definition newest_first : history_query := HistoryQuery None None None None None None.

Lemma private_history_stays_private_witness : exists p e,
  messages (H0 := digit_codec) (H1 := digit_text) anns 2 newest_first (noon + 3) confided = (confided, Ok p)
  /\ history_messages p = [e] /\ ChatEntry.content e = text_of "a secret"
  /\ ((ChatEntry.participant_id e = 1%N /\ ChatEntry.recipient_id e = Some 2%N)
      \/ (ChatEntry.participant_id e = 2%N /\ ChatEntry.recipient_id e = Some 1%N)).
Proof.
  destruct (private_history_stays_private (H := ascii_unicode) (H0 := digit_codec) (H1 := digit_text) (noon + 3) confided confided_reachable) as [Hprivate _].
  destruct (messages (H0 := digit_codec) (H1 := digit_text) anns 2 newest_first (noon + 3) confided) as [d' [p|]] eqn:Hp; [|by vm_compute in Hp].
  destruct (Hprivate anns 1%N 2%N newest_first d' p anns_calls ltac:(by vm_compute) Hp) as [-> Hall].
  assert (exists e, history_messages p = [e] /\ ChatEntry.content e = text_of "a secret") as (e & He & Hc).
  { apply (f_equal snd) in Hp. vm_compute in Hp. injection Hp as <-. eexists. split; reflexivity. }
  exists p, e. split; [reflexivity|]. split; [exact He|]. split; [exact Hc|].
  destruct (Hall e) as (_ & _ & _ & _ & _ & Hend); [rewrite He; constructor|exact Hend].
Defined.

(** Bob's answer quotes what Ann's message says now. *)
Lemma quotes_stay_current_witness : exists m reply, db_messages corrected !! 101%N = Some m
  /\ ChatEntry.reply_to (msg_body m) = Some reply /\ excerpt reply = quote_excerpt (text_of "hello all").
Proof.
  eexists _, _. split; [vm_compute; reflexivity|]. split; [reflexivity|]. etrans.
  - eapply (quotes_stay_current (H := ascii_unicode) (H0 := digit_codec) (H1 := digit_text) (noon + 2) corrected 101); [exact corrected_reachable|..];
      (vm_compute; reflexivity).
  - vm_compute. reflexivity.
Defined.

Lemma private_messages_within_budget_witness : exists m, db_messages confided !! 102%N = Some m /\ msg_sender m = Some 1%N
  /\ msg_room m = None /\ (noon + 3 < msg_sent m + MINUTE)%N /\ (length [102%N] <= PRIVATE_MESSAGES_PER_MINUTE)%nat.
Proof.
  destruct (db_messages confided !! 102%N) as [m|] eqn:Hm; [|vm_compute in Hm; discriminate Hm]. exists m.
  assert (msg_sender m = Some 1%N /\ msg_room m = None /\ (noon + 3 < msg_sent m + MINUTE)%N) as (Hs & Hr & Ht)
    by (vm_compute in Hm; injection Hm as <-; by split_and!).
  split_and!; [reflexivity|exact Hs|exact Hr|exact Ht|].
  apply (private_messages_within_budget (H := ascii_unicode) (H0 := digit_codec) (H1 := digit_text) (noon + 3) confided 1);
    [apply confided_reachable|apply NoDup_singleton|]. constructor; [|constructor]. by exists m.
Defined.

(** Ann's edit keeps what her message is; a shorter retention drops it. *)
Lemma saved_message_is_kept_witness : exists m m', db_messages answered !! 100%N = Some m /\ db_messages corrected !! 100%N = Some m'
  /\ (kept m m' /\ (same_words (msg_body m) (msg_body m')
      \/ (100%N = ChatEntry.message_id hello /\ edits 1 None (EditRequest (text_of "hello all") 0) (noon + 2) m m')))
  /\ ChatEntry.content (msg_body m) = text_of "hello" /\ ChatEntry.content (msg_body m') = text_of "hello all"
  /\ db_messages (play (noon + DAY)%N (Retain "lounge" 1) corrected) !! 100%N = None.
Proof.
  assert (sample_reachable (noon + 1) answered) as Hr by (apply (reachable_step noon); [apply greeted_reachable|done|sendable_now]).
  destruct (db_messages answered !! 100%N) as [m|] eqn:Hm; [|vm_compute in Hm; discriminate Hm].
  pose proof (saved_message_is_kept (H := ascii_unicode) (H0 := digit_codec) (H1 := digit_text) (noon + 1) answered (noon + 2)
    (Edit (Some "lounge") 1 None hello (EditRequest (text_of "hello all") 0)) 100 m Hr ltac:(done) I Hm) as Hk. fold corrected in Hk.
  destruct (db_messages corrected !! 100%N) as [m'|] eqn:Hm'; [|vm_compute in Hm'; discriminate Hm'].
  exists m, m'. split; [reflexivity|]. split; [reflexivity|]. split; [exact Hk|].
  split; [vm_compute in Hm; by injection Hm as <-|]. split; [vm_compute in Hm'; by injection Hm' as <-|]. vm_compute. reflexivity.
Defined.

(** Ann's client repeats its message, which has been edited since. *)
Lemma message_is_saved_once_witness :
  let again := hello <| ChatEntry.message_id := 200%N |> <| ChatEntry.sent_at := (noon + 2)%N |> in
  exists saved, persist_message (H0 := digit_codec) (H1 := digit_text) (Some "lounge") 11 true 7 again [] (noon + 2) corrected = (corrected, Ok saved)
    /\ ChatEntry.message_id saved = 100%N /\ ChatEntry.content saved = text_of "hello all".
Proof.
  intros again. destruct (db_messages greeted !! 100%N) as [m1|] eqn:Hm1; [|vm_compute in Hm1; discriminate Hm1].
  destruct (db_messages answered !! 100%N) as [m2|] eqn:Hm2; [|vm_compute in Hm2; discriminate Hm2].
  destruct (db_messages corrected !! 100%N) as [m3|] eqn:Hm3; [|vm_compute in Hm3; discriminate Hm3].
  assert (exists saved, persist_message (H0 := digit_codec) (H1 := digit_text) (Some "lounge") 11 true 7 hello [] noon empty_history = (greeted, Ok saved)
    /\ ChatEntry.message_id saved = 100%N) as (saved & Hsaved & Hid) by (eexists; split; [vm_compute; reflexivity|reflexivity]).
  exists (conversation_message (msg_body m3) false). split.
  - destruct (message_is_saved_once (H := ascii_unicode) (H0 := digit_codec) (H1 := digit_text) (Some "lounge") 11 true 7 hello again [] noon
      empty_history greeted saved m1 (noon + 2) corrected m3 empty_reachable) as [Hx|[[x Hx] _]]; [sendable_now|exact Hsaved| |by split|exact Hx|discriminate Hx].
    rewrite Hid. apply (stands_one _ _ _ _ (noon + 1) answered m2); [|done|done|exact Hm3].
    apply (stands_one _ _ _ _ noon greeted m1); [by constructor|done|sendable_now|exact Hm2].
  - vm_compute in Hm3. injection Hm3 as <-. split; reflexivity.
Defined.

(** A repeated private message whose first is past its time, but not yet cleaned
    up: the first lookup leaves it out, saving finds it, and the caller is told
    that the old message is new. *)
Lemma expired_repeat_counts_as_new :
  let send id now d := save_private_message (H := ascii_unicode) (H0 := digit_codec) (H1 := digit_text) ann_claims 2
                         (SendRequest "c1" (text_of "hello") None None []) (RoomContext None sample_wire true false true) id now d in
  let sent := (send 300%N noon empty_history).1 in
  let late := (noon + 90 * DAY + 1)%N in
  exists saved m, send 301%N late sent = (sent, Ok (saved, true)) /\ ChatEntry.message_id saved = 300%N
    /\ db_messages sent !! 300%N = Some m /\ live late m = false.
Proof. eexists _, _. split; [vm_compute; reflexivity|]. split; [reflexivity|]. split; [vm_compute; reflexivity|]. vm_compute. reflexivity. Qed.
