(* ===== verification/InboxDelivery.v ===== *)
(** * Private messages over HTTP ([src/src/room/history.rs])

    The handlers that save a private message, an edit or a reaction for an
    account and then tell the rooms the two accounts are in.  They work on the
    tables of saved chat and on the rooms and outbound queues together. *)

From S2P Require Import Prelude Paging Labels Settings Refusal Protocol Social Net RateTable Room Wire Process World Chat ChatEvents ChatRequests SocialRequests Tickets SavedHistory HistoryInv HistoryOps HistorySteps HistoryPages HistorySafety.

(** How saving, which has fifteen seconds, ends: in time, or cut off before or
    after the database has committed. *)
Inductive timing := InTime | CutOff (committed : bool).

Section delivery.
Context (mgr : manager) `{Unicode, HistoryText}.

(** [busy] are the rooms whose lock is taken when it is tried. *)
Definition tell_room (busy : N -> bool) (message : chat_entry) (recipient : participant_id) (w : world) (a : N) : world :=
  if busy a then w
  else
    let r := room_at w a in
    if Room.deleting r then w
    else w <| the_wire ::= send_each (inbox_viewers r message recipient) (ServerMessage.PrivateMessageReceived message) |>.

Definition deliver_inbox_message (busy : N -> bool) (message : chat_entry) (w : world) : world :=
  match ChatEntry.recipient_id message with
  | None => w
  | Some recipient => foldl (tell_room busy message recipient) w ((map_to_list (rooms w)).*2)
  end.

(** Saving under its deadline. *)
Definition within_deadline {A} (t : timing) (save : requesting A) : requesting A := fun d =>
  match t, save d with
  | InTime, done => done
  | CutOff committed, (d', _) => (if committed then d' else d, Err ServiceBusy)
  end.

(** The room a first message is sent from; [admitted] and [mapped] say whether
    its control came in time and whether the room was still the mapped one. *)
Definition context_in (w : world) (room_id : option string) (admitted mapped : bool) : room_context :=
  RoomContext (room_at w <$> (room_id ≫= fun id => rooms w !! id)) (the_wire w) admitted (draining w) mapped.

Definition send_message (q : account_request) (peer : N) (request : send_request) (admitted mapped : bool) (id : N) (now : timestamp)
  (t : timing) (busy : N -> bool) (d : history_db) (w : world) : history_db * world * result auth_error chat_entry :=
  let context := context_in w (send_room request) admitted mapped in
  match (let! c := account_claims q in within_deadline t (save_private_message c peer request context id now))%handler d with
  | (d, Ok (saved, created)) => (d, if created : bool then deliver_inbox_message busy saved w else w, Ok saved)
  | (d, Err e) => (d, w, Err e)
  end.

(** The other two leave a process to run in the rooms. *)
Definition edit_message (q : account_request) (peer message : N) (request : edit_request) (now : timestamp) (t : timing) (d : history_db)
  : history_db * process unit * result auth_error chat_entry :=
  match (let! c := account_claims q in within_deadline t (save_private_edit c peer message request now))%handler d with
  | (d, Ok saved) => (d, schedule_inbox_update mgr saved false, Ok saved)
  | (d, Err e) => (d, Return tt, Err e)
  end.
Definition set_private_reaction (q : account_request) (peer message : N) (e : text) (present : bool) (now : timestamp) (t : timing) (d : history_db)
  : history_db * process unit * result auth_error (N * list chat_reaction) :=
  match (let! c := account_claims q in within_deadline t (save_private_reaction c peer message e present now))%handler d with
  | (d, Ok saved) => (d, schedule_inbox_update mgr saved true, Ok (ChatEntry.message_id saved, ChatEntry.reactions saved))
  | (d, Err e) => (d, Return tt, Err e)
  end.

(** ** What is delivered *)

(** Everyone a delivery tells. *)
Definition told (busy : N -> bool) (message : chat_entry) (recipient : participant_id) (w : world) (addresses : list N) : list sender :=
  mjoin ((fun a => inbox_viewers (room_at w a) message recipient)
           <$> filter (fun a => busy a = false /\ Room.deleting (room_at w a) = false) addresses).

Lemma tell_rooms busy message recipient addresses w :
  foldl (tell_room busy message recipient) w addresses
  = w <| the_wire ::= send_each (told busy message recipient w addresses) (ServerMessage.PrivateMessageReceived message) |>.
Proof.
  revert w. induction addresses as [|a addresses IH]; intros w; [by destruct w|]. cbn [foldl]. rewrite IH. unfold told, tell_room.
  rewrite filter_cons. destruct (busy a); [by rewrite decide_False by naive_solver|].
  destruct (Room.deleting (room_at w a)) eqn:Hdel; [by rewrite decide_False by naive_solver|]. rewrite decide_True by done.
  destruct w. cbn [fmap list_fmap mjoin list_join]. cbn -[mjoin]. f_equal. unfold send_each. by rewrite foldl_app.
Qed.

Lemma elem_of_inbox_viewers r message recipient c : c ∈ inbox_viewers r message recipient <->
  exists p, p ∈ members r /\ Participant.sender p = c /\ Participant.authenticated p = true
    /\ (Participant.id p = ChatEntry.participant_id message \/ Participant.id p = recipient)
    /\ accepts_inbox_from (Participant.social p)
         (if (Participant.id p =? recipient)%N then ChatEntry.participant_id message else recipient) = true.
Proof.
  unfold inbox_viewers, senders_where. rewrite list_elem_of_fmap. split.
  - intros (p & -> & [Hf Hp]%list_elem_of_filter). rewrite !andb_true_iff, orb_true_iff, !N.eqb_eq in Hf. destruct Hf as [[Ha Hid] Hacc]. exists p. by split_and!.
  - intros (p & Hp & <- & Ha & Hid & Hacc). exists p. split; [done|]. apply list_elem_of_filter. split; [|done].
    by rewrite !andb_true_iff, orb_true_iff, !N.eqb_eq.
Qed.

Lemma elem_of_told busy message recipient w addresses c : c ∈ told busy message recipient w addresses <->
  exists a, a ∈ addresses /\ busy a = false /\ Room.deleting (room_at w a) = false /\ c ∈ inbox_viewers (room_at w a) message recipient.
Proof.
  unfold told. rewrite list_elem_of_join. split.
  - intros (l & Hc & (a & -> & [[Hb Hd] Ha]%list_elem_of_filter)%list_elem_of_fmap). exists a. by split_and!.
  - intros (a & Ha & Hb & Hd & Hc). eexists. split; [exact Hc|]. apply list_elem_of_fmap. exists a. split; [done|]. by apply list_elem_of_filter.
Qed.

(** ** What is saved *)

Lemma send_Ok c peer request context id now d d' saved created : history_ok now d ->
  save_private_message c peer request context id now d = (d', Ok (saved, created)) ->
  exists own m, parse_uuid (sub c) = Some own /\ own <> peer /\ is_uuid peer /\ db_messages d' !! ChatEntry.message_id saved = Some m
    /\ msg_conversation m = private_conversation own peer /\ saved = conversation_message (msg_body m) true
    /\ (created = false -> is_Some (db_messages d !! ChatEntry.message_id saved)).
Proof.
  intros Hok Hx. unfold save_private_message in Hx. apply hbind_ok in Hx as (? & [] & ->%unexpired_Ok & Hx).
  apply hbind_ok in Hx as (? & own & [-> Hown]%account_of_Ok & Hx). apply hbind_ok in Hx as (? & ? & [_ ->]%ensure_ok & Hx).
  apply hbind_ok in Hx as (d0 & in_context & Hctx & Hx). apply (f_equal fst) in Hctx. rewrite creation_context_fst in Hctx. cbn in Hctx. subst d0.
  apply transaction_Ok, hbind_ok in Hx as (? & people & (-> & Hne & _ & Hpeer)%begin_Ok & Hx). apply hbind_ok in Hx as (? & ? & [= <- <-] & Hx).
  apply hbind_ok in Hx as (? & ? & [_ ->]%ensure_ok & Hx). exists own. assert (is_uuid peer) as Hp by (apply (ok_people _ _ Hok); eauto).
  destruct (select_one _ (db_messages d)) as [[j existing]|] eqn:Hsel.
  - apply hbind_ok in Hx as (? & ? & [_ ->]%ensure_ok & [= <- <- <-]). apply select_one_Some in Hsel as [Hj [Hof _]%andb_true_iff]. apply of_attempt_spec in Hof as [Hc _].
    destruct (ok_rows _ _ Hok _ _ Hj) as [_ Hid _ _]. exists existing. cbn. rewrite Hid, Hj. split_and!; eauto.
  - apply hbind_ok in Hx as (? & ? & [_ ->]%ensure_ok & Hx). apply hbind_ok in Hx as (d1 & reply & Hreply & Hx). assert (d1 = d) as ->.
    { destruct (send_reply_to request); [|by injection Hreply]. by apply hbind_ok in Hreply as (? & ? & (-> & _)%find_original_Ok & [= <- _]). }
    apply hbind_ok in Hx as (? & ? & Hins%map_error_Ok & Hx). apply hbind_ok in Hx as (? & ? & ->%unexpired_Ok & [= <- <- <-]).
    destruct (saved_row _ _ _ _ _ _ _ _ _ _ Hok Hins) as (conversation & m & Hconv & Hm & Hsaved & [Hc _]%of_attempt_spec & _).
    exists m. injection Hconv as <-. by split_and!.
Qed.

Lemma within_deadline_Ok {A} t (save : requesting A) d d' x : within_deadline t save d = (d', Ok x) -> save d = (d', Ok x).
Proof. unfold within_deadline. destruct t, (save d); congruence. Qed.
Lemma claims_Ok q own d d' c : calls q own -> account_claims q d = (d', Ok c) -> d' = d /\ parse_uuid (sub c) = Some own.
Proof. intros (_ & c' & Hc & Hown) (? & ? & [_ ->]%ensure_ok & Hl)%hbind_ok. apply hlift_Ok in Hl as [-> Hl]. split; [done|congruence]. Qed.

(** Someone in a room who is shown the private messages of two accounts: one of
    them, signed in, who accepts the other's. *)
Definition attends (p : participant) (own peer : N) : Prop :=
  Participant.authenticated p = true
  /\ ((Participant.id p = own /\ accepts_inbox_from (Participant.social p) peer = true)
      \/ (Participant.id p = peer /\ accepts_inbox_from (Participant.social p) own = true)).

Lemma attending message recipient own peer r c : own <> peer ->
  (ChatEntry.participant_id message = own /\ recipient = peer) \/ (ChatEntry.participant_id message = peer /\ recipient = own) ->
  c ∈ inbox_viewers r message recipient <-> exists p, p ∈ members r /\ Participant.sender p = c /\ attends p own peer.
Proof.
  intros Hne Hpair. rewrite elem_of_inbox_viewers. split; intros (p & Hp & Hc & Hx); exists p; (split; [done|]); (split; [done|]).
  - destruct Hx as (Ha & Hid & Hacc). split; [done|].
    destruct (N.eqb_spec (Participant.id p) recipient); destruct Hpair as [[? ->]|[? ->]]; destruct Hid; subst; (by left) || (by right) || congruence.
  - destruct Hx as [Ha Hwho]. split; [done|].
    destruct (N.eqb_spec (Participant.id p) recipient); destruct Hpair as [[-> ->]|[-> ->]]; destruct Hwho as [[? ?]|[? ?]]; subst; (split; [|done || congruence]); auto; congruence.
Qed.

(** C18: a private message sent over HTTP is saved, and reaches the rooms
    of the two accounts and nobody else.  What is answered is in the conversation
    of the two; no room changes; a connection gets something only if it belongs
    to one of the two, signed in and accepting messages from the other; and a new
    message is queued for every such connection that is open and registered, in a
    mapped room that is not being deleted and whose lock is free, or the
    connection is told to resynchronise. *)
Theorem private_send_reaches_the_pair q own peer request admitted mapped id now t busy d w d' w' m :
  reachable now d -> fresh id d -> (now < YEAR_10000)%N -> calls q own ->
  send_message q peer request admitted mapped id now t busy d w = (d', w', Ok m) ->
  (exists row, db_messages d' !! ChatEntry.message_id m = Some row /\ msg_conversation row = private_conversation own peer
               /\ m = conversation_message (msg_body row) true)
  /\ w' = w <| the_wire := the_wire w' |>
  /\ (forall c, queued_for (the_wire w') c <> queued_for (the_wire w) c -> exists room_id a p, rooms w !! room_id = Some a
        /\ Room.deleting (room_at w a) = false /\ p ∈ members (room_at w a) /\ Participant.sender p = c /\ attends p own peer)
  /\ (db_messages d !! ChatEntry.message_id m = None -> forall room_id a p, rooms w !! room_id = Some a -> busy a = false ->
        Room.deleting (room_at w a) = false -> p ∈ members (room_at w a) -> attends p own peer ->
        is_closed (the_wire w) (Participant.sender p) = false -> registered (the_wire w) (Participant.sender p) ->
        ServerMessage.PrivateMessageReceived m ∈ queued_for (the_wire w') (Participant.sender p)
        \/ resync_requested (the_wire w') (Participant.sender p)).
Proof.
  intros Hok%history_reachable_ok Hfresh Hnow Hcalls Hx. unfold send_message in Hx.
  destruct (hbind _ _ _) as [d1 [[saved created]|]] eqn:Hsave; [|done]. injection Hx as -> Hw ->.
  apply hbind_ok in Hsave as (? & c & [-> Hown]%(claims_Ok _ own) & Hsave%within_deadline_Ok); [|done].
  destruct (send_Ok _ _ _ _ _ _ _ _ _ _ Hok Hsave) as (own' & row & Hown' & Hne & Hpeer & Hrow & Hconv & Hm & Hcreated).
  assert (own' = own) as -> by congruence. split; [by exists row|].
  pose proof (send_carries untouched c peer request (context_in w (send_room request) admitted mapped) id now d Hok Hfresh Hnow) as Hok'.
  rewrite Hsave in Hok'. apply carried_ok in Hok'. pose proof (private_pair _ _ _ _ _ _ Hok' Hrow (parse_uuid_range _ _ Hown) Hpeer Hconv) as Hpair.
  assert (exists recipient, ChatEntry.recipient_id m = Some recipient
    /\ ((ChatEntry.participant_id m = own /\ recipient = peer) \/ (ChatEntry.participant_id m = peer /\ recipient = own))) as (recipient & Hrec & Hwho).
  { rewrite Hm. cbn. destruct Hpair as [[-> ->]|[-> ->]]; eexists; (split; [done|]); auto. }
  unfold deliver_inbox_message in Hw. rewrite Hrec, tell_rooms in Hw. set (ss := told busy m recipient w _) in Hw.
  assert (forall a, a ∈ (map_to_list (rooms w)).*2 <-> exists room_id, rooms w !! room_id = Some a) as Hrooms.
  { intros a. rewrite list_elem_of_fmap. setoid_rewrite <-elem_of_map_to_list. split; [intros ([room_id ?] & -> & ?); eauto|intros [room_id ?]; by exists (room_id, a)]. }
  split_and!.
  - subst w'. by destruct created, w.
  - intros con Hq. assert (con ∈ ss) as Hcon.
    { destruct (decide (con ∈ ss)) as [|Hn]; [done|]. exfalso. apply Hq. subst w'. destruct created; [|done]. by apply send_each_other. }
    apply elem_of_told in Hcon as (a & [room_id Ha]%Hrooms & _ & Hdel & (p & Hp & Hc & Hat)%(attending _ _ own peer)); [|done..]. by exists room_id, a, p.
  - intros Hnew room_id a p Ha Hfree Hdel Hp Hat Hopen Hreg. destruct created; [|by destruct (Hcreated eq_refl) as [? ?]; congruence]. subst w'. cbn.
    apply send_each_delivers; [|done|done]. apply elem_of_told. exists a. split_and!; [apply Hrooms; eauto|done|done|]. apply (attending _ _ own peer); eauto.
Qed.

(** However they end, the three handlers keep the tables in order. *)
Lemma within_deadline_keeps {A} t (save : requesting A) now d : history_ok now d -> carries (Licence (fun _ => False) (fun _ _ _ => True)) now d (save d).1 ->
  history_ok now (within_deadline t save d).1.
Proof. intros Hok Hc%carried_ok. unfold within_deadline. destruct t as [|[|]], (save d); done. Qed.
Lemma claimed_keeps {A} q (k : claims -> requesting A) now d : history_ok now d -> (forall c, history_ok now (k c d).1) ->
  history_ok now ((let! c := account_claims q in k c)%handler d).1.
Proof.
  intros Hok Hk. unfold account_claims, hbind, ensure, hret, bail, hlift. destruct (account_permit q); [|done]. destruct (claims_of q) as [c|]; [|done].
  exact (Hk c).
Qed.
Ltac through_handler :=
  match goal with |- context [match ?x ?d with _ => _ end] =>
    match goal with |- history_ok ?now _ => assert (history_ok now (x d).1) as Hk; [|destruct (x d) as [? [[? ?]|]]; exact Hk] end
  end;
  apply claimed_keeps; [done|]; intros c; apply within_deadline_keeps; [done|].
Lemma handlers_keep_history now d : history_ok now d ->
  (forall q peer request admitted mapped id t busy w, fresh id d -> (now < YEAR_10000)%N ->
     history_ok now (send_message q peer request admitted mapped id now t busy d w).1.1)
  /\ (forall q peer message request t, history_ok now (edit_message q peer message request now t d).1.1)
  /\ (forall q peer message e present t, history_ok now (set_private_reaction q peer message e present now t d).1.1).
Proof.
  intros Hok. split_and!.
  - intros q peer request admitted mapped id t busy w Hf Hn. unfold send_message. through_handler. by apply send_carries.
  - intros q peer message request t. unfold edit_message. through_handler. by apply private_edit_carries.
  - intros q peer message e present t. unfold set_private_reaction. through_handler. by apply private_react_carries.
Qed.
End delivery.

(** Ann writes to Bob, who is in the lounge. *)
Definition pair_world : world :=
  World {[5%N := sample_room [sample_participant 1 (text_of "Ann") 10; sample_participant 2 (text_of "Bob") 20]]} 6 {["lounge" := 5%N]} ∅ ∅ false
    (Wire {[ 10%N := Channel [] 8 false; 20%N := Channel [] 8 false ]} [(1%N, Registration 10 false); (2%N, Registration 20 false)] 3 0 0)
    ∅ (RateTable ∅ [] None) (RateTable ∅ [] None) 0 0 0 ∅ [].
Abbreviation ann_writes :=
  (send_message (H := ascii_unicode) (H0 := digit_codec) (H1 := digit_text) anns 2 (SendRequest "c1" (text_of "hello") None None []) true true 300 noon
     InTime (fun _ => false) empty_history pair_world).

Lemma private_send_reaches_the_pair_witness : exists d' w' m, ann_writes = (d', w', Ok m) /\ ChatEntry.content m = text_of "hello"
  /\ (ServerMessage.PrivateMessageReceived m ∈ queued_for (the_wire w') 20 \/ resync_requested (the_wire w') 20).
Proof.
  destruct ann_writes as [[d' w'] [m|]] eqn:Hx; [|apply (f_equal snd) in Hx; vm_compute in Hx; discriminate Hx]. exists d', w', m. split; [reflexivity|].
  split; [apply (f_equal snd) in Hx; vm_compute in Hx; by injection Hx as <-|].
  destruct (private_send_reaches_the_pair (H := ascii_unicode) (H0 := digit_codec) (H1 := digit_text) anns 1 2
    (SendRequest "c1" (text_of "hello") None None []) true true 300 noon InTime (fun _ => false)
    empty_history pair_world d' w' m empty_reachable) as (_ & _ & _ & Hall); [by split_and!|done|exact anns_calls|exact Hx|].
  apply (Hall (lookup_empty _) "lounge" 5%N (sample_participant 2 (text_of "Bob") 20)); [reflexivity|reflexivity|reflexivity| | |reflexivity|].
  - vm_compute. left.
  - split; [reflexivity|]. right. split; reflexivity.
  - eexists. split; [right; left|]. reflexivity.
Defined.
