(* ===== verification/Saturation.v ===== *)
(** * The saturation monitor ([src/src/saturation.rs])

    When the process or its media workers have no capacity left.  Every two
    seconds the monitor reads the counters of its cgroup and of each worker's
    thread, decides with hysteresis, and tells the worker pool.  Floating-point
    numbers are binary64 as IEEE 754 has them ([SpecFloat]). *)

From Stdlib Require Import SpecFloat.
From S2P Require Import Prelude Workers.

Definition f64 := spec_float.
Definition f64_of_N (n : N) : f64 := binary_normalize 53 1024 (Z.of_N n) 0 false.
Definition f64_div : f64 -> f64 -> f64 := SFdiv 53 1024.
Definition f64_mul : f64 -> f64 -> f64 := SFmul 53 1024.
Definition f64_ge (x y : f64) : bool := SFleb y x.
(** A literal: the number nearest to [m] divided by ten to the [k]. *)
Definition decimal (m k : N) : f64 := f64_div (f64_of_N m) (f64_of_N (10 ^ k)).
Definition clamp (x low high : f64) : f64 :=
  let x := if SFltb x low then low else x in
  if SFltb high x then high else x.
Definition share (part whole : N) : f64 := clamp (f64_div (f64_of_N part) (f64_of_N whole)) (f64_of_N 0) (f64_of_N 1).

Definition DEFAULT_THROTTLED_FRACTION : f64 := decimal 5 1.
Definition DEFAULT_PRESSURE_AVG10 : f64 := f64_of_N 50.
Definition DEFAULT_WORKER_UTILIZATION : f64 := decimal 7 1.
Definition DEFAULT_MEMORY_FRACTION : f64 := decimal 85 2.
Definition MEMORY_CLEAR_FACTOR : f64 := decimal 9 1.
Definition WORKER_CLEAR_FACTOR : f64 := decimal 8 1.

(** Thresholds, and the number of readings the window has room for. *)
Record saturation_config := SaturationConfig {
  throttled_threshold : f64; pressure_threshold : f64; worker_threshold : f64; memory_threshold : f64; window_ms : N; interval_ms : N }.
Definition default_config : saturation_config :=
  SaturationConfig DEFAULT_THROTTLED_FRACTION DEFAULT_PRESSURE_AVG10 DEFAULT_WORKER_UTILIZATION DEFAULT_MEMORY_FRACTION 10000 2000.
Definition capacity (config : saturation_config) : nat := N.to_nat (window_ms config / N.max (interval_ms config) 1) + 1.

(** ** Readings and verdicts *)

Definition memory_fraction (current max : option N) : option f64 :=
  match current, max with
  | Some current, Some max => if (0 <? max)%N then Some (f64_div (f64_of_N current) (f64_of_N max)) else None
  | _, _ => None
  end.

Definition evaluate_memory (previously_saturated : bool) (fraction : option f64) (threshold : f64) : bool :=
  match fraction with
  | None => false
  | Some fraction => if previously_saturated then f64_ge fraction (f64_mul threshold MEMORY_CLEAR_FACTOR) else f64_ge fraction threshold
  end.

Record cpu_stat := CpuStat { nr_periods : N; nr_throttled : N }.

Definition checked_sub (a b : N) : option N := if (b <=? a)%N then Some (a - b)%N else None.

Definition throttled_fraction (readings : list cpu_stat) : option f64 :=
  oldest ← head readings; newest ← last readings;
  periods ← checked_sub (nr_periods newest) (nr_periods oldest);
  throttled ← checked_sub (nr_throttled newest) (nr_throttled oldest);
  if (0 <? periods)%N then Some (share throttled periods) else None.

Definition evaluate (previously_saturated : bool) (throttled pressure : option f64) (config : saturation_config) : bool :=
  let throttled := default (f64_of_N 0) throttled in
  let pressure := default (f64_of_N 0) pressure in
  if previously_saturated
  then f64_ge throttled (f64_div (throttled_threshold config) (f64_of_N 2)) || f64_ge pressure (f64_div (pressure_threshold config) (f64_of_N 2))
  else f64_ge throttled (throttled_threshold config) || f64_ge pressure (pressure_threshold config).

(** Of the nanoseconds since the start and of CPU time at each reading. *)
Definition worker_utilization (readings : list (N * N)) : option f64 :=
  first ← head readings; final ← last readings;
  wall ← checked_sub final.1 first.1;
  if (wall =? 0)%N then None else Some (share (saturating_sub final.2 first.2) wall).

Definition evaluate_worker (previously_saturated : bool) (utilization : option f64) (threshold : f64) : bool :=
  match utilization with
  | None => false
  | Some share => if previously_saturated then f64_ge share (f64_mul threshold WORKER_CLEAR_FACTOR) else f64_ge share threshold
  end.

(** ** The monitor *)

Record monitor := Monitor {
  cgroup_saturated : bool; memory_saturated : bool; workers_saturated : bool;
  readings : list cpu_stat; worker_readings : gmap N (list (N * N)); worker_state : gmap N bool }.
#[export] Instance eta_monitor : Eta monitor := fun m =>
  Monitor (cgroup_saturated m) (memory_saturated m) (workers_saturated m) (readings m) (worker_readings m) (worker_state m).
Definition new_monitor : monitor := Monitor false false false [] ∅ ∅.

Definition process_saturated (m : monitor) : bool := cgroup_saturated m || memory_saturated m || workers_saturated m.

(** A full window forgets its oldest reading. *)
Definition push_reading {A} (room : nat) (x : A) (l : list A) : list A := (if bool_decide (length l = room) then tail l else l) ++ [x].

Definition slot_le (x y : N * nat) : Prop := (x.2 <= y.2)%nat.
#[export] Instance slot_le_dec x y : Decision (slot_le x y).
Proof. apply Nat.le_dec. Defined.

Section ticks.
Context (config : saturation_config).

(** What the files said this time. *)
Record signals := Signals { stat : option cpu_stat; pressure : option f64; memory_current : option N; memory_max : option N }.

Definition judge_process (s : signals) (m : monitor) : monitor :=
  let m := m <| readings ::= fun l => match stat s with Some x => push_reading (capacity config) x l | None => l end |> in
  m <| cgroup_saturated ::= fun previous => evaluate previous (throttled_fraction (readings m)) (pressure s) config |>
    <| memory_saturated ::= fun previous =>
         evaluate_memory previous (memory_fraction (memory_current s) (memory_max s)) (memory_threshold config) |>.

(** A pass over the workers: those still to come, and what has been seen. *)
Record pass := Pass { to_come : list N; any_reading : bool; every_saturated : bool }.

(** [worker_threads], in the order of their slots. *)
Definition worker_threads (p : pool_state) : list N := fst <$> merge_sort slot_le (map_to_list (threads p)).

(** What is known of workers that are gone is forgotten. *)
Definition begin_pass (p : pool_state) (m : monitor) : monitor * pass :=
  let ids := worker_threads p in
  let retain {A} : gmap N A -> gmap N A := filter (fun x => x.1 ∈ ids) in
  (m <| worker_readings ::= retain |> <| worker_state ::= retain |>, Pass ids false true).

(** One worker: [sample] is the time and its CPU time, when they can be read. *)
Definition judge_worker (id : N) (sample : option (N * N)) (m : monitor) (p : pool_state) : monitor * pool_state * option f64 * bool :=
  let history := default [] (worker_readings m !! id) in
  let history := match sample with Some x => push_reading (capacity config) x history | None => [] end in
  let utilization := worker_utilization history in
  let previous := default false (worker_state m !! id) in
  let saturated := evaluate_worker previous utilization (worker_threshold config) in
  (m <| worker_readings ::= <[id := history]> |> <| worker_state ::= <[id := saturated]> |>,
   if bool_decide (saturated = previous) then p else set_worker_saturated id saturated p, utilization, saturated).

Definition note (utilization : option f64) (saturated : bool) (rest : list N) (x : pass) : pass :=
  match utilization with
  | Some _ => Pass rest true (every_saturated x && saturated)
  | None => Pass rest (any_reading x) false
  end.

Definition end_pass (x : pass) (m : monitor) : monitor := m <| workers_saturated := any_reading x && every_saturated x |>.

(** The monitor beside the pool.  Files are read between the steps of a tick,
    and workers are replaced. *)
Record state := State { the_monitor : monitor; the_pass : option pass; the_pool : pool_state }.

Inductive step : state -> state -> Prop :=
| step_tick s m p : step (State m None p) (let '(m, x) := begin_pass p (judge_process s m) in State m (Some x) p)
| step_worker id rest any every sample m p :
    step (State m (Some (Pass (id :: rest) any every)) p)
         (let '(m, p, utilization, saturated) := judge_worker id sample m p in
          State m (Some (note utilization saturated rest (Pass (id :: rest) any every))) p)
| step_end any every m p : step (State m (Some (Pass [] any every)) p) (State (end_pass (Pass [] any every) m) None p)
| step_replace i dead m x p : step (State m x p) (State m x (install_replacement i dead p))
| step_shut m x p : step (State m x p) (State m x (clear_pool p))
(** Everything else that happens to the pool. *)
| step_pool m x p p' : threads p' = threads p -> saturated p' = saturated p -> (next_id p <= next_id p')%N -> step (State m x p) (State m x p').

(** The monitor starts beside a pool nobody has judged. *)
Definition initial (s : state) : Prop :=
  the_monitor s = new_monitor /\ the_pass s = None /\ saturated (the_pool s) = ∅ /\ forall id, is_Some (threads (the_pool s) !! id) -> (id < next_id (the_pool s))%N.
Definition reachable (s : state) : Prop := exists s0, initial s0 /\ rtc step s0 s.

(** A tick that nothing interrupts. *)
Definition pass_over (samples : N -> option (N * N)) (ids : list N) (x : pass) (m : monitor) (p : pool_state) : monitor * pool_state :=
  let '(m, p, x) := foldl (fun '(m, p, x) id =>
      let '(m, p, utilization, saturated) := judge_worker id (samples id) m p in (m, p, note utilization saturated (tail (to_come x)) x)) (m, p, x) ids in
  (end_pass x m, p).
Definition tick (s : signals) (samples : N -> option (N * N)) (m : monitor) (p : pool_state) : monitor * pool_state :=
  let '(m, x) := begin_pass p (judge_process s m) in
  pass_over samples (to_come x) x m p.
End ticks.

(** ** The flags of the pool are the verdicts *)

Lemma elem_of_worker_threads p id : id ∈ worker_threads p <-> is_Some (threads p !! id).
Proof.
  unfold worker_threads. rewrite merge_sort_Permutation, list_elem_of_fmap. split.
  - intros ([? slot] & -> & Hx%elem_of_map_to_list). by exists slot.
  - intros [slot Hs]. exists (id, slot). split; [done|]. by apply elem_of_map_to_list.
Qed.
Lemma worker_threads_nodup p : NoDup (worker_threads p).
Proof. unfold worker_threads. rewrite merge_sort_Permutation. apply NoDup_fst_map_to_list. Qed.

(** What is known of a worker: its flag is its verdict, and identifiers are not
    reused. *)
Record agree (m : monitor) (p : pool_state) : Prop := {
  agree_flags : forall id, is_Some (threads p !! id) -> worker_saturated id p = default false (worker_state m !! id);
  agree_threads : forall id, is_Some (threads p !! id) -> (id < next_id p)%N;
  agree_flagged : forall id, id ∈ saturated p -> (id < next_id p)%N;
  agree_judged : forall id, is_Some (worker_state m !! id) -> (id < next_id p)%N
}.
Definition pass_issued (x : option pass) (p : pool_state) : Prop := forall y id, x = Some y -> id ∈ to_come y -> (id < next_id p)%N.

Lemma worker_saturated_set id id' b p : worker_saturated id (set_worker_saturated id' b p) = if decide (id = id') then b else worker_saturated id p.
Proof.
  unfold worker_saturated, set_worker_saturated. cbn. destruct (decide (id = id')) as [->|Hne]; destruct b; try apply bool_decide_ext; try apply bool_decide_eq_true; try apply bool_decide_eq_false; set_solver.
Qed.

Section flags.
Context (config : saturation_config).

Lemma begin_agrees s m p : agree m p -> agree (begin_pass p (judge_process config s m)).1 p.
Proof.
  intros [Hf Ht Hs Hj]. split; try done; cbn.
  - intros id Hid. rewrite (Hf id Hid). f_equal. destruct (worker_state m !! id) as [b|] eqn:Hb.
    + symmetry. apply map_lookup_filter_Some. split; [done|]. by apply elem_of_worker_threads.
    + symmetry. apply map_lookup_filter_None. by left.
  - intros id [b [Hb _]%map_lookup_filter_Some]. eauto.
Qed.

Lemma judge_agrees id sample m p m' p' u b : agree m p -> (id < next_id p)%N ->
  judge_worker config id sample m p = (m', p', u, b) -> agree m' p' /\ next_id p' = next_id p /\ threads p' = threads p.
Proof.
  intros [Hf Ht Hs Hj] Hid. unfold judge_worker. set (history := match sample with Some _ => _ | None => _ end). clearbody history.
  set (verdict := evaluate_worker _ _ _). clearbody verdict. intros [= <- <- <- <-].
  assert (forall q, threads q = threads p -> next_id q = next_id p -> (forall k, k ∈ saturated q -> k = id \/ k ∈ saturated p) ->
    (forall k, is_Some (threads p !! k) -> worker_saturated k q = if decide (k = id) then verdict else worker_saturated k p) ->
    agree (m <| worker_readings ::= <[id := history]> |> <| worker_state ::= <[id := verdict]> |>) q) as Hgen.
  { intros q Htq Hnq Hsq Hfq. split; cbn; rewrite ?Htq, ?Hnq; [|done| |].
    - intros k Hk. rewrite (Hfq k Hk). destruct (decide (k = id)) as [->|]; [by rewrite lookup_insert_eq|]. rewrite lookup_insert_ne by done. by apply Hf.
    - intros k [->|Hk]%Hsq; auto.
    - intros k. rewrite lookup_insert_is_Some. intros [->|[_ ?]]; auto. }
  case_bool_decide as Hprev.
  - split; [|done]. apply Hgen; auto. intros k Hk. destruct (decide (k = id)) as [->|]; [|done]. by rewrite (Hf id Hk), Hprev.
  - split; [|done]. apply Hgen; [done|done| |].
    + intros k. cbn. destruct verdict; set_solver.
    + intros k _. by rewrite worker_saturated_set.
Qed.

Definition state_ok (s : state) : Prop := agree (the_monitor s) (the_pool s) /\ pass_issued (the_pass s) (the_pool s).

Lemma replace_agrees i dead m p : agree m p -> agree m (install_replacement i dead p).
Proof.
  intros [Hf Ht Hs Hj]. split; cbn.
  - intros id. rewrite lookup_insert_is_Some. intros [<-|[Hne [Hnd Hid]%lookup_delete_is_Some]].
    + unfold worker_saturated. cbn. rewrite bool_decide_false by (intros [Hin%Hs _]%elem_of_difference; lia).
      destruct (worker_state m !! next_id p) eqn:Hx; [|done]. pose proof (Hj (next_id p) ltac:(eauto)). lia.
    + rewrite <-(Hf id Hid). unfold worker_saturated. cbn. apply bool_decide_ext. set_solver.
  - intros id. rewrite lookup_insert_is_Some. intros [<-|[_ [_ Hid%Ht]%lookup_delete_is_Some]]; lia.
  - intros id [Hid%Hs _]%elem_of_difference. lia.
  - intros id Hid%Hj. lia.
Qed.

Lemma monitor_step_ok s s' : step config s s' -> state_ok s -> state_ok s'.
Proof.
  intros [sig m p|id rest any every sample m p|any every m p|i dead m x p|m x p|m x p p' Ht' Hs' Hn'] [Hag Hpass]; cbn [the_monitor the_pass the_pool] in *.
  - split; [by apply begin_agrees|]. intros y id [= <-] Hid%elem_of_worker_threads. by apply (agree_threads _ _ Hag).
  - assert (forall k, k ∈ id :: rest -> (k < next_id p)%N) as Hissued by (intros k Hk; exact (Hpass _ k eq_refl Hk)).
    destruct (judge_worker config id sample m p) as [[[m' p'] u] b] eqn:Hj.
    destruct (judge_agrees _ _ _ _ _ _ _ _ Hag (Hissued id ltac:(left)) Hj) as (Hag' & Hn & _).
    split; [exact Hag'|]. intros y k [= <-] Hk. cbn. rewrite Hn. apply Hissued. right. by destruct u.
  - split; [|done]. by destruct Hag.
  - split; [by apply replace_agrees|]. intros y id Hy Hid. pose proof (Hpass y id Hy Hid). cbn. lia.
  - split; [|exact Hpass]. destruct Hag as [_ _ _ Hj]. split; cbn; [by intros id [? ?]|by intros id [? ?]|set_solver|done].
  - destruct Hag as [Hf Ht Hs Hj]. split.
    + split; cbn; rewrite ?Ht', ?Hs'.
      * intros id Hid. rewrite <-(Hf id Hid). unfold worker_saturated. by rewrite Hs'.
      * intros id Hid%Ht. lia.
      * intros id Hid%Hs. lia.
      * intros id Hid%Hj. lia.
    + intros y id Hy Hid. pose proof (Hpass y id Hy Hid). cbn. lia.
Qed.

Lemma reachable_state_ok s : reachable config s -> state_ok s.
Proof.
  intros (s0 & (Hm & Hx & Hs & Ht) & Hrun). assert (state_ok s0) as Hok.
  { split; [|intros y id Hy; congruence]. rewrite Hm. split; [|done|rewrite Hs; set_solver|cbn; intros id [? ?]; done].
    intros id _. unfold worker_saturated. by rewrite Hs. }
  clear -Hok Hrun. induction Hrun; eauto using monitor_step_ok.
Qed.

(** Placement sees the monitor's verdicts.  Whenever files are being read and
    workers replaced, each worker of the pool is flagged as saturated exactly if
    the monitor last judged it so; a replacement starts without the flag. *)
Theorem workers_are_flagged_as_judged s id : reachable config s -> is_Some (threads (the_pool s) !! id) ->
  worker_saturated id (the_pool s) = default false (worker_state (the_monitor s) !! id).
Proof. intros [Hag _]%reachable_state_ok. apply (agree_flags _ _ Hag). Qed.

(** ** Capacity *)

Lemma judge_flag id sample m p m' p' u b : agree m p -> is_Some (threads p !! id) -> judge_worker config id sample m p = (m', p', u, b) ->
  worker_saturated id p' = b /\ (forall k, k <> id -> worker_saturated k p' = worker_saturated k p) /\ (u = None -> b = false).
Proof.
  intros Hag Hid Hj. destruct (judge_agrees _ _ _ _ _ _ _ _ Hag (agree_threads _ _ Hag _ Hid) Hj) as (Hag' & _ & Ht).
  unfold judge_worker in Hj. injection Hj as <- <- <- Hb. split_and!.
  - rewrite (agree_flags _ _ Hag') by (by rewrite Ht). cbn. by rewrite lookup_insert_eq.
  - intros k Hk. case_bool_decide; [done|]. rewrite worker_saturated_set. by destruct (decide (k = id)).
  - intros Hu. rewrite <-Hb. unfold evaluate_worker. by rewrite Hu.
Qed.

Lemma pass_flags samples ids x m p : agree m p -> NoDup ids -> (forall id, id ∈ ids -> is_Some (threads p !! id)) ->
  let out := pass_over config samples ids x m p in
  agree out.1 out.2 /\ threads out.2 = threads p /\ (forall k, k ∉ ids -> worker_saturated k out.2 = worker_saturated k p)
  /\ workers_saturated out.1 = (if decide (ids = []) then any_reading x && every_saturated x
                                else every_saturated x && forallb (fun id => worker_saturated id out.2) ids).
Proof.
  revert x m p. induction ids as [|id ids IH]; intros x m p Hag Hnd Hids.
  { cbn. split_and!; [|done|done|done]. by destruct Hag. }
  unfold pass_over. cbn [foldl]. destruct (judge_worker config id (samples id) m p) as [[[m1 p1] u] b] eqn:Hj.
  fold (pass_over config samples ids (note u b (tail (to_come x)) x) m1 p1). apply NoDup_cons in Hnd as [Hid Hnd].
  assert (is_Some (threads p !! id)) as Hin by (apply Hids; left).
  destruct (judge_agrees _ _ _ _ _ _ _ _ Hag (agree_threads _ _ Hag _ Hin) Hj) as (Hag1 & _ & Ht1).
  destruct (judge_flag _ _ _ _ _ _ _ _ Hag Hin Hj) as (Hb & Hothers & Hnone).
  destruct (IH (note u b (tail (to_come x)) x) m1 p1 Hag1 Hnd) as (Hag2 & Ht2 & Hk & Hw); [intros k Hk; rewrite Ht1; apply Hids; by right|].
  split_and!; [done|congruence|intros k Hkn; rewrite Hk by set_solver; apply Hothers; set_solver|].
  rewrite decide_False by done. cbn [forallb]. rewrite (Hk id Hid), Hb, Hw. destruct (decide (ids = [])) as [->|].
  - destruct u; cbn; [by rewrite andb_true_r|]. rewrite (Hnone eq_refl). by rewrite !andb_false_r.
  - destruct u; cbn; [by rewrite andb_assoc|]. rewrite (Hnone eq_refl). by rewrite andb_false_r.
Qed.

(** The process has no capacity left on its workers exactly if it has workers
    and every one is flagged: a worker without a reading counts as free. *)
Theorem tick_counts_every_worker sig samples s : reachable config s -> the_pass s = None ->
  let out := tick config sig samples (the_monitor s) (the_pool s) in
  threads out.2 = threads (the_pool s)
  /\ (workers_saturated out.1 = true
      <-> threads out.2 <> ∅ /\ forall id, is_Some (threads out.2 !! id) -> worker_saturated id out.2 = true).
Proof.
  intros [Hag _]%reachable_state_ok _ out. unfold out, tick. pose proof (begin_agrees sig _ _ Hag) as Hag'.
  destruct (begin_pass _ _) as [m x] eqn:Hm. assert (to_come x = worker_threads (the_pool s)) as Hids by (by injection Hm as _ <-). cbn [fst] in Hag'.
  destruct (pass_flags samples (to_come x) x m (the_pool s) Hag') as (_ & Ht & _ & Hw).
  { rewrite Hids. apply worker_threads_nodup. }
  { intros id Hid. rewrite Hids in Hid. by apply elem_of_worker_threads. }
  split; [done|]. rewrite Hw, Ht. assert (any_reading x = false /\ every_saturated x = true) as [-> ->] by (by injection Hm as _ <-).
  destruct (decide (to_come x = [])) as [He|Hne].
  - cbn. split; [done|]. intros [Hn _]. exfalso. apply Hn. apply map_empty. intros id. destruct (threads (the_pool s) !! id) eqn:Hid; [|done].
    assert (id ∈ to_come x) as Hin by (rewrite Hids; apply elem_of_worker_threads; eauto). rewrite He in Hin. by apply not_elem_of_nil in Hin.
  - rewrite andb_true_l, forallb_forall. setoid_rewrite <-list_elem_of_In. rewrite Hids. setoid_rewrite elem_of_worker_threads. split; [|by intros [_ ?]].
    intros Hall. split; [|done]. intros He. apply Hne. rewrite Hids. unfold worker_threads. by rewrite He, map_to_list_empty.
Qed.

(** ** Windows *)

Lemma push_bounded {A} (x : A) l : (length l <= capacity config)%nat -> (length (push_reading (capacity config) x l) <= capacity config)%nat.
Proof.
  assert (0 < capacity config)%nat by (unfold capacity; rewrite Nat.add_1_r; apply Nat.lt_0_succ). intros Hl. unfold push_reading. rewrite length_app. cbn.
  case_bool_decide as He; [|lia]. destruct l; cbn in *; lia.
Qed.

Definition windows_ok (m : monitor) : Prop :=
  (length (readings m) <= capacity config)%nat /\ map_Forall (fun _ l => (length l <= capacity config)%nat) (worker_readings m).

Lemma judge_windows id sample m p : windows_ok m -> windows_ok (judge_worker config id sample m p).1.1.1.
Proof.
  intros [Hr Hw]. split; [done|]. apply map_Forall_insert_2; [|done]. destruct sample; cbn; [|lia]. apply push_bounded.
  destruct (worker_readings m !! id) as [l|] eqn:Hl; [exact (Hw id l Hl)|cbn; lia].
Qed.

(** No window keeps more readings than it has room for, however long it runs. *)
Theorem windows_stay_bounded s : reachable config s -> windows_ok (the_monitor s).
Proof.
  intros (s0 & (Hm & _) & Hrun). assert (windows_ok (the_monitor s0)) as Hok by (rewrite Hm; split; [cbn; lia|apply map_Forall_empty]).
  clear Hm. induction Hrun as [s|s s1 s2 Hstep _ IH]; [done|]. apply IH. clear IH. destruct Hstep as [sig m p|id rest any every sample m p| | | |]; try exact Hok.
  - destruct Hok as [Hr Hw]. split; cbn.
    + destruct (stat sig); [by apply push_bounded|done].
    + intros id l [Hl _]%map_lookup_filter_Some. exact (Hw id l Hl).
  - pose proof (judge_windows id sample m p Hok) as Hj. destruct (judge_worker config id sample m p) as [[[m' p'] u] b]. exact Hj.
Qed.
End flags.

(** ** Hysteresis *)

Lemma above_trans x high low (mh ml : positive) (eh el : Z) : high = S754_finite false mh eh -> low = S754_finite false ml el ->
  f64_ge high low = true -> f64_ge x high = true -> f64_ge x low = true.
Proof.
  intros -> ->. unfold f64_ge, SFleb, SFcompare. destruct x as [|[]| |[] m e]; try done.
  destruct (Z.compare_spec el eh), (Z.compare_spec eh e), (Z.compare_spec el e); try done; try lia.
  change (Pos.compare_cont Eq ml mh) with (ml ?= mh)%positive. change (Pos.compare_cont Eq mh m) with (mh ?= m)%positive.
  change (Pos.compare_cont Eq ml m) with (ml ?= m)%positive.
  destruct (Pos.compare_spec ml mh), (Pos.compare_spec mh m), (Pos.compare_spec ml m); try done; lia.
Qed.

(** With the default thresholds every guard clears below where it trips: a
    reading that lets one go would not have tripped it. *)
Theorem guards_clear_below_their_threshold : let c := default_config in
  (forall u, evaluate_worker false u (worker_threshold c) = true -> evaluate_worker true u (worker_threshold c) = true)
  /\ (forall f, evaluate_memory false f (memory_threshold c) = true -> evaluate_memory true f (memory_threshold c) = true)
  /\ (forall t p, evaluate false t p c = true -> evaluate true t p c = true).
Proof.
  split_and!.
  - intros [u|]; [|done]. cbn [evaluate_worker]. eapply above_trans; vm_compute; reflexivity.
  - intros [f|]; [|done]. cbn [evaluate_memory]. eapply above_trans; vm_compute; reflexivity.
  - intros t p. unfold evaluate. rewrite !orb_true_iff. intros [Ht|Hp]; [left; revert Ht|right; revert Hp]; eapply above_trans; vm_compute; reflexivity.
Qed.
